(* ===== verification/_CoqProject ===== *)
-Q . S2P
Prelude.v
Bytes.v
Riscv.v
CString.v
Machine.v
Kstate.v
Kalloc.v
Vm.v
VmProps.v
VmCopy.v
VmFork.v
VmKernel.v
VmFree.v
Sched.v
Bio.v
Log.v
LogProps.v
LogCrash.v
LogTxn.v
Printf.v
Console.v
Pipe.v
Fs.v
FsPath.v
FsTxn.v
FsAlloc.v
FsCommit.v
FsFile.v
FsDir.v
FsBmap.v
File.v
FsWrite.v
FsTrunc.v
Mkfs.v
MkfsProps.v
MkfsImage.v
MkfsMain.v
MkfsTypes.v
MkfsBoot.v
FsLink.v
Proc.v
ProcProps.v
ProcMem.v
Boot.v
BootOrder.v
ProcFork.v
ProcWait.v
Exec.v
Sysfile.v
Syscall.v
Trap.v
Spinlock.v
VirtioDisk.v
ULib.v
UPrintf.v
UMalloc.v
UMallocProps.v
UMallocOps.v
UMallocSpec.v
Grep.v
Sh.v
ShProps.v
ShParse.v
ShRun.v
Smash.v
SmashRun.v
SmashProps.v
Tools.v
ToolsProps.v
