(* ===== verification/Prelude.v ===== *)
(** * FogOS: a verification library for the kernel and its user programs

    FogOS is an xv6 descendant for RISC-V: a small Unix kernel (src/kernel)
    with its user programs (src/user) and the program that builds its disk
    image (src/mkfs).  This library translates the C code
    into Rocq functions and proves what the code promises.

    ** Parts of the system and how they interact

    Memory: kalloc.c keeps the free pages in a list through the pages
    themselves; vm.c builds three-level page tables out of them and copies
    between kernel and user memory through them.  Processes: proc.c schedules,
    forks, waits and sleeps; trap.c and syscall.c enter the kernel, exec.c
    loads programs.  Storage: virtio_disk.c talks to the disk, bio.c caches its
    blocks, log.c makes groups of block writes atomic, fs.c keeps inodes,
    directories and paths in blocks, file.c and sysfile.c give them to
    processes, pipe.c connects processes.  Devices: uart.c, console.c,
    printf.c.  Locks: spinlock.c between CPUs, sleeplock.c between threads.
    User side: ulib.c, printf.c and umalloc.c are linked into the programs;
    sh.c and smash.c run commands with fork, exec, pipe and dup; init.c starts
    the shell; cat, wc, sort and the like are filters.  Host side: mkfs.c
    writes the disk image that the kernel boots from, with the layout of fs.h.

    ** Files of the library

    - Prelude: results and the state monad, machine integers, byte memory.
      Bytes: little-endian fields of byte lists.  Riscv: riscv.h, memlayout.h,
      param.h, fcntl.h.  CString: string.c.  Machine: the control registers of
      riscv.h and start.c.  Kstate: the state of the kernel, one record
      field per global variable or field of a C structure, and spinlocks as
      one thread sees them.
    - Kalloc: kalloc.c.  Vm: vm.c; VmProps and VmCopy: its theorems on
      mapping, unmapping, growing and copying; VmFork: copying an address
      space; VmFree: freeing one; VmKernel: the kernel's own address space.
    - Sched: sleep, wakeup, sched, yield, kill of proc.c and sleeplock.c.
      Proc: the rest of proc.c; ProcProps: the scheduler's theorem; ProcMem:
      the memory of a process from allocproc to freeproc; ProcFork: fork;
      ProcWait: wait.
    - Boot: main.c and the initialisation of the devices; BootOrder: main on
      several harts.
    - Bio: bio.c.  Log: log.c; LogProps, LogCrash: what a commit writes, and
      crashes; LogTxn: interleaved operations.
    - Printf: printf.c.  Console: console.c and uart.c.  Pipe: pipe.c.
    - Fs: fs.c; FsPath: paths and inodes on disk; FsTxn: single blocks inside a
      transaction, the interface of the following to the cache and the log;
      FsAlloc: the block bitmap; FsCommit: whole transactions; FsFile: the
      content of an inode; FsDir: the inode table and directories; FsBmap:
      allocation of a file's blocks; FsWrite, FsTrunc: writing and truncating;
      FsLink: adding a directory entry.
      File: file.c.  Exec: exec.c.  Sysfile: sysfile.c.  Syscall: syscall.c and sysproc.c.
      Trap: trap.c and plic_claim.
    - Spinlock: spinlock.c again, at the level of the accesses to shared
      words, on any number of CPUs.  VirtioDisk: virtio_disk.c with the device
      as an environment.
    - Mkfs: mkfs/mkfs.c; MkfsProps, MkfsImage, MkfsMain: the image it builds;
      MkfsTypes: that it always ends with a well-formed image or a message;
      MkfsBoot: the kernel's file system on the image of mkfs.
    - ULib: user/ulib.c.  UPrintf: user/printf.c.  UMalloc: user/umalloc.c;
      UMallocProps, UMallocOps, UMallocSpec: its theorems.  Grep: user/grep.c.
      Sh: user/sh.c; ShProps, ShParse: its parser; ShRun: the processes a
      command starts.  Smash: user/smash.c; SmashRun: its pipelines;
      SmashProps: history and words.  Tools: the small programs; ToolsProps:
      their theorems.

    A C function is a Rocq definition of the same name; loops are fixpoints
    next to it.  A kernel routine is a computation in the monad [K] over
    [kstate]; its result says whether it returned, called [panic], gave up the
    CPU ([Sleep], with the rest of the routine as a function of the state it
    finds later) or ran out of fuel.  Pointers to table entries are indices,
    other pointers are addresses; integers are [Z] with their wrap-around
    written out.  A user program is a tree of system calls, [prog], whose
    branches are the kernel's answers.

    ** What the theorems show

    - Crash safety and transactions: [commit] is atomic whatever prefix of its
      disk writes survives a crash (LogCrash); space in the log is reserved, a
      commit is exclusive, a block is logged once (LogTxn); a transaction from
      [begin_op] to [end_op] puts on the disk what its body saw (FsCommit).
    - File system: blocks are allocated and freed exactly (FsAlloc), a file's
      content is read exactly (FsFile), written exactly, with the blocks that
      are missing allocated and within the log's budget (FsWrite), and its
      blocks are all freed (FsTrunc); an inode has one table entry and a
      directory lookup finds the first entry with the name (FsDir); adding an
      entry is insertion into the map from names to inodes (FsLink).
    - Disk image: mkfs builds an image that holds exactly the files of its
      arguments, with the super block, empty log, inodes and bitmap the kernel
      expects (MkfsMain); whatever the arguments, it ends (MkfsTypes); on the
      image the kernel reads back exactly the bytes of each file (MkfsBoot).
    - Memory: the page allocator refines a pool of pages (Kalloc); mapping,
      unmapping, growing and copying refine operations on the map of
      translations, with their error paths (VmCopy); copying an address space
      is all or nothing (VmFork) and freeing one returns exactly its pages
      (VmFree); the kernel's own table holds exactly its regions and stacks,
      with unmapped pages between the stacks (VmKernel).
    - Boot: machine mode is left with the registers the kernel relies on
      (Machine); from arbitrary memory the calls of main build the kernel's
      page table, its tables and first process and program the devices,
      without panic (Boot); no hart schedules before that (BootOrder).
    - Processes: setting up a process is all or nothing, and freeing it gives
      back every page (ProcMem); fork makes a copy of its caller that differs
      in its return value (ProcFork); wait reaps an exited child with all it
      owns, or sleeps (ProcWait).
    - Concurrency: mutual exclusion and interrupt discipline of spinlocks in
      every interleaving (Spinlock); the disk driver never panics, conserves its
      descriptors and completes requests in every order (VirtioDisk); a round
      of the scheduler is fair (ProcProps).
    - Data paths: pipes are queues (Pipe), the console is a line editor
      (Console), numbers are printed right (Printf, UPrintf), inodes survive
      their encoding and paths are walked element by element (FsPath).
    - User programs: the heap is tiled by blocks and malloc, free and realloc
      refine operations on the live allocations (UMallocSpec); getline returns
      whole lines (ULib); grep decides its patterns and prints the matching
      lines (Grep); the shell's parser is total and inverts printing (ShProps,
      ShParse), and a command's programs run with the descriptors its text
      says (ShRun); smash connects the stages of a pipeline and leaves its own
      descriptors unchanged (SmashRun), and its history ring is a window on all
      commands (SmashProps); sort sorts, wc counts, and the buffered catlines
      agree with the unbuffered one (ToolsProps).

    ** Fuel

    A loop that is not structural has fuel computed from the state, one more
    than the iterations it can take (pages of a range, blocks below the break,
    bytes of a file); the theorems that a routine returns show that it is
    enough.  Loops that wait for a condition are bounded by [WAKEUPS] wake-ups;
    the theorems about them say when they need not wait.

    ** Not modelled

    Assembly (entry, trampoline, swtch, kernelvec), mycpu, plic_complete, and
    caches of translations.
    Of the user side, the test programs and those that only make one call or
    print one message (about, freemem, reboot, rtc, shutdown, spinner, zombie).
    Running a process is a parameter of the scheduler;
    whether the kernel grants sbrk is a parameter of the allocator; the device
    of the disk driver is an environment that completes requests in any
    order; while the kernel boots, what a device register reads is a function
    of the writes before, and which bits of its control registers a hart
    implements is a parameter. *)

From stdpp Require Export base numbers gmap list strings.
From Stdlib Require Export ZArith Lia.

#[global] Set Default Goal Selector "!".
#[global] Open Scope Z_scope.

(** ** Results of a kernel routine

    A C routine either returns, or calls [panic] (which never returns), or
    gives up the CPU in [sleep] on a wait channel and goes on, later, from the
    state the other threads left.  [NoFuel] is the outcome of a loop whose
    fuel (a bound on its iterations) ran out. *)

Inductive res (C S A : Type) : Type :=
| Ok (a : A) (s : S)
| Panic (msg : string)
| Sleep (chan : C) (s : S) (k : S → res C S A)
| NoFuel.
Arguments Ok {C S A} a s.
Arguments Panic {C S A} msg.
Arguments Sleep {C S A} chan s k.
Arguments NoFuel {C S A}.

Definition M (C S A : Type) : Type := S → res C S A.

Fixpoint rbind {C S A B} (f : A → M C S B) (r : res C S A) : res C S B :=
  match r with
  | Ok a s => f a s
  | Panic m => Panic m
  | Sleep c s k => Sleep c s (λ s', rbind f (k s'))
  | NoFuel => NoFuel
  end.

#[export] Instance M_ret {C S} : MRet (M C S) := λ A a s, Ok a s.
#[export] Instance M_bind {C S} : MBind (M C S) := λ A B f m s, rbind f (m s).

Definition panic {C S A} (msg : string) : M C S A := λ _, Panic msg.
Definition nofuel {C S A} : M C S A := λ _, NoFuel.
Definition gets {C S A} (f : S → A) : M C S A := λ s, Ok (f s) s.
Definition modify {C S} (f : S → S) : M C S () := λ s, Ok () (f s).
Definition whenM {C S} (b : bool) (m : M C S ()) : M C S () :=
  if b then m else mret ().

Section monad.
Context {C S : Type}.

Lemma bind_ok {A B} (m : M C S A) (f : A → M C S B) s a s' :
  m s = Ok a s' → (m ≫= f) s = f a s'.
Proof. intros H. unfold mbind, M_bind. by rewrite H. Qed.

Lemma bind_ok2 {A B D} (m : M C S A) (f : A → M C S B) (g : B → M C S D) s a s' :
  m s = Ok a s' → ((m ≫= f) ≫= g) s = (f a ≫= g) s'.
Proof. intros H. unfold mbind, M_bind. by rewrite H. Qed.

Lemma bind_panic {A B} (m : M C S A) (f : A → M C S B) s msg :
  m s = Panic msg → (m ≫= f) s = Panic msg.
Proof. intros H. unfold mbind, M_bind. by rewrite H. Qed.

Lemma bind_Ok_inv {A B} (m : M C S A) (f : A → M C S B) s b s' :
  (m ≫= f) s = Ok b s' → ∃ a s1, m s = Ok a s1 ∧ f a s1 = Ok b s'.
Proof.
  unfold mbind, M_bind. destruct (m s) as [a s1| |c s1 k|]; simpl; [eauto|done..].
Qed.

Lemma bind_gets {A B} (g : S → A) (f : A → M C S B) s :
  (gets g ≫= f) s = f (g s) s.
Proof. done. Qed.

Lemma bind_modify {B} (g : S → S) (f : () → M C S B) s :
  (modify g ≫= f) s = f () (g s).
Proof. done. Qed.

Lemma bind_mret {A B} (a : A) (f : A → M C S B) s : (mret a ≫= f) s = f a s.
Proof. done. Qed.

(** The same under a further continuation. *)
Lemma bind_gets2 {A B D} (g : S → A) (f : A → M C S B) (h : B → M C S D) s :
  ((gets g ≫= f) ≫= h) s = (f (g s) ≫= h) s.
Proof. done. Qed.

Lemma bind_modify2 {B D} (g : S → S) (f : () → M C S B) (h : B → M C S D) s :
  ((modify g ≫= f) ≫= h) s = (f () ≫= h) (g s).
Proof. done. Qed.

Lemma bind_mret2 {A B D} (a : A) (f : A → M C S B) (h : B → M C S D) s :
  ((mret a ≫= f) ≫= h) s = (f a ≫= h) s.
Proof. done. Qed.

Lemma bind_gets3 {A B D E} (g : S → A) (f : A → M C S B) (h : B → M C S D) (k : D → M C S E) s :
  (((gets g ≫= f) ≫= h) ≫= k) s = ((f (g s) ≫= h) ≫= k) s.
Proof. done. Qed.

Lemma bind_mret3 {A B D E} (a : A) (f : A → M C S B) (h : B → M C S D) (k : D → M C S E) s :
  (((mret a ≫= f) ≫= h) ≫= k) s = ((f a ≫= h) ≫= k) s.
Proof. done. Qed.

Lemma bind_assoc {A B D} (m : M C S A) (f : A → M C S B) (g : B → M C S D) s :
  match m s with Sleep _ _ _ => False | _ => True end →
  ((m ≫= f) ≫= g) s = (m ≫= (λ x, f x ≫= g)) s.
Proof. unfold mbind, M_bind. by destruct (m s). Qed.
End monad.

(** [mrun] runs the monadic prefix of the goal as far as it computes. *)
Ltac mrun :=
  repeat first
    [ rewrite bind_gets | rewrite bind_modify | rewrite bind_mret
    | rewrite bind_gets2 | rewrite bind_modify2 | rewrite bind_mret2
    | rewrite bind_gets3 | rewrite bind_mret3
    | progress cbn [fst snd] ].

(** [minv H] peels one bind off a successful run. *)
Ltac minv H :=
  let a := fresh "a" in let s := fresh "s" in let H1 := fresh H in
  apply bind_Ok_inv in H as (a & s & H1 & H).

(** ** Machine integers: a [w]-bit value is a [Z] kept in range by explicit wrap-around *)

Definition u8 (x : Z) : Z := x mod 2 ^ 8.
Definition u16 (x : Z) : Z := x mod 2 ^ 16.
Definition u32 (x : Z) : Z := x mod 2 ^ 32.
Definition u64 (x : Z) : Z := x mod 2 ^ 64.
(** Conversion to a signed 32-bit [int] (two's complement). *)
Definition s32 (x : Z) : Z := (x + 2 ^ 31) mod 2 ^ 32 - 2 ^ 31.

(** C truth value of a flag word. *)
Definition nz (x : Z) : bool := negb (x =? 0).

Lemma u64_small x : 0 ≤ x < 2 ^ 64 → u64 x = x.
Proof. apply Z.mod_small. Qed.
Lemma u32_small x : 0 ≤ x < 2 ^ 32 → u32 x = x.
Proof. apply Z.mod_small. Qed.
Lemma u64_range x : 0 ≤ u64 x < 2 ^ 64.
Proof. apply Z.mod_pos_bound. lia. Qed.
Lemma u32_range x : 0 ≤ u32 x < 2 ^ 32.
Proof. apply Z.mod_pos_bound. lia. Qed.
Lemma u8_range x : 0 ≤ u8 x < 256.
Proof. apply Z.mod_pos_bound. lia. Qed.
Lemma s32_small x : - 2 ^ 31 ≤ x < 2 ^ 31 → s32 x = x.
Proof. intros. unfold s32. rewrite Z.mod_small; lia. Qed.
Lemma s32_range x : - 2 ^ 31 ≤ s32 x < 2 ^ 31.
Proof. unfold s32. pose proof (Z.mod_pos_bound (x + 2 ^ 31) (2 ^ 32)). lia. Qed.
Lemma nz_true x : nz x = true ↔ x ≠ 0.
Proof. unfold nz. rewrite negb_true_iff. apply Z.eqb_neq. Qed.
Lemma nz_false x : nz x = false ↔ x = 0.
Proof. unfold nz. rewrite negb_false_iff. apply Z.eqb_eq. Qed.

Create HintDb cint.
#[export] Hint Resolve u64_range u32_range u8_range s32_range : cint.

(** Linear arithmetic with division and remainder by constants. *)
Ltac zlia := Z.to_euclidean_division_equations; lia.

(** Turn boolean comparisons of the source into arithmetic facts. *)
Ltac zbool :=
  repeat match goal with
  | H : _ && _ = true |- _ => apply andb_true_iff in H as [? H]
  | H : _ || _ = false |- _ => apply orb_false_iff in H as [? H]
  | H : _ && _ = false |- _ => apply andb_false_iff in H as [H|H]
  | H : _ || _ = true |- _ => apply orb_true_iff in H as [H|H]
  | H : negb _ = true |- _ => apply negb_true_iff in H
  | H : negb _ = false |- _ => apply negb_false_iff in H
  | H : (_ =? _) = true |- _ => apply Z.eqb_eq in H
  | H : (_ =? _) = false |- _ => apply Z.eqb_neq in H
  | H : (_ <? _) = true |- _ => apply Z.ltb_lt in H
  | H : (_ <? _) = false |- _ => apply Z.ltb_ge in H
  | H : (_ <=? _) = true |- _ => apply Z.leb_le in H
  | H : (_ <=? _) = false |- _ => apply Z.leb_gt in H
  | H : nz _ = true |- _ => apply nz_true in H
  | H : nz _ = false |- _ => apply nz_false in H
  end.

(** Case analysis on every test of the goal, arithmetic on the leaves. *)
Ltac zcases := repeat (case_decide || case_match); zbool; subst; try done; try lia.

(** ** Lists updated by index *)

Lemma list_alter_insert {A} (f : A → A) (l : list A) i x :
  l !! i = Some x → alter f i l = <[i := f x]> l.
Proof.
  intros H. apply list_eq. intros j. destruct (decide (i = j)) as [<-|Hne].
  - rewrite list_lookup_alter_eq, list_lookup_insert_eq, H; [done|]. by eapply lookup_lt_Some.
  - by rewrite list_lookup_alter_ne, list_lookup_insert_ne.
Qed.

(** ** Byte-addressed memory

    Physical memory is a finite map from addresses to bytes; an address that
    was never written reads as 0. *)

Abbreviation memory := (gmap Z Z).

Definition rd (m : memory) (a : Z) : Z := default 0 (m !! a).
Definition wr (m : memory) (a v : Z) : memory := <[a := u8 v]> m.

(** Little-endian load and store of [n] bytes. *)
Fixpoint loadn (n : nat) (m : memory) (a : Z) : Z :=
  match n with
  | O => 0
  | S n => rd m a + 256 * loadn n m (a + 1)
  end.

Fixpoint storen (n : nat) (m : memory) (a v : Z) : memory :=
  match n with
  | O => m
  | S n => storen n (wr m a v) (a + 1) (v / 256)
  end.

Definition load64 : memory → Z → Z := loadn 8.
Definition store64 : memory → Z → Z → memory := storen 8.
Definition load32 : memory → Z → Z := loadn 4.
Definition store32 : memory → Z → Z → memory := storen 4.

Section memory.
Implicit Types (m : memory) (a v : Z).

Lemma rd_wr m a b v : rd (wr m a v) b = if decide (a = b) then u8 v else rd m b.
Proof. unfold rd, wr. rewrite lookup_insert. by case_decide. Qed.

Lemma rd_wr_eq m a v : rd (wr m a v) a = u8 v.
Proof. rewrite rd_wr. by case_decide. Qed.

Lemma rd_wr_ne m a b v : a ≠ b → rd (wr m a v) b = rd m b.
Proof. intros. rewrite rd_wr. by case_decide. Qed.

Lemma loadn_ext n m m' a :
  (∀ b, a ≤ b < a + Z.of_nat n → rd m b = rd m' b) → loadn n m a = loadn n m' a.
Proof.
  revert a. induction n as [|n IH]; intros a H; [done|]. simpl.
  rewrite (H a), (IH (a + 1)) by (intros; try apply H; lia). done.
Qed.

Lemma rd_storen_out n m a v b :
  b < a ∨ a + Z.of_nat n ≤ b → rd (storen n m a v) b = rd m b.
Proof.
  revert m a v. induction n as [|n IH]; intros m a v H; [done|]. simpl.
  rewrite IH by lia. apply rd_wr_ne. lia.
Qed.

Lemma loadn_storen n m a v : loadn n (storen n m a v) a = v mod 256 ^ Z.of_nat n.
Proof.
  revert m a v. induction n as [|n IH]; intros m a v; simpl.
  { by rewrite Z.mod_1_r. }
  rewrite IH, rd_storen_out, rd_wr_eq by lia.
  unfold u8. change (2 ^ 8) with 256.
  rewrite Nat2Z.inj_succ, Z.pow_succ_r by lia.
  rewrite Z.rem_mul_r by lia. lia.
Qed.

Lemma load64_store64_eq m a v : 0 ≤ v < 2 ^ 64 → load64 (store64 m a v) a = v.
Proof.
  intros. unfold load64, store64. rewrite loadn_storen.
  apply Z.mod_small. done.
Qed.

Lemma loadn_storen_ne k n m a b v :
  b + Z.of_nat k ≤ a ∨ a + Z.of_nat n ≤ b →
  loadn k (storen n m a v) b = loadn k m b.
Proof. intros. apply loadn_ext. intros. apply rd_storen_out. lia. Qed.

Lemma load64_store64_ne m a b v :
  b + 8 ≤ a ∨ a + 8 ≤ b → load64 (store64 m a v) b = load64 m b.
Proof. intros. apply loadn_storen_ne. lia. Qed.

(** Every byte of the memory is a byte. *)
Definition bytes_ok m : Prop := ∀ a, 0 ≤ rd m a < 256.

Lemma bytes_ok_wr m a v : bytes_ok m → bytes_ok (wr m a v).
Proof. intros H b. rewrite rd_wr. case_decide; [apply u8_range | apply H]. Qed.

Lemma bytes_ok_storen n m a v : bytes_ok m → bytes_ok (storen n m a v).
Proof.
  revert m a v. induction n as [|n IH]; intros m a v H; [done|].
  by apply IH, bytes_ok_wr.
Qed.

Lemma loadn_range n m a : bytes_ok m → 0 ≤ loadn n m a < 256 ^ Z.of_nat n.
Proof.
  intros H. revert a. induction n as [|n IH]; intros a; [simpl; lia|].
  cbn [loadn]. rewrite Nat2Z.inj_succ, Z.pow_succ_r by lia.
  specialize (IH (a + 1)). specialize (H a). nia.
Qed.

Lemma load64_ext m m' a :
  (∀ b, a ≤ b < a + 8 → rd m b = rd m' b) → load64 m a = load64 m' a.
Proof. apply (loadn_ext 8). Qed.

Lemma load64_zero m a : (∀ b, a ≤ b < a + 8 → rd m b = 0) → load64 m a = 0.
Proof.
  intros H. rewrite (load64_ext m ∅); [done|]. intros b Hb. by rewrite H.
Qed.

Lemma rd_store64_out m a v b : b < a ∨ a + 8 ≤ b → rd (store64 m a v) b = rd m b.
Proof. apply (rd_storen_out 8). Qed.

Lemma bytes_ok_store64 m a v : bytes_ok m → bytes_ok (store64 m a v).
Proof. apply bytes_ok_storen. Qed.

Lemma load64_range m a : bytes_ok m → 0 ≤ load64 m a < 2 ^ 64.
Proof. apply (loadn_range 8). Qed.
End memory.

#[export] Hint Resolve bytes_ok_wr bytes_ok_storen bytes_ok_store64 : cint.
#[global] Opaque load64 store64 load32 store32.
