(* ===== verification/Bytes.v ===== *)
(** * Little-endian fields of a byte array

    The disk structures of kernel/fs.h and kernel/log.c (superblock, log
    header, dinode, dirent) live in the [data] array of a buffer; the code
    reaches them by casting a pointer into it.  [ldl n d o] and [stl n d o v]
    load and store the [n]-byte little-endian field at offset [o]. *)

From S2P Require Import Prelude.

Fixpoint ldl (n : nat) (d : list Z) (o : nat) : Z :=
  match n with
  | O => 0
  | S n => nth o d 0 + 256 * ldl n d (S o)
  end.
Fixpoint stl (n : nat) (d : list Z) (o : nat) (v : Z) : list Z :=
  match n with
  | O => d
  | S n => stl n (<[o := u8 v]> d) (S o) (v / 256)
  end.

(** A signed 32-bit field. *)
Definition lds32 (d : list Z) (o : nat) : Z := s32 (ldl 4 d o).

Lemma length_stl n d o v : length (stl n d o v) = length d.
Proof.
  revert d o v. induction n as [|n IH]; intros d o v; [done|]. cbn [stl].
  by rewrite IH, length_insert.
Qed.

Lemma nth_lookup_Z (d : list Z) i : nth i d 0 = default 0 (d !! i).
Proof. revert i. induction d as [|x d IH]; intros [|i]; cbn; auto. Qed.

Lemma lookup_stl_out n d o v k : (k < o ∨ o + n ≤ k)%nat → stl n d o v !! k = d !! k.
Proof.
  revert d o v. induction n as [|n IH]; intros d o v H; [done|]. cbn [stl].
  rewrite IH by lia. apply list_lookup_insert_ne. lia.
Qed.

Lemma ldl_ext n d d' o :
  (∀ k, (o ≤ k < o + n)%nat → d' !! k = d !! k) → ldl n d' o = ldl n d o.
Proof.
  revert o. induction n as [|n IH]; intros o H; [done|]. cbn [ldl].
  rewrite !nth_lookup_Z, (H o), (IH (S o)) by (intros; try apply H; lia). done.
Qed.

Lemma ldl_stl_ne k n d o o' v :
  (o' + k ≤ o ∨ o + n ≤ o')%nat → ldl k (stl n d o v) o' = ldl k d o'.
Proof. intros H. apply ldl_ext. intros i Hi. apply lookup_stl_out. lia. Qed.

Lemma ldl_stl n d o v : (o + n ≤ length d)%nat → ldl n (stl n d o v) o = v mod 256 ^ Z.of_nat n.
Proof.
  revert d o v. induction n as [|n IH]; intros d o v H; [by rewrite Z.mod_1_r|]. cbn [stl ldl].
  rewrite IH by (rewrite length_insert; lia).
  rewrite nth_lookup_Z, lookup_stl_out, list_lookup_insert_eq by lia.
  change (default 0 (Some (u8 v))) with (u8 v). unfold u8. change (2 ^ 8) with 256.
  rewrite Nat2Z.inj_succ, Z.pow_succ_r by lia. rewrite Z.rem_mul_r by lia. lia.
Qed.

Lemma ldl_stl_eq n d o v :
  (o + n ≤ length d)%nat → 0 ≤ v < 256 ^ Z.of_nat n → ldl n (stl n d o v) o = v.
Proof. intros H Hv. rewrite ldl_stl by done. by apply Z.mod_small. Qed.

Lemma ldl_replicate n k o : ldl n (replicate k 0) o = 0.
Proof.
  revert o. induction n as [|n IH]; intros o; [done|]. cbn [ldl]. rewrite IH, nth_lookup_Z.
  destruct (replicate _ _ !! o) as [v|] eqn:E; [|done]. by apply lookup_replicate in E as [-> _].
Qed.
