(* ===== verification/Riscv.v ===== *)
(** * Address arithmetic: kernel/riscv.h, kernel/memlayout.h, kernel/param.h,
    kernel/fcntl.h

    The page, page-table-entry and virtual-address macros the kernel computes
    with, at their 64-bit width, the layout constants, and the arithmetic facts
    the page-table component relies on: rounding, the three 9-bit indices of a
    virtual address determine its page, and a PTE gives back the physical
    address and flags it was made from. *)

From S2P Require Import Prelude.

(** ** kernel/fcntl.h *)

Definition O_RDONLY : Z := 0x000.
Definition O_WRONLY : Z := 0x001.
Definition O_RDWR : Z := 0x002.
Definition O_CREATE : Z := 0x200.
Definition O_TRUNC : Z := 0x400.
Definition O_APPEND : Z := 0x800.

(** ** kernel/riscv.h *)

Definition PGSIZE : Z := 4096.
Definition PGSHIFT : Z := 12.
Definition PGROUNDUP (sz : Z) : Z := Z.land (u64 (sz + PGSIZE - 1)) (Z.lnot (PGSIZE - 1)).
Definition PGROUNDDOWN (a : Z) : Z := Z.land a (Z.lnot (PGSIZE - 1)).

Definition PTE_V : Z := Z.shiftl 1 0.
Definition PTE_R : Z := Z.shiftl 1 1.
Definition PTE_W : Z := Z.shiftl 1 2.
Definition PTE_X : Z := Z.shiftl 1 3.
Definition PTE_U : Z := Z.shiftl 1 4.

Definition PA2PTE (pa : Z) : Z := u64 (Z.shiftl (Z.shiftr pa 12) 10).
Definition PTE2PA (pte : Z) : Z := u64 (Z.shiftl (Z.shiftr pte 10) 12).
Definition PTE_FLAGS (pte : Z) : Z := Z.land pte 0x3FF.

Definition PXMASK : Z := 0x1FF.
Definition PXSHIFT (level : Z) : Z := PGSHIFT + 9 * level.
Definition PX (level va : Z) : Z := Z.land (Z.shiftr va (PXSHIFT level)) PXMASK.

Definition SATP_SV39 : Z := Z.shiftl 8 60.
Definition MAKE_SATP (pagetable : Z) : Z := Z.lor SATP_SV39 (Z.shiftr pagetable 12).

Definition MAXVA : Z := Z.shiftl 1 (9 + 9 + 9 + 12 - 1).

(** ** kernel/param.h *)

Definition NPROC : nat := 64.
Definition NOFILE : nat := 16.
Definition NFILE : nat := 100.
Definition NINODE : nat := 50.
Definition NDEV : Z := 10.
Definition ROOTDEV : Z := 1.
Definition MAXARG : Z := 32.
Definition MAXOPBLOCKS : Z := 10.
Definition LOGBLOCKS : Z := MAXOPBLOCKS * 3.
Definition NBUF : nat := 30.
Definition FSSIZE : Z := 4000.
Definition MAXPATH : Z := 128.
Definition USERSTACK : Z := 1.

(** ** kernel/memlayout.h *)

Definition UART0 : Z := 0x10000000.
Definition VIRTIO0 : Z := 0x10001000.
Definition VIRT_RTC : Z := 0x101000.
Definition PLIC : Z := 0x0c000000.
Definition UART0_IRQ : Z := 10.
Definition VIRTIO0_IRQ : Z := 1.
Definition PLIC_SENABLE (hart : Z) : Z := PLIC + 0x2080 + hart * 0x100.
Definition PLIC_SPRIORITY (hart : Z) : Z := PLIC + 0x201000 + hart * 0x2000.
Definition VIRT_TEST : Z := 0x100000.
Definition KERNBASE : Z := 0x80000000.
Definition PHYSTOP : Z := KERNBASE + 128 * 1024 * 1024.
Definition TRAMPOLINE : Z := MAXVA - PGSIZE.
Definition KSTACK (p : Z) : Z := TRAMPOLINE - (p + 1) * 2 * PGSIZE.
Definition TRAPFRAME : Z := TRAMPOLINE - PGSIZE.

(** ** Facts *)

Lemma land_lnot_ones a n : 0 ≤ n → Z.land a (Z.lnot (Z.ones n)) = 2 ^ n * (a / 2 ^ n).
Proof.
  intros Hn. rewrite <- Z.ldiff_land, Z.ldiff_ones_r by done.
  rewrite Z.shiftl_mul_pow2, Z.shiftr_div_pow2 by done. lia.
Qed.

Lemma PGROUNDDOWN_eq a : PGROUNDDOWN a = PGSIZE * (a / PGSIZE).
Proof. apply (land_lnot_ones a 12). lia. Qed.

Lemma PGROUNDUP_eq a : PGROUNDUP a = PGSIZE * (u64 (a + PGSIZE - 1) / PGSIZE).
Proof. apply (land_lnot_ones _ 12). lia. Qed.

Lemma PGROUNDUP_small a :
  0 ≤ a < 2 ^ 64 - PGSIZE → PGROUNDUP a = PGSIZE * ((a + PGSIZE - 1) / PGSIZE).
Proof.
  intros H. rewrite PGROUNDUP_eq, u64_small; [done|]. unfold PGSIZE in *. lia.
Qed.

(** Rounding down and up are the greatest multiple of the page size at most
    the address and the least one at least it, as long as the addition of
    [PGROUNDUP] does not overflow 64 bits. *)
Lemma PGROUND_spec a :
  0 ≤ a < 2 ^ 64 - PGSIZE →
  PGROUNDDOWN a mod PGSIZE = 0 ∧ PGROUNDUP a mod PGSIZE = 0 ∧
  PGROUNDDOWN a ≤ a < PGROUNDDOWN a + PGSIZE ∧
  a ≤ PGROUNDUP a < a + PGSIZE.
Proof.
  intros H. rewrite PGROUNDDOWN_eq, PGROUNDUP_small by done. unfold PGSIZE in *.
  split_and!; try (rewrite Z.mul_comm; apply Z_mod_mult); zlia.
Qed.

Lemma PGROUNDUP_aligned a : 0 ≤ a < 2 ^ 64 → a mod PGSIZE = 0 → PGROUNDUP a = a.
Proof.
  intros H Ha. rewrite PGROUNDUP_eq, u64_small; unfold PGSIZE in *; zlia.
Qed.

Lemma PX_eq l va : 0 ≤ l → PX l va = va / 2 ^ (12 + 9 * l) mod 512.
Proof.
  intros Hl. unfold PX, PXSHIFT, PGSHIFT, PXMASK.
  change 0x1FF with (Z.ones 9). rewrite Z.land_ones by lia.
  rewrite Z.shiftr_div_pow2 by lia. done.
Qed.

Lemma PX_range l va : 0 ≤ l → 0 ≤ PX l va < 512.
Proof. intros. rewrite PX_eq by done. apply Z.mod_pos_bound. lia. Qed.

(** A page-aligned virtual address below MAXVA is rebuilt from its indices. *)
Definition va_of_px (i2 i1 i0 : Z) : Z := i2 * 2 ^ 30 + i1 * 2 ^ 21 + i0 * 2 ^ 12.

Lemma va_of_px_PX va :
  0 ≤ va < MAXVA → va mod PGSIZE = 0 → va_of_px (PX 2 va) (PX 1 va) (PX 0 va) = va.
Proof.
  intros H Ha. unfold va_of_px. rewrite !PX_eq by lia.
  change (12 + 9 * 2) with 30. change (12 + 9 * 1) with 21. change (12 + 9 * 0) with 12.
  change MAXVA with (2 ^ 38) in H. unfold PGSIZE in Ha.
  pose proof (Z.div_mod va (2 ^ 12) ltac:(lia)) as E0.
  change (2 ^ 12) with 4096 in E0. rewrite Ha in E0.
  change (2 ^ 21) with (4096 * 512). change (2 ^ 30) with (4096 * 512 * 512).
  change (2 ^ 12) with 4096.
  rewrite <- !Z.div_div by lia.
  set (q := va / 4096) in *.
  rewrite (Z.mod_small (q / 512 / 512)) by zlia. zlia.
Qed.

(** The indices of [walk] determine the page: two page-aligned addresses below
    MAXVA with the same three indices are the same address. *)
Lemma PX_inj va va' :
  0 ≤ va < MAXVA → 0 ≤ va' < MAXVA → va mod PGSIZE = 0 → va' mod PGSIZE = 0 →
  PX 2 va = PX 2 va' → PX 1 va = PX 1 va' → PX 0 va = PX 0 va' → va = va'.
Proof.
  intros H H' Ha Ha' E2 E1 E0.
  rewrite <- (va_of_px_PX va), <- (va_of_px_PX va') by done. congruence.
Qed.

Lemma PA2PTE_eq pa : 0 ≤ pa < 2 ^ 56 → PA2PTE pa = pa / 4096 * 1024.
Proof.
  intros H. unfold PA2PTE.
  rewrite Z.shiftl_mul_pow2, Z.shiftr_div_pow2 by lia.
  apply u64_small. zlia.
Qed.

Lemma lor_low10 a f : 0 ≤ f < 1024 → Z.lor (a * 1024) f = a * 1024 + f.
Proof.
  intros H. symmetry. rewrite Z.add_nocarry_lxor.
  - apply Z.lxor_lor. apply Z.bits_inj'. intros n Hn. rewrite Z.land_spec, Z.bits_0.
    change 1024 with (2 ^ 10). destruct (Z.lt_ge_cases n 10).
    + rewrite Z.mul_pow2_bits_low by lia. done.
    + rewrite andb_comm, <- (Z.mod_small f (2 ^ 10)) by lia.
      rewrite Z.mod_pow2_bits_high by lia. done.
  - apply Z.bits_inj'. intros n Hn. rewrite Z.land_spec, Z.bits_0.
    change 1024 with (2 ^ 10). destruct (Z.lt_ge_cases n 10).
    + rewrite Z.mul_pow2_bits_low by lia. done.
    + rewrite andb_comm, <- (Z.mod_small f (2 ^ 10)) by lia.
      rewrite Z.mod_pow2_bits_high by lia. done.
Qed.

Section pte.
Context (pa f : Z) (Hpa : 0 ≤ pa < 2 ^ 56) (Hal : pa mod PGSIZE = 0) (Hf : 0 ≤ f < 1024).

Lemma mkpte_eq : Z.lor (PA2PTE pa) f = pa / 4096 * 1024 + f.
Proof using Hpa Hf. rewrite PA2PTE_eq by done. by apply lor_low10. Qed.

Lemma mkpte_range : 0 ≤ Z.lor (PA2PTE pa) f < 2 ^ 64.
Proof using Hpa Hf. clear Hal. rewrite mkpte_eq. zlia. Qed.

Lemma PTE2PA_mkpte : PTE2PA (Z.lor (PA2PTE pa) f) = pa.
Proof using Hpa Hal Hf.
  rewrite mkpte_eq. unfold PTE2PA, PGSIZE in *.
  rewrite Z.shiftl_mul_pow2, Z.shiftr_div_pow2 by lia.
  change (2 ^ 10) with 1024. rewrite u64_small; zlia.
Qed.

Lemma PTE_FLAGS_mkpte : PTE_FLAGS (Z.lor (PA2PTE pa) f) = f.
Proof using Hpa Hf.
  clear Hal.
  rewrite mkpte_eq. unfold PTE_FLAGS. change 0x3FF with (Z.ones 10).
  rewrite Z.land_ones by lia. change (2 ^ 10) with 1024. zlia.
Qed.
End pte.

Lemma land_bit_flags pte n :
  0 ≤ n < 10 → Z.land pte (Z.shiftl 1 n) = Z.land (PTE_FLAGS pte) (Z.shiftl 1 n).
Proof.
  intros Hn. unfold PTE_FLAGS. rewrite <- Z.land_assoc. f_equal.
  apply Z.bits_inj'. intros k Hk. rewrite Z.land_spec.
  destruct (decide (k = n)) as [->|].
  - change 0x3FF with (Z.ones 10). rewrite Z.ones_spec_low by lia. done.
  - rewrite Z.shiftl_mul_pow2, Z.mul_1_l, Z.pow2_bits_false by lia.
    by rewrite andb_false_r.
Qed.

#[export] Hint Resolve PX_range : cint.
