(* ===== verification/CString.v ===== *)
(** * kernel/string.c

    The kernel's memory and string routines over byte memory.  A routine that
    only reads goes through a reader [f : Z → Z] (the byte at an offset of the
    pointer), so that the same definition serves a pointer into physical
    memory and a C array kept as a list.  Loops recurse on the byte count; the
    unbounded [strlen] takes fuel. *)

From S2P Require Import Prelude.

(** ** Definitions *)

Fixpoint memset_loop (k : nat) (m : memory) (cdst c i : Z) : memory :=
  match k with
  | O => m
  | S k => memset_loop k (wr m (cdst + i) c) cdst c (i + 1)
  end.
Definition memset (m : memory) (dst c n : Z) : memory :=
  memset_loop (Z.to_nat n) m dst c 0.

Fixpoint memcmp_loop (k : nat) (s1 s2 : Z → Z) (i : Z) : Z :=
  match k with
  | O => 0
  | S k => if negb (s1 i =? s2 i) then s1 i - s2 i else memcmp_loop k s1 s2 (i + 1)
  end.
Definition memcmp (v1 v2 : Z → Z) (n : Z) : Z := memcmp_loop (Z.to_nat n) v1 v2 0.

Fixpoint copy_up (k : nat) (m : memory) (d s : Z) : memory :=
  match k with
  | O => m
  | S k => copy_up k (wr m d (rd m s)) (d + 1) (s + 1)
  end.
Fixpoint copy_down (k : nat) (m : memory) (d s : Z) : memory :=
  match k with
  | O => m
  | S k => copy_down k (wr m (d - 1) (rd m (s - 1))) (d - 1) (s - 1)
  end.
Definition memmove (m : memory) (dst src n : Z) : memory :=
  if n =? 0 then m
  else if (src <? dst) && (dst <? src + n)
  then copy_down (Z.to_nat n) m (dst + n) (src + n)
  else copy_up (Z.to_nat n) m dst src.
Definition memcpy (m : memory) (dst src n : Z) : memory := memmove m dst src n.

Fixpoint strncmp_loop (k : nat) (p q : Z → Z) (i : Z) : Z :=
  match k with
  | O => 0
  | S k => if nz (p i) && (p i =? q i) then strncmp_loop k p q (i + 1) else p i - q i
  end.
Definition strncmp (p q : Z → Z) (n : Z) : Z := strncmp_loop (Z.to_nat n) p q 0.

Fixpoint zero_fill (k : nat) (m : memory) (s : Z) : memory :=
  match k with
  | O => m
  | S k => zero_fill k (wr m s 0) (s + 1)
  end.
Fixpoint strncpy_loop (k : nat) (m : memory) (s t : Z) : memory :=
  match k with
  | O => m
  | S k =>
      let c := rd m t in
      let m := wr m s c in
      if c =? 0 then zero_fill k m (s + 1) else strncpy_loop k m (s + 1) (t + 1)
  end.
Definition strncpy (m : memory) (s t n : Z) : memory := strncpy_loop (Z.to_nat n) m s t.

Fixpoint safestrcpy_loop (k : nat) (m : memory) (s t : Z) : memory :=
  match k with
  | O => wr m s 0
  | S k =>
      let c := rd m t in
      let m := wr m s c in
      if c =? 0 then wr m (s + 1) 0 else safestrcpy_loop k m (s + 1) (t + 1)
  end.
Definition safestrcpy (m : memory) (s t n : Z) : memory :=
  if n <=? 0 then m else safestrcpy_loop (Z.to_nat (n - 1)) m s t.

Fixpoint strlen (fuel : nat) (s : Z → Z) (n : Z) : option Z :=
  match fuel with
  | O => None
  | S fuel => if nz (s n) then strlen fuel s (n + 1) else Some n
  end.

(** The bytes of a pointer into memory. *)
Definition at_ptr (m : memory) (p : Z) : Z → Z := λ i, rd m (p + i).

(** The C string seen through a reader from offset [i]: its bytes up to the
    terminating NUL, at most [k] of them. *)
Fixpoint cstr (k : nat) (f : Z → Z) (i : Z) : list Z :=
  match k with
  | O => []
  | S k => if f i =? 0 then [] else f i :: cstr k f (i + 1)
  end.

(** ** memset and memmove *)

Lemma rd_memset_loop k m d c i a :
  rd (memset_loop k m d c i) a =
  if (d + i <=? a) && (a <? d + i + Z.of_nat k) then u8 c else rd m a.
Proof.
  revert m i. induction k as [|k IH]; intros m i; simpl memset_loop.
  { destruct ((d + i <=? a) && _) eqn:E; [|done]. zbool. lia. }
  rewrite IH, rd_wr.
  destruct ((d + (i + 1) <=? a) && _) eqn:E1, ((d + i <=? a) && _) eqn:E2;
    zbool; repeat case_decide; try done; lia.
Qed.

Lemma rd_memset m d c n a :
  rd (memset m d c n) a = if (d <=? a) && (a <? d + n) then u8 c else rd m a.
Proof.
  unfold memset. rewrite rd_memset_loop.
  destruct ((d + 0 <=? a) && _) eqn:E1, ((d <=? a) && _) eqn:E2; zbool; try done; lia.
Qed.

Lemma rd_memset_in m d c n a : d ≤ a < d + n → rd (memset m d c n) a = u8 c.
Proof. intros. rewrite rd_memset. destruct (_ && _) eqn:E; zbool; done || lia. Qed.

Lemma rd_memset_out m d c n a : a < d ∨ d + n ≤ a → rd (memset m d c n) a = rd m a.
Proof. intros. rewrite rd_memset. destruct (_ && _) eqn:E; zbool; done || lia. Qed.

Lemma bytes_ok_memset m d c n : bytes_ok m → bytes_ok (memset m d c n).
Proof. intros H a. rewrite rd_memset. case_match; [apply u8_range|apply H]. Qed.

Lemma load64_memset_out m d c n a :
  a + 8 ≤ d ∨ d + n ≤ a → load64 (memset m d c n) a = load64 m a.
Proof. intros. apply load64_ext. intros. apply rd_memset_out. lia. Qed.

Lemma load64_memset_zero m d n a :
  d ≤ a → a + 8 ≤ d + n → load64 (memset m d 0 n) a = 0.
Proof. intros. apply load64_zero. intros. rewrite rd_memset_in; [done|lia]. Qed.

Lemma rd_copy_up k m d s a :
  bytes_ok m → d ≤ s ∨ s + Z.of_nat k ≤ d →
  rd (copy_up k m d s) a =
  if (d <=? a) && (a <? d + Z.of_nat k) then rd m (s + (a - d)) else rd m a.
Proof.
  revert m d s. induction k as [|k IH]; intros m d s Hm H; simpl copy_up.
  { destruct ((d <=? a) && _) eqn:E; [|done]. zbool. lia. }
  rewrite IH by (auto with cint; lia). rewrite !rd_wr.
  destruct ((d + 1 <=? a) && _) eqn:E1, ((d <=? a) && _) eqn:E2;
    zbool; repeat case_decide; subst; try lia; try (f_equal; lia).
  rewrite Z.sub_diag, Z.add_0_r. apply Z.mod_small, Hm.
Qed.

Lemma rd_copy_down k m d s a :
  bytes_ok m → s ≤ d →
  rd (copy_down k m d s) a =
  if (d - Z.of_nat k <=? a) && (a <? d) then rd m (s + (a - d)) else rd m a.
Proof.
  revert m d s. induction k as [|k IH]; intros m d s Hm H; simpl copy_down.
  { destruct ((_ <=? a) && _) eqn:E; [|done]. zbool. lia. }
  rewrite IH by (auto with cint; lia). rewrite !rd_wr.
  destruct ((d - 1 - Z.of_nat k <=? a) && _) eqn:E1, ((d - _ <=? a) && _) eqn:E2;
    zbool; repeat case_decide; subst; try lia; try (f_equal; lia).
  replace (s + (d - 1 - d)) with (s - 1) by lia. apply Z.mod_small, Hm.
Qed.

(** [memmove] copies the [n] source bytes as they were before the call,
    overlapping regions included, and changes nothing outside the destination. *)
Lemma rd_memmove m d s n a :
  bytes_ok m → 0 ≤ n →
  rd (memmove m d s n) a =
  if (d <=? a) && (a <? d + n) then rd m (s + (a - d)) else rd m a.
Proof.
  intros Hm Hn. unfold memmove. destruct (n =? 0) eqn:E0; zbool.
  { destruct ((d <=? a) && _) eqn:E; [|done]. zbool. lia. }
  destruct ((s <? d) && (d <? s + n)) eqn:E.
  - zbool. rewrite rd_copy_down by (done || lia).
    replace (d + n - Z.of_nat (Z.to_nat n)) with d by lia.
    replace (s + n + (a - (d + n))) with (s + (a - d)) by lia. done.
  - apply andb_false_iff in E. rewrite rd_copy_up by (done || (destruct E; zbool; lia)).
    by rewrite Z2Nat.id by done.
Qed.

Lemma bytes_ok_memmove m d s n : bytes_ok m → 0 ≤ n → bytes_ok (memmove m d s n).
Proof. intros H Hn a. rewrite rd_memmove by done. case_match; apply H. Qed.

#[export] Hint Resolve bytes_ok_memset bytes_ok_memmove : cint.

(** ** C strings *)

Lemma cstr_ext k f g i d :
  (∀ j, i ≤ j < i + Z.of_nat k → f j = g (j + d)) → cstr k f i = cstr k g (i + d).
Proof.
  revert i. induction k as [|k IH]; intros i H; [done|]. simpl.
  rewrite <- (H i) by lia. case_match; [done|]. f_equal.
  rewrite (IH (i + 1)) by (intros; apply H; lia). f_equal. lia.
Qed.

Lemma cstr_length k f i : (length (cstr k f i) ≤ k)%nat.
Proof.
  revert i. induction k as [|k IH]; intros i; simpl; [lia|].
  case_match; simpl; [lia|]. specialize (IH (i + 1)). lia.
Qed.

(** The string read is made of non-NUL bytes, and stops at a NUL or at the bound. *)
Lemma cstr_spec k f i :
  (∀ j, 0 ≤ j < Z.of_nat (length (cstr k f i)) →
     f (i + j) ≠ 0 ∧ cstr k f i !! Z.to_nat j = Some (f (i + j))) ∧
  ((length (cstr k f i) < k)%nat → f (i + Z.of_nat (length (cstr k f i))) = 0).
Proof.
  revert i. induction k as [|k IH]; intros i; simpl; [split; intros; lia|].
  destruct (f i =? 0) eqn:E; zbool; simpl.
  { split; [lia|]. intros _. by rewrite Z.add_0_r. }
  destruct (IH (i + 1)) as [IH1 IH2]. split.
  - intros j Hj. destruct (decide (j = 0)) as [->|].
    { by rewrite Z.add_0_r. }
    replace (Z.to_nat j) with (S (Z.to_nat (j - 1))) by lia. simpl.
    replace (i + j) with (i + 1 + (j - 1)) by lia. apply IH1. lia.
  - intros H. rewrite <- IH2 by lia. f_equal. lia.
Qed.

Lemma cstr_app k f l i :
  Forall (λ c, c ≠ 0) l → (∀ j c, l !! j = Some c → f (i + Z.of_nat j) = c) →
  f (i + Z.of_nat (length l)) = 0 → (length l < k)%nat → cstr k f i = l.
Proof.
  revert i k. induction l as [|c l IH]; intros i [|k] Hl Hf H0 Hk; simpl in *; try lia.
  - rewrite Z.add_0_r in H0. by rewrite H0.
  - inversion Hl; subst. rewrite <- (Hf 0%nat c eq_refl), Z.add_0_r in *.
    destruct (f i =? 0) eqn:E; zbool; [done|]. f_equal.
    apply IH; [done| |rewrite <- H0; f_equal; lia|lia].
    intros j c' Hj. rewrite <- (Hf (S j) c') by done. f_equal. lia.
Qed.

(** [memcmp] is zero exactly when the [n] bytes agree. *)
Lemma memcmp_zero_iff p q n :
  0 ≤ n → memcmp p q n = 0 ↔ ∀ i, 0 ≤ i < n → p i = q i.
Proof.
  intros Hn. unfold memcmp.
  enough (∀ k i, memcmp_loop k p q i = 0 ↔
                 ∀ j, i ≤ j < i + Z.of_nat k → p j = q j) as Hk.
  { rewrite Hk, Z2Nat.id by done. done. }
  induction k as [|k IH]; intros i; simpl; [split; intros; lia|].
  destruct (p i =? q i) eqn:E; zbool; simpl.
  - rewrite IH. split; intros H j Hj; [|apply H; lia].
    destruct (decide (i = j)) as [<-|]; [done|]. apply H. lia.
  - split; [lia|]. intros H. specialize (H i). lia.
Qed.

(** [strncmp] is zero exactly when the two C strings, cut at [n] bytes, are equal. *)
Lemma strncmp_zero_iff p q n :
  strncmp p q n = 0 ↔ cstr (Z.to_nat n) p 0 = cstr (Z.to_nat n) q 0.
Proof.
  enough (∀ k i, strncmp_loop k p q i = 0 ↔ cstr k p i = cstr k q i) as Hk by apply Hk.
  clear n. induction k as [|k IH]; intros i; simpl; [by split|].
  destruct (nz (p i)) eqn:E1; zbool; simpl.
  - rewrite (proj2 (Z.eqb_neq (p i) 0)) by done.
    destruct (p i =? q i) eqn:E2; zbool.
    + rewrite <- E2, (proj2 (Z.eqb_neq (p i) 0)), IH by done.
      split; [by intros ->|]. by intros [= ->].
    + split; [lia|]. destruct (q i =? 0); [done|]. by intros [= ?].
  - rewrite E1. simpl. destruct (q i =? 0) eqn:E2; zbool; [split; done || lia|].
    split; [lia|done].
Qed.

(** [strlen] returns the length of the string, given fuel for its bytes. *)
Lemma strlen_cstr f l fuel :
  Forall (λ c, c ≠ 0) l → (∀ j c, l !! j = Some c → f (Z.of_nat j) = c) →
  f (Z.of_nat (length l)) = 0 → (length l < fuel)%nat →
  strlen fuel f 0 = Some (Z.of_nat (length l)).
Proof.
  intros Hl Hf H0 Hfuel.
  enough (∀ fuel l' i, l = take (Z.to_nat i) l ++ l' → 0 ≤ i → i = Z.of_nat (length l) - Z.of_nat (length l') →
            (length l' < fuel)%nat → strlen fuel f i = Some (Z.of_nat (length l))) as Hgen.
  { apply (Hgen fuel l 0); done || lia. }
  clear fuel Hfuel. induction fuel as [|fuel IH]; intros l' i Hl' Hi Hi2 Hlt; [lia|].
  simpl. destruct l' as [|c l'].
  - simpl in Hi2. rewrite Z.sub_0_r in Hi2. subst i. by rewrite H0.
  - assert (l !! Z.to_nat i = Some c) as Hc.
    { rewrite Hl'. rewrite lookup_app_r; rewrite length_take; simpl in *; [|lia].
      replace (_ - _)%nat with 0%nat by lia. done. }
    pose proof (Hf _ _ Hc) as Hfc. rewrite Z2Nat.id in Hfc by done.
    assert (c ≠ 0) by (eapply Forall_lookup_1 in Hl; eauto).
    rewrite Hfc, (proj2 (nz_true c)) by done.
    apply (IH l'); [|lia|simpl in *; lia|simpl in *; lia].
    replace (Z.to_nat (i + 1)) with (S (Z.to_nat i)) by lia.
    rewrite (take_S_r _ _ _ Hc). rewrite <- app_assoc. done.
Qed.

Lemma rd_zero_fill k m s a :
  rd (zero_fill k m s) a = if (s <=? a) && (a <? s + Z.of_nat k) then 0 else rd m a.
Proof.
  revert m s. induction k as [|k IH]; intros m s; simpl zero_fill.
  { destruct (_ && _) eqn:E; [|done]. zbool. lia. }
  rewrite IH, rd_wr.
  destruct ((s + 1 <=? a) && _) eqn:E1, ((s <=? a) && _) eqn:E2;
    zbool; repeat case_decide; done || lia.
Qed.

(** [strncpy] fills exactly the [n] destination bytes: the source string, cut
    at [n], then NULs. *)
Lemma rd_strncpy m s t n a :
  bytes_ok m → 0 ≤ n → s + n ≤ t ∨ t + n ≤ s →
  rd (strncpy m s t n) a =
  if (s <=? a) && (a <? s + n)
  then if a - s <? Z.of_nat (length (cstr (Z.to_nat n) (at_ptr m t) 0))
       then rd m (t + (a - s)) else 0
  else rd m a.
Proof.
  intros Hm Hn Hd. unfold strncpy. rewrite <- (Z2Nat.id n) by done.
  rewrite <- (Z2Nat.id n) in Hd by done. rewrite Nat2Z.id. revert Hd Hm.
  generalize (Z.to_nat n). intros k. revert m s t.
  induction k as [|k IH]; intros m s t Hd Hm; simpl strncpy_loop.
  { destruct (_ && _) eqn:E; [|done]. zbool. lia. }
  simpl cstr. unfold at_ptr at 1. rewrite Z.add_0_r.
  destruct (rd m t =? 0) eqn:E0; zbool.
  - rewrite rd_zero_fill, rd_wr, E0. cbn [length]. zcases.
  - rewrite IH by (auto with cint; lia).
    replace (cstr k (at_ptr (wr m s (rd m t)) (t + 1)) 0) with (cstr k (at_ptr m t) (0 + 1)).
    2:{ symmetry. apply (cstr_ext _ _ _ 0 1). intros j Hj. unfold at_ptr.
        rewrite rd_wr_ne by lia. f_equal. lia. }
    cbn [length]. rewrite !rd_wr. zcases; try (f_equal; lia).
    all: rewrite Z.sub_diag, Z.add_0_r; apply Z.mod_small, Hm.
Qed.

Lemma safestrcpy_loop_spec k m s t :
  bytes_ok m → s + (Z.of_nat k + 1) ≤ t ∨ t + (Z.of_nat k + 1) ≤ s →
  cstr (S k) (at_ptr (safestrcpy_loop k m s t) s) 0 = cstr k (at_ptr m t) 0 ∧
  (∀ a, a < s ∨ s + (Z.of_nat k + 1) ≤ a → rd (safestrcpy_loop k m s t) a = rd m a).
Proof.
  revert m s t. induction k as [|k IH]; intros m s t Hm Hd; simpl safestrcpy_loop.
  { split; [|intros; apply rd_wr_ne; lia]. simpl. unfold at_ptr.
    by rewrite Z.add_0_r, rd_wr_eq. }
  cbn [cstr]. rewrite !(Z.add_0_l 1).
  change (at_ptr m t 0) with (rd m (t + 0)). rewrite (Z.add_0_r t).
  destruct (rd m t =? 0) eqn:E0; zbool.
  - split; [|intros; rewrite !rd_wr_ne by lia; done].
    unfold at_ptr. by rewrite Z.add_0_r, rd_wr_ne, rd_wr_eq, E0 by lia.
  - destruct (IH (wr m s (rd m t)) (s + 1) (t + 1)) as [IH1 IH2]; [auto with cint|lia|].
    split; [|intros a Ha; rewrite IH2 by lia; apply rd_wr_ne; lia].
    set (m' := safestrcpy_loop k (wr m s (rd m t)) (s + 1) (t + 1)) in *.
    assert (at_ptr m' s 0 = rd m t) as ->.
    { unfold at_ptr. rewrite Z.add_0_r, IH2, rd_wr_eq by lia. apply Z.mod_small, Hm. }
    rewrite (proj2 (Z.eqb_neq _ _) E0). f_equal.
    transitivity (cstr (S k) (at_ptr m' (s + 1)) 0).
    + symmetry. apply (cstr_ext (S k) _ _ 0 1). intros j _. unfold at_ptr. f_equal. lia.
    + rewrite IH1. apply (cstr_ext k _ _ 0 1). intros j Hj. unfold at_ptr.
      rewrite rd_wr_ne by lia. f_equal. lia.
Qed.

(** [safestrcpy] always leaves a NUL-terminated string in the [n] bytes: the
    source string cut at [n-1] bytes; nothing outside them changes. *)
Lemma safestrcpy_spec m s t n :
  bytes_ok m → 0 < n → s + n ≤ t ∨ t + n ≤ s →
  let m' := safestrcpy m s t n in
  cstr (Z.to_nat n) (at_ptr m' s) 0 = cstr (Z.to_nat (n - 1)) (at_ptr m t) 0 ∧
  (∀ a, a < s ∨ s + n ≤ a → rd m' a = rd m a).
Proof.
  intros Hm Hn Hd m'. subst m'. unfold safestrcpy.
  rewrite (proj2 (Z.leb_gt n 0)) by done.
  replace (Z.to_nat n) with (S (Z.to_nat (n - 1))) by lia.
  destruct (safestrcpy_loop_spec (Z.to_nat (n - 1)) m s t) as [H1 H2]; [done|lia|].
  split; [done|]. intros a Ha. apply H2. lia.
Qed.

(** From here on the memory operations are used through the lemmas above. *)
#[global] Opaque memset memmove strncpy safestrcpy.
