(* ===== verification/Machine.v ===== *)
(** * kernel/riscv.h and kernel/start.c: control registers and machine mode

    A hart is its control registers, the registers tp, sp and ra, the program
    counter and the privilege mode.  [csrr] and [csrw] are the two
    instructions the accessors of riscv.h are made of, as the privileged
    architecture defines them: sstatus is a window on mstatus; sie and sip are windows
    on mie and mip through the interrupts that mideleg delegates; of every
    register only the bits the hart implements can be written.  Which bits
    these are is a parameter, [impl].  [start] runs in machine mode, before
    main.  The theorem says on which registers the kernel can rely when
    main is entered; that sie is written after mideleg matters for it. *)

From S2P Require Import Prelude Riscv.

(** ** Harts *)

Inductive csrname :=
| Cmhartid | Cmstatus | Cmepc | Cmie | Cmip | Cmideleg | Cmedeleg | Cmenvcfg | Cmcounteren
| Cpmpcfg0 | Cpmpaddr0 | Ctime | Csatp | Cstvec | Csepc | Cscause | Cstval | Cstimecmp
| Csstatus | Csie | Csip.
#[export] Instance csrname_eq_dec : EqDecision csrname.
Proof. solve_decision. Defined.

Inductive privilege := User | Supervisor | MachineMode.
#[export] Instance privilege_eq_dec : EqDecision privilege.
Proof. solve_decision. Defined.

Record hart := mk_hart {
  h_csr : csrname → Z;
  h_tp : Z;
  h_sp : Z;
  h_ra : Z;
  h_pc : Z;
  h_mode : privilege;
}.
Definition upd_h_csr (g : (csrname → Z) → csrname → Z) (h : hart) : hart :=
  mk_hart (g (h_csr h)) (h_tp h) (h_sp h) (h_ra h) (h_pc h) (h_mode h).
Definition upd_h_tp (g : Z → Z) (h : hart) : hart :=
  mk_hart (h_csr h) (g (h_tp h)) (h_sp h) (h_ra h) (h_pc h) (h_mode h).
Definition jump (pc : Z) (mode : privilege) (h : hart) : hart :=
  mk_hart (h_csr h) (h_tp h) (h_sp h) (h_ra h) pc mode.

(** Bits [w] of [x] replaced by those of [v]. *)
Definition merge_bits (w x v : Z) : Z := Z.lor (Z.ldiff x w) (Z.land v w).
Definition set_csr (r : csrname) (v : Z) (f : csrname → Z) : csrname → Z :=
  λ r', if decide (r' = r) then v else f r'.

(** The fields of mstatus that sstatus shows: SIE, SPIE, UBE, SPP, VS, FS, XS,
    SUM, MXR, UXL, SD. *)
Definition SSTATUS_MASK : Z := 0x80000003000de762.

Definition csrr_val (h : hart) (r : csrname) : Z :=
  match r with
  | Csstatus => Z.land (h_csr h Cmstatus) SSTATUS_MASK
  | Csie => Z.land (h_csr h Cmie) (h_csr h Cmideleg)
  | Csip => Z.land (h_csr h Cmip) (h_csr h Cmideleg)
  | _ => h_csr h r
  end.

(** Computations of one hart. *)
Abbreviation HM := (M Empty_set hart).

Section machine.
Context (impl : csrname → Z).

(** The register a write goes to, and the bits of it that change. *)
Definition csr_target (r : csrname) : csrname :=
  match r with Csstatus => Cmstatus | Csie => Cmie | Csip => Cmip | r => r end.
Definition csr_window (h : hart) (r : csrname) : Z :=
  match r with
  | Csstatus => Z.land (impl Cmstatus) SSTATUS_MASK
  | Csie => Z.land (impl Cmie) (h_csr h Cmideleg)
  | Csip => Z.land (impl Cmip) (h_csr h Cmideleg)
  | r => impl r
  end.

Definition csrr (r : csrname) : HM Z := gets (λ h, csrr_val h r).
Definition write_csr (r : csrname) (v : Z) (h : hart) : hart :=
  upd_h_csr (set_csr (csr_target r) (merge_bits (csr_window h r) (h_csr h (csr_target r)) v)) h.
Definition csrw (r : csrname) (v : Z) : HM () := modify (write_csr r v).

(** ** Accessors of riscv.h *)

Definition MSTATUS_MPP_MASK : Z := Z.shiftl 3 11.
Definition MSTATUS_MPP_S : Z := Z.shiftl 1 11.
Definition SIE_SEIE : Z := Z.shiftl 1 9.
Definition SIE_STIE : Z := Z.shiftl 1 5.
Definition MIE_STIE : Z := Z.shiftl 1 5.

Definition r_mhartid : HM Z := csrr Cmhartid.
Definition r_mstatus : HM Z := csrr Cmstatus.
Definition w_mstatus (x : Z) : HM () := csrw Cmstatus x.
Definition w_mepc (x : Z) : HM () := csrw Cmepc x.
Definition r_sstatus : HM Z := csrr Csstatus.
Definition w_sstatus (x : Z) : HM () := csrw Csstatus x.
Definition r_sip : HM Z := csrr Csip.
Definition w_sip (x : Z) : HM () := csrw Csip x.
Definition r_sie : HM Z := csrr Csie.
Definition w_sie (x : Z) : HM () := csrw Csie x.
Definition r_mie : HM Z := csrr Cmie.
Definition w_mie (x : Z) : HM () := csrw Cmie x.
Definition w_sepc (x : Z) : HM () := csrw Csepc x.
Definition r_sepc : HM Z := csrr Csepc.
Definition r_medeleg : HM Z := csrr Cmedeleg.
Definition w_medeleg (x : Z) : HM () := csrw Cmedeleg x.
Definition r_mideleg : HM Z := csrr Cmideleg.
Definition w_mideleg (x : Z) : HM () := csrw Cmideleg x.
Definition w_stvec (x : Z) : HM () := csrw Cstvec x.
Definition r_stvec : HM Z := csrr Cstvec.
Definition r_stimecmp : HM Z := csrr Cstimecmp.
Definition w_stimecmp (x : Z) : HM () := csrw Cstimecmp x.
Definition r_menvcfg : HM Z := csrr Cmenvcfg.
Definition w_menvcfg (x : Z) : HM () := csrw Cmenvcfg x.
Definition w_pmpcfg0 (x : Z) : HM () := csrw Cpmpcfg0 x.
Definition w_pmpaddr0 (x : Z) : HM () := csrw Cpmpaddr0 x.
Definition w_satp (x : Z) : HM () := csrw Csatp x.
Definition r_satp : HM Z := csrr Csatp.
Definition r_scause : HM Z := csrr Cscause.
Definition r_stval : HM Z := csrr Cstval.
Definition w_mcounteren (x : Z) : HM () := csrw Cmcounteren x.
Definition r_mcounteren : HM Z := csrr Cmcounteren.
Definition r_time : HM Z := csrr Ctime.
Definition r_sp : HM Z := gets h_sp.
Definition r_tp : HM Z := gets h_tp.
Definition w_tp (x : Z) : HM () := modify (upd_h_tp (λ _, x)).
Definition r_ra : HM Z := gets h_ra.

(** The instruction mret: to the mode of MPP at mepc; MIE takes the value of
    MPIE, MPIE is set and MPP is cleared; MPRV is cleared when the mode is
    less privileged than machine mode. *)
Definition mpp (st : Z) : privilege :=
  match Z.land (Z.shiftr st 11) 3 with 0 => User | 1 => Supervisor | _ => MachineMode end.
Definition mret_status (st : Z) : Z :=
  let mie := Z.shiftl (Z.land (Z.shiftr st 7) 1) 3 in
  let st' := Z.lor (Z.lor (Z.ldiff st (Z.lor (Z.shiftl 1 3) MSTATUS_MPP_MASK)) mie) (Z.shiftl 1 7) in
  if decide (mpp st = MachineMode) then st' else Z.ldiff st' (Z.shiftl 1 17).
Definition mret_instr : HM () :=
  modify (λ h, let st := h_csr h Cmstatus in
    jump (h_csr h Cmepc) (mpp st) (upd_h_csr (set_csr Cmstatus (mret_status st)) h)).

(** ** start.c *)

Definition timerinit : HM () :=
  x ← r_mie;
  w_mie (Z.lor x MIE_STIE);;
  x ← r_menvcfg;
  w_menvcfg (Z.lor x (Z.shiftl 1 63));;
  x ← r_mcounteren;
  w_mcounteren (Z.lor x 2);;
  t ← r_time;
  w_stimecmp (u64 (t + 1000000)).

(** [main] is the address of main(). *)
Definition start (main : Z) : HM () :=
  x ← r_mstatus;
  let x := Z.land x (Z.lnot MSTATUS_MPP_MASK) in
  let x := Z.lor x MSTATUS_MPP_S in
  w_mstatus x;;
  w_mepc main;;
  w_satp 0;;
  w_medeleg 0xffff;;
  w_mideleg 0xffff;;
  x ← r_sie;
  w_sie (Z.lor (Z.lor x SIE_SEIE) SIE_STIE);;
  w_pmpaddr0 0x3fffffffffffff;;
  w_pmpcfg0 0xf;;
  timerinit;;
  id ← r_mhartid;
  w_tp (u64 (s32 id));;
  mret_instr.
End machine.

(** ** Facts *)

Lemma merge_bits_spec w x v n : 0 ≤ n →
  Z.testbit (merge_bits w x v) n = if Z.testbit w n then Z.testbit v n else Z.testbit x n.
Proof.
  intros Hn. unfold merge_bits. rewrite Z.lor_spec, Z.ldiff_spec, Z.land_spec.
  destruct (Z.testbit w n), (Z.testbit v n), (Z.testbit x n); done.
Qed.

(** A value whose bits are all implemented is stored as it is. *)
Lemma merge_bits_full w x v : 0 ≤ x < 2 ^ 64 → 0 ≤ v < 2 ^ 64 →
  (∀ n, 0 ≤ n < 64 → Z.testbit w n = true ∨ Z.testbit v n = Z.testbit x n) → merge_bits w x v = v.
Proof.
  intros Hx Hv Hw. apply Z.bits_inj'. intros n Hn. rewrite merge_bits_spec by done.
  destruct (decide (n < 64)) as [Hl|Hl].
  - destruct (Z.testbit w n) eqn:E; [done|]. destruct (Hw n) as [E'|E']; [lia|congruence|done].
  - rewrite <- (Z.mod_small v (2 ^ 64)), <- (Z.mod_small x (2 ^ 64)), !Z.mod_pow2_bits_high by lia.
    by destruct (Z.testbit w n).
Qed.

(** ** What the kernel finds when main is entered *)

(** The bits of the registers that a hart the kernel can run on implements. *)
Record impl_ok (impl : csrname → Z) : Prop := {
  im_mstatus n : n = 11 ∨ n = 12 → Z.testbit (impl Cmstatus) n = true;
  im_mepc n : 2 ≤ n < 64 → Z.testbit (impl Cmepc) n = true;
  im_word r n : r ∈ [Csatp; Cstimecmp] → 0 ≤ n < 64 → Z.testbit (impl r) n = true;
  im_medeleg n : n ∈ [8; 12; 13; 15] → Z.testbit (impl Cmedeleg) n = true;
  im_mideleg n : n ∈ [5; 9] → Z.testbit (impl Cmideleg) n = true;
  im_mie n : n ∈ [5; 9] → Z.testbit (impl Cmie) n = true;
  im_menvcfg : Z.testbit (impl Cmenvcfg) 63 = true;
  im_mcounteren : Z.testbit (impl Cmcounteren) 1 = true;
  im_pmpcfg n : 0 ≤ n < 8 → Z.testbit (impl Cpmpcfg0) n = true;
  im_pmpaddr n : 0 ≤ n < 54 → Z.testbit (impl Cpmpaddr0) n = true;
}.

(** Physical memory protection, first entry: a range from 0 (mode TOR) to four
    times pmpaddr0 with all permissions. *)
Definition pmp_allows (h : hart) (a : Z) : bool :=
  let cfg := Z.land (h_csr h Cpmpcfg0) 0xff in
  (Z.land (Z.shiftr cfg 3) 3 =? 1) && (Z.land cfg 7 =? 7) &&
  (a <? 4 * Z.land (h_csr h Cpmpaddr0) (Z.ones 54)).

(** An interrupt [n] of the kernel's is delegated to it and enabled. *)
Definition takes_interrupt (h : hart) (n : Z) : Prop :=
  Z.testbit (h_csr h Cmideleg) n = true ∧ Z.testbit (csrr_val h Csie) n = true.

Record entered (main : Z) (h h' : hart) : Prop := {
  en_mode : h_mode h' = Supervisor;
  en_pc : h_pc h' = main;
  en_tp : h_tp h' = u64 (s32 (h_csr h Cmhartid));
  en_satp : csrr_val h' Csatp = 0;
  en_sstatus : csrr_val h' Csstatus = csrr_val h Csstatus;
  en_intr n : n ∈ [5; 9] → takes_interrupt h' n;
  en_exc n : n ∈ [8; 12; 13; 15] → Z.testbit (h_csr h' Cmedeleg) n = true;
  en_pmp a : 0 ≤ a < 2 ^ 56 - 4 → pmp_allows h' a = true;
  en_timer : Z.testbit (h_csr h' Cmenvcfg) 63 = true ∧ Z.testbit (h_csr h' Cmcounteren) 1 = true ∧
    csrr_val h' Cstimecmp = u64 (h_csr h Ctime + 1000000);
}.

(** Reading a register after a write. *)
Lemma write_csr_eq impl r v h : h_csr (write_csr impl r v h) (csr_target r) =
  merge_bits (csr_window impl h r) (h_csr h (csr_target r)) v.
Proof. unfold write_csr, upd_h_csr, set_csr. cbn [h_csr]. by rewrite decide_True. Qed.
Lemma write_csr_ne impl r v h r' : r' ≠ csr_target r → h_csr (write_csr impl r v h) r' = h_csr h r'.
Proof. intros. unfold write_csr, upd_h_csr, set_csr. cbn [h_csr]. by rewrite decide_False. Qed.

(** Runs a sequence of register accesses, and reads the registers it leaves. *)
Ltac csr_run :=
  unfold start, timerinit, r_mhartid, r_mstatus, w_mstatus, w_mepc, w_satp, w_medeleg, w_mideleg,
    r_sie, w_sie, w_pmpaddr0, w_pmpcfg0, r_mie, w_mie, r_menvcfg, w_menvcfg, r_mcounteren, w_mcounteren,
    r_time, w_stimecmp, w_tp, csrr, csrw, mret_instr;
  cbn zeta; mrun.
Ltac csr_simpl :=
  cbv [h_csr h_tp h_pc h_mode h_sp h_ra jump upd_h_csr upd_h_tp set_csr csrr_val csr_target csr_window
       write_csr decide decide_rel csrname_eq_dec csrname_rec csrname_rect sumbool_rec sumbool_rect
       eq_rec_r eq_rect_r eq_rec eq_rect eq_sym].
(** Decides a bit of an expression over registers. *)
Ltac bits := rewrite ?merge_bits_spec, ?Z.lor_spec, ?Z.land_spec, ?Z.lnot_spec by lia.

Lemma testbit_1 k : Z.testbit 1 k = (k =? 0).
Proof. destruct (Z.eqb_spec k 0) as [->|]; [done|]. change 1 with (2 ^ 0). destruct (decide (0 ≤ k)); [by rewrite Z.pow2_bits_false by lia|by rewrite Z.testbit_neg_r by lia]. Qed.
Lemma testbit_3 k : Z.testbit 3 k = (k =? 0) || (k =? 1).
Proof.
  change 3 with (Z.lor 1 (Z.shiftl 1 1)). rewrite Z.lor_spec, testbit_1. destruct (decide (0 ≤ k)).
  - rewrite Z.shiftl_spec, testbit_1 by done. f_equal. destruct (Z.eqb_spec k 1), (Z.eqb_spec (k - 1) 0); done || lia.
  - rewrite Z.testbit_neg_r by lia. destruct (Z.eqb_spec k 1); done || lia.
Qed.

Lemma mpp_supervisor st : Z.testbit st 11 = true → Z.testbit st 12 = false → mpp st = Supervisor.
Proof.
  intros H1 H2. unfold mpp. replace (Z.land (Z.shiftr st 11) 3) with 1; [done|].
  apply Z.bits_inj'. intros n Hn. rewrite Z.land_spec, Z.shiftr_spec, testbit_1, testbit_3 by done.
  destruct (Z.eqb_spec n 0) as [->|]; [change (0 + 11) with 11; by rewrite H1|].
  destruct (Z.eqb_spec n 1) as [->|]; [change (1 + 11) with 12; by rewrite H2|].
  by rewrite andb_false_r.
Qed.

(** mret changes MIE, MPIE, MPP and MPRV only. *)
Lemma mret_status_bit st n : 0 ≤ n → n ∉ [3; 7; 11; 12; 17] → Z.testbit (mret_status st) n = Z.testbit st n.
Proof.
  intros Hn Hl. rewrite !not_elem_of_cons in Hl. destruct Hl as (? & ? & ? & ? & ? & _).
  assert (∀ k, k ≠ n → 0 ≤ k → Z.testbit (Z.shiftl 1 k) n = false) as Hk.
  { intros k ??. rewrite Z.shiftl_spec, testbit_1 by done. apply Z.eqb_neq. lia. }
  assert (Z.testbit (Z.lor (Z.lor (Z.ldiff st (Z.lor (Z.shiftl 1 3) MSTATUS_MPP_MASK))
      (Z.shiftl (Z.land (Z.shiftr st 7) 1) 3)) (Z.shiftl 1 7)) n = Z.testbit st n) as E.
  { rewrite !Z.lor_spec, Z.ldiff_spec, Z.lor_spec, !Hk by lia. unfold MSTATUS_MPP_MASK.
    rewrite !Z.shiftl_spec, Z.land_spec, testbit_3, testbit_1 by done.
    destruct (Z.eqb_spec (n - 11) 0), (Z.eqb_spec (n - 11) 1), (Z.eqb_spec (n - 3) 0); try lia.
    cbn. by rewrite !andb_false_r, !orb_false_r, andb_true_r. }
  unfold mret_status. cbn zeta. case_decide; [done|]. rewrite Z.ldiff_spec, E, Hk by lia. by rewrite andb_true_r.
Qed.

(** The value [start] writes to mstatus, as far as it is implemented. *)
Definition start_status (impl : csrname → Z) (st : Z) : Z :=
  merge_bits (impl Cmstatus) st (Z.lor (Z.land st (Z.lnot MSTATUS_MPP_MASK)) MSTATUS_MPP_S).

Lemma start_status_bit impl st n : impl_ok impl → 0 ≤ n →
  Z.testbit (start_status impl st) n = if n =? 11 then true else if n =? 12 then false else Z.testbit st n.
Proof.
  intros Hi Hn. unfold start_status, MSTATUS_MPP_MASK, MSTATUS_MPP_S. bits.
  destruct (Z.eqb_spec n 11) as [->|]; [by rewrite (im_mstatus _ Hi) by lia; rewrite orb_true_r|].
  destruct (Z.eqb_spec n 12) as [->|]; [by rewrite (im_mstatus _ Hi) by lia; rewrite andb_false_r|].
  rewrite !Z.shiftl_spec, testbit_1, testbit_3 by done.
  destruct (Z.eqb_spec (n - 11) 0), (Z.eqb_spec (n - 11) 1); try lia. cbn.
  rewrite orb_false_r, andb_true_r. by destruct (Z.testbit _ n).
Qed.

(** Registers are 64 bits wide, and mepc holds the address of an instruction. *)
Definition reset_ok (h : hart) : Prop := (∀ r, 0 ≤ h_csr h r < 2 ^ 64) ∧ h_csr h Cmepc mod 4 = 0.

Lemma mod4_bits x n : x mod 4 = 0 → 0 ≤ n < 2 → Z.testbit x n = false.
Proof.
  intros Hx Hn. rewrite <- (Z.mod_pow2_bits_low x 2 n) by lia. change (2 ^ 2) with 4. rewrite Hx. apply Z.bits_0.
Qed.

Lemma start_mepc impl main x :
  impl_ok impl → 0 ≤ x < 2 ^ 64 → x mod 4 = 0 → 0 ≤ main < 2 ^ 64 → main mod 4 = 0 →
  merge_bits (impl Cmepc) x main = main.
Proof.
  intros Hi Hx Hx4 Hm Hm4. apply merge_bits_full; [done..|]. intros n Hn.
  destruct (decide (n < 2)); [right; by rewrite !mod4_bits by (done || lia)|left; apply (im_mepc _ Hi); lia].
Qed.

(** The interrupts: delegated first, then enabled through the window on mie. *)
Lemma start_intr impl x d n : impl_ok impl → n ∈ [5; 9] →
  let deleg := merge_bits (impl Cmideleg) d 0xffff in
  let mie := merge_bits (Z.land (impl Cmie) deleg) x (Z.lor (Z.lor (Z.land x deleg) SIE_SEIE) SIE_STIE) in
  Z.testbit deleg n = true ∧
  Z.testbit (Z.land (merge_bits (impl Cmie) mie (Z.lor mie MIE_STIE)) deleg) n = true.
Proof.
  intros Hi Hn deleg mie. assert (0 ≤ n) as Hn0 by (rewrite !elem_of_cons, elem_of_nil in Hn; lia).
  assert (Z.testbit 0xffff n = true ∧ Z.testbit (Z.lor SIE_SEIE SIE_STIE) n = true) as [Hf Hs].
  { rewrite !elem_of_cons, elem_of_nil in Hn. destruct Hn as [->|[->|[]]]; done. }
  assert (Z.testbit deleg n = true) as Hd by (unfold deleg; bits; by rewrite (im_mideleg _ Hi) by done).
  split; [done|]. rewrite Z.land_spec, Hd, andb_true_r, merge_bits_spec by done.
  rewrite (im_mie _ Hi) by done. rewrite Z.lor_spec. apply orb_true_iff. left. unfold mie.
  rewrite merge_bits_spec, Z.land_spec, (im_mie _ Hi), Hd by done. cbn [andb].
  rewrite <- Z.lor_assoc, Z.lor_spec, Hs. apply orb_true_r.
Qed.

Lemma start_pmp impl x y a : impl_ok impl → 0 ≤ a < 2 ^ 56 - 4 →
  let cfg := Z.land (merge_bits (impl Cpmpcfg0) x 0xf) 0xff in
  (Z.land (Z.shiftr cfg 3) 3 =? 1) && (Z.land cfg 7 =? 7) &&
  (a <? 4 * Z.land (merge_bits (impl Cpmpaddr0) y 0x3fffffffffffff) (Z.ones 54)) = true.
Proof.
  intros Hi Ha cfg.
  assert (cfg = 0xf) as ->.
  { apply Z.bits_inj'. intros n Hn. unfold cfg. change 0xff with (Z.ones 8). rewrite Z.land_spec, merge_bits_spec by done.
    destruct (decide (n < 8)) as [Hl|Hl]; [by rewrite Z.ones_spec_low, (im_pmpcfg _ Hi), andb_true_r by lia|].
    rewrite Z.ones_spec_high, andb_false_r by lia. change 0xf with (0xf mod 2 ^ 8).
    by rewrite Z.mod_pow2_bits_high by lia. }
  assert (Z.land (merge_bits (impl Cpmpaddr0) y 0x3fffffffffffff) (Z.ones 54) = Z.ones 54) as ->.
  { apply Z.bits_inj'. intros n Hn. rewrite Z.land_spec, merge_bits_spec by done. change 0x3fffffffffffff with (Z.ones 54).
    destruct (decide (n < 54)) as [Hl|Hl]; [by rewrite Z.ones_spec_low, (im_pmpaddr _ Hi) by lia|].
    by rewrite Z.ones_spec_high, andb_false_r by lia. }
  apply andb_true_iff. split; [done|]. apply Z.ltb_lt. rewrite Z.ones_equiv. lia.
Qed.

(** sstatus shows none of the bits that [start] and mret change. *)
Lemma start_sstatus impl st : impl_ok impl →
  Z.land (mret_status (start_status impl st)) SSTATUS_MASK = Z.land st SSTATUS_MASK.
Proof.
  intros Hi. apply Z.bits_inj'. intros n Hn. rewrite !Z.land_spec.
  destruct (decide (n ∈ [3; 7; 11; 12; 17])) as [Hl|Hl].
  - assert (Z.testbit SSTATUS_MASK n = false) as ->; [|by rewrite !andb_false_r].
    rewrite !elem_of_cons, elem_of_nil in Hl. destruct Hl as [->|[->|[->|[->|[->|[]]]]]]; done.
  - rewrite mret_status_bit, start_status_bit by done. rewrite !not_elem_of_cons in Hl.
    destruct (Z.eqb_spec n 11), (Z.eqb_spec n 12); tauto.
Qed.

(** ** Claim *)

(** C28: [start] leaves machine mode the way the kernel needs it. On a hart that
    implements the register bits of [impl_ok] it ends in supervisor mode at
    main with tp holding the hart's number and paging off; the timer and
    external interrupts are both delegated to the kernel and enabled; system
    calls and page faults are delegated; every physical address is
    accessible; the first timer interrupt is due in a million ticks and the
    kernel may set the next; and sstatus, the interrupt switch of the kernel
    with it, is as it was. *)
Theorem start_enters_supervisor impl main h :
  impl_ok impl → reset_ok h → 0 ≤ main < 2 ^ 64 → main mod 4 = 0 →
  ∃ h', start impl main h = Ok () h' ∧ entered main h h'.
Proof.
  intros Hi [Hw Hm4] Hm Hma. eexists. split; [csr_run; reflexivity|].
  pose proof (start_status_bit impl (h_csr h Cmstatus) 11 Hi ltac:(lia)) as B11.
  pose proof (start_status_bit impl (h_csr h Cmstatus) 12 Hi ltac:(lia)) as B12.
  destruct h as [f tp sp ra pc md]. cbn [h_csr] in *. split.
  - by apply mpp_supervisor.
  - csr_simpl. by apply start_mepc.
  - by csr_simpl.
  - csr_simpl. apply merge_bits_full; [done|lia|]. intros n Hn. left. apply (im_word _ Hi); [left|done].
  - csr_simpl. by apply start_sstatus.
  - intros n Hn. unfold takes_interrupt. csr_simpl. by apply start_intr.
  - intros n Hn. csr_simpl. rewrite !elem_of_cons, elem_of_nil in Hn.
    rewrite merge_bits_spec, (im_medeleg _ Hi) by (rewrite ?elem_of_cons, ?elem_of_nil; lia).
    by destruct Hn as [->|[->|[->|[->|[]]]]].
  - intros a Ha. unfold pmp_allows. csr_simpl. by apply start_pmp.
  - csr_simpl. split_and!.
    + bits. rewrite (im_menvcfg _ Hi). apply orb_true_r.
    + bits. rewrite (im_mcounteren _ Hi). apply orb_true_r.
    + apply merge_bits_full; [done|apply u64_range|]. intros n Hn. left. apply (im_word _ Hi); [right; left|done].
Qed.

(** A hart with every bit implemented, in machine mode with all its other
    registers 0. *)
Definition demo_hart : hart :=
  mk_hart (λ r, if decide (r = Cmhartid) then 3 else 0) 0 0 0 0x80000000 MachineMode.

Lemma start_enters_supervisor_witness :
  ∃ h', start (λ _, -1) 0x80000120 demo_hart = Ok () h' ∧ h_mode h' = Supervisor ∧ h_tp h' = 3 ∧
    takes_interrupt h' 9.
Proof.
  destruct (start_enters_supervisor (λ _, -1) 0x80000120 demo_hart) as (h' & E & [H1 _ H3 _ _ H4 _ _ _]).
  - split; intros; apply Z.bits_m1; rewrite ?elem_of_cons, ?elem_of_nil in *; lia.
  - split; [intros r; cbn; case_decide; lia|reflexivity].
  - lia.
  - reflexivity.
  - exists h'. split; [exact E|]. split; [exact H1|]. split; [rewrite H3; reflexivity|]. apply H4. right. left.
Defined.
