(* ===== verification/Kstate.v ===== *)
(** * The kernel's data: structures of kernel/*.h and the global state

    One record per C structure, with the structure's fields, and one record
    [kstate] for the kernel's global variables and the machine it runs on.
    A pointer to an element of a static table is the element's index; a
    pointer to a page from [kalloc] is its physical address, and 0 is NULL.

    Spinlocks: [locks] is the list of spinlocks the running kernel thread
    holds; [acquire] and [release] check it the way [holding] does. *)

From S2P Require Import Prelude Riscv.

(** ** Locks and wait channels *)

Inductive lock :=
| LKmem | LBcache | LLog | LItable | LFtable | LWait | LPid | LCons | LTicks | LTx
| LVdisk | LPr | LPipe (pa : Z) | LProc (i : nat) | LSleepBuf (i : nat) | LSleepInode (i : nat).
#[export] Instance lock_eq_dec : EqDecision lock.
Proof. solve_decision. Defined.

(** The addresses processes sleep on. *)
Inductive chan :=
| ChProc (i : nat) | ChLog | ChTicks | ChCons | ChTx | ChDiskFree | ChDiskBuf (i : nat)
| ChPipeR (pa : Z) | ChPipeW (pa : Z) | ChSleepBuf (i : nat) | ChSleepInode (i : nat).
#[export] Instance chan_eq_dec : EqDecision chan.
Proof. solve_decision. Defined.

(** ** Structures *)

(** [struct sleeplock] (its inner spinlock is named by [LSleepBuf]/[LSleepInode]). *)
Record sleeplock := mk_sleeplock {
  sl_locked : bool;
  sl_pid : Z
}.
Definition upd_sl_locked (g : bool → bool) (x : sleeplock) : sleeplock :=
    mk_sleeplock (g (sl_locked x)) (sl_pid x).
Definition upd_sl_pid (g : Z → Z) (x : sleeplock) : sleeplock :=
    mk_sleeplock (sl_locked x) (g (sl_pid x)).

(** [struct buf]: [b_prev] and [b_next] index the buffer array. *)
Record buf := mk_buf {
  b_valid : bool;
  b_disk : bool;
  b_dev : Z;
  b_blockno : Z;
  b_lock : sleeplock;
  b_refcnt : Z;
  b_prev : nat;
  b_next : nat;
  b_data : list Z
}.
Definition upd_b_valid (g : bool → bool) (x : buf) : buf :=
    mk_buf (g (b_valid x)) (b_disk x) (b_dev x) (b_blockno x) (b_lock x) (b_refcnt x) (b_prev x)
    (b_next x) (b_data x).
Definition upd_b_disk (g : bool → bool) (x : buf) : buf :=
    mk_buf (b_valid x) (g (b_disk x)) (b_dev x) (b_blockno x) (b_lock x) (b_refcnt x) (b_prev x)
    (b_next x) (b_data x).
Definition upd_b_dev (g : Z → Z) (x : buf) : buf :=
    mk_buf (b_valid x) (b_disk x) (g (b_dev x)) (b_blockno x) (b_lock x) (b_refcnt x) (b_prev x)
    (b_next x) (b_data x).
Definition upd_b_blockno (g : Z → Z) (x : buf) : buf :=
    mk_buf (b_valid x) (b_disk x) (b_dev x) (g (b_blockno x)) (b_lock x) (b_refcnt x) (b_prev x)
    (b_next x) (b_data x).
Definition upd_b_lock (g : sleeplock → sleeplock) (x : buf) : buf :=
    mk_buf (b_valid x) (b_disk x) (b_dev x) (b_blockno x) (g (b_lock x)) (b_refcnt x) (b_prev x)
    (b_next x) (b_data x).
Definition upd_b_refcnt (g : Z → Z) (x : buf) : buf :=
    mk_buf (b_valid x) (b_disk x) (b_dev x) (b_blockno x) (b_lock x) (g (b_refcnt x)) (b_prev x)
    (b_next x) (b_data x).
Definition upd_b_prev (g : nat → nat) (x : buf) : buf :=
    mk_buf (b_valid x) (b_disk x) (b_dev x) (b_blockno x) (b_lock x) (b_refcnt x) (g (b_prev x))
    (b_next x) (b_data x).
Definition upd_b_next (g : nat → nat) (x : buf) : buf :=
    mk_buf (b_valid x) (b_disk x) (b_dev x) (b_blockno x) (b_lock x) (b_refcnt x) (b_prev x) (g
    (b_next x)) (b_data x).
Definition upd_b_data (g : (list Z) → (list Z)) (x : buf) : buf :=
    mk_buf (b_valid x) (b_disk x) (b_dev x) (b_blockno x) (b_lock x) (b_refcnt x) (b_prev x)
    (b_next x) (g (b_data x)).

(** [struct log] with its [struct logheader] (lh_n, lh_block). *)
Record logst := mk_logst {
  lg_start : Z;
  lg_outstanding : Z;
  lg_committing : bool;
  lg_dev : Z;
  lh_n : Z;
  lh_block : list Z
}.
Definition upd_lg_start (g : Z → Z) (x : logst) : logst :=
    mk_logst (g (lg_start x)) (lg_outstanding x) (lg_committing x) (lg_dev x) (lh_n x) (lh_block
    x).
Definition upd_lg_outstanding (g : Z → Z) (x : logst) : logst :=
    mk_logst (lg_start x) (g (lg_outstanding x)) (lg_committing x) (lg_dev x) (lh_n x) (lh_block
    x).
Definition upd_lg_committing (g : bool → bool) (x : logst) : logst :=
    mk_logst (lg_start x) (lg_outstanding x) (g (lg_committing x)) (lg_dev x) (lh_n x) (lh_block
    x).
Definition upd_lg_dev (g : Z → Z) (x : logst) : logst :=
    mk_logst (lg_start x) (lg_outstanding x) (lg_committing x) (g (lg_dev x)) (lh_n x) (lh_block
    x).
Definition upd_lh_n (g : Z → Z) (x : logst) : logst :=
    mk_logst (lg_start x) (lg_outstanding x) (lg_committing x) (lg_dev x) (g (lh_n x)) (lh_block
    x).
Definition upd_lh_block (g : (list Z) → (list Z)) (x : logst) : logst :=
    mk_logst (lg_start x) (lg_outstanding x) (lg_committing x) (lg_dev x) (lh_n x) (g (lh_block
    x)).

(** [struct superblock]. *)
Record superblock := mk_superblock {
  sb_magic : Z;
  sb_size : Z;
  sb_nblocks : Z;
  sb_ninodes : Z;
  sb_nlog : Z;
  sb_logstart : Z;
  sb_inodestart : Z;
  sb_bmapstart : Z
}.
Definition upd_sb_magic (g : Z → Z) (x : superblock) : superblock :=
    mk_superblock (g (sb_magic x)) (sb_size x) (sb_nblocks x) (sb_ninodes x) (sb_nlog x)
    (sb_logstart x) (sb_inodestart x) (sb_bmapstart x).
Definition upd_sb_size (g : Z → Z) (x : superblock) : superblock :=
    mk_superblock (sb_magic x) (g (sb_size x)) (sb_nblocks x) (sb_ninodes x) (sb_nlog x)
    (sb_logstart x) (sb_inodestart x) (sb_bmapstart x).
Definition upd_sb_nblocks (g : Z → Z) (x : superblock) : superblock :=
    mk_superblock (sb_magic x) (sb_size x) (g (sb_nblocks x)) (sb_ninodes x) (sb_nlog x)
    (sb_logstart x) (sb_inodestart x) (sb_bmapstart x).
Definition upd_sb_ninodes (g : Z → Z) (x : superblock) : superblock :=
    mk_superblock (sb_magic x) (sb_size x) (sb_nblocks x) (g (sb_ninodes x)) (sb_nlog x)
    (sb_logstart x) (sb_inodestart x) (sb_bmapstart x).
Definition upd_sb_nlog (g : Z → Z) (x : superblock) : superblock :=
    mk_superblock (sb_magic x) (sb_size x) (sb_nblocks x) (sb_ninodes x) (g (sb_nlog x))
    (sb_logstart x) (sb_inodestart x) (sb_bmapstart x).
Definition upd_sb_logstart (g : Z → Z) (x : superblock) : superblock :=
    mk_superblock (sb_magic x) (sb_size x) (sb_nblocks x) (sb_ninodes x) (sb_nlog x) (g
    (sb_logstart x)) (sb_inodestart x) (sb_bmapstart x).
Definition upd_sb_inodestart (g : Z → Z) (x : superblock) : superblock :=
    mk_superblock (sb_magic x) (sb_size x) (sb_nblocks x) (sb_ninodes x) (sb_nlog x)
    (sb_logstart x) (g (sb_inodestart x)) (sb_bmapstart x).
Definition upd_sb_bmapstart (g : Z → Z) (x : superblock) : superblock :=
    mk_superblock (sb_magic x) (sb_size x) (sb_nblocks x) (sb_ninodes x) (sb_nlog x)
    (sb_logstart x) (sb_inodestart x) (g (sb_bmapstart x)).

(** [struct inode], the in-memory copy of an inode. *)
Record inode := mk_inode {
  i_dev : Z;
  i_inum : Z;
  i_ref : Z;
  i_lock : sleeplock;
  i_valid : bool;
  i_type : Z;
  i_major : Z;
  i_minor : Z;
  i_nlink : Z;
  i_size : Z;
  i_addrs : list Z
}.
Definition upd_i_dev (g : Z → Z) (x : inode) : inode :=
    mk_inode (g (i_dev x)) (i_inum x) (i_ref x) (i_lock x) (i_valid x) (i_type x) (i_major x)
    (i_minor x) (i_nlink x) (i_size x) (i_addrs x).
Definition upd_i_inum (g : Z → Z) (x : inode) : inode :=
    mk_inode (i_dev x) (g (i_inum x)) (i_ref x) (i_lock x) (i_valid x) (i_type x) (i_major x)
    (i_minor x) (i_nlink x) (i_size x) (i_addrs x).
Definition upd_i_ref (g : Z → Z) (x : inode) : inode :=
    mk_inode (i_dev x) (i_inum x) (g (i_ref x)) (i_lock x) (i_valid x) (i_type x) (i_major x)
    (i_minor x) (i_nlink x) (i_size x) (i_addrs x).
Definition upd_i_lock (g : sleeplock → sleeplock) (x : inode) : inode :=
    mk_inode (i_dev x) (i_inum x) (i_ref x) (g (i_lock x)) (i_valid x) (i_type x) (i_major x)
    (i_minor x) (i_nlink x) (i_size x) (i_addrs x).
Definition upd_i_valid (g : bool → bool) (x : inode) : inode :=
    mk_inode (i_dev x) (i_inum x) (i_ref x) (i_lock x) (g (i_valid x)) (i_type x) (i_major x)
    (i_minor x) (i_nlink x) (i_size x) (i_addrs x).
Definition upd_i_type (g : Z → Z) (x : inode) : inode :=
    mk_inode (i_dev x) (i_inum x) (i_ref x) (i_lock x) (i_valid x) (g (i_type x)) (i_major x)
    (i_minor x) (i_nlink x) (i_size x) (i_addrs x).
Definition upd_i_major (g : Z → Z) (x : inode) : inode :=
    mk_inode (i_dev x) (i_inum x) (i_ref x) (i_lock x) (i_valid x) (i_type x) (g (i_major x))
    (i_minor x) (i_nlink x) (i_size x) (i_addrs x).
Definition upd_i_minor (g : Z → Z) (x : inode) : inode :=
    mk_inode (i_dev x) (i_inum x) (i_ref x) (i_lock x) (i_valid x) (i_type x) (i_major x) (g
    (i_minor x)) (i_nlink x) (i_size x) (i_addrs x).
Definition upd_i_nlink (g : Z → Z) (x : inode) : inode :=
    mk_inode (i_dev x) (i_inum x) (i_ref x) (i_lock x) (i_valid x) (i_type x) (i_major x)
    (i_minor x) (g (i_nlink x)) (i_size x) (i_addrs x).
Definition upd_i_size (g : Z → Z) (x : inode) : inode :=
    mk_inode (i_dev x) (i_inum x) (i_ref x) (i_lock x) (i_valid x) (i_type x) (i_major x)
    (i_minor x) (i_nlink x) (g (i_size x)) (i_addrs x).
Definition upd_i_addrs (g : (list Z) → (list Z)) (x : inode) : inode :=
    mk_inode (i_dev x) (i_inum x) (i_ref x) (i_lock x) (i_valid x) (i_type x) (i_major x)
    (i_minor x) (i_nlink x) (i_size x) (g (i_addrs x)).

(** [struct pipe]. *)
Record pipe := mk_pipe {
  p_data : list Z;
  p_nread : Z;
  p_nwrite : Z;
  p_readopen : bool;
  p_writeopen : bool
}.
Definition upd_p_data (g : (list Z) → (list Z)) (x : pipe) : pipe :=
    mk_pipe (g (p_data x)) (p_nread x) (p_nwrite x) (p_readopen x) (p_writeopen x).
Definition upd_p_nread (g : Z → Z) (x : pipe) : pipe :=
    mk_pipe (p_data x) (g (p_nread x)) (p_nwrite x) (p_readopen x) (p_writeopen x).
Definition upd_p_nwrite (g : Z → Z) (x : pipe) : pipe :=
    mk_pipe (p_data x) (p_nread x) (g (p_nwrite x)) (p_readopen x) (p_writeopen x).
Definition upd_p_readopen (g : bool → bool) (x : pipe) : pipe :=
    mk_pipe (p_data x) (p_nread x) (p_nwrite x) (g (p_readopen x)) (p_writeopen x).
Definition upd_p_writeopen (g : bool → bool) (x : pipe) : pipe :=
    mk_pipe (p_data x) (p_nread x) (p_nwrite x) (p_readopen x) (g (p_writeopen x)).

(** The type tag of [struct file]. *)
Inductive fdtype := FD_NONE | FD_PIPE | FD_INODE | FD_DEVICE.
#[export] Instance fdtype_eq_dec : EqDecision fdtype.
Proof. solve_decision. Defined.

(** [struct file]. *)
Record file := mk_file {
  f_type : fdtype;
  f_ref : Z;
  f_readable : bool;
  f_writable : bool;
  f_pipe : Z;
  f_ip : option nat;
  f_off : Z;
  f_major : Z
}.
Definition upd_f_type (g : fdtype → fdtype) (x : file) : file :=
    mk_file (g (f_type x)) (f_ref x) (f_readable x) (f_writable x) (f_pipe x) (f_ip x) (f_off x)
    (f_major x).
Definition upd_f_ref (g : Z → Z) (x : file) : file :=
    mk_file (f_type x) (g (f_ref x)) (f_readable x) (f_writable x) (f_pipe x) (f_ip x) (f_off x)
    (f_major x).
Definition upd_f_readable (g : bool → bool) (x : file) : file :=
    mk_file (f_type x) (f_ref x) (g (f_readable x)) (f_writable x) (f_pipe x) (f_ip x) (f_off x)
    (f_major x).
Definition upd_f_writable (g : bool → bool) (x : file) : file :=
    mk_file (f_type x) (f_ref x) (f_readable x) (g (f_writable x)) (f_pipe x) (f_ip x) (f_off x)
    (f_major x).
Definition upd_f_pipe (g : Z → Z) (x : file) : file :=
    mk_file (f_type x) (f_ref x) (f_readable x) (f_writable x) (g (f_pipe x)) (f_ip x) (f_off x)
    (f_major x).
Definition upd_f_ip (g : (option nat) → (option nat)) (x : file) : file :=
    mk_file (f_type x) (f_ref x) (f_readable x) (f_writable x) (f_pipe x) (g (f_ip x)) (f_off x)
    (f_major x).
Definition upd_f_off (g : Z → Z) (x : file) : file :=
    mk_file (f_type x) (f_ref x) (f_readable x) (f_writable x) (f_pipe x) (f_ip x) (g (f_off x))
    (f_major x).
Definition upd_f_major (g : Z → Z) (x : file) : file :=
    mk_file (f_type x) (f_ref x) (f_readable x) (f_writable x) (f_pipe x) (f_ip x) (f_off x) (g
    (f_major x)).

(** [struct mmap_region]: the fields the kernel uses. *)
Record mmap_region := mk_mmap_region {
  mm_used : bool;
  mm_pa : Z;
  mm_addr : Z
}.
Definition upd_mm_used (g : bool → bool) (x : mmap_region) : mmap_region :=
    mk_mmap_region (g (mm_used x)) (mm_pa x) (mm_addr x).
Definition upd_mm_pa (g : Z → Z) (x : mmap_region) : mmap_region :=
    mk_mmap_region (mm_used x) (g (mm_pa x)) (mm_addr x).
Definition upd_mm_addr (g : Z → Z) (x : mmap_region) : mmap_region :=
    mk_mmap_region (mm_used x) (mm_pa x) (g (mm_addr x)).

(** [enum procstate] (kernel/proc.h). *)
Inductive procstate := UNUSED | USED | SLEEPING | RUNNABLE | RUNNING | ZOMBIE.
#[export] Instance procstate_eq_dec : EqDecision procstate.
Proof. solve_decision. Defined.

(** [struct proc]; of [struct context] the two registers [allocproc] sets. *)
Record proc := mk_proc {
  pr_syscall_count : Z;
  pr_state : procstate;
  pr_chan : option chan;
  pr_killed : Z;
  pr_xstate : Z;
  pr_pid : Z;
  pr_traced : Z;
  pr_tracing : Z;
  pr_parent : option nat;
  pr_kstack : Z;
  pr_sz : Z;
  pr_pagetable : Z;
  pr_trapframe : Z;
  pr_ctx_ra : Z;
  pr_ctx_sp : Z;
  pr_ofile : list (option nat);
  pr_cwd : option nat;
  pr_name : list Z;
  pr_nice : Z;
  pr_priority : Z;
  pr_mmap_base : Z;
  pr_mmap_next : Z;
  pr_mmaps : list mmap_region
}.
Definition upd_pr_syscall_count (g : Z → Z) (x : proc) : proc :=
    mk_proc (g (pr_syscall_count x)) (pr_state x) (pr_chan x) (pr_killed x) (pr_xstate x)
    (pr_pid x) (pr_traced x) (pr_tracing x) (pr_parent x) (pr_kstack x) (pr_sz x) (pr_pagetable
    x) (pr_trapframe x) (pr_ctx_ra x) (pr_ctx_sp x) (pr_ofile x) (pr_cwd x) (pr_name x) (pr_nice
    x) (pr_priority x) (pr_mmap_base x) (pr_mmap_next x) (pr_mmaps x).
Definition upd_pr_state (g : procstate → procstate) (x : proc) : proc :=
    mk_proc (pr_syscall_count x) (g (pr_state x)) (pr_chan x) (pr_killed x) (pr_xstate x)
    (pr_pid x) (pr_traced x) (pr_tracing x) (pr_parent x) (pr_kstack x) (pr_sz x) (pr_pagetable
    x) (pr_trapframe x) (pr_ctx_ra x) (pr_ctx_sp x) (pr_ofile x) (pr_cwd x) (pr_name x) (pr_nice
    x) (pr_priority x) (pr_mmap_base x) (pr_mmap_next x) (pr_mmaps x).
Definition upd_pr_chan (g : (option chan) → (option chan)) (x : proc) : proc :=
    mk_proc (pr_syscall_count x) (pr_state x) (g (pr_chan x)) (pr_killed x) (pr_xstate x)
    (pr_pid x) (pr_traced x) (pr_tracing x) (pr_parent x) (pr_kstack x) (pr_sz x) (pr_pagetable
    x) (pr_trapframe x) (pr_ctx_ra x) (pr_ctx_sp x) (pr_ofile x) (pr_cwd x) (pr_name x) (pr_nice
    x) (pr_priority x) (pr_mmap_base x) (pr_mmap_next x) (pr_mmaps x).
Definition upd_pr_killed (g : Z → Z) (x : proc) : proc :=
    mk_proc (pr_syscall_count x) (pr_state x) (pr_chan x) (g (pr_killed x)) (pr_xstate x)
    (pr_pid x) (pr_traced x) (pr_tracing x) (pr_parent x) (pr_kstack x) (pr_sz x) (pr_pagetable
    x) (pr_trapframe x) (pr_ctx_ra x) (pr_ctx_sp x) (pr_ofile x) (pr_cwd x) (pr_name x) (pr_nice
    x) (pr_priority x) (pr_mmap_base x) (pr_mmap_next x) (pr_mmaps x).
Definition upd_pr_xstate (g : Z → Z) (x : proc) : proc :=
    mk_proc (pr_syscall_count x) (pr_state x) (pr_chan x) (pr_killed x) (g (pr_xstate x))
    (pr_pid x) (pr_traced x) (pr_tracing x) (pr_parent x) (pr_kstack x) (pr_sz x) (pr_pagetable
    x) (pr_trapframe x) (pr_ctx_ra x) (pr_ctx_sp x) (pr_ofile x) (pr_cwd x) (pr_name x) (pr_nice
    x) (pr_priority x) (pr_mmap_base x) (pr_mmap_next x) (pr_mmaps x).
Definition upd_pr_pid (g : Z → Z) (x : proc) : proc :=
    mk_proc (pr_syscall_count x) (pr_state x) (pr_chan x) (pr_killed x) (pr_xstate x) (g (pr_pid
    x)) (pr_traced x) (pr_tracing x) (pr_parent x) (pr_kstack x) (pr_sz x) (pr_pagetable x)
    (pr_trapframe x) (pr_ctx_ra x) (pr_ctx_sp x) (pr_ofile x) (pr_cwd x) (pr_name x) (pr_nice x)
    (pr_priority x) (pr_mmap_base x) (pr_mmap_next x) (pr_mmaps x).
Definition upd_pr_traced (g : Z → Z) (x : proc) : proc :=
    mk_proc (pr_syscall_count x) (pr_state x) (pr_chan x) (pr_killed x) (pr_xstate x) (pr_pid x)
    (g (pr_traced x)) (pr_tracing x) (pr_parent x) (pr_kstack x) (pr_sz x) (pr_pagetable x)
    (pr_trapframe x) (pr_ctx_ra x) (pr_ctx_sp x) (pr_ofile x) (pr_cwd x) (pr_name x) (pr_nice x)
    (pr_priority x) (pr_mmap_base x) (pr_mmap_next x) (pr_mmaps x).
Definition upd_pr_tracing (g : Z → Z) (x : proc) : proc :=
    mk_proc (pr_syscall_count x) (pr_state x) (pr_chan x) (pr_killed x) (pr_xstate x) (pr_pid x)
    (pr_traced x) (g (pr_tracing x)) (pr_parent x) (pr_kstack x) (pr_sz x) (pr_pagetable x)
    (pr_trapframe x) (pr_ctx_ra x) (pr_ctx_sp x) (pr_ofile x) (pr_cwd x) (pr_name x) (pr_nice x)
    (pr_priority x) (pr_mmap_base x) (pr_mmap_next x) (pr_mmaps x).
Definition upd_pr_parent (g : (option nat) → (option nat)) (x : proc) : proc :=
    mk_proc (pr_syscall_count x) (pr_state x) (pr_chan x) (pr_killed x) (pr_xstate x) (pr_pid x)
    (pr_traced x) (pr_tracing x) (g (pr_parent x)) (pr_kstack x) (pr_sz x) (pr_pagetable x)
    (pr_trapframe x) (pr_ctx_ra x) (pr_ctx_sp x) (pr_ofile x) (pr_cwd x) (pr_name x) (pr_nice x)
    (pr_priority x) (pr_mmap_base x) (pr_mmap_next x) (pr_mmaps x).
Definition upd_pr_kstack (g : Z → Z) (x : proc) : proc :=
    mk_proc (pr_syscall_count x) (pr_state x) (pr_chan x) (pr_killed x) (pr_xstate x) (pr_pid x)
    (pr_traced x) (pr_tracing x) (pr_parent x) (g (pr_kstack x)) (pr_sz x) (pr_pagetable x)
    (pr_trapframe x) (pr_ctx_ra x) (pr_ctx_sp x) (pr_ofile x) (pr_cwd x) (pr_name x) (pr_nice x)
    (pr_priority x) (pr_mmap_base x) (pr_mmap_next x) (pr_mmaps x).
Definition upd_pr_sz (g : Z → Z) (x : proc) : proc :=
    mk_proc (pr_syscall_count x) (pr_state x) (pr_chan x) (pr_killed x) (pr_xstate x) (pr_pid x)
    (pr_traced x) (pr_tracing x) (pr_parent x) (pr_kstack x) (g (pr_sz x)) (pr_pagetable x)
    (pr_trapframe x) (pr_ctx_ra x) (pr_ctx_sp x) (pr_ofile x) (pr_cwd x) (pr_name x) (pr_nice x)
    (pr_priority x) (pr_mmap_base x) (pr_mmap_next x) (pr_mmaps x).
Definition upd_pr_pagetable (g : Z → Z) (x : proc) : proc :=
    mk_proc (pr_syscall_count x) (pr_state x) (pr_chan x) (pr_killed x) (pr_xstate x) (pr_pid x)
    (pr_traced x) (pr_tracing x) (pr_parent x) (pr_kstack x) (pr_sz x) (g (pr_pagetable x))
    (pr_trapframe x) (pr_ctx_ra x) (pr_ctx_sp x) (pr_ofile x) (pr_cwd x) (pr_name x) (pr_nice x)
    (pr_priority x) (pr_mmap_base x) (pr_mmap_next x) (pr_mmaps x).
Definition upd_pr_trapframe (g : Z → Z) (x : proc) : proc :=
    mk_proc (pr_syscall_count x) (pr_state x) (pr_chan x) (pr_killed x) (pr_xstate x) (pr_pid x)
    (pr_traced x) (pr_tracing x) (pr_parent x) (pr_kstack x) (pr_sz x) (pr_pagetable x) (g
    (pr_trapframe x)) (pr_ctx_ra x) (pr_ctx_sp x) (pr_ofile x) (pr_cwd x) (pr_name x) (pr_nice
    x) (pr_priority x) (pr_mmap_base x) (pr_mmap_next x) (pr_mmaps x).
Definition upd_pr_ctx_ra (g : Z → Z) (x : proc) : proc :=
    mk_proc (pr_syscall_count x) (pr_state x) (pr_chan x) (pr_killed x) (pr_xstate x) (pr_pid x)
    (pr_traced x) (pr_tracing x) (pr_parent x) (pr_kstack x) (pr_sz x) (pr_pagetable x)
    (pr_trapframe x) (g (pr_ctx_ra x)) (pr_ctx_sp x) (pr_ofile x) (pr_cwd x) (pr_name x)
    (pr_nice x) (pr_priority x) (pr_mmap_base x) (pr_mmap_next x) (pr_mmaps x).
Definition upd_pr_ctx_sp (g : Z → Z) (x : proc) : proc :=
    mk_proc (pr_syscall_count x) (pr_state x) (pr_chan x) (pr_killed x) (pr_xstate x) (pr_pid x)
    (pr_traced x) (pr_tracing x) (pr_parent x) (pr_kstack x) (pr_sz x) (pr_pagetable x)
    (pr_trapframe x) (pr_ctx_ra x) (g (pr_ctx_sp x)) (pr_ofile x) (pr_cwd x) (pr_name x)
    (pr_nice x) (pr_priority x) (pr_mmap_base x) (pr_mmap_next x) (pr_mmaps x).
Definition upd_pr_ofile (g : (list (option nat)) → (list (option nat))) (x : proc) : proc :=
    mk_proc (pr_syscall_count x) (pr_state x) (pr_chan x) (pr_killed x) (pr_xstate x) (pr_pid x)
    (pr_traced x) (pr_tracing x) (pr_parent x) (pr_kstack x) (pr_sz x) (pr_pagetable x)
    (pr_trapframe x) (pr_ctx_ra x) (pr_ctx_sp x) (g (pr_ofile x)) (pr_cwd x) (pr_name x)
    (pr_nice x) (pr_priority x) (pr_mmap_base x) (pr_mmap_next x) (pr_mmaps x).
Definition upd_pr_cwd (g : (option nat) → (option nat)) (x : proc) : proc :=
    mk_proc (pr_syscall_count x) (pr_state x) (pr_chan x) (pr_killed x) (pr_xstate x) (pr_pid x)
    (pr_traced x) (pr_tracing x) (pr_parent x) (pr_kstack x) (pr_sz x) (pr_pagetable x)
    (pr_trapframe x) (pr_ctx_ra x) (pr_ctx_sp x) (pr_ofile x) (g (pr_cwd x)) (pr_name x)
    (pr_nice x) (pr_priority x) (pr_mmap_base x) (pr_mmap_next x) (pr_mmaps x).
Definition upd_pr_name (g : (list Z) → (list Z)) (x : proc) : proc :=
    mk_proc (pr_syscall_count x) (pr_state x) (pr_chan x) (pr_killed x) (pr_xstate x) (pr_pid x)
    (pr_traced x) (pr_tracing x) (pr_parent x) (pr_kstack x) (pr_sz x) (pr_pagetable x)
    (pr_trapframe x) (pr_ctx_ra x) (pr_ctx_sp x) (pr_ofile x) (pr_cwd x) (g (pr_name x))
    (pr_nice x) (pr_priority x) (pr_mmap_base x) (pr_mmap_next x) (pr_mmaps x).
Definition upd_pr_nice (g : Z → Z) (x : proc) : proc :=
    mk_proc (pr_syscall_count x) (pr_state x) (pr_chan x) (pr_killed x) (pr_xstate x) (pr_pid x)
    (pr_traced x) (pr_tracing x) (pr_parent x) (pr_kstack x) (pr_sz x) (pr_pagetable x)
    (pr_trapframe x) (pr_ctx_ra x) (pr_ctx_sp x) (pr_ofile x) (pr_cwd x) (pr_name x) (g (pr_nice
    x)) (pr_priority x) (pr_mmap_base x) (pr_mmap_next x) (pr_mmaps x).
Definition upd_pr_priority (g : Z → Z) (x : proc) : proc :=
    mk_proc (pr_syscall_count x) (pr_state x) (pr_chan x) (pr_killed x) (pr_xstate x) (pr_pid x)
    (pr_traced x) (pr_tracing x) (pr_parent x) (pr_kstack x) (pr_sz x) (pr_pagetable x)
    (pr_trapframe x) (pr_ctx_ra x) (pr_ctx_sp x) (pr_ofile x) (pr_cwd x) (pr_name x) (pr_nice x)
    (g (pr_priority x)) (pr_mmap_base x) (pr_mmap_next x) (pr_mmaps x).
Definition upd_pr_mmap_base (g : Z → Z) (x : proc) : proc :=
    mk_proc (pr_syscall_count x) (pr_state x) (pr_chan x) (pr_killed x) (pr_xstate x) (pr_pid x)
    (pr_traced x) (pr_tracing x) (pr_parent x) (pr_kstack x) (pr_sz x) (pr_pagetable x)
    (pr_trapframe x) (pr_ctx_ra x) (pr_ctx_sp x) (pr_ofile x) (pr_cwd x) (pr_name x) (pr_nice x)
    (pr_priority x) (g (pr_mmap_base x)) (pr_mmap_next x) (pr_mmaps x).
Definition upd_pr_mmap_next (g : Z → Z) (x : proc) : proc :=
    mk_proc (pr_syscall_count x) (pr_state x) (pr_chan x) (pr_killed x) (pr_xstate x) (pr_pid x)
    (pr_traced x) (pr_tracing x) (pr_parent x) (pr_kstack x) (pr_sz x) (pr_pagetable x)
    (pr_trapframe x) (pr_ctx_ra x) (pr_ctx_sp x) (pr_ofile x) (pr_cwd x) (pr_name x) (pr_nice x)
    (pr_priority x) (pr_mmap_base x) (g (pr_mmap_next x)) (pr_mmaps x).
Definition upd_pr_mmaps (g : (list mmap_region) → (list mmap_region)) (x : proc) : proc :=
    mk_proc (pr_syscall_count x) (pr_state x) (pr_chan x) (pr_killed x) (pr_xstate x) (pr_pid x)
    (pr_traced x) (pr_tracing x) (pr_parent x) (pr_kstack x) (pr_sz x) (pr_pagetable x)
    (pr_trapframe x) (pr_ctx_ra x) (pr_ctx_sp x) (pr_ofile x) (pr_cwd x) (pr_name x) (pr_nice x)
    (pr_priority x) (pr_mmap_base x) (pr_mmap_next x) (g (pr_mmaps x)).

(** The console's input ring [cons]. *)
Record consst := mk_consst {
  c_buf : list Z;
  c_r : Z;
  c_w : Z;
  c_e : Z
}.
Definition upd_c_buf (g : (list Z) → (list Z)) (x : consst) : consst :=
    mk_consst (g (c_buf x)) (c_r x) (c_w x) (c_e x).
Definition upd_c_r (g : Z → Z) (x : consst) : consst :=
    mk_consst (c_buf x) (g (c_r x)) (c_w x) (c_e x).
Definition upd_c_w (g : Z → Z) (x : consst) : consst :=
    mk_consst (c_buf x) (c_r x) (g (c_w x)) (c_e x).
Definition upd_c_e (g : Z → Z) (x : consst) : consst :=
    mk_consst (c_buf x) (c_r x) (c_w x) (g (c_e x)).

(** The control registers of the CPU the code reads or writes. *)
Record csrs := mk_csrs {
  c_sstatus : Z;
  c_sepc : Z;
  c_scause : Z;
  c_stval : Z;
  c_stvec : Z;
  c_satp : Z;
  c_tp : Z;
  c_time : Z;
  c_stimecmp : Z
}.
Definition upd_c_sstatus (g : Z → Z) (x : csrs) : csrs :=
    mk_csrs (g (c_sstatus x)) (c_sepc x) (c_scause x) (c_stval x) (c_stvec x) (c_satp x) (c_tp
    x) (c_time x) (c_stimecmp x).
Definition upd_c_sepc (g : Z → Z) (x : csrs) : csrs :=
    mk_csrs (c_sstatus x) (g (c_sepc x)) (c_scause x) (c_stval x) (c_stvec x) (c_satp x) (c_tp
    x) (c_time x) (c_stimecmp x).
Definition upd_c_scause (g : Z → Z) (x : csrs) : csrs :=
    mk_csrs (c_sstatus x) (c_sepc x) (g (c_scause x)) (c_stval x) (c_stvec x) (c_satp x) (c_tp
    x) (c_time x) (c_stimecmp x).
Definition upd_c_stval (g : Z → Z) (x : csrs) : csrs :=
    mk_csrs (c_sstatus x) (c_sepc x) (c_scause x) (g (c_stval x)) (c_stvec x) (c_satp x) (c_tp
    x) (c_time x) (c_stimecmp x).
Definition upd_c_stvec (g : Z → Z) (x : csrs) : csrs :=
    mk_csrs (c_sstatus x) (c_sepc x) (c_scause x) (c_stval x) (g (c_stvec x)) (c_satp x) (c_tp
    x) (c_time x) (c_stimecmp x).
Definition upd_c_satp (g : Z → Z) (x : csrs) : csrs :=
    mk_csrs (c_sstatus x) (c_sepc x) (c_scause x) (c_stval x) (c_stvec x) (g (c_satp x)) (c_tp
    x) (c_time x) (c_stimecmp x).
Definition upd_c_tp (g : Z → Z) (x : csrs) : csrs :=
    mk_csrs (c_sstatus x) (c_sepc x) (c_scause x) (c_stval x) (c_stvec x) (c_satp x) (g (c_tp
    x)) (c_time x) (c_stimecmp x).
Definition upd_c_time (g : Z → Z) (x : csrs) : csrs :=
    mk_csrs (c_sstatus x) (c_sepc x) (c_scause x) (c_stval x) (c_stvec x) (c_satp x) (c_tp x) (g
    (c_time x)) (c_stimecmp x).
Definition upd_c_stimecmp (g : Z → Z) (x : csrs) : csrs :=
    mk_csrs (c_sstatus x) (c_sepc x) (c_scause x) (c_stval x) (c_stvec x) (c_satp x) (c_tp x)
    (c_time x) (g (c_stimecmp x)).

(** The kernel's globals.  [mem] is physical memory, [freelist] is [kmem.freelist], [curproc] is [mycpu()->proc], [disk] the blocks on the disk and [dwrites] the log of writes sent to it, oldest first, [uart_out] the characters sent to the uart and [uart_in] those received and not read yet, [devsw_console] whether the console's entries of [devsw] are set, [plic] the interrupts pending at the PLIC, [test_dev] the last value written to QEMU's test device, [rtc] the value of the real-time clock, [first] the static variable of [forkret]. *)
Record kstate := mk_kstate {
  mem : memory;
  freelist : Z;
  locks : list lock;
  procs : list proc;
  nextpid : Z;
  initproc : option nat;
  curproc : option nat;
  ticks : Z;
  pipes : gmap Z pipe;
  console : consst;
  uart_out : list Z;
  uart_in : list Z;
  tx_busy : bool;
  devsw_console : bool;
  disk : gmap Z (list Z);
  dwrites : list (Z * list Z);
  bcache : list buf;
  log : logst;
  sb : superblock;
  itable : list inode;
  ftable : list file;
  csr : csrs;
  plic : list Z;
  test_dev : Z;
  rtc : Z;
  first : bool
}.
Definition upd_mem (g : memory → memory) (x : kstate) : kstate :=
    mk_kstate (g (mem x)) (freelist x) (locks x) (procs x) (nextpid x) (initproc x) (curproc x)
    (ticks x) (pipes x) (console x) (uart_out x) (uart_in x) (tx_busy x) (devsw_console x) (disk
    x) (dwrites x) (bcache x) (log x) (sb x) (itable x) (ftable x) (csr x) (plic x) (test_dev x)
    (rtc x) (first x).
Definition upd_freelist (g : Z → Z) (x : kstate) : kstate :=
    mk_kstate (mem x) (g (freelist x)) (locks x) (procs x) (nextpid x) (initproc x) (curproc x)
    (ticks x) (pipes x) (console x) (uart_out x) (uart_in x) (tx_busy x) (devsw_console x) (disk
    x) (dwrites x) (bcache x) (log x) (sb x) (itable x) (ftable x) (csr x) (plic x) (test_dev x)
    (rtc x) (first x).
Definition upd_locks (g : (list lock) → (list lock)) (x : kstate) : kstate :=
    mk_kstate (mem x) (freelist x) (g (locks x)) (procs x) (nextpid x) (initproc x) (curproc x)
    (ticks x) (pipes x) (console x) (uart_out x) (uart_in x) (tx_busy x) (devsw_console x) (disk
    x) (dwrites x) (bcache x) (log x) (sb x) (itable x) (ftable x) (csr x) (plic x) (test_dev x)
    (rtc x) (first x).
Definition upd_procs (g : (list proc) → (list proc)) (x : kstate) : kstate :=
    mk_kstate (mem x) (freelist x) (locks x) (g (procs x)) (nextpid x) (initproc x) (curproc x)
    (ticks x) (pipes x) (console x) (uart_out x) (uart_in x) (tx_busy x) (devsw_console x) (disk
    x) (dwrites x) (bcache x) (log x) (sb x) (itable x) (ftable x) (csr x) (plic x) (test_dev x)
    (rtc x) (first x).
Definition upd_nextpid (g : Z → Z) (x : kstate) : kstate :=
    mk_kstate (mem x) (freelist x) (locks x) (procs x) (g (nextpid x)) (initproc x) (curproc x)
    (ticks x) (pipes x) (console x) (uart_out x) (uart_in x) (tx_busy x) (devsw_console x) (disk
    x) (dwrites x) (bcache x) (log x) (sb x) (itable x) (ftable x) (csr x) (plic x) (test_dev x)
    (rtc x) (first x).
Definition upd_initproc (g : (option nat) → (option nat)) (x : kstate) : kstate :=
    mk_kstate (mem x) (freelist x) (locks x) (procs x) (nextpid x) (g (initproc x)) (curproc x)
    (ticks x) (pipes x) (console x) (uart_out x) (uart_in x) (tx_busy x) (devsw_console x) (disk
    x) (dwrites x) (bcache x) (log x) (sb x) (itable x) (ftable x) (csr x) (plic x) (test_dev x)
    (rtc x) (first x).
Definition upd_curproc (g : (option nat) → (option nat)) (x : kstate) : kstate :=
    mk_kstate (mem x) (freelist x) (locks x) (procs x) (nextpid x) (initproc x) (g (curproc x))
    (ticks x) (pipes x) (console x) (uart_out x) (uart_in x) (tx_busy x) (devsw_console x) (disk
    x) (dwrites x) (bcache x) (log x) (sb x) (itable x) (ftable x) (csr x) (plic x) (test_dev x)
    (rtc x) (first x).
Definition upd_ticks (g : Z → Z) (x : kstate) : kstate :=
    mk_kstate (mem x) (freelist x) (locks x) (procs x) (nextpid x) (initproc x) (curproc x) (g
    (ticks x)) (pipes x) (console x) (uart_out x) (uart_in x) (tx_busy x) (devsw_console x)
    (disk x) (dwrites x) (bcache x) (log x) (sb x) (itable x) (ftable x) (csr x) (plic x)
    (test_dev x) (rtc x) (first x).
Definition upd_pipes (g : (gmap Z pipe) → (gmap Z pipe)) (x : kstate) : kstate :=
    mk_kstate (mem x) (freelist x) (locks x) (procs x) (nextpid x) (initproc x) (curproc x)
    (ticks x) (g (pipes x)) (console x) (uart_out x) (uart_in x) (tx_busy x) (devsw_console x)
    (disk x) (dwrites x) (bcache x) (log x) (sb x) (itable x) (ftable x) (csr x) (plic x)
    (test_dev x) (rtc x) (first x).
Definition upd_console (g : consst → consst) (x : kstate) : kstate :=
    mk_kstate (mem x) (freelist x) (locks x) (procs x) (nextpid x) (initproc x) (curproc x)
    (ticks x) (pipes x) (g (console x)) (uart_out x) (uart_in x) (tx_busy x) (devsw_console x)
    (disk x) (dwrites x) (bcache x) (log x) (sb x) (itable x) (ftable x) (csr x) (plic x)
    (test_dev x) (rtc x) (first x).
Definition upd_uart_out (g : (list Z) → (list Z)) (x : kstate) : kstate :=
    mk_kstate (mem x) (freelist x) (locks x) (procs x) (nextpid x) (initproc x) (curproc x)
    (ticks x) (pipes x) (console x) (g (uart_out x)) (uart_in x) (tx_busy x) (devsw_console x)
    (disk x) (dwrites x) (bcache x) (log x) (sb x) (itable x) (ftable x) (csr x) (plic x)
    (test_dev x) (rtc x) (first x).
Definition upd_uart_in (g : (list Z) → (list Z)) (x : kstate) : kstate :=
    mk_kstate (mem x) (freelist x) (locks x) (procs x) (nextpid x) (initproc x) (curproc x)
    (ticks x) (pipes x) (console x) (uart_out x) (g (uart_in x)) (tx_busy x) (devsw_console x)
    (disk x) (dwrites x) (bcache x) (log x) (sb x) (itable x) (ftable x) (csr x) (plic x)
    (test_dev x) (rtc x) (first x).
Definition upd_tx_busy (g : bool → bool) (x : kstate) : kstate :=
    mk_kstate (mem x) (freelist x) (locks x) (procs x) (nextpid x) (initproc x) (curproc x)
    (ticks x) (pipes x) (console x) (uart_out x) (uart_in x) (g (tx_busy x)) (devsw_console x)
    (disk x) (dwrites x) (bcache x) (log x) (sb x) (itable x) (ftable x) (csr x) (plic x)
    (test_dev x) (rtc x) (first x).
Definition upd_devsw_console (g : bool → bool) (x : kstate) : kstate :=
    mk_kstate (mem x) (freelist x) (locks x) (procs x) (nextpid x) (initproc x) (curproc x)
    (ticks x) (pipes x) (console x) (uart_out x) (uart_in x) (tx_busy x) (g (devsw_console x))
    (disk x) (dwrites x) (bcache x) (log x) (sb x) (itable x) (ftable x) (csr x) (plic x)
    (test_dev x) (rtc x) (first x).
Definition upd_disk (g : (gmap Z (list Z)) → (gmap Z (list Z))) (x : kstate) : kstate :=
    mk_kstate (mem x) (freelist x) (locks x) (procs x) (nextpid x) (initproc x) (curproc x)
    (ticks x) (pipes x) (console x) (uart_out x) (uart_in x) (tx_busy x) (devsw_console x) (g
    (disk x)) (dwrites x) (bcache x) (log x) (sb x) (itable x) (ftable x) (csr x) (plic x)
    (test_dev x) (rtc x) (first x).
Definition upd_dwrites (g : (list (Z * list Z)) → (list (Z * list Z))) (x : kstate) : kstate :=
    mk_kstate (mem x) (freelist x) (locks x) (procs x) (nextpid x) (initproc x) (curproc x)
    (ticks x) (pipes x) (console x) (uart_out x) (uart_in x) (tx_busy x) (devsw_console x) (disk
    x) (g (dwrites x)) (bcache x) (log x) (sb x) (itable x) (ftable x) (csr x) (plic x)
    (test_dev x) (rtc x) (first x).
Definition upd_bcache (g : (list buf) → (list buf)) (x : kstate) : kstate :=
    mk_kstate (mem x) (freelist x) (locks x) (procs x) (nextpid x) (initproc x) (curproc x)
    (ticks x) (pipes x) (console x) (uart_out x) (uart_in x) (tx_busy x) (devsw_console x) (disk
    x) (dwrites x) (g (bcache x)) (log x) (sb x) (itable x) (ftable x) (csr x) (plic x)
    (test_dev x) (rtc x) (first x).
Definition upd_log (g : logst → logst) (x : kstate) : kstate :=
    mk_kstate (mem x) (freelist x) (locks x) (procs x) (nextpid x) (initproc x) (curproc x)
    (ticks x) (pipes x) (console x) (uart_out x) (uart_in x) (tx_busy x) (devsw_console x) (disk
    x) (dwrites x) (bcache x) (g (log x)) (sb x) (itable x) (ftable x) (csr x) (plic x)
    (test_dev x) (rtc x) (first x).
Definition upd_sb (g : superblock → superblock) (x : kstate) : kstate :=
    mk_kstate (mem x) (freelist x) (locks x) (procs x) (nextpid x) (initproc x) (curproc x)
    (ticks x) (pipes x) (console x) (uart_out x) (uart_in x) (tx_busy x) (devsw_console x) (disk
    x) (dwrites x) (bcache x) (log x) (g (sb x)) (itable x) (ftable x) (csr x) (plic x)
    (test_dev x) (rtc x) (first x).
Definition upd_itable (g : (list inode) → (list inode)) (x : kstate) : kstate :=
    mk_kstate (mem x) (freelist x) (locks x) (procs x) (nextpid x) (initproc x) (curproc x)
    (ticks x) (pipes x) (console x) (uart_out x) (uart_in x) (tx_busy x) (devsw_console x) (disk
    x) (dwrites x) (bcache x) (log x) (sb x) (g (itable x)) (ftable x) (csr x) (plic x)
    (test_dev x) (rtc x) (first x).
Definition upd_ftable (g : (list file) → (list file)) (x : kstate) : kstate :=
    mk_kstate (mem x) (freelist x) (locks x) (procs x) (nextpid x) (initproc x) (curproc x)
    (ticks x) (pipes x) (console x) (uart_out x) (uart_in x) (tx_busy x) (devsw_console x) (disk
    x) (dwrites x) (bcache x) (log x) (sb x) (itable x) (g (ftable x)) (csr x) (plic x)
    (test_dev x) (rtc x) (first x).
Definition upd_csr (g : csrs → csrs) (x : kstate) : kstate :=
    mk_kstate (mem x) (freelist x) (locks x) (procs x) (nextpid x) (initproc x) (curproc x)
    (ticks x) (pipes x) (console x) (uart_out x) (uart_in x) (tx_busy x) (devsw_console x) (disk
    x) (dwrites x) (bcache x) (log x) (sb x) (itable x) (ftable x) (g (csr x)) (plic x)
    (test_dev x) (rtc x) (first x).
Definition upd_plic (g : (list Z) → (list Z)) (x : kstate) : kstate :=
    mk_kstate (mem x) (freelist x) (locks x) (procs x) (nextpid x) (initproc x) (curproc x)
    (ticks x) (pipes x) (console x) (uart_out x) (uart_in x) (tx_busy x) (devsw_console x) (disk
    x) (dwrites x) (bcache x) (log x) (sb x) (itable x) (ftable x) (csr x) (g (plic x))
    (test_dev x) (rtc x) (first x).
Definition upd_test_dev (g : Z → Z) (x : kstate) : kstate :=
    mk_kstate (mem x) (freelist x) (locks x) (procs x) (nextpid x) (initproc x) (curproc x)
    (ticks x) (pipes x) (console x) (uart_out x) (uart_in x) (tx_busy x) (devsw_console x) (disk
    x) (dwrites x) (bcache x) (log x) (sb x) (itable x) (ftable x) (csr x) (plic x) (g (test_dev
    x)) (rtc x) (first x).
Definition upd_rtc (g : Z → Z) (x : kstate) : kstate :=
    mk_kstate (mem x) (freelist x) (locks x) (procs x) (nextpid x) (initproc x) (curproc x)
    (ticks x) (pipes x) (console x) (uart_out x) (uart_in x) (tx_busy x) (devsw_console x) (disk
    x) (dwrites x) (bcache x) (log x) (sb x) (itable x) (ftable x) (csr x) (plic x) (test_dev x)
    (g (rtc x)) (first x).
Definition upd_first (g : bool → bool) (x : kstate) : kstate :=
    mk_kstate (mem x) (freelist x) (locks x) (procs x) (nextpid x) (initproc x) (curproc x)
    (ticks x) (pipes x) (console x) (uart_out x) (uart_in x) (tx_busy x) (devsw_console x) (disk
    x) (dwrites x) (bcache x) (log x) (sb x) (itable x) (ftable x) (csr x) (plic x) (test_dev x)
    (rtc x) (g (first x)).

(** The state before the kernel's first instruction: all static data zero. *)
Definition BSIZE : Z := 1024.
Definition NDIRECT : nat := 12.
Definition sleeplock0 : sleeplock := mk_sleeplock false 0.
Definition buf0 : buf :=
  mk_buf false false 0 0 sleeplock0 0 0 0 (replicate (Z.to_nat BSIZE) 0).
Definition inode0 : inode :=
  mk_inode 0 0 0 sleeplock0 false 0 0 0 0 0 (replicate (S NDIRECT) 0).
Definition file0 : file := mk_file FD_NONE 0 false false 0 None 0 0.
Definition MAX_MMAPS : nat := 16.
Definition mmap0 : mmap_region := mk_mmap_region false 0 0.
Definition proc0 : proc :=
  mk_proc 0 UNUSED None 0 0 0 0 0 None 0 0 0 0 0 0 (replicate NOFILE None) None
    (replicate 16 0) 0 0 0 0 (replicate MAX_MMAPS mmap0).
Definition kstate0 : kstate :=
  mk_kstate ∅ 0 [] (replicate NPROC proc0) 1 None None 0 ∅
    (mk_consst (replicate 128 0) 0 0 0) [] [] false false ∅ [] (replicate (S NBUF) buf0)
    (mk_logst 0 0 false 0 0 (replicate (Z.to_nat LOGBLOCKS) 0))
    (mk_superblock 0 0 0 0 0 0 0 0) (replicate NINODE inode0) (replicate NFILE file0)
    (mk_csrs 0 0 0 0 0 0 0 0 0) [] 0 0 true.

(** Assignment to a field, [x <| upd_f := v |>], and update in place,
    [x <| upd_f ::= g |>]. *)
Declare Scope kfield_scope.
Notation "x <| u ::= g |>" := (u g x)
  (at level 1, left associativity, u at level 0, only parsing) : kfield_scope.
Notation "x <| u := v |>" := (u (λ _, v) x)
  (at level 1, left associativity, u at level 0, only parsing) : kfield_scope.
#[global] Open Scope kfield_scope.

(** ** The kernel monad *)

Abbreviation K := (M (option chan) kstate).

Abbreviation put upd v := (modify (upd (λ _, v))) (only parsing).
Abbreviation update upd g := (modify (upd g)) (only parsing).

(** Spinlocks as the running thread sees them: taking a lock it holds or
    dropping one it does not hold is a panic.  (Locks held by other CPUs, and
    the nesting of interrupt disabling, are the subject of Spinlock.v.) *)
Fixpoint drop_lock (l : lock) (L : list lock) : list lock :=
  match L with
  | [] => []
  | l' :: L => if decide (l' = l) then L else l' :: drop_lock l L
  end.
Definition acquire (l : lock) : K () := λ s,
  if decide (l ∈ locks s) then Panic "acquire" else Ok () (s <| upd_locks ::= cons l |>).
Definition release (l : lock) : K () := λ s,
  if decide (l ∈ locks s) then Ok () (s <| upd_locks ::= drop_lock l |>) else Panic "release".

Lemma acquire_ok l s : l ∉ locks s → acquire l s = Ok () (s <| upd_locks ::= cons l |>).
Proof. intros. unfold acquire. by rewrite decide_False. Qed.
Lemma release_head l L s : locks s = l :: L → release l s = Ok () (s <| upd_locks := L |>).
Proof.
  intros H. unfold release. rewrite decide_True by (rewrite H; left).
  destruct s. simpl in *. subst. unfold upd_locks. simpl. by rewrite decide_True.
Qed.

(** ** The memory view of a state

    The page allocator and the page tables only change physical memory, the
    head of the free list and, in between, the locks.  [setk m f L s] is [s]
    with these three; the lemmas below compute with it by rewriting. *)
Definition setk (m : memory) (f : Z) (L : list lock) (s : kstate) : kstate :=
  s <| upd_mem := m |> <| upd_freelist := f |> <| upd_locks := L |>.

Section setk.
Context (m : memory) (f : Z) (L : list lock) (s : kstate).
Lemma setk_eta : s = setk (mem s) (freelist s) (locks s) s.
Proof. by destruct s. Qed.
Lemma mem_setk : mem (setk m f L s) = m.
Proof. done. Qed.
Lemma freelist_setk : freelist (setk m f L s) = f.
Proof. done. Qed.
Lemma locks_setk : locks (setk m f L s) = L.
Proof. done. Qed.
Lemma procs_setk : procs (setk m f L s) = procs s.
Proof. done. Qed.
Lemma curproc_setk : curproc (setk m f L s) = curproc s.
Proof. done. Qed.
Lemma upd_mem_setk g : upd_mem g (setk m f L s) = setk (g m) f L s.
Proof. done. Qed.
Lemma upd_freelist_setk g : upd_freelist g (setk m f L s) = setk m (g f) L s.
Proof. done. Qed.
Lemma upd_locks_setk g : upd_locks g (setk m f L s) = setk m f (g L) s.
Proof. done. Qed.
Lemma setk_setk m' f' L' : setk m f L (setk m' f' L' s) = setk m f L s.
Proof. done. Qed.
End setk.
Create Rewrite HintDb kst.
#[export] Hint Rewrite mem_setk freelist_setk locks_setk procs_setk curproc_setk
  upd_mem_setk upd_freelist_setk upd_locks_setk setk_setk : kst.
#[global] Opaque setk.

Lemma acquire_setk l m f L s :
  l ∉ L → acquire l (setk m f L s) = Ok () (setk m f (l :: L) s).
Proof. intros. rewrite acquire_ok; [by rewrite upd_locks_setk|done]. Qed.
Lemma release_setk l m f L s :
  release l (setk m f (l :: L) s) = Ok () (setk m f L s).
Proof. by erewrite release_head; [rewrite upd_locks_setk|]. Qed.

(** Run the monadic prefix of the goal on a state in [setk] form. *)
Ltac krun := repeat first [progress mrun | progress autorewrite with kst].
