(* ===== verification/Kalloc.v ===== *)
(** * kernel/kalloc.c: the physical page allocator

    The free pages form a linked list through their own first eight bytes;
    [kmem.freelist] points to the first.  [kmem_inv s l] says that the list of
    the state [s] is exactly the pages [l], without repetition.  The theorems
    refine the pointer manipulation to operations on [l]: [kalloc] takes its
    head, [kfree] pushes onto it, [kinit] builds the list of all the pages
    between the end of the kernel and PHYSTOP, [freemem] counts it. *)

From S2P Require Import Prelude Riscv Kstate CString.

(** ** Operations *)

Definition kfree (pa : Z) : K () :=
  if negb (pa mod PGSIZE =? 0) || (PHYSTOP <=? pa) then panic "kfree" else
  update upd_mem (λ m, memset m pa 1 PGSIZE);;
  acquire LKmem;;
  fl ← gets freelist;
  update upd_mem (λ m, store64 m pa fl);;
  put upd_freelist pa;;
  release LKmem.

Fixpoint freerange_loop (fuel : nat) (p pa_end : Z) : K () :=
  match fuel with
  | O => nofuel
  | S fuel =>
      if p + PGSIZE <=? pa_end
      then kfree p;; freerange_loop fuel (p + PGSIZE) pa_end
      else mret ()
  end.
Definition freerange (pa_start pa_end : Z) : K () :=
  let p := PGROUNDUP pa_start in
  freerange_loop (S (Z.to_nat ((pa_end - p) / PGSIZE))) p pa_end.

(** [kend] is the linker's symbol [end], the first address after the kernel. *)
Definition kinit (kend : Z) : K () := freerange kend PHYSTOP.

Fixpoint freemem_loop (fuel : nat) (r pages : Z) : K Z :=
  match fuel with
  | O => nofuel
  | S fuel =>
      if nz r
      then m ← gets mem; freemem_loop fuel (load64 m r) (pages + 1)
      else mret pages
  end.
Definition freemem : K Z :=
  acquire LKmem;;
  r ← gets freelist;
  pages ← freemem_loop (S (Z.to_nat (PHYSTOP / PGSIZE))) r 0;
  release LKmem;;
  mret (u64 (u64 pages * (PGSIZE / 1024))).

Definition kalloc : K Z :=
  acquire LKmem;;
  r ← gets freelist;
  whenM (nz r) (m ← gets mem; put upd_freelist (load64 m r));;
  release LKmem;;
  whenM (nz r) (update upd_mem (λ m, memset m r 5 PGSIZE));;
  mret r.

(** ** The free list *)

(** A physical page the allocator may hold. *)
Definition page_ok (a : Z) : Prop := a mod PGSIZE = 0 ∧ 0 < a < PHYSTOP.

Inductive flist (m : memory) : Z → list Z → Prop :=
| flist_nil : flist m 0 []
| flist_cons a l : flist m (load64 m a) l → flist m a (a :: l).

Record kmem_inv (m : memory) (fl : Z) (l : list Z) : Prop := {
  ki_list : flist m fl l;
  ki_nodup : NoDup l;
  ki_pages : Forall page_ok l;
  ki_bytes : bytes_ok m;
}.

Lemma page_ok_range a : page_ok a → PGSIZE ≤ a ∧ a + PGSIZE ≤ PHYSTOP.
Proof. intros [H1 H2]. unfold PGSIZE, PHYSTOP, KERNBASE in *. zlia. Qed.

Lemma page_ok_sep a b : page_ok a → page_ok b → a ≠ b → a + PGSIZE ≤ b ∨ b + PGSIZE ≤ a.
Proof. intros [H1 _] [H2 _] Hne. unfold PGSIZE in *. zlia. Qed.

Lemma flist_ext m m' h l :
  flist m h l → (∀ a, a ∈ l → load64 m' a = load64 m a) → flist m' h l.
Proof.
  induction 1 as [|a l H IH]; intros E; [constructor|].
  constructor. rewrite E by left. apply IH. intros b Hb. apply E. by right.
Qed.

Lemma flist_head m h l : flist m h l → h = hd 0 l.
Proof. by destruct 1. Qed.

(** The invariant only depends on the free pages themselves: whatever is
    written outside them keeps it. *)
Lemma kmem_inv_mem m m' fl l :
  kmem_inv m fl l → bytes_ok m' →
  (∀ p a, p ∈ l → p ≤ a < p + PGSIZE → rd m' a = rd m a) →
  kmem_inv m' fl l.
Proof.
  intros [H1 H2 H3 H4] Hb E. split; [|exact H2|exact H3|exact Hb].
  eapply flist_ext; [exact H1|]. intros p Hp. apply load64_ext. intros a Ha.
  apply (E p); [done|]. unfold PGSIZE. lia.
Qed.

Lemma kmem_inv_page m fl l p : kmem_inv m fl l → p ∈ l → page_ok p.
Proof. intros H Hp. eapply Forall_forall; [apply H|done]. Qed.

(** ** kalloc *)

Lemma kalloc_none m fl L s :
  kmem_inv m fl [] → LKmem ∉ L → kalloc (setk m fl L s) = Ok 0 (setk m fl L s).
Proof.
  intros [Hf _ _ _] Hl. unfold kalloc. apply flist_head in Hf. cbn in Hf. subst fl.
  erewrite bind_ok by (by apply acquire_setk). krun. cbn [nz negb Z.eqb whenM]. krun.
  erewrite bind_ok by (by apply release_setk). by krun.
Qed.

Lemma kalloc_some m p l fl L s :
  kmem_inv m fl (p :: l) → LKmem ∉ L →
  kalloc (setk m fl L s) = Ok p (setk (memset m p 5 PGSIZE) (hd 0 l) L s) ∧
  kmem_inv (memset m p 5 PGSIZE) (hd 0 l) l.
Proof.
  intros [Hf Hnd Hp Hb] Hl. inversion Hf as [|? ? Hf' Ha]; subst.
  apply NoDup_cons in Hnd as [Hnin Hnd]. apply Forall_cons in Hp as [Hp Hps].
  rewrite <- (flist_head _ _ _ Hf'). split.
  - unfold kalloc. erewrite bind_ok by (by apply acquire_setk). krun.
    rewrite (proj2 (nz_true p)) by (destruct Hp; lia). cbn [whenM]. krun.
    erewrite bind_ok by (by apply release_setk). by krun.
  - split; [|exact Hnd|exact Hps|apply bytes_ok_memset; exact Hb].
    eapply flist_ext; [exact Hf'|]. intros a Ha. apply load64_memset_out.
    assert (page_ok a) by (eapply Forall_forall in Hps; eauto).
    destruct (page_ok_sep a p) as [|]; [done..|by intros ->| |]; unfold PGSIZE in *; lia.
Qed.

(** ** kfree *)

Definition freed_mem (m : memory) (p fl : Z) : memory := store64 (memset m p 1 PGSIZE) p fl.

Lemma freed_mem_out m p fl x :
  ¬ (p ≤ x < p + PGSIZE) → rd (freed_mem m p fl) x = rd m x.
Proof.
  intros Hx. unfold freed_mem, PGSIZE in *. rewrite rd_store64_out, rd_memset_out by lia. done.
Qed.

Lemma kfree_ok m p l fl L s :
  kmem_inv m fl l → LKmem ∉ L → page_ok p → p ∉ l →
  kfree p (setk m fl L s) = Ok () (setk (freed_mem m p fl) p L s) ∧
  kmem_inv (freed_mem m p fl) p (p :: l).
Proof.
  intros [Hf Hnd Hps Hb] Hl Hp Hnin. split.
  - unfold kfree. destruct Hp as [Hp1 Hp2]. rewrite Hp1, (proj2 (Z.leb_gt _ _)) by lia.
    cbn [negb orb Z.eqb]. krun. erewrite bind_ok by (by apply acquire_setk). krun.
    by rewrite release_setk.
  - assert (0 ≤ fl < 2 ^ 64) as Hr.
    { apply flist_head in Hf as ->. destruct Hps as [|q l' [? ?] _]; cbn [hd];
        unfold PHYSTOP, KERNBASE in *; lia. }
    unfold freed_mem. split; [|by apply NoDup_cons|by apply Forall_cons|auto with cint].
    constructor. rewrite load64_store64_eq by done. eapply flist_ext; [exact Hf|].
    intros a Ha. assert (page_ok a) by (eapply Forall_forall in Hps; eauto).
    assert (a + PGSIZE ≤ p ∨ p + PGSIZE ≤ a) as Hsep
      by (apply page_ok_sep; [done..|by intros ->]).
    rewrite load64_store64_ne, load64_memset_out; unfold PGSIZE in *; done || lia.
Qed.

Lemma kfree_panics s p :
  p mod PGSIZE ≠ 0 ∨ PHYSTOP ≤ p → kfree p s = Panic "kfree".
Proof.
  intros H. unfold kfree. replace (_ || _) with true; [done|].
  symmetry. apply orb_true_iff. destruct H; [left|right].
  - by apply negb_true_iff, Z.eqb_neq.
  - by apply Z.leb_le.
Qed.

(** ** kinit *)

Lemma freerange_loop_ok fuel p pa_end m fl l L s :
  kmem_inv m fl l → LKmem ∉ L → p mod PGSIZE = 0 → 0 < p → pa_end ≤ PHYSTOP →
  (∀ q, q ∈ l → q < p) → (Z.to_nat ((pa_end - p) / PGSIZE) < fuel)%nat →
  ∃ m' l', freerange_loop fuel p pa_end (setk m fl L s) = Ok () (setk m' (hd 0 l') L s) ∧
    kmem_inv m' (hd 0 l') l' ∧
    (∀ q, q ∈ l' ↔ q ∈ l ∨ (q mod PGSIZE = 0 ∧ p ≤ q ∧ q + PGSIZE ≤ pa_end)).
Proof.
  revert p m fl l. induction fuel as [|fuel IH]; intros p m fl l Hi Hl Hal Hp He Hq Hfuel.
  { lia. }
  cbn [freerange_loop]. destruct (p + PGSIZE <=? pa_end) eqn:E; zbool.
  - assert (page_ok p) as Hpo by (split; [done|unfold PGSIZE in *; lia]).
    destruct (kfree_ok m p l fl L s) as [Hk Hi']; [done..|intros Hin; specialize (Hq p Hin); lia|].
    destruct (IH (p + PGSIZE) (freed_mem m p fl) p (p :: l)) as (m' & l' & H1 & H2 & H3);
      [done|done|unfold PGSIZE in *; zlia|unfold PGSIZE; lia|done| |unfold PGSIZE in *; zlia|].
    { intros q [->|Hin]%elem_of_cons; [unfold PGSIZE; lia|].
      specialize (Hq q Hin). unfold PGSIZE. lia. }
    exists m', l'. rewrite (bind_ok _ _ _ _ _ Hk). split; [done|]. split; [done|].
    intros q. rewrite H3, elem_of_cons. split; [|unfold PGSIZE in *].
    + unfold PGSIZE in *. intros [[->|?]|?]; [right|left|right]; split_and?; done || lia.
    + intros [?|(?&?&?)]; [by left; right|]. destruct (decide (q = p)); [left; by left|].
      right. split_and!; [done|zlia|done].
  - exists m, l. rewrite <- (flist_head m fl l) by apply Hi. split; [done|]. split; [done|].
    intros q. split; [by left|]. intros [?|(?&?&?)]; [done|]. unfold PGSIZE in *. lia.
Qed.

(** Two free lists of the allocator can be compared as sets of pages: the
    pages [kinit] should find. *)
Definition ram_pages (kend : Z) (p : Z) : Prop :=
  p mod PGSIZE = 0 ∧ kend ≤ p ∧ p + PGSIZE ≤ PHYSTOP.

(** [kinit] puts on the free list exactly the page-aligned pages that lie
    wholly between the end of the kernel and PHYSTOP, each once, whatever the
    contents of memory. *)
Theorem kinit_free_pages m kend L s :
  0 < kend ≤ PHYSTOP → bytes_ok m → LKmem ∉ L →
  ∃ m' l, kinit kend (setk m 0 L s) = Ok () (setk m' (hd 0 l) L s) ∧
    kmem_inv m' (hd 0 l) l ∧ ∀ p, p ∈ l ↔ ram_pages kend p.
Proof.
  intros Hk Hb Hl. unfold kinit, freerange.
  destruct (PGROUND_spec kend) as (_ & Hal & _ & Hup);
    [unfold PHYSTOP, KERNBASE, PGSIZE in *; lia|].
  destruct (freerange_loop_ok (S (Z.to_nat ((PHYSTOP - PGROUNDUP kend) / PGSIZE)))
              (PGROUNDUP kend) PHYSTOP m 0 [] L s) as (m' & l & H1 & H2 & H3);
    [|done|done|lia|done|by intros ? ?%not_elem_of_nil| |].
  { split; [constructor|constructor|constructor|done]. }
  { unfold PGSIZE in *. zlia. }
  exists m', l. split; [exact H1|]. split; [done|].
  intros p. rewrite H3. unfold ram_pages, PGSIZE in *.
  split; [intros [[]%not_elem_of_nil|?]; split_and!; try tauto; lia|].
  intros (?&?&?). right. split_and!; [done|zlia|done].
Qed.

Lemma kinit_free_pages_witness :
  ∃ m' l, kinit 0x87ffd123 (setk ∅ 0 [] kstate0) =
          Ok () (setk m' (hd 0 l) [] kstate0) ∧
    kmem_inv m' (hd 0 l) l ∧ ∀ p, p ∈ l ↔ ram_pages 0x87ffd123 p.
Proof.
  apply kinit_free_pages; [unfold PHYSTOP, KERNBASE; lia| |apply not_elem_of_nil].
  intros a. unfold rd. rewrite lookup_empty. cbn. lia.
Defined.

(** ** freemem *)

Lemma freemem_loop_ok fuel m r l pages fl L s :
  flist m r l → Forall page_ok l → (length l < fuel)%nat →
  freemem_loop fuel r pages (setk m fl L s) = Ok (pages + Z.of_nat (length l)) (setk m fl L s).
Proof.
  intros H. revert fuel pages. induction H as [|a l H IH]; intros [|fuel] pages Hp Hf;
    cbn [length] in *; try lia; cbn [freemem_loop].
  { by rewrite Z.add_0_r. }
  apply Forall_cons in Hp as [[? ?] Hps]. rewrite (proj2 (nz_true a)) by lia. krun.
  rewrite IH by (done || lia). f_equal. lia.
Qed.

Lemma pages_bound l :
  NoDup l → Forall page_ok l → Z.of_nat (length l) ≤ PHYSTOP / PGSIZE.
Proof.
  intros Hnd Hp. set (N := Z.to_nat (PHYSTOP / PGSIZE)).
  assert (PHYSTOP / PGSIZE = Z.of_nat N) as -> by (unfold N; rewrite Z2Nat.id; done).
  apply inj_le. rewrite <- (length_seq N 0), <- (length_fmap (λ a, Z.to_nat (a / PGSIZE)) l).
  apply NoDup_incl_length.
  - apply NoDup_ListNoDup. apply NoDup_fmap_2_strong; [|done].
    intros x y Hx Hy E. rewrite Forall_forall in Hp.
    destruct (Hp x Hx) as [? ?], (Hp y Hy) as [? ?]. unfold PGSIZE in *. zlia.
  - intros k Hk. apply list_elem_of_In, list_elem_of_fmap in Hk as (a & -> & Ha).
    rewrite Forall_forall in Hp. destruct (Hp a Ha) as [? ?].
    apply in_seq. assert (Z.of_nat N = PHYSTOP / PGSIZE) by (unfold N; rewrite Z2Nat.id; done).
    clearbody N. unfold PGSIZE, PHYSTOP, KERNBASE in *. zlia.
Qed.

(** [freemem] terminates on every well-formed free list and returns the
    free memory in KiB, four times the number of free pages, changing nothing. *)
Theorem freemem_counts m fl l L s :
  kmem_inv m fl l → LKmem ∉ L →
  freemem (setk m fl L s) = Ok (4 * Z.of_nat (length l)) (setk m fl L s).
Proof.
  intros [Hf Hnd Hp Hb] Hl. unfold freemem.
  pose proof (pages_bound l Hnd Hp) as Hlen.
  erewrite bind_ok by (by apply acquire_setk). krun.
  erewrite bind_ok; [|apply freemem_loop_ok; [done..|lia]].
  erewrite bind_ok by (by apply release_setk).
  unfold mret, M_ret. f_equal. unfold PHYSTOP, KERNBASE, PGSIZE in *.
  change (4096 / 1024) with 4. change ((_ + _) / 4096) with 557056 in Hlen.
  rewrite (u64_small (0 + _)), u64_small; lia.
Qed.

Lemma freemem_counts_witness :
  freemem (setk (store64 ∅ 0x87ffe000 0) 0x87ffe000 [] kstate0) =
  Ok 4 (setk (store64 ∅ 0x87ffe000 0) 0x87ffe000 [] kstate0).
Proof.
  apply (freemem_counts _ _ [0x87ffe000]); [|apply not_elem_of_nil]. split.
  - constructor. rewrite load64_store64_eq by lia. constructor.
  - apply NoDup_singleton.
  - constructor; [|constructor]. split; [done|unfold PHYSTOP, KERNBASE; lia].
  - apply bytes_ok_store64. intros a. unfold rd. rewrite lookup_empty. cbn. lia.
Defined.

(** ** The allocator as a pool of pages

    What [kalloc] and [kfree] promise their callers, stated on the list of
    free pages alone. *)

(** [kalloc] refines taking the head of the pool: with no free page it
    returns 0 and changes nothing; otherwise it returns the page at the head,
    filled with 5s, and the pool is left with the rest. *)
Theorem kalloc_refines_pool m fl l L s :
  kmem_inv m fl l → LKmem ∉ L →
  ∃ m', kalloc (setk m fl L s) = Ok (hd 0 l) (setk m' (hd 0 (tl l)) L s) ∧
    kmem_inv m' (hd 0 (tl l)) (tl l) ∧
    (∀ a, rd m' a = if bool_decide (l ≠ [] ∧ hd 0 l ≤ a < hd 0 l + PGSIZE) then 5 else rd m a).
Proof.
  intros Hi Hl. destruct l as [|p l]; cbn [hd tl].
  - exists m. rewrite kalloc_none by done. pose proof (flist_head _ _ _ (ki_list _ _ _ Hi)).
    cbn in *. subst fl. by split_and!.
  - destruct (kalloc_some m p l fl L s Hi Hl) as [H1 H2].
    exists (memset m p 5 PGSIZE). split_and!; [done..|]. intros a. rewrite rd_memset.
    case_bool_decide as Hd; destruct (_ && _) eqn:E; zbool; try done;
      [destruct Hd; lia..|destruct Hd; split; done || lia].
Qed.

Lemma kalloc_refines_pool_witness :
  ∃ m', kalloc (setk (store64 ∅ 0x87ffe000 0) 0x87ffe000 [] kstate0) =
        Ok 0x87ffe000 (setk m' 0 [] kstate0) ∧
    kmem_inv m' 0 [] ∧
    (∀ a, rd m' a = if bool_decide ([0x87ffe000] ≠ [] ∧ 0x87ffe000 ≤ a < 0x87ffe000 + PGSIZE)
                    then 5 else rd (store64 ∅ 0x87ffe000 0) a).
Proof.
  apply (kalloc_refines_pool _ _ [0x87ffe000]); [|apply not_elem_of_nil]. split.
  - constructor. rewrite load64_store64_eq by lia. constructor.
  - apply NoDup_singleton.
  - constructor; [|constructor]. split; [done|unfold PHYSTOP, KERNBASE; lia].
  - apply bytes_ok_store64. intros a. unfold rd. rewrite lookup_empty. cbn. lia.
Defined.
