(* ===== verification/Vm.v ===== *)
(** * kernel/vm.c: page tables and user memory (definitions)

    The operations of kernel/vm.c over physical memory: page-table pages are
    arrays of 512 little-endian PTEs in [mem], obtained from [kalloc].  A
    [pte_t *] is the address of the entry.  A buffer in kernel memory that a
    copy routine reads is the list of its bytes; one it fills is returned as
    the bytes written so far, beside the C return code.

    Loops take fuel: [mappages] one unit a page, [uvmunmap] one a page, the
    copy routines one a page touched, [freewalk] one a level (3 in a Sv39 table). *)

From S2P Require Import Prelude Riscv Kstate CString Kalloc.

(** [mycpu()->proc], dereferenced: a NULL dereference traps into
    [kerneltrap], which panics. *)
Definition myproc : K nat :=
  c ← gets curproc; match c with Some i => mret i | None => panic "kerneltrap" end.
Definition getproc (i : nat) : K proc :=
  ps ← gets procs; match ps !! i with Some p => mret p | None => panic "kerneltrap" end.

(** Load and store of a PTE through a [pte_t *]. *)
Definition ld_pte (pte : Z) : K Z := gets (λ s, load64 (mem s) pte).
Definition st_pte (pte v : Z) : K () := update upd_mem (λ m, store64 m pte v).

(** ** walk *)

Fixpoint walk_loop (level : nat) (pagetable va : Z) (alloc : bool) : K Z :=
  match level with
  | O => mret (pagetable + 8 * PX 0 va)
  | S level' =>
      let pte := pagetable + 8 * PX (Z.of_nat level) va in
      v ← ld_pte pte;
      if nz (Z.land v PTE_V) then walk_loop level' (PTE2PA v) va alloc
      else if negb alloc then mret 0
      else
        pg ← kalloc;
        if pg =? 0 then mret 0
        else
          update upd_mem (λ m, memset m pg 0 PGSIZE);;
          st_pte pte (Z.lor (PA2PTE pg) PTE_V);;
          walk_loop level' pg va alloc
  end.
Definition walk (pagetable va : Z) (alloc : bool) : K Z :=
  if MAXVA <=? va then panic "walk" else walk_loop 2 pagetable va alloc.

Definition walkaddr (pagetable va : Z) : K Z :=
  if MAXVA <=? va then mret 0 else
  pte ← walk pagetable va false;
  if pte =? 0 then mret 0 else
  v ← ld_pte pte;
  if Z.land v PTE_V =? 0 then mret 0 else
  if Z.land v PTE_U =? 0 then mret 0 else
  mret (PTE2PA v).

(** ** mappages *)

Fixpoint mappages_loop (fuel : nat) (pagetable a last pa perm : Z) : K Z :=
  match fuel with
  | O => nofuel
  | S fuel =>
      pte ← walk pagetable a true;
      if pte =? 0 then mret (-1) else
      v ← ld_pte pte;
      if nz (Z.land v PTE_V) then panic "mappages: remap" else
      st_pte pte (Z.lor (Z.lor (PA2PTE pa) perm) PTE_V);;
      if a =? last then mret 0
      else mappages_loop fuel pagetable (u64 (a + PGSIZE)) last (u64 (pa + PGSIZE)) perm
  end.
Definition mappages (pagetable va size pa perm : Z) : K Z :=
  if negb (va mod PGSIZE =? 0) then panic "mappages: va not aligned" else
  if negb (size mod PGSIZE =? 0) then panic "mappages: size not aligned" else
  if size =? 0 then panic "mappages: size" else
  mappages_loop (Z.to_nat (size / PGSIZE)) pagetable va (u64 (va + size - PGSIZE)) pa perm.

Definition kvmmap (kpgtbl va pa sz perm : Z) : K () :=
  r ← mappages kpgtbl va sz pa perm;
  if negb (r =? 0) then panic "kvmmap" else mret ().

(** ** User address spaces *)

Definition uvmcreate : K Z :=
  pagetable ← kalloc;
  if pagetable =? 0 then mret 0 else
  update upd_mem (λ m, memset m pagetable 0 PGSIZE);;
  mret pagetable.

(** The body of [uvmunmap]'s loop; [continue] is its early return. *)
Definition unmap_body (do_free : bool) (pagetable a : Z) : K () :=
  pte ← walk pagetable a false;
  if pte =? 0 then mret () else
  v ← ld_pte pte;
  if Z.land v PTE_V =? 0 then mret () else
  whenM do_free (kfree (PTE2PA v));;
  st_pte pte 0.
Fixpoint uvmunmap_loop (fuel : nat) (pagetable a aend : Z) (do_free : bool) : K () :=
  match fuel with
  | O => nofuel
  | S fuel =>
      if a <? aend then
        unmap_body do_free pagetable a;;
        uvmunmap_loop fuel pagetable (u64 (a + PGSIZE)) aend do_free
      else mret ()
  end.
Definition uvmunmap (pagetable va npages : Z) (do_free : bool) : K () :=
  if negb (va mod PGSIZE =? 0) then panic "uvmunmap: not aligned" else
  uvmunmap_loop (S (Z.to_nat npages)) pagetable va (u64 (va + u64 (npages * PGSIZE))) do_free.

Definition uvmdealloc (pagetable oldsz newsz : Z) : K Z :=
  if oldsz <=? newsz then mret oldsz else
  whenM (PGROUNDUP newsz <? PGROUNDUP oldsz)
    (let npages := s32 (u64 (PGROUNDUP oldsz - PGROUNDUP newsz) / PGSIZE) in
     uvmunmap pagetable (PGROUNDUP newsz) (u64 npages) true);;
  mret newsz.

Fixpoint uvmalloc_loop (fuel : nat) (pagetable a oldsz newsz xperm : Z) : K Z :=
  match fuel with
  | O => nofuel
  | S fuel =>
      if a <? newsz then
        mem' ← kalloc;
        if mem' =? 0 then uvmdealloc pagetable a oldsz;; mret 0
        else
          update upd_mem (λ m, memset m mem' 0 PGSIZE);;
          r ← mappages pagetable a PGSIZE mem' (Z.lor (Z.lor PTE_R PTE_U) xperm);
          if negb (r =? 0) then kfree mem';; uvmdealloc pagetable a oldsz;; mret 0
          else uvmalloc_loop fuel pagetable (u64 (a + PGSIZE)) oldsz newsz xperm
      else mret newsz
  end.
Definition uvmalloc (pagetable oldsz newsz xperm : Z) : K Z :=
  if newsz <? oldsz then mret oldsz else
  let oldsz := PGROUNDUP oldsz in
  uvmalloc_loop (S (Z.to_nat ((newsz - oldsz + PGSIZE - 1) / PGSIZE)))
    pagetable oldsz oldsz newsz xperm.

(** [freewalk_at n] scans entries [512 - n ..] of a page-table page;
    [freewalk fuel] visits tables of at most [fuel] levels. *)
Fixpoint freewalk_at (rec : Z → K ()) (n : nat) (pagetable : Z) : K () :=
  match n with
  | O => kfree pagetable
  | S n =>
      let slot := pagetable + 8 * (512 - Z.of_nat (S n)) in
      pte ← ld_pte slot;
      (if nz (Z.land pte PTE_V) && (Z.land pte (Z.lor (Z.lor PTE_R PTE_W) PTE_X) =? 0) then
         rec (PTE2PA pte);; st_pte slot 0
       else if nz (Z.land pte PTE_V) then panic "freewalk: leaf"
       else mret ());;
      freewalk_at rec n pagetable
  end.
Fixpoint freewalk (fuel : nat) (pagetable : Z) : K () :=
  match fuel with
  | O => nofuel
  | S fuel => freewalk_at (freewalk fuel) 512 pagetable
  end.

Definition uvmfree (pagetable sz : Z) : K () :=
  whenM (0 <? sz) (uvmunmap pagetable 0 (PGROUNDUP sz / PGSIZE) true);;
  freewalk 3 pagetable.

Fixpoint uvmcopy_loop (fuel : nat) (old new sz i : Z) : K Z :=
  match fuel with
  | O => nofuel
  | S fuel =>
      if i <? sz then
        pte ← walk old i false;
        if pte =? 0 then uvmcopy_loop fuel old new sz (u64 (i + PGSIZE)) else
        v ← ld_pte pte;
        if Z.land v PTE_V =? 0 then uvmcopy_loop fuel old new sz (u64 (i + PGSIZE)) else
        let pa := PTE2PA v in
        let flags := PTE_FLAGS v in
        mem' ← kalloc;
        if mem' =? 0 then uvmunmap new 0 (i / PGSIZE) true;; mret (-1)
        else
          update upd_mem (λ m, memmove m mem' pa PGSIZE);;
          r ← mappages new i PGSIZE mem' flags;
          if negb (r =? 0) then kfree mem';; uvmunmap new 0 (i / PGSIZE) true;; mret (-1)
          else uvmcopy_loop fuel old new sz (u64 (i + PGSIZE))
      else mret 0
  end.
Definition uvmcopy (old new sz : Z) : K Z :=
  uvmcopy_loop (S (Z.to_nat ((sz + PGSIZE - 1) / PGSIZE))) old new sz 0.

Definition uvmclear (pagetable va : Z) : K () :=
  pte ← walk pagetable va false;
  if pte =? 0 then panic "uvmclear" else
  v ← ld_pte pte;
  st_pte pte (Z.land v (Z.lnot PTE_U)).

Definition ismapped (pagetable va : Z) : K bool :=
  pte ← walk pagetable va false;
  if pte =? 0 then mret false else
  v ← ld_pte pte;
  mret (nz (Z.land v PTE_V)).

(** The parameter [read] of the C function is unused there too. *)
Definition vmfault (pagetable va : Z) (read : bool) : K Z :=
  i ← myproc;
  p ← getproc i;
  if pr_sz p <=? va then mret 0 else
  let va := PGROUNDDOWN va in
  b ← ismapped pagetable va;
  if (b : bool) then mret 0 else
  mem' ← kalloc;
  if mem' =? 0 then mret 0 else
  update upd_mem (λ m, memset m mem' 0 PGSIZE);;
  r ← mappages (pr_pagetable p) va PGSIZE mem' (Z.lor (Z.lor PTE_W PTE_U) PTE_R);
  if negb (r =? 0) then kfree mem';; mret 0 else
  mret mem'.

(** ** Copying between user and kernel memory *)

Fixpoint wr_list (m : memory) (a : Z) (l : list Z) : memory :=
  match l with
  | [] => m
  | c :: l => wr_list (wr m a c) (a + 1) l
  end.
Fixpoint rd_list (n : nat) (m : memory) (a : Z) : list Z :=
  match n with
  | O => []
  | S n => rd m a :: rd_list n m (a + 1)
  end.

(** Fuel for [len] bytes: the pages they can touch, plus one. *)
Definition copy_fuel (len : Z) : nat := S (S (S (Z.to_nat (len / PGSIZE)))).

Fixpoint copyout_loop (fuel : nat) (pagetable dstva : Z) (src : list Z) : K Z :=
  match fuel with
  | O => nofuel
  | S fuel =>
      let len := Z.of_nat (length src) in
      if len =? 0 then mret 0 else
      let va0 := PGROUNDDOWN dstva in
      if MAXVA <=? va0 then mret (-1) else
      pa0 ← walkaddr pagetable va0;
      pa0 ← (if pa0 =? 0 then vmfault pagetable va0 false else mret pa0);
      if pa0 =? 0 then mret (-1) else
      pte ← walk pagetable va0 false;
      v ← ld_pte pte;
      if Z.land v PTE_W =? 0 then mret (-1) else
      let n := Z.min (PGSIZE - (dstva - va0)) len in
      update upd_mem (λ m, wr_list m (pa0 + (dstva - va0)) (take (Z.to_nat n) src));;
      copyout_loop fuel pagetable (u64 (va0 + PGSIZE)) (drop (Z.to_nat n) src)
  end.
Definition copyout (pagetable dstva : Z) (src : list Z) : K Z :=
  copyout_loop (copy_fuel (Z.of_nat (length src))) pagetable dstva src.

Fixpoint copyin_loop (fuel : nat) (pagetable srcva len : Z) : K (Z * list Z) :=
  match fuel with
  | O => nofuel
  | S fuel =>
      if len =? 0 then mret (0, []) else
      let va0 := PGROUNDDOWN srcva in
      pa0 ← walkaddr pagetable va0;
      pa0 ← (if pa0 =? 0 then vmfault pagetable va0 false else mret pa0);
      if pa0 =? 0 then mret (-1, []) else
      let n := Z.min (PGSIZE - (srcva - va0)) len in
      bytes ← gets (λ s, rd_list (Z.to_nat n) (mem s) (pa0 + (srcva - va0)));
      r ← copyin_loop fuel pagetable (u64 (va0 + PGSIZE)) (len - n);
      mret (r.1, bytes ++ r.2)
  end.
Definition copyin (pagetable srcva len : Z) : K (Z * list Z) :=
  copyin_loop (copy_fuel len) pagetable srcva len.

(** The inner loop of [copyinstr] over one page: the bytes stored, and whether
    a NUL was met. *)
Fixpoint copyinstr_page (n : nat) (m : memory) (p : Z) : bool * list Z :=
  match n with
  | O => (false, [])
  | S n =>
      let c := rd m p in
      if c =? 0 then (true, [0])
      else let r := copyinstr_page n m (p + 1) in (r.1, c :: r.2)
  end.
Fixpoint copyinstr_loop (fuel : nat) (pagetable srcva max : Z) : K (Z * list Z) :=
  match fuel with
  | O => nofuel
  | S fuel =>
      if max =? 0 then mret (-1, []) else
      let va0 := PGROUNDDOWN srcva in
      pa0 ← walkaddr pagetable va0;
      if pa0 =? 0 then mret (-1, []) else
      let n := Z.min (PGSIZE - (srcva - va0)) max in
      r ← gets (λ s, copyinstr_page (Z.to_nat n) (mem s) (pa0 + (srcva - va0)));
      if (r.1 : bool) then mret (0, r.2) else
      r' ← copyinstr_loop fuel pagetable (u64 (va0 + PGSIZE)) (max - n);
      mret (r'.1, r.2 ++ r'.2)
  end.
Definition copyinstr (pagetable srcva max : Z) : K (Z * list Z) :=
  copyinstr_loop (copy_fuel max) pagetable srcva max.

(** ** The kernel's own page table

    [etext] and [trampoline] are the linker's symbols. *)

Fixpoint proc_mapstacks_loop (n : nat) (i kpgtbl : Z) : K () :=
  match n with
  | O => mret ()
  | S n =>
      pa ← kalloc;
      if pa =? 0 then panic "kalloc" else
      kvmmap kpgtbl (KSTACK i) pa PGSIZE (Z.lor PTE_R PTE_W);;
      proc_mapstacks_loop n (i + 1) kpgtbl
  end.
Definition proc_mapstacks (kpgtbl : Z) : K () := proc_mapstacks_loop NPROC 0 kpgtbl.

Definition kvmmake (etext trampoline : Z) : K Z :=
  kpgtbl ← kalloc;
  update upd_mem (λ m, memset m kpgtbl 0 PGSIZE);;
  kvmmap kpgtbl UART0 UART0 PGSIZE (Z.lor PTE_R PTE_W);;
  kvmmap kpgtbl VIRTIO0 VIRTIO0 PGSIZE (Z.lor PTE_R PTE_W);;
  kvmmap kpgtbl PLIC PLIC 0x4000000 (Z.lor PTE_R PTE_W);;
  kvmmap kpgtbl KERNBASE KERNBASE (etext - KERNBASE) (Z.lor PTE_R PTE_X);;
  kvmmap kpgtbl etext etext (PHYSTOP - etext) (Z.lor PTE_R PTE_W);;
  kvmmap kpgtbl TRAMPOLINE trampoline PGSIZE (Z.lor PTE_R PTE_X);;
  kvmmap kpgtbl VIRT_TEST VIRT_TEST PGSIZE (Z.lor PTE_R PTE_W);;
  kvmmap kpgtbl VIRT_RTC VIRT_RTC PGSIZE PTE_R;;
  proc_mapstacks kpgtbl;;
  mret kpgtbl.
