(* ===== verification/VmProps.v ===== *)
(** * kernel/vm.c: the page-table invariant and what the operations do to it

    A page table is seen as a tree: [node m root p] is the page-table page
    reached from [root] by following the indices [p].  The invariant [vm_inv]
    says that no page-table page is reached by two paths, that they are pages
    of RAM, that the entries above the leaves are pointers without permissions,
    that the half of the root for addresses above MAXVA is empty, and that no page-table page is on the free list.  [xlate m root va] is
    the valid leaf PTE of [va], if any: the partial map from virtual pages to
    PTEs that a page table implements.  The theorems show that [walk],
    [mappages], [walkaddr] and [uvmunmap] implement lookup, insertion and
    deletion on that map and keep the invariant. *)

From S2P Require Import Prelude Riscv Kstate CString Kalloc Vm.

(** ** Trees of page-table pages *)

Definition valid (v : Z) : bool := nz (Z.land v PTE_V).

Fixpoint node (m : memory) (pt : Z) (p : list Z) : option Z :=
  match p with
  | [] => Some pt
  | i :: p =>
      let v := load64 m (pt + 8 * i) in
      if valid v then node m (PTE2PA v) p else None
  end.

Definition idx_ok (i : Z) : Prop := 0 ≤ i < 512.
Definition path_ok (p : list Z) : Prop := (length p ≤ 2)%nat ∧ Forall idx_ok p.

(** The indices [walk] still follows at a level; all of them for level 2. *)
Fixpoint walk_path (level : nat) (va : Z) : list Z :=
  match level with
  | O => []
  | S level' => PX (Z.of_nat level) va :: walk_path level' va
  end.

Definition leaf_slot (m : memory) (root va : Z) : option Z :=
  (λ a, a + 8 * PX 0 va) <$> node m root (walk_path 2 va).
Definition xlate (m : memory) (root va : Z) : option Z :=
  slot ← leaf_slot m root va;
  if valid (load64 m slot) then Some (load64 m slot) else None.

Record pt_wf (m : memory) (root : Z) : Prop := {
  pw_inj p q a : path_ok p → path_ok q →
    node m root p = Some a → node m root q = Some a → p = q;
  pw_page p a : path_ok p → node m root p = Some a → page_ok a;
  pw_dir p a i : path_ok p → (length p < 2)%nat → idx_ok i → node m root p = Some a →
    valid (load64 m (a + 8 * i)) = true →
    Z.land (load64 m (a + 8 * i)) (Z.lor (Z.lor PTE_R PTE_W) PTE_X) = 0;
  pw_high i : 256 ≤ i < 512 → valid (load64 m (root + 8 * i)) = false;
}.

Record vm_inv (m : memory) (fl : Z) (l : list Z) (root : Z) : Prop := {
  vi_kmem : kmem_inv m fl l;
  vi_pt : pt_wf m root;
  vi_free p a : path_ok p → node m root p = Some a → a ∉ l;
}.

(** [b] is not a page-table page of [root]. *)
Definition not_table (m : memory) (root b : Z) : Prop :=
  ∀ p, path_ok p → node m root p ≠ Some b.

(** [m'] agrees with [m] on the page-table pages of [root]. *)
Definition tables_eq (m m' : memory) (root : Z) : Prop :=
  ∀ p a x, path_ok p → node m root p = Some a → a ≤ x < a + PGSIZE → rd m' x = rd m x.

(** ** Generic lemmas *)

Lemma node_app m root p q : node m root (p ++ q) = node m root p ≫= λ a, node m a q.
Proof.
  revert root. induction p as [|i p IH]; intros root; [done|]. simpl.
  case_match; [apply IH|done].
Qed.

Lemma path_ok_prefix p q : p `prefix_of` q → path_ok q → path_ok p.
Proof.
  intros [k ->] [H1 H2]. rewrite length_app in H1. apply Forall_app in H2 as [? _].
  split; [lia|done].
Qed.

Lemma path_ok_snoc p i : (length p < 2)%nat → Forall idx_ok p → idx_ok i → path_ok (p ++ [i]).
Proof.
  intros. split; [rewrite length_app; simpl; lia|]. apply Forall_app; auto.
Qed.

Lemma walk_path_ok level va : Forall idx_ok (walk_path level va).
Proof. induction level; constructor; [apply PX_range; lia|done]. Qed.

Lemma walk_path_length level va : length (walk_path level va) = level.
Proof. induction level; simpl; lia. Qed.

Lemma walk_path2_ok va : path_ok (walk_path 2 va).
Proof. split; [rewrite walk_path_length; lia|apply walk_path_ok]. Qed.

(** A node is determined by the entries on the way to it. *)
Lemma node_ext m m' q root :
  (∀ r j b, r ++ [j] `prefix_of` q → node m root r = Some b →
     load64 m' (b + 8 * j) = load64 m (b + 8 * j)) →
  node m' root q = node m root q.
Proof.
  revert root. induction q as [|i q IH]; intros root H; [done|]. simpl.
  rewrite (H [] i root) by (done || by exists q).
  case_match eqn:E; [|done]. apply IH. intros r j b Hp Hn. apply (H (i :: r)).
  - by apply (prefix_cons i).
  - simpl. by rewrite E.
Qed.

Lemma load64_in_page m m' a i :
  (∀ x, a ≤ x < a + PGSIZE → rd m' x = rd m x) → idx_ok i →
  load64 m' (a + 8 * i) = load64 m (a + 8 * i).
Proof.
  intros H Hi. apply load64_ext. intros b Hb. apply H. unfold idx_ok, PGSIZE in *. lia.
Qed.

Lemma path_ok_last r j q : r ++ [j] `prefix_of` q → path_ok q → path_ok r ∧ idx_ok j.
Proof.
  intros Hp Hq. split.
  - eapply path_ok_prefix; [|done]. etrans; [|done]. by apply prefix_app_r.
  - apply path_ok_prefix in Hp as [_ Hf]; [|done].
    apply Forall_app in Hf as [_ Hf]. by inversion Hf.
Qed.

Section frame.
Context (m m' : memory) (root : Z) (Heq : tables_eq m m' root).

Lemma node_frame q : path_ok q → node m' root q = node m root q.
Proof using Heq.
  intros Hq. apply node_ext. intros r j b Hp Hn.
  apply path_ok_last in Hp as [Hr Hj]; [|done].
  apply load64_in_page; [|done]. intros x Hx. by apply (Heq r b).
Qed.

Lemma pt_wf_frame : pt_wf m root → pt_wf m' root.
Proof using Heq.
  intros [H1 H2 H3 H4]. split.
  - intros p q a Hp Hq. rewrite !node_frame by done. by apply H1.
  - intros p a Hp. rewrite node_frame by done. by apply H2.
  - intros p a i Hp Hl Hi. rewrite node_frame by done. intros Ha.
    rewrite (load64_in_page m m' a) by (done || (intros x Hx; by apply (Heq p a))). by apply (H3 p).
  - intros i Hi. rewrite (load64_in_page m m' root); [by apply H4| |unfold idx_ok; lia].
    intros x Hx. by apply (Heq [] root); [split; [simpl; lia|constructor]|..].
Qed.

Lemma xlate_frame va : xlate m' root va = xlate m root va.
Proof using Heq.
  unfold xlate, leaf_slot. rewrite node_frame by apply walk_path2_ok.
  destruct (node m root (walk_path 2 va)) as [a|] eqn:E; [|done]. cbn.
  rewrite (load64_in_page m m' a); [done| |apply PX_range; lia].
  intros x Hx. apply (Heq (walk_path 2 va) a); [apply walk_path2_ok|done..].
Qed.

Lemma leaf_slot_frame va : leaf_slot m' root va = leaf_slot m root va.
Proof using Heq. unfold leaf_slot. by rewrite node_frame by apply walk_path2_ok. Qed.

Lemma vm_inv_frame fl l fl' l' :
  vm_inv m fl l root → kmem_inv m' fl' l' →
  (∀ b p, path_ok p → node m root p = Some b → b ∉ l') → vm_inv m' fl' l' root.
Proof using Heq.
  intros [H1 H2 H3] Hk Hf. split; [done|by apply pt_wf_frame|].
  intros p a Hp. rewrite node_frame by done. eauto.
Qed.
End frame.

(** Writing to a page that is not a page-table page keeps the tables. *)
Lemma tables_eq_page m m' root b :
  pt_wf m root → page_ok b → not_table m root b →
  (∀ x, ¬ (b ≤ x < b + PGSIZE) → rd m' x = rd m x) → tables_eq m m' root.
Proof.
  intros Hw Hb Hn H p a x Hp Ha Hx. apply H.
  destruct (page_ok_sep a b); [by eapply pw_page|done| |lia..].
  intros ->. by apply (Hn p).
Qed.

Lemma not_table_frame m m' root b :
  tables_eq m m' root → not_table m root b → not_table m' root b.
Proof. intros Heq Hn p Hp. rewrite (node_frame m m') by done. by apply Hn. Qed.

(** A page on the free list is not a page-table page. *)
Lemma free_not_table m fl l root p : vm_inv m fl l root → p ∈ l → not_table m root p.
Proof. intros [_ _ H] Hp q Hq E. by eapply H. Qed.

(** ** kalloc and kfree under the invariant *)

Lemma kalloc_vm m fl l root L s :
  vm_inv m fl l root → LKmem ∉ L →
  match l with
  | [] => kalloc (setk m fl L s) = Ok 0 (setk m fl L s)
  | pg :: l' =>
      let m1 := memset m pg 5 PGSIZE in
      kalloc (setk m fl L s) = Ok pg (setk m1 (hd 0 l') L s) ∧
      vm_inv m1 (hd 0 l') l' root ∧ tables_eq m m1 root ∧
      page_ok pg ∧ not_table m root pg ∧ pg ∉ l'
  end.
Proof.
  intros Hi HL. destruct l as [|pg l']; [by apply kalloc_none; [apply Hi|]|].
  destruct (kalloc_some m pg l' fl L s) as [H1 H2]; [apply Hi|done|].
  assert (page_ok pg) by (eapply kmem_inv_page; [apply Hi|left]).
  assert (not_table m root pg) by (eapply free_not_table; [done|left]).
  assert (tables_eq m (memset m pg 5 PGSIZE) root).
  { eapply tables_eq_page; [apply Hi|done..|]. intros x Hx. apply rd_memset_out. lia. }
  split; [exact H1|]. split; [|split; [assumption|split; [assumption|split; [assumption|]]]].
  - eapply vm_inv_frame; [eassumption..|]. intros b p Hp Hb Hin.
    eapply (vi_free _ _ _ _ Hi p); [done..|by right].
  - pose proof (ki_nodup _ _ _ (vi_kmem _ _ _ _ Hi)) as Hnd. by apply NoDup_cons in Hnd as [? _].
Qed.

Lemma kfree_vm m fl l root L s b :
  vm_inv m fl l root → LKmem ∉ L → page_ok b → b ∉ l → not_table m root b →
  kfree b (setk m fl L s) = Ok () (setk (freed_mem m b fl) b L s) ∧
  vm_inv (freed_mem m b fl) b (b :: l) root ∧ tables_eq m (freed_mem m b fl) root.
Proof.
  intros Hi HL Hb Hnl Hnt.
  destruct (kfree_ok m b l fl L s) as [H1 H2]; [apply Hi|done..|].
  assert (tables_eq m (freed_mem m b fl) root) as Heq.
  { eapply tables_eq_page; [apply Hi|done..|]. intros x Hx. by apply freed_mem_out. }
  split_and!; [done| |done]. eapply vm_inv_frame; [done..|].
  intros c p Hp Hc [->|Hin]%elem_of_cons; [by eapply Hnt|]. by eapply vi_free.
Qed.

Lemma page_ok_pa b : page_ok b → 0 ≤ b < 2 ^ 56.
Proof. intros [? ?]. unfold PHYSTOP, KERNBASE in *. lia. Qed.

Lemma PX_low va : 0 ≤ va < MAXVA → PX 2 va < 256.
Proof.
  assert (MAXVA = 2 ^ 38) as HM by done. intros H. rewrite PX_eq by lia. change (12 + 9 * 2) with 30.
  assert (va / 2 ^ 30 < 256) by (apply Z.div_lt_upper_bound; lia). assert (0 ≤ va / 2 ^ 30) by (apply Z.div_pos; lia).
  rewrite Z.mod_small; lia.
Qed.

(** A pointer to a table has no permissions. *)
Lemma PTE_PTR_perms b : 0 ≤ b < 2 ^ 56 → Z.land (Z.lor (PA2PTE b) PTE_V) (Z.lor (Z.lor PTE_R PTE_W) PTE_X) = 0.
Proof.
  intros Hb. change (Z.lor (Z.lor PTE_R PTE_W) PTE_X) with (Z.land 0x3FF 14). rewrite Z.land_assoc.
  change (Z.land (Z.lor (PA2PTE b) PTE_V) 0x3FF) with (PTE_FLAGS (Z.lor (PA2PTE b) PTE_V)).
  by rewrite PTE_FLAGS_mkpte.
Qed.

(** ** Adding a page-table page

    What [walk] does at a level whose entry is invalid: a zeroed page [pg]
    becomes the child number [i] of the page-table page [a] reached by [p]. *)
Section extend.
Context (m : memory) (root : Z) (p : list Z) (a i pg : Z).
Context (Hwf : pt_wf m root) (Hp : path_ok p) (Hlen : (length p < 2)%nat)
  (Ha : node m root p = Some a) (Hi : idx_ok i)
  (Hinv : valid (load64 m (a + 8 * i)) = false)
  (Hpg : page_ok pg) (Hnt : not_table m root pg).

Definition extended : memory :=
  store64 (memset m pg 0 PGSIZE) (a + 8 * i) (Z.lor (PA2PTE pg) PTE_V).

Lemma a_sep : a + PGSIZE ≤ pg ∨ pg + PGSIZE ≤ a.
Proof using All.
  apply page_ok_sep; [by eapply pw_page|done|]. intros ->. by apply (Hnt p).
Qed.

Lemma load_extended_new : load64 extended (a + 8 * i) = Z.lor (PA2PTE pg) PTE_V.
Proof using All.
  apply load64_store64_eq, mkpte_range; [by apply page_ok_pa|done].
Qed.

Lemma load_extended_zero j : idx_ok j → load64 extended (pg + 8 * j) = 0.
Proof using All.
  intros Hj. pose proof a_sep. unfold extended, idx_ok, PGSIZE in *.
  rewrite load64_store64_ne by lia. apply load64_memset_zero; lia.
Qed.

(** Entries other than the new one, outside the new page, are unchanged. *)
Lemma load_extended_other b j :
  page_ok b → b ≠ pg → idx_ok j → b ≠ a ∨ j ≠ i →
  load64 extended (b + 8 * j) = load64 m (b + 8 * j).
Proof using All.
  intros Hb Hne Hj Hor. assert (page_ok a) by (by eapply pw_page).
  assert (b + PGSIZE ≤ pg ∨ pg + PGSIZE ≤ b) by (by apply page_ok_sep).
  unfold extended, idx_ok in *.
  assert (b + 8 * j + 8 ≤ a + 8 * i ∨ a + 8 * i + 8 ≤ b + 8 * j).
  { destruct (decide (b = a)) as [->|Hba]; [lia|].
    destruct (page_ok_sep b a) as [|]; [done..| |]; unfold PGSIZE in *; lia. }
  rewrite load64_store64_ne, load64_memset_out; unfold PGSIZE in *; done || lia.
Qed.

Lemma node_extended_new : node extended root (p ++ [i]) = Some pg.
Proof using All.
  rewrite node_app.
  assert (node extended root p = Some a) as ->.
  { rewrite <- Ha. apply node_ext. intros r j b Hpre Hb.
    pose proof (path_ok_last _ _ _ Hpre Hp) as [Hr Hj].
    apply load_extended_other; [by eapply pw_page| |done|].
    - intros ->. by apply (Hnt r).
    - left. intros ->. assert (r = p) as -> by (by eapply pw_inj).
      apply prefix_length in Hpre. rewrite length_app in Hpre. simpl in Hpre. lia. }
  cbn [mbind option_bind node]. rewrite load_extended_new.
  assert (valid (Z.lor (PA2PTE pg) PTE_V) = true) as ->.
  { unfold valid. apply nz_true. unfold PTE_V at 2. rewrite land_bit_flags by lia.
    rewrite PTE_FLAGS_mkpte; [done|by apply page_ok_pa|done]. }
  rewrite PTE2PA_mkpte; [done|by apply page_ok_pa|apply Hpg|done].
Qed.

Lemma node_extended q :
  path_ok q →
  node extended root q =
  if decide (p ++ [i] `prefix_of` q) then if decide (q = p ++ [i]) then Some pg else None
  else node m root q.
Proof using All.
  intros Hq. case_decide as Hpre; [case_decide as Hqe|].
  - subst q. apply node_extended_new.
  - destruct Hpre as [[|j k] ->]; [by rewrite app_nil_r in Hqe|].
    rewrite node_app, node_extended_new. cbn [mbind option_bind node].
    rewrite load_extended_zero; [done|].
    destruct Hq as [_ Hq]. rewrite !Forall_app in Hq. destruct Hq as [_ Hq]. by inversion Hq.
  - apply node_ext. intros r j b Hpre' Hb.
    pose proof (path_ok_last _ _ _ Hpre' Hq) as [Hr Hj].
    apply load_extended_other; [by eapply pw_page| |done|].
    + intros ->. by apply (Hnt r).
    + destruct (decide (b = a)) as [->|]; [right|by left].
      assert (r = p) as -> by (by eapply pw_inj). by intros ->.
Qed.

Lemma path_ok_new : path_ok (p ++ [i]).
Proof using All. apply path_ok_snoc; [done|apply Hp|done]. Qed.

(** The extended table's nodes are the old ones and the new page. *)
Lemma node_extended_cases q b :
  path_ok q → node extended root q = Some b →
  (q = p ++ [i] ∧ b = pg) ∨ (node m root q = Some b ∧ ¬ p ++ [i] `prefix_of` q).
Proof using All.
  intros Hq. rewrite node_extended by done. repeat case_decide; intros; simplify_eq; auto.
Qed.

Lemma pt_wf_extended : (p = [] → i < 256) → pt_wf extended root.
Proof using All.
  intros Hlow. assert (path_ok []) as Hp0 by (split; [simpl; lia|constructor]). split.
  - intros q r b Hq Hr [[-> ->]|[H1 _]]%node_extended_cases [[-> E]|[H2 _]]%node_extended_cases;
      try done; subst; [by destruct (Hnt r)|by destruct (Hnt q)|by eapply pw_inj].
  - intros q b Hq [[-> ->]|[H1 _]]%node_extended_cases; [done..|by eapply pw_page|done].
  - intros q b j Hq Hl Hj [[-> ->]|[H1 _]]%node_extended_cases; [by rewrite load_extended_zero| |done].
    assert (b ≠ pg) as Hbp by (intros ->; by apply (Hnt q)). destruct (decide (b = a ∧ j = i)) as [[-> ->]|Hne].
    + intros _. rewrite load_extended_new. apply PTE_PTR_perms. by apply page_ok_pa.
    + rewrite load_extended_other; [by apply (pw_dir _ _ Hwf q)|by eapply pw_page|done|done|].
      destruct (decide (b = a)) as [->|]; [right; intros ->; tauto|by left].
  - intros j Hj. rewrite load_extended_other; [by apply (pw_high _ _ Hwf)|by eapply (pw_page _ _ Hwf [])|
      intros <-; by apply (Hnt [])|unfold idx_ok; lia|].
    destruct (decide (root = a)) as [E|]; [right|by left]. subst a.
    rewrite (pw_inj _ _ Hwf p [] root Hp Hp0 Ha eq_refl) in Hlow. specialize (Hlow eq_refl). lia.
Qed.

Lemma xlate_extended va : xlate extended root va = xlate m root va.
Proof using All.
  unfold xlate, leaf_slot. pose proof (walk_path2_ok va) as Hw.
  pose proof (walk_path_length 2 va) as Hl2.
  rewrite node_extended by done. case_decide as Hpre.
  - assert (node m root (walk_path 2 va) = None) as ->.
    { destruct Hpre as [k ->]. rewrite <- app_assoc, node_app, Ha.
      cbn [mbind option_bind node app]. by rewrite Hinv. }
    case_decide; [|done]. cbn. rewrite load_extended_zero; [done|apply PX_range; lia].
  - destruct (node m root (walk_path 2 va)) as [b|] eqn:Hb; [|done]. cbn.
    rewrite load_extended_other; [done|by eapply pw_page| |apply PX_range; lia|].
    + intros ->. by apply (Hnt (walk_path 2 va)).
    + left. intros ->. assert (walk_path 2 va = p) by (by eapply pw_inj). subst p. lia.
Qed.

Lemma vm_inv_extended fl l :
  (p = [] → i < 256) → kmem_inv m fl l → pg ∉ l → (∀ q b, path_ok q → node m root q = Some b → b ∉ l) →
  vm_inv extended fl l root.
Proof using All.
  intros Hlow Hk Hnl Hf. split; [|by apply pt_wf_extended|].
  - eapply kmem_inv_mem; [done|unfold extended; auto with cint|].
    { unfold extended. pose proof (ki_bytes _ _ _ Hk). auto with cint. }
    intros c x Hc Hx. assert (page_ok c) by (by eapply kmem_inv_page).
    assert (page_ok a) by (by eapply pw_page).
    assert (c + PGSIZE ≤ pg ∨ pg + PGSIZE ≤ c) by (apply page_ok_sep; [done..|by intros ->]).
    assert (c + PGSIZE ≤ a ∨ a + PGSIZE ≤ c)
      by (apply page_ok_sep; [done..|intros ->; by eapply (Hf p)]).
    unfold extended, idx_ok, PGSIZE in *.
    rewrite rd_store64_out, rd_memset_out by lia. done.
  - intros q b Hq [[-> ->]|[H1 _]]%node_extended_cases; [done..|by eapply Hf|done].
Qed.
End extend.

(** ** walk *)

Lemma walk_loop_noalloc level pt va m fl L s :
  walk_loop level pt va false (setk m fl L s) =
  Ok (default 0 ((λ a, a + 8 * PX 0 va) <$> node m pt (walk_path level va))) (setk m fl L s).
Proof.
  revert pt. induction level as [|level IH]; intros pt; [done|].
  cbn [walk_loop walk_path node]. unfold ld_pte. krun. unfold valid.
  case_match; [apply IH|done].
Qed.

(** [walk] without allocation returns the address of the leaf PTE, or 0 if a
    page-table page is missing on the way. *)
Lemma walk_lookup root va m fl L s :
  0 ≤ va < MAXVA →
  walk root va false (setk m fl L s) = Ok (default 0 (leaf_slot m root va)) (setk m fl L s).
Proof.
  intros H. unfold walk. rewrite (proj2 (Z.leb_gt _ _)) by lia. apply walk_loop_noalloc.
Qed.

Lemma leaf_slot_pos m root va slot : pt_wf m root → leaf_slot m root va = Some slot → 0 < slot.
Proof.
  unfold leaf_slot. intros Hw. destruct (node _ _ _) as [a|] eqn:E; [|done].
  intros [= <-]. apply pw_page in E as [_ ?]; [|done|apply walk_path2_ok].
  pose proof (PX_range 0 va). lia.
Qed.

(** How memory changes while page tables are edited: pages are taken from the
    free list, and pages that are neither free nor page-table pages of [root]
    are not written, and stay so. *)
Record tframe (m : memory) (l : list Z) (m' : memory) (l' : list Z) (root : Z) : Prop := {
  tf_free : l' `suffix_of` l;
  tf_frame b : page_ok b → b ∉ l → not_table m root b →
    (∀ x, b ≤ x < b + PGSIZE → rd m' x = rd m x) ∧ not_table m' root b;
}.

(** No page is lost: what leaves the free list becomes a page-table page, and
    page-table pages stay. *)
Definition taken (m : memory) (l : list Z) (m' : memory) (l' : list Z) (root : Z) : Prop :=
  (∀ p b, path_ok p → node m root p = Some b → node m' root p = Some b) ∧
  (∀ b, b ∈ l → b ∈ l' ∨ ∃ p, path_ok p ∧ node m' root p = Some b).

(** [walk] moreover keeps every translation. *)
Record grown (m : memory) (l : list Z) (m' : memory) (l' : list Z) (root : Z) : Prop := {
  gr_xlate va : xlate m' root va = xlate m root va;
  gr_tf : tframe m l m' l' root;
  gr_taken : taken m l m' l' root;
}.

Lemma taken_refl m l root : taken m l m l root.
Proof. split; [done|by left]. Qed.
Lemma taken_trans m1 l1 m2 l2 m3 l3 root :
  taken m1 l1 m2 l2 root → taken m2 l2 m3 l3 root → taken m1 l1 m3 l3 root.
Proof.
  intros [A1 A2] [B1 B2]. split; [intros p b Hp E; by apply B1, A1|].
  intros b Hb. destruct (A2 b Hb) as [H|(p & Hp & E)]; [by apply B2|right; exists p; eauto].
Qed.
Lemma taken_same m m' l root : (∀ p, path_ok p → node m' root p = node m root p) → taken m l m' l root.
Proof. intros H. split; [intros p b Hp E; by rewrite H|by left]. Qed.

Lemma tframe_refl m l root : tframe m l m l root.
Proof. split; [done|auto]. Qed.

Lemma grown_refl m l root : grown m l m l root.
Proof. split; [done|apply tframe_refl|apply taken_refl]. Qed.

Lemma not_in_suffix (l' l : list Z) b : l' `suffix_of` l → b ∉ l → b ∉ l'.
Proof. intros [k ->] Hb Hin. apply Hb, elem_of_app. by right. Qed.

Lemma tframe_trans m1 l1 m2 l2 m3 l3 root :
  tframe m1 l1 m2 l2 root → tframe m2 l2 m3 l3 root → tframe m1 l1 m3 l3 root.
Proof.
  intros [A2 A3] [B2 B3]. split; [by etrans|].
  intros b Hb Hl Hn. destruct (A3 b) as [A4 A5]; [done..|].
  destruct (B3 b) as [B4 B5]; [done|by eapply not_in_suffix|done|].
  split; [|done]. intros x Hx. by rewrite B4, A4.
Qed.

Lemma grown_trans m1 l1 m2 l2 m3 l3 root :
  grown m1 l1 m2 l2 root → grown m2 l2 m3 l3 root → grown m1 l1 m3 l3 root.
Proof.
  intros [A1 A2 A3] [B1 B2 B3]. split; [|by eapply tframe_trans|by eapply taken_trans].
  intros va. by rewrite B1, A1.
Qed.

(** One level of [walk] that has to allocate, in the memory where [kalloc] has
    already filled the page [pg] with junk. *)
Lemma grown_extended m fl l pg root p a i :
  vm_inv m fl l root → page_ok pg → not_table m root pg → pg ∉ l →
  path_ok p → (length p < 2)%nat → node m root p = Some a →
  idx_ok i → valid (load64 m (a + 8 * i)) = false → (p = [] → i < 256) →
  grown m (pg :: l) (extended m a i pg) l root ∧ vm_inv (extended m a i pg) fl l root ∧
  node (extended m a i pg) root (p ++ [i]) = Some pg.
Proof.
  intros Hi Hpg Hnt Hnl Hp Hlen Ha Hii Hinv Hlow. pose proof (vi_pt _ _ _ _ Hi) as Hwf.
  assert (node (extended m a i pg) root (p ++ [i]) = Some pg) as Hnew by (by apply (node_extended_new m root p a i pg)).
  split; [split; [|split|split]|split].
  - intros va. by apply (xlate_extended m root p a i pg).
  - by apply suffix_cons_r.
  - intros b Hb [Hbp Hbl]%not_elem_of_cons Hn. split.
    + intros x Hx. assert (page_ok a) as Hpa by (eapply pw_page; [|done..]; done).
      assert (b + PGSIZE ≤ pg ∨ pg + PGSIZE ≤ b) by (by apply page_ok_sep).
      assert (b + PGSIZE ≤ a ∨ a + PGSIZE ≤ b)
        by (apply page_ok_sep; [done..|intros ->; by apply (Hn p)]).
      unfold extended, idx_ok, PGSIZE in *.
      rewrite rd_store64_out, rd_memset_out by lia. done.
    + intros q Hq E.
      destruct (node_extended_cases m root p a i pg Hwf Hp Hlen Ha Hii Hinv Hpg Hnt q b Hq E)
        as [[_ E']|[E' _]]; [done|by eapply Hn].
  - intros q b Hq E. rewrite (node_extended m root p a i pg) by done. case_decide as Hpre; [|done].
    destruct Hpre as [k ->]. rewrite <- app_assoc, node_app, Ha in E. cbn [mbind option_bind node app] in E. by rewrite Hinv in E.
  - intros b [->|Hb]%elem_of_cons; [right|by left]. exists (p ++ [i]). split; [by apply path_ok_snoc; [|apply Hp|]|done].
  - eapply (vm_inv_extended m root p a i pg); [done..|apply Hi|done|].
    intros q b Hq E. by eapply (vi_free _ _ _ _ Hi).
  - done.
Qed.

(** Filling a page that is neither a page-table page nor, any more, free. *)
Lemma grown_fill m l m' root pg :
  pt_wf m root → page_ok pg → not_table m root pg →
  (∀ x, ¬ (pg ≤ x < pg + PGSIZE) → rd m' x = rd m x) → grown m (pg :: l) m' (pg :: l) root.
Proof.
  intros Hw Hpg Hnt Hm. assert (tables_eq m m' root) as Heq by (by eapply tables_eq_page).
  split; [intros; by apply xlate_frame|split; [done|]|apply taken_same; intros; by apply node_frame].
  intros b Hb [Hbp _]%not_elem_of_cons Hn. split; [|by eapply not_table_frame].
  intros x Hx. apply Hm. destruct (page_ok_sep b pg); [done..|lia|lia].
Qed.

Lemma walk_loop_alloc level p pt va m fl l root L s :
  vm_inv m fl l root → LKmem ∉ L → 0 ≤ va < MAXVA → path_ok p → (length p + level = 2)%nat →
  node m root p = Some pt →
  ∃ r m' l', walk_loop level pt va true (setk m fl L s) = Ok r (setk m' (hd 0 l') L s) ∧
    grown m l m' l' root ∧ vm_inv m' (hd 0 l') l' root ∧
    ((length l ≤ length l' + level)%nat ∧ (node m root (p ++ walk_path level va) ≠ None → l' = l)) ∧
    match node m' root (p ++ walk_path level va) with
    | Some a => r = a + 8 * PX 0 va
    | None => r = 0 ∧ l' = []
    end.
Proof.
  revert p pt m fl l. induction level as [|level IH]; intros p pt m fl l Hi HL Hva Hp Hlen Hn.
  { exists (pt + 8 * PX 0 va), m, l. cbn [walk_loop walk_path].
    rewrite app_nil_r, Hn, <- (flist_head m fl l) by apply Hi.
    split_and!; [done|apply grown_refl|done|lia|done|done]. }
  cbn [walk_loop walk_path]. unfold ld_pte. krun.
  set (i := PX (Z.of_nat (S level)) va). set (v := load64 m (pt + 8 * i)).
  assert (idx_ok i) as Hii by (apply PX_range; lia).
  assert (p = [] → i < 256) as Hlow.
  { intros ->. simpl in Hlen. assert (level = 1%nat) as -> by lia. by apply PX_low. }
  assert (path_ok (p ++ [i])) as Hp' by (apply path_ok_snoc; [lia|apply Hp|done]).
  assert (length (p ++ [i]) + level = 2)%nat as Hlen' by (rewrite length_app; simpl; lia).
  replace (p ++ i :: walk_path level va) with ((p ++ [i]) ++ walk_path level va)
    by (by rewrite <- app_assoc).
  destruct (nz (Z.land v PTE_V)) eqn:Ev.
  { destruct (IH (p ++ [i]) (PTE2PA v) m fl l) as (r & m' & l' & H1 & H2 & H3 & [H4 H4'] & H5); [done..| |].
    { rewrite node_app, Hn. cbn [mbind option_bind node]. fold v. unfold valid. by rewrite Ev. }
    exists r, m', l'. split_and!; [done..|lia|done|done]. }
  assert (node m root ((p ++ [i]) ++ walk_path level va) = None) as Hnone.
  { rewrite !node_app, Hn. cbn [mbind option_bind node]. fold v. unfold valid. by rewrite Ev. }
  cbn [negb]. pose proof (kalloc_vm m fl l root L s Hi HL) as Hk.
  destruct l as [|pg l'].
  - exists 0, m, []. rewrite (bind_ok _ _ _ _ _ Hk). cbn [Z.eqb].
    assert (fl = 0) as -> by (by apply (flist_head m fl [] (ki_list _ _ _ (vi_kmem _ _ _ _ Hi)))).
    split_and!; [done|apply grown_refl|done|simpl; lia|done|]. by rewrite Hnone.
  - destruct Hk as (Hk & Hi1 & Heq & Hpg & Hnt & Hnl). rewrite (bind_ok _ _ _ _ _ Hk).
    rewrite (proj2 (Z.eqb_neq pg 0)) by (destruct Hpg; lia). unfold st_pte. krun.
    fold (extended (memset m pg 5 PGSIZE) pt i pg).
    assert (grown m (pg :: l') (memset m pg 5 PGSIZE) (pg :: l') root) as G0.
    { apply grown_fill; [apply Hi|done..|]. intros x Hx. apply rd_memset_out. lia. }
    assert (node (memset m pg 5 PGSIZE) root p = Some pt) as Hn1
      by (rewrite <- Hn; by apply node_frame).
    assert (not_table (memset m pg 5 PGSIZE) root pg) as Hnt1 by (by eapply not_table_frame).
    assert (valid (load64 (memset m pg 5 PGSIZE) (pt + 8 * i)) = false) as Hinv.
    { rewrite (load64_in_page m _ pt); [exact Ev| |done].
      intros x Hx. by apply (Heq p pt). }
    revert Hi1 G0 Hn1 Hnt1 Hinv. clear Hk Heq. generalize (memset m pg 5 PGSIZE).
    intros m1 Hi1 G0 Hn1 Hnt1 Hinv.
    destruct (grown_extended m1 (hd 0 l') l' pg root p pt i) as (G & Hi' & Hn'); [done..|lia|done|done|done|done|].
    destruct (IH (p ++ [i]) pg (extended m1 pt i pg) (hd 0 l') l')
      as (r & m' & l'' & H1 & H2 & H3 & [H4 _] & H5); [done..|].
    exists r, m', l''. split_and!; [done| |done|simpl; lia|done|done].
    eapply grown_trans; [exact G0|]. by eapply grown_trans.
Qed.

(** What [walk] takes from the free list: two pages at most, and none when the
    tables on the way to [va] exist. *)
Definition spent (m : memory) (l l' : list Z) (root va : Z) : Prop :=
  (length l ≤ length l' + 2)%nat ∧ (leaf_slot m root va ≠ None → l' = l).

(** [walk] with allocation returns the address of the leaf PTE in the grown
    table, or 0 when it ran out of free pages. *)
Lemma walk_alloc root va m fl l L s :
  vm_inv m fl l root → LKmem ∉ L → 0 ≤ va < MAXVA →
  ∃ r m' l', walk root va true (setk m fl L s) = Ok r (setk m' (hd 0 l') L s) ∧
    grown m l m' l' root ∧ vm_inv m' (hd 0 l') l' root ∧ spent m l l' root va ∧
    (leaf_slot m' root va = Some r ∨ (leaf_slot m' root va = None ∧ r = 0 ∧ l' = [])).
Proof.
  intros Hi HL Hva. unfold walk. rewrite (proj2 (Z.leb_gt _ _)) by lia.
  destruct (walk_loop_alloc 2 [] root va m fl l root L s) as (r & m' & l' & H1 & H2 & H3 & Hs & H4);
    [done|done|done|split; [simpl; lia|constructor]|done|done|].
  exists r, m', l'. split_and!; [done..| |].
  { split; [apply Hs|]. intros Hl. apply Hs. unfold leaf_slot in Hl. cbn [app]. by destruct (node m root _). }
  unfold leaf_slot. cbn [app] in H4.
  destruct (node m' root (walk_path 2 va)); [left; by subst|right; tauto].
Qed.

(** ** Writing a leaf PTE *)

(** A virtual page the tables can map. *)
Definition va_ok (va : Z) : Prop := 0 ≤ va < MAXVA ∧ va mod PGSIZE = 0.

Section set_leaf.
Context (m : memory) (fl : Z) (l : list Z) (root va slot v : Z).
Context (Hi : vm_inv m fl l root) (Hslot : leaf_slot m root va = Some slot) (Hv : 0 ≤ v < 2 ^ 64).

Lemma leaf_slot_inv : ∃ a, node m root (walk_path 2 va) = Some a ∧ page_ok a ∧ slot = a + 8 * PX 0 va.
Proof using All.
  unfold leaf_slot in Hslot. destruct (node m root (walk_path 2 va)) as [a|] eqn:E; [|done].
  injection Hslot as <-. exists a. split_and!; [done| |done].
  eapply pw_page; [apply Hi|apply walk_path2_ok|exact E].
Qed.

(** Interior nodes do not see the leaf write. *)
Lemma node_set_leaf q : path_ok q → node (store64 m slot v) root q = node m root q.
Proof using All.
  destruct leaf_slot_inv as (a & Ha & Hpa & ->). intros Hq. apply node_ext.
  intros r j b Hpre Hb. pose proof (path_ok_last _ _ _ Hpre Hq) as [Hr Hj].
  assert (page_ok b) by (eapply pw_page; [apply Hi|done..]).
  assert (b ≠ a) as Hne.
  { intros ->. assert (r = walk_path 2 va) as ->
      by (eapply (pw_inj _ _ (vi_pt _ _ _ _ Hi)); [done|apply walk_path2_ok|done..]).
    apply prefix_length in Hpre. destruct Hq as [Hq _].
    rewrite length_app, walk_path_length in Hpre. simpl in Hpre. lia. }
  pose proof (PX_range 0 va). unfold idx_ok in *.
  apply load64_store64_ne. destruct (page_ok_sep b a); [done..| |]; unfold PGSIZE in *; lia.
Qed.

Lemma set_leaf_out x :
  (∀ a, node m root (walk_path 2 va) = Some a → ¬ (a ≤ x < a + PGSIZE)) →
  rd (store64 m slot v) x = rd m x.
Proof using All.
  destruct leaf_slot_inv as (a & Ha & Hpa & ->). intros Hx. specialize (Hx a Ha).
  pose proof (PX_range 0 va). apply rd_store64_out. unfold PGSIZE in *. lia.
Qed.

Lemma vm_inv_set_leaf : vm_inv (store64 m slot v) fl l root.
Proof using All.
  destruct Hi as [Hk [Hw1 Hw2 Hw3 Hw4] Hf]. split; [|split|].
  - eapply kmem_inv_mem; [done|pose proof (ki_bytes _ _ _ Hk); auto with cint|].
    intros c x Hc Hx. apply set_leaf_out. intros a Ha.
    assert (page_ok a) by (eapply Hw2; [apply walk_path2_ok|done]).
    assert (page_ok c) by (by eapply kmem_inv_page).
    destruct (page_ok_sep a c); [done..| |lia|lia]. intros ->.
    eapply Hf; [apply walk_path2_ok|done..].
  - intros p q a Hp Hq. rewrite !node_set_leaf by done. by apply Hw1.
  - intros p a Hp. rewrite node_set_leaf by done. by apply Hw2.
  - intros p a i Hp Hl Hj. rewrite node_set_leaf by done. intros Ha.
    rewrite (load64_in_page m (store64 m slot v) a); [by apply (Hw3 p)| |done]. intros x Hx. apply set_leaf_out.
    intros a' Ha'. assert (a ≠ a') as Hne.
    { intros <-. assert (p = walk_path 2 va) as -> by (eapply Hw1; [done|apply walk_path2_ok|done..]).
      rewrite walk_path_length in Hl. lia. }
    destruct (page_ok_sep a a'); [by eapply Hw2|eapply Hw2; [apply walk_path2_ok|done]|done|lia|lia].
  - assert (path_ok []) as Hp0 by (split; [simpl; lia|constructor]).
    intros i Hj. rewrite (load64_in_page m (store64 m slot v) root); [by apply Hw4| |unfold idx_ok; lia].
    intros x Hx. apply set_leaf_out. intros a' Ha'.
    assert (root ≠ a') as Hne by (intros <-; by pose proof (Hw1 [] _ _ Hp0 (walk_path2_ok va) eq_refl Ha')).
    destruct (page_ok_sep root a'); [by eapply (Hw2 [])|eapply Hw2; [apply walk_path2_ok|done]|done|lia|lia].
  - intros p a Hp. rewrite node_set_leaf by done. by apply Hf.
Qed.

Lemma tframe_set_leaf : tframe m l (store64 m slot v) l root.
Proof using All.
  split; [done|]. intros b Hb Hl Hn. split.
  - intros x Hx. apply set_leaf_out. intros a Ha.
    assert (page_ok a) by (eapply pw_page; [apply Hi|apply walk_path2_ok|done]).
    destruct (page_ok_sep a b); [done..| |lia|lia]. intros ->.
    by eapply (Hn (walk_path 2 va)); [apply walk_path2_ok|].
  - intros q Hq. rewrite node_set_leaf by done. by apply Hn.
Qed.

(** The only translation that changes is that of [va]. *)
Lemma xlate_set_leaf va' :
  va_ok va → va_ok va' →
  xlate (store64 m slot v) root va' =
  if decide (va' = va) then if valid v then Some v else None else xlate m root va'.
Proof using All.
  intros [Hr Hal] [Hr' Hal']. unfold xlate, leaf_slot.
  rewrite node_set_leaf by apply walk_path2_ok.
  destruct leaf_slot_inv as (a & Ha & Hpa & ->). case_decide as Hd.
  { subst va'. rewrite Ha. cbn. by rewrite load64_store64_eq. }
  destruct (node m root (walk_path 2 va')) as [b|] eqn:Hb; [|done]. cbn.
  assert (page_ok b) by (eapply pw_page; [apply Hi|apply walk_path2_ok|done]).
  pose proof (PX_range 0 va). pose proof (PX_range 0 va').
  rewrite load64_store64_ne; [done|].
  destruct (decide (a = b)) as [->|Hne].
  - assert (walk_path 2 va = walk_path 2 va') as E
      by (eapply (pw_inj _ _ (vi_pt _ _ _ _ Hi)); [apply walk_path2_ok..|done|done]).
    injection E as E2 E1. assert (PX 0 va ≠ PX 0 va'); [|lia].
    intros E0. apply Hd. by apply PX_inj.
  - destruct (page_ok_sep a b); [done..| |]; unfold PGSIZE in *; lia.
Qed.
End set_leaf.

(** ** mappages *)

(** The PTE [mappages] installs for a physical page and permissions. *)
Definition mkpte (pa perm : Z) : Z := Z.lor (Z.lor (PA2PTE pa) perm) PTE_V.

Lemma lor_1024 a b : 0 ≤ a < 1024 → 0 ≤ b < 1024 → 0 ≤ Z.lor a b < 1024.
Proof.
  intros Ha Hb. split; [apply Z.lor_nonneg; lia|].
  destruct (decide (Z.lor a b = 0)) as [->|]; [done|].
  assert (0 ≤ Z.lor a b) by (apply Z.lor_nonneg; lia).
  apply (Z.log2_lt_pow2 _ 10); [lia|]. rewrite Z.log2_lor by lia.
  assert (∀ c, 0 ≤ c < 1024 → Z.log2 c < 10) as Hl.
  { intros c Hc. destruct (decide (c = 0)) as [->|]; [done|]. apply Z.log2_lt_pow2; lia. }
  apply Z.max_lub_lt; auto.
Qed.

Lemma perm_lor_V perm : 0 ≤ perm < 1024 → 0 ≤ Z.lor perm PTE_V < 1024.
Proof. intros H. by apply lor_1024. Qed.

Section mkpte.
Context (pa perm : Z) (Hpa : 0 ≤ pa < 2 ^ 56) (Hperm : 0 ≤ perm < 1024).

Lemma mkpte_lor : mkpte pa perm = Z.lor (PA2PTE pa) (Z.lor perm PTE_V).
Proof using. unfold mkpte. by rewrite Z.lor_assoc. Qed.

Lemma mkpte_64 : 0 ≤ mkpte pa perm < 2 ^ 64.
Proof using All. rewrite mkpte_lor. apply mkpte_range; [done|by apply perm_lor_V]. Qed.

Lemma mkpte_flags : PTE_FLAGS (mkpte pa perm) = Z.lor perm PTE_V.
Proof using All. rewrite mkpte_lor. apply PTE_FLAGS_mkpte; [done|by apply perm_lor_V]. Qed.

Lemma mkpte_pa : pa mod PGSIZE = 0 → PTE2PA (mkpte pa perm) = pa.
Proof using All. intros. rewrite mkpte_lor. apply PTE2PA_mkpte; [done|done|by apply perm_lor_V]. Qed.

Lemma mkpte_valid : valid (mkpte pa perm) = true.
Proof using.
  clear. unfold valid. apply nz_true. intros E. apply (f_equal (λ z, Z.testbit z 0)) in E.
  unfold mkpte in E. rewrite Z.land_spec, Z.lor_spec in E.
  change (Z.testbit PTE_V 0) with true in E. by rewrite orb_true_r in E.
Qed.

(** A permission bit of the PTE is the bit of [perm]. *)
Lemma mkpte_bit n : 0 < n < 10 →
  Z.land (mkpte pa perm) (Z.shiftl 1 n) = Z.land perm (Z.shiftl 1 n).
Proof using All.
  intros Hn. rewrite land_bit_flags, mkpte_flags by lia.
  rewrite Z.land_lor_distr_l. change PTE_V with (Z.shiftl 1 0).
  replace (Z.land (Z.shiftl 1 0) (Z.shiftl 1 n)) with 0; [by rewrite Z.lor_0_r|].
  symmetry. apply Z.bits_inj'. intros k Hk. rewrite Z.land_spec, Z.bits_0, !Z.shiftl_1_l.
  rewrite !Z.pow2_bits_eqb by lia. destruct (Z.eqb_spec 0 k), (Z.eqb_spec n k); done || lia.
Qed.
End mkpte.

(** The map of [m'] is that of [m] with [j] pages from [a] mapped to [pa]. *)
Definition mapped (m m' : memory) (root a pa perm j : Z) : Prop :=
  ∀ va, va_ok va → xlate m' root va =
    if decide (a ≤ va < a + j * PGSIZE) then Some (mkpte (pa + (va - a)) perm)
    else xlate m root va.

Lemma xlate_None_slot m root va slot :
  leaf_slot m root va = Some slot → xlate m root va = None → valid (load64 m slot) = false.
Proof. unfold xlate. intros ->. cbn. by case_match. Qed.

Lemma va_ok_step va va' : va_ok va → va_ok va' → va ≤ va' → va ≠ va' → va + PGSIZE ≤ va'.
Proof. intros [_ H] [_ H'] ??. unfold PGSIZE in *. zlia. Qed.

(** One iteration: a fresh page is mapped, or the pool is empty. *)
Lemma mappages_step root a pa perm m fl l L s :
  vm_inv m fl l root → LKmem ∉ L → va_ok a → xlate m root a = None →
  0 ≤ pa < 2 ^ 56 → 0 ≤ perm < 1024 →
  ∃ pte m1 l1, walk root a true (setk m fl L s) = Ok pte (setk m1 (hd 0 l1) L s) ∧
    tframe m l m1 l1 root ∧ taken m l m1 l1 root ∧ vm_inv m1 (hd 0 l1) l1 root ∧ spent m l l1 root a ∧
    ((pte = 0 ∧ l1 = [] ∧ mapped m m1 root a pa perm 0) ∨
     (pte ≠ 0 ∧ valid (load64 m1 pte) = false ∧
      let m2 := store64 m1 pte (mkpte pa perm) in
      tframe m l m2 l1 root ∧ taken m l m2 l1 root ∧ vm_inv m2 (hd 0 l1) l1 root ∧
      mapped m m2 root a pa perm 1 ∧ leaf_slot m2 root a ≠ None)).
Proof.
  intros Hi HL Ha Hx Hpa Hpm.
  destruct (walk_alloc root a m fl l L s) as (pte & m1 & l1 & H1 & [G1 G2 G3] & H3 & Hsp & H4);
    [done..|apply Ha|].
  exists pte, m1, l1. split_and!; [done..|]. destruct H4 as [Hs|(Hs & -> & ->)].
  - right. pose proof (leaf_slot_pos _ _ _ _ (vi_pt _ _ _ _ H3) Hs).
    pose proof (mkpte_64 pa perm Hpa Hpm) as H64.
    split; [lia|]. split; [eapply xlate_None_slot; [done|by rewrite G1]|].
    cbn zeta. split_and!.
    + eapply tframe_trans; [done|]. by eapply tframe_set_leaf.
    + eapply taken_trans; [done|]. apply taken_same. intros p Hp. by eapply node_set_leaf.
    + by eapply vm_inv_set_leaf.
    + intros va Hva. erewrite xlate_set_leaf by done. rewrite mkpte_valid, G1.
      destruct (decide (va = a)) as [->|Hne].
      * rewrite decide_True by (unfold PGSIZE; lia). by rewrite Z.sub_diag, Z.add_0_r.
      * rewrite decide_False; [done|]. intros ?.
        assert (a + PGSIZE ≤ va) by (apply va_ok_step; done || lia). lia.
    + unfold leaf_slot. erewrite node_set_leaf by (done || apply walk_path2_ok).
      unfold leaf_slot in Hs. by destruct (node m1 root _).
  - left. split_and!; [done..|]. intros va Hva. rewrite G1, decide_False; [done|lia].
Qed.

Lemma mapped_cons m m1 m2 root a pa perm j :
  mapped m m1 root a pa perm 1 → mapped m1 m2 root (a + PGSIZE) (pa + PGSIZE) perm j →
  0 ≤ j → mapped m m2 root a pa perm (j + 1).
Proof.
  intros H1 H2 Hj va Hva. rewrite H2, H1 by done. unfold PGSIZE.
  repeat case_decide; try done; try lia. f_equal. f_equal. lia.
Qed.

(** The leaf tables a range of [k] pages from [a] enters after its first one:
    a leaf table covers 512 pages. *)
Definition crossed (a : Z) (k : nat) : Z := (a / PGSIZE mod 512 + Z.of_nat k - 1) / 512.

Lemma crossed_step a k : 0 ≤ a → (0 < k)%nat →
  crossed a (S k) = crossed (a + PGSIZE) k + (if decide (a / PGSIZE mod 512 = 511) then 1 else 0).
Proof.
  intros Ha Hk. unfold crossed, PGSIZE. rewrite Nat2Z.inj_succ. case_decide; zlia.
Qed.

(** Neighbouring pages have the same leaf table, but at its end. *)
Lemma leaf_slot_next m root a : 0 ≤ a → a mod PGSIZE = 0 → a / PGSIZE mod 512 ≠ 511 →
  leaf_slot m root a ≠ None → leaf_slot m root (a + PGSIZE) ≠ None.
Proof.
  intros Ha Hal Hn. unfold leaf_slot.
  assert (walk_path 2 (a + PGSIZE) = walk_path 2 a) as ->; [|by destruct (node m root _)].
  unfold PGSIZE in *. assert ((a + 4096) / 2 ^ 21 = a / 2 ^ 21) as E1 by zlia.
  cbn [walk_path]. rewrite !PX_eq by lia.
  change (12 + 9 * Z.of_nat 1) with 21. change (12 + 9 * Z.of_nat 2) with (21 + 9).
  rewrite Z.pow_add_r, <- !Z.div_div by lia. by rewrite E1.
Qed.

Lemma mappages_loop_spent k root a pa perm m fl l L s (c : Z) :
  vm_inv m fl l root → LKmem ∉ L → va_ok a → (0 < k)%nat →
  a + Z.of_nat k * PGSIZE ≤ MAXVA → 0 ≤ pa → pa + Z.of_nat k * PGSIZE ≤ 2 ^ 56 → 0 ≤ perm < 1024 →
  (∀ va, va_ok va → a ≤ va < a + Z.of_nat k * PGSIZE → xlate m root va = None) →
  (c = 1 ∨ (c = 0 ∧ leaf_slot m root a ≠ None)) →
  ∃ r m' l' j, mappages_loop k root a (a + (Z.of_nat k - 1) * PGSIZE) pa perm (setk m fl L s) =
      Ok r (setk m' (hd 0 l') L s) ∧
    vm_inv m' (hd 0 l') l' root ∧ tframe m l m' l' root ∧ taken m l m' l' root ∧ mapped m m' root a pa perm j ∧
    Z.of_nat (length l) ≤ Z.of_nat (length l') + 2 * (c + crossed a k) ∧
    ((r = 0 ∧ j = Z.of_nat k) ∨ (r = -1 ∧ 0 ≤ j < Z.of_nat k ∧ l' = [])).
Proof.
  revert a pa m fl l c. induction k as [|k IH]; intros a pa m fl l c Hi HL Ha Hk Hb Hpa Hpb Hpm Hx Hc;
    [lia|]. assert (MAXVA = 2 ^ 38) as HM by done.
  destruct (mappages_step root a pa perm m fl l L s)
    as (pte & m1 & l1 & W & T1 & K1 & I1 & [Hsp Hsp'] & H); [done..| | |done|].
  { apply Hx; [done|unfold PGSIZE; lia]. }
  { unfold PGSIZE in *; lia. }
  assert (Z.of_nat (length l) ≤ Z.of_nat (length l1) + 2 * c) as Hl1.
  { destruct Hc as [->|[-> E]]; [lia|rewrite Hsp'; done || lia]. }
  assert (0 ≤ crossed a (S k)) as Hcr by (unfold crossed; apply Z.div_pos; [|lia];
    pose proof (Z.mod_pos_bound (a / PGSIZE) 512); lia).
  cbn [mappages_loop]. rewrite (bind_ok _ _ _ _ _ W).
  destruct H as [(-> & -> & Hm)|(Hne & Hv & T2 & K2 & I2 & Hm & Hls)].
  { exists (-1), m1, [], 0. split_and!; [done..|lia|]. right. split_and!; [done|lia|lia|done]. }
  rewrite (proj2 (Z.eqb_neq _ _)) by done. unfold ld_pte, st_pte. krun.
  unfold valid in Hv. rewrite Hv. krun. fold (mkpte pa perm).
  destruct (decide (k = 0%nat)) as [->|Hk0].
  { rewrite (proj2 (Z.eqb_eq _ _)) by lia. eexists 0, _, l1, 1. split_and!; [done..|lia|].
    left. split; [done|lia]. }
  rewrite (proj2 (Z.eqb_neq _ _)) by (unfold PGSIZE; lia).
  rewrite !u64_small by (destruct Ha; unfold PGSIZE in *; lia).
  rewrite (crossed_step a k) in * by (destruct Ha; lia).
  destruct (IH (a + PGSIZE) (pa + PGSIZE) (store64 m1 pte (mkpte pa perm)) (hd 0 l1) l1
      (if decide (a / PGSIZE mod 512 = 511) then 1 else 0))
    as (r & m' & l' & j & R1 & R2 & R3 & R3' & R4 & Rs & R5);
    [done|done| |lia|unfold PGSIZE in *; lia..|done| | |].
  { destruct Ha as [? ?]. split; unfold PGSIZE in *; zlia. }
  { intros va Hva Hr. rewrite Hm by done.
    rewrite decide_False by (unfold PGSIZE in *; lia). apply Hx; [done|].
    unfold PGSIZE in *. lia. }
  { case_decide; [by left|right]. split; [done|]. by apply leaf_slot_next; [apply Ha|apply Ha|..]. }
  replace (a + (Z.of_nat (S k) - 1) * PGSIZE) with (a + PGSIZE + (Z.of_nat k - 1) * PGSIZE)
    by (unfold PGSIZE; lia).
  exists r, m', l', (j + 1). split_and!; [done|done| | | |lia|].
  - by eapply tframe_trans.
  - by eapply taken_trans.
  - eapply mapped_cons; [done..|lia].
  - destruct R5 as [[-> ->]|(-> & ? & ->)]; [left|right]; split_and?; done || lia.
Qed.

Lemma mappages_loop_ok k root a pa perm m fl l L s :
  vm_inv m fl l root → LKmem ∉ L → va_ok a → (0 < k)%nat →
  a + Z.of_nat k * PGSIZE ≤ MAXVA → 0 ≤ pa → pa + Z.of_nat k * PGSIZE ≤ 2 ^ 56 → 0 ≤ perm < 1024 →
  (∀ va, va_ok va → a ≤ va < a + Z.of_nat k * PGSIZE → xlate m root va = None) →
  ∃ r m' l' j, mappages_loop k root a (a + (Z.of_nat k - 1) * PGSIZE) pa perm (setk m fl L s) =
      Ok r (setk m' (hd 0 l') L s) ∧
    vm_inv m' (hd 0 l') l' root ∧ tframe m l m' l' root ∧ taken m l m' l' root ∧ mapped m m' root a pa perm j ∧
    ((r = 0 ∧ j = Z.of_nat k) ∨ (r = -1 ∧ 0 ≤ j < Z.of_nat k ∧ l' = [])).
Proof.
  intros. destruct (mappages_loop_spent k root a pa perm m fl l L s 1)
    as (r & m' & l' & j & ? & ? & ? & ? & ? & _ & ?); try done; [by left|].
  by exists r, m', l', j.
Qed.

(** ** Address spaces

    In a user page table every mapped page is a page of its own: mapped once,
    neither free nor a page-table page. *)
Record uvm_inv (m : memory) (fl : Z) (l : list Z) (root : Z) : Prop := {
  uv_vm : vm_inv m fl l root;
  uv_leaf va v : va_ok va → xlate m root va = Some v →
    page_ok (PTE2PA v) ∧ (PTE2PA v ∉ l) ∧ not_table m root (PTE2PA v);
  uv_inj va va' v v' : va_ok va → va_ok va' → xlate m root va = Some v →
    xlate m root va' = Some v' → PTE2PA v = PTE2PA v' → va = va';
}.

(** Pages free in neither state, and not page-table pages, keep their bytes. *)
Definition pframe (m : memory) (l : list Z) (m' : memory) (l' : list Z) (root : Z) : Prop :=
  ∀ b, page_ok b → b ∉ l → b ∉ l' → not_table m root b →
    (∀ x, b ≤ x < b + PGSIZE → rd m' x = rd m x) ∧ not_table m' root b.

Lemma tframe_pframe m l m' l' root : tframe m l m' l' root → pframe m l m' l' root.
Proof. intros [_ H] b Hb Hl _. by apply H. Qed.

Lemma pframe_refl m l root : pframe m l m l root.
Proof. intros b; auto. Qed.

Lemma pframe_trans m1 l1 m2 l2 m3 l3 root :
  l1 `suffix_of` l2 → l2 `suffix_of` l3 →
  pframe m1 l1 m2 l2 root → pframe m2 l2 m3 l3 root → pframe m1 l1 m3 l3 root.
Proof.
  intros S1 S2 A B b Hb H1 H3 Hn. assert (b ∉ l2) by (by eapply not_in_suffix).
  destruct (A b) as [A1 A2]; [done..|]. destruct (B b) as [B1 B2]; [done..|].
  split; [|done]. intros x Hx. by rewrite B1, A1.
Qed.

Lemma xlate_Some_inv m root va v :
  xlate m root va = Some v →
  ∃ slot, leaf_slot m root va = Some slot ∧ load64 m slot = v ∧ valid v = true.
Proof.
  unfold xlate. destruct (leaf_slot m root va) as [slot|]; [|done]. cbn.
  case_match; [|done]. intros [= <-]. eauto.
Qed.

(** Clearing a leaf PTE keeps an address space well formed. *)
Lemma uvm_inv_clear m fl l root va slot :
  vm_inv m fl l root → leaf_slot m root va = Some slot → va_ok va →
  (∀ va' v, va' ≠ va → va_ok va' → xlate m root va' = Some v →
    page_ok (PTE2PA v) ∧ (PTE2PA v ∉ l) ∧ not_table m root (PTE2PA v)) →
  (∀ va1 va2 v1 v2, va_ok va1 → va_ok va2 → xlate m root va1 = Some v1 →
    xlate m root va2 = Some v2 → PTE2PA v1 = PTE2PA v2 → va1 = va2) →
  uvm_inv (store64 m slot 0) fl l root.
Proof.
  intros Hi Hs Hva Hl Hinj. assert (0 ≤ 0 < 2 ^ 64) as H0 by lia.
  split; [by eapply vm_inv_set_leaf| |].
  - intros va' v Hva'. erewrite xlate_set_leaf by done. case_decide; [done|]. intros Hx.
    destruct (Hl va' v) as (? & ? & Hn); [done..|]. split_and!; [done..|].
    intros q Hq. erewrite node_set_leaf by done. by apply Hn.
  - intros va1 va2 v1 v2 H1 H2. erewrite !xlate_set_leaf by done.
    case_decide; [done|]. case_decide; [done|]. by apply Hinj.
Qed.

(** ** uvmunmap *)

(** The pages unmapping [va] gives back to the allocator. *)
Definition released (do_free : bool) (m : memory) (root va : Z) : list Z :=
  match xlate m root va with
  | Some v => if do_free then [PTE2PA v] else []
  | None => []
  end.

Lemma valid_land v : (Z.land v PTE_V =? 0) = negb (valid v).
Proof. unfold valid, nz. by rewrite negb_involutive. Qed.

(** The page-table pages are the same. *)
Definition same_nodes (m m' : memory) (root : Z) : Prop := ∀ p, path_ok p → node m' root p = node m root p.

Lemma unmap_body_ok do_free root a m fl l L s :
  uvm_inv m fl l root → LKmem ∉ L → va_ok a →
  ∃ m', let l' := (released do_free m root a ++ l) in
    unmap_body do_free root a (setk m fl L s) = Ok () (setk m' (hd 0 l') L s) ∧
    uvm_inv m' (hd 0 l') l' root ∧ pframe m l m' l' root ∧
    (∀ va, va_ok va → xlate m' root va = if decide (va = a) then None else xlate m root va) ∧ same_nodes m m' root.
Proof.
  intros [Hi Hlf Hinj] HL Ha. unfold unmap_body, released.
  rewrite (bind_ok _ _ _ _ _ (walk_lookup root a m fl L s (proj1 Ha))).
  pose proof (flist_head m fl l (ki_list _ _ _ (vi_kmem _ _ _ _ Hi))) as Hfl.
  destruct (xlate m root a) as [v|] eqn:Hx.
  - destruct (xlate_Some_inv _ _ _ _ Hx) as (slot & Hs & Hld & Hv). rewrite Hs.
    change (default 0 (Some slot)) with slot.
    pose proof (leaf_slot_pos _ _ _ _ (vi_pt _ _ _ _ Hi) Hs).
    rewrite (proj2 (Z.eqb_neq _ _)) by lia. unfold ld_pte, st_pte. krun.
    rewrite Hld, valid_land, Hv. cbn [negb].
    destruct (Hlf a v) as (Hp & Hnl & Hnt); [done..|]. destruct do_free; cbn [whenM app hd].
    + destruct (kfree_vm m fl l root L s (PTE2PA v) Hi HL Hp Hnl Hnt) as (Hk & Hi2 & Heq).
      rewrite (bind_ok _ _ _ _ _ Hk). assert (leaf_slot (freed_mem m (PTE2PA v) fl) root a = Some slot) as Hs2
        by (rewrite <- Hs; exact (leaf_slot_frame _ _ _ Heq a)).
      assert (pframe m l (freed_mem m (PTE2PA v) fl) (PTE2PA v :: l) root) as P.
      { intros b Hb Hb1 [Hb2 _]%not_elem_of_cons Hbn.
        split; [|exact (not_table_frame _ _ _ _ Heq Hbn)]. intros x Hxb.
        apply freed_mem_out. destruct (page_ok_sep b (PTE2PA v) Hb Hp Hb2); lia. }
      revert Hi2 Heq Hs2 P. clear Hk. generalize (freed_mem m (PTE2PA v) fl).
      intros m1 Hi2 Heq Hs2 P. eexists (store64 m1 slot 0). split; [by krun|].
      assert (0 ≤ 0 < 2 ^ 64) as H0 by lia. split_and!.
      * eapply uvm_inv_clear; [done..| |].
        -- intros va' v' Hne Hva'. rewrite (xlate_frame m m1 root Heq). intros Hx'.
           destruct (Hlf va' v') as (? & ? & ?); [done..|].
           split_and!; [done| |by eapply not_table_frame].
           apply not_elem_of_cons; split; [|done]. intros E. apply Hne. by eapply Hinj.
        -- intros va1 va2 v1 v2 H1 H2. rewrite !(xlate_frame m m1 root Heq). by apply Hinj.
      * eapply pframe_trans; [by apply suffix_cons_r|done|done|].
        by eapply tframe_pframe, tframe_set_leaf.
      * intros va Hva. erewrite xlate_set_leaf by done. rewrite (xlate_frame m m1 root Heq). done.
      * intros p Hp'. erewrite node_set_leaf by done. by apply node_frame.
    + exists (store64 m slot 0). rewrite <- Hfl. assert (0 ≤ 0 < 2 ^ 64) as H0 by lia. split_and!.
      * by krun.
      * eapply uvm_inv_clear; [done..| |done]. intros va' v' _. apply Hlf.
      * by eapply tframe_pframe, tframe_set_leaf.
      * intros va Hva. by erewrite xlate_set_leaf by done.
      * intros p Hp'. by erewrite node_set_leaf by done.
  - exists m. cbn [app]. rewrite <- Hfl. split_and!.
    + unfold xlate in Hx. destruct (leaf_slot m root a) as [slot|] eqn:Hs; cbn in *; [|done].
      destruct (slot =? 0); [done|]. unfold ld_pte. krun.
      rewrite valid_land. destruct (valid (load64 m slot)); done.
    + done.
    + apply pframe_refl.
    + intros va Hva. case_decide; [by subst|done].
    + by intros p _.
Qed.

(** The pages of [n] virtual pages from [a], in the order they are freed. *)
Fixpoint released_range (do_free : bool) (m : memory) (root a : Z) (n : nat) : list Z :=
  match n with
  | O => []
  | S n => released_range do_free m root (a + PGSIZE) n ++ released do_free m root a
  end.

Lemma released_ext do_free m m' root a n :
  (∀ va, va_ok va → a ≤ va → xlate m' root va = xlate m root va) → va_ok a →
  a + Z.of_nat n * PGSIZE ≤ MAXVA →
  released_range do_free m' root a n = released_range do_free m root a n.
Proof.
  revert a. induction n as [|n IH]; intros a H Ha Hb; [done|]. cbn [released_range].
  unfold released. rewrite H by (done || lia). destruct (decide (n = 0%nat)) as [->|]; [done|].
  rewrite IH; [done| | |unfold PGSIZE in *; lia].
  - intros va Hva Hle. apply H; [done|unfold PGSIZE in *; lia].
  - destruct Ha. split; unfold PGSIZE in *; zlia.
Qed.

Lemma uvmunmap_loop_ok n do_free root a m fl l L s :
  uvm_inv m fl l root → LKmem ∉ L → (n = 0%nat ∨ va_ok a) → 0 ≤ a →
  a + Z.of_nat n * PGSIZE ≤ MAXVA →
  ∃ m', let l' := (released_range do_free m root a n ++ l) in
    uvmunmap_loop (S n) root a (a + Z.of_nat n * PGSIZE) do_free (setk m fl L s) =
      Ok () (setk m' (hd 0 l') L s) ∧
    uvm_inv m' (hd 0 l') l' root ∧ pframe m l m' l' root ∧
    (∀ va, va_ok va → xlate m' root va =
       if decide (a ≤ va < a + Z.of_nat n * PGSIZE) then None else xlate m root va) ∧ same_nodes m m' root.
Proof.
  revert a m fl l. induction n as [|n IH]; intros a m fl l Hi HL Ha Ha0 Hb.
  { exists m. cbn [released_range app]. pose proof (vi_kmem _ _ _ _ (uv_vm _ _ _ _ Hi)) as Hk.
    rewrite <- (flist_head m fl l) by apply Hk. cbn [uvmunmap_loop].
    rewrite (proj2 (Z.ltb_ge _ _)) by lia. split_and!; [done|done|apply pframe_refl| |by intros p _].
    intros va Hva. by rewrite decide_False by lia. }
  destruct Ha as [?|Ha]; [lia|].
  assert (MAXVA = 2 ^ 38) as HM by done. remember (S n) as n1 eqn:En. cbn [uvmunmap_loop].
  rewrite (proj2 (Z.ltb_lt _ _)) by (unfold PGSIZE in *; lia).
  destruct (unmap_body_ok do_free root a m fl l L s) as (m1 & H1 & H2 & H3 & H4 & H5); [done..|].
  erewrite bind_ok by exact H1. rewrite u64_small by (unfold PGSIZE in *; lia). subst n1.
  assert (n = 0%nat ∨ va_ok (a + PGSIZE)) as Ha'.
  { destruct n; [by left|right]. destruct Ha. split; unfold PGSIZE in *; zlia. }
  destruct (IH (a + PGSIZE) m1 (hd 0 (released do_free m root a ++ l)) (released do_free m root a ++ l))
    as (m' & R1 & R2 & R3 & R4 & R5); [done|done|done|unfold PGSIZE in *; lia..|].
  replace (a + Z.of_nat (S n) * PGSIZE) with (a + PGSIZE + Z.of_nat n * PGSIZE)
    by (unfold PGSIZE; lia).
  assert (released_range do_free m1 root (a + PGSIZE) n = released_range do_free m root (a + PGSIZE) n) as Er.
  { destruct n; [done|]. apply released_ext; [|by destruct Ha'|unfold PGSIZE in *; lia].
    intros va Hva Hle. rewrite H4, decide_False by (done || unfold PGSIZE in *; lia). done. }
  exists m'. cbn [released_range]. rewrite <- app_assoc, <- Er. split_and!; [done|done| | |intros p Hp; by rewrite R5, H5].
  - eapply pframe_trans; [..|done|done]; by apply suffix_app_r.
  - intros va Hva. rewrite R4, H4 by done. unfold PGSIZE in *.
    destruct (decide (va = a)) as [->|Hne]; repeat case_decide; try done; try lia.
    assert (a + PGSIZE ≤ va) by (apply va_ok_step; done || lia). unfold PGSIZE in *. lia.
Qed.

(** ** Giving a process a new page *)

(** A page that belongs to nobody: not free, not a page-table page, not mapped. *)
Record fresh_page (m : memory) (l : list Z) (root pg : Z) : Prop := {
  fp_page : page_ok pg;
  fp_free : pg ∉ l;
  fp_table : not_table m root pg;
  fp_unmapped va v : va_ok va → xlate m root va = Some v → PTE2PA v ≠ pg;
}.

Lemma uvm_inv_frame m fl l m' fl' l' root :
  uvm_inv m fl l root → vm_inv m' fl' l' root → l' `suffix_of` l →
  (∀ b, page_ok b → b ∉ l → not_table m root b → not_table m' root b) →
  (∀ va, va_ok va → xlate m' root va = xlate m root va) → uvm_inv m' fl' l' root.
Proof.
  intros [Hi Hlf Hinj] Hi' Hs Hn Hx. split; [done| |].
  - intros va v Hva. rewrite Hx by done. intros E. destruct (Hlf va v Hva E) as (? & ? & ?).
    split_and!; [done|by eapply not_in_suffix|by apply Hn].
  - intros va va' v v' H1 H2. rewrite !Hx by done. by apply Hinj.
Qed.

Lemma memset0_page m pg root fl l :
  vm_inv m fl l root → page_ok pg → pg ∉ l → not_table m root pg →
  tables_eq m (memset m pg 0 PGSIZE) root ∧ vm_inv (memset m pg 0 PGSIZE) fl l root.
Proof.
  intros Hi Hp Hl Hn.
  assert (∀ x, ¬ (pg ≤ x < pg + PGSIZE) → rd (memset m pg 0 PGSIZE) x = rd m x) as Hout
    by (intros; apply rd_memset_out; lia).
  assert (bytes_ok (memset m pg 0 PGSIZE)) as Hb
    by (apply bytes_ok_memset, (ki_bytes _ _ _ (vi_kmem _ _ _ _ Hi))).
  revert Hout Hb. generalize (memset m pg 0 PGSIZE). intros m1 Hout Hb.
  assert (tables_eq m m1 root) as Heq by (eapply tables_eq_page; [apply Hi|done..]).
  split; [done|]. eapply vm_inv_frame; [done..| |by intros b p; apply Hi].
  eapply kmem_inv_mem; [apply Hi|done|]. intros p a Hpl Ha. apply Hout.
  assert (page_ok p) by (eapply kmem_inv_page; [apply Hi|done]).
  destruct (page_ok_sep p pg); [done..|by intros ->|lia|lia].
Qed.

(** [kalloc] followed by [memset(mem, 0, PGSIZE)]: a fresh zeroed page, and the
    address space is unchanged. *)
Lemma kalloc_zeroed m fl pg l root L s :
  uvm_inv m fl (pg :: l) root → LKmem ∉ L →
  ∃ m1 m2, kalloc (setk m fl L s) = Ok pg (setk m1 (hd 0 l) L s) ∧
    m2 = memset m1 pg 0 PGSIZE ∧ uvm_inv m2 (hd 0 l) l root ∧ fresh_page m2 l root pg ∧
    (∀ va, xlate m2 root va = xlate m root va) ∧
    (∀ x, rd m2 x = if decide (pg ≤ x < pg + PGSIZE) then 0 else rd m x) ∧
    tframe m (pg :: l) m2 l root.
Proof.
  intros Hu HL. pose proof (kalloc_vm m fl (pg :: l) root L s (uv_vm _ _ _ _ Hu) HL) as Hk.
  cbn zeta in Hk. destruct Hk as (Hk & Hi1 & Heq & Hp & Hnt & Hnl).
  assert (∀ x, ¬ (pg ≤ x < pg + PGSIZE) → rd (memset m pg 5 PGSIZE) x = rd m x) as Hout
    by (intros; apply rd_memset_out; lia).
  revert Hk Hi1 Heq Hout. generalize (memset m pg 5 PGSIZE). intros m1 Hk Hi1 Heq Hout.
  destruct (memset0_page m1 pg root (hd 0 l) l) as [Heq2 Hi2];
    [done..|by eapply not_table_frame|].
  exists m1, (memset m1 pg 0 PGSIZE). split; [exact Hk|]. split; [reflexivity|].
  assert (∀ x, rd (memset m1 pg 0 PGSIZE) x = if decide (pg ≤ x < pg + PGSIZE) then 0 else rd m x) as Hrd.
  { intros x. case_decide.
    - rewrite rd_memset_in by lia. done.
    - rewrite rd_memset_out by lia. by apply Hout. }
  revert Heq2 Hi2 Hrd. generalize (memset m1 pg 0 PGSIZE). intros m2 Heq2 Hi2 Hrd.
  assert (∀ va, xlate m2 root va = xlate m root va) as Hx
    by (intros va; rewrite (xlate_frame m1 m2 root Heq2); by apply xlate_frame).
  assert (∀ b, not_table m root b → not_table m2 root b) as Hnt2
    by (intros b Hb; do 2 (eapply not_table_frame; [done|]); done).
  split_and!; [| |done|done|].
  - eapply uvm_inv_frame; [done|done|by apply suffix_cons_r|auto|auto].
  - split; [done..|by apply Hnt2|]. intros va v Hva. rewrite Hx. intros E <-.
    destruct (uv_leaf _ _ _ _ Hu va v Hva E) as (_ & Hn & _). apply Hn. by left.
  - split; [by apply suffix_cons_r|]. intros b Hb [Hbp _]%not_elem_of_cons Hbn.
    split; [|by apply Hnt2]. intros x Hx'. rewrite Hrd, decide_False; [done|].
    destruct (page_ok_sep b pg); [done..|lia|lia].
Qed.

(** Mapping a fresh page in an address space. *)
Lemma map_fresh root a pg perm m fl l L s :
  uvm_inv m fl l root → LKmem ∉ L → va_ok a → xlate m root a = None →
  fresh_page m l root pg → 0 ≤ perm < 1024 →
  ∃ r m' l' j, mappages root a PGSIZE pg perm (setk m fl L s) = Ok r (setk m' (hd 0 l') L s) ∧
    uvm_inv m' (hd 0 l') l' root ∧ tframe m l m' l' root ∧ mapped m m' root a pg perm j ∧
    (taken m l m' l' root ∧ (length l ≤ length l' + 2)%nat) ∧
    ((r = 0 ∧ j = 1) ∨ (r = -1 ∧ j = 0 ∧ l' = [] ∧ fresh_page m' l' root pg)).
Proof.
  intros Hu HL Ha Hx [Hp Hfl Hpt Hum] Hpm. destruct Hp as [Hal Hr].
  assert (MAXVA = 2 ^ 38 ∧ PHYSTOP < 2 ^ 56 - PGSIZE) as [HM HP] by done.
  assert (a + PGSIZE ≤ MAXVA) as HaM by (destruct Ha; unfold PGSIZE in *; zlia).
  destruct (mappages_loop_spent 1 root a pg perm m fl l L s 1)
    as (r & m' & l' & j & H1 & H2 & H3 & H3' & H4 & Hsp & H5);
    [apply Hu|done|done|lia|unfold PGSIZE in *; lia|lia| |done| |by left|].
  { unfold PGSIZE in *. lia. }
  { intros va Hva Hv. assert (va = a) as ->; [|done]. destruct (decide (va = a)); [done|].
    assert (a + PGSIZE ≤ va) by (apply va_ok_step; done || lia). lia. }
  change (Z.of_nat 1) with 1 in *.
  exists r, m', l', j. split.
  { unfold mappages. rewrite (proj2 Ha). cbn [negb Z.eqb]. change (PGSIZE mod PGSIZE =? 0) with true.
    change (PGSIZE =? 0) with false. cbn [negb]. change (Z.to_nat (PGSIZE / PGSIZE)) with 1%nat.
    rewrite u64_small by (destruct Ha; unfold PGSIZE in *; lia).
    replace (a + PGSIZE - PGSIZE) with (a + (1 - 1) * PGSIZE) by lia. exact H1. }
  assert (∀ b, page_ok b → b ∉ l → not_table m root b → not_table m' root b) as Hnt
    by (intros; by eapply tf_frame).
  assert (PTE2PA (mkpte pg perm) = pg) as Epa by (apply mkpte_pa; [unfold PGSIZE in *; lia|done..]).
  assert (∀ va, va_ok va → xlate m' root va =
    if decide (va = a ∧ j = 1) then Some (mkpte pg perm) else xlate m root va) as Hx'.
  { intros va Hva. rewrite H4 by done. destruct (decide (va = a)) as [->|Hne].
    - destruct H5 as [[_ ->]|(_ & ? & _)]; [rewrite !decide_True by (done || unfold PGSIZE; lia)|].
      + by rewrite Z.sub_diag, Z.add_0_r.
      + rewrite !decide_False by (unfold PGSIZE in *; lia). done.
    - rewrite (decide_False (P := va = a ∧ j = 1)) by tauto. rewrite decide_False; [done|].
      intros ?. assert (a + PGSIZE ≤ va) by (apply va_ok_step; done || lia).
      destruct H5 as [[_ ->]|(_ & ? & _)]; unfold PGSIZE in *; lia. }
  assert (l' `suffix_of` l) as Hs by apply H3.
  assert (crossed a 1 = 0) as Hc by (unfold crossed; apply Z.div_small; pose proof (Z.mod_pos_bound (a / PGSIZE) 512); lia).
  split_and!; [split; [done| |]|done|done|done|lia|].
  - intros va v Hva. rewrite Hx' by done.
    destruct (decide (va = a ∧ j = 1)) as [Hd|Hd].
    + intros E. injection E as <-. rewrite Epa. split_and!; [done|by eapply not_in_suffix|by apply Hnt].
    + intros E. destruct (uv_leaf _ _ _ _ Hu va v Hva E) as (? & ? & ?).
      split_and!; [done|by eapply not_in_suffix|by apply Hnt].
  - intros va va' v v' H6 H7. rewrite !Hx' by done.
    destruct (decide (va = a ∧ j = 1)) as [D1|D1], (decide (va' = a ∧ j = 1)) as [D2|D2]; intros E1 E2; simplify_eq; rewrite ?Epa.
    + intros _. destruct D1, D2. congruence.
    + intros E. by destruct (Hum va' v').
    + intros E. by destruct (Hum va v).
    + by eapply (uv_inj _ _ _ _ Hu).
  - destruct H5 as [[-> ->]|(-> & ? & ->)]; [by left|right]. split_and!; [done|lia|done|].
    split; [done|apply not_elem_of_nil|by apply Hnt|]. intros va v Hva. rewrite Hx' by done.
    rewrite decide_False by lia. by apply Hum.
Qed.

(** ** uvmdealloc and uvmalloc *)

(** The translations of [m'] are those of [m] without [a, b). *)
Definition unmapped (m m' : memory) (root a b : Z) : Prop :=
  ∀ va, va_ok va → xlate m' root va = if decide (a ≤ va < b) then None else xlate m root va.

Lemma page_count a b : a mod PGSIZE = 0 → b mod PGSIZE = 0 → a ≤ b →
  b = a + Z.of_nat (Z.to_nat ((b - a) / PGSIZE)) * PGSIZE.
Proof. unfold PGSIZE. intros. rewrite Z2Nat.id; zlia. Qed.

Lemma uvmunmap_ok do_free root a n m fl l L s :
  uvm_inv m fl l root → LKmem ∉ L → a mod PGSIZE = 0 → 0 ≤ a → 0 ≤ n → a + n * PGSIZE ≤ MAXVA →
  ∃ m', let l' := (released_range do_free m root a (Z.to_nat n) ++ l) in
    uvmunmap root a n do_free (setk m fl L s) = Ok () (setk m' (hd 0 l') L s) ∧
    uvm_inv m' (hd 0 l') l' root ∧ pframe m l m' l' root ∧ unmapped m m' root a (a + n * PGSIZE) ∧ same_nodes m m' root.
Proof.
  intros Hi HL Hal Ha Hn Hb. assert (MAXVA = 2 ^ 38) as HM by done.
  destruct (uvmunmap_loop_ok (Z.to_nat n) do_free root a m fl l L s) as (m' & H1 & H2 & H3 & H4 & H5);
    [done|done| |done|rewrite Z2Nat.id by lia; done|].
  { destruct (decide (n = 0)) as [->|]; [by left|right]. split; [unfold PGSIZE in *; lia|done]. }
  exists m'. rewrite !Z2Nat.id in * by lia. split_and!; [|done..].
  unfold uvmunmap. rewrite Hal. cbn [negb Z.eqb].
  rewrite !u64_small by (rewrite ?u64_small; unfold PGSIZE in *; lia). exact H1.
Qed.

Lemma uvmdealloc_ok root oldsz newsz m fl l L s :
  uvm_inv m fl l root → LKmem ∉ L → 0 ≤ newsz < 2 ^ 64 - PGSIZE → 0 ≤ oldsz ≤ MAXVA →
  ∃ m' l', uvmdealloc root oldsz newsz (setk m fl L s) =
      Ok (Z.min oldsz newsz) (setk m' (hd 0 l') L s) ∧
    uvm_inv m' (hd 0 l') l' root ∧ l `suffix_of` l' ∧
    unmapped m m' root (PGROUNDUP newsz) (PGROUNDUP oldsz).
Proof.
  intros Hi HL Hn Ho. assert (MAXVA = 2 ^ 38) as HM by done.
  pose proof (vi_kmem _ _ _ _ (uv_vm _ _ _ _ Hi)) as Hk. unfold uvmdealloc.
  assert (∃ m' l', whenM (PGROUNDUP newsz <? PGROUNDUP oldsz)
      (uvmunmap root (PGROUNDUP newsz)
         (u64 (s32 (u64 (PGROUNDUP oldsz - PGROUNDUP newsz) / PGSIZE))) true) (setk m fl L s) =
      Ok () (setk m' (hd 0 l') L s) ∧ uvm_inv m' (hd 0 l') l' root ∧ l `suffix_of` l' ∧
      unmapped m m' root (PGROUNDUP newsz) (PGROUNDUP oldsz)) as (m' & l' & H1 & H2).
  { destruct (PGROUND_spec newsz) as (_ & Hna & _ & Hnr); [lia|].
    destruct (PGROUND_spec oldsz) as (_ & Hoa & _ & Hor); [unfold PGSIZE in *; lia|].
    destruct (_ <? _) eqn:E; zbool; cbn [whenM].
    - assert (u64 (s32 (u64 (PGROUNDUP oldsz - PGROUNDUP newsz) / PGSIZE)) =
              (PGROUNDUP oldsz - PGROUNDUP newsz) / PGSIZE) as ->.
      { rewrite (u64_small (_ - _)) by (unfold PGSIZE in *; lia).
        rewrite s32_small, u64_small by (unfold PGSIZE in *; zlia). done. }
      assert (PGROUNDUP oldsz ≤ MAXVA) by (unfold PGSIZE in *; zlia).
      destruct (uvmunmap_ok true root (PGROUNDUP newsz)
        ((PGROUNDUP oldsz - PGROUNDUP newsz) / PGSIZE) m fl l L s) as (m' & H1 & H2 & H3 & H4 & _);
        [done|done|done|unfold PGSIZE in *; zlia..|].
      exists m'. eexists. split_and!; [exact H1|done|by apply suffix_app_r|].
      replace (PGROUNDUP oldsz) with
        (PGROUNDUP newsz + (PGROUNDUP oldsz - PGROUNDUP newsz) / PGSIZE * PGSIZE); [done|].
      unfold PGSIZE in *. zlia.
    - exists m, l. rewrite <- (flist_head m fl l) by apply Hk. split_and!; [done..|].
      intros va Hva. rewrite decide_False; [done|lia]. }
  destruct (oldsz <=? newsz) eqn:E; zbool.
  - exists m, l. rewrite <- (flist_head m fl l), Z.min_l by (done || apply Hk).
    split_and!; [done..|]. intros va Hva. rewrite decide_False; [done|].
    rewrite !PGROUNDUP_small by (unfold PGSIZE in *; lia). unfold PGSIZE in *. zlia.
  - exists m', l'. cbn zeta. rewrite (bind_ok _ _ _ _ _ H1), Z.min_r by lia. done.
Qed.

(** What a completed or a failed [uvmalloc] from [a] to [b] leaves. *)
Definition uvmalloc_done (m : memory) (l : list Z) (m' : memory) (root a b perm : Z) : Prop :=
  ∀ va, va_ok va →
    if decide (a ≤ va < b) then
      ∃ pg, pg ∈ l ∧ xlate m' root va = Some (mkpte pg perm) ∧ ∀ x, pg ≤ x < pg + PGSIZE → rd m' x = 0
    else xlate m' root va = xlate m root va.

(** Giving a fresh page back. *)
Lemma kfree_fresh root pg m fl l L s :
  uvm_inv m fl l root → LKmem ∉ L → fresh_page m l root pg →
  ∃ m', kfree pg (setk m fl L s) = Ok () (setk m' (hd 0 (pg :: l)) L s) ∧
    uvm_inv m' pg (pg :: l) root ∧ ∀ va, xlate m' root va = xlate m root va.
Proof.
  intros Hu HL [Hp Hfl Hpt Hum].
  destruct (kfree_vm m fl l root L s pg (uv_vm _ _ _ _ Hu) HL Hp Hfl Hpt) as (Hk & Hi & Heq).
  revert Hk Hi Heq. generalize (freed_mem m pg fl). intros m' Hk Hi Heq.
  assert (∀ va, xlate m' root va = xlate m root va) as Hx by (by apply xlate_frame).
  exists m'. split_and!; [done| |done]. split; [done| |].
  - intros va v Hva. rewrite Hx. intros E.
    destruct (uv_leaf _ _ _ _ Hu va v Hva E) as (? & ? & ?). split_and!; [done| |by eapply not_table_frame].
    apply not_elem_of_cons; split; [by eapply Hum|done].
  - intros va va' v v' H1 H2. rewrite !Hx. by apply (uv_inj _ _ _ _ Hu).
Qed.

(** The failure path of [uvmalloc]: unmap what was mapped so far. *)
Lemma uvmalloc_rollback root a old m fl l L s :
  uvm_inv m fl l root → LKmem ∉ L → 0 ≤ old ≤ a → old mod PGSIZE = 0 → a mod PGSIZE = 0 → a ≤ MAXVA →
  ∃ m' l', (uvmdealloc root a old;; mret 0) (setk m fl L s) = Ok 0 (setk m' (hd 0 l') L s) ∧
    uvm_inv m' (hd 0 l') l' root ∧ unmapped m m' root old a.
Proof.
  intros Hu HL Hoa Ho Ha HaM. assert (MAXVA = 2 ^ 38) as HM by done.
  destruct (uvmdealloc_ok root a old m fl l L s) as (m' & l' & H1 & H2 & _ & H4);
    [done|done|unfold PGSIZE in *; lia|lia|].
  rewrite !PGROUNDUP_aligned in H4 by (done || lia).
  exists m', l'. rewrite (bind_ok _ _ _ _ _ H1). done.
Qed.

Lemma uvmalloc_loop_ok fuel root a old newsz xperm m fl l L s :
  uvm_inv m fl l root → LKmem ∉ L → 0 ≤ old ≤ a → old mod PGSIZE = 0 → a mod PGSIZE = 0 →
  a ≤ MAXVA → newsz ≤ MAXVA → 0 ≤ xperm < 1024 →
  (∀ va, va_ok va → a ≤ va < newsz → xlate m root va = None) →
  (Z.to_nat ((newsz - a + PGSIZE - 1) / PGSIZE) < fuel)%nat →
  ∃ r m' l', uvmalloc_loop fuel root a old newsz xperm (setk m fl L s) =
      Ok r (setk m' (hd 0 l') L s) ∧ uvm_inv m' (hd 0 l') l' root ∧
    ((r = newsz ∧ uvmalloc_done m l m' root a newsz (Z.lor (Z.lor PTE_R PTE_U) xperm) ∧
      tframe m l m' l' root) ∨
     (r = 0 ∧ unmapped m m' root old a)).
Proof.
  assert (MAXVA = 2 ^ 38) as HM by done.
  revert a m fl l. induction fuel as [|fuel IH];
    intros a m fl l Hu HL Hoa Ho Ha HaM HnM Hxp Hx Hf; [lia|].
  pose proof (vi_kmem _ _ _ _ (uv_vm _ _ _ _ Hu)) as Hk. cbn [uvmalloc_loop].
  destruct (a <? newsz) eqn:E; zbool.
  2:{ exists newsz, m, l. rewrite <- (flist_head m fl l) by apply Hk. split_and!; [done..|].
      left. split_and!; [done| |apply tframe_refl]. intros va Hva. rewrite decide_False; [done|lia]. }
  assert (va_ok a) as Hva by (split; [lia|done]).
  set (perm := Z.lor (Z.lor PTE_R PTE_U) xperm).
  assert (0 ≤ perm < 1024) as Hpm by (unfold perm; by apply lor_1024).
  destruct l as [|pg l1].
  { rewrite (bind_ok _ _ _ _ _ (kalloc_vm m fl [] root L s (uv_vm _ _ _ _ Hu) HL)). cbn [Z.eqb].
    destruct (uvmalloc_rollback root a old m fl [] L s) as (m' & l' & H1 & H2 & H3); [done..|].
    exists 0, m', l'. split_and!; [done..|]. by right. }
  destruct (kalloc_zeroed m fl pg l1 root L s Hu HL)
    as (m1 & m2 & K1 & K2 & K3 & K4 & K5 & K6 & K7).
  rewrite (bind_ok _ _ _ _ _ K1).
  rewrite (proj2 (Z.eqb_neq pg 0)) by (pose proof (fp_page _ _ _ _ K4) as [_ ?]; lia).
  krun. rewrite <- K2. clear K1 K2 m1.
  destruct (map_fresh root a pg perm m2 (hd 0 l1) l1 L s) as (r & m3 & l3 & j & M1 & M2 & M3 & M4 & _ & M5);
    [done|done|done|rewrite K5; apply Hx; done || lia|done|done|].
  rewrite (bind_ok _ _ _ _ _ M1).
  destruct M5 as [[-> ->]|(-> & -> & -> & Hfr)]; cbn [Z.eqb negb].
  - rewrite u64_small by (unfold PGSIZE in *; lia).
    destruct (IH (a + PGSIZE) m3 (hd 0 l3) l3) as (r & m' & l' & R1 & R2 & R3);
      [done|done|unfold PGSIZE in *; lia|done|unfold PGSIZE in *; zlia|
       unfold PGSIZE in *; zlia|done|done| |unfold PGSIZE in *; zlia|].
    { intros va Hv Hr. rewrite M4, decide_False by (done || unfold PGSIZE in *; lia).
      rewrite K5. apply Hx; [done|unfold PGSIZE in *; lia]. }
    exists r, m', l'. split_and!; [done..|]. destruct R3 as [(-> & R3 & R4)|[-> R3]].
    + left. split; [done|]. assert (tframe m (pg :: l1) m3 l3 root) as T by (by eapply tframe_trans).
      split; [|by eapply tframe_trans].
      intros va Hv. specialize (R3 va Hv). destruct (decide (va = a)) as [->|Hne].
      * rewrite decide_True by done. rewrite decide_False in R3 by (unfold PGSIZE; lia).
        destruct (tf_frame _ _ _ _ _ M3 pg) as [F1 F2]; [apply K4..|].
        destruct (tf_frame _ _ _ _ _ R4 pg) as [F3 _];
          [apply K4|eapply not_in_suffix; [apply M3|apply K4]|done|].
        exists pg. split_and!; [by left| |intros x Hxx; by rewrite F3, F1, K6, decide_True].
        rewrite R3, M4, decide_True by (done || unfold PGSIZE; lia). by rewrite Z.sub_diag, Z.add_0_r.
      * destruct (decide (a ≤ va < newsz)) as [Hin|Hout].
        -- rewrite decide_True in R3 by (split; [apply va_ok_step; done || lia|lia]).
           destruct R3 as (pg' & Hp' & ? & ?). exists pg'. split_and!; [|done..].
           right. destruct M3 as [[k ->] _]. apply elem_of_app. by right.
        -- rewrite decide_False in R3 by (unfold PGSIZE; lia).
           rewrite R3, M4, K5 by done. rewrite decide_False; [done|]. intros ?.
           assert (a + PGSIZE ≤ va) by (apply va_ok_step; done || lia). lia.
    + right. split; [done|]. intros va Hv. rewrite R3, M4, K5 by done.
      destruct (decide (va = a)) as [->|Hne].
      * rewrite decide_True, decide_False by (unfold PGSIZE; lia). by rewrite Hx by (done || lia).
      * destruct (decide (old ≤ va < a)); [by rewrite decide_True by (unfold PGSIZE; lia)|].
        assert (va < a ∨ a + PGSIZE ≤ va).
        { destruct (decide (va < a)); [by left|right]. apply va_ok_step; done || lia. }
        rewrite !decide_False by (unfold PGSIZE in *; lia). done.
  - destruct (kfree_fresh root pg m3 (hd 0 []) [] L s M2 HL Hfr) as (m4 & F1 & F2 & F3).
    destruct (uvmalloc_rollback root a old m4 pg [pg] L s) as (m' & l' & H1 & H2 & H3); [done..|].
    exists 0, m', l'. rewrite (bind_ok _ _ _ _ _ F1). split_and!; [exact H1|done|].
    right. split; [done|]. intros va Hv. rewrite H3, F3, M4, K5 by done.
    rewrite (decide_False (P := a ≤ va < a + 0 * PGSIZE)) by lia. done.
Qed.

Lemma vm_inv_empty m fl l root :
  kmem_inv m fl l → page_ok root → root ∉ l →
  (∀ x, root ≤ x < root + PGSIZE → rd m x = 0) →
  uvm_inv m fl l root ∧ ∀ va, xlate m root va = None.
Proof.
  intros Hk Hr Hl Hz.
  assert (∀ p, Forall idx_ok p → p ≠ [] → node m root p = None) as Hn.
  { intros [|i p] Hp; [done|]. intros _. cbn [node]. inversion Hp; subst.
    rewrite load64_zero; [done|]. intros b Hb. apply Hz. unfold idx_ok, PGSIZE in *. lia. }
  assert (∀ p a, path_ok p → node m root p = Some a → p = [] ∧ a = root) as Hnn.
  { intros [|i p] a [_ Hp] E; [cbn in E; by simplify_eq|]. by rewrite Hn in E. }
  assert (∀ va, xlate m root va = None) as Hx.
  { intros va. unfold xlate, leaf_slot. rewrite Hn; [done|apply walk_path_ok|done]. }
  split; [|done]. split; [split; [done|split|]| |].
  - intros p q a Hp Hq [-> ->]%Hnn [-> _]%Hnn; done.
  - intros p a Hp [-> ->]%Hnn; done.
  - intros p a i Hp _ Hi [-> ->]%Hnn; [|done]. rewrite load64_zero; [done|]. intros b Hb. apply Hz. unfold idx_ok, PGSIZE in *. lia.
  - intros i Hi. rewrite load64_zero; [done|]. intros b Hb. apply Hz. unfold PGSIZE in *. lia.
  - intros p a Hp [-> ->]%Hnn; done.
  - intros va v _. by rewrite Hx.
  - intros va va' v v' _ _. by rewrite Hx.
Qed.
