(* ===== verification/VmCopy.v ===== *)
(** * kernel/vm.c: copying between kernel and user memory, and the claims

    [uread m root va] is the byte a user program reads at [va] under the page
    table [root].  [copyout] is a write to that view and [copyin] a read of
    it.  The claims on page tables close the file. *)

From S2P Require Import Prelude Riscv Kstate CString Kalloc Vm VmProps.

(** ** Byte lists in memory *)

Lemma rd_wr_list m a l x :
  rd (wr_list m a l) x =
  if decide (a ≤ x < a + Z.of_nat (length l)) then u8 (l !!! Z.to_nat (x - a)) else rd m x.
Proof.
  revert m a. induction l as [|c l IH]; intros m a; cbn [wr_list length].
  { by rewrite decide_False by lia. }
  rewrite IH, rd_wr. repeat case_decide; try done; try lia.
  - replace (Z.to_nat (x - a)) with (S (Z.to_nat (x - (a + 1)))) by lia. done.
  - subst. by rewrite Z.sub_diag.
Qed.

Lemma bytes_ok_wr_list m a l : bytes_ok m → bytes_ok (wr_list m a l).
Proof. revert m a. induction l; intros m a' H; cbn [wr_list]; auto with cint. Qed.

Lemma rd_list_eq n m a : rd_list n m a = (λ i, rd m (a + i)) <$> seqZ 0 (Z.of_nat n).
Proof.
  revert a. induction n as [|n IH]; intros a; [done|]. cbn [rd_list].
  rewrite seqZ_cons by lia. replace (Z.pred (Z.of_nat (S n))) with (Z.of_nat n) by lia.
  rewrite fmap_cons, Z.add_0_r, IH. f_equal. change (Z.succ 0) with (1 + 0).
  rewrite <- fmap_add_seqZ, <- list_fmap_compose. apply list_fmap_ext. intros i x _. cbn.
  f_equal. lia.
Qed.

(** ** User memory *)

Definition pgoff (va : Z) : Z := va - PGROUNDDOWN va.

Definition upa (m : memory) (root va : Z) : option Z :=
  (λ v, PTE2PA v + pgoff va) <$> xlate m root (PGROUNDDOWN va).
Definition uread (m : memory) (root va : Z) : option Z := rd m <$> upa m root va.

(** The page of [va] is mapped for user access, for writing if [w]. *)
Definition uaccess (m : memory) (root va : Z) (w : bool) : Prop :=
  ∃ v, xlate m root (PGROUNDDOWN va) = Some v ∧ Z.land v PTE_U ≠ 0 ∧ (w = true → Z.land v PTE_W ≠ 0).

Lemma pgoff_range va : 0 ≤ pgoff va < PGSIZE.
Proof. unfold pgoff. rewrite PGROUNDDOWN_eq. unfold PGSIZE. zlia. Qed.

Lemma va_ok_down va : 0 ≤ va < MAXVA → va_ok (PGROUNDDOWN va).
Proof.
  intros H. rewrite PGROUNDDOWN_eq. assert (MAXVA = 2 ^ 38) by done.
  split; unfold PGSIZE in *; zlia.
Qed.

Lemma PGROUNDDOWN_in va0 va :
  va0 mod PGSIZE = 0 → va0 ≤ va < va0 + PGSIZE → PGROUNDDOWN va = va0.
Proof. intros H1 H2. rewrite PGROUNDDOWN_eq. unfold PGSIZE in *. zlia. Qed.

(** Writing bytes within one mapped page. *)
Section chunk.
Context (m : memory) (fl : Z) (l : list Z) (root dst v : Z) (c : list Z).
Context (Hu : uvm_inv m fl l root) (Hd : 0 ≤ dst < MAXVA)
  (Hv : xlate m root (PGROUNDDOWN dst) = Some v)
  (Hlen : pgoff dst + Z.of_nat (length c) ≤ PGSIZE).
Let m1 := wr_list m (PTE2PA v + pgoff dst) c.

Lemma chunk_out x : ¬ (PTE2PA v ≤ x < PTE2PA v + PGSIZE) → rd m1 x = rd m x.
Proof using All.
  intros H. unfold m1. rewrite rd_wr_list, decide_False; [done|].
  pose proof (pgoff_range dst). lia.
Qed.

Lemma chunk_tables : tables_eq m m1 root.
Proof using All.
  destruct (uv_leaf _ _ _ _ Hu _ _ (va_ok_down _ Hd) Hv) as (Hp & _ & Hn).
  eapply tables_eq_page; [apply Hu|done|done|]. apply chunk_out.
Qed.

Lemma chunk_inv : uvm_inv m1 fl l root.
Proof using All.
  pose proof chunk_tables as Heq.
  destruct (uv_leaf _ _ _ _ Hu _ _ (va_ok_down _ Hd) Hv) as (Hp & Hnl & Hn).
  eapply uvm_inv_frame; [done| |done| |].
  - eapply vm_inv_frame; [done|apply Hu| |intros b p; apply Hu].
    eapply kmem_inv_mem; [apply Hu|apply bytes_ok_wr_list, Hu|].
    intros p a Hpl Ha. apply chunk_out.
    assert (page_ok p) by (eapply kmem_inv_page; [apply Hu|done]).
    destruct (page_ok_sep p (PTE2PA v)); [done..|by intros ->|lia|lia].
  - intros b _ _. by apply not_table_frame.
  - intros va _. by apply xlate_frame.
Qed.

Lemma chunk_uread va :
  0 ≤ va < MAXVA → uread m1 root va =
    if decide (dst ≤ va < dst + Z.of_nat (length c)) then Some (u8 (c !!! Z.to_nat (va - dst)))
    else uread m root va.
Proof using All.
  intros Hva. pose proof chunk_tables as Heq. unfold uread, upa.
  rewrite (xlate_frame _ _ _ Heq). pose proof (pgoff_range dst). pose proof (pgoff_range va).
  pose proof (va_ok_down dst Hd) as Hd'. pose proof (va_ok_down va Hva) as Hva'.
  destruct (decide (PGROUNDDOWN va = PGROUNDDOWN dst)) as [E|Hne].
  - rewrite E, Hv. cbn [fmap option_fmap option_map]. unfold m1. rewrite rd_wr_list.
    assert (pgoff va - pgoff dst = va - dst) as Eo by (unfold pgoff; lia).
    repeat case_decide; try lia; [|done]. do 3 f_equal. lia.
  - rewrite (decide_False (P := dst ≤ va < _)).
    2:{ intros ?. apply Hne. apply PGROUNDDOWN_in; [apply Hd'|]. unfold pgoff in *. lia. }
    destruct (xlate m root (PGROUNDDOWN va)) as [v'|] eqn:E; [|done].
    cbn [fmap option_fmap option_map]. f_equal. apply chunk_out.
    destruct (uv_leaf _ _ _ _ Hu _ _ Hd' Hv) as (Hp & _). destruct (uv_leaf _ _ _ _ Hu _ _ Hva' E) as (Hp' & _).
    destruct (page_ok_sep (PTE2PA v') (PTE2PA v)); [done..| |lia|lia].
    intros Epa. apply Hne. by eapply (uv_inj _ _ _ _ Hu).
Qed.
End chunk.

(** ** walkaddr *)

Lemma walkaddr_ok root va m fl L s :
  pt_wf m root → 0 ≤ va < MAXVA →
  walkaddr root va (setk m fl L s) =
  Ok (match xlate m root va with
      | Some v => if Z.land v PTE_U =? 0 then 0 else PTE2PA v
      | None => 0
      end) (setk m fl L s).
Proof.
  intros Hw Hva. unfold walkaddr. rewrite (proj2 (Z.leb_gt _ _)) by lia.
  rewrite (bind_ok _ _ _ _ _ (walk_lookup root va m fl L s Hva)). unfold xlate.
  destruct (leaf_slot m root va) as [slot|] eqn:Es; [|done].
  change (default 0 (Some slot)) with slot. pose proof (leaf_slot_pos _ _ _ _ Hw Es).
  rewrite (proj2 (Z.eqb_neq slot 0)) by lia. unfold ld_pte. krun. cbn [mbind option_bind].
  rewrite valid_land. destruct (valid _); cbn [negb]; [|done]. by destruct (_ =? 0).
Qed.

(** The PTE [copyout] looks at. *)
Lemma walk_pte root va m fl L s v :
  0 ≤ va < MAXVA → xlate m root va = Some v →
  ∃ pte, walk root va false (setk m fl L s) = Ok pte (setk m fl L s) ∧ load64 m pte = v.
Proof.
  intros Hva (slot & Hs & Hl & _)%xlate_Some_inv. exists slot.
  by rewrite walk_lookup, Hs.
Qed.

(** ** copyout *)

(** Pages that [root] does not map are not written. *)
Definition outside_kept (m m' : memory) (root : Z) : Prop :=
  ∀ b x, page_ok b → (∀ va v, va_ok va → xlate m root va = Some v → PTE2PA v ≠ b) → b ≤ x < b + PGSIZE → rd m' x = rd m x.

Definition covered (m : memory) (root a len : Z) (w : bool) : Prop :=
  ∀ va, a ≤ va < a + len → uaccess m root va w.

Lemma copyout_loop_ok fuel root dst src m fl l L s :
  uvm_inv m fl l root → 0 ≤ dst → dst + Z.of_nat (length src) ≤ MAXVA →
  covered m root dst (Z.of_nat (length src)) true →
  pgoff dst + Z.of_nat (length src) ≤ (Z.of_nat fuel - 1) * PGSIZE →
  ∃ m', copyout_loop fuel root dst src (setk m fl L s) = Ok 0 (setk m' fl L s) ∧
    uvm_inv m' fl l root ∧ (∀ va, xlate m' root va = xlate m root va) ∧
    (∀ va, 0 ≤ va < MAXVA → uread m' root va =
      if decide (dst ≤ va < dst + Z.of_nat (length src)) then Some (u8 (src !!! Z.to_nat (va - dst)))
      else uread m root va) ∧ outside_kept m m' root.
Proof.
  assert (MAXVA = 2 ^ 38) as HM by done.
  revert dst src m. induction fuel as [|fuel IH]; intros dst src m Hu Hd Hb Hc Hf.
  { pose proof (pgoff_range dst). unfold PGSIZE in *. lia. }
  cbn [copyout_loop]. cbn zeta. destruct (_ =? 0) eqn:E0; zbool.
  { exists m. split_and!; [done..| |done]. intros va Hva. by rewrite decide_False by lia. }
  assert (0 ≤ dst < MAXVA) as Hdr by lia. pose proof (va_ok_down _ Hdr) as Hva0.
  destruct (Hc dst) as (v & Hx & HU & HW); [lia|]. specialize (HW eq_refl).
  rewrite (proj2 (Z.leb_gt _ _)) by apply Hva0.
  rewrite (bind_ok _ _ _ _ _ (walkaddr_ok root _ m fl L s (vi_pt _ _ _ _ (uv_vm _ _ _ _ Hu)) (proj1 Hva0))).
  rewrite Hx, (proj2 (Z.eqb_neq (Z.land v PTE_U) 0)) by done.
  destruct (uv_leaf _ _ _ _ Hu _ _ Hva0 Hx) as (Hp & _).
  rewrite (proj2 (Z.eqb_neq (PTE2PA v) 0)) by (destruct Hp; lia). krun.
  rewrite (proj2 (Z.eqb_neq (PTE2PA v) 0)) by (destruct Hp; lia).
  destruct (walk_pte root (PGROUNDDOWN dst) m fl L s v) as (pte & Hw & Hl);
    [apply Hva0|done|].
  rewrite (bind_ok _ _ _ _ _ Hw). unfold ld_pte. krun.
  rewrite Hl, (proj2 (Z.eqb_neq (Z.land v PTE_W) 0)) by done. krun. fold (pgoff dst).
  set (n := Z.min (PGSIZE - pgoff dst) (Z.of_nat (length src))).
  pose proof (pgoff_range dst) as Ho. assert (0 ≤ n) as Hn0 by lia.
  assert (Z.of_nat (length (take (Z.to_nat n) src)) = n) as Hlt by (rewrite length_take; lia).
  assert (pgoff dst + Z.of_nat (length (take (Z.to_nat n) src)) ≤ PGSIZE) as Hcl by lia.
  pose proof (chunk_inv m fl l root dst v _ Hu Hdr Hx Hcl) as I1.
  pose proof (chunk_tables m fl l root dst v _ Hu Hdr Hx Hcl) as T1.
  pose proof (chunk_uread m fl l root dst v _ Hu Hdr Hx Hcl) as R1.
  assert (outside_kept m (wr_list m (PTE2PA v + pgoff dst) (take (Z.to_nat n) src)) root) as O1.
  { intros b x Hpb Hnb Hxb. eapply (chunk_out m fl l root dst v _); [done..|]. specialize (Hnb _ _ Hva0 Hx).
    destruct (page_ok_sep (PTE2PA v) b); [done..|lia|lia]. }
  revert I1 T1 R1 O1. generalize (wr_list m (PTE2PA v + pgoff dst) (take (Z.to_nat n) src)).
  intros m1 I1 T1 R1 O1. rewrite Hlt in R1.
  assert (u64 (PGROUNDDOWN dst + PGSIZE) = dst + (PGSIZE - pgoff dst)) as ->.
  { rewrite u64_small; unfold pgoff in *; [lia|]. destruct Hva0. unfold PGSIZE in *. lia. }
  assert (pgoff (dst + (PGSIZE - pgoff dst)) = 0) as Hp0.
  { unfold pgoff. rewrite !PGROUNDDOWN_eq. unfold PGSIZE. zlia. }
  destruct (decide (n = Z.of_nat (length src))) as [En|En].
  - rewrite drop_ge by lia. destruct fuel as [|fuel]; [unfold PGSIZE in *; lia|]. cbn [copyout_loop].
    exists m1. split_and!; [done|done|by intros; apply xlate_frame| |done].
    intros va Hva. rewrite R1 by done. rewrite take_ge by lia. by rewrite En.
  - destruct (IH (dst + (PGSIZE - pgoff dst)) (drop (Z.to_nat n) src) m1) as (m' & H1 & H2 & H3 & H4 & H5).
    + done.
    + lia.
    + rewrite length_drop. lia.
    + intros va Hva. rewrite length_drop in Hva. destruct (Hc va) as (v' & ?); [lia|].
      exists v'. by rewrite (xlate_frame _ _ _ T1).
    + rewrite length_drop, Hp0. unfold PGSIZE in *. lia.
    + exists m'. split_and!; [done|done|intros va; by rewrite H3, (xlate_frame _ _ _ T1)| |].
      2:{ intros b x Hpb Hnb Hxb. rewrite (H5 b x), (O1 b x); [done|done|done|done|done| |done].
          intros va w Hva. rewrite (xlate_frame _ _ _ T1). by apply Hnb. }
      intros va Hva. rewrite H4, R1 by done. rewrite length_drop.
      repeat case_decide; try done; try lia.
      * rewrite lookup_total_drop. do 3 f_equal. lia.
      * rewrite lookup_total_take, decide_True by lia. done.
Qed.

(** ** copyin *)

Lemma copyin_loop_ok fuel root src len m fl l L s :
  uvm_inv m fl l root → 0 ≤ src → 0 ≤ len → src + len ≤ MAXVA → covered m root src len false →
  pgoff src + len ≤ (Z.of_nat fuel - 1) * PGSIZE →
  ∃ bytes, copyin_loop fuel root src len (setk m fl L s) = Ok (0, bytes) (setk m fl L s) ∧
    Z.of_nat (length bytes) = len ∧
    ∀ i, 0 ≤ i < len → uread m root (src + i) = Some (bytes !!! Z.to_nat i).
Proof.
  assert (MAXVA = 2 ^ 38) as HM by done.
  revert src len. induction fuel as [|fuel IH]; intros src len Hu Hs Hl0 Hb Hc Hf.
  { pose proof (pgoff_range src). unfold PGSIZE in *. lia. }
  cbn [copyin_loop]. cbn zeta. destruct (_ =? 0) eqn:E0; zbool.
  { exists []. subst len. split_and!; [done|done|lia]. }
  assert (0 ≤ src < MAXVA) as Hsr by lia. pose proof (va_ok_down _ Hsr) as Hva0.
  destruct (Hc src) as (v & Hx & HU & _); [lia|].
  rewrite (bind_ok _ _ _ _ _ (walkaddr_ok root _ m fl L s (vi_pt _ _ _ _ (uv_vm _ _ _ _ Hu)) (proj1 Hva0))).
  rewrite Hx, (proj2 (Z.eqb_neq (Z.land v PTE_U) 0)) by done.
  destruct (uv_leaf _ _ _ _ Hu _ _ Hva0 Hx) as (Hp & _).
  rewrite (proj2 (Z.eqb_neq (PTE2PA v) 0)) by (destruct Hp; lia). krun.
  rewrite (proj2 (Z.eqb_neq (PTE2PA v) 0)) by (destruct Hp; lia). krun. fold (pgoff src).
  set (n := Z.min (PGSIZE - pgoff src) len). pose proof (pgoff_range src) as Ho.
  rewrite rd_list_eq, Z2Nat.id by lia.
  assert (u64 (PGROUNDDOWN src + PGSIZE) = src + (PGSIZE - pgoff src)) as ->.
  { rewrite u64_small; unfold pgoff in *; [lia|]. destruct Hva0. unfold PGSIZE in *. lia. }
  assert (pgoff (src + (PGSIZE - pgoff src)) = 0) as Hp0.
  { unfold pgoff. rewrite !PGROUNDDOWN_eq. unfold PGSIZE. zlia. }
  assert (∃ rest, copyin_loop fuel root (src + (PGSIZE - pgoff src)) (len - n) (setk m fl L s) =
      Ok (0, rest) (setk m fl L s) ∧ Z.of_nat (length rest) = len - n ∧
      ∀ i, n ≤ i < len → uread m root (src + i) = Some (rest !!! Z.to_nat (i - n)))
    as (rest & R1 & R2 & R3).
  { destruct (decide (n = len)) as [En|En].
    - destruct fuel as [|fuel]; [unfold PGSIZE in *; lia|]. cbn [copyin_loop].
      rewrite (proj2 (Z.eqb_eq _ _)) by lia. exists []. split_and!; [done|simpl; lia|lia].
    - destruct (IH (src + (PGSIZE - pgoff src)) (len - n)) as (rest & R1 & R2 & R3);
        [done|lia|lia|lia| |rewrite Hp0; unfold PGSIZE in *; lia|].
      { intros va Hva. apply Hc. lia. }
      exists rest. split_and!; [done..|]. intros i Hi. rewrite <- R3 by lia. f_equal. lia. }
  eexists. rewrite (bind_ok _ _ _ _ _ R1). split; [done|]. split.
  { cbn [snd]. rewrite length_app, length_fmap, length_seqZ. lia. }
  intros i Hi. cbn [snd]. destruct (decide (i < n)).
  - rewrite lookup_total_app_l by (rewrite length_fmap, length_seqZ; lia).
    rewrite list_lookup_total_alt, list_lookup_fmap, lookup_seqZ_lt by lia.
    assert (PGROUNDDOWN (src + i) = PGROUNDDOWN src) as E.
    { apply PGROUNDDOWN_in; [apply Hva0|]. unfold pgoff in *. lia. }
    unfold uread, upa, pgoff. rewrite E, Hx. cbn [fmap option_fmap option_map].
    unfold default, id. do 2 f_equal. lia.
  - rewrite lookup_total_app_r by (rewrite length_fmap, length_seqZ; lia).
    rewrite R3, length_fmap, length_seqZ by lia. do 2 f_equal. lia.
Qed.

(** ** mappages on a range *)

Lemma mappages_ok root va size pa perm m fl l L s :
  vm_inv m fl l root → LKmem ∉ L → va_ok va → 0 < size → size mod PGSIZE = 0 →
  va + size ≤ MAXVA → 0 ≤ pa → pa + size ≤ 2 ^ 56 → 0 ≤ perm < 1024 →
  (∀ va', va_ok va' → va ≤ va' < va + size → xlate m root va' = None) →
  ∃ r m' l' j, mappages root va size pa perm (setk m fl L s) = Ok r (setk m' (hd 0 l') L s) ∧
    vm_inv m' (hd 0 l') l' root ∧ tframe m l m' l' root ∧ taken m l m' l' root ∧
    mapped m m' root va pa perm j ∧
    ((r = 0 ∧ j * PGSIZE = size) ∨ (r = -1 ∧ 0 ≤ j * PGSIZE < size ∧ l' = [])).
Proof.
  intros Hi HL Hva Hs0 Hs Hb Hpa Hpb Hpm Hx. assert (MAXVA = 2 ^ 38) as HM by done.
  set (k := Z.to_nat (size / PGSIZE)).
  assert (Z.of_nat k * PGSIZE = size) as Hk.
  { unfold k. rewrite Z2Nat.id; unfold PGSIZE in *; zlia. }
  destruct (mappages_loop_ok k root va pa perm m fl l L s)
    as (r & m' & l' & j & H1 & H2 & H3 & H3' & H4 & H5);
    [done|done|done|unfold PGSIZE in *; lia|lia|done|lia|done|rewrite Hk; done|].
  exists r, m', l', j. split_and!; [|done..|].
  - unfold mappages. rewrite (proj2 Hva), Hs, (proj2 (Z.eqb_neq size 0)) by lia. cbn [negb Z.eqb].
    fold k. rewrite u64_small by (destruct Hva; unfold PGSIZE in *; lia).
    replace (va + size - PGSIZE) with (va + (Z.of_nat k - 1) * PGSIZE) by lia. exact H1.
  - destruct H5 as [[-> ->]|(-> & ? & ->)]; [left|right]; split_and?; try done;
      unfold PGSIZE in *; lia.
Qed.

(** ** Claims *)

(** A pool of three pages and an empty page table, for the witnesses. *)
Definition demo_root : Z := 0x87ff0000.
Definition demo_pool : list Z := [0x87ff1000; 0x87ff2000; 0x87ff3000].
Definition demo_mem : memory :=
  store64 (store64 ∅ 0x87ff1000 0x87ff2000) 0x87ff2000 0x87ff3000.

Lemma demo_page_ok a : a mod PGSIZE = 0 → 0x87ff0000 ≤ a < 0x87fff000 → page_ok a.
Proof. intros. split; [done|unfold PHYSTOP, KERNBASE; lia]. Qed.

Lemma demo_rd a : ¬ (0x87ff1000 ≤ a < 0x87ff1008) → ¬ (0x87ff2000 ≤ a < 0x87ff2008) → rd demo_mem a = 0.
Proof. intros. unfold demo_mem. rewrite !rd_store64_out by lia. done. Qed.

Lemma demo_kmem : kmem_inv demo_mem 0x87ff1000 demo_pool.
Proof.
  split.
  - unfold demo_mem. constructor. rewrite load64_store64_ne, load64_store64_eq by lia.
    constructor. rewrite load64_store64_eq by lia. constructor.
    rewrite !load64_store64_ne by lia. rewrite load64_zero; [constructor|done].
  - repeat constructor; rewrite ?elem_of_cons, ?elem_of_nil; lia.
  - repeat constructor; apply demo_page_ok; done || lia.
  - unfold demo_mem. do 2 apply bytes_ok_store64. intros a. unfold rd. rewrite lookup_empty. cbn. lia.
Qed.

Lemma demo_inv :
  uvm_inv demo_mem 0x87ff1000 demo_pool demo_root ∧ ∀ va, xlate demo_mem demo_root va = None.
Proof.
  apply vm_inv_empty; [apply demo_kmem|apply demo_page_ok; [done|unfold demo_root; lia]| |].
  - unfold demo_pool, demo_root. rewrite !not_elem_of_cons, elem_of_nil. lia.
  - intros x Hx. unfold demo_root, PGSIZE in Hx. apply demo_rd; lia.
Qed.

(** C6: [mappages] on a range none of whose pages is mapped either returns 0
    and maps exactly that range, page by page, to consecutive physical pages
    with the given permissions, or returns -1 with the page pool exhausted and
    a prefix of the range mapped; no other translation changes, page-table
    pages stay disjoint from each other and from the free list, a page that
    leaves the pool is a page-table page, and no page outside the page tables
    and the pool is written. *)
Theorem mappages_inserts root va size pa perm m fl l L s :
  vm_inv m fl l root → LKmem ∉ L → va_ok va → 0 < size → size mod PGSIZE = 0 →
  va + size ≤ MAXVA → 0 ≤ pa → pa + size ≤ 2 ^ 56 → 0 ≤ perm < 1024 →
  (∀ va', va_ok va' → va ≤ va' < va + size → xlate m root va' = None) →
  ∃ r m' l' j, mappages root va size pa perm (setk m fl L s) = Ok r (setk m' (hd 0 l') L s) ∧
    vm_inv m' (hd 0 l') l' root ∧ tframe m l m' l' root ∧ taken m l m' l' root ∧
    mapped m m' root va pa perm j ∧
    ((r = 0 ∧ j * PGSIZE = size) ∨ (r = -1 ∧ 0 ≤ j * PGSIZE < size ∧ l' = [])).
Proof. apply mappages_ok. Qed.

Lemma mappages_inserts_witness :
  ∃ r m' l' j, mappages demo_root 0x3000 0x2000 0x80200000 (Z.lor PTE_R PTE_W)
      (setk demo_mem 0x87ff1000 [] kstate0) = Ok r (setk m' (hd 0 l') [] kstate0) ∧
    vm_inv m' (hd 0 l') l' demo_root ∧ tframe demo_mem demo_pool m' l' demo_root ∧ taken demo_mem demo_pool m' l' demo_root ∧
    mapped demo_mem m' demo_root 0x3000 0x80200000 (Z.lor PTE_R PTE_W) j ∧
    ((r = 0 ∧ j * PGSIZE = 0x2000) ∨ (r = -1 ∧ 0 ≤ j * PGSIZE < 0x2000 ∧ l' = [])).
Proof.
  apply mappages_inserts; try done.
  - apply demo_inv.
  - apply not_elem_of_nil.
  - intros va' _ _. apply demo_inv.
Defined.

(** Mapping over a page that is already mapped panics ("mappages: remap"),
    whatever the rest of the range; so does a misaligned address or size or an
    empty range. *)
Theorem mappages_panics root va size pa perm m fl l L s :
  vm_inv m fl l root → LKmem ∉ L → 0 ≤ va < MAXVA →
  va mod PGSIZE ≠ 0 ∨ size mod PGSIZE ≠ 0 ∨ size = 0 ∨
    (0 < size ∧ xlate m root va ≠ None) →
  ∃ msg, mappages root va size pa perm (setk m fl L s) = Panic msg.
Proof.
  intros Hi HL Hva H. unfold mappages.
  destruct (negb (va mod PGSIZE =? 0)) eqn:E1; [by eexists|].
  destruct (negb (size mod PGSIZE =? 0)) eqn:E2; [by eexists|].
  destruct (size =? 0) eqn:E3; [by eexists|]. zbool.
  destruct H as [?|[?|[?|[Hs Hx]]]]; [done..|lia|].
  destruct (Z.to_nat (size / PGSIZE)) as [|k] eqn:Ek; [unfold PGSIZE in *; zlia|].
  cbn [mappages_loop].
  destruct (walk_alloc root va m fl l L s) as (pte & m' & l' & H1 & [G1 G2 _] & H3 & _ & H4); [done..|].
  rewrite (bind_ok _ _ _ _ _ H1). destruct (xlate m' root va) as [v|] eqn:Ex; [|by rewrite G1 in Ex].
  destruct (xlate_Some_inv _ _ _ _ Ex) as (slot & Hsl & Hld & Hv).
  destruct H4 as [H4|(H4 & _)]; [|congruence]. assert (pte = slot) as -> by congruence.
  pose proof (leaf_slot_pos _ _ _ _ (vi_pt _ _ _ _ H3) Hsl).
  rewrite (proj2 (Z.eqb_neq slot 0)) by lia. unfold ld_pte. krun. rewrite Hld.
  unfold valid in Hv. rewrite Hv. by eexists.
Qed.

Lemma mappages_panics_witness :
  ∃ msg, mappages demo_root 0x3000 0x800 0x80200000 PTE_R
    (setk demo_mem 0x87ff1000 [] kstate0) = Panic msg.
Proof.
  eapply mappages_panics; [apply demo_inv|apply not_elem_of_nil|done|]. right. by left.
Defined.

(** C32: [uvmunmap] removes exactly the translations of its range, whether or
    not its pages were mapped (lazily allocated memory); with [do_free] it gives
    their physical pages back to the allocator, in front of the pool, and in
    both cases the address space stays well formed, with the same page-table
    pages, and other pages keep their contents. *)
Theorem uvmunmap_deletes do_free root a n m fl l L s :
  uvm_inv m fl l root → LKmem ∉ L → a mod PGSIZE = 0 → 0 ≤ a → 0 ≤ n → a + n * PGSIZE ≤ MAXVA →
  ∃ m', let l' := (released_range do_free m root a (Z.to_nat n) ++ l) in
    uvmunmap root a n do_free (setk m fl L s) = Ok () (setk m' (hd 0 l') L s) ∧
    uvm_inv m' (hd 0 l') l' root ∧ pframe m l m' l' root ∧ unmapped m m' root a (a + n * PGSIZE) ∧
    same_nodes m m' root.
Proof. apply uvmunmap_ok. Qed.

Lemma uvmunmap_deletes_witness :
  ∃ m', let l' := (released_range true demo_mem demo_root 0x1000 2 ++ demo_pool) in
    uvmunmap demo_root 0x1000 2 true (setk demo_mem 0x87ff1000 [] kstate0) =
      Ok () (setk m' (hd 0 l') [] kstate0) ∧
    uvm_inv m' (hd 0 l') l' demo_root ∧ pframe demo_mem demo_pool m' l' demo_root ∧
    unmapped demo_mem m' demo_root 0x1000 (0x1000 + 2 * PGSIZE) ∧ same_nodes demo_mem m' demo_root.
Proof.
  apply (uvmunmap_deletes true demo_root 0x1000 2 demo_mem); try done; [apply demo_inv|apply not_elem_of_nil].
Defined.



(** C16: What [copyout] writes, [copyin] reads back: for a range of user memory
    that is mapped for user writes, [copyout] returns 0, changes exactly the
    bytes of the range as the user sees them, and a later [copyin] of the range
    returns 0 and the same bytes. *)
Theorem copyout_copyin_roundtrip root dst src m fl l L s :
  uvm_inv m fl l root → 0 ≤ dst → dst + Z.of_nat (length src) ≤ MAXVA →
  covered m root dst (Z.of_nat (length src)) true → Forall (λ c, 0 ≤ c < 256) src →
  ∃ m', copyout root dst src (setk m fl L s) = Ok 0 (setk m' fl L s) ∧ uvm_inv m' fl l root ∧
    (∀ va, 0 ≤ va < MAXVA → ¬ (dst ≤ va < dst + Z.of_nat (length src)) →
       uread m' root va = uread m root va) ∧
    copyin root dst (Z.of_nat (length src)) (setk m' fl L s) = Ok (0, src) (setk m' fl L s).
Proof.
  intros Hu Hd Hb Hc Hby. pose proof (pgoff_range dst).
  assert (pgoff dst + Z.of_nat (length src) ≤
    (Z.of_nat (copy_fuel (Z.of_nat (length src))) - 1) * PGSIZE) as Hf.
  { unfold copy_fuel, PGSIZE in *. zlia. }
  destruct (copyout_loop_ok _ root dst src m fl l L s Hu Hd Hb Hc Hf) as (m' & H1 & H2 & H3 & H4 & _).
  exists m'. split_and!; [exact H1|done| |].
  { intros va Hva Hn. by rewrite H4, decide_False. }
  destruct (copyin_loop_ok (copy_fuel (Z.of_nat (length src))) root dst (Z.of_nat (length src)) m' fl l L s)
    as (bytes & R1 & R2 & R3); [done|done|lia|done| |exact Hf|].
  { intros va Hva. destruct (Hc va Hva) as (v & E & ? & _). exists v. by rewrite H3. }
  unfold copyin. rewrite R1. do 2 f_equal. apply list_eq_same_length with (length src); [done|lia|].
  intros i x y Hi Hx Hy. specialize (R3 (Z.of_nat i) ltac:(lia)).
  rewrite H4, decide_True in R3 by lia. rewrite Nat2Z.id in R3.
  replace (Z.to_nat (dst + Z.of_nat i - dst)) with i in R3 by lia.
  rewrite (list_lookup_total_correct src i y) in R3 by done.
  rewrite (list_lookup_total_correct bytes i x) in R3 by done. simplify_eq.
  assert (0 ≤ y < 256) as Hyr by (eapply Forall_lookup_1 in Hby; eauto).
  unfold u8 in *. change (2 ^ 8) with 256 in *. rewrite Z.mod_small in * by done. congruence.
Qed.

(** An address space with one writable user page, at 0, built by [mappages]. *)
Lemma demo_mapped :
  ∃ m fl l, uvm_inv m fl l demo_root ∧
    xlate m demo_root 0 = Some (mkpte 0x87ff8000 (Z.lor (Z.lor PTE_R PTE_W) PTE_U)).
Proof.
  destruct demo_inv as [Hu Hx].
  destruct (map_fresh demo_root 0 0x87ff8000 (Z.lor (Z.lor PTE_R PTE_W) PTE_U) demo_mem 0x87ff1000
    demo_pool [] kstate0) as (r & m' & l' & j & H1 & H2 & H3 & H4 & _ & H5);
    [done|apply not_elem_of_nil|done|apply Hx| |done|].
  { split.
    - by apply demo_page_ok.
    - unfold demo_pool. rewrite !not_elem_of_cons, elem_of_nil. lia.
    - intros p Hp. destruct p as [|i p]; [done|]. cbn [node]. destruct Hp as [_ Hp]. inversion Hp; subst.
      rewrite load64_zero; [done|]. intros b Hb. unfold idx_ok, demo_root in *. apply demo_rd; lia.
    - intros va v _. by rewrite Hx. }
  assert (match mappages demo_root 0 PGSIZE 0x87ff8000 (Z.lor (Z.lor PTE_R PTE_W) PTE_U)
            (setk demo_mem 0x87ff1000 [] kstate0) with Ok r _ => r =? 0 | _ => false end = true) as Hr
    by (vm_compute; reflexivity).
  rewrite H1 in Hr. clear H1. apply Z.eqb_eq in Hr. destruct H5 as [[_ ->]|[? _]]; [|lia].
  exists m', (hd 0 l'), l'. split; [exact H2|].
  rewrite (H4 0), decide_True by (unfold va_ok, PGSIZE; done || lia). reflexivity.
Qed.

Lemma copyout_copyin_roundtrip_witness :
  ∃ m m' fl, copyout demo_root 5 [104; 105] (setk m fl [] kstate0) = Ok 0 (setk m' fl [] kstate0) ∧
    copyin demo_root 5 2 (setk m' fl [] kstate0) = Ok (0, [104; 105]) (setk m' fl [] kstate0).
Proof.
  destruct demo_mapped as (m & fl & l & Hu & Hx). exists m.
  destruct (copyout_copyin_roundtrip demo_root 5 [104; 105] m fl l [] kstate0)
    as (m' & H1 & H2 & H3 & H4); [done|lia|done| |repeat constructor; lia|].
  - intros va Hva. cbn in Hva. exists (mkpte 0x87ff8000 (Z.lor (Z.lor PTE_R PTE_W) PTE_U)).
    replace (PGROUNDDOWN va) with 0; [done|]. rewrite PGROUNDDOWN_eq. unfold PGSIZE. zlia.
  - exists m', fl. by split.
Defined.
