(* ===== verification/VmFork.v ===== *)
(** * kernel/vm.c: copying an address space

    [uvmcopy] copies the memory of a process into the empty address space of
    its child.  The pages an address space owns are those of its tables and
    those its entries point to; an operation on one address space keeps what
    the other owns. *)

From S2P Require Import Prelude Riscv Kstate CString Kalloc Vm VmProps VmCopy.

(** ** The pages of an address space *)

Definition own (m : memory) (root b : Z) : Prop :=
  (∃ p, path_ok p ∧ node m root p = Some b) ∨ (∃ va v, va_ok va ∧ xlate m root va = Some v ∧ PTE2PA v = b).

(** No page of [old] is a table of [new]. *)
Definition apart (m : memory) (old new : Z) : Prop := ∀ b, own m old b → not_table m new b.

(** What [old] owns is in [m'] as it was, and neither free nor taken as a table
    of [new]. *)
Definition keeps (m m' : memory) (l' : list Z) (old new : Z) : Prop :=
  ∀ b, own m old b → (∀ x, b ≤ x < b + PGSIZE → rd m' x = rd m x) ∧ (b ∉ l') ∧ not_table m' new b.

Lemma own_page m fl l root b : uvm_inv m fl l root → own m root b → page_ok b ∧ b ∉ l.
Proof.
  intros Hu [(p & Hp & E)|(va & v & Hva & E & <-)].
  - split; [by eapply pw_page; [apply Hu|..]|by eapply (vi_free _ _ _ _ (uv_vm _ _ _ _ Hu))].
  - by destruct (uv_leaf _ _ _ _ Hu va v Hva E) as (? & ? & _).
Qed.

Section keeps.
Context (m m' : memory) (l' : list Z) (old new : Z) (K : keeps m m' l' old new).

Lemma keeps_tables : tables_eq m m' old.
Proof using K. intros p a x Hp Ha Hx. apply (K a); [left; by exists p|done]. Qed.
Lemma keeps_xlate va : xlate m' old va = xlate m old va.
Proof using K. apply xlate_frame, keeps_tables. Qed.
Lemma keeps_own b : own m' old b ↔ own m old b.
Proof using K.
  unfold own. split; (intros [(p & Hp & E)|(va & v & Hva & E & Hb)]; [left; exists p|right; exists va, v]);
    (rewrite (node_frame m m' old keeps_tables) in * by done) || rewrite keeps_xlate in *; done.
Qed.
Lemma keeps_apart : apart m' old new.
Proof using K. intros b Hb%keeps_own. by apply K. Qed.
Lemma keeps_inv fl l fl' : uvm_inv m fl l old → kmem_inv m' fl' l' → uvm_inv m' fl' l' old.
Proof using K.
  intros [Hv Hlf Hinj] Hk. pose proof keeps_tables as T. split.
  - eapply vm_inv_frame; [done|done|done|]. intros b p Hp Hb. apply (K b). left. by exists p.
  - intros va v Hva. rewrite keeps_xlate. intros E. destruct (Hlf va v Hva E) as (? & _ & ?).
    split_and!; [done| |by eapply not_table_frame]. apply (K (PTE2PA v)). right. by exists va, v.
  - intros va va' v v' H1 H2. rewrite !keeps_xlate. by apply Hinj.
Qed.
Lemma keeps_uread fl l va : uvm_inv m fl l old → 0 ≤ va < MAXVA → uread m' old va = uread m old va.
Proof using K.
  intros Hu Hva. unfold uread, upa. rewrite keeps_xlate. pose proof (va_ok_down va Hva) as Hd. pose proof (pgoff_range va).
  destruct (xlate m old (PGROUNDDOWN va)) as [v|] eqn:E; [|done]. cbn [fmap option_fmap option_map]. f_equal.
  apply (K (PTE2PA v)); [right; by exists (PGROUNDDOWN va), v|lia].
Qed.
End keeps.

Lemma vm_keeps_trans m1 m2 m3 l2 l3 old new :
  keeps m1 m2 l2 old new → keeps m2 m3 l3 old new → keeps m1 m3 l3 old new.
Proof.
  intros A B b Hb. destruct (A b Hb) as (A1 & _ & _). destruct (B b) as (B1 & B2 & B3); [by apply (keeps_own _ _ _ _ _ A)|].
  split_and!; [|done..]. intros x Hx. by rewrite B1, A1.
Qed.

Lemma keeps_tframe m fl l m' l' old new :
  uvm_inv m fl l old → apart m old new → tframe m l m' l' new → keeps m m' l' old new.
Proof.
  intros Hu Ha [Hs Ht] b Hb. destruct (own_page _ _ _ _ _ Hu Hb) as [Hp Hl]. destruct (Ht b Hp Hl (Ha b Hb)) as [? ?].
  split_and!; [done|by eapply not_in_suffix|done].
Qed.
Lemma keeps_pframe m fl l m' l' old new :
  uvm_inv m fl l old → apart m old new → pframe m l m' l' new → (∀ b, own m old b → b ∉ l') → keeps m m' l' old new.
Proof.
  intros Hu Ha Hf Hn b Hb. destruct (own_page _ _ _ _ _ Hu Hb) as [Hp Hl].
  destruct (Hf b Hp Hl (Hn b Hb) (Ha b Hb)) as [? ?]. split_and!; [done|by apply Hn|done].
Qed.

(** ** One page *)

(** A page taken from the pool and filled. *)
Lemma fill_page m fl pg l root m2 :
  uvm_inv m fl (pg :: l) root → kmem_inv m2 (hd 0 l) l → (∀ x, ¬ (pg ≤ x < pg + PGSIZE) → rd m2 x = rd m x) →
  uvm_inv m2 (hd 0 l) l root ∧ fresh_page m2 l root pg ∧ (∀ va, xlate m2 root va = xlate m root va) ∧
    tframe m (pg :: l) m2 l root ∧ same_nodes m m2 root.
Proof.
  intros Hu Hk Hout. pose proof (uv_vm _ _ _ _ Hu) as Hv.
  assert (page_ok pg) as Hp by (eapply kmem_inv_page; [apply Hv|left]).
  assert (not_table m root pg) as Hnt by (eapply free_not_table; [done|left]).
  assert (tables_eq m m2 root) as T by (eapply tables_eq_page; [apply Hv|done..]).
  assert (∀ va, xlate m2 root va = xlate m root va) as Hx by (by apply xlate_frame).
  assert (pg ∉ l) as Hnl by (pose proof (ki_nodup _ _ _ (vi_kmem _ _ _ _ Hv)) as Hnd; by apply NoDup_cons in Hnd as [? _]).
  split_and!; [|split|done|split|intros p Hpp; by apply node_frame].
  - eapply uvm_inv_frame; [done| |by apply suffix_cons_r|intros; by eapply not_table_frame|intros; apply Hx].
    eapply vm_inv_frame; [done..|]. intros b p Hpp Hb Hin. eapply (vi_free _ _ _ _ Hv p); [done..|by right].
  - done.
  - done.
  - by eapply not_table_frame.
  - intros va v Hva. rewrite Hx. intros E <-. destruct (uv_leaf _ _ _ _ Hu va v Hva E) as (_ & Hn & _). apply Hn. by left.
  - by apply suffix_cons_r.
  - intros b Hb [Hbp _]%not_elem_of_cons Hbn. split; [|by eapply not_table_frame]. intros x Hxx. apply Hout.
    destruct (page_ok_sep b pg); [done..|lia|lia].
Qed.

(** [kalloc] and [memmove] of a page from [pa]. *)
Lemma kalloc_copy m fl pg l pa L s :
  kmem_inv m fl (pg :: l) → LKmem ∉ L → page_ok pa → pa ≠ pg →
  ∃ m1, kalloc (setk m fl L s) = Ok pg (setk m1 (hd 0 l) L s) ∧
    let m2 := memmove m1 pg pa PGSIZE in
    kmem_inv m2 (hd 0 l) l ∧ (∀ x, ¬ (pg ≤ x < pg + PGSIZE) → rd m2 x = rd m x) ∧
    ∀ k, 0 ≤ k < PGSIZE → rd m2 (pg + k) = rd m (pa + k).
Proof.
  intros Hk HL Hpa Hne. assert (page_ok pg) as Hp by (eapply kmem_inv_page; [done|left]).
  pose proof (ki_nodup _ _ _ Hk) as [Hnl _]%NoDup_cons.
  destruct (kalloc_some m pg l fl L s Hk HL) as [E Hk1]. exists (memset m pg 5 PGSIZE). split; [exact E|].
  assert (∀ x, ¬ (pg ≤ x < pg + PGSIZE) → rd (memset m pg 5 PGSIZE) x = rd m x) as Hout by (intros; apply rd_memset_out; lia).
  revert Hk1 Hout. generalize (memset m pg 5 PGSIZE). intros m1 Hk1 Hout. cbv zeta. clear E.
  pose proof (λ a, rd_memmove m1 pg pa PGSIZE a (ki_bytes _ _ _ Hk1) ltac:(done)) as Hrd.
  pose proof (bytes_ok_memmove m1 pg pa PGSIZE (ki_bytes _ _ _ Hk1) ltac:(done)) as Hb.
  revert Hrd Hb. generalize (memmove m1 pg pa PGSIZE). intros m2 Hrd Hb.
  assert (∀ x, ¬ (pg ≤ x < pg + PGSIZE) → rd m2 x = rd m1 x) as Hout2.
  { intros x Hx. rewrite Hrd. destruct (_ && _) eqn:Eb; [|done]. zbool. lia. }
  split_and!.
  - eapply kmem_inv_mem; [exact Hk1|exact Hb|]. intros p a Hpl Ha. apply Hout2.
    assert (page_ok p) by (by eapply kmem_inv_page). destruct (page_ok_sep p pg); [done..|by intros ->|lia|lia].
  - intros x Hx. by rewrite Hout2, Hout.
  - intros k Hkk. rewrite Hrd. rewrite (proj2 (Z.leb_le _ _)), (proj2 (Z.ltb_lt _ _)) by lia. cbn [andb].
    replace (pa + (pg + k - pg)) with (pa + k) by lia. apply Hout. destruct (page_ok_sep pa pg); [done..|lia|lia].
Qed.

(** ** uvmcopy *)

(** The pages of [a, b) that [old] maps are mapped in [new], with the same
    flags, to pages of the pool with the same bytes; the rest of [new] is as it
    was. *)
Definition copied (m : memory) (l : list Z) (m' : memory) (old new a b : Z) : Prop :=
  ∀ va, va_ok va →
    if decide (a ≤ va < b) then
      match xlate m old va with
      | Some v => ∃ pg, pg ∈ l ∧ xlate m' new va = Some (mkpte pg (PTE_FLAGS v)) ∧
                    ∀ k, 0 ≤ k < PGSIZE → rd m' (pg + k) = rd m (PTE2PA v + k)
      | None => xlate m' new va = None
      end
    else xlate m' new va = xlate m new va.

Lemma PTE_FLAGS_range v : 0 ≤ PTE_FLAGS v < 1024.
Proof. unfold PTE_FLAGS. change 0x3FF with (Z.ones 10). rewrite Z.land_ones by lia. apply Z.mod_pos_bound. lia. Qed.
Lemma mkpte_page pg v : page_ok pg → PTE2PA (mkpte pg (PTE_FLAGS v)) = pg.
Proof. intros H. apply mkpte_pa; [by apply page_ok_pa|apply PTE_FLAGS_range|apply H]. Qed.

Lemma copied_trans m fl l m1 fl1 l1 m' l' old new a b c :
  uvm_inv m fl l old → uvm_inv m1 fl1 l1 new → keeps m m1 l1 old new → l1 `suffix_of` l → tframe m1 l1 m' l' new →
  a ≤ b ≤ c → copied m l m1 old new a b → copied m1 l1 m' old new b c → copied m l m' old new a c.
Proof.
  intros Ho Hn K Hs T Hab A B va Hva. specialize (A va Hva). specialize (B va Hva). rewrite (keeps_xlate _ _ _ _ _ K) in B.
  destruct (decide (b ≤ va < c)) as [Hbc|Hbc].
  - rewrite decide_True by lia. destruct (xlate m old va) as [v|] eqn:E; [|done]. destruct B as (pg & Hpg & Hx & Hrd).
    exists pg. split_and!; [destruct Hs as [k ->]; apply elem_of_app; by right|done|]. intros k Hk. rewrite Hrd by done.
    apply (K (PTE2PA v)); [right; by exists va, v|lia].
  - destruct (decide (a ≤ va < b)) as [H|H]; [rewrite decide_True by lia|by rewrite decide_False, B, A by lia].
    destruct (xlate m old va) as [v|] eqn:E; [|by rewrite B]. destruct A as (pg & Hpg & Hx & Hrd).
    assert (page_ok pg) as Hp by (eapply kmem_inv_page; [apply Ho|done]).
    destruct (uv_leaf _ _ _ _ Hn va _ Hva Hx) as (_ & H1 & H2). rewrite (mkpte_page pg v Hp) in H1, H2.
    exists pg. split_and!; [done|by rewrite B|]. intros k Hk. rewrite <- Hrd by done. apply (tf_frame _ _ _ _ _ T pg); [done..|lia].
Qed.

Lemma copied_ext m l m' old new a b a' b' :
  (∀ va, va_ok va → a ≤ va < b ↔ a' ≤ va < b') → copied m l m' old new a b → copied m l m' old new a' b'.
Proof.
  intros H C va Hva. specialize (C va Hva). specialize (H va Hva).
  destruct (decide (a ≤ va < b)), (decide (a' ≤ va < b')); tauto.
Qed.

(** The state of the loop: both address spaces are well formed and apart, and
    what [new] maps below [i] is not [old]'s. *)
Record twospaces (m : memory) (fl : Z) (l : list Z) (old new i : Z) : Prop := {
  tw_old : uvm_inv m fl l old;
  tw_new : uvm_inv m fl l new;
  tw_apart : apart m old new;
  tw_low va v : va_ok va → va < i → xlate m new va = Some v → ¬ own m old (PTE2PA v);
}.

Lemma released_inv m root a n b :
  b ∈ released_range true m root a n →
  ∃ j v, 0 ≤ j < Z.of_nat n ∧ xlate m root (a + j * PGSIZE) = Some v ∧ PTE2PA v = b.
Proof.
  revert a. induction n as [|n IH]; intros a; cbn [released_range]; [by intros ?%elem_of_nil|].
  intros [(j & v & Hj & E & Hb)%IH|H]%elem_of_app.
  - exists (j + 1), v. split_and!; [lia|lia| |done]. rewrite <- E. f_equal. lia.
  - unfold released in H. destruct (xlate m root a) as [v|] eqn:E; [|by apply elem_of_nil in H].
    apply list_elem_of_singleton in H as ->. exists 0, v. rewrite Z.mul_0_l, Z.add_0_r. split_and!; [lia|lia|done|done].
Qed.

Lemma elem_released m root a n j v :
  (j < n)%nat → xlate m root (a + Z.of_nat j * PGSIZE) = Some v → PTE2PA v ∈ released_range true m root a n.
Proof.
  revert a j. induction n as [|n IH]; intros a j Hj E; [lia|]. cbn [released_range]. apply elem_of_app. destruct j as [|j].
  - right. rewrite Z.mul_0_l, Z.add_0_r in E. unfold released. rewrite E. by left.
  - left. apply (IH _ j); [lia|]. rewrite <- E. f_equal. lia.
Qed.

(** After a failure every page is back: what the pool had is there or is a
    table of [new], and so are the pages [new] had below [i]; and no other page
    is in the pool or a table. *)
Definition returned (m : memory) (l : list Z) (m' : memory) (l' : list Z) (new i : Z) : Prop :=
  taken m l m' l' new ∧ (∀ va v, va_ok va → va < i → xlate m new va = Some v → PTE2PA v ∈ l') ∧
  ∀ b, page_ok b → b ∉ l → not_table m new b → (∀ va v, va_ok va → va < i → xlate m new va = Some v → PTE2PA v ≠ b) →
    (b ∉ l') ∧ not_table m' new b.

(** The failure path: unmap what was copied so far. *)
Lemma uvmcopy_rollback old new i m fl l L s :
  twospaces m fl l old new i → LKmem ∉ L → 0 ≤ i ≤ MAXVA → i mod PGSIZE = 0 →
  ∃ m' l', (uvmunmap new 0 (i / PGSIZE) true;; mret (-1)) (setk m fl L s) = Ok (-1) (setk m' (hd 0 l') L s) ∧
    uvm_inv m' (hd 0 l') l' new ∧ keeps m m' l' old new ∧ unmapped m m' new 0 i ∧ returned m l m' l' new i.
Proof.
  intros [Ho Hn Ha Hlow] HL Hi Hal. assert (0 + i / PGSIZE * PGSIZE = i) as Ei by (unfold PGSIZE in *; zlia).
  destruct (uvmunmap_ok true new 0 (i / PGSIZE) m fl l L s) as (m' & H1 & H2 & H3 & H4 & H5);
    [done|done|done|lia|apply Z.div_pos; [lia|done]|lia|]. rewrite Ei in H4.
  exists m', (released_range true m new 0 (Z.to_nat (i / PGSIZE)) ++ l). rewrite (bind_ok _ _ _ _ _ H1).
  split_and!; [done|done|eapply keeps_pframe; [done..|]; intros b Hb [(j & v & Hj & E & <-)%released_inv|Hin]%elem_of_app|done|split; [split|split]].
  - rewrite Z.add_0_l in E. assert (0 ≤ i / PGSIZE) by (apply Z.div_pos; [lia|done]).
    apply (Hlow (j * PGSIZE) v); [|unfold PGSIZE in *; lia|done|done].
    split; [unfold PGSIZE in *; lia|unfold PGSIZE; apply Z.mod_mul; lia].
  - by destruct (own_page _ _ _ _ _ Ho Hb).
  - intros p b Hp. by rewrite H5.
  - intros b Hb. left. apply elem_of_app. by right.
  - intros va v [Hva Hval] Hlt E. apply elem_of_app. left. apply (elem_released _ _ _ _ (Z.to_nat (va / PGSIZE))).
    + unfold PGSIZE in *. zlia.
    + rewrite <- E. f_equal. unfold PGSIZE in *. zlia.
  - intros b Hb Hbl Hbn Hleaf.
    assert (b ∉ released_range true m new 0 (Z.to_nat (i / PGSIZE)) ++ l) as Hb'; [|split; [done|by apply H3]].
    intros [(j & v & Hj & E & <-)%released_inv|Hin]%elem_of_app; [|done]. rewrite Z.add_0_l in E.
    assert (0 ≤ i / PGSIZE) by (apply Z.div_pos; [lia|done]). apply (Hleaf (j * PGSIZE) v); [|unfold PGSIZE in *; lia|done|done].
    split; [unfold PGSIZE in *; lia|unfold PGSIZE; apply Z.mod_mul; lia].
Qed.

(** One page of [old]: a page of the pool gets its bytes and is mapped. *)
Lemma copy_step old new i v m fl pg l L s :
  twospaces m fl (pg :: l) old new i → LKmem ∉ L → va_ok i → xlate m old i = Some v → xlate m new i = None →
  ∃ m1 m2 r m3 l3, kalloc (setk m fl L s) = Ok pg (setk m1 (hd 0 l) L s) ∧ m2 = memmove m1 pg (PTE2PA v) PGSIZE ∧
    mappages new i PGSIZE pg (PTE_FLAGS v) (setk m2 (hd 0 l) L s) = Ok r (setk m3 (hd 0 l3) L s) ∧
    uvm_inv m3 (hd 0 l3) l3 new ∧ tframe m (pg :: l) m3 l3 new ∧ page_ok pg ∧ taken m l m3 l3 new ∧
    ((r = 0 ∧ copied m (pg :: l) m3 old new i (i + PGSIZE) ∧ xlate m3 new i = Some (mkpte pg (PTE_FLAGS v))) ∨
     (r = -1 ∧ l3 = [] ∧ fresh_page m3 [] new pg ∧ ∀ va, va_ok va → xlate m3 new va = xlate m new va)).
Proof.
  intros [Ho Hn Ha Hlow] HL Hi Ev En. destruct (uv_leaf _ _ _ _ Ho i v Hi Ev) as (Hpv & Hvl & _).
  assert (PTE2PA v ≠ pg) as Hne by (intros E; apply Hvl; rewrite E; by left).
  destruct (kalloc_copy m fl pg l (PTE2PA v) L s) as (m1 & E1 & Hk & Hout & Hin); [apply Ho|done..|].
  destruct (fill_page m fl pg l new _ Hn Hk Hout) as (I2 & Fr & X2 & T2 & N2).
  exists m1, (memmove m1 pg (PTE2PA v) PGSIZE). revert Hk Hout Hin I2 Fr X2 T2 N2. generalize (memmove m1 pg (PTE2PA v) PGSIZE).
  intros m2 Hk Hout Hin I2 Fr X2 T2 N2.
  destruct (map_fresh new i pg (PTE_FLAGS v) m2 (hd 0 l) l L s) as (r & m3 & l3 & j & M1 & M2 & M3 & M4 & [MT _] & M5);
    [done|done|done|by rewrite X2|done|apply PTE_FLAGS_range|].
  exists r, m3, l3. split_and!; [done|done|done|done|by eapply tframe_trans|apply Fr|by eapply taken_trans, MT; apply taken_same|].
  destruct M5 as [[-> ->]|(-> & -> & -> & Hfr)]; [left|right].
  - split_and!; [done| |by rewrite M4, decide_True, Z.sub_diag, Z.add_0_r by (done || (unfold PGSIZE; lia))].
    intros va Hva. rewrite M4, X2 by done. rewrite Z.mul_1_l. destruct (decide _) as [H|H]; [|done].
    assert (va = i) as -> by (destruct (decide (va = i)); [done|]; assert (i + PGSIZE ≤ va) by (apply va_ok_step; done || lia); lia).
    rewrite Ev. exists pg. split_and!; [by left|by rewrite Z.sub_diag, Z.add_0_r|]. intros k Hkk. rewrite <- Hin by done.
    apply (tf_frame _ _ _ _ _ M3 pg); [apply Fr..|lia].
  - split_and!; [done|done|done|]. intros va Hva. rewrite M4, X2 by done. rewrite decide_False by lia. done.
Qed.

(** When the table has no room for the page it goes back to the pool. *)
Lemma copy_back old new i pg m fl l m3 L s :
  twospaces m fl l old new i → LKmem ∉ L → pg ∈ l → uvm_inv m3 (hd 0 []) [] new → tframe m l m3 [] new →
  fresh_page m3 [] new pg → (∀ va, va_ok va → xlate m3 new va = xlate m new va) →
  (∀ l1, l = pg :: l1 → taken m l1 m3 [] new) →
  ∃ m4, kfree pg (setk m3 (hd 0 []) L s) = Ok () (setk m4 pg L s) ∧ twospaces m4 pg [pg] old new i ∧
    keeps m m4 [pg] old new ∧ (∀ va, va_ok va → xlate m4 new va = xlate m new va) ∧
    (∀ l1, l = pg :: l1 → taken m l m4 [pg] new) ∧ ∀ b, not_table m3 new b → not_table m4 new b.
Proof.
  intros [Ho Hn Ha Hlow] HL Hpg I3 T Fr Xn Tk. pose proof (keeps_tframe m fl l m3 [] old new Ho Ha T) as K3.
  destruct (kfree_fresh new pg m3 (hd 0 []) [] L s I3 HL Fr) as (m4 & F1 & F2 & F3).
  pose proof Fr as [Hp Hfl Hpt _]. destruct (kfree_vm m3 (hd 0 []) [] new L s pg (uv_vm _ _ _ _ I3) HL Hp Hfl Hpt) as (G1 & _ & G3).
  pose proof (λ x, freed_mem_out m3 pg (hd 0 []) x) as Go. revert G1 G3 Go. generalize (freed_mem m3 pg (hd 0 [])). intros m4' G1 G3 Go.
  assert (m4 = m4') as <- by (rewrite F1 in G1;
    apply (f_equal (λ o, match o with Ok _ t => mem t | _ => ∅ end)) in G1; cbv beta iota in G1; by rewrite !mem_setk in G1).
  assert (keeps m m4 [pg] old new) as K.
  { apply (vm_keeps_trans m m3 m4 [] [pg] old new K3). intros b Hb. apply (keeps_own _ _ _ _ _ K3) in Hb.
    destruct (own_page _ _ _ _ _ Ho Hb) as [Hbp Hbl]. destruct (K3 b Hb) as (_ & _ & Hbn). assert (b ≠ pg) as Hne by (by intros ->).
    split_and!; [|by apply not_elem_of_cons; split; [done|apply not_elem_of_nil]|by eapply not_table_frame].
    intros x Hx. apply Go. destruct (page_ok_sep b pg); [done..|lia|lia]. }
  exists m4. split_and!; [exact F1| |done|intros; rewrite F3; by apply Xn| |intros b; by apply not_table_frame]; [split|].
  - eapply keeps_inv; [done..|apply F2].
  - done.
  - by eapply keeps_apart.
  - intros va v Hva Hlt. rewrite F3, Xn by done. rewrite (keeps_own _ _ _ _ _ K). by apply Hlow.
  - intros l1 ->. destruct (Tk l1 eq_refl) as [N1 N2]. assert (∀ p, path_ok p → node m4 new p = node m3 new p) as Hnd by (by apply node_frame).
    split; [intros p b Hb E; rewrite Hnd by done; by apply N1|]. intros b [->|Hb]%elem_of_cons; [left; by left|right].
    destruct (N2 b Hb) as [[]%elem_of_nil|(p & Hpp & E)]. exists p. by rewrite Hnd.
Qed.

(** What the loop gives, started at [i]. *)
Definition copy_result (m : memory) (l : list Z) (old new i sz : Z) (L : list lock) (s : kstate)
    (o : res (option chan) kstate Z) : Prop :=
  ∃ r m' l', o = Ok r (setk m' (hd 0 l') L s) ∧ uvm_inv m' (hd 0 l') l' new ∧ keeps m m' l' old new ∧
    ((r = 0 ∧ copied m l m' old new i sz ∧ tframe m l m' l' new) ∨ (r = -1 ∧ unmapped m m' new 0 i ∧ returned m l m' l' new i)).

(** After one page, copied or absent. *)
Section next.
Context (m : memory) (fl : Z) (l : list Z) (old new i : Z) (m3 : memory) (l3 : list Z).
Context (W : twospaces m fl l old new i) (T : tframe m l m3 l3 new) (I3 : uvm_inv m3 (hd 0 l3) l3 new).
Context (C : copied m l m3 old new i (i + PGSIZE)) (Hi : va_ok i) (En : xlate m new i = None).

Lemma next_keeps : keeps m m3 l3 old new.
Proof using W T. eapply keeps_tframe; [apply W|apply W|done]. Qed.
Lemma next_page va : va_ok va → va < i ∨ va = i ∨ i + PGSIZE ≤ va.
Proof using Hi.
  intros Hva. destruct (decide (va = i)); [tauto|]. destruct (decide (va < i)); [tauto|]. right. right. apply va_ok_step; done || lia.
Qed.
Lemma next_twospaces : twospaces m3 (hd 0 l3) l3 old new (i + PGSIZE).
Proof using W T I3 C Hi En.
  pose proof next_keeps as K. pose proof W as [Ho Hn Ha Hlow]. split.
  - eapply keeps_inv; [done..|apply I3].
  - done.
  - by eapply keeps_apart.
  - intros va v Hva Hlt E Hown%(keeps_own _ _ _ _ _ K). specialize (C va Hva). destruct (next_page va Hva) as [H|[->|H]]; [| |lia].
    + rewrite decide_False in C by lia. rewrite C in E. by apply (Hlow va v).
    + rewrite decide_True in C by (unfold PGSIZE; lia). destruct (xlate m old i) as [w|]; [|congruence].
      destruct C as (pg & Hpg & Hx & _). rewrite Hx in E. injection E as <-.
      rewrite (mkpte_page pg w) in Hown by (eapply kmem_inv_page; [apply Ho|done]). by destruct (own_page _ _ _ _ _ Ho Hown).
Qed.
(** Where the pages of the pool went. *)
Context (N : ∀ p b, path_ok p → node m new p = Some b → node m3 new p = Some b).
Context (G : ∀ b, b ∈ l → b ∈ l3 ∨ (∃ p, path_ok p ∧ node m3 new p = Some b) ∨ (∃ v, xlate m3 new i = Some v ∧ PTE2PA v = b)).

Lemma next_returned m' l' : returned m3 l3 m' l' new (i + PGSIZE) → returned m l m' l' new i.
Proof using All.
  intros ([R1 R2] & R3 & R4). split; [split|split].
  - intros p b Hp E. by apply R1, N.
  - intros b Hb. destruct (G b Hb) as [H|[(p & Hp & E)|(v & E & <-)]]; [by apply R2|right; exists p; eauto|].
    left. apply (R3 i); [done|unfold PGSIZE; lia|done].
  - intros va v Hva Hlt E. specialize (C va Hva). rewrite decide_False in C by lia.
    apply (R3 va); [done|unfold PGSIZE; lia|by rewrite C].
  - intros b Hb Hbl Hbn Hleaf. destruct (tf_frame _ _ _ _ _ T b Hb Hbl Hbn) as [_ Hn3].
    apply R4; [done|eapply not_in_suffix; [apply T|done]|done|]. intros va v Hva Hlt E. specialize (C va Hva).
    destruct (next_page va Hva) as [H|[->|H]]; [| |lia].
    + rewrite decide_False in C by lia. apply (Hleaf va); [done|done|by rewrite <- C].
    + rewrite decide_True in C by (unfold PGSIZE; lia). destruct (xlate m old i) as [w|]; [|congruence].
      destruct C as (pg & Hpg & Hx & _). rewrite Hx in E. injection E as <-.
      rewrite (mkpte_page pg w) by (eapply kmem_inv_page; [apply W|done]). by intros ->.
Qed.
Lemma next_result sz L s o : i < sz → copy_result m3 l3 old new (i + PGSIZE) sz L s o → copy_result m l old new i sz L s o.
Proof using All.
  intros Hsz (r & m' & l' & -> & I' & K' & D). pose proof next_keeps as K. exists r, m', l'.
  split_and!; [done|done|by eapply vm_keeps_trans|]. destruct D as [(-> & C' & T')|(-> & U & R)]; [left|right; split_and!; [done| |by apply next_returned]].
  - split_and!; [done| |by eapply tframe_trans].
    eapply (copied_ext _ _ _ _ _ i (Z.max sz (i + PGSIZE))); [intros va Hva; destruct (next_page va Hva); lia|].
    eapply (copied_trans m fl l m3 (hd 0 l3) l3); [apply W|done|done|apply T|done| |done|]; [unfold PGSIZE in *; lia|].
    eapply (copied_ext _ _ _ _ _ (i + PGSIZE) sz); [intros va Hva; lia|done].
  - intros va Hva. rewrite U by done. specialize (C va Hva). destruct (next_page va Hva) as [H|[->|H]].
    + rewrite decide_False in C by lia. destruct (decide (0 ≤ va < i)); [by rewrite decide_True by (unfold PGSIZE in *; lia)|].
      destruct Hva. lia.
    + rewrite decide_True by (destruct Hi; unfold PGSIZE; lia). rewrite decide_False by lia. by rewrite En.
    + unfold PGSIZE in *. rewrite !decide_False by lia. by rewrite decide_False in C by lia.
Qed.
End next.

Lemma uvmcopy_loop_ok fuel old new i sz m fl l L s :
  twospaces m fl l old new i → LKmem ∉ L → 0 ≤ i → i mod PGSIZE = 0 → sz ≤ MAXVA →
  (∀ va, va_ok va → i ≤ va < sz → xlate m new va = None) →
  (Z.to_nat ((sz - i + PGSIZE - 1) / PGSIZE) < fuel)%nat →
  copy_result m l old new i sz L s (uvmcopy_loop fuel old new sz i (setk m fl L s)).
Proof.
  assert (MAXVA = 2 ^ 38) as HM by done. revert i m fl l.
  induction fuel as [|fuel IH]; intros i m fl l W HL Hi Hal Hsz Hx Hf; [lia|]. cbn [uvmcopy_loop].
  pose proof W as [Ho Hn Ha Hlow]. pose proof (vi_kmem _ _ _ _ (uv_vm _ _ _ _ Ho)) as Hk.
  pose proof (flist_head m fl l (ki_list _ _ _ Hk)) as ->. destruct (i <? sz) eqn:E; zbool.
  2:{ exists 0, m, l. split_and!; [done|done| |].
      - eapply keeps_tframe; [done..|apply tframe_refl].
      - left. split_and!; [done| |apply tframe_refl]. intros va Hva. by rewrite decide_False by lia. }
  assert (va_ok i) as Hva by (split; [lia|done]). assert (u64 (i + PGSIZE) = i + PGSIZE) as -> by (apply u64_small; unfold PGSIZE; lia).
  assert (∀ m3 l3, twospaces m3 (hd 0 l3) l3 old new (i + PGSIZE) → (∀ va, va_ok va → i + PGSIZE ≤ va < sz → xlate m3 new va = None) →
    copy_result m3 l3 old new (i + PGSIZE) sz L s (uvmcopy_loop fuel old new sz (i + PGSIZE) (setk m3 (hd 0 l3) L s))) as IH'.
  { intros m3 l3 W3 H3. apply IH; [done|done|unfold PGSIZE; lia|unfold PGSIZE in *; zlia|done|done|unfold PGSIZE in *; zlia]. }
  clear IH. rewrite (bind_ok _ _ _ _ _ (walk_lookup old i m (hd 0 l) L s (proj1 Hva))).
  destruct (xlate m old i) as [v|] eqn:Ev.
  2:{ assert (copied m l m old new i (i + PGSIZE)) as C.
      { intros va Hv. destruct (decide _) as [H|H]; [|done]. assert (va = i) as -> by (destruct (next_page i Hva va Hv) as [?|[?|?]]; lia || done).
        rewrite Ev. apply Hx; [done|lia]. }
      pose proof (Hx i Hva ltac:(lia)) as En.
      pose proof (next_result m (hd 0 l) l old new i m l W (tframe_refl m l new) Hn C Hva En (λ _ _ _ H, H) (λ _ H, or_introl H) sz L s) as N.
      pose proof (next_twospaces m (hd 0 l) l old new i m l W (tframe_refl m l new) Hn C Hva En) as W3.
      specialize (IH' m l W3 ltac:(intros va ? ?; apply Hx; [done|unfold PGSIZE in *; lia])).
      apply N; [done|]. unfold xlate in Ev. destruct (leaf_slot m old i) as [slot|] eqn:Es; [|exact IH'].
      change (default 0 (Some slot)) with slot. pose proof (leaf_slot_pos _ _ _ _ (vi_pt _ _ _ _ (uv_vm _ _ _ _ Ho)) Es).
      rewrite (proj2 (Z.eqb_neq slot 0)) by lia. unfold ld_pte. krun. cbn [mbind option_bind] in Ev.
      rewrite valid_land. destruct (valid _); [done|]. exact IH'. }
  destruct (xlate_Some_inv _ _ _ _ Ev) as (slot & Es & Hld & Hv). rewrite Es.
  pose proof (leaf_slot_pos _ _ _ _ (vi_pt _ _ _ _ (uv_vm _ _ _ _ Ho)) Es) as Hsl. change (default 0 (Some slot)) with slot.
  rewrite (proj2 (Z.eqb_neq slot 0)) by lia. unfold ld_pte. krun. rewrite Hld, valid_land, Hv. cbn [negb].
  pose proof (Hx i Hva ltac:(lia)) as En. destruct l as [|pg l].
  { rewrite (bind_ok _ _ _ _ _ (kalloc_vm m (hd 0 []) [] old L s (uv_vm _ _ _ _ Ho) HL)). cbn [Z.eqb].
    destruct (uvmcopy_rollback old new i m (hd 0 []) [] L s W HL) as (m' & l' & H1 & H2 & H3 & H4 & H5); [lia|done|].
    exists (-1), m', l'. split_and!; [exact H1|done|done|]. by right. }
  destruct (copy_step old new i v m (hd 0 (pg :: l)) pg l L s W HL Hva Ev En) as (m1 & m2 & r & m3 & l3 & E1 & E2 & E3 & I3 & T & Hp & Tk & D).
  rewrite (bind_ok _ _ _ _ _ E1). rewrite (proj2 (Z.eqb_neq pg 0)) by (destruct Hp; lia). krun. rewrite <- E2.
  rewrite (bind_ok _ _ _ _ _ E3). destruct D as [(-> & C & Xi)|(-> & -> & Fr & Xn)]; cbn [Z.eqb negb].
  - apply (next_result m _ _ old new i m3 l3 W T I3 C Hva En (proj1 Tk)); [|done|].
    { intros b [->|Hb]%elem_of_cons; [right; right|destruct (proj2 Tk b Hb); tauto]. exists (mkpte pg (PTE_FLAGS v)). by rewrite mkpte_page. }
    apply IH'; [by apply (next_twospaces m _ _ old new i m3 l3 W T I3 C Hva En)|]. intros va Hva' Hr. specialize (C va Hva').
    rewrite decide_False in C by lia. rewrite C. apply Hx; [done|unfold PGSIZE in *; lia].
  - destruct (copy_back old new i pg m _ (pg :: l) m3 L s W HL ltac:(left) I3 T Fr Xn) as (m4 & F1 & W4 & K4 & X4 & Tk4 & N4); [by intros ? [= <-]|].
    rewrite (bind_ok _ _ _ _ _ F1). destruct (uvmcopy_rollback old new i m4 pg [pg] L s W4 HL) as (m' & l' & H1 & H2 & H3 & H4 & H5 & H6 & H7); [lia|done|].
    exists (-1), m', l'. split_and!; [exact H1|done|by eapply vm_keeps_trans|]. right. split_and!; [done| |split; [|split]].
    + intros va Hv'. rewrite H4 by done. by rewrite X4.
    + eapply taken_trans; [by apply (Tk4 l)|done].
    + intros va w Hv' Hlt Ew. apply (H6 va); [done|done|by rewrite X4].
    + intros b Hb Hbl Hbn Hleaf. destruct (tf_frame _ _ _ _ _ T b Hb Hbl Hbn) as [_ Hn3].
      apply H7; [done| |by apply N4|intros va w Hv' Hlt; rewrite X4 by done; by apply Hleaf].
      apply not_elem_of_cons. split; [|apply not_elem_of_nil]. intros ->. apply Hbl. by left.
Qed.

Lemma uvmcopy_ok old new sz m fl l L s :
  uvm_inv m fl l old → uvm_inv m fl l new → apart m old new → LKmem ∉ L → 0 ≤ sz ≤ MAXVA →
  (∀ va, va_ok va → va < sz → xlate m new va = None) →
  ∃ r m' l', uvmcopy old new sz (setk m fl L s) = Ok r (setk m' (hd 0 l') L s) ∧
    uvm_inv m' (hd 0 l') l' old ∧ uvm_inv m' (hd 0 l') l' new ∧ keeps m m' l' old new ∧
    (∀ va, 0 ≤ va < MAXVA → uread m' old va = uread m old va) ∧
    (∀ va v, va_ok va → va < sz → xlate m' new va = Some v → ¬ own m' old (PTE2PA v)) ∧
    ((r = 0 ∧ copied m l m' old new 0 sz ∧ ∀ va, 0 ≤ va < sz → uread m' new va = uread m old va) ∨
     (r = -1 ∧ (∀ va, va_ok va → xlate m' new va = xlate m new va) ∧ taken m l m' l' new ∧
        ∀ b, page_ok b → b ∉ l → not_table m new b → (b ∉ l') ∧ not_table m' new b)).
Proof.
  intros Ho Hn Ha HL Hsz Hx.
  assert (twospaces m fl l old new 0) as W by (split; [done..|]; intros va v [Hva _] H; lia).
  destruct (uvmcopy_loop_ok (S (Z.to_nat ((sz + PGSIZE - 1) / PGSIZE))) old new 0 sz m fl l L s W HL) as (r & m' & l' & E & I & K & D);
    [done|done|lia|intros va Hva ?; apply Hx; [done|lia]|rewrite Z.sub_0_r; lia|].
  exists r, m', l'. split_and!; [exact E|eapply keeps_inv; [done..|apply I]|done|exact K|intros; by eapply keeps_uread| |].
  - intros va v Hva Hlt E' Hown%(keeps_own _ _ _ _ _ K). destruct D as [(_ & C & _)|(_ & U & _)].
    + specialize (C va Hva). rewrite decide_True in C by (destruct Hva; lia). destruct (xlate m old va) as [w|]; [|congruence].
      destruct C as (pg & Hpg & Hxp & _). rewrite Hxp in E'. injection E' as <-.
      rewrite (mkpte_page pg w) in Hown by (eapply kmem_inv_page; [apply Ho|done]). by destruct (own_page _ _ _ _ _ Ho Hown).
    + rewrite U, decide_False, Hx in E' by (done || lia). done.
  - destruct D as [(-> & C & _)|(-> & U & R)]; [left|right]; (split; [done|]); [split; [done|]|split; [|split; [apply R|]]].
    + intros va Hva. pose proof (va_ok_down va ltac:(lia)) as Hd. pose proof (pgoff_range va) as Hg. specialize (C _ Hd).
      rewrite decide_True in C by (unfold pgoff in *; destruct Hd; lia). unfold uread, upa.
      destruct (xlate m old (PGROUNDDOWN va)) as [w|]; [|by rewrite C]. destruct C as (pg & Hpg & -> & Hrd).
      cbn [fmap option_fmap option_map]. f_equal.
      rewrite (mkpte_page pg w) by (eapply kmem_inv_page; [apply Ho|done]). by apply Hrd.
    + intros va Hva. rewrite U, decide_False by (done || lia). done.
    + intros b Hb Hbl Hbn. apply R; [done|done|done|]. intros va v [Hva _] ?. lia.
Qed.

(** C9: [uvmcopy] gives the child a copy of its parent's memory, or nothing.
    Either it returns 0 and every page the parent has below [sz] is mapped in
    the child at the same address, with the same permissions, to a page of its
    own from the pool, so that the child reads at every address what the parent
    read; or it returns -1, the child maps what it mapped before and every page
    of the pool is back, but for the tables the child has gained. In both
    cases the parent's memory is unchanged, both address spaces stay well
    formed, and no page of the child's memory belongs to the parent. *)
Theorem uvmcopy_copies old new sz m fl l L s :
  uvm_inv m fl l old → uvm_inv m fl l new → apart m old new → LKmem ∉ L → 0 ≤ sz ≤ MAXVA →
  (∀ va, va_ok va → va < sz → xlate m new va = None) →
  ∃ r m' l', uvmcopy old new sz (setk m fl L s) = Ok r (setk m' (hd 0 l') L s) ∧
    uvm_inv m' (hd 0 l') l' old ∧ uvm_inv m' (hd 0 l') l' new ∧ keeps m m' l' old new ∧
    (∀ va, 0 ≤ va < MAXVA → uread m' old va = uread m old va) ∧
    (∀ va v, va_ok va → va < sz → xlate m' new va = Some v → ¬ own m' old (PTE2PA v)) ∧
    ((r = 0 ∧ copied m l m' old new 0 sz ∧ ∀ va, 0 ≤ va < sz → uread m' new va = uread m old va) ∨
     (r = -1 ∧ (∀ va, va_ok va → xlate m' new va = xlate m new va) ∧ taken m l m' l' new ∧
        ∀ b, page_ok b → b ∉ l → not_table m new b → (b ∉ l') ∧ not_table m' new b)).
Proof. apply uvmcopy_ok. Qed.

(** The only table of an empty root is the root. *)
Lemma zero_not_table m root b :
  (∀ x, root ≤ x < root + PGSIZE → rd m x = 0) → b ≠ root → not_table m root b.
Proof.
  intros Hz Hb [|i p] [_ Hp]; [cbn; congruence|]. cbn [node]. inversion Hp; subst.
  rewrite load64_zero; [done|]. intros c Hc. apply Hz. unfold idx_ok, PGSIZE in *. lia.
Qed.

(** A page from the free list, cleared, is a page table without translations. *)
Lemma fresh_table m fl root l1 L s :
  kmem_inv m fl (root :: l1) → LKmem ∉ L →
  ∃ m0, kalloc (setk m fl L s) = Ok root (setk m0 (hd 0 l1) L s) ∧ root ≠ 0 ∧
    let m1 := memset m0 root 0 PGSIZE in
    uvm_inv m1 (hd 0 l1) l1 root ∧ (∀ va, xlate m1 root va = None) ∧ (∀ b, b ≠ root → not_table m1 root b) ∧
    ∀ x, ¬ (root ≤ x < root + PGSIZE) → rd m1 x = rd m x.
Proof.
  intros Hk HL. destruct (kalloc_some m root l1 fl L s Hk HL) as [E Hk1].
  assert (page_ok root) as Hp by (eapply kmem_inv_page; [exact Hk|left]).
  pose proof (ki_nodup _ _ _ Hk) as [Hnl _]%NoDup_cons.
  assert (∀ x, ¬ (root ≤ x < root + PGSIZE) → rd (memset m root 5 PGSIZE) x = rd m x) as Ho by (intros; apply rd_memset_out; lia).
  exists (memset m root 5 PGSIZE). split; [done|]. split; [destruct Hp; lia|]. clear E.
  revert Hk1 Ho. generalize (memset m root 5 PGSIZE). intros m0 Hk1 Ho m1.
  assert (∀ x, ¬ (root ≤ x < root + PGSIZE) → rd m1 x = rd m x) as Ho1
    by (intros; unfold m1; rewrite rd_memset_out by lia; by apply Ho).
  assert (∀ x, root ≤ x < root + PGSIZE → rd m1 x = 0) as Hz by (intros; unfold m1; rewrite rd_memset_in by lia; done).
  assert (kmem_inv m1 (hd 0 l1) l1) as Hk2.
  { eapply kmem_inv_mem; [exact Hk1|apply bytes_ok_memset, Hk1|]. intros p a Hpl Ha. apply rd_memset_out.
    pose proof (kmem_inv_page _ _ _ p Hk1 Hpl). destruct (page_ok_sep p root); [done|done|by intros ->|lia|lia]. }
  destruct (vm_inv_empty m1 (hd 0 l1) l1 root Hk2 Hp Hnl Hz) as [U X].
  split_and!; [done|done|intros b Hb; by apply zero_not_table|done].
Qed.

(** A parent with one page, at 0, and a child whose table is empty. *)
Definition demo_child : Z := 0x87ff9000.
Lemma demo_family :
  ∃ m fl l, uvm_inv m fl l demo_root ∧ uvm_inv m fl l demo_child ∧ apart m demo_root demo_child ∧
    (∀ va, xlate m demo_child va = None).
Proof.
  destruct demo_inv as [Hu Hx]. set (perm := Z.lor (Z.lor PTE_R PTE_W) PTE_U).
  assert (∀ b, b ≠ demo_root → not_table demo_mem demo_root b) as Hnt.
  { intros b Hb. apply zero_not_table; [|done]. intros x Hxx. unfold demo_root, PGSIZE in Hxx. apply demo_rd; lia. }
  assert ((0x87ff8000 ∉ demo_pool) ∧ demo_child ∉ demo_pool) as [Hl8 Hl9]
    by (unfold demo_pool, demo_child; split; rewrite !not_elem_of_cons, elem_of_nil; lia).
  destruct (map_fresh demo_root 0 0x87ff8000 perm demo_mem 0x87ff1000 demo_pool [] kstate0)
    as (r & m & l & j & _ & I & T & M & _ & D); [done|apply not_elem_of_nil|done|apply Hx| |done|].
  { split; [by apply demo_page_ok|done|by apply Hnt|]. intros va v _. by rewrite Hx. }
  assert (page_ok demo_child) as Hp by (by apply demo_page_ok).
  destruct (tf_frame _ _ _ _ _ T demo_child Hp Hl9 (Hnt demo_child ltac:(unfold demo_child, demo_root; lia))) as [Hz Hn9].
  assert (∀ x, demo_child ≤ x < demo_child + PGSIZE → rd m x = 0) as Hz0.
  { intros x Hxx. rewrite Hz by done. unfold demo_child, PGSIZE in Hxx. apply demo_rd; lia. }
  destruct (vm_inv_empty m (hd 0 l) l demo_child) as [I9 X9];
    [apply I|done|eapply not_in_suffix; [apply T|done]|done|].
  exists m, (hd 0 l), l. split_and!; [done|done| |done]. intros b Hb. apply zero_not_table; [done|]. intros ->.
  destruct Hb as [(q & Hq & E)|(va & v & Hva & E & Hb)]; [by apply (Hn9 q)|].
  rewrite M in E by done. destruct (decide _) as [Hd|Hd]; [|by rewrite Hx in E]. assert (va = 0) as ->.
  { assert (j ≤ 1) by (destruct D as [[_ ->]|(_ & -> & _)]; lia). destruct Hva as [_ Hva]. unfold PGSIZE in *. zlia. }
  injection E as <-. vm_compute in Hb. discriminate.
Qed.

Lemma uvmcopy_copies_witness :
  ∃ m fl r m' l', uvmcopy demo_root demo_child 0x1800 (setk m fl [] kstate0) = Ok r (setk m' (hd 0 l') [] kstate0) ∧
    (∀ va, 0 ≤ va < MAXVA → uread m' demo_root va = uread m demo_root va) ∧
    (r = 0 → uread m' demo_child 5 = uread m demo_root 5).
Proof.
  destruct demo_family as (m & fl & l & Io & In & Ha & Hx). exists m, fl.
  destruct (uvmcopy_copies demo_root demo_child 0x1800 m fl l [] kstate0) as (r & m' & l' & E & _ & _ & _ & Hr & _ & D);
    [done|done|done|apply not_elem_of_nil|done|intros; apply Hx|].
  exists r, m', l'. split_and!; [exact E|exact Hr|]. intros ->. destruct D as [(_ & _ & H)|[? _]]; [apply H; lia|lia].
Defined.
