(* ===== verification/VmKernel.v ===== *)
(** * kernel/vm.c: the kernel's own address space

    [kvmmake] builds the page table the kernel runs on: the devices and RAM
    at their own addresses, the trampoline at the top, and a stack for every
    process with an unmapped page below it.  The map it should build is
    [kspace], region by region; the theorem says that [kinit] and [kvmmake] build
    exactly that map out of raw memory, without running out of pages.  A leaf
    table covers 512 pages, so that a region costs two tables per 2 MB it
    touches; [table_cost] is that bound. *)

From S2P Require Import Prelude Riscv Kstate CString Kalloc Vm VmProps VmCopy VmFork.

(** ** The intended map *)

(** A region: virtual address, physical address, size, permissions. *)
Record region := mk_region { rg_va : Z; rg_pa : Z; rg_size : Z; rg_perm : Z }.

Definition in_region (r : region) (va : Z) : Prop := rg_va r ≤ va < rg_va r + rg_size r.
#[export] Instance in_region_dec r va : Decision (in_region r va).
Proof. unfold in_region. apply _. Defined.

Definition rw : Z := Z.lor PTE_R PTE_W.
Definition rx : Z := Z.lor PTE_R PTE_X.

Definition device_regions : list region :=
  [mk_region UART0 UART0 PGSIZE rw; mk_region VIRTIO0 VIRTIO0 PGSIZE rw; mk_region PLIC PLIC 0x4000000 rw].
Definition ram_regions (etext trampoline : Z) : list region :=
  [mk_region KERNBASE KERNBASE (etext - KERNBASE) rx; mk_region etext etext (PHYSTOP - etext) rw;
   mk_region TRAMPOLINE trampoline PGSIZE rx].
Definition board_regions : list region :=
  [mk_region VIRT_TEST VIRT_TEST PGSIZE rw; mk_region VIRT_RTC VIRT_RTC PGSIZE PTE_R].
Definition stack_regions (i : Z) (stacks : list Z) : list region :=
  imap (λ k pa, mk_region (KSTACK (i + Z.of_nat k)) pa PGSIZE rw) stacks.

Definition kernel_regions (etext trampoline : Z) : list region :=
  device_regions ++ ram_regions etext trampoline ++ board_regions.

(** The map of a list of regions, earlier ones first. *)
Fixpoint kspace (rs : list region) (va : Z) : option Z :=
  match rs with
  | [] => None
  | r :: rs =>
      if decide (in_region r va) then Some (mkpte (rg_pa r + (va - rg_va r)) (rg_perm r))
      else kspace rs va
  end.

(** ** One region *)

Definition table_cost (size : Z) : Z := 2 * (2 + size / 2 ^ 21).

Lemma crossed_le a k : 0 ≤ a → crossed a k ≤ 1 + Z.of_nat k * PGSIZE / 2 ^ 21.
Proof. intros Ha. unfold crossed, PGSIZE. zlia. Qed.

Lemma kvmmap_ok root va pa size perm m fl l L s :
  vm_inv m fl l root → LKmem ∉ L → va_ok va → 0 < size → size mod PGSIZE = 0 →
  va + size ≤ MAXVA → 0 ≤ pa → pa + size ≤ 2 ^ 56 → 0 ≤ perm < 1024 →
  (∀ va', va_ok va' → va ≤ va' < va + size → xlate m root va' = None) →
  table_cost size < Z.of_nat (length l) →
  ∃ m' l', kvmmap root va pa size perm (setk m fl L s) = Ok () (setk m' (hd 0 l') L s) ∧
    vm_inv m' (hd 0 l') l' root ∧ tframe m l m' l' root ∧
    mapped m m' root va pa perm (size / PGSIZE) ∧
    Z.of_nat (length l) ≤ Z.of_nat (length l') + table_cost size.
Proof.
  intros Hi HL Hva Hs0 Hs Hb Hpa Hpb Hpm Hx Hc. assert (MAXVA = 2 ^ 38) as HM by done.
  set (k := Z.to_nat (size / PGSIZE)).
  assert (Z.of_nat k * PGSIZE = size) as Hk by (unfold k; rewrite Z2Nat.id; unfold PGSIZE in *; zlia).
  pose proof (crossed_le va k (proj1 (proj1 Hva))) as Hcr. rewrite Hk in Hcr. unfold table_cost in *.
  destruct (mappages_loop_spent k root va pa perm m fl l L s 1)
    as (r & m' & l' & j & H1 & H2 & H3 & H3' & H4 & Hsp & H5);
    [done|done|done|unfold PGSIZE in *; lia|lia|done|lia|done|by rewrite Hk|by left|].
  destruct H5 as [[-> ->]|(_ & _ & ->)]; [|simpl in Hsp; lia].
  exists m', l'. split_and!; [|done|done| |lia].
  - unfold kvmmap, mappages. rewrite (proj2 Hva), Hs, (proj2 (Z.eqb_neq size 0)) by lia. cbn [negb Z.eqb].
    fold k. rewrite u64_small by (destruct Hva; unfold PGSIZE in *; lia).
    replace (va + size - PGSIZE) with (va + (Z.of_nat k - 1) * PGSIZE) by lia.
    by rewrite (bind_ok _ _ _ _ _ H1).
  - rewrite <- (Z.div_unique_exact size PGSIZE (Z.of_nat k)) by (unfold PGSIZE in *; lia). exact H4.
Qed.

(** ** Building the map region by region *)

Record region_ok (r : region) : Prop := {
  ro_va : va_ok (rg_va r);
  ro_size : 0 < rg_size r ∧ rg_size r mod PGSIZE = 0;
  ro_top : rg_va r + rg_size r ≤ MAXVA;
  ro_pa : 0 ≤ rg_pa r ∧ rg_pa r + rg_size r ≤ 2 ^ 56;
  ro_perm : 0 ≤ rg_perm r < 1024;
}.

Definition disjoint_regions (r q : region) : Prop :=
  rg_va r + rg_size r ≤ rg_va q ∨ rg_va q + rg_size q ≤ rg_va r.

(** Each region of [rs'] is disjoint from [rs] and from those before it. *)
Fixpoint all_disjoint (rs rs' : list region) : Prop :=
  match rs' with
  | [] => True
  | r :: rs' => Forall (disjoint_regions r) rs ∧ all_disjoint (rs ++ [r]) rs'
  end.

(** The table at [root] holds exactly the regions [rs]. *)
Record built (m : memory) (l : list Z) (root : Z) (rs : list region) : Prop := {
  bu_vm : vm_inv m (hd 0 l) l root;
  bu_map va : va_ok va → xlate m root va = kspace rs va;
}.

Lemma kspace_app rs rs' va :
  kspace (rs ++ rs') va = match kspace rs va with Some v => Some v | None => kspace rs' va end.
Proof. induction rs as [|r rs IH]; [done|]. cbn [app kspace]. by case_decide. Qed.

Lemma kspace_None rs va : Forall (λ r, ¬ in_region r va) rs → kspace rs va = None.
Proof. induction 1; [done|]. cbn [kspace]. by rewrite decide_False. Qed.

Lemma map_region r rs root m l L s :
  built m l root rs → LKmem ∉ L → region_ok r → Forall (disjoint_regions r) rs →
  table_cost (rg_size r) < Z.of_nat (length l) →
  ∃ m' l', kvmmap root (rg_va r) (rg_pa r) (rg_size r) (rg_perm r) (setk m (hd 0 l) L s) =
      Ok () (setk m' (hd 0 l') L s) ∧
    built m' l' root (rs ++ [r]) ∧ tframe m l m' l' root ∧
    Z.of_nat (length l) ≤ Z.of_nat (length l') + table_cost (rg_size r).
Proof.
  intros [Hi Hm] HL [Hva [Hs Hs'] Ht [Hp Hp'] Hpm] Hd Hc.
  assert (∀ va, in_region r va → kspace rs va = None) as Hn.
  { intros va Hr. apply kspace_None. eapply Forall_impl; [exact Hd|]. unfold disjoint_regions, in_region in *. cbn. lia. }
  destruct (kvmmap_ok root (rg_va r) (rg_pa r) (rg_size r) (rg_perm r) m (hd 0 l) l L s)
    as (m' & l' & E & I & T & M & C); [done..| |done|].
  { intros va Hv Hr. rewrite Hm by done. by apply Hn. }
  exists m', l'. split_and!; [done| |done|done]. split; [done|]. intros va Hv. rewrite M, Hm by done.
  rewrite kspace_app. cbn [kspace].
  replace (rg_size r / PGSIZE * PGSIZE) with (rg_size r) by (unfold PGSIZE in *; zlia).
  destruct (decide (in_region r va)) as [Hr|Hr].
  - rewrite Hn by done. by rewrite decide_True.
  - rewrite decide_False by done. by destruct (kspace rs va).
Qed.

(** A sequence of calls of [kvmmap]. *)
Definition map_regions (root : Z) (rs : list region) (k : K Z) : K Z :=
  foldr (λ r k, kvmmap root (rg_va r) (rg_pa r) (rg_size r) (rg_perm r);; k) k rs.

Definition cost_of (rs : list region) : Z := foldr (λ r c, table_cost (rg_size r) + c) 0 rs.

Lemma cost_pos size : 0 ≤ size → 0 ≤ table_cost size.
Proof. intros H. unfold table_cost. assert (0 ≤ size / 2 ^ 21) by (apply Z.div_pos; lia). lia. Qed.

Lemma map_regions_ok root k rs' rs m l L s :
  built m l root rs → LKmem ∉ L → Forall region_ok rs' →
  all_disjoint rs rs' →
  cost_of rs' < Z.of_nat (length l) →
  ∃ m' l', map_regions root rs' k (setk m (hd 0 l) L s) = k (setk m' (hd 0 l') L s) ∧
    built m' l' root (rs ++ rs') ∧ tframe m l m' l' root ∧
    Z.of_nat (length l) ≤ Z.of_nat (length l') + cost_of rs'.
Proof.
  revert rs m l. induction rs' as [|r rs' IH]; intros rs m l Hb HL Ho Hd Hc.
  { exists m, l. rewrite app_nil_r. split_and!; [done|done|apply tframe_refl|simpl; lia]. }
  apply Forall_cons in Ho as [Hr Ho]. cbn [cost_of foldr] in Hc. fold (cost_of rs') in Hc.
  assert (0 ≤ cost_of rs') as Hc0.
  { clear -Ho. induction Ho as [|q rs' Hq _ IH]; [done|]. cbn [cost_of foldr]. fold (cost_of rs').
    pose proof (cost_pos (rg_size q)). destruct Hq. lia. }
  destruct Hd as [Hd Hd'].
  destruct (map_region r rs root m l L s Hb HL Hr Hd) as (m1 & l1 & E & B1 & T1 & C1); [lia|].
  destruct (IH (rs ++ [r]) m1 l1 B1 HL Ho Hd') as (m' & l' & E' & B' & T' & C'); [lia|].
  exists m', l'. cbn [map_regions foldr]. rewrite (bind_ok _ _ _ _ _ E). split_and!; [done| |by eapply tframe_trans|].
  - by rewrite <- app_assoc in B'.
  - cbn [cost_of foldr]. fold (cost_of rs'). lia.
Qed.

(** ** Stacks *)

(** Pages handed out: neither free nor page-table pages. *)
Definition owned_pages (m : memory) (l : list Z) (root : Z) (bs : list Z) : Prop :=
  NoDup bs ∧ Forall (λ b, page_ok b ∧ (b ∉ l) ∧ not_table m root b) bs.

Lemma owned_tframe m l m' l' root bs :
  tframe m l m' l' root → owned_pages m l root bs → owned_pages m' l' root bs.
Proof.
  intros [T1 T2] [H1 H2]. split; [done|]. eapply Forall_impl; [exact H2|]. intros b (? & ? & ?).
  split_and!; [done|by eapply not_in_suffix|by apply T2].
Qed.

Lemma stack_regions_snoc i stk pa :
  stack_regions i (stk ++ [pa]) =
  stack_regions i stk ++ [mk_region (KSTACK (i + Z.of_nat (length stk))) pa PGSIZE rw].
Proof. unfold stack_regions. rewrite imap_app. cbn. by rewrite Nat.add_0_r. Qed.

Lemma stack_regions_in i stk r : r ∈ stack_regions i stk →
  ∃ k, (k < length stk)%nat ∧ rg_va r = KSTACK (i + Z.of_nat k) ∧ rg_size r = PGSIZE.
Proof.
  unfold stack_regions. intros (k & pa & -> & Hk)%elem_of_lookup_imap. exists k.
  split; [by eapply lookup_lt_Some|done].
Qed.

Lemma kalloc_built root rs m l bs L s :
  built m l root rs → owned_pages m l root bs → LKmem ∉ L → (0 < length l)%nat →
  ∃ pg m' l', l = pg :: l' ∧ kalloc (setk m (hd 0 l) L s) = Ok pg (setk m' (hd 0 l') L s) ∧ pg ≠ 0 ∧
    built m' l' root rs ∧ owned_pages m' l' root (bs ++ [pg]) ∧ page_ok pg.
Proof.
  intros [Hi Hm] [Hn Ho] HL Hl. pose proof (kalloc_vm m (hd 0 l) l root L s Hi HL) as Hk.
  destruct l as [|pg l']; [simpl in Hl; lia|]. destruct Hk as (E & I & T & P & N & Nl).
  exists pg, (memset m pg 5 PGSIZE), l'. split_and!; [done|done|destruct P; lia| | |done].
  - split; [done|]. intros va Hva. rewrite (xlate_frame m) by done. by apply Hm.
  - split.
    + apply NoDup_app. split_and!; [done| |apply NoDup_singleton].
      intros b Hb ->%list_elem_of_singleton. eapply Forall_forall in Ho as (_ & Hnl & _); [|done]. apply Hnl. left.
    + apply Forall_app. split; [|apply Forall_singleton; split_and!; [done|done|by eapply not_table_frame]].
      eapply Forall_impl; [exact Ho|]. intros b (Hb & Hbl & Hbt). apply not_elem_of_cons in Hbl as [_ ?].
      split_and!; [done|done|by eapply not_table_frame].
Qed.

(** The region of stack [i] is above everything but the trampoline. *)
Lemma stack_region_ok i pa : 0 ≤ i < 64 → page_ok pa → region_ok (mk_region (KSTACK i) pa PGSIZE rw).
Proof.
  intros Hi [Ha Hp]. assert (TRAMPOLINE = 2 ^ 38 - 4096 ∧ MAXVA = 2 ^ 38 ∧ PHYSTOP = 0x88000000) as (HT & HM & HP) by done.
  split; cbn; unfold va_ok, KSTACK, PGSIZE in *; [split; [lia|]|split; [lia|done]|lia|lia|done].
  rewrite HT. zlia.
Qed.

Lemma stack_disjoint i stk pa : 0 ≤ i →
  Forall (disjoint_regions (mk_region (KSTACK (i + Z.of_nat (length stk))) pa PGSIZE rw)) (stack_regions i stk).
Proof.
  intros Hi. apply Forall_forall. intros r (k & Hk & Hv & Hs)%stack_regions_in.
  unfold disjoint_regions. cbn. rewrite Hv, Hs. unfold KSTACK, PGSIZE. lia.
Qed.

(** Room for the stacks above the regions mapped so far. *)
Definition below_stacks (r : region) : Prop :=
  rg_va r + rg_size r ≤ KSTACK 64 ∨ TRAMPOLINE ≤ rg_va r.

Lemma below_disjoint r i pa : 0 ≤ i < 64 → below_stacks r → disjoint_regions (mk_region (KSTACK i) pa PGSIZE rw) r.
Proof. unfold below_stacks, disjoint_regions, KSTACK, PGSIZE. cbn. lia. Qed.

Lemma mapstacks_ok n stk root rs m l L s :
  built m l root (rs ++ stack_regions 0 stk) → owned_pages m l root stk → LKmem ∉ L →
  Forall below_stacks rs → (length stk + n = 64)%nat → (5 * n < length l)%nat →
  ∃ m' l' stk', proc_mapstacks_loop n (Z.of_nat (length stk)) root (setk m (hd 0 l) L s) =
      Ok () (setk m' (hd 0 l') L s) ∧
    built m' l' root (rs ++ stack_regions 0 (stk ++ stk')) ∧ owned_pages m' l' root (stk ++ stk') ∧
    length stk' = n ∧ l' `suffix_of` l ∧ Forall (.∈ l) stk' ∧ (length l ≤ length l' + 5 * n)%nat.
Proof.
  revert stk m l. induction n as [|n IH]; intros stk m l Hb Ho HL Hr Hn Hl.
  { exists m, l, []. rewrite !app_nil_r. split_and!; done || lia. }
  destruct (kalloc_built root _ m l stk L s Hb Ho HL) as (pg & m1 & l1 & -> & E1 & Hp0 & B1 & O1 & P1); [lia|].
  cbn [proc_mapstacks_loop]. rewrite (bind_ok _ _ _ _ _ E1), (proj2 (Z.eqb_neq pg 0)) by done.
  cbn [length] in Hl. set (r := mk_region (KSTACK (0 + Z.of_nat (length stk))) pg PGSIZE rw).
  destruct (map_region r (rs ++ stack_regions 0 stk) root m1 l1 L s B1 HL) as (m2 & l2 & E2 & B2 & T2 & C2).
  { apply stack_region_ok; [lia|done]. }
  { apply Forall_app. split; [|by apply stack_disjoint]. eapply Forall_impl; [exact Hr|].
    intros q Hq. apply below_disjoint; [lia|done]. }
  { cbn. change (table_cost PGSIZE) with 4. lia. }
  cbn [rg_va rg_pa rg_size rg_perm r] in E2. rewrite Z.add_0_l in E2. change rw with (Z.lor PTE_R PTE_W) in E2.
  rewrite (bind_ok _ _ _ _ _ E2). change (table_cost (rg_size r)) with 4 in C2.
  unfold r in B2. rewrite <- app_assoc, <- stack_regions_snoc in B2.
  destruct (IH (stk ++ [pg]) m2 l2 B2) as (m' & l' & stk' & E' & B' & O' & N' & S' & F' & G');
    [by eapply owned_tframe|done|done|rewrite length_app; simpl; lia|lia|].
  exists m', l', (pg :: stk'). rewrite <- app_assoc in B', O'. cbn [app] in B', O'.
  split_and!; [|done|done|simpl; lia| | |simpl; lia].
  - rewrite <- E'. rewrite length_app. f_equal. simpl. lia.
  - etrans; [exact S'|]. etrans; [apply T2|]. by apply suffix_cons_r.
  - constructor; [left|]. eapply Forall_impl; [exact F'|]. intros b Hb'. right.
    destruct (tf_free _ _ _ _ _ T2) as [k ->]. apply elem_of_app. by right.
Qed.

(** ** kvmmake *)

(** The linker's symbols: the text ends at a page boundary below the end of
    the kernel, and the trampoline is a page of the text. *)
Record kernel_layout (etext trampoline kend : Z) : Prop := {
  kl_etext : KERNBASE < etext ∧ etext mod PGSIZE = 0 ∧ etext ≤ kend;
  kl_tramp : KERNBASE ≤ trampoline < etext ∧ trampoline mod PGSIZE = 0;
  kl_room : kend + 600 * PGSIZE ≤ PHYSTOP;
}.

Lemma ram_pages_many kend l :
  0 < kend → kend + 600 * PGSIZE ≤ PHYSTOP → NoDup l → (∀ p, p ∈ l ↔ ram_pages kend p) →
  (599 ≤ length l)%nat.
Proof.
  intros Hk Hr Hn Hl.
  set (ps := (λ k, PGSIZE * (kend / PGSIZE + 1) + PGSIZE * Z.of_nat k) <$> seq 0 599).
  assert (length ps = 599%nat) as <- by (unfold ps; rewrite length_fmap; apply length_seq).
  apply submseteq_length, NoDup_submseteq.
  - apply NoDup_fmap_2; [|apply NoDup_seq]. intros a b E. unfold PGSIZE in E. lia.
  - intros p (k & -> & Hs%elem_of_seq)%list_elem_of_fmap. apply Hl. unfold ram_pages, PGSIZE in *.
    split_and!; zlia.
Qed.

Lemma kernel_regions_ok etext trampoline kend :
  kernel_layout etext trampoline kend → Forall region_ok (kernel_regions etext trampoline).
Proof.
  intros [(He & Ha & Hk) [Ht Ht'] Hr].
  assert (TRAMPOLINE = 2 ^ 38 - 4096 ∧ MAXVA = 2 ^ 38 ∧ PHYSTOP = 0x88000000 ∧ KERNBASE = 0x80000000) as (HT & HM & HP & HK) by done.
  unfold kernel_regions, device_regions, ram_regions, board_regions.
  repeat apply Forall_cons_2; try apply Forall_nil_2; split; cbn; unfold va_ok, UART0, VIRTIO0, PLIC, VIRT_TEST, VIRT_RTC, PGSIZE in *;
    rewrite ?HT, ?HM, ?HP, ?HK in *; split_and?; done || lia || zlia.
Qed.

Lemma kernel_regions_cost etext trampoline kend :
  kernel_layout etext trampoline kend → cost_of (kernel_regions etext trampoline) ≤ 224.
Proof.
  intros [(He & Ha & Hk) [Ht Ht'] Hr]. cbn. change (table_cost PGSIZE) with 4. change (table_cost 67108864) with 68.
  unfold table_cost, PHYSTOP, KERNBASE, PGSIZE in *. zlia.
Qed.

Lemma kernel_regions_disjoint etext trampoline kend :
  kernel_layout etext trampoline kend →
  all_disjoint [] (kernel_regions etext trampoline) ∧ Forall below_stacks (kernel_regions etext trampoline).
Proof.
  intros [(He & Ha & Hk) [Ht Ht'] Hr].
  assert (TRAMPOLINE = 2 ^ 38 - 4096 ∧ PHYSTOP = 0x88000000 ∧ KERNBASE = 0x80000000) as (HT & HP & HK) by done.
  unfold kernel_regions, device_regions, ram_regions, board_regions. split.
  - cbn [all_disjoint app]. split_and!; try done; repeat apply Forall_cons_2; try apply Forall_nil_2;
      unfold disjoint_regions, UART0, VIRTIO0, PLIC, VIRT_TEST, VIRT_RTC, PGSIZE in *;
      cbn [rg_va rg_pa rg_size rg_perm]; rewrite ?HT, ?HP, ?HK in *; lia.
  - repeat apply Forall_cons_2; try apply Forall_nil_2;
      unfold below_stacks, KSTACK, UART0, VIRTIO0, PLIC, VIRT_TEST, VIRT_RTC, PGSIZE in *;
      cbn [rg_va rg_pa rg_size rg_perm]; rewrite ?HT, ?HP, ?HK in *; lia.
Qed.

Lemma kvmmake_ok etext trampoline kend m fl l L s :
  kernel_layout etext trampoline kend → kmem_inv m fl l → LKmem ∉ L → (599 ≤ length l)%nat →
  ∃ root m' l' stacks, kvmmake etext trampoline (setk m fl L s) = Ok root (setk m' (hd 0 l') L s) ∧
    built m' l' root (kernel_regions etext trampoline ++ stack_regions 0 stacks) ∧
    owned_pages m' l' root stacks ∧ length stacks = NPROC ∧ l' `suffix_of` l ∧ Forall (.∈ l) (root :: stacks) ∧
    (length l ≤ length l' + 545)%nat.
Proof.
  intros Hlay Hk HL Hlen. destruct l as [|root l1]; [simpl in Hlen; lia|].
  destruct (fresh_table m fl root l1 L s Hk HL) as (m0 & E & Hr0 & U). unfold kvmmake.
  rewrite (bind_ok _ _ _ _ _ E). clear E. krun. revert U. generalize (memset m0 root 0 PGSIZE). intros m1 (U & X & _ & _).
  assert (built m1 l1 root []) as B1 by (split; [apply U|intros va _; apply X]).
  destruct (kernel_regions_disjoint _ _ _ Hlay) as [Hd Hb]. pose proof (kernel_regions_cost _ _ _ Hlay) as Hc.
  cbn [length] in Hlen.
  destruct (map_regions_ok root (proc_mapstacks root;; mret root) (kernel_regions etext trampoline) [] m1 l1 L s B1 HL)
    as (m2 & l2 & E2 & B2 & T2 & C2); [by eapply kernel_regions_ok|done|lia|].
  destruct (mapstacks_ok NPROC [] root (kernel_regions etext trampoline) m2 l2 L s)
    as (m3 & l3 & stk & E3 & B3 & O3 & N3 & S3 & F3 & G3);
    [cbn [stack_regions imap]; by rewrite app_nil_r|split; constructor|done|done|done|unfold NPROC; lia|].
  exists root, m3, l3, stk. split_and!; [|done|done|done| | |unfold NPROC in G3; simpl; lia].
  - etrans; [exact E2|]. unfold proc_mapstacks. by rewrite (bind_ok _ _ _ _ _ E3).
  - etrans; [exact S3|]. etrans; [apply T2|]. by apply suffix_cons_r.
  - constructor; [left|]. eapply Forall_impl; [exact F3|]. intros b Hb'. right.
    destruct (tf_free _ _ _ _ _ T2) as [k ->]. apply elem_of_app. by right.
Qed.

(** Below and above every stack there is a page without translation. *)
Lemma guard_pages etext trampoline kend stacks i d :
  kernel_layout etext trampoline kend → length stacks = NPROC → 0 ≤ i < 64 → d = PGSIZE ∨ d = - PGSIZE →
  kspace (kernel_regions etext trampoline ++ stack_regions 0 stacks) (KSTACK i + d) = None.
Proof.
  intros Hlay Hs Hi Hd. apply kspace_None, Forall_app. split; apply Forall_forall.
  - destruct (kernel_regions_disjoint _ _ _ Hlay) as [_ Hb]. pose proof (kernel_regions_ok _ _ _ Hlay) as Ho.
    intros r Hr [Hr1 Hr2]. eapply Forall_forall in Hb; [|exact Hr]. eapply Forall_forall in Ho as [[_ Hal] [_ Hsz] _ _ _]; [|exact Hr].
    unfold below_stacks, KSTACK, PGSIZE in *. assert (TRAMPOLINE = 2 ^ 38 - 4096) as HT by done. rewrite HT in *. zlia.
  - intros r (k & Hk & Hv & Hz)%stack_regions_in. unfold in_region. rewrite Hv, Hz. unfold KSTACK, PGSIZE in *. lia.
Qed.

(** The kernel's address space. From raw memory, whatever it holds, [kinit]
    and [kvmmake] build without panic a well-formed page table whose
    translations are exactly the regions of [kernel_regions] (devices and RAM
    at their own addresses, text executable and not writable, data writable
    and not executable, the trampoline at the top) and one stack per process;
    the stacks are distinct pages of RAM that are neither free nor page-table
    pages any more, and the pages next to a stack are not mapped. *)
Theorem boot_address_space etext trampoline kend m L s :
  kernel_layout etext trampoline kend → bytes_ok m → LKmem ∉ L →
  ∃ root m' l stacks,
    (kinit kend;; kvmmake etext trampoline) (setk m 0 L s) = Ok root (setk m' (hd 0 l) L s) ∧
    vm_inv m' (hd 0 l) l root ∧ length stacks = NPROC ∧ NoDup stacks ∧
    (∀ b, b ∈ stacks → ram_pages kend b ∧ (b ∉ l) ∧ not_table m' root b) ∧
    (∀ va, va_ok va → xlate m' root va =
       kspace (kernel_regions etext trampoline ++ stack_regions 0 stacks) va) ∧
    (∀ i, 0 ≤ i < 64 → xlate m' root (KSTACK i - PGSIZE) = None ∧ xlate m' root (KSTACK i + PGSIZE) = None).
Proof.
  intros Hlay Hb HL. pose proof Hlay as [(He & Ha & Hk) _ Hr].
  destruct (kinit_free_pages m kend L s) as (m1 & l1 & E1 & K1 & P1);
    [unfold KERNBASE, PGSIZE in *; lia|done|done|].
  destruct (kvmmake_ok etext trampoline kend m1 (hd 0 l1) l1 L s Hlay K1 HL)
    as (root & m' & l' & stacks & E2 & B2 & [O2 O3] & N2 & S2 & F2 & _).
  { eapply ram_pages_many; [|done|apply K1|done]. unfold KERNBASE in *. lia. }
  apply Forall_cons in F2 as [_ F2]. exists root, m', l', stacks.
  assert (TRAMPOLINE = 2 ^ 38 - 4096 ∧ MAXVA = 2 ^ 38) as [HT HM] by done.
  split_and!; [by rewrite (bind_ok _ _ _ _ _ E1)|apply B2|done|done| |apply B2|].
  - intros b Hin. eapply Forall_forall in O3 as (_ & ? & ?); [|done]. split_and!; [|done|done].
    apply P1. by eapply Forall_forall in F2.
  - intros i Hi. change (KSTACK i - PGSIZE) with (KSTACK i + - PGSIZE).
    rewrite !(bu_map _ _ _ _ B2) by (unfold va_ok, KSTACK, PGSIZE; rewrite HT, HM; split; [lia|zlia]).
    split; eapply guard_pages; eauto.
Qed.

Lemma boot_address_space_witness :
  kernel_layout 0x80008000 0x80007000 0x80031234 ∧
  ∃ root m' l (stacks : list Z),
    (kinit 0x80031234;; kvmmake 0x80008000 0x80007000) (setk ∅ 0 [] kstate0) = Ok root (setk m' (hd 0 l) [] kstate0) ∧
    xlate m' root UART0 = Some (mkpte UART0 rw) ∧ length stacks = NPROC ∧
    xlate m' root (KSTACK 3 - PGSIZE) = None.
Proof.
  assert (kernel_layout 0x80008000 0x80007000 0x80031234) as Hlay by (split; unfold KERNBASE, PHYSTOP, PGSIZE; split_and?; done || lia).
  split; [exact Hlay|].
  destruct (boot_address_space 0x80008000 0x80007000 0x80031234 ∅ [] kstate0 Hlay)
    as (root & m' & l & stacks & E & _ & N & _ & _ & X & G).
  { intros a. unfold rd. rewrite lookup_empty. cbn. lia. }
  { apply not_elem_of_nil. }
  exists root, m', l, stacks. split; [exact E|]. split; [|split; [exact N|refine (proj1 (G 3 _)); split; done]].
  refine (eq_trans (X UART0 (conj (conj _ _) _)) _); [done..|reflexivity].
Defined.
