(* ===== verification/VmFree.v ===== *)
(** * kernel/vm.c: freeing an address space

    [freewalk] returns the pages of a table to the pool, subtrees first, and
    [uvmfree] the memory and then the tables: everything the address space
    owned, each page once. *)

From S2P Require Import Prelude Riscv Kstate CString Kalloc Vm VmProps VmCopy VmFork.

(** ** Tables of at most [k] levels below the first *)

Definition below (m : memory) (k : nat) (a b : Z) : Prop :=
  ∃ q, (length q ≤ k)%nat ∧ Forall idx_ok q ∧ node m a q = Some b.

Record tree (m : memory) (k : nat) (a : Z) (l : list Z) : Prop := {
  tr_inj p q b : (length p ≤ k)%nat → (length q ≤ k)%nat → Forall idx_ok p → Forall idx_ok q →
    node m a p = Some b → node m a q = Some b → p = q;
  tr_page b : below m k a b → page_ok b ∧ b ∉ l;
  tr_dir p b i : (length p < k)%nat → Forall idx_ok p → idx_ok i → node m a p = Some b →
    valid (load64 m (b + 8 * i)) = true → Z.land (load64 m (b + 8 * i)) (Z.lor (Z.lor PTE_R PTE_W) PTE_X) = 0;
  tr_leaf p b i : length p = k → Forall idx_ok p → idx_ok i → node m a p = Some b → valid (load64 m (b + 8 * i)) = false;
}.

Lemma below_self m k a : below m k a a.
Proof. exists []. split_and!; [simpl; lia|constructor|done]. Qed.

(** The table [i] of [a]. *)
Section child.
Context (m : memory) (k : nat) (a : Z) (l : list Z) (i : Z).
Context (T : tree m (S k) a l) (Hi : idx_ok i) (Hv : valid (load64 m (a + 8 * i)) = true).
Let c := PTE2PA (load64 m (a + 8 * i)).

Lemma child_node q : node m a (i :: q) = node m c q.
Proof using Hv. cbn [node]. by rewrite Hv. Qed.
Lemma child_below b : below m k c b → below m (S k) a b.
Proof using Hv Hi. intros (q & Hl & Hq & E). exists (i :: q). split_and!; [simpl; lia|by constructor|by rewrite child_node]. Qed.
Lemma child_tree : tree m k c l.
Proof using All.
  split.
  - intros p q b H1 H2 H3 H4 E1 E2. rewrite <- !child_node in *.
    assert (i :: p = i :: q) as [=]; [|done]. eapply (tr_inj _ _ _ _ T); [simpl; lia..| | |exact E1|exact E2]; by constructor.
  - intros b Hb. by apply (tr_page _ _ _ _ T), child_below.
  - intros p b j Hl Hp Hj. rewrite <- child_node. intros E. apply (tr_dir _ _ _ _ T (i :: p)); [simpl; lia|by constructor|done|done].
  - intros p b j Hl Hp Hj. rewrite <- child_node. intros E. apply (tr_leaf _ _ _ _ T (i :: p)); [simpl; lia|by constructor|done|done].
Qed.
Lemma child_not_self : ¬ below m k c a.
Proof using All.
  intros (q & Hl & Hq & E). rewrite <- child_node in E.
  assert (i :: q = []); [|done]. eapply (tr_inj _ _ _ _ T); [simpl; lia..|by constructor|constructor|exact E|done].
Qed.

(** ** Removing it *)

Context (m1 : memory) (l1 : list Z) (Hl1 : ∀ b, b ∈ l1 ↔ b ∈ l ∨ below m k c b).
Context (Hout : ∀ x, (∀ b, below m k c b → ¬ (b ≤ x < b + PGSIZE)) → rd m1 x = rd m x).
Let m2 := store64 m1 (a + 8 * i) 0.

(** A table that is not the child's keeps its entries but the one cleared. *)
Lemma remove_load b j :
  below m (S k) a b → ¬ below m k c b → idx_ok j → b ≠ a ∨ j ≠ i → load64 m2 (b + 8 * j) = load64 m (b + 8 * j).
Proof using All.
  intros Hb Hnc Hj Hne. destruct (tr_page _ _ _ _ T b Hb) as [Hp _]. destruct (tr_page _ _ _ _ T a (below_self _ _ _)) as [Hpa _].
  unfold m2. rewrite load64_store64_ne.
  - apply load64_ext. intros x Hx. apply Hout. intros b' Hb'. destruct (tr_page _ _ _ _ T b' (child_below _ Hb')) as [Hp' _].
    destruct (page_ok_sep b b'); [done|done|by intros ->|unfold idx_ok, PGSIZE in *; lia..].
  - destruct (decide (b = a)) as [->|Hba]; [unfold idx_ok in *; lia|].
    destruct (page_ok_sep b a); [done..|unfold idx_ok, PGSIZE in *; lia|unfold idx_ok, PGSIZE in *; lia].
Qed.

(** The nodes that are left are those not through the child. *)
Lemma remove_not_child p b : (length p ≤ S k)%nat → Forall idx_ok p → head p ≠ Some i → node m a p = Some b → ¬ below m k c b.
Proof using All.
  intros Hl Hp Hh E (q & Hlq & Hq & Eq). rewrite <- child_node in Eq.
  assert (p = i :: q) as ->; [|done]. eapply (tr_inj _ _ _ _ T); [done|simpl; lia|done|by constructor|done|done].
Qed.
Lemma remove_node p : (length p ≤ S k)%nat → Forall idx_ok p → node m2 a p = if decide (head p = Some i) then None else node m a p.
Proof using All.
  intros Hl Hp. case_decide as Hh.
  - destruct p as [|j p]; [done|]. injection Hh as ->. cbn [node]. unfold m2. rewrite load64_store64_eq by lia. done.
  - apply node_ext. intros r j b Hpre Hb. pose proof (prefix_length _ _ Hpre) as Hlen. rewrite length_app in Hlen. simpl in Hlen.
    assert (Forall idx_ok r ∧ idx_ok j) as [Hr Hj].
    { destruct Hpre as [k' ->]. apply Forall_app in Hp as [[? Hj]%Forall_app _]. split; [done|by inversion Hj]. }
    assert (head r ≠ Some i) as Hhr by (destruct r; [done|]; destruct Hpre as [k' ->]; done).
    apply remove_load; [exists r; split_and!; [lia|done|done]|by apply (remove_not_child r); [lia|..]|done|].
    destruct (decide (b = a)) as [->|]; [right|by left].
    assert (r = []) as -> by (eapply (tr_inj _ _ _ _ T r []); [lia|simpl; lia|done|constructor|done|done]).
    destruct Hpre as [k' ->]. simpl in Hh. congruence.
Qed.
Lemma remove_tree : tree m2 (S k) a l1.
Proof using All.
  split.
  - intros p q b H1 H2 H3 H4. rewrite !remove_node by done. repeat case_decide; try done. by apply (tr_inj _ _ _ _ T).
  - intros b (p & Hl & Hp & E). rewrite remove_node in E by done. case_decide as Hh; [done|].
    assert (below m (S k) a b) as Hb by (by exists p). destruct (tr_page _ _ _ _ T b Hb) as [? Hn]. split; [done|].
    rewrite Hl1. intros [?|?]; [done|]. by eapply (remove_not_child p).
  - intros p b j Hl Hp Hj E. rewrite remove_node in E by (done || lia). case_decide as Hh; [done|].
    destruct (decide (b = a ∧ j = i)) as [[-> ->]|Hne]; [unfold m2; by rewrite load64_store64_eq by lia|].
    rewrite remove_load; [by apply (tr_dir _ _ _ _ T p)|exists p; split_and!; [lia|done|done]|apply (remove_not_child p); [lia|done..]|done|].
    destruct (decide (b = a)); [right; intros ->; tauto|by left].
  - intros p b j Hl Hp Hj E. rewrite remove_node in E by (done || lia). case_decide as Hh; [done|].
    destruct (decide (b = a ∧ j = i)) as [[-> ->]|Hne]; [unfold m2; by rewrite load64_store64_eq by lia|].
    rewrite remove_load; [by apply (tr_leaf _ _ _ _ T p)|exists p; split_and!; [lia|done|done]|apply (remove_not_child p); [lia|done..]|done|].
    destruct (decide (b = a)); [right; intros ->; tauto|by left].
Qed.
Lemma remove_below b : below m (S k) a b ↔ below m k c b ∨ below m2 (S k) a b.
Proof using All.
  split.
  - intros (p & Hl & Hp & E). destruct (decide (head p = Some i)) as [Hh|Hh].
    + left. destruct p as [|j p]; [done|]. injection Hh as ->. exists p. rewrite child_node in E. inversion Hp. simpl in Hl. split_and!; [lia|done|done].
    + right. exists p. split_and!; [done|done|]. by rewrite remove_node, decide_False.
  - intros [H|(p & Hl & Hp & E)]; [by apply child_below|]. rewrite remove_node in E by done. case_decide; [done|]. by exists p.
Qed.
End child.

(** ** freewalk *)

(** The pages below [a] are added to the pool; nothing else changes. *)
Definition frees (m : memory) (k : nat) (a : Z) (l : list Z) (L : list lock) (s : kstate)
    (o : res (option chan) kstate ()) : Prop :=
  ∃ m' l', o = Ok () (setk m' (hd 0 l') L s) ∧ kmem_inv m' (hd 0 l') l' ∧
    (∀ b, b ∈ l' ↔ b ∈ l ∨ below m k a b) ∧
    ∀ x, (∀ b, below m k a b → ¬ (b ≤ x < b + PGSIZE)) → rd m' x = rd m x.

(** A table with no valid entry is one page. *)
Lemma frees_page m k a fl l L s :
  tree m k a l → kmem_inv m fl l → LKmem ∉ L → (∀ i, idx_ok i → valid (load64 m (a + 8 * i)) = false) →
  frees m k a l L s (kfree a (setk m fl L s)).
Proof.
  intros T Hk HL Hz. destruct (tr_page _ _ _ _ T a (below_self _ _ _)) as [Hp Hn].
  destruct (kfree_ok m a l fl L s Hk HL Hp Hn) as [E Hk']. pose proof (λ x, freed_mem_out m a fl x) as Hout.
  revert E Hk' Hout. generalize (freed_mem m a fl). intros m' E Hk' Hout.
  assert (∀ b, below m k a b ↔ b = a) as Hb.
  { intros b. split; [|intros ->; apply below_self]. intros ([|i q] & _ & Hq & En); [by injection En|].
    inversion Hq; subst. cbn [node] in En. by rewrite Hz in En. }
  exists m', (a :: l). split_and!; [exact E|exact Hk'| |].
  - intros b. rewrite elem_of_cons, Hb. tauto.
  - intros x Hx. apply Hout, Hx. by apply Hb.
Qed.

Lemma freewalk_at_none rec n m a fl L s :
  (n ≤ 512)%nat → (∀ i, idx_ok i → valid (load64 m (a + 8 * i)) = false) →
  freewalk_at rec n a (setk m fl L s) = kfree a (setk m fl L s).
Proof.
  intros Hn Hz. induction n as [|n IH]; [done|]. cbn [freewalk_at]. unfold ld_pte. krun.
  specialize (Hz (512 - Z.of_nat (S n)) ltac:(unfold idx_ok; lia)). unfold valid in Hz. rewrite Hz. cbn [andb].
  krun. apply IH. lia.
Qed.

(** The scan of a table, given what [rec] does to the tables below. *)
Lemma freewalk_at_ok rec k L s :
  (∀ c m fl l, tree m k c l → kmem_inv m fl l → frees m k c l L s (rec c (setk m fl L s))) → LKmem ∉ L →
  ∀ n a m fl l, (n ≤ 512)%nat → tree m (S k) a l → kmem_inv m fl l →
    (∀ i, 0 ≤ i < 512 - Z.of_nat n → valid (load64 m (a + 8 * i)) = false) →
    frees m (S k) a l L s (freewalk_at rec n a (setk m fl L s)).
Proof.
  intros Hrec HL. induction n as [|n IH]; intros a m fl l Hn T Hk Hz.
  { apply frees_page; [done..|]. intros i Hi. apply Hz. unfold idx_ok in *. lia. }
  cbn [freewalk_at]. set (i := 512 - Z.of_nat (S n)). assert (idx_ok i) as Hi by (unfold idx_ok; lia). unfold ld_pte. krun.
  fold (valid (load64 m (a + 8 * i))). destruct (valid (load64 m (a + 8 * i))) eqn:Hv; cbn [andb].
  2:{ krun. apply IH; [lia|done|done|]. intros j Hj. destruct (decide (j = i)) as [->|]; [done|]. apply Hz. lia. }
  rewrite (tr_dir _ _ _ _ T [] a i) by (done || (simpl; lia) || constructor). cbn [Z.eqb].
  destruct (Hrec (PTE2PA (load64 m (a + 8 * i))) m fl l (child_tree m k a l i T Hi Hv) Hk) as (m1 & l1 & E1 & Hk1 & Hl1 & Hout).
  rewrite (bind_ok2 _ _ _ _ _ _ E1). unfold st_pte. krun.
  pose proof (remove_tree m k a l i T Hi Hv m1 l1 Hl1 Hout) as T2. pose proof (remove_below m k a l i T Hi Hv m1 l1 Hl1 Hout) as B2.
  pose proof (remove_load m k a l i T Hi Hv m1 l1 Hl1 Hout) as L2. pose proof (child_not_self m k a l i T Hi Hv) as Hna.
  assert (load64 (store64 m1 (a + 8 * i) 0) (a + 8 * i) = 0) as L0 by (by apply load64_store64_eq).
  assert (∀ x, ¬ (a ≤ x < a + PGSIZE) → rd (store64 m1 (a + 8 * i) 0) x = rd m1 x) as Ho2
    by (intros x Hx; apply rd_store64_out; unfold idx_ok, PGSIZE in *; lia).
  assert (kmem_inv (store64 m1 (a + 8 * i) 0) (hd 0 l1) l1) as Hk2.
  { eapply kmem_inv_mem; [exact Hk1|apply bytes_ok_store64, Hk1|]. intros p x Hp Hx. apply Ho2.
    destruct (tr_page _ _ _ _ T2 a (below_self _ _ _)) as [Hpa Hal]. pose proof (kmem_inv_page _ _ _ p Hk1 Hp) as Hpp.
    destruct (page_ok_sep p a Hpp Hpa); [by intros ->|lia..]. }
  revert T2 B2 L2 L0 Ho2 Hk2. generalize (store64 m1 (a + 8 * i) 0). intros m2 T2 B2 L2 L0 Ho2 Hk2.
  destruct (IH a m2 (hd 0 l1) l1) as (m' & l' & E & Hk' & Hl' & Ho'); [lia|done|done| |].
  { intros j Hj. destruct (decide (j = i)) as [->|Hne]; [by rewrite L0|].
    rewrite L2; [apply Hz; lia|apply below_self|done|unfold idx_ok in *; lia|by right]. }
  exists m', l'. split_and!; [exact E|exact Hk'| |].
  - intros b. rewrite Hl', Hl1, B2. tauto.
  - intros x Hx. rewrite Ho' by (intros b Hb; apply Hx, B2; by right).
    rewrite Ho2 by (apply Hx, below_self). apply Hout. intros b Hb. apply Hx, B2. by left.
Qed.

Lemma freewalk_ok k L s :
  LKmem ∉ L → ∀ a m fl l, tree m k a l → kmem_inv m fl l → frees m k a l L s (freewalk (S k) a (setk m fl L s)).
Proof.
  intros HL. induction k as [|k IH]; intros a m fl l T Hk; cbn [freewalk].
  - assert (∀ i, idx_ok i → valid (load64 m (a + 8 * i)) = false) as Hz
      by (intros i Hi; by apply (tr_leaf _ _ _ _ T []); [|constructor|..]).
    rewrite freewalk_at_none by (done || lia). by apply frees_page.
  - apply freewalk_at_ok; [exact IH|done|lia|done|done|lia].
Qed.

(** ** uvmfree *)

(** Every triple of indices below MAXVA is that of a page. *)
Lemma px_va i2 i1 i0 :
  0 ≤ i2 < 256 → 0 ≤ i1 < 512 → 0 ≤ i0 < 512 →
  let va := va_of_px i2 i1 i0 in va_ok va ∧ PX 2 va = i2 ∧ PX 1 va = i1 ∧ PX 0 va = i0.
Proof.
  intros H2 H1 H0 va. assert (MAXVA = 2 ^ 38) as HM by done.
  assert (va = ((i2 * 512 + i1) * 512 + i0) * 4096) as -> by (unfold va, va_of_px; lia).
  rewrite !PX_eq by lia. change (12 + 9 * 2) with 30. change (12 + 9 * 1) with 21. change (12 + 9 * 0) with 12.
  change (2 ^ 30) with (4096 * 512 * 512). change (2 ^ 21) with (4096 * 512). change (2 ^ 12) with 4096.
  rewrite <- !Z.div_div, !Z.div_mul by lia. rewrite !Z.div_add_l, !(Z.div_small i0), Z.add_0_r by lia.
  rewrite !Z.div_add_l, !(Z.div_small i1), Z.add_0_r by lia. unfold va_ok, PGSIZE. split_and!; zlia.
Qed.

(** The table of an address space with no leaves. *)
Lemma empty_tree m fl l root :
  uvm_inv m fl l root → (∀ va, va_ok va → xlate m root va = None) → tree m 2 root l.
Proof.
  intros Hu Hx. pose proof (uv_vm _ _ _ _ Hu) as [Hk Hw Hf]. split.
  - intros p q b H1 H2 H3 H4. by apply (pw_inj _ _ Hw).
  - intros b (q & Hl & Hq & E). split; [by apply (pw_page _ _ Hw q)|by apply (Hf q)].
  - intros p b i Hl Hp. apply (pw_dir _ _ Hw); [|done]. split; [lia|done].
  - intros p b i Hl Hp Hi E. destruct p as [|i2 [|i1 [|]]]; try done. clear Hl.
    inversion Hp as [|? ? H2 Hp1]; subst. inversion Hp1 as [|? ? H1 _]; subst. unfold idx_ok in *.
    assert (i2 < 256) as Hlow.
    { destruct (decide (i2 < 256)); [done|]. cbn [node] in E. rewrite (pw_high _ _ Hw i2) in E by lia. done. }
    destruct (px_va i2 i1 i) as (Hva & E2 & E1 & E0); [lia..|]. specialize (Hx _ Hva). unfold xlate, leaf_slot in Hx.
    cbn [walk_path] in Hx. change (Z.of_nat 2) with 2 in Hx. change (Z.of_nat 1) with 1 in Hx. rewrite E2, E1, E0, E in Hx.
    cbn [fmap option_fmap option_map mbind option_bind] in Hx. by destruct (valid _).
Qed.

(** What [uvmunmap] of everything leaves of what was owned. *)
Lemma own_unmapped m m1 root n b :
  same_nodes m m1 root → Z.of_nat n * PGSIZE ≤ MAXVA → (∀ va v, va_ok va → xlate m root va = Some v → va < Z.of_nat n * PGSIZE) →
  own m root b ↔ b ∈ released_range true m root 0 n ∨ ∃ p, path_ok p ∧ node m1 root p = Some b.
Proof.
  intros Hn HM Htop. split.
  - intros [(p & Hp & E)|(va & v & Hva & E & <-)]; [right; exists p; by rewrite Hn|left].
    pose proof (Htop va v Hva E) as Hlt. destruct Hva as [Hva Hal]. apply (elem_released _ _ _ _ (Z.to_nat (va / PGSIZE))).
    + unfold PGSIZE in *. zlia.
    + rewrite <- E. f_equal. unfold PGSIZE in *. zlia.
  - intros [(j & v & Hj & E & <-)%released_inv|(p & Hp & E)]; [|left; exists p; by rewrite <- Hn].
    right. exists (0 + j * PGSIZE), v. split_and!; [|done|done].
    split; [unfold PGSIZE in *; lia|unfold PGSIZE; rewrite Z.add_0_l; apply Z.mod_mul; lia].
Qed.

Lemma uvmfree_ok root sz m fl l L s :
  uvm_inv m fl l root → LKmem ∉ L → 0 ≤ sz ≤ MAXVA → (∀ va, va_ok va → sz ≤ va → xlate m root va = None) →
  ∃ m' l', uvmfree root sz (setk m fl L s) = Ok () (setk m' (hd 0 l') L s) ∧ kmem_inv m' (hd 0 l') l' ∧
    (∀ b, b ∈ l' ↔ b ∈ l ∨ own m root b) ∧ ∀ b x, page_ok b → b ∉ l' → b ≤ x < b + PGSIZE → rd m' x = rd m x.
Proof.
  intros Hu HL Hsz Htop. assert (MAXVA = 2 ^ 38) as HM by done. set (n := PGROUNDUP sz / PGSIZE).
  destruct (PGROUND_spec sz) as (_ & Hal & _ & Hr); [unfold PGSIZE; lia|].
  assert (n * PGSIZE = PGROUNDUP sz ∧ 0 ≤ n) as [En Hn] by (unfold n, PGSIZE in *; split; zlia).
  assert (PGROUNDUP sz ≤ MAXVA) as Hup by (unfold PGSIZE in *; zlia).
  destruct (uvmunmap_ok true root 0 n m fl l L s) as (m1 & H1 & H2 & H3 & H4 & H5); [done|done|done|lia|lia|lia|].
  set (l1 := released_range true m root 0 (Z.to_nat n) ++ l) in *.
  assert (whenM (0 <? sz) (uvmunmap root 0 n true) (setk m fl L s) = Ok () (setk m1 (hd 0 l1) L s)) as E1.
  { destruct (0 <? sz) eqn:E; [exact H1|]. zbool. assert (n = 0) as E0 by (unfold n; assert (sz = 0) as -> by lia; done).
    rewrite E0 in H1. rewrite <- H1. reflexivity. }
  assert (∀ va, va_ok va → xlate m1 root va = None) as Hx.
  { intros va Hva. rewrite H4 by done. case_decide as Hd; [done|]. apply Htop; [done|]. destruct Hva. lia. }
  destruct (freewalk_ok 2 L s HL root m1 (hd 0 l1) l1 (empty_tree _ _ _ _ H2 Hx)) as (m' & l' & E2 & Hk & Hl & Ho); [apply H2|].
  assert (∀ b, below m1 2 root b ↔ ∃ p, path_ok p ∧ node m1 root p = Some b) as Hb.
  { intros b. split; intros (p & Hp); [exists p; unfold path_ok; tauto|]. destruct Hp as [[? ?] ?]. by exists p. }
  assert (∀ b, b ∈ l' ↔ b ∈ l ∨ own m root b) as Hl'.
  { intros b. rewrite Hl, Hb. unfold l1. rewrite elem_of_app. rewrite (own_unmapped m m1 root (Z.to_nat n) b H5); [tauto|rewrite Z2Nat.id, En by lia; done|rewrite Z2Nat.id, En by lia].
    intros va v Hva E. destruct (decide (va < PGROUNDUP sz)); [done|]. rewrite Htop in E by (done || lia). done. }
  exists m', l'. split_and!; [|done|done|].
  - unfold uvmfree. fold n. by rewrite (bind_ok _ _ _ _ _ E1).
  - intros b x Hp Hbl Hxx. assert (b ∉ l1) as Hbl1 by (intros H; by apply Hbl, Hl; left).
    assert (not_table m root b) as Hnt by (intros p Hpp E; apply Hbl, Hl'; right; left; by exists p).
    destruct (H3 b Hp) as [Hrd _]; [|done|done|]. { intros H. apply Hbl1, elem_of_app. by right. }
    rewrite <- Hrd by done. apply Ho. intros b' Hb'%Hb. assert (page_ok b') by (destruct Hb' as (p & Hpp & E); by eapply pw_page; [apply H2|..]).
    destruct (page_ok_sep b b'); [done|done| |lia|lia]. intros ->. apply Hbl, Hl. right. by apply Hb.
Qed.
