(* ===== verification/Sched.v ===== *)
(** * kernel/proc.c, kernel/sleeplock.c: giving up the CPU, and sleep locks

    [sleep], [wakeup], [sched], [yield], [kkill], [killed] and [setkilled] of
    proc.c, and the sleep locks built on them.  [swtch] to the scheduler is
    the [Sleep] result: the thread's state and what it does once a CPU runs it
    again, in whatever state it finds then.

    The lemmas say what these routines do when they need not sleep, and that
    [wakeup] only touches the processes sleeping on its channel. *)

From S2P Require Import Prelude Riscv Kstate CString Kalloc Vm.

(** ** Processes by index *)

Definition setproc (i : nat) (f : proc → proc) : K () := update upd_procs (alter f i).

(** ** sched, yield, sleep, wakeup *)

(** [mycpu()->noff] counts the locks held, so [noff != 1] says that another
    lock than [p->lock] is held.  Interrupts are off while a lock is held. *)
Definition sched : K () :=
  i ← myproc;
  p ← getproc i;
  L ← gets locks;
  if negb (bool_decide (LProc i ∈ L)) then panic "sched p->lock" else
  if negb (bool_decide (length L = 1%nat)) then panic "sched locks" else
  if bool_decide (pr_state p = RUNNING) then panic "sched RUNNING" else
  (λ s, Sleep (pr_chan p) s (λ s', Ok () s')).

Definition yield : K () :=
  i ← myproc;
  acquire (LProc i);;
  setproc i (λ p, p <| upd_pr_state := RUNNABLE |>);;
  sched;;
  release (LProc i).

Definition sleep (ch : chan) (lk : lock) : K () :=
  i ← myproc;
  acquire (LProc i);;
  release lk;;
  setproc i (λ p, p <| upd_pr_chan := Some ch |>);;
  setproc i (λ p, p <| upd_pr_state := SLEEPING |>);;
  sched;;
  setproc i (λ p, p <| upd_pr_chan := None |>);;
  release (LProc i);;
  acquire lk.

Definition wake_if (ch : chan) (p : proc) : proc :=
  if bool_decide (pr_state p = SLEEPING ∧ pr_chan p = Some ch)
  then p <| upd_pr_state := RUNNABLE |> else p.

(** [n] processes left, from number [i]. *)
Fixpoint wakeup_loop (n i : nat) (ch : chan) : K () :=
  match n with
  | O => mret ()
  | S n =>
      c ← gets curproc;
      whenM (negb (bool_decide (c = Some i)))
        (acquire (LProc i);; setproc i (wake_if ch);; release (LProc i));;
      wakeup_loop n (S i) ch
  end.
Definition wakeup (ch : chan) : K () := wakeup_loop NPROC 0 ch.

(** ** kkill, setkilled, killed *)

Fixpoint kkill_loop (n i : nat) (pid : Z) : K Z :=
  match n with
  | O => mret (-1)
  | S n =>
      acquire (LProc i);;
      p ← getproc i;
      if pr_pid p =? pid then
        setproc i (λ p, p <| upd_pr_killed := 1 |>);;
        whenM (bool_decide (pr_state p = SLEEPING))
          (setproc i (λ p, p <| upd_pr_state := RUNNABLE |>));;
        release (LProc i);;
        mret 0
      else release (LProc i);; kkill_loop n (S i) pid
  end.
Definition kkill (pid : Z) : K Z := kkill_loop NPROC 0 pid.

Definition setkilled (i : nat) : K () :=
  acquire (LProc i);; setproc i (λ p, p <| upd_pr_killed := 1 |>);; release (LProc i).

Definition killed (i : nat) : K Z :=
  acquire (LProc i);; p ← getproc i; release (LProc i);; mret (pr_killed p).

(** ** Waiting loops

    [while (cond) sleep(chan, lk);].  The fuel bounds the wake-ups that find
    the condition still true. *)
Definition WAKEUPS : nat := 100.
Fixpoint sleep_while_loop (fuel : nat) (cond : kstate → bool) (ch : chan) (lk : lock) : K () :=
  match fuel with
  | O => nofuel
  | S fuel =>
      c ← gets cond;
      if (c : bool) then sleep ch lk;; sleep_while_loop fuel cond ch lk else mret ()
  end.
Definition sleep_while : (kstate → bool) → chan → lock → K () := sleep_while_loop WAKEUPS.

(** ** Sleep locks *)

(** Where a sleep lock lives: in a buffer or in an inode. *)
Inductive slref := SlBuf (i : nat) | SlInode (i : nat).

Definition sl_get (r : slref) (s : kstate) : sleeplock :=
  match r with
  | SlBuf i => from_option b_lock sleeplock0 (bcache s !! i)
  | SlInode i => from_option i_lock sleeplock0 (itable s !! i)
  end.
Definition sl_upd (r : slref) (g : sleeplock → sleeplock) (s : kstate) : kstate :=
  match r with
  | SlBuf i => s <| upd_bcache ::= alter (upd_b_lock g) i |>
  | SlInode i => s <| upd_itable ::= alter (upd_i_lock g) i |>
  end.
Definition sl_lk (r : slref) : lock :=
  match r with SlBuf i => LSleepBuf i | SlInode i => LSleepInode i end.
Definition sl_chan (r : slref) : chan :=
  match r with SlBuf i => ChSleepBuf i | SlInode i => ChSleepInode i end.

Definition initsleeplock (r : slref) : K () :=
  modify (sl_upd r (λ l, l <| upd_sl_locked := false |>));;
  modify (sl_upd r (λ l, l <| upd_sl_pid := 0 |>)).

Definition acquiresleep (r : slref) : K () :=
  acquire (sl_lk r);;
  sleep_while (λ s, sl_locked (sl_get r s)) (sl_chan r) (sl_lk r);;
  modify (sl_upd r (λ l, l <| upd_sl_locked := true |>));;
  i ← myproc;
  p ← getproc i;
  modify (sl_upd r (λ l, l <| upd_sl_pid := pr_pid p |>));;
  release (sl_lk r).

Definition releasesleep (r : slref) : K () :=
  acquire (sl_lk r);;
  modify (sl_upd r (λ l, l <| upd_sl_locked := false |>));;
  modify (sl_upd r (λ l, l <| upd_sl_pid := 0 |>));;
  wakeup (sl_chan r);;
  release (sl_lk r).

Definition holdingsleep (r : slref) : K bool :=
  acquire (sl_lk r);;
  l ← gets (sl_get r);
  b ← (if sl_locked l then i ← myproc; p ← getproc i; mret (sl_pid l =? pr_pid p) else mret false);
  release (sl_lk r);;
  mret b.

(** ** The storage view of a state

    The storage stack changes the buffer cache, the disk, the log, the inode
    table, the processes it wakes up and, in between, the locks.
    [setf B D W P G I L s] is [s] with these. *)
Definition setf (B : list buf) (D : gmap Z (list Z)) (W : list (Z * list Z)) (P : list proc)
    (G : logst) (I : list inode) (L : list lock) (s : kstate) : kstate :=
  s <| upd_bcache := B |> <| upd_disk := D |> <| upd_dwrites := W |> <| upd_procs := P |>
    <| upd_log := G |> <| upd_itable := I |> <| upd_locks := L |>.

Section setf.
Context (B : list buf) (D : gmap Z (list Z)) (W : list (Z * list Z)) (P : list proc).
Context (G : logst) (I : list inode) (L : list lock) (s : kstate).
Lemma setf_eta : s = setf (bcache s) (disk s) (dwrites s) (procs s) (log s) (itable s) (locks s) s.
Proof. by destruct s. Qed.
Lemma bcache_setf : bcache (setf B D W P G I L s) = B.
Proof. done. Qed.
Lemma disk_setf : disk (setf B D W P G I L s) = D.
Proof. done. Qed.
Lemma dwrites_setf : dwrites (setf B D W P G I L s) = W.
Proof. done. Qed.
Lemma procs_setf : procs (setf B D W P G I L s) = P.
Proof. done. Qed.
Lemma log_setf : log (setf B D W P G I L s) = G.
Proof. done. Qed.
Lemma itable_setf : itable (setf B D W P G I L s) = I.
Proof. done. Qed.
Lemma locks_setf : locks (setf B D W P G I L s) = L.
Proof. done. Qed.
Lemma curproc_setf : curproc (setf B D W P G I L s) = curproc s.
Proof. done. Qed.
Lemma sb_setf : sb (setf B D W P G I L s) = sb s.
Proof. done. Qed.
Lemma upd_bcache_setf g : upd_bcache g (setf B D W P G I L s) = setf (g B) D W P G I L s.
Proof. done. Qed.
Lemma upd_disk_setf g : upd_disk g (setf B D W P G I L s) = setf B (g D) W P G I L s.
Proof. done. Qed.
Lemma upd_dwrites_setf g : upd_dwrites g (setf B D W P G I L s) = setf B D (g W) P G I L s.
Proof. done. Qed.
Lemma upd_procs_setf g : upd_procs g (setf B D W P G I L s) = setf B D W (g P) G I L s.
Proof. done. Qed.
Lemma upd_log_setf g : upd_log g (setf B D W P G I L s) = setf B D W P (g G) I L s.
Proof. done. Qed.
Lemma upd_itable_setf g : upd_itable g (setf B D W P G I L s) = setf B D W P G (g I) L s.
Proof. done. Qed.
Lemma upd_locks_setf g : upd_locks g (setf B D W P G I L s) = setf B D W P G I (g L) s.
Proof. done. Qed.
Lemma sl_upd_buf_setf i g :
  sl_upd (SlBuf i) g (setf B D W P G I L s) = setf (alter (upd_b_lock g) i B) D W P G I L s.
Proof. done. Qed.
Lemma sl_upd_inode_setf i g :
  sl_upd (SlInode i) g (setf B D W P G I L s) = setf B D W P G (alter (upd_i_lock g) i I) L s.
Proof. done. Qed.
Lemma sl_get_buf_setf i :
  sl_get (SlBuf i) (setf B D W P G I L s) = from_option b_lock sleeplock0 (B !! i).
Proof. done. Qed.
Lemma sl_get_inode_setf i :
  sl_get (SlInode i) (setf B D W P G I L s) = from_option i_lock sleeplock0 (I !! i).
Proof. done. Qed.
End setf.
#[export] Hint Rewrite bcache_setf disk_setf dwrites_setf procs_setf log_setf itable_setf locks_setf
  curproc_setf sb_setf upd_bcache_setf upd_disk_setf upd_dwrites_setf upd_procs_setf upd_log_setf
  upd_itable_setf upd_locks_setf sl_upd_buf_setf sl_upd_inode_setf sl_get_buf_setf
  sl_get_inode_setf : kst.
#[global] Opaque setf.

(** ** Lemmas *)

Section lemmas.
Context (s : kstate).
Implicit Types (B : list buf) (D : gmap Z (list Z)) (W : list (Z * list Z)) (P : list proc).
Implicit Types (G : logst) (I : list inode) (L : list lock).

Lemma acquire_setf l B D W P G I L :
  l ∉ L → acquire l (setf B D W P G I L s) = Ok () (setf B D W P G I (l :: L) s).
Proof. intros. rewrite acquire_ok by (by rewrite locks_setf). by rewrite upd_locks_setf. Qed.
Lemma release_setf l B D W P G I L :
  release l (setf B D W P G I (l :: L) s) = Ok () (setf B D W P G I L s).
Proof. erewrite release_head by (by rewrite locks_setf). by rewrite upd_locks_setf. Qed.

(** [wakeup] makes the sleepers on the channel runnable and changes nothing
    else; the process that calls it is running, not sleeping. *)
Definition wake_all (ch : chan) (c : option nat) (P : list proc) : list proc :=
  imap (λ i p, if decide (c = Some i) then p else wake_if ch p) P.

Lemma wakeup_loop_ok n i ch B D W P G I L :
  (∀ j, LProc j ∉ L) →
  wakeup_loop n i ch (setf B D W P G I L s) =
  Ok () (setf B D W (imap (λ j p, if decide (curproc s = Some j ∨ ¬ (i ≤ j < i + n)%nat) then p
                                  else wake_if ch p) P) G I L s).
Proof using.
  intros HL. revert i P. induction n as [|n IH]; intros i P; cbn [wakeup_loop].
  { unfold mret, M_ret. do 2 f_equal. apply list_eq. intros j. rewrite list_lookup_imap.
    destruct (P !! j); [|done]. cbn. rewrite decide_True; [done|]. right. lia. }
  krun. case_bool_decide as Hc; cbn [negb whenM].
  - krun. rewrite IH. do 2 f_equal. apply imap_ext. intros j p _.
    destruct (decide (j = i)) as [->|]; [by rewrite !decide_True by tauto|].
    apply decide_ext. split; (intros [?|?]; [by left|right; lia]).
  - unfold setproc.
    assert ((acquire (LProc i);; modify (upd_procs (alter (wake_if ch) i));; release (LProc i))
      (setf B D W P G I L s) = Ok () (setf B D W (alter (wake_if ch) i P) G I L s)) as E.
    { rewrite (bind_ok _ _ _ _ _ (acquire_setf (LProc i) B D W P G I L (HL i))). krun.
      apply release_setf. }
    rewrite (bind_ok _ _ _ _ _ E), IH. do 2 f_equal. apply list_eq. intros j.
    rewrite !list_lookup_imap. destruct (decide (j = i)) as [->|Hne].
    + rewrite list_lookup_alter_eq. destruct (P !! i); [|done]. cbn.
      rewrite decide_True by (right; lia). rewrite decide_False by (intros [?|?]; [done|lia]). done.
    + rewrite list_lookup_alter_ne by done. destruct (P !! j); [|done]. cbn. f_equal.
      apply decide_ext. split; (intros [?|?]; [by left|right; lia]).
Qed.

Lemma wakeup_ok ch B D W P G I L :
  (∀ j, LProc j ∉ L) → (length P ≤ NPROC)%nat →
  wakeup ch (setf B D W P G I L s) = Ok () (setf B D W (wake_all ch (curproc s) P) G I L s).
Proof using.
  intros HL HP. unfold wakeup. rewrite wakeup_loop_ok by done. do 2 f_equal.
  apply imap_ext. intros j p Hj%lookup_lt_Some. apply decide_ext. split; [|by left].
  intros [?|?]; [done|lia].
Qed.

Lemma length_wake_all ch c P : length (wake_all ch c P) = length P.
Proof using. apply length_imap. Qed.

Lemma wake_all_self ch P i : wake_all ch (Some i) P !! i = P !! i.
Proof using.
  unfold wake_all. rewrite list_lookup_imap. destruct (P !! i); [|done]. cbn. by rewrite decide_True.
Qed.

(** A sleep lock that is free is taken at once, without sleeping. *)
Lemma acquiresleep_buf i b c me B D W P G I L :
  B !! i = Some b → sl_locked (b_lock b) = false → LSleepBuf i ∉ L →
  curproc s = Some c → P !! c = Some me →
  acquiresleep (SlBuf i) (setf B D W P G I L s) =
  Ok () (setf (<[i := b <| upd_b_lock := mk_sleeplock true (pr_pid me) |>]> B) D W P G I L s).
Proof using.
  intros Hb Hl HL Hc Hm. unfold acquiresleep. cbn [sl_lk sl_chan].
  rewrite (bind_ok _ _ _ _ _ (acquire_setf (LSleepBuf i) B D W P G I L HL)).
  unfold sleep_while, WAKEUPS. cbn [sleep_while_loop].
  unfold myproc, getproc. krun. rewrite Hb. cbn [from_option]. rewrite Hl. krun.
  rewrite Hc. krun. rewrite Hm. krun. rewrite release_setf. do 2 f_equal.
  rewrite list_alter_alter_eq. by erewrite list_alter_insert.
Qed.

Lemma holdingsleep_buf i b c me B D W P G I L :
  B !! i = Some b → b_lock b = mk_sleeplock true (pr_pid me) → LSleepBuf i ∉ L →
  curproc s = Some c → P !! c = Some me →
  holdingsleep (SlBuf i) (setf B D W P G I L s) = Ok true (setf B D W P G I L s).
Proof using.
  intros Hb Hl HL Hc Hm. unfold holdingsleep. cbn [sl_lk].
  rewrite (bind_ok _ _ _ _ _ (acquire_setf (LSleepBuf i) B D W P G I L HL)).
  unfold myproc, getproc. krun. rewrite Hb. cbn [from_option]. rewrite Hl.
  cbn [sl_locked]. krun. rewrite Hc. krun. rewrite Hm. krun. cbn [sl_pid].
  rewrite (bind_ok _ _ _ _ _ (release_setf (LSleepBuf i) B D W P G I L)).
  by rewrite Z.eqb_refl.
Qed.

Lemma releasesleep_buf i b B D W P G I L :
  B !! i = Some b → LSleepBuf i ∉ L → (∀ j, LProc j ∉ L) → (length P ≤ NPROC)%nat →
  releasesleep (SlBuf i) (setf B D W P G I L s) =
  Ok () (setf (<[i := b <| upd_b_lock := sleeplock0 |>]> B) D W
           (wake_all (ChSleepBuf i) (curproc s) P) G I L s).
Proof using.
  intros Hb HL HP Hlen. unfold releasesleep. cbn [sl_lk sl_chan].
  rewrite (bind_ok _ _ _ _ _ (acquire_setf (LSleepBuf i) B D W P G I L HL)). krun.
  erewrite bind_ok.
  2:{ apply wakeup_ok; [|done]. intros j. rewrite not_elem_of_cons. by split. }
  rewrite release_setf. do 2 f_equal.
  rewrite list_alter_alter_eq. by erewrite list_alter_insert.
Qed.
End lemmas.
