(* ===== verification/Bio.v ===== *)
(** * kernel/bio.c: the buffer cache

    The buffers are the elements 0 .. NBUF-1 of [bcache]; the element NBUF is
    [bcache.head], the sentinel of the doubly linked list that orders them by
    use.  [ring B l] says that the links of [B] describe the order [l], most
    recently used first; [bc_inv] adds that no block is cached twice and that
    an unreferenced valid buffer agrees with the disk, so that it may be
    recycled.  Under it [cview B D bn] is what a reader of block [bn] sees.
    The lemmas show that [bread], [bwrite] and [brelse] keep the invariant and
    what each does to that view: the interface the log and the file system
    are proved against.

    [disk_rw] is what the driver and the device do together: transfer one
    block between a buffer and the disk (kernel/virtio_disk.c is modelled in
    VirtioDisk.v). *)

From S2P Require Import Prelude Riscv Kstate CString Kalloc Vm Sched.

(** ** Operations *)

Definition getb (i : nat) : K buf :=
  B ← gets bcache; match B !! i with Some b => mret b | None => panic "kerneltrap" end.
Definition updb (i : nat) (f : buf → buf) : K () := update upd_bcache (alter f i).

Definition zero_block : list Z := replicate (Z.to_nat BSIZE) 0.
Definition dblock (D : gmap Z (list Z)) (bn : Z) : list Z := default zero_block (D !! bn).

Definition disk_rw (i : nat) (write : bool) : K () :=
  b ← getb i;
  if write then
    update upd_disk (λ D, <[b_blockno b := b_data b]> D);;
    update upd_dwrites (λ W, W ++ [(b_blockno b, b_data b)])
  else
    D ← gets disk;
    updb i (λ b, b <| upd_b_data := dblock D (b_blockno b) |>).

(** [bcache.head.next->prev = b; bcache.head.next = b;] after [b]'s own links
    are set. *)
Definition push_front (i : nat) : K () :=
  h ← getb NBUF;
  updb i (λ b, b <| upd_b_next := b_next h |>);;
  updb i (λ b, b <| upd_b_prev := NBUF |>);;
  h ← getb NBUF;
  updb (b_next h) (λ b, b <| upd_b_prev := i |>);;
  updb NBUF (λ b, b <| upd_b_next := i |>).

Fixpoint binit_loop (n i : nat) : K () :=
  match n with
  | O => mret ()
  | S n => push_front i;; initsleeplock (SlBuf i);; binit_loop n (S i)
  end.
Definition binit : K () :=
  updb NBUF (λ b, b <| upd_b_prev := NBUF |>);;
  updb NBUF (λ b, b <| upd_b_next := NBUF |>);;
  binit_loop NBUF 0.

(** The two scans of [bget]: by [next] for the block, by [prev] for an unused
    buffer. *)
Fixpoint bget_cached (fuel b : nat) (dev blockno : Z) : K (option nat) :=
  match fuel with
  | O => nofuel
  | S fuel =>
      if bool_decide (b = NBUF) then mret None else
      x ← getb b;
      if (b_dev x =? dev) && (b_blockno x =? blockno) then mret (Some b)
      else bget_cached fuel (b_next x) dev blockno
  end.
Fixpoint bget_unused (fuel b : nat) : K (option nat) :=
  match fuel with
  | O => nofuel
  | S fuel =>
      if bool_decide (b = NBUF) then mret None else
      x ← getb b;
      if b_refcnt x =? 0 then mret (Some b) else bget_unused fuel (b_prev x)
  end.
Definition bget (dev blockno : Z) : K nat :=
  acquire LBcache;;
  h ← getb NBUF;
  r ← bget_cached (S NBUF) (b_next h) dev blockno;
  match r with
  | Some b =>
      updb b (λ x, x <| upd_b_refcnt ::= λ c, u32 (c + 1) |>);;
      release LBcache;;
      acquiresleep (SlBuf b);;
      mret b
  | None =>
      h ← getb NBUF;
      r ← bget_unused (S NBUF) (b_prev h);
      match r with
      | Some b =>
          updb b (λ x, x <| upd_b_dev := dev |> <| upd_b_blockno := blockno |>
                         <| upd_b_valid := false |> <| upd_b_refcnt := 1 |>);;
          release LBcache;;
          acquiresleep (SlBuf b);;
          mret b
      | None => panic "bget: no buffers"
      end
  end.

Definition bread (dev blockno : Z) : K nat :=
  b ← bget dev blockno;
  x ← getb b;
  whenM (negb (b_valid x)) (disk_rw b false;; updb b (λ x, x <| upd_b_valid := true |>));;
  mret b.

Definition bwrite (b : nat) : K () :=
  h ← holdingsleep (SlBuf b);
  if negb h then panic "bwrite" else disk_rw b true.

Definition brelse (b : nat) : K () :=
  h ← holdingsleep (SlBuf b);
  if negb h then panic "brelse" else
  releasesleep (SlBuf b);;
  acquire LBcache;;
  updb b (λ x, x <| upd_b_refcnt ::= λ c, u32 (c - 1) |>);;
  x ← getb b;
  whenM (b_refcnt x =? 0)
    (updb (b_next x) (λ y, y <| upd_b_prev := b_prev x |>);;
     x ← getb b;
     updb (b_prev x) (λ y, y <| upd_b_next := b_next x |>);;
     push_front b);;
  release LBcache.

Definition bpin (b : nat) : K () :=
  acquire LBcache;; updb b (λ x, x <| upd_b_refcnt ::= λ c, u32 (c + 1) |>);; release LBcache.
Definition bunpin (b : nat) : K () :=
  acquire LBcache;; updb b (λ x, x <| upd_b_refcnt ::= λ c, u32 (c - 1) |>);; release LBcache.

(** ** The ring *)

Definition nx (B : list buf) (i : nat) : nat := from_option b_next 0%nat (B !! i).
Definition pv (B : list buf) (i : nat) : nat := from_option b_prev 0%nat (B !! i).

Record ring (B : list buf) (l : list nat) : Prop := {
  rg_len : length B = S NBUF;
  rg_next : nx B <$> NBUF :: l = l ++ [NBUF];
  rg_prev : pv B <$> l ++ [NBUF] = NBUF :: l;
  rg_nodup : NoDup l;
  rg_elem i : i ∈ l ↔ (i < NBUF)%nat;
}.

(** The links around an element of the order. *)
Lemma ring_split B l1 x l2 :
  ring B (l1 ++ x :: l2) →
  (nx B <$> NBUF :: l1 = l1 ++ [x] ∧ nx B <$> x :: l2 = l2 ++ [NBUF]) ∧
  (pv B <$> l1 ++ [x] = NBUF :: l1 ∧ pv B <$> l2 ++ [NBUF] = x :: l2).
Proof.
  intros [_ Hn Hp _ _]. split.
  - apply app_inj_1; [by rewrite length_fmap, length_app, Nat.add_comm|].
    rewrite <- fmap_app, <- app_assoc. cbn [app] in *. rewrite Hn. by rewrite <- app_assoc.
  - apply app_inj_1; [by rewrite length_fmap, length_app, Nat.add_comm|].
    rewrite <- fmap_app, <- app_assoc. cbn [app]. rewrite <- Hp. by rewrite <- app_assoc.
Qed.

Lemma ring_next B l1 x l2 : ring B (l1 ++ x :: l2) → nx B x = hd NBUF l2.
Proof. intros [[_ H] _]%ring_split. destruct l2; by injection H. Qed.

Lemma ring_prev B l1 x l2 : ring B (l1 ++ x :: l2) → pv B x = default NBUF (last l1).
Proof.
  intros [_ [H _]]%ring_split. destruct l1 as [|y l1 _] using rev_ind; [by injection H|].
  rewrite last_snoc. rewrite fmap_app in H. cbn [fmap list_fmap] in H.
  rewrite app_comm_cons in H. by apply app_inj_2 in H as [_ [= ?]].
Qed.

Lemma ring_first B l : ring B l → nx B NBUF = hd NBUF l.
Proof. intros [_ H _ _ _]. destruct l; by injection H. Qed.

Lemma ring_last B l : ring B l → pv B NBUF = default NBUF (last l).
Proof.
  intros [_ _ H _ _]. destruct l as [|y l _] using rev_ind; [by injection H|].
  rewrite last_snoc. rewrite fmap_app in H. cbn [fmap list_fmap] in H.
  rewrite app_comm_cons in H. by apply app_inj_2 in H as [_ [= ?]].
Qed.

(** Links that agree on [B] and [B'] keep the ring. *)
Lemma ring_ext B B' l :
  ring B l → length B' = length B → (∀ i, nx B' i = nx B i) → (∀ i, pv B' i = pv B i) → ring B' l.
Proof.
  intros [H1 H2 H3 H4 H5] Hl Hn Hp. split; [congruence| | |done|done].
  - rewrite <- H2. by apply list_fmap_ext.
  - rewrite <- H3. by apply list_fmap_ext.
Qed.

Lemma ring_lookup B l i : ring B l → i ∈ l → is_Some (B !! i).
Proof. intros [H1 _ _ _ H5] Hi%H5. apply lookup_lt_is_Some. lia. Qed.

Lemma ring_head B l : ring B l → is_Some (B !! NBUF).
Proof. intros [H1 _ _ _ _]. apply lookup_lt_is_Some. lia. Qed.

Lemma ring_not_head B l : ring B l → NBUF ∉ l.
Proof. intros [_ _ _ _ H5] Hi%H5. lia. Qed.

(** ** The scans of [bget] *)

Definition bmatch (B : list buf) (dev bn : Z) (i : nat) : bool :=
  match B !! i with Some b => (b_dev b =? dev) && (b_blockno b =? bn) | None => false end.
Definition bunused (B : list buf) (i : nat) : bool :=
  match B !! i with Some b => b_refcnt b =? 0 | None => false end.

Section scans.
Context (B : list buf) (l : list nat) (Hr : ring B l).
Context (D : gmap Z (list Z)) (W : list (Z * list Z)) (P : list proc).
Context (G : logst) (I : list inode) (L : list lock) (s : kstate).

Lemma getb_ok i b : B !! i = Some b →
  getb i (setf B D W P G I L s) = Ok b (setf B D W P G I L s).
Proof using. intros H. unfold getb. krun. by rewrite H. Qed.

Lemma bget_cached_ok fuel l1 l2 dev bn :
  l = l1 ++ l2 → (length l2 < fuel)%nat →
  bget_cached fuel (hd NBUF l2) dev bn (setf B D W P G I L s) =
  Ok (List.find (bmatch B dev bn) l2) (setf B D W P G I L s).
Proof using Hr.
  revert fuel l1. induction l2 as [|x l2 IH]; intros [|fuel] l1 Hl Hf; cbn [length] in *; try lia.
  { cbn [bget_cached hd]. by rewrite bool_decide_true. }
  cbn [bget_cached hd List.find].
  assert (x ∈ l) as Hx by (subst l; apply elem_of_app; right; left).
  rewrite bool_decide_false by (intros ->; by apply (ring_not_head B l)).
  destruct (ring_lookup B l x) as [b Hb]; [done..|].
  rewrite (bind_ok _ _ _ _ _ (getb_ok x b Hb)). unfold bmatch at 1. rewrite Hb.
  destruct (_ && _); [done|].
  assert (b_next b = hd NBUF l2) as ->.
  { rewrite Hl in Hr. apply ring_next in Hr. unfold nx in Hr. by rewrite Hb in Hr. }
  apply (IH _ (l1 ++ [x])); [by rewrite <- app_assoc|lia].
Qed.

Lemma bget_unused_ok fuel l1 l2 :
  l = l1 ++ l2 → (length l1 < fuel)%nat →
  bget_unused fuel (default NBUF (last l1)) (setf B D W P G I L s) =
  Ok (List.find (bunused B) (reverse l1)) (setf B D W P G I L s).
Proof using Hr.
  revert fuel l2. induction l1 as [|x l1 IH] using rev_ind; intros [|fuel] l2 Hl Hf;
    rewrite ?length_app in Hf; cbn [length] in *; try lia.
  { cbn [bget_unused]. by rewrite bool_decide_true. }
  rewrite last_snoc, reverse_snoc. cbn [bget_unused List.find].
  assert (x ∈ l) as Hx by (subst l; rewrite !elem_of_app; left; right; left).
  change (default NBUF (Some x)) with x.
  rewrite bool_decide_false by (intros ->; by apply (ring_not_head B l)).
  destruct (ring_lookup B l x) as [b Hb]; [done..|].
  rewrite (bind_ok _ _ _ _ _ (getb_ok x b Hb)). unfold bunused at 1. rewrite Hb.
  destruct (_ =? 0); [done|]. rewrite <- app_assoc in Hl.
  assert (b_prev b = default NBUF (last l1)) as ->.
  { rewrite Hl in Hr. apply ring_prev in Hr. unfold pv in Hr. by rewrite Hb in Hr. }
  apply (IH _ (x :: l2)); [done|lia].
Qed.
End scans.

(** ** Moving a buffer to the front *)

Definition setn (j v : nat) (B : list buf) : list buf := alter (λ b, b <| upd_b_next := v |>) j B.
Definition setp (j v : nat) (B : list buf) : list buf := alter (λ b, b <| upd_b_prev := v |>) j B.

Lemma lookup_setn B j v k b :
  B !! k = Some b → setn j v B !! k = Some (if decide (j = k) then b <| upd_b_next := v |> else b).
Proof. intros H. unfold setn. rewrite list_lookup_alter. case_decide; [subst|]; by rewrite H. Qed.
Lemma lookup_setp B j v k b :
  B !! k = Some b → setp j v B !! k = Some (if decide (j = k) then b <| upd_b_prev := v |> else b).
Proof. intros H. unfold setp. rewrite list_lookup_alter. case_decide; [subst|]; by rewrite H. Qed.

Section links.
Context (B : list buf) (j v : nat) (Hj : (j < length B)%nat).
Lemma length_setn : length (setn j v B) = length B.
Proof using. apply length_alter. Qed.
Lemma length_setp : length (setp j v B) = length B.
Proof using. apply length_alter. Qed.
Lemma nx_setn k : nx (setn j v B) k = if decide (k = j) then v else nx B k.
Proof using Hj.
  unfold nx, setn. rewrite list_lookup_alter. destruct (lookup_lt_is_Some_2 B j Hj) as [b Hb].
  repeat case_decide; subst; try done. by rewrite Hb.
Qed.
Lemma nx_setp k : nx (setp j v B) k = nx B k.
Proof using.
  clear Hj. unfold nx, setp. rewrite list_lookup_alter. case_decide; [subst|done]. by destruct (B !! k).
Qed.
Lemma pv_setp k : pv (setp j v B) k = if decide (k = j) then v else pv B k.
Proof using Hj.
  unfold pv, setp. rewrite list_lookup_alter. destruct (lookup_lt_is_Some_2 B j Hj) as [b Hb].
  repeat case_decide; subst; try done. by rewrite Hb.
Qed.
Lemma pv_setn k : pv (setn j v B) k = pv B k.
Proof using.
  clear Hj. unfold pv, setn. rewrite list_lookup_alter. case_decide; [subst|done]. by destruct (B !! k).
Qed.
End links.

(** The links after [brelse] has unlinked [i] and put it at the front. *)
Definition relink (i n p hn : nat) (B : list buf) : list buf :=
  setn NBUF i (setp hn i (setp i NBUF (setn i hn (setn p n (setp n p B))))).

Lemma ring_bound B l k : ring B l → k ∈ l ∨ k = NBUF → (k < length B)%nat.
Proof. intros [H1 _ _ _ H5] [Hk%H5| ->]; lia. Qed.

Lemma hd_app_elem (x : nat) (l : list nat) : hd x l ∈ l ∨ hd x l = x.
Proof. destruct l; [by right|left; left]. Qed.

Lemma fmap_ext_elem (f g : nat → nat) (l : list nat) : (∀ x, x ∈ l → f x = g x) → f <$> l = g <$> l.
Proof. intros H. apply list_fmap_ext. intros i x Hx%list_elem_of_lookup_2. by apply H. Qed.

Section relink.
Context (B : list buf) (i : nat) (l1 l2 : list nat) (Hr : ring B (l1 ++ i :: l2)).
Let n := hd NBUF l2.
Let p := default NBUF (last l1).
Let hn := hd NBUF (l1 ++ l2).

Lemma relink_mem : (i ∉ l1) ∧ (i ∉ l2) ∧ NoDup l1 ∧ NoDup l2 ∧ (∀ x, x ∈ l1 → x ∉ l2) ∧
  (NBUF ∉ l1) ∧ (NBUF ∉ l2) ∧ i ≠ NBUF.
Proof using Hr.
  pose proof (ring_not_head _ _ Hr) as Hh. pose proof (rg_nodup _ _ Hr) as Hnd.
  rewrite elem_of_app, elem_of_cons in Hh. rewrite NoDup_app, NoDup_cons in Hnd.
  destruct Hnd as (H1 & H2 & H3 & H4). split_and!; try tauto.
  - intros H. apply (H2 _ H). left.
  - intros x Hx Hx2. apply (H2 _ Hx). by right.
  - intros ->. apply Hh. right. by left.
Qed.

Lemma relink_bounds : (i < length B ∧ n < length B ∧ p < length B ∧ hn < length B ∧ NBUF < length B)%nat.
Proof using Hr.
  assert (∀ k, k ∈ l1 ∨ k ∈ l2 ∨ k = i ∨ k = NBUF → (k < length B)%nat) as H.
  { intros k Hk. apply (ring_bound B _ k Hr). rewrite elem_of_app, elem_of_cons. tauto. }
  split_and!; apply H; try tauto.
  - unfold n. destruct (hd_app_elem NBUF l2); tauto.
  - unfold p. destruct l1 as [|k l _] using rev_ind; [tauto|]. rewrite last_snoc.
    change (default NBUF (Some k)) with k. left. apply elem_of_app. right. left.
  - unfold hn. destruct (hd_app_elem NBUF (l1 ++ l2)) as [E|E]; [apply elem_of_app in E|]; tauto.
Qed.

Lemma nx_relink k :
  nx (relink i n p hn B) k =
  if decide (k = NBUF) then i else if decide (k = i) then hn else if decide (k = p) then n else nx B k.
Proof using Hr.
  destruct relink_bounds as (H1 & H2 & H3 & H4 & H5). unfold relink.
  rewrite nx_setn by (rewrite !length_setp, !length_setn, length_setp; lia). rewrite !nx_setp.
  rewrite nx_setn by (rewrite length_setn, length_setp; lia).
  rewrite nx_setn by (rewrite length_setp; lia). by rewrite nx_setp.
Qed.

Lemma pv_relink k :
  pv (relink i n p hn B) k =
  if decide (k = hn) then i else if decide (k = i) then NBUF else if decide (k = n) then p else pv B k.
Proof using Hr.
  destruct relink_bounds as (H1 & H2 & H3 & H4 & H5). unfold relink.
  rewrite pv_setn, pv_setp by (rewrite length_setp, !length_setn, length_setp; lia).
  rewrite pv_setp by (rewrite !length_setn, length_setp; lia).
  rewrite !pv_setn. by rewrite pv_setp by lia.
Qed.

Lemma relink_next :
  nx (relink i n p hn B) <$> NBUF :: i :: l1 ++ l2 = (i :: l1 ++ l2) ++ [NBUF].
Proof using Hr.
  pose proof nx_relink as HN. pose proof pv_relink as HP.
  destruct relink_mem as (M1 & M2 & M3 & M4 & M5 & M6 & M7 & M8).
  destruct (ring_split _ _ _ _ Hr) as [[N1 N2] [P1 P2]].
  assert (nx B <$> l2 = tl (l2 ++ [NBUF])) as N3 by (by rewrite <- N2).
  assert (hd NBUF l2 :: tl (l2 ++ [NBUF]) = l2 ++ [NBUF]) as Hl2 by (by destruct l2).
  rewrite !fmap_cons, !HN, decide_True, decide_False, decide_True by done. cbn [app].
  f_equal. rewrite fmap_app.
  rewrite (fmap_ext_elem (nx (relink i n p hn B)) (nx B) l2).
  2:{ intros x Hx. rewrite HN, !decide_False; [done| |by intros ->..].
      unfold p. destruct l1 as [|k l _] using rev_ind; [by intros ->|]. rewrite last_snoc.
      intros ->. apply (M5 k); [|done]. apply elem_of_app. right. left. }
  rewrite N3. destruct l1 as [|k l _] using rev_ind.
  + cbn [fmap list_fmap app]. unfold hn. cbn [app]. by rewrite Hl2.
  + assert (p = k) as Hpk by (unfold p; by rewrite last_snoc).
    rewrite fmap_app. cbn [fmap list_fmap]. rewrite HN.
    apply not_elem_of_app in M1 as [M1 Mk]. apply not_elem_of_app in M6 as [M6 Mk'].
    rewrite !elem_of_cons in Mk, Mk'. apply NoDup_app in M3 as (M3 & M3' & _).
    rewrite decide_False, decide_False, decide_True by (done || intros ->; tauto).
    rewrite (fmap_ext_elem (nx (relink i n p hn B)) (nx B) l).
    2:{ intros x Hx. rewrite HN, !decide_False; [done| |by intros ->..].
        rewrite Hpk. intros ->. apply (M3' k); [done|]. left. }
    rewrite fmap_cons, fmap_app, app_comm_cons in N1. apply app_inj_2 in N1 as [N1 _]; [|done].
    assert (hn = nx B NBUF) as -> by (unfold hn; destruct l; by injection N1).
    rewrite app_comm_cons, app_comm_cons, N1. rewrite <- !app_assoc. cbn [app]. unfold n.
    by rewrite Hl2.
Qed.

Lemma relink_prev :
  pv (relink i n p hn B) <$> (i :: l1 ++ l2) ++ [NBUF] = NBUF :: i :: l1 ++ l2.
Proof using Hr.
  pose proof nx_relink as HN. pose proof pv_relink as HP.
  destruct relink_mem as (M1 & M2 & M3 & M4 & M5 & M6 & M7 & M8).
  destruct (ring_split _ _ _ _ Hr) as [[N1 N2] [P1 P2]].
  assert (nx B <$> l2 = tl (l2 ++ [NBUF])) as N3 by (by rewrite <- N2).
  assert (hd NBUF l2 :: tl (l2 ++ [NBUF]) = l2 ++ [NBUF]) as Hl2 by (by destruct l2).
  assert (pv B <$> tl (l2 ++ [NBUF]) = l2) as P3.
  { rewrite <- Hl2 in P2. injection P2 as _ P2. done. }
  assert (pv (relink i n p hn B) <$> tl (l2 ++ [NBUF]) = l2) as P4.
  { rewrite <- P3 at 2. apply fmap_ext_elem. intros x Hx.
    assert ((x ∈ l2 ∨ x = NBUF) ∧ x ≠ hd NBUF l2) as [Hx1 Hx2].
    { destruct l2 as [|y l2']; [by apply not_elem_of_nil in Hx|]. cbn in *.
      apply NoDup_cons in M4 as [M4 _]. rewrite elem_of_app, elem_of_cons, elem_of_nil in Hx.
      rewrite elem_of_cons. split; [tauto|]. intros ->. destruct Hx as [?|[->|[]]]; [done|].
      apply M7. left. }
    rewrite HP, !decide_False; [done|done|by intros ->; destruct Hx1|].
    unfold hn. destruct l1 as [|a l1']; [done|]. cbn. intros ->.
    destruct Hx1 as [Hx1| ->]; [eapply M5; [|done]; left|apply M6; left]. }
  rewrite <- app_comm_cons, fmap_cons, HP. rewrite decide_False, decide_True; [|done|].
  2:{ unfold hn. destruct (hd_app_elem NBUF (l1 ++ l2)) as [E|E]; [|congruence].
      intros ->. apply elem_of_app in E as [?|?]; done. }
  f_equal. rewrite <- app_assoc, fmap_app, <- Hl2, fmap_cons, P4. destruct l1 as [|a l1'].
  + cbn [fmap list_fmap app]. f_equal. rewrite HP. unfold hn. cbn [app]. by rewrite decide_True.
  + cbn [fmap list_fmap app]. rewrite HP, decide_True by done. f_equal.
    assert (pv (relink i n p hn B) (hd NBUF l2) = p) as ->.
    { rewrite HP, (decide_True (P := hd NBUF l2 = n)) by done. rewrite !decide_False; [done| |].
      - destruct (hd_app_elem NBUF l2) as [E|E]; [by intros E'; rewrite E' in E|congruence].
      - unfold hn. cbn. destruct (hd_app_elem NBUF l2) as [E|E].
        + intros E'. rewrite E' in E. eapply M5; [|done]. left.
        + rewrite E. intros <-. apply M6. left. }
    assert (pv B <$> l1' ++ [i] = a :: l1') as P5 by (injection P1 as _ P1; done).
    assert (pv B i = p) as Hpi by apply (ring_prev _ _ _ _ Hr).
    rewrite fmap_app in P5. cbn [fmap list_fmap] in P5. rewrite Hpi in P5.
    rewrite (fmap_ext_elem (pv (relink i n p hn B)) (pv B) l1').
    * change (p :: l2) with ([p] ++ l2). rewrite app_assoc. unfold fmap in *. rewrite P5. done.
    * apply NoDup_cons in M3 as [M3 _]. intros x Hx. rewrite HP, !decide_False; [done| | |].
      -- unfold n. destruct (hd_app_elem NBUF l2) as [E|E].
         ++ intros ->. eapply M5; [|done]. by right.
         ++ rewrite E. intros ->. apply M6. by right.
      -- intros ->. apply M1. by right.
      -- unfold hn. cbn. by intros ->.
Qed.

Lemma relink_ring : ring (relink i n p hn B) (i :: l1 ++ l2).
Proof using Hr.
  destruct relink_mem as (M1 & M2 & M3 & M4 & M5 & M6 & M7 & M8).
  split; [|apply relink_next|apply relink_prev| |].
  - unfold relink. rewrite length_setn, !length_setp, !length_setn, length_setp. apply Hr.
  - apply NoDup_cons. rewrite elem_of_app, NoDup_app. tauto.
  - intros k. rewrite elem_of_cons, elem_of_app, <- (rg_elem _ _ Hr), elem_of_app, elem_of_cons. tauto.
Qed.
End relink.

(** ** The cache invariant and its view *)

(** A buffer without its links. *)
Definition core (b : buf) : buf := b <| upd_b_next := 0%nat |> <| upd_b_prev := 0%nat |>.

Record bc_ok (B : list buf) (D : gmap Z (list Z)) : Prop := {
  bo_uniq i j b b' : (i < NBUF)%nat → (j < NBUF)%nat → B !! i = Some b → B !! j = Some b' →
    b_dev b = ROOTDEV → b_dev b' = ROOTDEV → b_blockno b = b_blockno b' → i = j;
  bo_valid i b : (i < NBUF)%nat → B !! i = Some b → b_valid b = true → b_dev b = ROOTDEV;
  bo_clean i b : (i < NBUF)%nat → B !! i = Some b → b_valid b = true → b_refcnt b = 0 →
    b_data b = dblock D (b_blockno b);
  bo_ref i b : (i < NBUF)%nat → B !! i = Some b → 0 ≤ b_refcnt b < 2 ^ 31;
  bo_len i b : (i < NBUF)%nat → B !! i = Some b → length (b_data b) = Z.to_nat BSIZE;
  bo_disk bn d : D !! bn = Some d → length d = Z.to_nat BSIZE;
}.

(** Valid buffer [i] holds block [bn]. *)
Definition holds (B : list buf) (bn : Z) (i : nat) : bool :=
  match B !! i with
  | Some b => b_valid b && (b_dev b =? ROOTDEV) && (b_blockno b =? bn)
  | None => false
  end.
Definition cview (B : list buf) (D : gmap Z (list Z)) (bn : Z) : list Z :=
  match List.find (holds B bn) (seq 0 NBUF) with
  | Some i => from_option b_data [] (B !! i)
  | None => dblock D bn
  end.

Lemma find_seq_some (f : nat → bool) n i :
  List.find f (seq 0 n) = Some i → (i < n)%nat ∧ f i = true.
Proof. intros [H1 H2]%List.find_some. apply in_seq in H1. split; [lia|done]. Qed.

Lemma find_seq_none (f : nat → bool) n : List.find f (seq 0 n) = None → ∀ i, (i < n)%nat → f i = false.
Proof. intros H i Hi. eapply List.find_none; [done|]. apply in_seq. lia. Qed.

Lemma holds_true B bn i b :
  B !! i = Some b → holds B bn i = true ↔ b_valid b = true ∧ b_dev b = ROOTDEV ∧ b_blockno b = bn.
Proof. intros H. unfold holds. rewrite H, !andb_true_iff, !Z.eqb_eq. tauto. Qed.

Lemma holds_inv B bn i :
  holds B bn i = true →
  ∃ b, B !! i = Some b ∧ b_valid b = true ∧ b_dev b = ROOTDEV ∧ b_blockno b = bn.
Proof.
  intros H. pose proof H as H'. unfold holds in H'. destruct (B !! i) as [b|] eqn:E; [|done].
  exists b. split; [done|]. by apply (holds_true B bn i).
Qed.

Lemma cview_holder B D bn i b :
  bc_ok B D → (i < NBUF)%nat → B !! i = Some b → b_valid b = true → b_blockno b = bn →
  cview B D bn = b_data b.
Proof.
  intros Ho Hi Hb Hv Hn. unfold cview. pose proof (bo_valid _ _ Ho i b Hi Hb Hv) as Hd.
  destruct (List.find _ _) as [j|] eqn:E.
  - apply find_seq_some in E as [Hj E]. apply holds_inv in E as (b' & Hb' & ? & ? & ?).
    assert (i = j) as -> by (eapply (bo_uniq _ _ Ho); eauto; congruence). by rewrite Hb'; simplify_eq.
  - apply find_seq_none with (i := i) in E; [|done].
    assert (holds B bn i = true) by (by apply (holds_true _ _ _ _ Hb)). congruence.
Qed.

Lemma cview_none B D bn :
  (∀ i b, (i < NBUF)%nat → B !! i = Some b → b_valid b = true → b_dev b = ROOTDEV → b_blockno b ≠ bn) →
  cview B D bn = dblock D bn.
Proof.
  intros H. unfold cview. destruct (List.find _ _) as [j|] eqn:E; [|done].
  apply find_seq_some in E as [Hj E]. apply holds_inv in E as (b' & Hb' & ? & ? & ?). by destruct (H j b').
Qed.

(** Either some buffer holds the block, or the view is the disk's. *)
Lemma cview_cases B D bn :
  (∃ i b, (i < NBUF)%nat ∧ B !! i = Some b ∧ b_valid b = true ∧ b_dev b = ROOTDEV ∧
     b_blockno b = bn ∧ cview B D bn = b_data b) ∨
  ((∀ i b, (i < NBUF)%nat → B !! i = Some b → b_valid b = true → b_dev b = ROOTDEV → b_blockno b ≠ bn) ∧
   cview B D bn = dblock D bn).
Proof.
  unfold cview. destruct (List.find _ _) as [j|] eqn:E.
  - left. apply find_seq_some in E as [Hj E]. apply holds_inv in E as (b' & Hb' & ? & ? & ?). exists j, b'. by rewrite Hb'.
  - right. split; [|done]. intros i b Hi Hb Hv Hd Hn. apply find_seq_none with (i := i) in E; [|done].
    assert (holds B bn i = true) by (by apply (holds_true _ _ _ _ Hb)). congruence.
Qed.

Lemma dblock_length B D bn : bc_ok B D → length (dblock D bn) = Z.to_nat BSIZE.
Proof.
  intros Ho. unfold dblock. destruct (D !! bn) as [d|] eqn:E; [by eapply (bo_disk _ _ Ho)|].
  apply length_replicate.
Qed.

Lemma cview_length B D bn : bc_ok B D → length (cview B D bn) = Z.to_nat BSIZE.
Proof.
  intros Ho. destruct (cview_cases B D bn) as [(i & b & Hi & Hb & _ & _ & _ & ->)|[_ ->]].
  - by eapply (bo_len _ _ Ho).
  - by eapply dblock_length.
Qed.

(** Only the buffers' contents matter, not the order. *)
Definition bcore (B B' : list buf) : Prop :=
  ∀ k, (k < NBUF)%nat → core <$> B' !! k = core <$> B !! k.

Lemma bcore_lookup B B' k b' :
  bcore B B' → (k < NBUF)%nat → B' !! k = Some b' → ∃ b, B !! k = Some b ∧ core b' = core b.
Proof.
  intros H Hk Hb. specialize (H k Hk). rewrite Hb in H. destruct (B !! k) as [b|]; [|done].
  exists b. split; [done|]. change (Some (core b') = Some (core b)) in H. congruence.
Qed.

Lemma core_fields b b' :
  core b' = core b → b_valid b' = b_valid b ∧ b_dev b' = b_dev b ∧ b_blockno b' = b_blockno b ∧
    b_refcnt b' = b_refcnt b ∧ b_data b' = b_data b ∧ b_lock b' = b_lock b ∧ b_disk b' = b_disk b.
Proof. destruct b, b'. intros H. injection H. cbn. intros. by split_and!. Qed.

Lemma bc_ok_core B B' D : bcore B B' → bc_ok B D → bc_ok B' D.
Proof.
  intros Hc [H1 H2 H3 H4 H5 H6]. split; [| | | | |done].
  - intros i j b b' Hi Hj Hb Hb'. destruct (bcore_lookup _ _ _ _ Hc Hi Hb) as (b0 & E0 & C0).
    destruct (bcore_lookup _ _ _ _ Hc Hj Hb') as (b1 & E1 & C1).
    apply core_fields in C0 as (?&->&->&_). apply core_fields in C1 as (?&->&->&_). by eapply H1.
  - intros i b Hi Hb. destruct (bcore_lookup _ _ _ _ Hc Hi Hb) as (b0 & E0 & C0).
    apply core_fields in C0 as (->&->&_). by eapply H2.
  - intros i b Hi Hb. destruct (bcore_lookup _ _ _ _ Hc Hi Hb) as (b0 & E0 & C0).
    apply core_fields in C0 as (->&_&->&->&->&_). by eapply H3.
  - intros i b Hi Hb. destruct (bcore_lookup _ _ _ _ Hc Hi Hb) as (b0 & E0 & C0).
    apply core_fields in C0 as (_&_&_&->&_). by eapply H4.
  - intros i b Hi Hb. destruct (bcore_lookup _ _ _ _ Hc Hi Hb) as (b0 & E0 & C0).
    apply core_fields in C0 as (_&_&_&_&->&_). by eapply H5.
Qed.

Lemma bcore_sym B B' : bcore B B' → bcore B' B.
Proof. intros H k Hk. symmetry. by apply H. Qed.
Lemma bcore_trans B1 B2 B3 : bcore B1 B2 → bcore B2 B3 → bcore B1 B3.
Proof. intros H1 H2 k Hk. rewrite H2, H1; done. Qed.

Lemma cview_core B B' D bn : bcore B B' → bc_ok B D → cview B' D bn = cview B D bn.
Proof.
  intros Hc Ho. destruct (cview_cases B' D bn) as [(i & b & Hi & Hb & Hv & _ & Hn & ->)|[H ->]].
  - destruct (bcore_lookup _ _ _ _ Hc Hi Hb) as (b0 & E0 & C0). apply core_fields in C0 as (C1&_&C2&_&->&_).
    symmetry. eapply cview_holder; [done..|congruence|congruence].
  - symmetry. apply cview_none. intros i b Hi Hb Hv Hd.
    destruct (bcore_lookup _ _ _ _ (bcore_sym _ _ Hc) Hi Hb) as (b0 & E0 & C0).
    apply core_fields in C0 as (C1&C3&C2&_). rewrite C2. eapply H; [done..|congruence|congruence].
Qed.

Lemma bcore_relink i n p hn B : bcore B (relink i n p hn B).
Proof.
  intros k Hk. unfold relink, setn, setp.
  assert (∀ (f : buf → buf) j (B : list buf), (∀ b, core (f b) = core b) →
    core <$> alter f j B !! k = core <$> B !! k) as H.
  { intros f j B' Hf. rewrite list_lookup_alter. case_decide; [subst|done].
    destruct (B' !! k); [|done]. cbn. by rewrite Hf. }
  rewrite !H; [done|by intros []..].
Qed.

(** ** What the operations do *)

(** The running process [me], holding none of the locks taken below. *)
Record tctx (s : kstate) (P : list proc) (L : list lock) (me : proc) : Prop := {
  tc_cur : ∃ c, curproc s = Some c ∧ P !! c = Some me;
  tc_len : (length P ≤ NPROC)%nat;
  tc_bcache : LBcache ∉ L;
  tc_sleep i : LSleepBuf i ∉ L;
  tc_proc i : LProc i ∉ L;
}.

Lemma tctx_wake s P L me ch : tctx s P L me → tctx s (wake_all ch (curproc s) P) L me.
Proof.
  intros [(c & Hc & Hm) H2 H3 H4 H5]. split; [|by rewrite length_wake_all|done..].
  exists c. split; [done|]. by rewrite Hc, wake_all_self.
Qed.

(** The buffer [bread] returns, locked by [me]. *)
Definition held (me : proc) (bn : Z) (d : list Z) (b : buf) : buf :=
  mk_buf true (b_disk b) ROOTDEV bn (mk_sleeplock true (pr_pid me)) (b_refcnt b + 1)
    (b_prev b) (b_next b) d.

(** The buffer [bget] picks for a block. *)
Definition picks (B : list buf) (bn : Z) (i : nat) (b : buf) : Prop :=
  (i < NBUF)%nat ∧ B !! i = Some b ∧
  ((b_dev b = ROOTDEV ∧ b_blockno b = bn) ∨
   (b_refcnt b = 0 ∧ ∀ j b', (j < NBUF)%nat → B !! j = Some b' → b_dev b' = ROOTDEV → b_blockno b' ≠ bn)).

Section ops.
Context (s : kstate) (me : proc).
Implicit Types (B : list buf) (D : gmap Z (list Z)) (W : list (Z * list Z)) (P : list proc).
Implicit Types (G : logst) (I : list inode) (L : list lock).

Lemma updb_ok i f B D W P G I L :
  updb i f (setf B D W P G I L s) = Ok () (setf (alter f i B) D W P G I L s).
Proof using. unfold updb, modify. by rewrite upd_bcache_setf. Qed.

(** [bget] picks the cached buffer, or the least recently used unused one. *)
Lemma bget_picks B l dev bn D W P G I L :
  ring B l → LBcache ∉ L →
  bget dev bn (setf B D W P G I L s) =
  match List.find (bmatch B dev bn) l with
  | Some i => (acquiresleep (SlBuf i);; mret i)
      (setf (alter (λ x, x <| upd_b_refcnt ::= λ c, u32 (c + 1) |>) i B) D W P G I L s)
  | None =>
      match List.find (bunused B) (reverse l) with
      | Some i => (acquiresleep (SlBuf i);; mret i)
          (setf (alter (λ x, x <| upd_b_dev := dev |> <| upd_b_blockno := bn |>
                               <| upd_b_valid := false |> <| upd_b_refcnt := 1 |>) i B) D W P G I L s)
      | None => Panic "bget: no buffers"
      end
  end.
Proof using.
  intros Hr HL. unfold bget. rewrite (bind_ok _ _ _ _ _ (acquire_setf s LBcache B D W P G I L HL)).
  destruct (ring_head B l Hr) as [h Hh].
  rewrite (bind_ok _ _ _ _ _ (getb_ok B D W P G I (LBcache :: L) s NBUF h Hh)).
  pose proof (ring_first B l Hr) as Hn. pose proof (ring_last B l Hr) as Hp.
  unfold nx, pv in Hn, Hp. rewrite Hh in Hn, Hp. cbn [from_option] in Hn, Hp. rewrite Hn.
  assert (length l < S NBUF)%nat as Hll.
  { pose proof (rg_next B l Hr) as E. apply (f_equal length) in E.
    assert (length l ≤ length (seq 0 NBUF))%nat as H'; [|by rewrite length_seq in H'; lia].
    apply submseteq_length, NoDup_submseteq; [apply Hr|]. intros x Hx%(rg_elem _ _ Hr).
    apply elem_of_seq. lia. }
  rewrite (bind_ok _ _ _ _ _ (bget_cached_ok B l Hr D W P G I (LBcache :: L) s (S NBUF) [] l dev bn eq_refl Hll)).
  destruct (List.find (bmatch B dev bn) l) as [i|].
  { rewrite (bind_ok _ _ _ _ _ (updb_ok _ _ _ _ _ _ _ _ _)).
    by rewrite (bind_ok _ _ _ _ _ (release_setf _ _ _ _ _ _ _ _ _)). }
  rewrite (bind_ok _ _ _ _ _ (getb_ok B D W P G I (LBcache :: L) s NBUF h Hh)). rewrite Hp.
  assert (l = l ++ []) as Hl by (by rewrite app_nil_r).
  rewrite (bind_ok _ _ _ _ _ (bget_unused_ok B l Hr D W P G I (LBcache :: L) s (S NBUF) l [] Hl Hll)).
  destruct (List.find (bunused B) (reverse l)) as [i|]; [|done].
  rewrite (bind_ok _ _ _ _ _ (updb_ok _ _ _ _ _ _ _ _ _)).
  by rewrite (bind_ok _ _ _ _ _ (release_setf _ _ _ _ _ _ _ _ _)).
Qed.

Lemma find_match B l bn i :
  ring B l → List.find (bmatch B ROOTDEV bn) l = Some i →
  ∃ b, (i < NBUF)%nat ∧ B !! i = Some b ∧ b_dev b = ROOTDEV ∧ b_blockno b = bn.
Proof using.
  intros Hr [H1 H2]%List.find_some. apply list_elem_of_In, (rg_elem _ _ Hr) in H1.
  unfold bmatch in H2. destruct (B !! i) as [b|]; [|done]. zbool. exists b. done.
Qed.

Lemma find_no_match B l bn j b :
  ring B l → List.find (bmatch B ROOTDEV bn) l = None →
  (j < NBUF)%nat → B !! j = Some b → b_dev b = ROOTDEV → b_blockno b ≠ bn.
Proof using.
  intros Hr H Hj Hb Hd Hn. eapply List.find_none with (x := j) in H.
  - unfold bmatch in H. rewrite Hb, Hd, Hn, !Z.eqb_refl in H. done.
  - by apply list_elem_of_In, (rg_elem _ _ Hr).
Qed.

Lemma find_unused B l i :
  ring B l → List.find (bunused B) (reverse l) = Some i →
  ∃ b, (i < NBUF)%nat ∧ B !! i = Some b ∧ b_refcnt b = 0.
Proof using.
  intros Hr [H1 H2]%List.find_some. apply list_elem_of_In, elem_of_reverse, (rg_elem _ _ Hr) in H1.
  unfold bunused in H2. destruct (B !! i) as [b|]; [|done]. zbool. exists b. done.
Qed.

Lemma find_no_unused B l j b :
  ring B l → List.find (bunused B) (reverse l) = None → (j < NBUF)%nat → B !! j = Some b → b_refcnt b ≠ 0.
Proof using.
  intros Hr H Hj Hb Hn. eapply List.find_none with (x := j) in H.
  - unfold bunused in H. rewrite Hb, Hn in H. done.
  - by apply list_elem_of_In, elem_of_reverse, (rg_elem _ _ Hr).
Qed.

(** Taking the sleep lock of a buffer just referenced. *)
Lemma bget_lock i x B D W P G I L :
  tctx s P L me → B !! i = Some x → sl_locked (b_lock x) = false →
  (acquiresleep (SlBuf i);; mret i) (setf B D W P G I L s) =
  Ok i (setf (<[i := x <| upd_b_lock := mk_sleeplock true (pr_pid me) |>]> B) D W P G I L s).
Proof using.
  intros [(c & Hc & Hm) HPl HLb HLs HLp] Hx Hl.
  erewrite bind_ok by (eapply acquiresleep_buf; eauto). done.
Qed.

Lemma bget_ok B l bn D W P G I L :
  ring B l → bc_ok B D → tctx s P L me →
  (∀ i b, (i < NBUF)%nat → B !! i = Some b →
     (b_dev b = ROOTDEV ∧ b_blockno b = bn) ∨ b_refcnt b = 0 → sl_locked (b_lock b) = false) →
  (∃ i b, picks B bn i b) →
  ∃ i b x, picks B bn i b ∧
    bget ROOTDEV bn (setf B D W P G I L s) = Ok i (setf (<[i := x]> B) D W P G I L s) ∧
    ((b_dev b = ROOTDEV ∧ b_blockno b = bn ∧
      x = b <| upd_b_refcnt := b_refcnt b + 1 |> <| upd_b_lock := mk_sleeplock true (pr_pid me) |>) ∨
     (b_refcnt b = 0 ∧ cview B D bn = dblock D bn ∧
      x = b <| upd_b_dev := ROOTDEV |> <| upd_b_blockno := bn |> <| upd_b_valid := false |>
             <| upd_b_refcnt := 1 |> <| upd_b_lock := mk_sleeplock true (pr_pid me) |>)).
Proof using.
  intros Hr Ho Ht Hlk (i0 & b0 & Hi0 & Hb0 & Hpick). rewrite (bget_picks B l) by (done || apply Ht).
  destruct (List.find (bmatch _ _ _) l) as [i|] eqn:Ef.
  - destruct (find_match B l bn i Hr Ef) as (b & Hi & Hb & Hd & Hn).
    pose proof (bo_ref _ _ Ho i b Hi Hb). eexists i, b, _.
    split_and!; [by split_and!; auto| |by left].
    erewrite list_alter_insert by done. erewrite bget_lock; [|done| |].
    2:{ apply list_lookup_insert_eq. by eapply lookup_lt_Some. }
    2:{ apply (Hlk i b Hi Hb). by left. }
    rewrite list_insert_insert_eq. unfold upd_b_refcnt. rewrite u32_small by lia. done.
  - assert (∀ j b', (j < NBUF)%nat → B !! j = Some b' → b_dev b' = ROOTDEV → b_blockno b' ≠ bn) as Hno
      by (intros; by eapply find_no_match).
    destruct (List.find (bunused B) (reverse l)) as [i|] eqn:Eu.
    2:{ exfalso. eapply (find_no_unused B l i0 b0); [done..|].
        destruct Hpick as [[? ?]|[? _]]; [|done]. by destruct (Hno i0 b0). }
    destruct (find_unused B l i Hr Eu) as (b & Hi & Hb & Hc). eexists i, b, _.
    split_and!; [by split_and!; auto| |right; split_and!; [done| |done]].
    + erewrite list_alter_insert by done. erewrite bget_lock; [|done| |].
      2:{ apply list_lookup_insert_eq. by eapply lookup_lt_Some. }
      2:{ apply (Hlk i b Hi Hb). by right. }
      by rewrite list_insert_insert_eq.
    + apply cview_none. intros. by apply Hno with i1.
Qed.

(** [bread] returns a locked buffer with the block's current contents. *)
Lemma bread_ok B l bn D W P G I L :
  ring B l → bc_ok B D → tctx s P L me →
  (∀ i b, (i < NBUF)%nat → B !! i = Some b →
     (b_dev b = ROOTDEV ∧ b_blockno b = bn) ∨ b_refcnt b = 0 → sl_locked (b_lock b) = false) →
  (∃ i b, picks B bn i b) →
  ∃ i b, picks B bn i b ∧
    bread ROOTDEV bn (setf B D W P G I L s) =
    Ok i (setf (<[i := held me bn (cview B D bn) b]> B) D W P G I L s).
Proof using.
  intros Hr Ho Ht Hlk Hpick.
  destruct (bget_ok B l bn D W P G I L Hr Ho Ht Hlk Hpick) as (i & b & x & Hpk & Hg & Hx).
  exists i, b. split; [done|]. unfold bread. rewrite (bind_ok _ _ _ _ _ Hg).
  destruct Hpk as (Hi & Hb & _). assert (i < length B)%nat as Hil by (by eapply lookup_lt_Some).
  rewrite (bind_ok _ _ _ _ _ (getb_ok _ D W P G I L s i x (list_lookup_insert_eq _ _ _ Hil))).
  destruct (b_valid x) eqn:Ev; cbn [negb whenM].
  - rewrite bind_mret. unfold mret, M_ret. do 3 f_equal.
    destruct Hx as [(Hd & Hn & ->)|(_ & _ & ->)]; [|done].
    rewrite (cview_holder B D bn i b) by done. destruct b; cbn in *. unfold held. cbn. by subst.
  - unfold disk_rw.
    erewrite bind_ok; [|erewrite bind_ok; [|erewrite bind_ok; [|apply getb_ok, list_lookup_insert_eq, Hil]]].
    2:{ krun. apply updb_ok. }
    2:{ apply updb_ok. }
    unfold mret, M_ret. do 3 f_equal. rewrite list_alter_alter_eq.
    erewrite list_alter_insert by (apply list_lookup_insert_eq, Hil). rewrite list_insert_insert_eq. f_equal.
    destruct Hx as [(Hd & Hn & ->)|(H0 & Hcv & ->)]; unfold held, compose; destruct b; cbn in *; subst.
    + rewrite cview_none; [done|]. intros j b' Hj Hb' Hv' Hd' Hn'.
      assert (i = j) as -> by (eapply (bo_uniq _ _ Ho); eauto).
      rewrite Hb in Hb'. injection Hb' as <-. cbn in *. congruence.
    + by rewrite Hcv.
Qed.
End ops.

(** ** The invariant is kept *)

Lemma ring_insert B l i b x :
  ring B l → B !! i = Some b → b_next x = b_next b → b_prev x = b_prev b → ring (<[i := x]> B) l.
Proof.
  intros Hr Hb Hn Hp. assert (i < length B)%nat by (by eapply lookup_lt_Some).
  eapply ring_ext; [done|apply length_insert| |]; intros k; unfold nx, pv;
    (destruct (decide (i = k)) as [<-|Hne];
     [by rewrite list_lookup_insert_eq, Hb by done|by rewrite list_lookup_insert_ne]).
Qed.

Lemma lookup_replace (B : list buf) i x j b' :
  <[i := x]> B !! j = Some b' → (j = i ∧ b' = x) ∨ (j ≠ i ∧ B !! j = Some b').
Proof. intros [(-> & -> & _)|[? ?]]%list_lookup_insert_Some; auto. Qed.

(** Replacing one buffer. *)
Section replace.
Context (B : list buf) (D : gmap Z (list Z)) (i : nat) (b x : buf).
Context (Ho : bc_ok B D) (Hi : (i < NBUF)%nat) (Hb : B !! i = Some b).
Context (Hd : b_dev x = ROOTDEV) (Href : 0 ≤ b_refcnt x < 2 ^ 31)
  (Hlen : length (b_data x) = Z.to_nat BSIZE)
  (Huniq : ∀ j b', (j < NBUF)%nat → j ≠ i → B !! j = Some b' → b_dev b' = ROOTDEV →
     b_blockno b' ≠ b_blockno x)
  (Hclean : b_valid x = true → b_refcnt x = 0 → b_data x = dblock D (b_blockno x)).

Lemma bc_ok_replace : bc_ok (<[i := x]> B) D.
Proof using All.
  split; [| | | | |apply Ho].
  - intros j k b1 b2 Hj Hk [[-> ->]|[N1 E1]]%lookup_replace [[-> ->]|[N2 E2]]%lookup_replace; intros.
    + done.
    + exfalso. by apply (Huniq k b2).
    + exfalso. by apply (Huniq j b1).
    + by eapply (bo_uniq _ _ Ho).
  - intros j b1 Hj [[-> ->]|[N1 E1]]%lookup_replace; [done|by eapply (bo_valid _ _ Ho)].
  - intros j b1 Hj [[-> ->]|[N1 E1]]%lookup_replace; [done|by eapply (bo_clean _ _ Ho)].
  - intros j b1 Hj [[-> ->]|[N1 E1]]%lookup_replace; [done|by eapply (bo_ref _ _ Ho)].
  - intros j b1 Hj [[-> ->]|[N1 E1]]%lookup_replace; [done|by eapply (bo_len _ _ Ho)].
Qed.

(** The view of the new block is the new data; another block keeps its view,
    if the old buffer did not hold it with data of its own. *)
Lemma cview_replace bn :
  b_valid x = true →
  (b_valid b = true → b_blockno b ≠ b_blockno x → b_data b = dblock D (b_blockno b)) →
  cview (<[i := x]> B) D bn = if decide (bn = b_blockno x) then b_data x else cview B D bn.
Proof using All.
  intros Hv Hold. pose proof bc_ok_replace as Ho'.
  assert (<[i := x]> B !! i = Some x) as Hx
    by (apply list_lookup_insert_eq; by eapply lookup_lt_Some).
  case_decide as Hbn; [subst bn; by eapply cview_holder|].
  destruct (cview_cases B D bn) as [(j & b' & Hj & Hb' & Hv' & Hd' & Hn' & E)|[Hno ->]].
  - destruct (decide (j = i)) as [->|Hne].
    + rewrite Hb in Hb'. injection Hb' as <-. rewrite E, Hold by congruence. rewrite Hn'.
      apply cview_none. intros k b1 Hk [[-> ->]|[N1 E1]]%lookup_replace V1 D1 B1; [congruence|].
      apply N1. eapply (bo_uniq _ _ Ho); eauto. congruence.
    + rewrite E. eapply cview_holder; [done|done| |done|done]. by rewrite list_lookup_insert_ne by done.
  - apply cview_none. intros k b1 Hk [[-> ->]|[N1 E1]]%lookup_replace; [congruence|]. by eapply Hno.
Qed.
End replace.

Lemma hold_inv B l D bn me i b :
  ring B l → bc_ok B D → picks B bn i b → b_refcnt b + 1 < 2 ^ 31 →
  let B' := <[i := held me bn (cview B D bn) b]> B in
  ring B' l ∧ bc_ok B' D ∧ ∀ bn', cview B' D bn' = cview B D bn'.
Proof.
  intros Hr Ho (Hi & Hb & Hpk) Hrc. cbn zeta. pose proof (bo_ref _ _ Ho i b Hi Hb).
  assert (∀ j b', (j < NBUF)%nat → j ≠ i → B !! j = Some b' → b_dev b' = ROOTDEV → b_blockno b' ≠ bn) as Hu.
  { intros j b' Hj Hne Hb' Hd'. destruct Hpk as [[Hd Hn]|[_ Hno]]; [|by eapply Hno].
    intros Hn'. apply Hne. eapply (bo_uniq _ _ Ho); eauto. congruence. }
  split_and!.
  - by eapply ring_insert.
  - eapply bc_ok_replace; cbn; try done; [lia|by apply cview_length|lia].
  - intros bn'. erewrite cview_replace; cbn; try done; [|lia|by apply cview_length|lia|].
    + case_decide; by subst.
    + intros Hv Hne. destruct Hpk as [[Hd Hn]|[Hz _]]; [congruence|]. by eapply (bo_clean _ _ Ho).
Qed.

(** Changing the data of a referenced buffer. *)
Lemma write_data_inv B l D i b d :
  ring B l → bc_ok B D → (i < NBUF)%nat → B !! i = Some b → b_dev b = ROOTDEV → b_valid b = true →
  0 < b_refcnt b → length d = Z.to_nat BSIZE →
  let B' := <[i := b <| upd_b_data := d |>]> B in
  ring B' l ∧ bc_ok B' D ∧
  ∀ bn, cview B' D bn = if decide (bn = b_blockno b) then d else cview B D bn.
Proof.
  intros Hr Ho Hi Hb Hd Hv Hrc Hl. cbn zeta. pose proof (bo_ref _ _ Ho i b Hi Hb).
  assert (∀ j b', (j < NBUF)%nat → j ≠ i → B !! j = Some b' → b_dev b' = ROOTDEV →
    b_blockno b' ≠ b_blockno b) as Hu.
  { intros j b' Hj Hne Hb' Hd' Hn'. apply Hne. eapply (bo_uniq _ _ Ho); eauto. }
  split_and!.
  - by eapply ring_insert.
  - eapply bc_ok_replace; cbn; try done; lia.
  - intros bn'. erewrite cview_replace; cbn; try done; lia.
Qed.

(** Writing a held buffer to the disk. *)
Lemma dblock_insert D bn d bn' : dblock (<[bn := d]> D) bn' = if decide (bn' = bn) then d else dblock D bn'.
Proof.
  unfold dblock. rewrite lookup_insert. repeat case_decide; congruence || done.
Qed.

Lemma disk_write_inv B D i b :
  bc_ok B D → (i < NBUF)%nat → B !! i = Some b → b_dev b = ROOTDEV → b_valid b = true →
  let D' := <[b_blockno b := b_data b]> D in
  bc_ok B D' ∧ ∀ bn, cview B D' bn = cview B D bn.
Proof.
  intros Ho Hi Hb Hd Hv. cbn zeta.
  assert (∀ j b', (j < NBUF)%nat → B !! j = Some b' → b_valid b' = true → b_blockno b' = b_blockno b →
    j = i ∧ b' = b) as Hu.
  { intros j b' Hj Hb' Hv' Hn. assert (j = i) as -> by
      (eapply (bo_uniq _ _ Ho); eauto; by eapply (bo_valid _ _ Ho)).
    split; [done|congruence]. }
  assert (bc_ok B (<[b_blockno b := b_data b]> D)) as Ho'.
  { destruct Ho as [H1 H2 H3 H4 H5 H6]. split; try done.
    - intros j b' Hj Hb' Hv' Hr'. rewrite dblock_insert. case_decide as E; [|by eapply H3].
      by destruct (Hu j b' Hj Hb' Hv' E) as [_ ->].
    - intros bn d. rewrite lookup_insert. case_decide; [intros [= <-]; by eapply H5|by apply H6]. }
  split; [done|]. intros bn.
  destruct (cview_cases B D bn) as [(j & b' & Hj & Hb' & Hv' & Hd' & Hn' & ->)|[Hno ->]].
  - by eapply cview_holder.
  - rewrite cview_none by done. rewrite dblock_insert, decide_False; [done|]. intros ->. by eapply Hno.
Qed.

(** ** bwrite, brelse, bpin and bunpin *)

Definition unheld (b : buf) : buf :=
  b <| upd_b_lock := sleeplock0 |> <| upd_b_refcnt := b_refcnt b - 1 |>.

(** The use order after the last reference to [i] is dropped. *)
Definition to_front (i : nat) (l : list nat) : list nat := i :: filter (λ k, k ≠ i) l.

Lemma to_front_split l1 i l2 :
  NoDup (l1 ++ i :: l2) → to_front i (l1 ++ i :: l2) = i :: l1 ++ l2.
Proof.
  intros (_ & H2 & H3)%NoDup_app. apply NoDup_cons in H3 as [H3 _].
  unfold to_front. rewrite filter_app, filter_cons_False by tauto.
  assert (∀ l : list nat, i ∉ l → filter (λ k, k ≠ i) l = l) as Hf.
  { induction l as [|x l IH]; [done|]. rewrite not_elem_of_cons. intros [? ?].
    rewrite filter_cons_True by done. by rewrite IH. }
  rewrite !Hf; [done|done|]. intros Hi. apply (H2 i Hi). left.
Qed.

(** After [b] is unlinked, the head's successor is the rest's first element. *)
Lemma unlink_first B l1 i l2 :
  ring B (l1 ++ i :: l2) →
  let n := hd NBUF l2 in let p := default NBUF (last l1) in
  nx (setn p n (setp n p B)) NBUF = hd NBUF (l1 ++ l2).
Proof.
  intros Hr n p. destruct (relink_bounds B i l1 l2 Hr) as (_ & _ & B3 & _ & _).
  destruct (relink_mem B i l1 l2 Hr) as (_ & _ & _ & _ & _ & M6 & _).
  rewrite nx_setn, nx_setp by (rewrite length_setp; lia).
  pose proof (ring_first _ _ Hr) as Hf. destruct l1 as [|k l _] using rev_ind.
  - by rewrite decide_True.
  - assert (p = k) as Hp by (unfold p; by rewrite last_snoc).
    rewrite decide_False; [by rewrite Hf; destruct l|]. intros E. apply M6. rewrite E, Hp.
    apply elem_of_app. right. left.
Qed.

Section ops2.
Context (s : kstate) (me : proc).
Implicit Types (B : list buf) (D : gmap Z (list Z)) (W : list (Z * list Z)) (P : list proc).
Implicit Types (G : logst) (I : list inode) (L : list lock).

Lemma holding_ok B i b D W P G I L :
  tctx s P L me → B !! i = Some b → b_lock b = mk_sleeplock true (pr_pid me) →
  holdingsleep (SlBuf i) (setf B D W P G I L s) = Ok true (setf B D W P G I L s).
Proof using. intros [(c & Hc & Hm) _ _ HLs _] Hb Hl. by eapply holdingsleep_buf. Qed.

Lemma bwrite_ok B i b D W P G I L :
  tctx s P L me → B !! i = Some b → b_lock b = mk_sleeplock true (pr_pid me) →
  bwrite i (setf B D W P G I L s) =
  Ok () (setf B (<[b_blockno b := b_data b]> D) (W ++ [(b_blockno b, b_data b)]) P G I L s).
Proof using.
  intros Ht Hb Hl. unfold bwrite. rewrite (bind_ok _ _ _ _ _ (holding_ok B i b D W P G I L Ht Hb Hl)).
  cbn [negb]. unfold disk_rw. rewrite (bind_ok _ _ _ _ _ (getb_ok B D W P G I L s i b Hb)). krun.
  unfold modify. by autorewrite with kst.
Qed.

(** The pointer surgery of [brelse]. *)
Lemma relink_ok B l1 i l2 x D W P G I L :
  ring B (l1 ++ i :: l2) → B !! i = Some x →
  (updb (b_next x) (λ y, y <| upd_b_prev := b_prev x |>);;
   x ← getb i;
   updb (b_prev x) (λ y, y <| upd_b_next := b_next x |>);;
   push_front i) (setf B D W P G I L s) =
  Ok () (setf (relink i (hd NBUF l2) (default NBUF (last l1)) (hd NBUF (l1 ++ l2)) B) D W P G I L s).
Proof using.
  intros Hr Hx. pose proof (ring_next _ _ _ _ Hr) as Hn. pose proof (ring_prev _ _ _ _ Hr) as Hp.
  unfold nx, pv in Hn, Hp. rewrite Hx in Hn, Hp. cbn [from_option] in Hn, Hp.
  destruct (relink_mem B i l1 l2 Hr) as (M1 & M2 & _ & _ & _ & M6 & M7 & M8).
  destruct (relink_bounds B i l1 l2 Hr) as (B1 & B2 & B3 & B4 & B5).
  set (n := hd NBUF l2) in *. set (p := default NBUF (last l1)) in *.
  assert (n ≠ i) as Hni by (unfold n; destruct (hd_app_elem NBUF l2) as [E|E]; congruence).
  rewrite Hn, Hp. rewrite (bind_ok _ _ _ _ _ (updb_ok s _ _ B D W P G I L)). fold (setp n p B).
  assert (setp n p B !! i = Some x) as Hx1.
  { erewrite lookup_setp by done. by rewrite decide_False. }
  rewrite (bind_ok _ _ _ _ _ (getb_ok _ D W P G I L s i x Hx1)). rewrite Hn, Hp.
  rewrite (bind_ok _ _ _ _ _ (updb_ok s _ _ _ D W P G I L)). fold (setn p n (setp n p B)).
  set (B2' := setn p n (setp n p B)). unfold push_front.
  assert (length B2' = length B) as Hl2 by (unfold B2'; by rewrite length_setn, length_setp).
  destruct (lookup_lt_is_Some_2 B2' NBUF) as [h Hh]; [lia|].
  rewrite (bind_ok _ _ _ _ _ (getb_ok B2' D W P G I L s NBUF h Hh)).
  set (hn := hd NBUF (l1 ++ l2)) in *.
  assert (nx B2' NBUF = hn) as Hnx by (exact (unlink_first B l1 i l2 Hr)).
  assert (b_next h = hn) as -> by (rewrite <- Hnx; unfold nx; by rewrite Hh).
  rewrite (bind_ok _ _ _ _ _ (updb_ok s _ _ _ D W P G I L)).
  rewrite (bind_ok _ _ _ _ _ (updb_ok s _ _ _ D W P G I L)).
  fold (setn i hn B2'). fold (setp i NBUF (setn i hn B2')).
  assert (nx (setp i NBUF (setn i hn B2')) NBUF = hn) as Hnx'
    by (rewrite nx_setp, nx_setn, decide_False by (done || lia); done).
  destruct (lookup_lt_is_Some_2 (setp i NBUF (setn i hn B2')) NBUF) as [h' Hh'];
    [rewrite length_setp, length_setn; lia|].
  assert (b_next h' = hn) as Hn' by (rewrite <- Hnx'; unfold nx; by rewrite Hh').
  rewrite (bind_ok _ _ _ _ _ (getb_ok _ D W P G I L s NBUF h' Hh')). rewrite Hn'.
  rewrite (bind_ok _ _ _ _ _ (updb_ok s _ _ _ D W P G I L)). by rewrite updb_ok.
Qed.

Lemma brelse_ok B l i b D W P G I L :
  ring B l → bc_ok B D → tctx s P L me → (i < NBUF)%nat → B !! i = Some b →
  b_lock b = mk_sleeplock true (pr_pid me) → b_dev b = ROOTDEV → b_valid b = true → 0 < b_refcnt b →
  (b_refcnt b = 1 → b_data b = dblock D (b_blockno b)) →
  let l' := if b_refcnt b =? 1 then to_front i l else l in
  ∃ B', brelse i (setf B D W P G I L s) =
      Ok () (setf B' D W (wake_all (ChSleepBuf i) (curproc s) P) G I L s) ∧
    ring B' l' ∧ bc_ok B' D ∧ (∀ bn, cview B' D bn = cview B D bn) ∧
    bcore (<[i := unheld b]> B) B'.
Proof using.
  intros Hr Ho Ht Hi Hb Hl Hd Hv Hrc Hcl l'. pose proof (bo_ref _ _ Ho i b Hi Hb) as Hrr.
  assert (i < length B)%nat as Hil by (by eapply lookup_lt_Some).
  unfold brelse. rewrite (bind_ok _ _ _ _ _ (holding_ok B i b D W P G I L Ht Hb Hl)). cbn [negb].
  destruct Ht as [(c & Hc & Hm) HPl HLb HLs HLp].
  rewrite (bind_ok _ _ _ _ _ (releasesleep_buf s i b B D W P G I L Hb (HLs i) HLp HPl)).
  rewrite (bind_ok _ _ _ _ _ (acquire_setf s LBcache _ D W _ G I L HLb)).
  rewrite (bind_ok _ _ _ _ _ (updb_ok s _ _ _ D W _ G I _)).
  erewrite list_alter_insert by (by apply list_lookup_insert_eq).
  rewrite list_insert_insert_eq.
  assert (upd_b_refcnt (λ c, u32 (c - 1)) (upd_b_lock (λ _, sleeplock0) b) = unheld b) as ->.
  { unfold unheld. destruct b. unfold upd_b_refcnt, upd_b_lock. cbn in *. by rewrite u32_small by lia. }
  assert (<[i := unheld b]> B !! i = Some (unheld b)) as Hb1 by (by apply list_lookup_insert_eq).
  rewrite (bind_ok _ _ _ _ _ (getb_ok _ D W _ G I _ s i (unheld b) Hb1)).
  assert (ring (<[i := unheld b]> B) l) as Hr1 by (by eapply ring_insert).
  assert (∀ j b', (j < NBUF)%nat → j ≠ i → B !! j = Some b' → b_dev b' = ROOTDEV →
    b_blockno b' ≠ b_blockno b) as Hu.
  { intros j b' Hj Hne Hb' Hd' Hn'. apply Hne. eapply (bo_uniq _ _ Ho); eauto. }
  assert (bc_ok (<[i := unheld b]> B) D) as Ho1.
  { eapply bc_ok_replace; cbn; try done; [lia|by eapply (bo_len _ _ Ho)|].
    intros _ H0. apply Hcl. lia. }
  assert (∀ bn, cview (<[i := unheld b]> B) D bn = cview B D bn) as Hcv.
  { intros bn. erewrite cview_replace; cbn; try done; [|lia|by eapply (bo_len _ _ Ho)|].
    - case_decide; [subst|done]. symmetry. by eapply cview_holder.
    - intros _ H0. apply Hcl. lia. }
  assert (i ∈ l) as Hil2 by (by apply (rg_elem _ _ Hr)).
  subst l'. change (b_refcnt (unheld b)) with (b_refcnt b - 1).
  destruct (b_refcnt b =? 1) eqn:E1; zbool.
  - rewrite (proj2 (Z.eqb_eq _ _)) by lia. cbn [whenM].
    apply list_elem_of_split in Hil2 as (l1 & l2 & ->).
    pose proof (rg_nodup _ _ Hr) as Hnd.
    rewrite (bind_ok _ _ _ _ _ (relink_ok _ l1 i l2 (unheld b) D W _ G I _ Hr1 Hb1)).
    eexists. split; [by rewrite release_setf|]. rewrite to_front_split by done.
    pose proof (bcore_relink i (hd NBUF l2) (default NBUF (last l1)) (hd NBUF (l1 ++ l2))
      (<[i := unheld b]> B)) as Hbc.
    split_and!; [by apply relink_ring|by eapply bc_ok_core| |done].
    intros bn. erewrite cview_core by done. apply Hcv.
  - rewrite (proj2 (Z.eqb_neq _ _)) by lia. cbn [whenM]. rewrite bind_mret, release_setf.
    eexists. split_and!; [done..|by intros].
Qed.

Lemma bpin_ok B i b D W P G I L :
  LBcache ∉ L → B !! i = Some b → 0 ≤ b_refcnt b < 2 ^ 31 →
  bpin i (setf B D W P G I L s) =
  Ok () (setf (<[i := b <| upd_b_refcnt := b_refcnt b + 1 |>]> B) D W P G I L s).
Proof using.
  intros HL Hb Hrc. unfold bpin. rewrite (bind_ok _ _ _ _ _ (acquire_setf s LBcache B D W P G I L HL)).
  rewrite (bind_ok _ _ _ _ _ (updb_ok s _ _ _ D W _ G I _)), release_setf.
  erewrite list_alter_insert by done. unfold upd_b_refcnt. by rewrite u32_small by lia.
Qed.

Lemma bunpin_ok B i b D W P G I L :
  LBcache ∉ L → B !! i = Some b → 0 < b_refcnt b < 2 ^ 31 →
  bunpin i (setf B D W P G I L s) =
  Ok () (setf (<[i := b <| upd_b_refcnt := b_refcnt b - 1 |>]> B) D W P G I L s).
Proof using.
  intros HL Hb Hrc. unfold bunpin. rewrite (bind_ok _ _ _ _ _ (acquire_setf s LBcache B D W P G I L HL)).
  rewrite (bind_ok _ _ _ _ _ (updb_ok s _ _ _ D W _ G I _)), release_setf.
  erewrite list_alter_insert by done. unfold upd_b_refcnt. by rewrite u32_small by lia.
Qed.
End ops2.
