(* ===== verification/Log.v ===== *)
(** * kernel/log.c: the write-ahead log (definitions)

    The log area of the disk is the header block [log.start] followed by the
    logged blocks; the header block holds [n] and the home block numbers as
    little-endian 32-bit ints ([struct logheader]).  [log_write] records a
    block in the in-memory header and pins its buffer; [end_op] of the last
    operation commits: copy the blocks to the log, write the header, install
    the blocks in their homes, clear the header.  The diagnostic [printf] of
    [install_trans] is left out. *)

From S2P Require Import Prelude Bytes Riscv Kstate CString Kalloc Vm Sched Bio.

(** ** The header in a block *)

Definition hdr_n (d : list Z) : Z := lds32 d 0.
Definition hdr_block (d : list Z) (i : nat) : Z := lds32 d (4 + 4 * i).

Fixpoint hdr_put_blocks (d : list Z) (n i : nat) (blocks : list Z) : list Z :=
  match n with
  | O => d
  | S n => hdr_put_blocks (stl 4 d (4 + 4 * i) (u32 (nth i blocks 0))) n (S i) blocks
  end.
(** [hb->n = n; for(i < n) hb->block[i] = block[i];] *)
Definition hdr_put (d : list Z) (n : Z) (blocks : list Z) : list Z :=
  hdr_put_blocks (stl 4 d 0 (u32 n)) (Z.to_nat n) 0 blocks.

Fixpoint hdr_get_blocks (d : list Z) (n i : nat) (blocks : list Z) : list Z :=
  match n with
  | O => blocks
  | S n => hdr_get_blocks d n (S i) (<[i := hdr_block d i]> blocks)
  end.

(** ** Operations *)

Definition updlog (f : logst → logst) : K () := update upd_log f.

Definition read_head : K () :=
  G ← gets log;
  b ← bread (lg_dev G) (lg_start G);
  x ← getb b;
  updlog (λ G, G <| upd_lh_n := hdr_n (b_data x) |>);;
  updlog (λ G, G <| upd_lh_block ::= hdr_get_blocks (b_data x) (Z.to_nat (lh_n G)) 0 |>);;
  brelse b.

Definition write_head : K () :=
  G ← gets log;
  b ← bread (lg_dev G) (lg_start G);
  updb b (λ x, x <| upd_b_data ::= λ d, hdr_put d (lh_n G) (lh_block G) |>);;
  bwrite b;;
  brelse b.

(** [memmove(to->data, from->data, BSIZE)] between two buffers. *)
Definition copy_data (to from : nat) : K () :=
  y ← getb from;
  updb to (λ x, x <| upd_b_data := b_data y |>).

(** The body of [install_trans]'s loop, and the loop with [n] blocks left. *)
Definition install_block (recovering : bool) (tail : nat) : K () :=
  G ← gets log;
  lbuf ← bread (lg_dev G) (lg_start G + Z.of_nat tail + 1);
  dbuf ← bread (lg_dev G) (nth tail (lh_block G) 0);
  copy_data dbuf lbuf;;
  bwrite dbuf;;
  whenM (negb recovering) (bunpin dbuf);;
  brelse lbuf;;
  brelse dbuf.
Fixpoint install_trans_loop (n tail : nat) (recovering : bool) : K () :=
  match n with
  | O => mret ()
  | S n => install_block recovering tail;; install_trans_loop n (S tail) recovering
  end.
Definition install_trans (recovering : bool) : K () :=
  G ← gets log; install_trans_loop (Z.to_nat (lh_n G)) 0 recovering.

(** The body of [write_log]'s loop, and the loop with [n] blocks left. *)
Definition log_block (tail : nat) : K () :=
  G ← gets log;
  to ← bread (lg_dev G) (lg_start G + Z.of_nat tail + 1);
  from ← bread (lg_dev G) (nth tail (lh_block G) 0);
  copy_data to from;;
  bwrite to;;
  brelse from;;
  brelse to.
Fixpoint write_log_loop (n tail : nat) : K () :=
  match n with
  | O => mret ()
  | S n => log_block tail;; write_log_loop n (S tail)
  end.
Definition write_log : K () :=
  G ← gets log; write_log_loop (Z.to_nat (lh_n G)) 0.

Definition recover_from_log : K () :=
  read_head;;
  install_trans true;;
  updlog (λ G, G <| upd_lh_n := 0 |>);;
  write_head.

(** [sizeof(struct logheader)] *)
Definition LOGHEADER_SIZE : Z := 4 + 4 * LOGBLOCKS.
Definition initlog (dev : Z) (sb : superblock) : K () :=
  if BSIZE <=? LOGHEADER_SIZE then panic "initlog: too big logheader" else
  updlog (λ G, G <| upd_lg_start := sb_logstart sb |>);;
  updlog (λ G, G <| upd_lg_dev := dev |>);;
  recover_from_log.

Fixpoint begin_op_loop (fuel : nat) : K () :=
  match fuel with
  | O => nofuel
  | S fuel =>
      G ← gets log;
      if lg_committing G then sleep ChLog LLog;; begin_op_loop fuel
      else if LOGBLOCKS <? lh_n G + (lg_outstanding G + 1) * MAXOPBLOCKS
      then sleep ChLog LLog;; begin_op_loop fuel
      else
        updlog (λ G, G <| upd_lg_outstanding ::= λ o, o + 1 |>);;
        release LLog
  end.
Definition begin_op : K () := acquire LLog;; begin_op_loop WAKEUPS.

Definition commit : K () :=
  G ← gets log;
  whenM (0 <? lh_n G)
    (write_log;;
     write_head;;
     install_trans false;;
     updlog (λ G, G <| upd_lh_n := 0 |>);;
     write_head).

Definition end_op : K () :=
  acquire LLog;;
  updlog (λ G, G <| upd_lg_outstanding ::= λ o, o - 1 |>);;
  G ← gets log;
  if lg_committing G then panic "log.committing" else
  do_commit ← (if lg_outstanding G =? 0
               then updlog (λ G, G <| upd_lg_committing := true |>);; mret true
               else wakeup ChLog;; mret false);
  release LLog;;
  whenM do_commit
    (commit;;
     acquire LLog;;
     updlog (λ G, G <| upd_lg_committing := false |>);;
     wakeup ChLog;;
     release LLog).

(** The index [log_write] uses for a block: where it is already, or [n]. *)
Fixpoint absorb (n i : nat) (blocks : list Z) (bn : Z) : nat :=
  match n with
  | O => i
  | S n => if nth i blocks 0 =? bn then i else absorb n (S i) blocks bn
  end.
Definition log_write (b : nat) : K () :=
  acquire LLog;;
  G ← gets log;
  if LOGBLOCKS <=? lh_n G then panic "too big a transaction" else
  if lg_outstanding G <? 1 then panic "log_write outside of trans" else
  x ← getb b;
  let i := absorb (Z.to_nat (lh_n G)) 0 (lh_block G) (b_blockno x) in
  updlog (λ G, G <| upd_lh_block ::= <[i := b_blockno x]> |>);;
  whenM (Z.of_nat i =? lh_n G)
    (bpin b;; updlog (λ G, G <| upd_lh_n ::= λ n, n + 1 |>));;
  release LLog.
