(* ===== verification/LogProps.v ===== *)
(** * kernel/log.c: commit and recovery

    The effect of one commit on the disk, write by write, and what recovery
    makes of the disk after a crash at any point of it. *)

From S2P Require Import Prelude Bytes Riscv Kstate CString Kalloc Vm Sched Bio Log.

(** ** Quiet caches

    No buffer is locked: the situation in which [commit] and recovery run. *)
Definition quiet (B : list buf) : Prop :=
  ∀ i b, (i < NBUF)%nat → B !! i = Some b → sl_locked (b_lock b) = false.

(** Room to reference a few more times. *)
Definition refs_small (B : list buf) : Prop :=
  ∀ i b, (i < NBUF)%nat → B !! i = Some b → b_refcnt b + 2 < 2 ^ 31.

Definition spare (B : list buf) (k : nat) : Prop :=
  (k < NBUF)%nat ∧ ∃ b, B !! k = Some b ∧ b_refcnt b = 0.
Definition pinned (B : list buf) (bn : Z) : Prop :=
  ∃ k b, (k < NBUF)%nat ∧ B !! k = Some b ∧ b_valid b = true ∧ b_dev b = ROOTDEV ∧ b_blockno b = bn ∧
    0 < b_refcnt b.

Record qinv (B : list buf) (l : list nat) (D : gmap Z (list Z)) : Prop := {
  q_ring : ring B l;
  q_ok : bc_ok B D;
  q_quiet : quiet B;
  q_refs : refs_small B;
}.

Lemma spare_picks B l bn k : ring B l → spare B k → ∃ i b, picks B bn i b.
Proof.
  intros Hr (Hk & b & Hb & H0). destruct (List.find (bmatch B ROOTDEV bn) l) as [i|] eqn:E.
  - destruct (find_match B l bn i Hr E) as (b' & Hi & Hb' & Hd & Hn). exists i, b'.
    split_and!; [done..|by left].
  - exists k, b. split_and!; [done..|]. right. split; [done|]. intros. by eapply find_no_match.
Qed.

Lemma pinned_picks B bn : pinned B bn → ∃ i b, picks B bn i b.
Proof. intros (k & b & Hk & Hb & _ & Hd & Hn & _). exists k, b. split_and!; auto. Qed.

(** An unreferenced block reads as on the disk. *)
Lemma picks_clean B D bn i b :
  bc_ok B D → picks B bn i b → b_refcnt b = 0 → cview B D bn = dblock D bn.
Proof.
  intros Ho (Hi & Hb & Hpk) H0.
  destruct (cview_cases B D bn) as [(j & b' & Hj & Hb' & Hv' & Hd' & Hn' & ->)|[_ ->]]; [|done].
  destruct Hpk as [[Hd Hn]|[_ Hno]]; [|by destruct (Hno j b')].
  assert (i = j) as -> by (eapply (bo_uniq _ _ Ho); eauto; congruence).
  rewrite Hb in Hb'. injection Hb' as <-. rewrite <- Hn. by eapply (bo_clean _ _ Ho).
Qed.

Section reads.
Context (s : kstate) (me : proc).
Implicit Types (B : list buf) (D : gmap Z (list Z)) (W : list (Z * list Z)) (P : list proc).
Implicit Types (G : logst) (I : list inode) (L : list lock).

(** One block read from a quiet cache. *)
Lemma read1 B l bn D W P G I L k :
  qinv B l D → tctx s P L me → spare B k →
  ∃ i b, (i < NBUF)%nat ∧ B !! i = Some b ∧
    (b_refcnt b = 0 → cview B D bn = dblock D bn) ∧
    let B1 := <[i := held me bn (cview B D bn) b]> B in
    bread ROOTDEV bn (setf B D W P G I L s) = Ok i (setf B1 D W P G I L s) ∧
    ring B1 l ∧ bc_ok B1 D ∧ (∀ bn', cview B1 D bn' = cview B D bn') ∧
    (b_refcnt b > 0 → b_dev b = ROOTDEV ∧ b_blockno b = bn).
Proof using.
  intros [Hr Ho Hq Hs] Ht Hk.
  destruct (bread_ok s me B l bn D W P G I L) as (i & b & Hpk & Hrd);
    [done|done|done|by intros; eapply Hq|by eapply spare_picks|].
  assert (b_refcnt b + 1 < 2 ^ 31) as Hrc.
  { destruct Hpk as (Hi & Hb & _). specialize (Hs i b Hi Hb). lia. }
  destruct (hold_inv B l D bn me i b Hr Ho Hpk Hrc) as (H1 & H2 & H3).
  pose proof Hpk as (Hi & Hb & Hc). exists i, b. cbn zeta. split_and!; try done.
  - intros H0. by eapply picks_clean.
  - intros ?. destruct Hc as [?|[? _]]; [done|lia].
Qed.

(** Two different blocks read, one after the other. *)
Lemma read2 B l bn1 bn2 D W P G I L k1 k2 :
  qinv B l D → tctx s P L me → bn1 ≠ bn2 → spare B k1 →
  pinned B bn2 ∨ (spare B k2 ∧ k1 ≠ k2) →
  ∃ i1 b1 i2 b2, (i1 < NBUF)%nat ∧ (i2 < NBUF)%nat ∧ i1 ≠ i2 ∧ B !! i1 = Some b1 ∧ B !! i2 = Some b2 ∧
    (b_refcnt b1 = 0 → cview B D bn1 = dblock D bn1) ∧ (b_refcnt b2 = 0 → cview B D bn2 = dblock D bn2) ∧
    (b_refcnt b1 > 0 → b_dev b1 = ROOTDEV ∧ b_blockno b1 = bn1) ∧
    (b_refcnt b2 > 0 → b_dev b2 = ROOTDEV ∧ b_blockno b2 = bn2) ∧ (pinned B bn2 → 0 < b_refcnt b2) ∧
    let x1 := held me bn1 (cview B D bn1) b1 in let x2 := held me bn2 (cview B D bn2) b2 in
    let B2 := <[i2 := x2]> (<[i1 := x1]> B) in
    bread ROOTDEV bn1 (setf B D W P G I L s) = Ok i1 (setf (<[i1 := x1]> B) D W P G I L s) ∧
    bread ROOTDEV bn2 (setf (<[i1 := x1]> B) D W P G I L s) = Ok i2 (setf B2 D W P G I L s) ∧
    ring B2 l ∧ bc_ok B2 D ∧ (∀ bn, cview B2 D bn = cview B D bn).
Proof using.
  intros Hqi Ht Hne Hk1 Hav. pose proof Hqi as [Hr Ho Hq Hs].
  destruct (read1 B l bn1 D W P G I L k1 Hqi Ht Hk1)
    as (i1 & b1 & Hi1 & Hb1 & Hc1 & Hrd1 & Hr1 & Ho1 & Hv1 & Hp1).
  set (x1 := held me bn1 (cview B D bn1) b1) in *. set (B1 := <[i1 := x1]> B) in *.
  assert (i1 < length B)%nat as Hl1 by (by eapply lookup_lt_Some).
  pose proof (bo_ref _ _ Ho i1 b1 Hi1 Hb1) as Hrr.
  assert (pinned B bn2 → pinned B1 bn2) as Hpin.
  { intros (k & b & Hk & Hb & Hv & Hd & Hn & Hrc). exists k, b. split_and!; try done.
    unfold B1. rewrite list_lookup_insert_ne; [done|]. intros <-.
    rewrite Hb1 in Hb. injection Hb as <-. destruct Hp1; [lia|]. congruence. }
  assert (∃ i b, picks B1 bn2 i b) as Hpk.
  { destruct Hav as [Hpn|[Hk2 Hkk]].
    - by apply pinned_picks, Hpin.
    - destruct (decide (i1 = k1)) as [->|Hik].
      + apply (spare_picks B1 l bn2 k2); [done|]. destruct Hk2 as (Hk2 & b & Hb & H0).
        split; [done|]. exists b. unfold B1. by rewrite list_lookup_insert_ne.
      + apply (spare_picks B1 l bn2 k1); [done|]. destruct Hk1 as (Hk1 & b & Hb & H0).
        split; [done|]. exists b. unfold B1. by rewrite list_lookup_insert_ne. }
  destruct (bread_ok s me B1 l bn2 D W P G I L) as (i2 & b2 & Hpk2 & Hrd2); [done|done|done| |done|].
  { intros i b Hi [[-> ->]|[Hn Hb]]%lookup_replace; [|by intros; eapply Hq].
    unfold x1. cbn. intros [[_ ?]|?]; [done|lia]. }
  assert (i2 ≠ i1) as Hii.
  { intros ->. destruct Hpk2 as (_ & Hb & Hor). unfold B1 in Hb.
    rewrite list_lookup_insert_eq in Hb by done. injection Hb as <-. cbn in Hor. lia. }
  assert (B !! i2 = Some b2) as Hb2.
  { destruct Hpk2 as (_ & Hb & _). unfold B1 in Hb. by rewrite list_lookup_insert_ne in Hb. }
  assert (b_refcnt b2 + 1 < 2 ^ 31) as Hrc2.
  { destruct Hpk2 as (Hi & _). specialize (Hs i2 b2 Hi Hb2). lia. }
  destruct (hold_inv B1 l D bn2 me i2 b2 Hr1 Ho1 Hpk2 Hrc2) as (H1 & H2 & H3).
  assert (b_refcnt b2 = 0 → cview B D bn2 = dblock D bn2) as Hc2
    by (intros H0; rewrite <- Hv1; by eapply picks_clean).
  rewrite (Hv1 bn2) in *. pose proof Hpk2 as (Hi2 & _ & Hor).
  exists i1, b1, i2, b2. cbn zeta. split_and!; try done.
  - intros ?. destruct Hor as [?|[? _]]; [done|lia].
  - intros (k & b & Hk & Hb & Hv & Hd & Hn & Hrc)%Hpin. destruct Hor as [[Hd2 Hn2]|[_ Hno]].
    + assert (i2 = k) as -> by (eapply (bo_uniq _ _ Ho1 i2 k b2 b); [apply Hpk2|done|apply Hpk2|done..|congruence]).
      destruct Hpk2 as (_ & Hb2' & _). congruence.
    + by destruct (Hno k b).
  - intros bn. by rewrite H3.
Qed.
End reads.

(** ** What a step leaves of the cache

    References are not gained; a referenced buffer keeps its block and its
    references, except for the blocks in [ex]. *)
Definition keeps (ex : Z → Prop) (B B' : list buf) : Prop :=
  ∀ k b, (k < NBUF)%nat → B !! k = Some b → ∃ b', B' !! k = Some b' ∧
    0 ≤ b_refcnt b' ≤ b_refcnt b ∧
    (0 < b_refcnt b → ¬ ex (b_blockno b) →
     b_refcnt b' = b_refcnt b ∧ b_dev b' = b_dev b ∧ b_blockno b' = b_blockno b ∧
     (b_valid b = true → b_valid b' = true)).

Definition nothing : Z → Prop := λ _, False.

(** Every reference is the log's, for one of the blocks [lo] .. [hi-1]. *)
Definition only_pins (bl : list Z) (lo hi : nat) (B : list buf) : Prop :=
  ∀ k b, (k < NBUF)%nat → B !! k = Some b → 0 < b_refcnt b →
    b_refcnt b = 1 ∧ b_dev b = ROOTDEV ∧ ∃ i, (lo ≤ i < hi)%nat ∧ b_blockno b = nth i bl 0.
(** The buffer of [bn] lost a reference. *)
Definition unpinned (bn : Z) (B B' : list buf) : Prop :=
  ∃ k b b', (k < NBUF)%nat ∧ B !! k = Some b ∧ b_dev b = ROOTDEV ∧ b_blockno b = bn ∧
    B' !! k = Some b' ∧ b_refcnt b' = b_refcnt b - 1.

Lemma keeps_spare ex B B' k : keeps ex B B' → spare B k → spare B' k.
Proof.
  intros H (Hk & b & Hb & H0). destruct (H k b Hk Hb) as (b' & Hb' & Hr & _).
  split; [done|]. exists b'. split; [done|lia].
Qed.

Lemma keeps_pinned ex B B' bn : keeps ex B B' → ¬ ex bn → pinned B bn → pinned B' bn.
Proof.
  intros H Hx (k & b & Hk & Hb & Hv & Hd & Hn & Hr). destruct (H k b Hk Hb) as (b' & Hb' & _ & H').
  destruct H' as (E1 & E2 & E3 & E4); [done|by rewrite Hn|].
  exists k, b'. split_and!; [done|done|auto|congruence|congruence|lia].
Qed.

Lemma keeps_refs ex B l B' : ring B l → keeps ex B B' → refs_small B → refs_small B'.
Proof.
  intros Hr H Hs k b' Hk Hb'. destruct (lookup_lt_is_Some_2 B k) as [b Hb]; [rewrite (rg_len _ _ Hr); lia|].
  destruct (H k b Hk Hb) as (b1 & Hb1 & ? & _). specialize (Hs k b Hk Hb). simplify_eq. lia.
Qed.

Lemma keeps_trans (ex ex' : Z → Prop) B1 B2 B3 :
  keeps ex B1 B2 → keeps ex' B2 B3 → keeps (λ x, ex x ∨ ex' x) B1 B3.
Proof.
  intros H1 H2 k b Hk Hb. destruct (H1 k b Hk Hb) as (b2 & Hb2 & R2 & E2).
  destruct (H2 k b2 Hk Hb2) as (b3 & Hb3 & R3 & E3). exists b3. split_and!; [done|lia|lia|].
  intros Hr Hx. destruct E2 as (A1 & A2 & A3 & A4); [done|tauto|].
  destruct E3 as (C1 & C2 & C3 & C4); [lia|rewrite A3; tauto|].
  split_and!; [congruence..|auto].
Qed.

Lemma keeps_only_pins bl lo hi B B' :
  length B = length B' → keeps nothing B B' → only_pins bl lo hi B → only_pins bl lo hi B'.
Proof.
  intros Hl H Ho k b' Hk Hb' Hr. destruct (lookup_lt_is_Some_2 B k) as [b Hb]; [rewrite Hl; by eapply lookup_lt_Some|].
  destruct (H k b Hk Hb) as (b1 & Hb1 & ? & E). simplify_eq.
  destruct E as (-> & -> & -> & _); [lia|by intros []|]. apply (Ho k b); done || lia.
Qed.

(** Releasing the first of the pins. *)
Lemma only_pins_step bl lo hi B B' D :
  length B = length B' → bc_ok B D → keeps (λ x, false = false ∧ x = nth lo bl 0) B B' →
  unpinned (nth lo bl 0) B B' → only_pins bl lo hi B → only_pins bl (S lo) hi B'.
Proof.
  intros Hl Ho H (j & c & c' & Hj & Hc & Hd & Hn & Hc' & Hrc) Hp k b' Hk Hb' Hr.
  destruct (lookup_lt_is_Some_2 B k) as [b Hb]; [rewrite Hl; by eapply lookup_lt_Some|].
  destruct (H k b Hk Hb) as (b1 & Hb1 & ? & E). simplify_eq.
  destruct (Hp k b Hk Hb) as (P1 & P2 & i & Hi & P3); [lia|].
  assert (b_blockno b ≠ nth lo bl 0) as Hne.
  { intros E'. assert (k = j) as -> by (eapply (bo_uniq _ _ Ho); eauto; congruence).
    rewrite Hb in Hc. rewrite Hb' in Hc'. simplify_eq. lia. }
  destruct E as (-> & -> & -> & _); [lia|by intros [_ ?]|]. split_and!; [done..|]. exists i. split; [|done].
  split; [|lia]. destruct (decide (i = lo)) as [->|]; [done|lia].
Qed.

Lemma keeps_weaken (ex ex' : Z → Prop) B B' :
  (∀ x, ex x → ex' x) → keeps ex B B' → keeps ex' B B'.
Proof.
  intros Hx H k b Hk Hb. destruct (H k b Hk Hb) as (b' & ? & ? & E). exists b'. split_and!; try done; try lia.
  intros; apply E; auto.
Qed.

Lemma keeps_refl B D : bc_ok B D → keeps nothing B B.
Proof.
  intros Ho k b Hk Hb. pose proof (bo_ref _ _ Ho k b Hk Hb). exists b.
  split_and!; [done|lia|lia|by intros].
Qed.

(** A buffer put back after use: free lock, the block's contents, [r]
    references. *)
Definition put_back (bn : Z) (r : Z) (b x : buf) : Prop :=
  sl_locked (b_lock x) = false ∧ b_valid x = true ∧ b_dev x = ROOTDEV ∧ b_blockno x = bn ∧
  b_refcnt x = r ∧ 0 ≤ r ≤ b_refcnt b ∧ (b_refcnt b > 0 → b_dev b = ROOTDEV ∧ b_blockno b = bn).

Section back.
Context (ex : Z → Prop) (B B' : list buf) (D : gmap Z (list Z)).
Context (Ho : bc_ok B D) (Hq : quiet B).

Lemma one_back i b x bn r :
  (i < NBUF)%nat → B !! i = Some b → put_back bn r b x → (r = b_refcnt b ∨ ex bn) →
  bcore (<[i := x]> B) B' → quiet B' ∧ keeps ex B B'.
Proof using Ho Hq.
  intros Hi Hb (P1 & P2 & P3 & P4 & P5 & P6 & P7) Hr Hc. split.
  - intros k b' Hk Hb'. destruct (bcore_lookup _ _ _ _ Hc Hk Hb') as (b0 & E0 & C0).
    apply core_fields in C0 as (_&_&_&_&_&->&_).
    apply lookup_replace in E0 as [[-> ->]|[? ?]]; [done|by eapply Hq].
  - intros k bk Hk Hbk. destruct (decide (k = i)) as [->|Hne].
    + rewrite Hb in Hbk. injection Hbk as <-.
      assert (<[i := x]> B !! i = Some x) as Hx by (apply list_lookup_insert_eq; by eapply lookup_lt_Some).
      destruct (bcore_lookup _ _ _ _ (bcore_sym _ _ Hc) Hi Hx) as (b' & E' & C').
      apply core_fields in C' as (C1&C2&C3&C4&_). exists b'. split_and!; [done|lia|lia|].
      intros Hrc Hx'. destruct P7 as [Hd Hn]; [lia|].
      destruct Hr as [->|?]; [|congruence]. split_and!; [lia|congruence|congruence|congruence].
    + assert (<[i := x]> B !! k = Some bk) as Hx by (by rewrite list_lookup_insert_ne).
      destruct (bcore_lookup _ _ _ _ (bcore_sym _ _ Hc) Hk Hx) as (b' & E' & C').
      apply core_fields in C' as (C1&C2&C3&C4&_). pose proof (bo_ref _ _ Ho k bk Hk Hbk).
      exists b'. split_and!; [done|lia|lia|]. intros. split_and!; congruence.
Qed.
End back.

Lemma two_back ex B B' D i1 b1 x1 bn1 r1 i2 b2 x2 bn2 r2 :
  bc_ok B D → quiet B → (i1 < NBUF)%nat → (i2 < NBUF)%nat → i1 ≠ i2 →
  B !! i1 = Some b1 → B !! i2 = Some b2 → put_back bn1 r1 b1 x1 → put_back bn2 r2 b2 x2 →
  r1 = b_refcnt b1 → (r2 = b_refcnt b2 ∨ ex bn2) →
  bcore (<[i2 := x2]> (<[i1 := x1]> B)) B' → quiet B' ∧ keeps ex B B'.
Proof.
  intros Ho Hq Hi1 Hi2 Hne Hb1 Hb2 Hp1 Hp2 Hr1 Hr2 Hc. split.
  - intros k b' Hk Hb'. destruct (bcore_lookup _ _ _ _ Hc Hk Hb') as (b0 & E0 & C0).
    apply core_fields in C0 as (_&_&_&_&_&->&_).
    apply lookup_replace in E0 as [[-> ->]|[? E0]]; [apply Hp2|].
    apply lookup_replace in E0 as [[-> ->]|[? E0]]; [apply Hp1|by eapply Hq].
  - intros k bk Hk Hbk.
    assert (∃ y, <[i2 := x2]> (<[i1 := x1]> B) !! k = Some y ∧
      ((k = i1 ∧ y = x1) ∨ (k = i2 ∧ y = x2) ∨ y = bk)) as (y & Hy & Hor).
    { assert (k < length B)%nat by (by eapply lookup_lt_Some).
      destruct (decide (k = i2)) as [->|?].
      { exists x2. split; [apply list_lookup_insert_eq; by rewrite length_insert|auto]. }
      destruct (decide (k = i1)) as [->|?].
      { exists x1. split; [by rewrite list_lookup_insert_ne, list_lookup_insert_eq by done|auto]. }
      exists bk. split; [by rewrite !list_lookup_insert_ne by done|auto]. }
    destruct (bcore_lookup _ _ _ _ (bcore_sym _ _ Hc) Hk Hy) as (b' & E' & C').
    apply core_fields in C' as (C1&C2&C3&C4&_). pose proof (bo_ref _ _ Ho k bk Hk Hbk).
    exists b'. destruct Hor as [[-> ->]|[[-> ->]| ->]].
    + rewrite Hb1 in Hbk. injection Hbk as <-. destruct Hp1 as (P1 & P2 & P3 & P4 & P5 & P6 & P7).
      split_and!; [done|lia|lia|]. intros. destruct P7; [lia|]. split_and!; congruence.
    + rewrite Hb2 in Hbk. injection Hbk as <-. destruct Hp2 as (P1 & P2 & P3 & P4 & P5 & P6 & P7).
      split_and!; [done|lia|lia|]. intros Hrc Hx. destruct P7; [lia|].
      destruct Hr2 as [->|?]; [|congruence]. split_and!; congruence.
    + split_and!; [done|lia|lia|]. intros. split_and!; congruence.
Qed.

(** ** Bookkeeping for the buffers in use *)

Lemma bcore_insert B B' i x x' :
  bcore B B' → length B' = length B → core x' = core x → bcore (<[i := x]> B) (<[i := x']> B').
Proof.
  intros Hc Hl Hx k Hk. destruct (decide (i = k)) as [<-|Hne].
  - destruct (decide (i < length B)%nat) as [Hi|Hi].
    + rewrite !list_lookup_insert_eq by lia. cbn [fmap option_fmap option_map]. by rewrite Hx.
    + rewrite !list_insert_ge by lia. by apply Hc.
  - rewrite !list_lookup_insert_ne by done. by apply Hc.
Qed.

Lemma core_unheld x y : core y = core x → core (unheld y) = core (unheld x).
Proof.
  intros H. assert (∀ z, core (unheld z) = unheld (core z)) as E by (by intros []). by rewrite !E, H.
Qed.

Lemma insert_back {A} (B : list A) i1 i2 x1 x2 y1 y2 z1 :
  i1 ≠ i2 →
  <[i1 := y1]> (<[i2 := y2]> (<[i1 := z1]> (<[i2 := x2]> (<[i1 := x1]> B)))) = <[i2 := y2]> (<[i1 := y1]> B).
Proof.
  intros H. rewrite (list_insert_insert_ne _ i2 i1 y2 z1) by done.
  rewrite list_insert_insert_eq, (list_insert_insert_eq _ i2), (list_insert_insert_ne _ i1 i2) by done.
  by rewrite list_insert_insert_eq.
Qed.

Lemma put_back_unheld me bn d b x r :
  core x = core (held me bn d b) ∨ core x = core ((held me bn d b) <| upd_b_refcnt := r + 1 |>) →
  0 ≤ b_refcnt b → 0 ≤ r ≤ b_refcnt b → (core x = core (held me bn d b) → r = b_refcnt b) →
  (b_refcnt b > 0 → b_dev b = ROOTDEV ∧ b_blockno b = bn) → put_back bn r b (unheld x).
Proof.
  intros Hx Hb0 Hr Hr' Hp.
  assert (b_valid x = true ∧ b_dev x = ROOTDEV ∧ b_blockno x = bn ∧ b_refcnt x = r + 1) as (E1 & E2 & E3 & E4).
  { destruct Hx as [Hx|Hx]; [specialize (Hr' Hx)|]; apply core_fields in Hx as (->&->&->&->&_); split_and!; try done; cbn; lia. }
  unfold put_back, unheld. cbn. split_and!; done || lia.
Qed.

Section steps.
Context (s : kstate) (me : proc).
Implicit Types (B : list buf) (D : gmap Z (list Z)) (W : list (Z * list Z)) (P : list proc).
Implicit Types (G : logst) (I : list inode) (L : list lock).

(** Releasing a buffer that came from [bread]. *)
Lemma brelse_step B l i r bn x D W P G I L :
  ring B l → bc_ok B D → tctx s P L me → (i < NBUF)%nat → B !! i = Some x →
  b_lock x = mk_sleeplock true (pr_pid me) → b_dev x = ROOTDEV → b_valid x = true → b_blockno x = bn →
  0 ≤ r → b_refcnt x = r + 1 → (r = 0 → b_data x = dblock D bn) →
  ∃ B' l' P', brelse i (setf B D W P G I L s) = Ok () (setf B' D W P' G I L s) ∧
    ring B' l' ∧ bc_ok B' D ∧ tctx s P' L me ∧ (∀ bn, cview B' D bn = cview B D bn) ∧
    bcore (<[i := unheld x]> B) B' ∧ length B' = length B.
Proof using.
  intros Hr Ho Ht Hi Hx Hl Hd Hv Hn Hb0 Hrc Hcl.
  destruct (brelse_ok s me B l i x D W P G I L) as (B' & H1 & H2 & H3 & H4 & H5); try done; [lia| |].
  { intros H0. rewrite Hn. apply Hcl. lia. }
  eexists B', _, _. split; [exact H1|]. split; [done|]. split; [done|].
  split; [by apply tctx_wake|]. split_and!; [done|done|].
  by rewrite (rg_len _ _ H2), (rg_len _ _ Hr).
Qed.

Lemma copy_data_ok B to from y D W P G I L :
  B !! from = Some y →
  copy_data to from (setf B D W P G I L s) =
  Ok () (setf (alter (λ x, x <| upd_b_data := b_data y |>) to B) D W P G I L s).
Proof using.
  intros Hy. unfold copy_data. rewrite (bind_ok _ _ _ _ _ (getb_ok B D W P G I L s from y Hy)).
  by rewrite updb_ok.
Qed.

(** One block copied to the log. *)
Lemma log_block_ok B l tail k1 D W P G I L :
  qinv B l D → tctx s P L me → spare B k1 → lg_dev G = ROOTDEV →
  let bn1 := lg_start G + Z.of_nat tail + 1 in let bn2 := nth tail (lh_block G) 0 in
  pinned B bn2 → bn1 ≠ bn2 →
  ∃ B' l' P', log_block tail (setf B D W P G I L s) =
      Ok () (setf B' (<[bn1 := cview B D bn2]> D) (W ++ [(bn1, cview B D bn2)]) P' G I L s) ∧
    qinv B' l' (<[bn1 := cview B D bn2]> D) ∧ tctx s P' L me ∧ keeps nothing B B' ∧
    ∀ bn, cview B' (<[bn1 := cview B D bn2]> D) bn =
      if decide (bn = bn1) then cview B D bn2 else cview B D bn.
Proof using.
  intros Hqi Ht Hk1 Hdev bn1 bn2 Hpin Hne. pose proof Hqi as [Hr Ho Hq Hs].
  destruct (read2 s me B l bn1 bn2 D W P G I L k1 k1 Hqi Ht Hne Hk1 (or_introl Hpin))
    as (i1 & b1 & i2 & b2 & Hi1 & Hi2 & Hii & Hb1 & Hb2 & Hc1 & Hc2 & Hp1 & Hp2 & Hpn & R1 & R2 & Hr2 & Ho2 & Hv2).
  set (d2 := cview B D bn2) in *. set (x1 := held me bn1 (cview B D bn1) b1) in *.
  set (x2 := held me bn2 d2 b2) in *. set (B2 := <[i2 := x2]> (<[i1 := x1]> B)) in *.
  pose proof (bo_ref _ _ Ho i1 b1 Hi1 Hb1) as Hrr1. pose proof (bo_ref _ _ Ho i2 b2 Hi2 Hb2) as Hrr2.
  assert (i1 < length B ∧ i2 < length B)%nat as [Hl1 Hl2] by (split; by eapply lookup_lt_Some).
  unfold log_block. krun. rewrite Hdev. fold bn1 bn2. rewrite (bind_ok _ _ _ _ _ R1), (bind_ok _ _ _ _ _ R2).
  assert (B2 !! i2 = Some x2) as E2 by (apply list_lookup_insert_eq; by rewrite length_insert).
  assert (B2 !! i1 = Some x1) as E1
    by (unfold B2; by rewrite list_lookup_insert_ne, list_lookup_insert_eq by done).
  rewrite (bind_ok _ _ _ _ _ (copy_data_ok B2 i1 i2 x2 D W P G I L E2)).
  erewrite (list_alter_insert _ B2 i1) by done.
  destruct (write_data_inv B2 l D i1 x1 (b_data x2)) as (Hr3 & Ho3 & Hv3); try done; [cbn; lia|by apply cview_length|].
  set (x1' := upd_b_data (λ _, b_data x2) x1) in *. set (B3 := <[i1 := x1']> B2) in *.
  assert (B3 !! i1 = Some x1') as F1
    by (apply list_lookup_insert_eq; unfold B2; by rewrite !length_insert).
  assert (B3 !! i2 = Some x2) as F2 by (unfold B3; by rewrite list_lookup_insert_ne by done).
  rewrite (bind_ok _ _ _ _ _ (bwrite_ok s me B3 i1 x1' D W P G I L Ht F1 eq_refl)).
  destruct (disk_write_inv B3 D i1 x1' Ho3 Hi1 F1 eq_refl eq_refl) as [Ho4 Hv4].
  change (b_blockno x1') with bn1 in *. change (b_data x1') with d2 in *. change (b_blockno x1) with bn1 in *.
  set (D1 := <[bn1 := d2]> D) in *.
  destruct (brelse_step B3 l i2 (b_refcnt b2) bn2 x2 D1 (W ++ [(bn1, d2)]) P G I L)
    as (B4 & l4 & P4 & G1 & G2 & G3 & G4 & G5 & G6 & G7); try done; [lia| |].
  { intros H0. change (b_data x2) with d2. unfold D1. rewrite dblock_insert, decide_False by done. auto. }
  rewrite (bind_ok _ _ _ _ _ G1).
  assert (<[i2 := unheld x2]> B3 !! i1 = Some x1') as F3 by (by rewrite list_lookup_insert_ne by done).
  destruct (bcore_lookup _ _ _ _ (bcore_sym _ _ G6) Hi1 F3) as (y & Hy & Cy).
  pose proof (core_fields _ _ Cy) as (C1 & C2 & C3 & C4 & C5 & C6 & C7).
  destruct (brelse_step B4 l4 i1 (b_refcnt b1) bn1 y D1 (W ++ [(bn1, d2)]) P4 G I L)
    as (B5 & l5 & P5 & K1 & K2 & K3 & K4 & K5 & K6 & K7); [done|done|done|done|done|by rewrite <- C6|by rewrite <- C2|by rewrite <- C1|by rewrite <- C3|lia|by rewrite <- C4| |].
  { intros _. rewrite <- C5. unfold D1. by rewrite dblock_insert, decide_True. }
  assert (bcore (<[i2 := unheld x2]> (<[i1 := unheld x1']> B)) B5) as Hbc.
  { eapply bcore_trans; [|exact K6].
    rewrite <- (insert_back B i1 i2 x1 x2 (unheld x1') (unheld x2) x1') by done.
    apply bcore_insert; [done|by rewrite G7, length_insert|by apply core_unheld]. }
  destruct (two_back nothing B B5 D i1 b1 (unheld x1') bn1 (b_refcnt b1) i2 b2 (unheld x2) bn2 (b_refcnt b2))
    as [Hq5 Hk5]; try done.
  { apply (put_back_unheld me bn1 d2); [by left|lia|lia|done|done]. }
  { apply (put_back_unheld me bn2 d2); [by left|lia|lia|done|done]. }
  { by left. }
  exists B5, l5, P5. split_and!; [exact K1| |done|done|].
  - split; [done|done|done|]. exact (keeps_refs _ _ _ _ Hr Hk5 Hs).
  - intros bn. rewrite K5, G5, Hv4, Hv3, Hv2. done.
Qed.

(** The optional [bunpin] of a buffer in use. *)
Lemma unpin_ok (recovering : bool) B l i x r D W P G I L :
  ring B l → bc_ok B D → LBcache ∉ L → (i < NBUF)%nat → B !! i = Some x →
  b_dev x = ROOTDEV → b_valid x = true → 0 ≤ r → b_refcnt x = (if recovering then r + 1 else r + 2) →
  let B' := <[i := x <| upd_b_refcnt := r + 1 |>]> B in
  whenM (negb recovering) (bunpin i) (setf B D W P G I L s) = Ok () (setf B' D W P G I L s) ∧
  ring B' l ∧ bc_ok B' D ∧ ∀ bn, cview B' D bn = cview B D bn.
Proof using.
  intros Hr Ho HL Hi Hx Hd Hv Hr0 Hrc B'. pose proof (bo_ref _ _ Ho i x Hi Hx) as Hrr.
  assert (∀ j b', (j < NBUF)%nat → j ≠ i → B !! j = Some b' → b_dev b' = ROOTDEV →
    b_blockno b' ≠ b_blockno x) as Hu.
  { intros j b' Hj Hne Hb' Hd' Hn'. apply Hne. eapply (bo_uniq _ _ Ho); eauto. }
  pose proof (bo_len _ _ Ho i x Hi Hx) as Hlen. split_and!.
  - destruct recovering; cbn [negb whenM].
    + unfold mret, M_ret. do 2 f_equal. symmetry. apply list_insert_id. rewrite Hx. f_equal.
      destruct x; cbn in *. by subst.
    + rewrite (bunpin_ok s B i x) by (done || lia). do 2 f_equal. unfold B'.
      by replace (b_refcnt x - 1) with (r + 1) by lia.
  - by eapply ring_insert.
  - eapply bc_ok_replace; cbn; try done; destruct recovering; lia.
  - intros bn. unfold B'. erewrite cview_replace; cbn; try done; [|destruct recovering; lia..].
    case_decide; [subst|done]. symmetry. by eapply cview_holder.
Qed.

(** One block copied from the log to its home.  Before a commit's
    installation the home block is pinned; at recovery a second buffer is
    free. *)
Lemma install_block_ok (recovering : bool) B l tail k1 k2 D W P G I L :
  qinv B l D → tctx s P L me → spare B k1 → lg_dev G = ROOTDEV →
  let bn1 := lg_start G + Z.of_nat tail + 1 in let bn2 := nth tail (lh_block G) 0 in
  (if recovering then spare B k2 ∧ k1 ≠ k2 else pinned B bn2) → bn1 ≠ bn2 →
  ∃ B' l' P', install_block recovering tail (setf B D W P G I L s) =
      Ok () (setf B' (<[bn2 := cview B D bn1]> D) (W ++ [(bn2, cview B D bn1)]) P' G I L s) ∧
    qinv B' l' (<[bn2 := cview B D bn1]> D) ∧ tctx s P' L me ∧
    keeps (λ x, recovering = false ∧ x = bn2) B B' ∧ (recovering = false → unpinned bn2 B B') ∧
    ∀ bn, cview B' (<[bn2 := cview B D bn1]> D) bn =
      if decide (bn = bn2) then cview B D bn1 else cview B D bn.
Proof using.
  intros Hqi Ht Hk1 Hdev bn1 bn2 Hav Hne. pose proof Hqi as [Hr Ho Hq Hs].
  assert (pinned B bn2 ∨ (spare B k2 ∧ k1 ≠ k2)) as Hav' by (destruct recovering; tauto).
  destruct (read2 s me B l bn1 bn2 D W P G I L k1 k2 Hqi Ht Hne Hk1 Hav')
    as (i1 & b1 & i2 & b2 & Hi1 & Hi2 & Hii & Hb1 & Hb2 & Hc1 & Hc2 & Hp1 & Hp2 & Hpn & R1 & R2 & Hr2 & Ho2 & Hv2).
  set (d1 := cview B D bn1) in *. set (x1 := held me bn1 d1 b1) in *.
  set (x2 := held me bn2 (cview B D bn2) b2) in *. set (B2 := <[i2 := x2]> (<[i1 := x1]> B)) in *.
  pose proof (bo_ref _ _ Ho i1 b1 Hi1 Hb1) as Hrr1. pose proof (bo_ref _ _ Ho i2 b2 Hi2 Hb2) as Hrr2.
  assert (i1 < length B ∧ i2 < length B)%nat as [Hl1 Hl2] by (split; by eapply lookup_lt_Some).
  unfold install_block. krun. rewrite Hdev. fold bn1 bn2. rewrite (bind_ok _ _ _ _ _ R1), (bind_ok _ _ _ _ _ R2).
  assert (B2 !! i2 = Some x2) as E2 by (apply list_lookup_insert_eq; by rewrite length_insert).
  assert (B2 !! i1 = Some x1) as E1
    by (unfold B2; by rewrite list_lookup_insert_ne, list_lookup_insert_eq by done).
  rewrite (bind_ok _ _ _ _ _ (copy_data_ok B2 i2 i1 x1 D W P G I L E1)).
  erewrite (list_alter_insert _ B2 i2) by done.
  destruct (write_data_inv B2 l D i2 x2 (b_data x1)) as (Hr3 & Ho3 & Hv3); try done; [cbn; lia|by apply cview_length|].
  set (x2' := upd_b_data (λ _, b_data x1) x2) in *. set (B3 := <[i2 := x2']> B2) in *.
  assert (B3 !! i2 = Some x2') as F2
    by (apply list_lookup_insert_eq; unfold B2; by rewrite !length_insert).
  rewrite (bind_ok _ _ _ _ _ (bwrite_ok s me B3 i2 x2' D W P G I L Ht F2 eq_refl)).
  destruct (disk_write_inv B3 D i2 x2' Ho3 Hi2 F2 eq_refl eq_refl) as [Ho4 Hv4].
  change (b_blockno x2') with bn2 in *. change (b_data x2') with d1 in *. change (b_blockno x2) with bn2 in *.
  set (D1 := <[bn2 := d1]> D) in *.
  set (r := if recovering then b_refcnt b2 else b_refcnt b2 - 1).
  assert (0 ≤ r ≤ b_refcnt b2) as Hr0 by (unfold r; destruct recovering; [lia|specialize (Hpn Hav); lia]).
  assert (bc_ok B3 D1) as Ho3' by done.
  destruct (unpin_ok recovering B3 l i2 x2' r D1 (W ++ [(bn2, d1)]) P G I L)
    as (U1 & U2 & U3 & U4); [done|done|apply Ht|done|done|done|done|lia| |].
  { unfold r. change (b_refcnt x2') with (b_refcnt b2 + 1). destruct recovering; lia. }
  rewrite (bind_ok _ _ _ _ _ U1).
  set (x2'' := upd_b_refcnt (λ _, r + 1) x2') in *. set (B3' := <[i2 := x2'']> B3) in *.
  assert (B3' !! i1 = Some x1) as F1
    by (unfold B3', B3; by rewrite !list_lookup_insert_ne by done).
  destruct (brelse_step B3' l i1 (b_refcnt b1) bn1 x1 D1 (W ++ [(bn2, d1)]) P G I L)
    as (B4 & l4 & P4 & G1 & G2 & G3 & G4 & G5 & G6 & G7); try done; [lia| |].
  { intros H0. change (b_data x1) with d1. unfold D1. rewrite dblock_insert, decide_False by done. auto. }
  rewrite (bind_ok _ _ _ _ _ G1).
  assert (<[i1 := unheld x1]> B3' !! i2 = Some x2'') as F3.
  { rewrite list_lookup_insert_ne by done. apply list_lookup_insert_eq. unfold B3, B2. by rewrite !length_insert. }
  destruct (bcore_lookup _ _ _ _ (bcore_sym _ _ G6) Hi2 F3) as (y & Hy & Cy).
  pose proof (core_fields _ _ Cy) as (C1 & C2 & C3 & C4 & C5 & C6 & C7).
  destruct (brelse_step B4 l4 i2 r bn2 y D1 (W ++ [(bn2, d1)]) P4 G I L)
    as (B5 & l5 & P5 & K1 & K2 & K3 & K4 & K5 & K6 & K7);
    [done|done|done|done|done|by rewrite <- C6|by rewrite <- C2|by rewrite <- C1|by rewrite <- C3|lia|by rewrite <- C4| |].
  { intros _. rewrite <- C5. unfold D1. by rewrite dblock_insert, decide_True. }
  assert (bcore (<[i2 := unheld x2'']> (<[i1 := unheld x1]> B)) B5) as Hbc.
  { eapply bcore_trans; [|exact K6].
    assert (<[i2 := unheld x2'']> (<[i1 := unheld x1]> B) =
            <[i2 := unheld x2'']> (<[i1 := unheld x1]> B3')) as ->.
    { unfold B3', B3, B2. rewrite !list_insert_insert_eq.
      rewrite (list_insert_insert_ne _ i1 i2) by done.
      by rewrite !list_insert_insert_eq. }
    apply bcore_insert; [done|by rewrite G7, length_insert|by apply core_unheld]. }
  destruct (two_back (λ x, recovering = false ∧ x = bn2) B B5 D i1 b1 (unheld x1) bn1 (b_refcnt b1)
    i2 b2 (unheld x2'') bn2 r) as [Hq5 Hk5]; try done.
  { apply (put_back_unheld me bn1 d1); [by left|lia|lia|done|done]. }
  { apply (put_back_unheld me bn2 d1); [by right|lia|lia| |done].
    intros E. apply core_fields in E as (_ & _ & _ & E & _). cbn in E. lia. }
  { unfold r. destruct recovering; [by left|by right]. }
  exists B5, l5, P5. split_and!; [exact K1| |done|done| |].
  - split; [done|done|done|]. exact (keeps_refs _ _ _ _ Hr Hk5 Hs).
  - intros ->. assert (<[i2 := unheld x2'']> (<[i1 := unheld x1]> B) !! i2 = Some (unheld x2'')) as Hu
      by (apply list_lookup_insert_eq; by rewrite length_insert).
    destruct (bcore_lookup _ _ _ _ (bcore_sym _ _ Hbc) Hi2 Hu) as (z & Hz & Cz).
    apply core_fields in Cz as (_ & _ & _ & Cz & _). specialize (Hpn Hav).
    destruct Hp2 as [Hd2 Hn2]; [lia|]. exists i2, b2, z. split_and!; try done. rewrite <- Cz. cbn. lia.
  - intros bn. rewrite K5, G5, U4, Hv4, Hv3, Hv2. done.
Qed.
End steps.

(** ** The header block *)

Lemma length_hdr_put_blocks d n i bl : length (hdr_put_blocks d n i bl) = length d.
Proof. revert d i. induction n as [|n IH]; intros d i; [done|]. cbn [hdr_put_blocks]. by rewrite IH, length_stl. Qed.

Lemma length_hdr_put d n bl : length (hdr_put d n bl) = length d.
Proof. unfold hdr_put. by rewrite length_hdr_put_blocks, length_stl. Qed.

Lemma ldl_put_blocks_out d n i bl k o :
  (o + k ≤ 4 + 4 * i)%nat → ldl k (hdr_put_blocks d n i bl) o = ldl k d o.
Proof.
  revert d i. induction n as [|n IH]; intros d i H; [done|]. cbn [hdr_put_blocks].
  rewrite IH by lia. apply ldl_stl_ne. lia.
Qed.

Lemma ldl_put_blocks d n i bl j :
  (i ≤ j < i + n)%nat → (4 + 4 * (i + n) ≤ length d)%nat →
  ldl 4 (hdr_put_blocks d n i bl) (4 + 4 * j) = u32 (nth j bl 0).
Proof.
  revert d i. induction n as [|n IH]; intros d i Hj Hl; [lia|]. cbn [hdr_put_blocks].
  destruct (decide (j = i)) as [->|Hne].
  - rewrite ldl_put_blocks_out by lia. rewrite ldl_stl by lia. unfold u32. apply Z.mod_small.
    change (256 ^ Z.of_nat 4) with (2 ^ 32). apply Z.mod_pos_bound. lia.
  - rewrite IH by (rewrite ?length_stl; lia). done.
Qed.

Lemma s32_u32 x : - 2 ^ 31 ≤ x < 2 ^ 31 → s32 (u32 x) = x.
Proof. intros H. unfold s32, u32. rewrite Zplus_mod_idemp_l. rewrite Z.mod_small; lia. Qed.

(** What [read_head] finds in a block that [write_head] wrote. *)
Lemma hdr_n_put d n bl :
  length d = Z.to_nat BSIZE → 0 ≤ n ≤ LOGBLOCKS → hdr_n (hdr_put d n bl) = n.
Proof.
  intros Hl Hn. unfold hdr_n, lds32, hdr_put. rewrite ldl_put_blocks_out by lia.
  assert (length d = 1024%nat) as Hl' by (rewrite Hl; reflexivity).
  rewrite ldl_stl by lia. change (256 ^ Z.of_nat 4) with (2 ^ 32).
  assert (LOGBLOCKS = 30) by done. fold (u32 (u32 n)). rewrite (u32_small (u32 n)) by apply u32_range.
  apply s32_u32. lia.
Qed.

Lemma hdr_block_put d n bl i :
  length d = Z.to_nat BSIZE → 0 ≤ n ≤ LOGBLOCKS → (Z.of_nat i < n) →
  0 ≤ nth i bl 0 < 2 ^ 31 → hdr_block (hdr_put d n bl) i = nth i bl 0.
Proof.
  intros Hl Hn Hi Hb. unfold hdr_block, lds32, hdr_put.
  assert (length d = 1024%nat) as Hl' by (rewrite Hl; reflexivity).
  assert (LOGBLOCKS = 30) by done.
  rewrite ldl_put_blocks by (rewrite ?length_stl; lia). apply s32_u32. lia.
Qed.

Lemma length_hdr_get d n i bl : length (hdr_get_blocks d n i bl) = length bl.
Proof. revert i bl. induction n as [|n IH]; intros i bl; [done|]. cbn [hdr_get_blocks]. by rewrite IH, length_insert. Qed.

Lemma nth_hdr_get_out d n i bl j : (j < i)%nat → nth j (hdr_get_blocks d n i bl) 0 = nth j bl 0.
Proof.
  revert i bl. induction n as [|n IH]; intros i bl H; [done|]. cbn [hdr_get_blocks]. rewrite IH by lia.
  by rewrite !nth_lookup_Z, list_lookup_insert_ne by lia.
Qed.

Lemma nth_hdr_get d n i bl j :
  (i ≤ j < i + n)%nat → (i + n ≤ length bl)%nat → nth j (hdr_get_blocks d n i bl) 0 = hdr_block d j.
Proof.
  revert i bl. induction n as [|n IH]; intros i bl Hj Hl; [lia|]. cbn [hdr_get_blocks].
  destruct (decide (j = i)) as [->|Hne].
  - rewrite nth_hdr_get_out by lia. by rewrite nth_lookup_Z, list_lookup_insert_eq by lia.
  - rewrite IH by (rewrite ?length_insert; lia). done.
Qed.

Section heads.
Context (s : kstate) (me : proc).
Implicit Types (B : list buf) (D : gmap Z (list Z)) (W : list (Z * list Z)) (P : list proc).
Implicit Types (G : logst) (I : list inode) (L : list lock).

Lemma write_head_ok B l k D W P G I L :
  qinv B l D → tctx s P L me → spare B k → lg_dev G = ROOTDEV →
  let d := hdr_put (cview B D (lg_start G)) (lh_n G) (lh_block G) in
  let D' := <[lg_start G := d]> D in
  ∃ B' l' P', write_head (setf B D W P G I L s) =
      Ok () (setf B' D' (W ++ [(lg_start G, d)]) P' G I L s) ∧
    qinv B' l' D' ∧ tctx s P' L me ∧ keeps nothing B B' ∧
    ∀ bn, cview B' D' bn = if decide (bn = lg_start G) then d else cview B D bn.
Proof using.
  intros Hqi Ht Hk Hdev d D'. pose proof Hqi as [Hr Ho Hq Hs].
  destruct (read1 s me B l (lg_start G) D W P G I L k Hqi Ht Hk)
    as (i & b & Hi & Hb & Hc & Hrd & Hr1 & Ho1 & Hv1 & Hp).
  set (x := held me (lg_start G) (cview B D (lg_start G)) b) in *. set (B1 := <[i := x]> B) in *.
  pose proof (bo_ref _ _ Ho i b Hi Hb) as Hrr. assert (i < length B)%nat as Hl by (by eapply lookup_lt_Some).
  unfold write_head. krun. rewrite Hdev, (bind_ok _ _ _ _ _ Hrd).
  rewrite (bind_ok _ _ _ _ _ (updb_ok s i _ B1 D W P G I L)).
  assert (B1 !! i = Some x) as E by (by apply list_lookup_insert_eq).
  rewrite (list_alter_insert _ B1 i x E).
  assert (length d = Z.to_nat BSIZE) as Hd by (unfold d; rewrite length_hdr_put; by apply cview_length).
  destruct (write_data_inv B1 l D i x d Hr1 Ho1 Hi E eq_refl eq_refl) as (Hr3 & Ho3 & Hv3); [cbn; lia|done|].
  change (upd_b_data _ x) with (upd_b_data (λ _, d) x). set (x' := upd_b_data (λ _, d) x) in *.
  set (B3 := <[i := x']> B1) in *.
  assert (B3 !! i = Some x') as F by (apply list_lookup_insert_eq; unfold B1; by rewrite length_insert).
  rewrite (bind_ok _ _ _ _ _ (bwrite_ok s me B3 i x' D W P G I L Ht F eq_refl)).
  destruct (disk_write_inv B3 D i x' Ho3 Hi F eq_refl eq_refl) as [Ho4 Hv4].
  change (b_blockno x') with (lg_start G) in *. change (b_data x') with d in *. fold D' in Ho4, Hv4 |- *.
  destruct (brelse_step s me B3 l i (b_refcnt b) (lg_start G) x' D' (W ++ [(lg_start G, d)]) P G I L)
    as (B4 & l4 & P4 & G1 & G2 & G3 & G4 & G5 & G6 & G7); try done; [lia| |].
  { intros _. unfold D'. by rewrite dblock_insert, decide_True. }
  destruct (one_back nothing B B4 D Ho Hq i b (unheld x') (lg_start G) (b_refcnt b)) as [Hq4 Hk4]; try done.
  { apply (put_back_unheld me (lg_start G) d); [by left|lia|lia|done|done]. }
  { by left. }
  { unfold B3, B1 in G6. by rewrite !list_insert_insert_eq in G6. }
  exists B4, l4, P4. split_and!; [exact G1| |done|done|].
  - split; [done|done|done|]. exact (keeps_refs _ _ _ _ Hr Hk4 Hs).
  - intros bn. rewrite G5, Hv4, Hv3, Hv1. done.
Qed.

Lemma read_head_ok B l k D W P G I L :
  qinv B l D → tctx s P L me → spare B k → lg_dev G = ROOTDEV →
  let d := cview B D (lg_start G) in
  let G' := G <| upd_lh_n := hdr_n d |> <| upd_lh_block ::= hdr_get_blocks d (Z.to_nat (hdr_n d)) 0 |> in
  ∃ B' l' P', read_head (setf B D W P G I L s) = Ok () (setf B' D W P' G' I L s) ∧
    qinv B' l' D ∧ tctx s P' L me ∧ keeps nothing B B' ∧ ∀ bn, cview B' D bn = cview B D bn.
Proof using.
  intros Hqi Ht Hk Hdev d G'. pose proof Hqi as [Hr Ho Hq Hs].
  destruct (read1 s me B l (lg_start G) D W P G I L k Hqi Ht Hk)
    as (i & b & Hi & Hb & Hc & Hrd & Hr1 & Ho1 & Hv1 & Hp).
  set (x := held me (lg_start G) (cview B D (lg_start G)) b) in *. set (B1 := <[i := x]> B) in *.
  pose proof (bo_ref _ _ Ho i b Hi Hb) as Hrr. assert (i < length B)%nat as Hl by (by eapply lookup_lt_Some).
  unfold read_head. krun. rewrite Hdev, (bind_ok _ _ _ _ _ Hrd).
  assert (B1 !! i = Some x) as E by (by apply list_lookup_insert_eq).
  rewrite (bind_ok _ _ _ _ _ (getb_ok B1 D W P G I L s i x E)). unfold updlog. krun.
  match goal with |- context [setf B1 D W P ?g I L s] => change g with G' end.
  destruct (brelse_step s me B1 l i (b_refcnt b) (lg_start G) x D W P G' I L)
    as (B4 & l4 & P4 & G1 & G2 & G3 & G4 & G5 & G6 & G7); try done; [lia|].
  destruct (one_back nothing B B4 D Ho Hq i b (unheld x) (lg_start G) (b_refcnt b)) as [Hq4 Hk4]; try done.
  { apply (put_back_unheld me (lg_start G) d); [by left|lia|lia|done|done]. }
  { by left. }
  { unfold B1 in G6. by rewrite !list_insert_insert_eq in G6. }
  exists B4, l4, P4. split_and!; [exact G1| |done|done|].
  - split; [done|done|done|]. exact (keeps_refs _ _ _ _ Hr Hk4 Hs).
  - intros bn. by rewrite G5, Hv1.
Qed.
End heads.

(** ** Sequences of disk writes *)

Definition applyw (D : gmap Z (list Z)) (ws : list (Z * list Z)) : gmap Z (list Z) :=
  foldl (λ D w, <[w.1 := w.2]> D) D ws.
Definition applyv (V : Z → list Z) (ws : list (Z * list Z)) : Z → list Z :=
  foldl (λ V w x, if decide (x = w.1) then w.2 else V x) V ws.

Lemma applyw_app D ws ws' : applyw D (ws ++ ws') = applyw (applyw D ws) ws'.
Proof. apply foldl_app. Qed.
Lemma applyv_app V ws ws' : applyv V (ws ++ ws') = applyv (applyv V ws) ws'.
Proof. apply foldl_app. Qed.

Lemma applyv_ext V V' ws bn : (∀ x, V x = V' x) → applyv V ws bn = applyv V' ws bn.
Proof.
  revert V V'. induction ws as [|w ws IH]; intros V V' H; [apply H|]. cbn. apply IH.
  intros x. by rewrite H.
Qed.

Lemma dblock_applyw D ws bn : dblock (applyw D ws) bn = applyv (dblock D) ws bn.
Proof.
  revert D. induction ws as [|w ws IH]; intros D; [done|]. cbn. rewrite IH. apply applyv_ext.
  intros x. apply dblock_insert.
Qed.

Lemma applyv_notin V ws bn : bn ∉ ws.*1 → applyv V ws bn = V bn.
Proof.
  revert V. induction ws as [|w ws IH]; intros V H; [done|]. cbn in *.
  apply not_elem_of_cons in H as [H1 H2]. rewrite IH by done. by rewrite decide_False.
Qed.

(** A block written once reads as written. *)
Lemma applyv_in V ws bn d : NoDup ws.*1 → (bn, d) ∈ ws → applyv V ws bn = d.
Proof.
  revert V. induction ws as [|w ws IH]; intros V Hnd Hin; [by apply not_elem_of_nil in Hin|].
  apply NoDup_cons in Hnd as [Hn Hnd]. apply elem_of_cons in Hin as [<-|Hin]; [|by apply IH].
  change (applyv V ((bn, d) :: ws)) with (applyv (λ x, if decide (x = bn) then d else V x) ws).
  rewrite applyv_notin by done. by rewrite decide_True.
Qed.

(** The writes of [write_log] and of [install_trans], for blocks [tail] to
    [tail + n - 1]: [V] is the contents of the blocks. *)
Definition log_ws (st : Z) (V : Z → list Z) (bl : list Z) (n tail : nat) : list (Z * list Z) :=
  (λ i, (st + Z.of_nat i + 1, V (nth i bl 0))) <$> seq tail n.
Definition home_ws (st : Z) (V : Z → list Z) (bl : list Z) (n tail : nat) : list (Z * list Z) :=
  (λ i, (nth i bl 0, V (st + Z.of_nat i + 1))) <$> seq tail n.

(** A transaction: distinct home blocks, none of them in the log area. *)
Record txn_ok (st : Z) (bl : list Z) (n : nat) : Prop := {
  tx_n : Z.of_nat n ≤ LOGBLOCKS;
  tx_len : length bl = Z.to_nat LOGBLOCKS;
  tx_home i : (i < n)%nat → 0 ≤ nth i bl 0 < 2 ^ 31 ∧ ¬ (st ≤ nth i bl 0 ≤ st + LOGBLOCKS);
  tx_inj i j : (i < n)%nat → (j < n)%nat → nth i bl 0 = nth j bl 0 → i = j;
}.

Lemma tx_sep st bl n i j : txn_ok st bl n → (i < n)%nat → (j < n)%nat → st + Z.of_nat j + 1 ≠ nth i bl 0.
Proof. intros [H1 _ H2 _] Hi Hj E. apply H2 in Hi as [_ Hi]. lia. Qed.

Lemma log_ws_ext st V V' bl n tail :
  (∀ i, (tail ≤ i < tail + n)%nat → V' (nth i bl 0) = V (nth i bl 0)) → log_ws st V' bl n tail = log_ws st V bl n tail.
Proof.
  intros H. apply list_fmap_ext. intros k x Hx%lookup_seq. destruct Hx as [-> Hk]. by rewrite H by lia.
Qed.
Lemma home_ws_ext st V V' bl n tail :
  (∀ i, (tail ≤ i < tail + n)%nat → V' (st + Z.of_nat i + 1) = V (st + Z.of_nat i + 1)) →
  home_ws st V' bl n tail = home_ws st V bl n tail.
Proof.
  intros H. apply list_fmap_ext. intros k x Hx%lookup_seq. destruct Hx as [-> Hk]. by rewrite H by lia.
Qed.

Section loops.
Context (s : kstate) (me : proc).
Implicit Types (B : list buf) (D : gmap Z (list Z)) (W : list (Z * list Z)) (P : list proc).
Implicit Types (G : logst) (I : list inode) (L : list lock).

Lemma write_log_loop_ok n N tail B l k D W P G I L :
  qinv B l D → tctx s P L me → spare B k → lg_dev G = ROOTDEV → txn_ok (lg_start G) (lh_block G) N →
  (tail + n ≤ N)%nat → (∀ i, (i < N)%nat → pinned B (nth i (lh_block G) 0)) →
  let ws := log_ws (lg_start G) (cview B D) (lh_block G) n tail in
  ∃ B' l' P', write_log_loop n tail (setf B D W P G I L s) =
      Ok () (setf B' (applyw D ws) (W ++ ws) P' G I L s) ∧
    qinv B' l' (applyw D ws) ∧ tctx s P' L me ∧ keeps nothing B B' ∧
    ∀ bn, cview B' (applyw D ws) bn = applyv (cview B D) ws bn.
Proof using.
  revert tail B l D W P. induction n as [|n IH]; intros tail B l D W P Hq Ht Hk Hdev Htx Hn Hpin ws.
  { exists B, l, P. unfold ws. cbn. rewrite app_nil_r. split_and!; [done..| |done].
    by eapply keeps_refl, (q_ok _ _ _ Hq). }
  cbn [write_log_loop].
  destruct (log_block_ok s me B l tail k D W P G I L) as (B1 & l1 & P1 & E1 & Q1 & T1 & K1 & V1);
    [done|done|done|done|apply Hpin; lia|apply (tx_sep _ _ _ _ _ Htx); lia|].
  rewrite (bind_ok _ _ _ _ _ E1).
  set (bn1 := lg_start G + Z.of_nat tail + 1) in *. set (d := cview B D (nth tail (lh_block G) 0)) in *.
  destruct (IH (S tail) B1 l1 (<[bn1 := d]> D) (W ++ [(bn1, d)]) P1)
    as (B' & l' & P' & E2 & Q2 & T2 & K2 & V2); [done|done|by eapply keeps_spare|done|done|lia| |].
  { intros i Hi. eapply keeps_pinned; [done|by intros []|by apply Hpin]. }
  rewrite (log_ws_ext _ (cview B D) (cview B1 (<[bn1 := d]> D))) in E2, Q2, V2
    by (intros i Hi; rewrite V1, decide_False;
        [done|intros E; symmetry in E; by apply (tx_sep _ _ _ _ _ Htx) in E; [|lia..]]).
  exists B', l', P'. rewrite <- app_assoc in E2. split_and!; [exact E2|exact Q2|done| |].
  - eapply keeps_weaken; [|by eapply keeps_trans]. by intros x [?|?].
  - intros bn. etransitivity; [exact (V2 bn)|]. exact (applyv_ext _ _ _ bn V1).
Qed.

Lemma install_loop_ok (recovering : bool) n N tail B l k1 k2 D W P G I L :
  qinv B l D → tctx s P L me → spare B k1 → lg_dev G = ROOTDEV → txn_ok (lg_start G) (lh_block G) N →
  (tail + n ≤ N)%nat →
  (if recovering then spare B k2 ∧ k1 ≠ k2
   else ∀ i, (tail ≤ i < N)%nat → pinned B (nth i (lh_block G) 0)) →
  let ws := home_ws (lg_start G) (cview B D) (lh_block G) n tail in
  ∃ B' l' P', install_trans_loop n tail recovering (setf B D W P G I L s) =
      Ok () (setf B' (applyw D ws) (W ++ ws) P' G I L s) ∧
    qinv B' l' (applyw D ws) ∧ tctx s P' L me ∧ keeps (λ _, True) B B' ∧
    (recovering = false → only_pins (lh_block G) tail N B → only_pins (lh_block G) (tail + n) N B') ∧
    ∀ bn, cview B' (applyw D ws) bn = applyv (cview B D) ws bn.
Proof using.
  revert tail B l D W P. induction n as [|n IH]; intros tail B l D W P Hq Ht Hk Hdev Htx Hn Hav ws.
  { exists B, l, P. unfold ws. cbn. rewrite app_nil_r. split_and!; [done..| |by rewrite Nat.add_0_r|done].
    eapply keeps_weaken; [|by eapply keeps_refl, (q_ok _ _ _ Hq)]. done. }
  cbn [install_trans_loop].
  destruct (install_block_ok s me recovering B l tail k1 k2 D W P G I L)
    as (B1 & l1 & P1 & E1 & Q1 & T1 & K1 & U1 & V1);
    [done|done|done|done| |apply (tx_sep _ _ _ _ _ Htx); lia|].
  { destruct recovering; [done|]. apply Hav. lia. }
  rewrite (bind_ok _ _ _ _ _ E1).
  set (bn2 := nth tail (lh_block G) 0) in *. set (d := cview B D (lg_start G + Z.of_nat tail + 1)) in *.
  destruct (IH (S tail) B1 l1 (<[bn2 := d]> D) (W ++ [(bn2, d)]) P1)
    as (B' & l' & P' & E2 & Q2 & T2 & K2 & U2 & V2); [done|done|by eapply keeps_spare|done|done|lia| |].
  { destruct recovering; [split; [eapply keeps_spare; [done|]|]; apply Hav|].
    intros i Hi. eapply keeps_pinned; [done| |apply Hav; lia].
    intros [_ E]. apply (tx_inj _ _ _ Htx) in E; lia. }
  rewrite (home_ws_ext _ (cview B D) (cview B1 (<[bn2 := d]> D))) in E2, Q2, V2
    by (intros i Hi; rewrite V1, decide_False; [done|apply (tx_sep _ _ _ _ _ Htx); lia]).
  exists B', l', P'. rewrite <- app_assoc in E2. split_and!; [exact E2|exact Q2|done| | |].
  - eapply keeps_weaken; [|by eapply keeps_trans]. done.
  - intros -> Hp. rewrite <- Nat.add_succ_comm. apply U2; [done|].
    eapply only_pins_step; [|apply Hq|exact K1|by apply U1|done].
    by rewrite (rg_len _ _ (q_ring _ _ _ Hq)), (rg_len _ _ (q_ring _ _ _ Q1)).
  - intros bn. etransitivity; [exact (V2 bn)|]. exact (applyv_ext _ _ _ bn V1).
Qed.

(** The disk writes of a commit, in order. *)
Definition home_new (V : Z → list Z) (bl : list Z) (n : nat) : list (Z * list Z) :=
  (λ i, (nth i bl 0, V (nth i bl 0))) <$> seq 0 n.
Definition commit_ws (st : Z) (V : Z → list Z) (bl : list Z) (n : nat) : list (Z * list Z) :=
  let d := hdr_put (V st) (Z.of_nat n) bl in
  log_ws st V bl n 0 ++ [(st, d)] ++ home_new V bl n ++ [(st, hdr_put d 0 bl)].

Lemma log_ws_fst st V bl n tail x :
  x ∈ (log_ws st V bl n tail).*1 → ∃ i, (tail ≤ i < tail + n)%nat ∧ x = st + Z.of_nat i + 1.
Proof using.
  unfold log_ws. rewrite <- list_fmap_compose. intros (i & -> & Hi)%list_elem_of_fmap.
  apply elem_of_seq in Hi. exists i. split; [lia|done].
Qed.

Lemma NoDup_log_ws st V bl n tail : NoDup (log_ws st V bl n tail).*1.
Proof using.
  unfold log_ws. rewrite <- list_fmap_compose. apply NoDup_fmap_2_strong; [|apply NoDup_seq].
  intros x y _ _. cbn. lia.
Qed.

Lemma applyv_log st V bl n i :
  (i < n)%nat → applyv V (log_ws st V bl n 0) (st + Z.of_nat i + 1) = V (nth i bl 0).
Proof using.
  intros Hi. apply applyv_in; [apply NoDup_log_ws|]. apply list_elem_of_fmap. exists i.
  split; [done|]. apply elem_of_seq. lia.
Qed.

Lemma commit_ok n B l k D W P G I L :
  qinv B l D → tctx s P L me → spare B k → lg_dev G = ROOTDEV → txn_ok (lg_start G) (lh_block G) n →
  lh_n G = Z.of_nat n → (0 < n)%nat → (∀ i, (i < n)%nat → pinned B (nth i (lh_block G) 0)) →
  let ws := commit_ws (lg_start G) (cview B D) (lh_block G) n in
  ∃ B' l' P', commit (setf B D W P G I L s) =
      Ok () (setf B' (applyw D ws) (W ++ ws) P' (G <| upd_lh_n := 0 |>) I L s) ∧
    qinv B' l' (applyw D ws) ∧ tctx s P' L me ∧
    (only_pins (lh_block G) 0 n B → only_pins (lh_block G) n n B') ∧
    ∀ bn, cview B' (applyw D ws) bn = applyv (cview B D) ws bn.
Proof using.
  intros Hq Ht Hk Hdev Htx Hn Hn0 Hpin ws. set (st := lg_start G) in *. set (bl := lh_block G) in *.
  unfold commit. krun. rewrite Hn, (proj2 (Z.ltb_lt _ _)) by lia. cbn [whenM]. unfold write_log. krun.
  rewrite Hn, Nat2Z.id.
  destruct (write_log_loop_ok n n 0 B l k D W P G I L) as (B1 & l1 & P1 & E1 & Q1 & T1 & K1 & V1);
    [done..|lia|done|].
  rewrite (bind_ok _ _ _ _ _ E1). fold st bl in Q1, V1 |- *.
  destruct (write_head_ok s me B1 l1 k (applyw D (log_ws st (cview B D) bl n 0))
    (W ++ log_ws st (cview B D) bl n 0) P1 G I L) as (B2 & l2 & P2 & E2 & Q2 & T2 & K2 & V2);
    [done|done|by eapply keeps_spare|done|].
  rewrite (bind_ok _ _ _ _ _ E2). fold st bl in Q2, V2 |- *.
  assert (cview B1 (applyw D (log_ws st (cview B D) bl n 0)) st = cview B D st) as Est.
  { rewrite V1. apply applyv_notin. intros (i & Hi & E)%log_ws_fst. lia. }
  rewrite Est, Hn in *. set (d := hdr_put (cview B D st) (Z.of_nat n) bl) in *.
  unfold install_trans. krun. rewrite Hn, Nat2Z.id.
  destruct (install_loop_ok false n n 0 B2 l2 k k _ ((W ++ log_ws st (cview B D) bl n 0) ++ [(st, d)]) P2 G I L Q2 T2)
    as (B3 & l3 & P3 & E3 & Q3 & T3 & K3 & U3 & V3); [|done|done|lia| |].
  { eapply keeps_spare; [done|]. by eapply keeps_spare. }
  { intros i Hi. eapply keeps_pinned; [exact K2|by intros []|].
    eapply keeps_pinned; [exact K1|by intros []|]. apply Hpin. lia. }
  rewrite (bind_ok _ _ _ _ _ E3). fold st bl in Q3, V3 |- *. unfold updlog. krun.
  assert (home_ws st (cview B2 (<[st := d]> (applyw D (log_ws st (cview B D) bl n 0)))) bl n 0 =
          home_new (cview B D) bl n) as Ehome.
  { apply list_fmap_ext. intros j x Hx%lookup_seq. destruct Hx as [-> Hj].
    rewrite V2, decide_False by lia. rewrite V1. f_equal. apply applyv_log. lia. }
  rewrite Ehome in *.
  destruct (write_head_ok s me B3 l3 k _ (((W ++ log_ws st (cview B D) bl n 0) ++ [(st, d)]) ++ home_new (cview B D) bl n)
    P3 (G <| upd_lh_n := 0 |>) I L Q3 T3) as (B4 & l4 & P4 & E4 & Q4 & T4 & K4 & V4); [|done|].
  { eapply keeps_spare; [done|]. eapply keeps_spare; [done|]. by eapply keeps_spare. }
  change (lg_start (upd_lh_n (λ _, 0) G)) with st in *. change (lh_block (upd_lh_n (λ _, 0) G)) with bl in *.
  change (lh_n (upd_lh_n (λ _, 0) G)) with 0 in *.
  assert (st ∉ (home_new (cview B D) bl n).*1) as Hst.
  { unfold home_new. rewrite <- list_fmap_compose. intros (i & E & Hi)%list_elem_of_fmap.
    apply elem_of_seq in Hi. cbn in E. destruct (tx_home _ _ _ Htx i) as [_ Hh]; [lia|].
    apply Hh. rewrite <- E. unfold LOGBLOCKS, MAXOPBLOCKS. lia. }
  assert (cview B3 (applyw (<[st := d]> (applyw D (log_ws st (cview B D) bl n 0))) (home_new (cview B D) bl n)) st = d) as E5.
  { rewrite V3, applyv_notin by done. by rewrite V2, decide_True. }
  rewrite E5 in *. unfold ws, commit_ws. fold d. rewrite !applyw_app.
  exists B4, l4, P4. split_and!; [|exact Q4|done| |].
  - rewrite E4. by rewrite <- !app_assoc.
  - assert (∀ B l D B' l' D', qinv B l D → qinv B' l' D' → length B = length B') as Hlen.
    { intros * H1 H2. by rewrite (rg_len _ _ (q_ring _ _ _ H1)), (rg_len _ _ (q_ring _ _ _ H2)). }
    intros Hp. eapply keeps_only_pins; [exact (Hlen _ _ _ _ _ _ Q3 Q4)|exact K4|]. apply U3; [done|].
    eapply keeps_only_pins; [exact (Hlen _ _ _ _ _ _ Q1 Q2)|exact K2|].
    eapply keeps_only_pins; [exact (Hlen _ _ _ _ _ _ Hq Q1)|exact K1|done].
  - intros bn. rewrite !applyv_app. etransitivity; [exact (V4 bn)|]. cbn [applyv foldl]. cbn.
    case_decide; [done|]. rewrite V3. apply applyv_ext. intros x. rewrite V2. case_decide; [done|]. apply V1.
Qed.
End loops.
