(* ===== verification/LogCrash.v ===== *)
(** * kernel/log.c: crash safety

    A crash during [commit] leaves on the disk the effect of a prefix of its
    writes.  After a reboot [recover_from_log] runs on an empty cache.  The
    theorem: whatever the prefix, the home blocks of the transaction are then
    all old or all new, and every other block outside the log is untouched. *)

From S2P Require Import Prelude Bytes Riscv Kstate CString Kalloc Vm Sched Bio Log LogProps.

(** ** Recovery *)

(** The cache after [binit]. *)
Record fresh_cache (B : list buf) (l : list nat) : Prop := {
  fc_ring : ring B l;
  fc_buf i b : (i < NBUF)%nat → B !! i = Some b →
    b_valid b = false ∧ b_refcnt b = 0 ∧ b_dev b = 0 ∧ sl_locked (b_lock b) = false ∧
    length (b_data b) = Z.to_nat BSIZE;
}.
Definition disk_ok (D : gmap Z (list Z)) : Prop := ∀ bn d, D !! bn = Some d → length d = Z.to_nat BSIZE.

Lemma fresh_qinv B l D : fresh_cache B l → disk_ok D → qinv B l D.
Proof.
  intros [Hr Hb] HD. split; [done| | |].
  - split; try done.
    + intros i j b b' Hi Hj Hbi Hbj Hd. destruct (Hb i b Hi Hbi) as (_ & _ & E & _). by rewrite E in Hd.
    + intros i b Hi Hbi Hv. destruct (Hb i b Hi Hbi) as (E & _). congruence.
    + intros i b Hi Hbi Hv. destruct (Hb i b Hi Hbi) as (E & _). congruence.
    + intros i b Hi Hbi. destruct (Hb i b Hi Hbi) as (_ & -> & _). lia.
    + intros i b Hi Hbi. by destruct (Hb i b Hi Hbi) as (_ & _ & _ & _ & ?).
  - intros i b Hi Hbi. by destruct (Hb i b Hi Hbi) as (_ & _ & _ & ? & _).
  - intros i b Hi Hbi. destruct (Hb i b Hi Hbi) as (_ & -> & _). lia.
Qed.

Lemma fresh_cview B l D bn : fresh_cache B l → cview B D bn = dblock D bn.
Proof.
  intros [_ Hb]. apply cview_none. intros i b Hi Hbi Hv. destruct (Hb i b Hi Hbi) as (E & _). congruence.
Qed.

Lemma fresh_spare B l k : fresh_cache B l → (k < NBUF)%nat → spare B k.
Proof.
  intros [Hr Hb] Hk. split; [done|]. destruct (lookup_lt_is_Some_2 B k) as [b E].
  { rewrite (rg_len _ _ Hr). lia. }
  exists b. split; [done|]. by apply (Hb k b Hk E).
Qed.

(** The disk that recovery leaves, from the header it finds. *)
Definition recover_ws (st : Z) (D : gmap Z (list Z)) (bl : list Z) : list (Z * list Z) :=
  let d := dblock D st in
  let n := Z.to_nat (hdr_n d) in
  let bl' := hdr_get_blocks d n 0 bl in
  home_ws st (dblock D) bl' n 0 ++ [(st, hdr_put d 0 bl')].

Lemma home_ws_fst st V bl n x :
  x ∈ (home_ws st V bl n 0).*1 → ∃ i, (i < n)%nat ∧ x = nth i bl 0.
Proof.
  unfold home_ws. rewrite <- list_fmap_compose. intros (i & -> & Hi)%list_elem_of_fmap.
  apply elem_of_seq in Hi. exists i. split; [lia|done].
Qed.

Lemma txn_st st bl n V : txn_ok st bl n → st ∉ (home_ws st V bl n 0).*1.
Proof.
  intros Htx (i & Hi & E)%home_ws_fst. destruct (tx_home _ _ _ Htx i Hi) as [_ Hh]. apply Hh. rewrite <- E.
  unfold LOGBLOCKS, MAXOPBLOCKS. lia.
Qed.

Lemma recover_ok s me B l D W P G I L :
  fresh_cache B l → disk_ok D → tctx s P L me → lg_dev G = ROOTDEV →
  let st := lg_start G in let d := dblock D st in
  0 ≤ hdr_n d ≤ LOGBLOCKS → txn_ok st (hdr_get_blocks d (Z.to_nat (hdr_n d)) 0 (lh_block G)) (Z.to_nat (hdr_n d)) →
  ∃ B' l' P' G', recover_from_log (setf B D W P G I L s) =
      Ok () (setf B' (applyw D (recover_ws st D (lh_block G))) (W ++ recover_ws st D (lh_block G)) P' G' I L s) ∧
    lh_n G' = 0 ∧ qinv B' l' (applyw D (recover_ws st D (lh_block G))) ∧ tctx s P' L me.
Proof.
  intros Hf HD Ht Hdev st d Hn Htx. pose proof (fresh_qinv B l D Hf HD) as Hq.
  unfold recover_from_log.
  destruct (read_head_ok s me B l 0 D W P G I L Hq Ht) as (B1 & l1 & P1 & E1 & Q1 & T1 & K1 & V1);
    [eapply fresh_spare; [done|unfold NBUF; lia]|done|].
  rewrite (bind_ok _ _ _ _ _ E1). clear E1. rewrite (fresh_cview B l) in * by done. fold st d.
  set (bl' := hdr_get_blocks d (Z.to_nat (hdr_n d)) 0 (lh_block G)) in *.
  match goal with |- context [setf B1 D W P1 ?g I L s] => set (G1 := g) end.
  assert (lg_dev G1 = ROOTDEV ∧ lg_start G1 = st ∧ lh_block G1 = bl' ∧ lh_n G1 = hdr_n d) as (A1 & A2 & A3 & A4)
    by (by split_and!).
  assert (∀ bn, cview B1 D bn = dblock D bn) as Vd.
  { intros bn. rewrite V1. by eapply fresh_cview. }
  unfold install_trans. krun. rewrite A4.
  destruct (install_loop_ok s me true (Z.to_nat (hdr_n d)) (Z.to_nat (hdr_n d)) 0 B1 l1 0 1 D W P1 G1 I L)
    as (B2 & l2 & P2 & E2 & Q2 & T2 & K2 & _ & V2); [done|done| |done|by rewrite A2, A3|lia| |].
  { eapply keeps_spare; [done|]. eapply fresh_spare; [done|unfold NBUF; lia]. }
  { split; [|lia]. eapply keeps_spare; [done|]. eapply fresh_spare; [done|unfold NBUF; lia]. }
  rewrite (bind_ok _ _ _ _ _ E2). clear E2. rewrite A2, A3 in *.
  rewrite (home_ws_ext _ (dblock D)) in Q2, V2 |- * by (intros; apply Vd).
  set (ws := home_ws st (dblock D) bl' (Z.to_nat (hdr_n d)) 0) in *. unfold updlog. krun.
  destruct (write_head_ok s me B2 l2 0 (applyw D ws) (W ++ ws) P2 (G1 <| upd_lh_n := 0 |>) I L)
    as (B3 & l3 & P3 & E3 & Q3 & T3 & K3 & V3); [done|done| |done|].
  { eapply keeps_spare; [done|]. eapply keeps_spare; [done|]. eapply fresh_spare; [done|unfold NBUF; lia]. }
  change (lg_start (upd_lh_n (λ _, 0) G1)) with st in *. change (lh_block (upd_lh_n (λ _, 0) G1)) with bl' in *.
  change (lh_n (upd_lh_n (λ _, 0) G1)) with 0 in *.
  assert (cview B2 (applyw D ws) st = d) as Ed.
  { rewrite V2, applyv_notin, Vd; [done|by apply txn_st]. }
  rewrite Ed in *. exists B3, l3, P3, (G1 <| upd_lh_n := 0 |>). split_and!; [|done| |done].
  - rewrite E3. unfold recover_ws. fold d bl' ws. by rewrite applyw_app, <- app_assoc.
  - unfold recover_ws. fold d bl' ws. rewrite applyw_app. exact Q3.
Qed.

(** ** The disk after recovery *)

Lemma applyv_home st V bl n i :
  txn_ok st bl n → (i < n)%nat → applyv V (home_ws st V bl n 0) (nth i bl 0) = V (st + Z.of_nat i + 1).
Proof.
  intros Htx Hi. apply applyv_in.
  - unfold home_ws. rewrite <- list_fmap_compose. apply NoDup_fmap_2_strong; [|apply NoDup_seq].
    intros x y Hx%elem_of_seq Hy%elem_of_seq E. apply (tx_inj _ _ _ Htx); [lia|lia|done].
  - apply list_elem_of_fmap. exists i. split; [done|]. apply elem_of_seq. lia.
Qed.

(** Outside the log area. *)
Definition data_block (st bn : Z) : Prop := ¬ (st ≤ bn ≤ st + LOGBLOCKS).

Definition is_home (bl : list Z) (n : nat) (bn : Z) : Prop := ∃ i, (i < n)%nat ∧ bn = nth i bl 0.

Lemma txn_data st bl n i : txn_ok st bl n → (i < n)%nat → data_block st (nth i bl 0).
Proof. intros Htx Hi. by destruct (tx_home _ _ _ Htx i Hi). Qed.

Lemma data_not_st st bn : data_block st bn → bn ≠ st.
Proof. unfold data_block, LOGBLOCKS, MAXOPBLOCKS. lia. Qed.

Lemma recover_none st D bl bn :
  hdr_n (dblock D st) = 0 → data_block st bn → dblock (applyw D (recover_ws st D bl)) bn = dblock D bn.
Proof.
  intros H0 Hd. unfold recover_ws. rewrite H0. change (Z.to_nat 0) with 0%nat.
  rewrite dblock_applyw. cbn. rewrite decide_False; [done|by apply data_not_st].
Qed.

Lemma recover_some st D bl bl' n bn :
  hdr_n (dblock D st) = Z.of_nat n → hdr_get_blocks (dblock D st) n 0 bl = bl' → txn_ok st bl' n → data_block st bn →
  (∀ i, (i < n)%nat → bn = nth i bl' 0 → dblock (applyw D (recover_ws st D bl)) bn = dblock D (st + Z.of_nat i + 1)) ∧
  (¬ is_home bl' n bn → dblock (applyw D (recover_ws st D bl)) bn = dblock D bn).
Proof.
  intros H0 Hbl Htx Hd.
  assert (dblock (applyw D (recover_ws st D bl)) bn = applyv (dblock D) (home_ws st (dblock D) bl' n 0) bn) as E.
  { unfold recover_ws. rewrite H0, Nat2Z.id, Hbl, dblock_applyw, applyv_app. cbn.
    rewrite decide_False; [done|by apply data_not_st]. }
  split.
  - intros i Hi ->. rewrite E. by apply applyv_home.
  - intros Hn. rewrite E. apply applyv_notin. intros (i & Hi & ->)%home_ws_fst. apply Hn. by exists i.
Qed.

(** ** Prefixes of a commit *)

Section prefix.
Context (st : Z) (D : gmap Z (list Z)) (V : Z → list Z) (bl : list Z) (n : nat).
Context (Htx : txn_ok st bl n).
Let d := hdr_put (V st) (Z.of_nat n) bl.
Let ws := commit_ws st V bl n.

Lemma length_log_ws : length (log_ws st V bl n 0) = n.
Proof using. unfold log_ws. by rewrite length_fmap, length_seq. Qed.

Lemma home_new_fst x : x ∈ (home_new V bl n).*1 → is_home bl n x.
Proof using.
  unfold home_new. rewrite <- list_fmap_compose. intros (i & -> & Hi)%list_elem_of_fmap.
  apply elem_of_seq in Hi. exists i. split; [lia|done].
Qed.

Lemma NoDup_home_new : NoDup (home_new V bl n).*1.
Proof using Htx.
  unfold home_new. rewrite <- list_fmap_compose. apply NoDup_fmap_2_strong; [|apply NoDup_seq].
  intros x y Hx%elem_of_seq Hy%elem_of_seq E. apply (tx_inj _ _ _ Htx); [lia|lia|done].
Qed.

Lemma take_fst {A B} k (l : list (A * B)) (x : A) : x ∈ (take k l).*1 → x ∈ l.*1.
Proof using. rewrite fmap_take. apply subseteq_take. Qed.

Lemma log_ws_data bn : bn ∈ (log_ws st V bl n 0).*1 → ¬ data_block st bn.
Proof using Htx.
  intros (i & Hi & ->)%log_ws_fst Hd. apply Hd. pose proof (tx_n _ _ _ Htx). lia.
Qed.

Lemma log_ws_not_st k : st ∉ (take k (log_ws st V bl n 0)).*1.
Proof using. intros (i & Hi & E)%take_fst%log_ws_fst. lia. Qed.

(** Before the header is written, only the log area has changed and the header
    is the old one. *)
Lemma prefix_early k :
  (k ≤ n)%nat →
  dblock (applyw D (take k ws)) st = dblock D st ∧
  ∀ bn, data_block st bn → dblock (applyw D (take k ws)) bn = dblock D bn.
Proof using Htx.
  intros Hk. assert (take k ws = take k (log_ws st V bl n 0)) as ->.
  { unfold ws, commit_ws. apply take_app_le. rewrite length_log_ws. done. }
  split.
  - rewrite dblock_applyw. apply applyv_notin, log_ws_not_st.
  - intros bn Hd. rewrite dblock_applyw. apply applyv_notin. intros H%take_fst. by apply log_ws_data in H.
Qed.

(** After the header, and until it is cleared. *)
Lemma prefix_middle k :
  (n < k)%nat → (k ≤ 2 * n + 1)%nat →
  dblock (applyw D (take k ws)) st = d ∧
  (∀ i, (i < n)%nat → dblock (applyw D (take k ws)) (st + Z.of_nat i + 1) = V (nth i bl 0)) ∧
  ∀ bn, data_block st bn → ¬ is_home bl n bn → dblock (applyw D (take k ws)) bn = dblock D bn.
Proof using Htx.
  intros Hk1 Hk2. set (j := (k - n - 1)%nat).
  assert (take k ws = log_ws st V bl n 0 ++ [(st, d)] ++ take j (home_new V bl n)) as ->.
  { unfold ws, commit_ws. fold d. rewrite take_app_ge by (rewrite length_log_ws; lia).
    rewrite length_log_ws. f_equal. replace (k - n)%nat with (S j) by lia. cbn [app take]. f_equal.
    apply take_app_le. unfold home_new. rewrite length_fmap, length_seq. lia. }
  assert (∀ bn, ¬ is_home bl n bn → bn ∉ (take j (home_new V bl n)).*1) as Hnh.
  { intros bn Hh H%take_fst. by apply Hh, home_new_fst. }
  assert (∀ i, (i < n)%nat → ¬ is_home bl n (st + Z.of_nat i + 1)) as Hlog.
  { intros i Hi (i' & Hi' & E). by apply (tx_sep _ _ _ _ _ Htx) in E. }
  assert (¬ is_home bl n st) as Hsth.
  { intros (i & Hi & E). apply (data_not_st st (nth i bl 0)); [by eapply txn_data|done]. }
  split_and!; [|intros i Hi|intros bn Hd Hh]; rewrite dblock_applyw, !applyv_app, applyv_notin by auto;
    cbn [applyv foldl]; cbn.
  - by rewrite decide_True.
  - rewrite decide_False by lia. apply applyv_in; [apply NoDup_log_ws|].
    apply list_elem_of_fmap. exists i. split; [done|]. apply elem_of_seq. lia.
  - rewrite decide_False by (by apply data_not_st). apply applyv_notin. intros H. by apply log_ws_data in H.
Qed.

(** After the header is cleared. *)
Lemma prefix_late k :
  (2 * n + 1 < k)%nat →
  dblock (applyw D (take k ws)) st = hdr_put d 0 bl ∧
  (∀ i, (i < n)%nat → dblock (applyw D (take k ws)) (nth i bl 0) = V (nth i bl 0)) ∧
  ∀ bn, data_block st bn → ¬ is_home bl n bn → dblock (applyw D (take k ws)) bn = dblock D bn.
Proof using Htx.
  intros Hk. assert (take k ws = ws) as ->.
  { apply take_ge. unfold ws, commit_ws. rewrite !length_app, length_log_ws. unfold home_new.
    rewrite length_fmap, length_seq. cbn. lia. }
  unfold ws, commit_ws. fold d. split_and!; [|intros i Hi|intros bn Hd Hh];
    rewrite dblock_applyw, !applyv_app; cbn [applyv foldl]; cbn.
  - by rewrite decide_True.
  - assert (nth i bl 0 ≠ st) by (by eapply data_not_st, txn_data). rewrite decide_False by done.
    apply applyv_in; [apply NoDup_home_new|]. apply list_elem_of_fmap. exists i. split; [done|].
    apply elem_of_seq. lia.
  - assert (bn ≠ st) by (by apply data_not_st). rewrite decide_False by done.
    rewrite applyv_notin by (intros Hin; by apply Hh, home_new_fst). rewrite decide_False by done.
    apply applyv_notin. intros Hin. by apply log_ws_data in Hin.
Qed.
End prefix.

(** ** The claim *)

(** The state in which the last [end_op] calls [commit]: [n] distinct blocks
    logged, pinned and cached, no buffer locked, one buffer free for the log
    blocks, and an empty log on the disk. *)
Record commit_pre (s : kstate) (me : proc) (n : nat) (B : list buf) (l : list nat) (D : gmap Z (list Z))
    (P : list proc) (G : logst) (L : list lock) : Prop := {
  cp_q : qinv B l D;
  cp_t : tctx s P L me;
  cp_spare : ∃ k, spare B k;
  cp_dev : lg_dev G = ROOTDEV;
  cp_txn : txn_ok (lg_start G) (lh_block G) n;
  cp_n : lh_n G = Z.of_nat n;
  cp_pos : (0 < n)%nat;
  cp_pin i : (i < n)%nat → pinned B (nth i (lh_block G) 0);
  cp_empty : hdr_n (dblock D (lg_start G)) = 0;
}.

(** The machine after a reboot on the disk [D]. *)
Record boot_pre (st : Z) (s : kstate) (me : proc) (B : list buf) (l : list nat)
    (P : list proc) (G : logst) (L : list lock) : Prop := {
  bp_fresh : fresh_cache B l;
  bp_t : tctx s P L me;
  bp_dev : lg_dev G = ROOTDEV;
  bp_start : lg_start G = st;
  bp_len : length (lh_block G) = Z.to_nat LOGBLOCKS;
}.

Lemma applyw_ok D ws : disk_ok D → Forall (λ w, length w.2 = Z.to_nat BSIZE) ws → disk_ok (applyw D ws).
Proof.
  revert D. induction ws as [|w ws IH]; intros D HD Hw; [done|]. apply Forall_cons in Hw as [Hw Hws].
  cbn. apply IH; [|done]. intros bn d. rewrite lookup_insert. case_decide; [by intros [= <-]|apply HD].
Qed.

Lemma commit_ws_ok st V bl n :
  (∀ bn, length (V bn) = Z.to_nat BSIZE) → Forall (λ w, length w.2 = Z.to_nat BSIZE) (commit_ws st V bl n).
Proof.
  intros HV. unfold commit_ws, log_ws, home_new. rewrite !Forall_app, !Forall_fmap.
  split_and!; try (apply Forall_true; intros; apply HV);
    (constructor; [cbn; by rewrite ?length_hdr_put|constructor]).
Qed.

(** The header [write_head] wrote is read back as the same transaction. *)
Lemma hdr_roundtrip st d bl bl2 n :
  length d = Z.to_nat BSIZE → txn_ok st bl n → length bl2 = Z.to_nat LOGBLOCKS →
  let h := hdr_put d (Z.of_nat n) bl in
  hdr_n h = Z.of_nat n ∧ txn_ok st (hdr_get_blocks h n 0 bl2) n ∧
  ∀ i, (i < n)%nat → nth i (hdr_get_blocks h n 0 bl2) 0 = nth i bl 0.
Proof.
  intros Hl Htx Hl2 h. pose proof (tx_n _ _ _ Htx) as Hn.
  assert (∀ i, (i < n)%nat → nth i (hdr_get_blocks h n 0 bl2) 0 = nth i bl 0) as Hb.
  { intros i Hi. rewrite nth_hdr_get by lia. apply hdr_block_put; [done|lia|lia|].
    by apply (tx_home _ _ _ Htx). }
  split_and!; [apply hdr_n_put; [done|lia]| |done]. split; [done|by rewrite length_hdr_get| |].
  - intros i Hi. rewrite Hb by done. by apply (tx_home _ _ _ Htx).
  - intros i j Hi Hj. rewrite !Hb by done. by apply (tx_inj _ _ _ Htx).
Qed.

(** What is on the disk after a crash that let [k] writes of the commit
    through, and recovery. *)
Definition atomic (st : Z) (D : gmap Z (list Z)) (V : Z → list Z) (bl : list Z) (n k : nat)
    (D' : gmap Z (list Z)) : Prop :=
  (∀ i, (i < n)%nat → dblock D' (nth i bl 0) = if decide (k ≤ n)%nat then dblock D (nth i bl 0) else V (nth i bl 0)) ∧
  (∀ bn, data_block st bn → ¬ is_home bl n bn → dblock D' bn = dblock D bn).

Lemma recover_atomic st D V bl bl2 n k :
  txn_ok st bl n → length bl2 = Z.to_nat LOGBLOCKS → length (V st) = Z.to_nat BSIZE →
  hdr_n (dblock D st) = 0 →
  let Dk := applyw D (take k (commit_ws st V bl n)) in
  let d := dblock Dk st in
  0 ≤ hdr_n d ≤ LOGBLOCKS ∧ txn_ok st (hdr_get_blocks d (Z.to_nat (hdr_n d)) 0 bl2) (Z.to_nat (hdr_n d)) ∧
  atomic st D V bl n k (applyw Dk (recover_ws st Dk bl2)).
Proof.
  intros Htx Hl2 HV H0 Dk d.
  assert (0 ≤ 0 ≤ LOGBLOCKS) as HL by (unfold LOGBLOCKS, MAXOPBLOCKS; lia).
  assert (∀ b : list Z, length b = Z.to_nat LOGBLOCKS → txn_ok st b 0) as Htx0.
  { intros b Hb. split; [apply HL|done|lia|lia]. }
  destruct (decide (k ≤ n)%nat) as [Hk|Hk].
  - destruct (prefix_early st D V bl n Htx k Hk) as [E1 E2]. fold Dk in E1, E2.
    assert (hdr_n (dblock Dk st) = 0) as E3 by (by rewrite E1).
    unfold d. rewrite E3. split; [done|split; [by apply Htx0|split]].
    + intros i Hi. rewrite decide_True by done.
      rewrite recover_none by (done || by eapply txn_data). apply E2. by eapply txn_data.
    + intros bn Hd _. rewrite recover_none by done. by apply E2.
  - destruct (decide (k ≤ 2 * n + 1)%nat) as [Hk2|Hk2].
    + destruct (prefix_middle st D V bl n Htx k) as (E1 & E2 & E3); [lia|done|]. fold Dk in E1, E2, E3.
      destruct (hdr_roundtrip st (V st) bl bl2 n HV Htx Hl2) as (F1 & F2 & F3).
      assert (d = hdr_put (V st) (Z.of_nat n) bl) as Ed by done.
      assert (hdr_n (dblock Dk st) = Z.of_nat n) as Hn by (by rewrite E1).
      split; [unfold d; rewrite Hn; split; [lia|apply Htx]|].
      split; [rewrite Ed, F1, Nat2Z.id; done|].
      assert (hdr_get_blocks (dblock Dk st) n 0 bl2 = hdr_get_blocks d n 0 bl2) as Eg by done.
      rewrite Ed in Eg. split.
      * intros i Hi. rewrite decide_False by done.
        destruct (recover_some st Dk bl2 _ n (nth i bl 0) Hn Eg F2) as [R1 _]; [by eapply txn_data|].
        rewrite (R1 i) by (done || by rewrite F3). by apply E2.
      * intros bn Hd Hh. destruct (recover_some st Dk bl2 _ n bn Hn Eg F2 Hd) as [_ R2].
        rewrite R2; [by apply E3|]. intros (i & Hi & E). apply Hh. exists i. by rewrite <- F3.
    + destruct (prefix_late st D V bl n Htx k) as (E1 & E2 & E3); [lia|]. fold Dk in E1, E2, E3.
      assert (hdr_n (dblock Dk st) = 0) as Hn.
      { rewrite E1. apply hdr_n_put; [by rewrite length_hdr_put|done]. }
      unfold d. rewrite Hn. split; [done|split; [by apply Htx0|split]].
      * intros i Hi. rewrite decide_False by done.
        rewrite recover_none by (done || by eapply txn_data). by apply E2.
      * intros bn Hd Hh. rewrite recover_none by done. by apply E3.
Qed.

(** C1: Commit is atomic with respect to crashes: [commit] succeeds and sends
    a sequence of writes to the disk; if the machine stops after any number
    [k] of them and reboots, [recover_from_log] succeeds, and every block of
    the transaction then has its old contents (if the header write was not
    among the [k]) or every one has its new contents, and no other block
    outside the log area has changed. *)
Theorem commit_crash_safe s me n B l D W P G I L :
  commit_pre s me n B l D P G L →
  ∃ ws s', commit (setf B D W P G I L s) = Ok () s' ∧ dwrites s' = W ++ ws ∧ disk s' = applyw D ws ∧
    (∀ i, (i < n)%nat → dblock (disk s') (nth i (lh_block G) 0) = cview B D (nth i (lh_block G) 0)) ∧
    ∀ k s2 me2 B2 l2 W2 P2 G2 I2 L2, boot_pre (lg_start G) s2 me2 B2 l2 P2 G2 L2 →
      ∃ s'', recover_from_log (setf B2 (applyw D (take k ws)) W2 P2 G2 I2 L2 s2) = Ok () s'' ∧
        atomic (lg_start G) D (cview B D) (lh_block G) n k (disk s'').
Proof.
  intros [Hq Ht [k0 Hk0] Hdev Htx Hn Hpos Hpin Hemp].
  destruct (commit_ok s me n B l k0 D W P G I L) as (B' & l' & P' & E1 & Q1 & T1 & _ & V1); [done..|].
  set (ws := commit_ws (lg_start G) (cview B D) (lh_block G) n) in *.
  eexists ws, _. split; [exact E1|]. rewrite dwrites_setf, disk_setf. split; [done|]. split; [done|].
  assert (∀ bn, length (cview B D bn) = Z.to_nat BSIZE) as HVl by (intros; apply cview_length, Hq).
  split.
  { assert (take (2 * n + 2) ws = ws) as Etk.
    { apply take_ge. unfold ws, commit_ws, log_ws, home_new. rewrite !length_app, !length_fmap, !length_seq.
      cbn. lia. }
    destruct (prefix_late (lg_start G) D (cview B D) (lh_block G) n Htx (2 * n + 2)) as (_ & E2 & _); [lia|].
    fold ws in E2. by rewrite Etk in E2. }
  intros k s2 me2 B2 l2 W2 P2 G2 I2 L2 [Hf Ht2 Hdev2 Hst2 Hlen2].
  destruct (recover_atomic (lg_start G) D (cview B D) (lh_block G) (lh_block G2) n k) as (R1 & R2 & R3); [done..|].
  fold ws in R1, R2, R3.
  destruct (recover_ok s2 me2 B2 l2 (applyw D (take k ws)) W2 P2 G2 I2 L2) as (B3 & l3 & P3 & G3 & E3 & _);
    [done| |done|done|by rewrite Hst2|by rewrite Hst2|].
  { apply applyw_ok; [intros bn d Hd; by eapply (bo_disk _ _ (q_ok _ _ _ Hq))|].
    apply Forall_take. by apply commit_ws_ok. }
  eexists. split; [exact E3|]. rewrite disk_setf, Hst2. exact R3.
Qed.

(** ** The boot cache *)

(** The buffers [binit] leaves at boot. *)
Definition boot_cache : list buf :=
  match binit kstate0 with Ok _ s => bcache s | _ => [] end.
Definition boot_order : list nat := reverse (seq 0 NBUF).

Definition fresh_buf (b : buf) : bool :=
  negb (b_valid b) && (b_refcnt b =? 0) && (b_dev b =? 0) && negb (sl_locked (b_lock b)) &&
  (length (b_data b) =? Z.to_nat BSIZE)%nat.

Lemma boot_cache_fresh : fresh_cache boot_cache boot_order.
Proof.
  split; [split|].
  - vm_compute. reflexivity.
  - vm_compute. reflexivity.
  - vm_compute. reflexivity.
  - unfold boot_order. rewrite reverse_Permutation. apply NoDup_seq.
  - intros i. unfold boot_order. rewrite elem_of_reverse, elem_of_seq. lia.
  - assert (forallb fresh_buf boot_cache = true) as H by (vm_compute; reflexivity).
    rewrite forallb_forall in H. intros i b _ Hb%list_elem_of_lookup_2. apply list_elem_of_In, H in Hb.
    unfold fresh_buf in Hb. rewrite !andb_true_iff, !negb_true_iff, !Z.eqb_eq, Nat.eqb_eq in Hb. tauto.
Qed.

(** From the zeroed boot state [binit] links all the buffers into one ring
    with the last one at the front, all of them unused, unlocked and invalid,
    and touches nothing but the buffers. *)
Theorem binit_fresh s :
  bcache s = bcache kstate0 →
  binit s = Ok () (s <| upd_bcache := boot_cache |>) ∧ fresh_cache boot_cache boot_order.
Proof.
  intros H. split; [|apply boot_cache_fresh]. destruct s. cbn in H. subst. vm_compute. reflexivity.
Qed.

Lemma binit_fresh_witness :
  binit kstate0 = Ok () (kstate0 <| upd_bcache := boot_cache |>) ∧ fresh_cache boot_cache boot_order.
Proof. apply (binit_fresh kstate0). reflexivity. Defined.

#[global] Opaque boot_cache.

(** ** Witness *)

Definition demo_s : kstate := kstate0 <| upd_curproc := Some 0%nat |>.
Definition demo_buf (b : buf) : buf :=
  mk_buf true false ROOTDEV 100 sleeplock0 1 (b_prev b) (b_next b) (replicate (Z.to_nat BSIZE) 7).
Definition demo_cache : list buf := alter demo_buf 0%nat boot_cache.
Definition demo_log : logst :=
  mk_logst 2 0 true ROOTDEV 1 (100 :: replicate (Z.to_nat (LOGBLOCKS - 1)) 0).

Lemma demo_tctx : tctx demo_s (replicate NPROC proc0) [] proc0.
Proof. split; try (intros; apply not_elem_of_nil); [by exists 0%nat|by rewrite length_replicate]. Qed.

Lemma demo_commit_pre :
  commit_pre demo_s proc0 1 demo_cache boot_order ∅ (replicate NPROC proc0) demo_log [].
Proof.
  destruct (fresh_qinv boot_cache boot_order ∅ boot_cache_fresh) as [Hr Ho Hq Hs]; [by intros bn d|].
  pose proof boot_cache_fresh as [_ Hb].
  destruct (lookup_lt_is_Some_2 boot_cache 0) as [b E]; [rewrite (rg_len _ _ Hr); lia|].
  assert (demo_cache = <[0%nat := demo_buf b]> boot_cache) as Ec by (by apply list_alter_insert).
  assert (0 < length boot_cache)%nat as Hl by (by eapply lookup_lt_Some).
  split; [split| | | | | | | |].
  - rewrite Ec. by eapply ring_insert.
  - rewrite Ec. apply (bc_ok_replace boot_cache ∅ 0 b (demo_buf b));
      [exact Ho|unfold NBUF; lia|exact E|reflexivity|cbn; lia|apply length_replicate| |cbn; lia].
    intros j b' Hj _ Hb' Hd. destruct (Hb j b' Hj Hb') as (_ & _ & E' & _). by rewrite E' in Hd.
  - rewrite Ec. intros i b' Hi [[-> ->]|[_ H]]%lookup_replace; [done|by eapply Hq].
  - rewrite Ec. intros i b' Hi [[-> ->]|[_ H]]%lookup_replace; [cbn; lia|by eapply Hs].
  - apply demo_tctx.
  - exists 1%nat. destruct (fresh_spare boot_cache boot_order 1 boot_cache_fresh) as (H1 & b1 & H2 & H3);
      [unfold NBUF; lia|]. split; [done|]. exists b1. rewrite Ec.
    rewrite list_lookup_insert_ne by lia. split; [exact H2|exact H3].
  - done.
  - split; [done|by vm_compute| |].
    + intros [|i] Hi; [|lia]. cbn. unfold LOGBLOCKS, MAXOPBLOCKS. lia.
    + lia.
  - done.
  - lia.
  - intros [|i] Hi; [|lia]. exists 0%nat, (demo_buf b). rewrite Ec, list_lookup_insert_eq by done.
    split_and!; [unfold NBUF; lia|reflexivity..|cbn; lia].
  - by vm_compute.
Qed.

Lemma commit_crash_safe_witness :
  ∃ ws s', commit (setf demo_cache ∅ [] (replicate NPROC proc0) demo_log [] [] demo_s) = Ok () s' ∧
    dwrites s' = ws ∧
    ∀ k, ∃ s'', recover_from_log (setf boot_cache (applyw ∅ (take k ws)) [] (replicate NPROC proc0) demo_log [] [] demo_s)
        = Ok () s'' ∧
      atomic 2 ∅ (cview demo_cache ∅) (lh_block demo_log) 1 k (disk s'').
Proof.
  destruct (commit_crash_safe demo_s proc0 1 demo_cache boot_order ∅ [] (replicate NPROC proc0) demo_log [] []
    demo_commit_pre) as (ws & s' & H1 & H2 & _ & _ & H3).
  exists ws, s'. split; [exact H1|]. split; [exact H2|]. intros k.
  apply (H3 k demo_s proc0 boot_cache boot_order [] (replicate NPROC proc0) demo_log [] []).
  split; [apply boot_cache_fresh|apply demo_tctx|reflexivity|reflexivity|vm_compute; reflexivity].
Defined.
