(* ===== verification/LogTxn.v ===== *)
(** * kernel/log.c: reservation of log space

    [begin_op] admits an operation only when the log has room for
    MAXOPBLOCKS blocks for every outstanding operation; [log_write] then
    never runs out.  File system calls are interleaved by [tstep]: a step runs
    one thread inside log.c until it returns or gives up the CPU, asleep in
    [begin_op] or in the commit of [end_op]; other code may run in between as
    long as it leaves the log alone.  [tinv] is the invariant: room for what
    the admitted operations may still write, and a marked log during a commit. *)

From S2P Require Import Prelude Bytes Riscv Kstate CString Kalloc Vm Sched Bio Log.

(** ** Threads under interference

    [rg R J Q r]: whenever [r] gives up the CPU the log satisfies [J]; if the
    other threads change it only by [R] meanwhile, this goes on, and a run that
    returns satisfies [Q]. *)

Inductive rg {A} (R : logst → logst → Prop) (J : logst → Prop) (Q : A → kstate → Prop) :
    res (option chan) kstate A → Prop :=
| rg_ok a s : Q a s → rg R J Q (Ok a s)
| rg_panic m : rg R J Q (Panic m)
| rg_sleep c s k :
    J (log s) → (∀ s1, R (log s) (log s1) → rg R J Q (k s1)) → rg R J Q (Sleep c s k)
| rg_nofuel : rg R J Q NoFuel.

Lemma rg_bind {A B} R J (Q1 : A → kstate → Prop) (Q2 : B → kstate → Prop) (f : A → K B) r :
  rg R J Q1 r → (∀ a s, Q1 a s → rg R J Q2 (f a s)) → rg R J Q2 (rbind f r).
Proof. intros Hr Hf. induction Hr; cbn [rbind]; try constructor; auto. Qed.
Lemma rg_mono {A} R (J J' : logst → Prop) (Q Q' : A → kstate → Prop) r :
  rg R J Q r → (∀ G, J G → J' G) → (∀ a s, Q a s → Q' a s) → rg R J' Q' r.
Proof. intros Hr HJ HQ. induction Hr; constructor; auto. Qed.
Lemma rg_ok_inv {A} R J (Q : A → kstate → Prop) a s : rg R J Q (Ok a s) → Q a s.
Proof. by inversion 1. Qed.

(** [frames G r]: [r] itself never changes the log [G] it finds, neither
    before it gives up the CPU nor after it is resumed. *)
Inductive frames {A} : logst → res (option chan) kstate A → Prop :=
| fr_ok a s : frames (log s) (Ok a s)
| fr_panic G m : frames G (Panic m)
| fr_sleep c s k : (∀ s1, frames (log s1) (k s1)) → frames (log s) (Sleep c s k)
| fr_nofuel G : frames G NoFuel.
Definition keeps_log {A} (m : K A) : Prop := ∀ s, frames (log s) (m s).

Lemma frames_bind {A B} (f : A → K B) G r :
  frames G r → (∀ a s, frames (log s) (f a s)) → frames G (rbind f r).
Proof. intros Hr Hf. induction Hr; cbn [rbind]; try constructor; auto. Qed.
Lemma frames_rg {A} G (r : res (option chan) kstate A) :
  frames G r → rg eq (λ G', G' = G) (λ _ s', log s' = G) r.
Proof. induction 1 as [| |c s k _ IH|]; constructor; [done..|]. intros s1 Hs. rewrite Hs. apply IH. Qed.

Section keeps.
Context {A B : Type}.
Lemma kl_ret (a : A) : keeps_log (mret a).
Proof. intros s. by constructor. Qed.
Lemma kl_panic msg : keeps_log (panic msg : K A).
Proof. intros s. constructor. Qed.
Lemma kl_nofuel : keeps_log (nofuel : K A).
Proof. intros s. constructor. Qed.
Lemma kl_gets (f : kstate → A) : keeps_log (gets f).
Proof. intros s. by constructor. Qed.
Lemma kl_modify f : (∀ s, log (f s) = log s) → keeps_log (modify f).
Proof. intros H s. rewrite <- (H s). constructor. Qed.
Lemma kl_bind (m : K A) (f : A → K B) : keeps_log m → (∀ a, keeps_log (f a)) → keeps_log (m ≫= f).
Proof. intros Hm Hf s. apply frames_bind; [apply Hm|]. intros a s1. apply Hf. Qed.
Lemma kl_when c (m : K ()) : keeps_log m → keeps_log (whenM c m).
Proof. intros H. destruct c; [done|]. intros s. by constructor. Qed.
Lemma kl_acquire l : keeps_log (acquire l).
Proof. intros s. unfold acquire. case_decide; [constructor|]. apply (fr_ok () (s <| upd_locks ::= cons l |>)). Qed.
Lemma kl_release l : keeps_log (release l).
Proof. intros s. unfold release. case_decide; [|constructor]. apply (fr_ok () (s <| upd_locks ::= drop_lock l |>)). Qed.
Lemma kl_ok (m : K A) s a s' : keeps_log m → m s = Ok a s' → log s' = log s.
Proof. intros H E. specialize (H s). rewrite E in H. by inversion H. Qed.
End keeps.

Create HintDb klog.
#[export] Hint Resolve kl_ret kl_panic kl_nofuel kl_gets kl_acquire kl_release : klog.
(** Decompose a computation; what is left are calls of other routines. *)
Ltac klog :=
  repeat first
    [ solve [eauto with klog] | apply kl_bind; [|intros ?] | apply kl_when
    | apply kl_modify; intros; reflexivity
    | match goal with
      | |- keeps_log (if ?b then _ else _) => destruct b
      | |- keeps_log (match ?x with _ => _ end) => destruct x
      end ].

Lemma kl_myproc : keeps_log myproc.
Proof. unfold myproc. klog. Qed.
Lemma kl_getproc i : keeps_log (getproc i).
Proof. unfold getproc. klog. Qed.
Lemma kl_setproc i f : keeps_log (setproc i f).
Proof. unfold setproc. klog. Qed.
#[export] Hint Resolve kl_myproc kl_getproc kl_setproc : klog.
Lemma kl_sched : keeps_log sched.
Proof. unfold sched. klog. intros s. constructor. intros s1. by constructor. Qed.
#[export] Hint Resolve kl_sched : klog.
Lemma kl_sleep ch lk : keeps_log (sleep ch lk).
Proof. unfold sleep. klog. Qed.
#[export] Hint Resolve kl_sleep : klog.
Lemma kl_wakeup ch : keeps_log (wakeup ch).
Proof. unfold wakeup. generalize NPROC, 0%nat. intros n. induction n; intros i; cbn [wakeup_loop]; klog. Qed.
Lemma kl_sleep_while c ch lk : keeps_log (sleep_while c ch lk).
Proof. unfold sleep_while. generalize WAKEUPS. intros n. induction n; cbn [sleep_while_loop]; klog. Qed.
#[export] Hint Resolve kl_wakeup kl_sleep_while : klog.
Lemma kl_sl_upd r g : keeps_log (modify (sl_upd r g)).
Proof. apply kl_modify. intros s. by destruct r. Qed.
#[export] Hint Resolve kl_sl_upd : klog.
Lemma kl_acquiresleep r : keeps_log (acquiresleep r).
Proof. unfold acquiresleep. klog. Qed.
Lemma kl_releasesleep r : keeps_log (releasesleep r).
Proof. unfold releasesleep. klog. Qed.
Lemma kl_holdingsleep r : keeps_log (holdingsleep r).
Proof. unfold holdingsleep. klog. Qed.
Lemma kl_getb i : keeps_log (getb i).
Proof. unfold getb. klog. Qed.
Lemma kl_updb i f : keeps_log (updb i f).
Proof. unfold updb. klog. Qed.
#[export] Hint Resolve kl_acquiresleep kl_releasesleep kl_holdingsleep kl_getb kl_updb : klog.
Lemma kl_bget_cached n b dev bn : keeps_log (bget_cached n b dev bn).
Proof. revert b. induction n; intros b; cbn [bget_cached]; klog. Qed.
Lemma kl_bget_unused n b : keeps_log (bget_unused n b).
Proof. revert b. induction n; intros b; cbn [bget_unused]; klog. Qed.
Lemma kl_disk_rw i w : keeps_log (disk_rw i w).
Proof. unfold disk_rw. klog. Qed.
#[export] Hint Resolve kl_bget_cached kl_bget_unused kl_disk_rw : klog.
Lemma kl_bread dev bn : keeps_log (bread dev bn).
Proof. unfold bread, bget. klog. Qed.
Lemma kl_bwrite b : keeps_log (bwrite b).
Proof. unfold bwrite. klog. Qed.
Lemma kl_push_front b : keeps_log (push_front b).
Proof. unfold push_front. klog. Qed.
#[export] Hint Resolve kl_bread kl_bwrite kl_push_front : klog.
Lemma kl_brelse b : keeps_log (brelse b).
Proof. unfold brelse. klog. Qed.
Lemma kl_bunpin b : keeps_log (bunpin b).
Proof. unfold bunpin. klog. Qed.
#[export] Hint Resolve kl_brelse kl_bunpin : klog.
Lemma kl_write_head : keeps_log write_head.
Proof. unfold write_head. klog. Qed.
Lemma kl_install_trans r : keeps_log (install_trans r).
Proof.
  unfold install_trans. apply kl_bind; [klog|]. intros G. generalize (Z.to_nat (lh_n G)), 0%nat. intros n.
  induction n; intros t; cbn [install_trans_loop]; unfold install_block, copy_data; klog.
Qed.
Lemma kl_write_log : keeps_log write_log.
Proof.
  unfold write_log. apply kl_bind; [klog|]. intros G. generalize (Z.to_nat (lh_n G)), 0%nat. intros n.
  induction n; intros t; cbn [write_log_loop]; unfold log_block, copy_data; klog.
Qed.
#[export] Hint Resolve kl_write_head kl_install_trans kl_write_log : klog.

(** ** log_write *)

(** The blocks of the current transaction. *)
Definition logged (G : logst) : list Z := take (Z.to_nat (lh_n G)) (lh_block G).
Record log_wf (G : logst) : Prop := {
  lw_n : 0 ≤ lh_n G ≤ LOGBLOCKS;
  lw_len : length (lh_block G) = Z.to_nat LOGBLOCKS
}.

Lemma absorb_spec n i bl bn :
  (i + n ≤ length bl)%nat →
  let k := absorb n i bl bn in
  (i ≤ k ≤ i + n)%nat ∧ (k < i + n → bl !! k = Some bn)%nat ∧
  (∀ j, (i ≤ j < k)%nat → bl !! j ≠ Some bn).
Proof.
  revert i. induction n as [|n IH]; intros i Hl; cbn [absorb]; [split_and!; [lia..|intros; lia]|].
  destruct (lookup_lt_is_Some_2 bl i) as [x Hx]; [lia|]. rewrite (nth_lookup_Some _ _ _ _ Hx).
  destruct (x =? bn) eqn:E; zbool.
  - subst x. split_and!; [lia|lia|done|intros; lia].
  - destruct (IH (S i) ltac:(lia)) as (I1 & I2 & I3). split_and!; [lia|lia|intros; apply I2; lia|].
    intros j Hj. destruct (decide (j = i)) as [->|]; [rewrite Hx; congruence|apply I3; lia].
Qed.

Lemma elem_take (l : list Z) n x : x ∈ take n l ↔ ∃ k, (k < n)%nat ∧ l !! k = Some x.
Proof.
  rewrite list_elem_of_lookup. split.
  - intros (k & Hk). apply lookup_take_Some in Hk as [? ?]. eauto.
  - intros (k & ? & ?). exists k. by rewrite lookup_take_lt.
Qed.

Lemma logged_snoc G bn :
  log_wf G → lh_n G < LOGBLOCKS →
  logged (G <| upd_lh_block ::= <[Z.to_nat (lh_n G) := bn]> |> <| upd_lh_n := lh_n G + 1 |>) = logged G ++ [bn].
Proof.
  intros [Hn Hl] Hlt. unfold logged. cbn [lh_n lh_block upd_lh_n upd_lh_block].
  replace (Z.to_nat (lh_n G + 1)) with (S (Z.to_nat (lh_n G))) by lia.
  rewrite (take_S_r _ _ bn) by (apply list_lookup_insert_eq; lia). by rewrite take_insert_ge by lia.
Qed.

Section write.
Context (s : kstate).
Implicit Types (B : list buf) (D : gmap Z (list Z)) (W : list (Z * list Z)) (P : list proc).
Implicit Types (G : logst) (I : list inode) (L : list lock).

(** A block of the transaction is absorbed; a new one is appended and its
    buffer pinned. *)
Lemma log_write_ok B D W P G I L b x :
  LLog ∉ L → LBcache ∉ L → B !! b = Some x → 0 ≤ b_refcnt x < 2 ^ 31 →
  log_wf G → lh_n G < LOGBLOCKS → 1 ≤ lg_outstanding G →
  log_write b (setf B D W P G I L s) = Ok () (
    if decide (b_blockno x ∈ logged G) then setf B D W P G I L s
    else setf (<[b := x <| upd_b_refcnt := b_refcnt x + 1 |>]> B) D W P
           (G <| upd_lh_block ::= <[Z.to_nat (lh_n G) := b_blockno x]> |> <| upd_lh_n := lh_n G + 1 |>) I L s).
Proof.
  intros HL1 HL2 Hb Hrc [Hn Hlen] Hroom Hout. unfold log_write.
  rewrite (bind_ok _ _ _ _ _ (acquire_setf s LLog B D W P G I L HL1)). krun.
  rewrite (proj2 (Z.leb_gt _ _)) by lia. rewrite (proj2 (Z.ltb_ge _ _)) by lia.
  rewrite (bind_ok _ _ _ _ _ (getb_ok B D W P G I (LLog :: L) s b x Hb)). unfold updlog. krun.
  destruct (absorb_spec (Z.to_nat (lh_n G)) 0 (lh_block G) (b_blockno x)) as (A1 & A2 & A3); [lia|].
  set (k := absorb (Z.to_nat (lh_n G)) 0 (lh_block G) (b_blockno x)) in *.
  destruct (Z.of_nat k =? lh_n G) eqn:E; zbool.
  - rewrite decide_False.
    2:{ unfold logged. rewrite elem_take. intros (j & Hj & Hj'). eapply A3; [|exact Hj']. lia. }
    cbn [whenM]. replace k with (Z.to_nat (lh_n G)) by lia.
    erewrite bind_ok.
    2:{ erewrite bind_ok.
        2:{ apply bpin_ok; [|done|done]. apply not_elem_of_cons. by split. }
        unfold updlog. unfold modify. by rewrite upd_log_setf. }
    rewrite release_setf. done.
  - assert (k < Z.to_nat (lh_n G))%nat as Hk by lia. cbn [whenM]. rewrite bind_mret, release_setf.
    rewrite decide_True by (unfold logged; rewrite elem_take; exists k; split; [done|apply A2; lia]).
    do 2 f_equal. unfold upd_lh_block. rewrite list_insert_id by (apply A2; lia). by destruct G.
Qed.
End write.

(** ** Interleavings of file system calls

    [ops]: the blocks each admitted operation has logged; [pend]: the threads
    asleep in [begin_op]; [com]: the thread asleep in the commit of [end_op].
    A step runs one thread until it returns from log.c or sleeps. *)

Abbreviation thread := (kstate → res (option chan) kstate ()).
Record tconf := TConf { t_s : kstate; t_ops : list nat; t_pend : list thread; t_com : option thread }.

Inductive tstep : tconf → tconf → Prop :=
| ts_begin s ops pend com s' :
    begin_op s = Ok () s' → tstep (TConf s ops pend com) (TConf s' (0%nat :: ops) pend com)
| ts_begin_sleep s ops pend com c s' k :
    begin_op s = Sleep c s' k → tstep (TConf s ops pend com) (TConf s' ops (k :: pend) com)
| ts_wake s ops p1 k p2 com s' :
    k s = Ok () s' → tstep (TConf s ops (p1 ++ k :: p2) com) (TConf s' (0%nat :: ops) (p1 ++ p2) com)
| ts_wake_sleep s ops p1 k p2 com c s' k' :
    k s = Sleep c s' k' → tstep (TConf s ops (p1 ++ k :: p2) com) (TConf s' ops (p1 ++ k' :: p2) com)
| ts_log s o1 u o2 pend com b s' :
    Z.of_nat u < MAXOPBLOCKS → log_write b s = Ok () s' →
    tstep (TConf s (o1 ++ u :: o2) pend com) (TConf s' (o1 ++ S u :: o2) pend com)
| ts_end s o1 u o2 pend com s' :
    end_op s = Ok () s' → tstep (TConf s (o1 ++ u :: o2) pend com) (TConf s' (o1 ++ o2) pend com)
| ts_end_sleep s o1 u o2 pend com c s' k :
    end_op s = Sleep c s' k → tstep (TConf s (o1 ++ u :: o2) pend com) (TConf s' (o1 ++ o2) pend (Some k))
| ts_com s ops pend k s' :
    k s = Ok () s' → tstep (TConf s ops pend (Some k)) (TConf s' ops pend None)
| ts_com_sleep s ops pend k c s' k' :
    k s = Sleep c s' k' → tstep (TConf s ops pend (Some k)) (TConf s' ops pend (Some k'))
| ts_other s ops pend com s' :
    log s' = log s → tstep (TConf s ops pend com) (TConf s' ops pend com).

(** After [initlog] on a disk whose log is empty or was recovered. *)
Definition quiescent (G : logst) : Prop :=
  log_wf G ∧ lh_n G = 0 ∧ lg_outstanding G = 0 ∧ lg_committing G = false.
Inductive treach : tconf → Prop :=
| tr_init s : quiescent (log s) → treach (TConf s [] [] None)
| tr_step x y : treach x → tstep x y → treach y.

(** ** What the threads promise *)

(** [begin_op] and its continuations: admitted only into a log with room for
    one more operation. *)
Inductive admits : logst → res (option chan) kstate () → Prop :=
| ad_ok G s' :
    lg_committing G = false → lh_n G + (lg_outstanding G + 1) * MAXOPBLOCKS ≤ LOGBLOCKS →
    log s' = G <| upd_lg_outstanding := lg_outstanding G + 1 |> → admits G (Ok () s')
| ad_panic G m : admits G (Panic m)
| ad_sleep G c s k : log s = G → (∀ s1, admits (log s1) (k s1)) → admits G (Sleep c s k)
| ad_nofuel G : admits G NoFuel.

Lemma admits_bind {A} (m : K A) (f : A → K ()) s :
  keeps_log m → (∀ a s, admits (log s) (f a s)) → admits (log s) ((m ≫= f) s).
Proof.
  intros Hm Hf. unfold mbind, M_bind. induction (Hm s); cbn [rbind]; [auto|constructor| |constructor].
  by constructor.
Qed.
Lemma begin_op_loop_admits n s : admits (log s) (begin_op_loop n s).
Proof.
  revert s. induction n as [|n IH]; intros s; cbn [begin_op_loop]; [constructor|]. rewrite bind_gets.
  destruct (lg_committing (log s)) eqn:Ec; [apply admits_bind; [klog|auto]|].
  destruct (LOGBLOCKS <? _) eqn:El; zbool; [apply admits_bind; [klog|auto]|].
  unfold updlog. rewrite bind_modify.
  destruct (release LLog _) as [[] s'| | |] eqn:E; [|constructor| |constructor].
  - apply kl_ok in E; [|klog]. constructor; [done..|]. by rewrite E.
  - unfold release in E. case_decide; discriminate.
Qed.
Lemma begin_op_admits s : admits (log s) (begin_op s).
Proof. unfold begin_op. apply admits_bind; [klog|]. intros [] s1. apply begin_op_loop_admits. Qed.

(** The commit: the log is marked while it sleeps, and is empty at the end. *)
Definition committing (G : logst) : Prop := log_wf G ∧ lg_outstanding G = 0 ∧ lg_committing G = true.
Lemma rg_kl {A B} J (Q : B → kstate → Prop) (m : K A) (f : A → K B) s :
  keeps_log m → J (log s) → (∀ a s', log s' = log s → rg eq J Q (f a s')) → rg eq J Q ((m ≫= f) s).
Proof.
  intros Hm HJ Hf. eapply rg_bind; [|exact Hf]. eapply rg_mono; [apply frames_rg, Hm| |done]. by intros G ->.
Qed.
Lemma rg_kl1 {A} J (Q : A → kstate → Prop) (m : K A) s :
  keeps_log m → J (log s) → (∀ a s', log s' = log s → Q a s') → rg eq J Q (m s).
Proof. intros Hm HJ HQ. eapply rg_mono; [apply frames_rg, Hm| |done]. by intros G ->. Qed.

Lemma commit_rg s :
  committing (log s) → rg eq committing (λ _ s', committing (log s') ∧ lh_n (log s') = 0) (commit s).
Proof.
  intros HC. unfold commit. rewrite bind_gets. pose proof HC as [[Hn Hl] [Ho Hc]].
  destruct (0 <? lh_n (log s)) eqn:E; cbn [whenM]; zbool.
  - apply rg_kl; [klog|done|]. intros _ s1 E1. apply rg_kl; [klog|by rewrite E1|]. intros _ s2 E2.
    apply rg_kl; [klog|by rewrite E2, E1|]. intros _ s3 E3. unfold updlog. krun.
    assert (log s3 = log s) as E4 by congruence.
    assert (committing ((log s3) <| upd_lh_n := 0 |>)) as HC'.
    { rewrite E4. repeat split; cbn; done || lia. }
    apply rg_kl1; [klog|exact HC'|]. intros _ s' ->. split; [exact HC'|done].
  - constructor. split; [done|lia].
Qed.

(** Routines that never sleep. *)
Definition never_sleeps {A} (m : K A) : Prop :=
  ∀ s, rg eq (λ _, False) (λ _ s', log s' = log s) (m s).
Lemma ns_acquire l : never_sleeps (acquire l).
Proof. intros s. unfold acquire. case_decide; by constructor. Qed.
Lemma ns_release l : never_sleeps (release l).
Proof. intros s. unfold release. case_decide; by constructor. Qed.
Lemma ns_bind {A B} (m : K A) (f : A → K B) :
  never_sleeps m → (∀ a, never_sleeps (f a)) → never_sleeps (m ≫= f).
Proof. intros Hm Hf s. eapply rg_bind; [apply Hm|]. intros a s1 <-. apply Hf. Qed.
Lemma ns_wakeup ch : never_sleeps (wakeup ch).
Proof.
  unfold wakeup. generalize NPROC, 0%nat. intros n.
  induction n as [|n IH]; intros i; cbn [wakeup_loop]; [by constructor|].
  apply ns_bind; [by constructor|]. intros c. apply ns_bind; [|intros _; apply IH].
  case_bool_decide; cbn [negb whenM]; [by constructor|].
  apply ns_bind; [apply ns_acquire|intros _]. apply ns_bind; [by constructor|intros _]. apply ns_release.
Qed.
Lemma rg_ns {A B} J (Q : B → kstate → Prop) (m : K A) (f : A → K B) s :
  never_sleeps m → (∀ a s', log s' = log s → rg eq J Q (f a s')) → rg eq J Q ((m ≫= f) s).
Proof. intros Hm Hf. eapply rg_bind; [|exact Hf]. eapply rg_mono; [apply Hm|done|done]. Qed.

(** The last operation to end commits, the others only count down. *)
Definition ended (G : logst) (_ : ()) (s' : kstate) : Prop :=
  if decide (lg_outstanding G = 1) then quiescent (log s')
  else log s' = G <| upd_lg_outstanding := lg_outstanding G - 1 |>.
Definition ending (G G' : logst) : Prop := lg_outstanding G = 1 ∧ committing G'.
Lemma end_op_rg s :
  log_wf (log s) → lg_committing (log s) = false → rg eq (ending (log s)) (ended (log s)) (end_op s).
Proof.
  intros Hwf Hc. unfold end_op. apply rg_ns; [apply ns_acquire|]. intros _ s1 E1. unfold updlog. krun.
  change (log (upd_log ?f s1)) with (f (log s1)). rewrite E1. cbn [lg_committing lg_outstanding upd_lg_outstanding].
  rewrite Hc. destruct (lg_outstanding (log s) - 1 =? 0) eqn:Eo; zbool.
  - krun. apply rg_ns; [apply ns_release|]. intros _ s2 E2. cbn [whenM].
    assert (log s2 = (log s) <| upd_lg_outstanding ::= λ o, o - 1 |> <| upd_lg_committing := true |>) as E2'.
    { rewrite E2. cbn [log upd_log]. by rewrite E1. }
    assert (committing (log s2)) as H2.
    { rewrite E2'. destruct Hwf. repeat split; cbn; done || lia. }
    eapply rg_bind; [eapply rg_mono; [by apply commit_rg|intros G HG; split; [lia|done]|intros a s' H; exact H]|].
    intros _ s3 [[Hwf3 [Ho3 Hc3]] Hn3]. apply rg_ns; [apply ns_acquire|]. intros _ s4 E4. krun.
    apply rg_ns; [apply ns_wakeup|]. intros _ s5 E5. cbn [log upd_log] in E5.
    eapply rg_mono; [apply ns_release|done|]. intros [] s' E6. unfold ended. rewrite decide_True by lia. rewrite E6, E5, E4.
    destruct Hwf3. repeat split; cbn; done || lia.
  - eapply rg_bind.
    { apply rg_ns; [apply ns_wakeup|]. intros _ s2 E2. constructor.
      instantiate (1 := λ a s', a = false ∧ log s' = (log s) <| upd_lg_outstanding := lg_outstanding (log s) - 1 |>).
      split; [done|]. rewrite E2. cbn [log upd_log]. by rewrite E1. }
    intros a s2 [-> E2]. cbn [whenM]. apply rg_ns; [apply ns_release|]. intros _ s3 E3. constructor.
    unfold ended. rewrite decide_False by lia. congruence.
Qed.

(** ** The reservation invariant *)

Definition budget (ops : list nat) : Z := foldr (λ u z, MAXOPBLOCKS - Z.of_nat u + z) 0 ops.
Arguments budget : simpl never.
Lemma budget_app ops ops' : budget (ops ++ ops') = budget ops + budget ops'.
Proof. unfold budget. induction ops as [|u ops IH]; cbn in *; lia. Qed.
Lemma budget_cons u ops : budget (u :: ops) = MAXOPBLOCKS - Z.of_nat u + budget ops.
Proof. done. Qed.
Lemma budget_range ops :
  Forall (λ u, Z.of_nat u ≤ MAXOPBLOCKS) ops → 0 ≤ budget ops ≤ MAXOPBLOCKS * Z.of_nat (length ops).
Proof. induction 1 as [|u ops Hu _ IH]; rewrite ?budget_cons; cbn [length]; [done|]. unfold MAXOPBLOCKS in *. lia. Qed.

Definition commit_thread (s : kstate) (k : thread) : Prop :=
  committing (log s) ∧ ∀ s1, log s1 = log s → rg eq committing (λ _ s', quiescent (log s')) (k s1).
(** The log has room for what the admitted operations may still write. *)
Record tinv (c : tconf) : Prop := {
  ti_wf : log_wf (log (t_s c));
  ti_out : lg_outstanding (log (t_s c)) = Z.of_nat (length (t_ops c));
  ti_used : Forall (λ u, Z.of_nat u ≤ MAXOPBLOCKS) (t_ops c);
  ti_room : lh_n (log (t_s c)) + budget (t_ops c) ≤ LOGBLOCKS;
  ti_pend : Forall (λ k : thread, ∀ s1, admits (log s1) (k s1)) (t_pend c);
  ti_com : match t_com c with
           | None => lg_committing (log (t_s c)) = false
           | Some k => commit_thread (t_s c) k
           end
}.

Lemma kl_bpin b : keeps_log (bpin b).
Proof. unfold bpin. klog. Qed.
(** [log_write] adds at most one block to the transaction. *)
Lemma log_write_grows b s s' :
  log_write b s = Ok () s' → log_wf (log s) →
  log_wf (log s') ∧ lg_outstanding (log s') = lg_outstanding (log s) ∧
  lg_committing (log s') = lg_committing (log s) ∧ lh_n (log s') ≤ lh_n (log s) + 1 ∧
  1 ≤ lg_outstanding (log s).
Proof.
  unfold log_write. intros H [Hn Hl]. minv H. apply kl_ok in H0; [|klog]. rewrite bind_gets, H0 in H.
  destruct (LOGBLOCKS <=? _) eqn:E1; [done|]. destruct (lg_outstanding _ <? 1) eqn:E2; [done|]. zbool.
  minv H. apply kl_ok in H1; [|klog]. unfold updlog in H. rewrite bind_modify in H.
  set (i := absorb _ _ _ _) in H. set (s2 := upd_log _ s1) in H. minv H. apply kl_ok in H; [|klog].
  assert (log s2 = (log s) <| upd_lh_block ::= <[i:=b_blockno a0]> |>) as E by (cbn; congruence). clearbody s2.
  destruct (Z.of_nat i =? _); cbn [whenM] in H2.
  - minv H2. apply kl_ok in H3; [|apply kl_bpin]. assert (log s' = (log s2) <| upd_lh_n ::= λ n, n + 1 |>) as ->.
    { rewrite H. injection H2 as _ H2. rewrite <- H2. cbn. by rewrite H3. }
    rewrite E.
    repeat split; cbn; rewrite ?length_insert; done || lia.
  - assert (log s' = log s2) as -> by (injection H2 as _ H2; congruence). rewrite E. repeat split; cbn; rewrite ?length_insert; done || lia.
Qed.

Lemma admits_ok G s' :
  admits G (Ok () s') → lg_committing G = false ∧ lh_n G + (lg_outstanding G + 1) * MAXOPBLOCKS ≤ LOGBLOCKS ∧
  log s' = G <| upd_lg_outstanding := lg_outstanding G + 1 |>.
Proof. by inversion 1. Qed.

Lemma tinv_admit s s' ops p p' com :
  tinv (TConf s ops p com) → admits (log s) (Ok () s') → Forall (λ k : thread, ∀ s1, admits (log s1) (k s1)) p' →
  tinv (TConf s' (0%nat :: ops) p' com).
Proof.
  intros [Hwf Ho Hu Hr Hp Hc] (Ec & Er & E)%admits_ok Hp'. cbn in *.
  split; cbn [t_s t_ops t_pend t_com]; rewrite ?E; cbn.
  - destruct Hwf. by split.
  - lia.
  - by constructor.
  - rewrite budget_cons. pose proof (budget_range ops Hu). unfold MAXOPBLOCKS in *. lia.
  - done.
  - destruct com; [|done]. destruct Hc as [[_ [_ Hc]] _]. congruence.
Qed.

(** The invariant survives every step. *)
Lemma tinv_same_log s s' ops p p' com :
  tinv (TConf s ops p com) → log s' = log s → Forall (λ k : thread, ∀ s1, admits (log s1) (k s1)) p' →
  tinv (TConf s' ops p' com).
Proof.
  intros [Hwf Ho Hu Hr Hp Hc] E Hp'. split; cbn [t_s t_ops t_pend t_com] in *; rewrite ?E; try done.
  destruct com; [|done]. unfold commit_thread in *. by rewrite E.
Qed.

Lemma tinv_pend_sleep s ops p p' com c s' k r :
  tinv (TConf s ops p com) → admits (log s) r → r = Sleep c s' k →
  ((∀ s1, admits (log s1) (k s1)) → Forall (λ k : thread, ∀ s1, admits (log s1) (k s1)) p') →
  tinv (TConf s' ops p' com).
Proof.
  intros HI Ha -> Hp. inversion Ha as [| |? ? ? ? E Hk|]; subst. eapply tinv_same_log; [exact HI|done|auto].
Qed.

Lemma tinv_log s o1 u o2 pend com b s' :
  tinv (TConf s (o1 ++ u :: o2) pend com) → Z.of_nat u < MAXOPBLOCKS → log_write b s = Ok () s' →
  tinv (TConf s' (o1 ++ S u :: o2) pend com).
Proof.
  intros [Hwf Ho Hu Hr Hp Hc] Hlt H. cbn [t_s t_ops t_pend t_com] in *.
  destruct (log_write_grows b s s' H Hwf) as (Hwf' & E1 & E2 & Hn & H1).
  apply Forall_app in Hu as [Hu1 [Hu Hu2]%Forall_cons]. rewrite budget_app, budget_cons in Hr.
  split; cbn [t_s t_ops t_pend t_com]; rewrite ?E1, ?E2; try done.
  - rewrite Ho, !length_app. done.
  - apply Forall_app. split; [done|]. constructor; [lia|done].
  - rewrite budget_app, budget_cons. lia.
  - destruct com; [|done]. destruct Hc as [[_ [Hc _]] _]. lia.
Qed.

Lemma tinv_end s o1 u o2 pend com :
  tinv (TConf s (o1 ++ u :: o2) pend com) →
  (∀ s', end_op s = Ok () s' → tinv (TConf s' (o1 ++ o2) pend com)) ∧
  (∀ c s' k, end_op s = Sleep c s' k → tinv (TConf s' (o1 ++ o2) pend (Some k))).
Proof.
  intros [Hwf Ho Hu Hr Hp Hc]. cbn [t_s t_ops t_pend t_com] in *. rewrite length_app in Ho. cbn in Ho.
  assert (com = None) as -> by (destruct com; [destruct Hc as [[_ [Hc _]] _]; lia|done]).
  pose proof (end_op_rg s Hwf Hc) as HR. rewrite budget_app, budget_cons in Hr.
  apply Forall_app in Hu as [Hu1 [Hu Hu2]%Forall_cons]. assert (Forall (λ u, Z.of_nat u ≤ MAXOPBLOCKS) (o1 ++ o2)) as Hu'
    by by apply Forall_app.
  pose proof (budget_range _ Hu') as Hb. rewrite length_app in Hb. split.
  - intros s' E. rewrite E in HR. apply rg_ok_inv in HR. unfold ended in HR. case_decide as Hd.
    + destruct HR as (Hq1 & Hq2 & Hq3 & Hq4).
      split; cbn [t_s t_ops t_pend t_com]; try done; rewrite ?length_app; [lia|]. unfold LOGBLOCKS, MAXOPBLOCKS in *. lia.
    + split; cbn [t_s t_ops t_pend t_com]; rewrite ?HR, ?length_app; cbn; try done; [by destruct Hwf|lia|].
      rewrite budget_app. lia.
  - intros c s' k E. rewrite E in HR. inversion HR as [| |? ? ? [Ho1 HC] Hk|]; subst.
    pose proof HC as ([Hn Hl] & Hout & _).
    split; cbn [t_s t_ops t_pend t_com]; try done; rewrite ?length_app; [lia| |].
    + assert (o1 = [] ∧ o2 = []) as [-> ->] by (destruct o1, o2; cbn in *; lia || done). unfold budget. cbn. lia.
    + split; [done|]. intros s1 E1. eapply rg_mono; [apply Hk; done|by intros G [_ ?]|].
      intros a s2. unfold ended. rewrite decide_True by done. done.
Qed.

Lemma tinv_com s ops pend k :
  tinv (TConf s ops pend (Some k)) →
  (∀ s', k s = Ok () s' → tinv (TConf s' ops pend None)) ∧
  (∀ c s' k', k s = Sleep c s' k' → tinv (TConf s' ops pend (Some k'))).
Proof.
  intros [Hwf Ho Hu Hr Hp [HC Hk]]. cbn [t_s t_ops t_pend t_com] in *. specialize (Hk s eq_refl).
  assert (ops = []) as -> by (destruct HC as (_ & HC & _); destruct ops; cbn in *; lia || done). split.
  - intros s' E. rewrite E in Hk. apply rg_ok_inv in Hk as (Hq1 & Hq2 & Hq3 & Hq4).
    split; cbn [t_s t_ops t_pend t_com]; try done. rewrite Hq2. done.
  - intros c s' k' E. rewrite E in Hk. inversion Hk as [| |? ? ? HC' Hk'|]; subst.
    destruct HC' as ([Hn Hl] & Hout & Hcm).
    split; cbn [t_s t_ops t_pend t_com]; try done; [unfold budget; cbn; lia|]. split; [done|]. intros s1 E1. by apply Hk'.
Qed.

Lemma tinv_step x y : tinv x → tstep x y → tinv y.
Proof.
  intros HI. destruct 1; pose proof (ti_pend _ HI) as HP; cbn [t_pend] in HP; rewrite ?Forall_app, ?Forall_cons in HP.
  - eapply tinv_admit; [exact HI| |done]. rewrite <- H. apply begin_op_admits.
  - eapply tinv_pend_sleep; [exact HI|apply begin_op_admits|exact H|by constructor].
  - destruct HP as (? & Hk & ?). eapply tinv_admit; [exact HI| |by apply Forall_app]. rewrite <- H. apply Hk.
  - destruct HP as (? & Hk & ?). eapply tinv_pend_sleep; [exact HI|apply Hk|exact H|].
    intros. apply Forall_app. split; [done|]. by constructor.
  - by eapply tinv_log.
  - by apply (tinv_end _ _ _ _ _ _ HI).
  - by eapply (tinv_end _ _ _ _ _ _ HI).
  - by apply (tinv_com _ _ _ _ HI).
  - by eapply (tinv_com _ _ _ _ HI).
  - by eapply tinv_same_log.
Qed.

Lemma tinv_reach x : treach x → tinv x.
Proof.
  induction 1 as [s (Hwf & Hn & Ho & Hc)|x y _ IH Hs]; [|by eapply tinv_step].
  split; cbn [t_s t_ops t_pend t_com]; try done. by rewrite Hn.
Qed.

(** ** The claims *)

Lemma admits_committing G s' : lg_committing G = true → ¬ admits G (Ok () s').
Proof. intros HG (H & _)%admits_ok. congruence. Qed.

(** C11: space in the log is reserved: however file system calls interleave
    (asleep in [begin_op] or in a commit included), an operation that has
    logged fewer than MAXOPBLOCKS blocks can log another: [log_write] does not
    panic, the buffer's block is in the transaction afterwards, and no block
    is lost from it. *)
Theorem log_write_has_room s o1 u o2 pend com b x :
  treach (TConf s (o1 ++ u :: o2) pend com) → Z.of_nat u < MAXOPBLOCKS →
  LLog ∉ locks s → LBcache ∉ locks s → bcache s !! b = Some x → 0 ≤ b_refcnt x < 2 ^ 31 →
  ∃ s', log_write b s = Ok () s' ∧ b_blockno x ∈ logged (log s') ∧ logged (log s) ⊆ logged (log s') ∧
    treach (TConf s' (o1 ++ S u :: o2) pend com).
Proof.
  intros Hr Hu HL1 HL2 Hb Hrc. pose proof (tinv_reach _ Hr) as [Hwf Ho HU Hroom _ _]. cbn [t_s t_ops] in *.
  rewrite budget_app, budget_cons in Hroom. rewrite length_app in Ho. cbn in Ho.
  apply Forall_app in HU as [HU1 [_ HU2]%Forall_cons].
  pose proof (budget_range _ HU1). pose proof (budget_range _ HU2).
  pose proof (log_write_ok s (bcache s) (disk s) (dwrites s) (procs s) (log s) (itable s) (locks s) b x
    HL1 HL2 Hb Hrc Hwf ltac:(lia) ltac:(lia)) as E. rewrite <- setf_eta in E.
  eexists. split; [exact E|]. apply and_assoc. split; [|by eapply tr_step, ts_log].
  case_decide as Hd; [by split|]. rewrite log_setf. rewrite logged_snoc by (done || lia). set_solver.
Qed.

Definition demo_s : kstate := kstate0 <| upd_curproc := Some 0%nat |>.
Definition demo_op : kstate := match begin_op demo_s with Ok _ s => s | _ => demo_s end.
Lemma demo_op_reach : treach (TConf demo_op [0%nat] [] None).
Proof.
  eapply (tr_step (TConf demo_s [] [] None)); [|apply ts_begin; vm_compute; reflexivity].
  apply tr_init. split; [split; vm_compute; [by split|done]|by repeat split].
Qed.
Lemma log_write_has_room_witness :
  ∃ s', log_write 3 demo_op = Ok () s' ∧ 0 ∈ logged (log s') ∧ logged (log demo_op) ⊆ logged (log s') ∧
    treach (TConf s' [1%nat] [] None).
Proof.
  apply (log_write_has_room demo_op [] 0 [] [] None 3 buf0 demo_op_reach).
  - reflexivity.
  - vm_compute. apply not_elem_of_nil.
  - vm_compute. apply not_elem_of_nil.
  - vm_compute. reflexivity.
  - vm_compute. split; [discriminate|reflexivity].
Defined.

(** A commit is exclusive: while its thread is asleep no operation is
    outstanding, none is admitted (neither by [begin_op] nor by a thread woken
    in it) and [log_write] does not return, so the transaction cannot change
    under the commit. *)
Theorem commit_exclusive s ops pend k :
  treach (TConf s ops pend (Some k)) →
  ops = [] ∧ (∀ s', begin_op s ≠ Ok () s') ∧ (∀ k' s', k' ∈ pend → k' s ≠ Ok () s') ∧
  (∀ b s', log_write b s ≠ Ok () s') ∧ committing (log s).
Proof.
  intros HR. destruct (tinv_reach _ HR) as [Hwf Ho _ _ Hp [HC _]]. cbn [t_s t_ops t_pend] in *.
  pose proof HC as (_ & Hz & Hc). split_and!.
  - destruct ops; [done|]. cbn in Ho. lia.
  - intros s' E. eapply admits_committing; [exact Hc|]. rewrite <- E. apply begin_op_admits.
  - intros k' s' Hk E. rewrite Forall_forall in Hp. eapply admits_committing; [exact Hc|]. rewrite <- E. by apply Hp.
  - intros b s' E. apply log_write_grows in E as (_ & _ & _ & _ & E); [lia|done].
  - done.
Qed.

(** Another thread holds the buffer of the first log block. *)
Definition demo_locked : kstate :=
  match binit (demo_s <| upd_log ::= λ G, G <| upd_lg_start := 2 |> |>) with
  | Ok _ s => s <| upd_bcache ::= alter (λ b, b <| upd_b_valid := true |> <| upd_b_blockno := 3 |>
      <| upd_b_refcnt := 1 |> <| upd_b_lock := mk_sleeplock true 7 |>) 0%nat |>
  | _ => demo_s
  end.
Definition demo_logged : kstate :=
  match (begin_op;; log_write 5) demo_locked with Ok _ s => s | _ => demo_s end.
Definition demo_commit : kstate * thread :=
  match end_op demo_logged with Sleep _ s k => (s, k) | _ => (demo_s, λ s, NoFuel) end.
Lemma demo_commit_reach : treach (TConf (demo_commit.1) [] [] (Some (demo_commit.2))).
Proof.
  assert (∃ c, end_op demo_logged = Sleep c (demo_commit.1) (demo_commit.2)) as [c Hc].
  { assert (match end_op demo_logged with Sleep _ _ _ => true | _ => false end = true) as H
      by (vm_compute; reflexivity).
    unfold demo_commit. destruct (end_op demo_logged) as [| |c s k|]; [done|done|by exists c|done]. }
  eapply (tr_step (TConf demo_logged ([] ++ 1%nat :: []) [] None));
    [|exact (ts_end_sleep _ [] 1%nat [] [] None _ _ _ Hc)].
  assert (treach (TConf demo_locked [] [] None)) as H0.
  { apply tr_init. split; [split; vm_compute; [by split|done]|by repeat split]. }
  assert (treach (TConf (match begin_op demo_locked with Ok _ s => s | _ => demo_s end) [0%nat] [] None)) as H1.
  { eapply tr_step; [exact H0|]. apply ts_begin. vm_compute. reflexivity. }
  eapply tr_step; [exact H1|]. apply (ts_log _ [] 0%nat [] [] None 5); [reflexivity|]. vm_compute. reflexivity.
Qed.
Lemma commit_exclusive_witness :
  (∀ b s', log_write b (demo_commit.1) ≠ Ok () s') ∧ committing (log (demo_commit.1)).
Proof. apply (commit_exclusive (demo_commit.1) [] [] (demo_commit.2) demo_commit_reach). Defined.

(** [log_write] absorbs: a block already in the transaction changes
    nothing, a new one is appended and its buffer pinned; so no block is ever
    logged twice. *)
Theorem log_write_absorbs s b x :
  log_wf (log s) → lh_n (log s) < LOGBLOCKS → 1 ≤ lg_outstanding (log s) →
  LLog ∉ locks s → LBcache ∉ locks s → bcache s !! b = Some x → 0 ≤ b_refcnt x < 2 ^ 31 →
  ∃ s', log_write b s = Ok () s' ∧
    logged (log s') =
      (if decide (b_blockno x ∈ logged (log s)) then logged (log s) else logged (log s) ++ [b_blockno x]) ∧
    bcache s' =
      (if decide (b_blockno x ∈ logged (log s)) then bcache s
       else <[b := x <| upd_b_refcnt := b_refcnt x + 1 |>]> (bcache s)) ∧
    (NoDup (logged (log s)) → NoDup (logged (log s'))) ∧
    disk s' = disk s ∧ locks s' = locks s.
Proof.
  intros Hwf Hn Ho HL1 HL2 Hb Hrc.
  pose proof (log_write_ok s (bcache s) (disk s) (dwrites s) (procs s) (log s) (itable s) (locks s) b x
    HL1 HL2 Hb Hrc Hwf Hn Ho) as E. rewrite <- setf_eta in E. eexists. split; [exact E|].
  case_decide as Hd; [done|]. rewrite log_setf, bcache_setf, logged_snoc by done. split_and!; try done.
  intros HN. apply NoDup_app. split_and!; [done| |apply NoDup_singleton]. set_solver.
Qed.
Lemma log_write_absorbs_witness :
  ∃ s', log_write 5 demo_logged = Ok () s' ∧ logged (log s') = [0] ∧ bcache s' = bcache demo_logged.
Proof.
  destruct (log_write_absorbs demo_logged 5 (nth 5 (bcache demo_logged) buf0)) as (s' & H1 & H2 & H3 & _).
  - split; vm_compute; [by split|done].
  - vm_compute. reflexivity.
  - vm_compute. discriminate.
  - vm_compute. apply not_elem_of_nil.
  - vm_compute. apply not_elem_of_nil.
  - vm_compute. reflexivity.
  - vm_compute. split; [discriminate|reflexivity].
  - exists s'. split; [exact H1|]. rewrite H2, H3. split; vm_compute; reflexivity.
Defined.
