(* ===== verification/Printf.v ===== *)
(** * kernel/printf.c: formatted output

    The characters [printint], [printptr] and [printf] send to [consputc], as
    lists.  Numbers are produced least significant digit first into a 20-byte
    buffer and sent backwards; the theorems show that the buffer is large
    enough for every 64-bit argument and that the characters denote the
    number. *)

From S2P Require Import Prelude.

(** Character codes of a string literal. *)
Fixpoint codes (s : string) : list Z :=
  match s with
  | EmptyString => []
  | String a s => Z.of_nat (Ascii.nat_of_ascii a) :: codes s
  end.

(** [digits[x]] for [x < 16]. *)
Definition digit (x : Z) : Z := if x <? 10 then 48 + x else 87 + x.

(** The [do ... while((x /= base) != 0)] loop: the digits, least significant
    first. *)
Fixpoint digits_loop (fuel : nat) (x base : Z) : list Z :=
  match fuel with
  | O => []
  | S fuel =>
      digit (x mod base) :: (if x / base =? 0 then [] else digits_loop fuel (x / base) base)
  end.
(** At most 64 digits: one a bit for base 2 or more. *)
Definition digits_of (x base : Z) : list Z := digits_loop 64 x base.

(** The contents of [buf] when the digits are done: [xx] is a [long long]. *)
Definition printint_buf (xx base : Z) (sign : bool) : list Z :=
  let neg := sign && (xx <? 0) in
  let x := if neg then u64 (- xx) else u64 xx in
  digits_of x base ++ (if neg then [45] else []).
Definition printint (xx base : Z) (sign : bool) : list Z := reverse (printint_buf xx base sign).

Fixpoint printptr_loop (n : nat) (x : Z) : list Z :=
  match n with
  | O => []
  | S n => digit (Z.shiftr x 60) :: printptr_loop n (u64 (Z.shiftl x 4))
  end.
Definition printptr (x : Z) : list Z := [48; 120] ++ printptr_loop 16 x.

(** Arguments of a variadic call: an integer as passed in a register, or a
    string ([None] is a null pointer). *)
Inductive varg := VInt (z : Z) | VStr (s : option (list Z)).

Definition s64 (x : Z) : Z := (x + 2 ^ 63) mod 2 ^ 64 - 2 ^ 63.
Definition arg_z (args : list varg) : Z := match args with VInt z :: _ => z | _ => 0 end.
Definition arg_s (args : list varg) : list Z :=
  match args with VStr (Some s) :: _ => s | _ => codes "(null)" end.

(** [printf] from the rest of the format string. *)
Fixpoint printf_loop (fuel : nat) (fmt : list Z) (args : list varg) : list Z :=
  match fuel with
  | O => []
  | S fuel =>
      match fmt with
      | [] => []
      | cx :: fmt =>
          if negb (cx =? 37) then cx :: printf_loop fuel fmt args else
          let c0 := nth 0 fmt 0 in
          let c1 := if nz c0 then nth 1 fmt 0 else 0 in
          let c2 := if nz c1 then nth 2 fmt 0 else 0 in
          if c0 =? 100 then printint (s32 (arg_z args)) 10 true ++ printf_loop fuel (drop 1 fmt) (tl args)
          else if (c0 =? 108) && (c1 =? 100) then
            printint (s64 (arg_z args)) 10 true ++ printf_loop fuel (drop 2 fmt) (tl args)
          else if (c0 =? 108) && (c1 =? 108) && (c2 =? 100) then
            printint (s64 (arg_z args)) 10 true ++ printf_loop fuel (drop 3 fmt) (tl args)
          else if c0 =? 117 then printint (u32 (arg_z args)) 10 false ++ printf_loop fuel (drop 1 fmt) (tl args)
          else if (c0 =? 108) && (c1 =? 117) then
            printint (s64 (arg_z args)) 10 false ++ printf_loop fuel (drop 2 fmt) (tl args)
          else if (c0 =? 108) && (c1 =? 108) && (c2 =? 117) then
            printint (s64 (arg_z args)) 10 false ++ printf_loop fuel (drop 3 fmt) (tl args)
          else if c0 =? 120 then printint (u32 (arg_z args)) 16 false ++ printf_loop fuel (drop 1 fmt) (tl args)
          else if (c0 =? 108) && (c1 =? 120) then
            printint (s64 (arg_z args)) 16 false ++ printf_loop fuel (drop 2 fmt) (tl args)
          else if (c0 =? 108) && (c1 =? 108) && (c2 =? 120) then
            printint (s64 (arg_z args)) 16 false ++ printf_loop fuel (drop 3 fmt) (tl args)
          else if c0 =? 112 then printptr (u64 (arg_z args)) ++ printf_loop fuel (drop 1 fmt) (tl args)
          else if c0 =? 99 then u8 (arg_z args) :: printf_loop fuel (drop 1 fmt) (tl args)
          else if c0 =? 115 then arg_s args ++ printf_loop fuel (drop 1 fmt) (tl args)
          else if c0 =? 37 then 37 :: printf_loop fuel (drop 1 fmt) args
          else if c0 =? 0 then []
          else 37 :: c0 :: printf_loop fuel (drop 1 fmt) args
      end
  end.
(** Every iteration consumes a character of the format. *)
Definition printf (fmt : string) (args : list varg) : list Z :=
  printf_loop (S (String.length fmt)) (codes fmt) args.

Example printf_ex : printf "%d: syscall %x -> %s%%" [VInt (-12); VInt 255; VStr None]
  = codes "-12: syscall ff -> (null)%".
Proof. vm_compute. reflexivity. Qed.

(** ** Correctness of the digits *)

Definition undigit (c : Z) : Z := if c <? 58 then c - 48 else c - 87.
(** The number a list of digits denotes, least significant first. *)
Fixpoint value_of (base : Z) (ds : list Z) : Z :=
  match ds with
  | [] => 0
  | c :: ds => undigit c + base * value_of base ds
  end.

Lemma undigit_digit x : 0 ≤ x < 16 → undigit (digit x) = x.
Proof. intros H. unfold undigit, digit. zcases. Qed.

Lemma digits_loop_value fuel x base :
  2 ≤ base ≤ 16 → 0 ≤ x < 2 ^ Z.of_nat fuel → (0 < fuel)%nat → value_of base (digits_loop fuel x base) = x.
Proof.
  intros Hb. revert x. induction fuel as [|fuel IH]; intros x Hx Hf; [lia|].
  cbn [digits_loop value_of]. pose proof (Z.mod_pos_bound x base).
  rewrite undigit_digit by lia.
  destruct (x / base =? 0) eqn:E; zbool.
  - cbn [value_of]. pose proof (Z_div_mod_eq_full x base). lia.
  - rewrite Nat2Z.inj_succ, Z.pow_succ_r in Hx by lia.
    assert (0 ≤ x / base < 2 ^ Z.of_nat fuel) as Hq.
    { split; [apply Z.div_pos; lia|]. apply Z.div_lt_upper_bound; nia. }
    rewrite IH; [pose proof (Z_div_mod_eq_full x base); lia|done|].
    destruct fuel; [|lia]. change (2 ^ Z.of_nat 0) with 1 in Hq. lia.
Qed.

Lemma digits_loop_length fuel x base k :
  2 ≤ base → 0 ≤ x < base ^ Z.of_nat k → (0 < k)%nat → (length (digits_loop fuel x base) ≤ k)%nat.
Proof.
  intros Hb. revert x k. induction fuel as [|fuel IH]; intros x k Hx Hk; cbn [digits_loop length]; [lia|].
  destruct (x / base =? 0) eqn:E; cbn [length]; [lia|]. zbool.
  destruct k as [|[|k]]; [lia| |].
  - change (base ^ Z.of_nat 1) with (base * 1) in Hx. rewrite Z.div_small in E by lia. lia.
  - apply le_n_S, IH; [|lia]. rewrite Nat2Z.inj_succ, Z.pow_succ_r in Hx by lia.
    split; [apply Z.div_pos; lia|]. apply Z.div_lt_upper_bound; lia.
Qed.

(** [printint] never overruns its 20-byte buffer and prints the right
    number: for every 64-bit value, in base 10 or 16, signed or not, at most 20
    characters are stored, and they are an optional minus sign and the digits
    of the (absolute) value. *)
Theorem printint_correct xx base sign :
  - 2 ^ 63 ≤ xx < 2 ^ 63 → base = 10 ∨ base = 16 →
  (length (printint_buf xx base sign) ≤ 20)%nat ∧
  ∃ ds, printint xx base sign = (if sign && (xx <? 0) then [45] else []) ++ reverse ds ∧
    value_of base ds = if sign then Z.abs xx else u64 xx.
Proof.
  intros Hx Hb. unfold printint, printint_buf. destruct (sign && (xx <? 0)) eqn:E.
  - apply andb_true_iff in E as [-> E]. zbool. rewrite (u64_small (- xx)) by lia. split.
    + rewrite length_app. cbn [length]. assert (length (digits_of (- xx) base) ≤ 19)%nat; [|lia].
      apply digits_loop_length; [lia| |lia]. destruct Hb as [->| ->]; [|].
      * change (10 ^ Z.of_nat 19) with 10000000000000000000. lia.
      * change (16 ^ Z.of_nat 19) with (2 ^ 76). lia.
    + exists (digits_of (- xx) base). rewrite reverse_app. split; [done|].
      unfold digits_of. rewrite digits_loop_value by (change (Z.of_nat 64) with 64; lia). lia.
  - rewrite app_nil_r. pose proof (u64_range xx). split.
    + apply digits_loop_length; [lia| |lia]. destruct Hb as [->| ->].
      * change (10 ^ Z.of_nat 20) with 100000000000000000000. lia.
      * change (16 ^ Z.of_nat 20) with (2 ^ 80). lia.
    + exists (digits_of (u64 xx) base). split; [done|].
      unfold digits_of. rewrite digits_loop_value by (change (Z.of_nat 64) with 64; lia).
      destruct sign; [|done]. cbn in E. zbool. rewrite u64_small by lia. lia.
Qed.

Lemma printint_correct_witness :
  (length (printint_buf (- 2 ^ 63) 10 true) ≤ 20)%nat ∧
  ∃ ds, printint (- 2 ^ 63) 10 true = [45] ++ reverse ds ∧ value_of 10 ds = 2 ^ 63.
Proof. apply (printint_correct (- 2 ^ 63) 10 true); [lia|by left]. Defined.
