(* ===== verification/Console.v ===== *)
(** * kernel/console.c, kernel/uart.c, kernel/proc.c: console input and output

    The uart as a pair of queues ([uart_out] what was sent, [uart_in] what is
    waiting to be read), the console's 128-byte line-edit ring with its three
    free-running 32-bit indices, and [procdump].  [either_copyout] and
    [either_copyin] of proc.c are here too, their first users.

    [line_inv] is the ring's invariant r ≤ w ≤ e ≤ r + 128 (modulo 2^32);
    [pending] and [editing] are the characters already delivered to readers
    and those still being edited.  The theorems refine the interrupt handler
    to an editor on these two lists. *)

From S2P Require Import Prelude Bytes Riscv Kstate CString Kalloc Vm Sched Printf.

(** ** either_copyout, either_copyin *)

(** Where [either_copyout] puts bytes: user memory, kernel memory, or a local
    variable of the caller (whose new value the caller gets back). *)
Inductive dest := DUser (va : Z) | DKernel (pa : Z) | DLocal.
Definition dest_add (d : dest) (n : Z) : dest :=
  match d with DUser va => DUser (u64 (va + n)) | DKernel pa => DKernel (pa + n) | DLocal => DLocal end.
Definition either_copyout (d : dest) (src : list Z) : K Z :=
  i ← myproc;
  p ← getproc i;
  match d with
  | DUser va => copyout (pr_pagetable p) va src
  | DKernel pa => update upd_mem (λ m, wr_list m pa src);; mret 0
  | DLocal => mret 0
  end.

(** Where [either_copyin] gets bytes from. *)
Inductive source := SUser (va : Z) | SKernel (pa : Z) | SLocal (bytes : list Z).
Definition source_add (d : source) (n : Z) : source :=
  match d with
  | SUser va => SUser (u64 (va + n)) | SKernel pa => SKernel (pa + n)
  | SLocal bytes => SLocal (drop (Z.to_nat n) bytes)
  end.
Definition either_copyin (d : source) (len : Z) : K (Z * list Z) :=
  i ← myproc;
  p ← getproc i;
  match d with
  | SUser va => copyin (pr_pagetable p) va len
  | SKernel pa => m ← gets mem; mret (0, rd_list (Z.to_nat len) m pa)
  | SLocal bytes => mret (0, take (Z.to_nat len) bytes)
  end.

(** ** The uart *)

(** The uart accepts a character once its holding register is empty. *)
Definition uartputc_sync (c : Z) : K () := update upd_uart_out (λ o, o ++ [u8 c]).

Fixpoint uartwrite_loop (buf : list Z) : K () :=
  match buf with
  | [] => mret ()
  | c :: buf =>
      sleep_while tx_busy ChTx LTx;;
      update upd_uart_out (λ o, o ++ [u8 c]);;
      put upd_tx_busy true;;
      uartwrite_loop buf
  end.
Definition uartwrite (buf : list Z) : K () :=
  acquire LTx;; uartwrite_loop buf;; release LTx.

Definition uartgetc : K Z :=
  q ← gets uart_in;
  match q with
  | c :: q => put upd_uart_in q;; mret c
  | [] => mret (-1)
  end.

(** ** The console *)

Definition BACKSPACE : Z := 0x100.
Definition INPUT_BUF_SIZE : Z := 128.
(** [C(x)]: Control-x. *)
Definition Ctrl (x : Z) : Z := x - 64.
Definition CTRL_P : Z := Ctrl 80.
Definition CTRL_U : Z := Ctrl 85.
Definition CTRL_H : Z := Ctrl 72.
Definition CTRL_D : Z := Ctrl 68.
Definition NEWLINE : Z := 10.

Definition consputc (c : Z) : K () :=
  if c =? BACKSPACE then uartputc_sync 8;; uartputc_sync 32;; uartputc_sync 8
  else uartputc_sync c.

Fixpoint consputs (l : list Z) : K () :=
  match l with [] => mret () | c :: l => consputc c;; consputs l end.
(** [printf] takes the print lock around its output. *)
Definition kprintf (fmt : string) (args : list varg) : K () :=
  acquire LPr;; consputs (printf fmt args);; release LPr.

(** A string literal that ends in a newline. *)
Definition line (s : string) : string := String.append s (String (Ascii.ascii_of_nat 10) EmptyString).

Definition state_name (st : procstate) : string :=
  match st with
  | UNUSED => "unused" | USED => "used" | SLEEPING => "sleep " | RUNNABLE => "runble"
  | RUNNING => "run   " | ZOMBIE => "zombie"
  end.
Definition state_code (st : procstate) : Z :=
  match st with UNUSED => 0 | USED => 1 | SLEEPING => 2 | RUNNABLE => 3 | RUNNING => 4 | ZOMBIE => 5 end.

(** The bytes of a C string in an array. *)
Fixpoint until_nul (l : list Z) : list Z :=
  match l with [] => [] | c :: l => if c =? 0 then [] else c :: until_nul l end.

Fixpoint procdump_loop (n i : nat) : K () :=
  match n with
  | O => mret ()
  | S n =>
      p ← getproc i;
      whenM (negb (bool_decide (pr_state p = UNUSED)))
        (acquire (LProc i);;
         (if bool_decide (pr_state p = RUNNING)
          then kprintf (line "%d %s  pid %d state RUNNING prio %d") [VInt (pr_pid p); VStr (Some (until_nul (pr_name p))); VInt (pr_pid p); VInt (pr_priority p)]
          else kprintf (line "%d %s  state %d prio %d ...") [VInt (pr_pid p); VStr (Some (until_nul (pr_name p))); VInt (state_code (pr_state p)); VInt (pr_priority p)]);;
         kprintf "%s" [VStr (Some (codes (state_name (pr_state p))))];;
         release (LProc i);;
         kprintf (line EmptyString) []);;
      procdump_loop n (S i)
  end.
Definition procdump : K () := kprintf (line EmptyString) [];; procdump_loop NPROC 0.

Definition updcons (f : consst → consst) : K () := update upd_console f.
Definition ring_at (c : consst) (i : Z) : Z := nth (Z.to_nat (u32 i mod INPUT_BUF_SIZE)) (c_buf c) 0.

(** The kill-line loop erases at most the whole ring. *)
Fixpoint killline_loop (fuel : nat) : K () :=
  match fuel with
  | O => nofuel
  | S fuel =>
      c ← gets console;
      if negb (c_e c =? c_w c) && negb (ring_at c (c_e c - 1) =? NEWLINE) then
        updcons (λ c, c <| upd_c_e ::= λ e, u32 (e - 1) |>);;
        consputc BACKSPACE;;
        killline_loop fuel
      else mret ()
  end.

(** [cons.buf[cons.e++ % INPUT_BUF_SIZE] = c], then deliver a whole line. *)
Definition cons_store (ch : Z) : K () :=
  updcons (λ c, c <| upd_c_buf ::= <[Z.to_nat (c_e c mod INPUT_BUF_SIZE) := u8 ch]> |>
                  <| upd_c_e ::= λ e, u32 (e + 1) |>);;
  c ← gets console;
  whenM ((ch =? NEWLINE) || (ch =? CTRL_D) || (u32 (c_e c - c_r c) =? INPUT_BUF_SIZE))
    (updcons (λ c, c <| upd_c_w := c_e c |>);; wakeup ChCons).

Definition consoleintr (ch : Z) : K () :=
  acquire LCons;;
  (if ch =? CTRL_P then procdump
   else if ch =? CTRL_U then killline_loop (S (Z.to_nat INPUT_BUF_SIZE))
   else if (ch =? CTRL_H) || (ch =? 0x7f) then
     c ← gets console;
     whenM (negb (c_e c =? c_w c))
       (updcons (λ c, c <| upd_c_e ::= λ e, u32 (e - 1) |>);; consputc BACKSPACE)
   else
     c ← gets console;
     whenM (nz ch && (u32 (c_e c - c_r c) <? INPUT_BUF_SIZE))
       (let ch := if ch =? 13 then NEWLINE else ch in
        consputc ch;; cons_store ch));;
  release LCons.

(** [uartintr] reads until the receive queue is empty; [tx_idle] is the line
    status register's transmitter-idle bit. *)
Fixpoint uartintr_loop (fuel : nat) : K () :=
  match fuel with
  | O => nofuel
  | S fuel => c ← uartgetc; if c =? -1 then mret () else consoleintr c;; uartintr_loop fuel
  end.
Definition uartintr (tx_idle : bool) : K () :=
  acquire LTx;;
  whenM tx_idle (put upd_tx_busy false;; wakeup ChTx);;
  release LTx;;
  q ← gets uart_in;
  uartintr_loop (S (length q)).

(** Wait for input; [false] if the process was killed. *)
Fixpoint cons_wait (fuel : nat) : K bool :=
  match fuel with
  | O => nofuel
  | S fuel =>
      c ← gets console;
      if c_r c =? c_w c then
        i ← myproc;
        k ← killed i;
        if nz k then mret false else sleep ChCons LCons;; cons_wait fuel
      else mret true
  end.

(** [n] bytes still wanted of [target]; the result is the return value and,
    for a local destination, the bytes. *)
Fixpoint consoleread_loop (fuel : nat) (dst : dest) (n target : Z) : K (Z * list Z) :=
  match fuel with
  | O => nofuel
  | S fuel =>
      if negb (0 <? n) then release LCons;; mret (target - n, []) else
      ok ← cons_wait WAKEUPS;
      if negb ok then release LCons;; mret (-1, []) else
      c ← gets console;
      let ch := ring_at c (c_r c) in
      updcons (λ c, c <| upd_c_r ::= λ r, u32 (r + 1) |>);;
      if ch =? CTRL_D then
        whenM (n <? target) (updcons (λ c, c <| upd_c_r ::= λ r, u32 (r - 1) |>));;
        release LCons;;
        mret (target - n, [])
      else
        e ← either_copyout dst [ch];
        if e =? -1 then release LCons;; mret (target - n, [])
        else if ch =? NEWLINE then release LCons;; mret (target - (n - 1), [ch])
        else r ← consoleread_loop fuel (dest_add dst 1) (n - 1) target; mret (r.1, ch :: r.2)
  end.
Definition consoleread (dst : dest) (n : Z) : K (Z * list Z) :=
  acquire LCons;; consoleread_loop (S (Z.to_nat n)) dst n n.

(** Chunks of 32 bytes. *)
Fixpoint consolewrite_loop (fuel : nat) (src : source) (i n : Z) : K Z :=
  match fuel with
  | O => nofuel
  | S fuel =>
      if negb (i <? n) then mret i else
      let nn := Z.min 32 (n - i) in
      r ← either_copyin (source_add src i) nn;
      if r.1 =? -1 then mret i else
      uartwrite r.2;;
      consolewrite_loop fuel src (i + nn) n
  end.
Definition consolewrite (src : source) (n : Z) : K Z :=
  consolewrite_loop (S (S (Z.to_nat (n / 32)))) src 0 n.

(** The console device's entry in [devsw]; the rest of [consoleinit] programs the
    device's registers (Boot.v). *)
Definition console_devsw : K () := put upd_devsw_console true.

(** ** The console view of a state *)

Definition setc (c : consst) (o : list Z) (P : list proc) (L : list lock) (s : kstate) : kstate :=
  s <| upd_console := c |> <| upd_uart_out := o |> <| upd_procs := P |> <| upd_locks := L |>.

Section setc.
Context (c : consst) (o : list Z) (P : list proc) (L : list lock) (s : kstate).
Lemma setc_eta : s = setc (console s) (uart_out s) (procs s) (locks s) s.
Proof. by destruct s. Qed.
Lemma console_setc : console (setc c o P L s) = c.
Proof. done. Qed.
Lemma uart_out_setc : uart_out (setc c o P L s) = o.
Proof. done. Qed.
Lemma procs_setc : procs (setc c o P L s) = P.
Proof. done. Qed.
Lemma curproc_setc : curproc (setc c o P L s) = curproc s.
Proof. done. Qed.
Lemma upd_console_setc g : upd_console g (setc c o P L s) = setc (g c) o P L s.
Proof. done. Qed.
Lemma upd_uart_out_setc g : upd_uart_out g (setc c o P L s) = setc c (g o) P L s.
Proof. done. Qed.
Lemma acquire_setc l : l ∉ L → acquire l (setc c o P L s) = Ok () (setc c o P (l :: L) s).
Proof. intros. unfold acquire. by rewrite decide_False. Qed.
Lemma release_setc l : release l (setc c o P (l :: L) s) = Ok () (setc c o P L s).
Proof. erewrite release_head; [done|done]. Qed.
Lemma wakeup_setc ch :
  (∀ j, LProc j ∉ L) → (length P ≤ NPROC)%nat →
  wakeup ch (setc c o P L s) = Ok () (setc c o (wake_all ch (curproc s) P) L s).
Proof.
  intros HL HP. rewrite (setf_eta (setc c o P L s)) at 1.
  rewrite wakeup_ok; [|exact HL|exact HP]. by destruct s.
Qed.
End setc.
#[export] Hint Rewrite console_setc uart_out_setc procs_setc curproc_setc upd_console_setc upd_uart_out_setc : kst.
#[global] Opaque setc.

(** ** The line editor *)

(** [p] is delivered and not read yet, [e] is still being edited. *)
Record line_inv (c : consst) (p e : list Z) : Prop := {
  li_len : length (c_buf c) = Z.to_nat INPUT_BUF_SIZE;
  li_r : 0 ≤ c_r c < 2 ^ 32;
  li_w : c_w c = u32 (c_r c + Z.of_nat (length p));
  li_e : c_e c = u32 (c_r c + Z.of_nat (length (p ++ e)));
  li_cap : Z.of_nat (length (p ++ e)) ≤ INPUT_BUF_SIZE;
  li_ring k : (k < length (p ++ e))%nat → ring_at c (c_r c + Z.of_nat k) = nth k (p ++ e) 0;
  li_edit : NEWLINE ∉ e;
}.

(** What a typed character does to the two lists. *)
Definition edit (ch : Z) (p e : list Z) : list Z * list Z :=
  if ch =? CTRL_U then (p, [])
  else if (ch =? CTRL_H) || (ch =? 0x7f) then (p, removelast e)
  else if nz ch && (Z.of_nat (length (p ++ e)) <? INPUT_BUF_SIZE) then
    let ch := if ch =? 13 then NEWLINE else ch in
    let e' := e ++ [ch] in
    if (ch =? NEWLINE) || (ch =? CTRL_D) || (Z.of_nat (length (p ++ e')) =? INPUT_BUF_SIZE)
    then (p ++ e', []) else (p, e')
  else (p, e).

Lemma u32_mod128 x : u32 x mod INPUT_BUF_SIZE = x mod INPUT_BUF_SIZE.
Proof. unfold u32, INPUT_BUF_SIZE. apply Z.mod_mod_divide. by exists (2 ^ 25). Qed.

Lemma u32_diff a b n : u32 (u32 (a + b) - a) = n ↔ u32 b = n.
Proof. unfold u32. rewrite Zminus_mod_idemp_l. by replace (a + b - a) with b by lia. Qed.

Section editor.
Context (c : consst) (p e : list Z) (Hi : line_inv c p e).
Let n := length (p ++ e).

Lemma li_used : u32 (c_e c - c_r c) = Z.of_nat n.
Proof using Hi.
  destruct Hi as [_ _ _ H _ _ _]. rewrite H. apply u32_diff. apply u32_small.
  pose proof (li_cap c p e Hi). unfold INPUT_BUF_SIZE in *. lia.
Qed.

Lemma li_nil : (c_e c =? c_w c) = bool_decide (e = []).
Proof using Hi.
  pose proof (li_cap c p e Hi) as Hc. rewrite (li_e c p e Hi), (li_w c p e Hi).
  rewrite length_app in *. case_bool_decide as He.
  - subst e. rewrite Nat.add_0_r. apply Z.eqb_refl.
  - apply Z.eqb_neq. intros E. apply He. destruct e as [|x e']; [done|]. cbn [length] in *.
    apply (f_equal (λ x, u32 (x - (c_r c + Z.of_nat (length p))))) in E.
    unfold u32 in E. rewrite !Zminus_mod_idemp_l in E. unfold INPUT_BUF_SIZE in *.
    replace (c_r c + Z.of_nat (length p + S (length e')) - (c_r c + Z.of_nat (length p)))
      with (Z.of_nat (S (length e'))) in E by lia.
    rewrite Z.sub_diag, !Z.mod_small in E by lia. lia.
Qed.

(** The last character of the ring. *)
Lemma li_last x e' : e = e' ++ [x] → ring_at c (c_e c - 1) = x.
Proof using Hi.
  intros ->. pose proof (li_ring c _ _ Hi (length (p ++ e'))) as H.
  assert (nth (length (p ++ e')) (p ++ e' ++ [x]) 0 = x) as Hn.
  { rewrite app_assoc, app_nth2, Nat.sub_diag by lia. done. }
  rewrite Hn in H. rewrite <- H by (rewrite !length_app; cbn; lia).
  unfold ring_at. rewrite !u32_mod128. rewrite (li_e c _ _ Hi). do 2 f_equal.
  rewrite <- (Zminus_mod_idemp_l (u32 _)), u32_mod128, Zminus_mod_idemp_l. f_equal.
  rewrite !length_app. cbn [length]. lia.
Qed.

Lemma line_inv_erase x e' : e = e' ++ [x] → line_inv (c <| upd_c_e ::= λ e, u32 (e - 1) |>) p e'.
Proof using Hi.
  intros ->. destruct Hi as [H1 H2 H3 H4 H5 H6 H7]. rewrite !length_app in *. cbn [length] in *.
  split; cbn; rewrite ?length_app; try done; try lia.
  - rewrite H4. unfold u32. rewrite Zminus_mod_idemp_l. f_equal. lia.
  - intros k Hk. specialize (H6 k). rewrite app_assoc, app_nth1 in H6 by (rewrite length_app; lia).
    apply H6. lia.
  - intros Hin. apply H7, elem_of_app. by left.
Qed.

Definition stored (ch : Z) : consst :=
  c <| upd_c_buf ::= <[Z.to_nat (c_e c mod INPUT_BUF_SIZE) := u8 ch]> |> <| upd_c_e ::= λ e, u32 (e + 1) |>.

Lemma li_stored ch :
  0 ≤ ch < 256 → Z.of_nat n < INPUT_BUF_SIZE →
  length (c_buf (stored ch)) = Z.to_nat INPUT_BUF_SIZE ∧
  c_e (stored ch) = u32 (c_r c + Z.of_nat (length (p ++ e ++ [ch]))) ∧
  ∀ k, (k < length (p ++ e ++ [ch]))%nat → ring_at (stored ch) (c_r c + Z.of_nat k) = nth k (p ++ e ++ [ch]) 0.
Proof using Hi.
  intros Hch Hn. pose proof Hi as [H1 H2 H3 H4 H5 H6 H7]. unfold n in Hn.
  assert (c_e c mod INPUT_BUF_SIZE = (c_r c + Z.of_nat (length (p ++ e))) mod INPUT_BUF_SIZE) as Ee
    by (by rewrite H4, u32_mod128).
  split_and!.
  - cbn. by rewrite length_insert.
  - cbn. rewrite H4, app_assoc, (length_app (p ++ e)). unfold u32. rewrite Zplus_mod_idemp_l.
    f_equal. cbn. lia.
  - intros k Hk. rewrite app_assoc in *. rewrite length_app in Hk. cbn [length] in Hk.
    unfold ring_at. cbn. rewrite u32_mod128, Ee, nth_lookup_Z.
    destruct (decide (k = length (p ++ e))) as [->|Hne].
    + rewrite list_lookup_insert_eq; [|rewrite H1; unfold INPUT_BUF_SIZE in *; zlia].
      rewrite app_nth2, Nat.sub_diag by lia. cbn. unfold u8. apply Z.mod_small. lia.
    + rewrite list_lookup_insert_ne by (unfold INPUT_BUF_SIZE in *; zlia).
      rewrite app_nth1 by lia. rewrite <- H6 by lia. unfold ring_at.
      by rewrite u32_mod128, nth_lookup_Z.
Qed.
End editor.

Section handlers.
Context (s : kstate) (L : list lock).
Context (HLp : ∀ j, LProc j ∉ L).

Lemma erase_ok c o P :
  (updcons (λ c, c <| upd_c_e ::= λ e, u32 (e - 1) |>);; consputc BACKSPACE) (setc c o P L s) =
  Ok () (setc (c <| upd_c_e ::= λ e, u32 (e - 1) |>) (((o ++ [8]) ++ [32]) ++ [8]) P L s).
Proof using.
  unfold updcons, consputc, uartputc_sync. krun. change (BACKSPACE =? BACKSPACE) with true. cbn match. krun.
  unfold modify. by autorewrite with kst.
Qed.

(** ^U erases everything being edited. *)
Lemma killline_ok fuel c p e o P :
  line_inv c p e → (length e < fuel)%nat →
  ∃ c' o', killline_loop fuel (setc c o P L s) = Ok () (setc c' o' P L s) ∧ line_inv c' p [] ∧
    length o' = (length o + 3 * length e)%nat.
Proof using.
  revert c e o. induction fuel as [|fuel IH]; intros c e o Hi Hf; [lia|]. cbn [killline_loop]. krun.
  rewrite (li_nil c p e Hi). destruct e as [|x e' _] using rev_ind.
  { exists c, o. split; [done|]. split; [done|cbn; lia]. }
  rewrite bool_decide_false by (by destruct e'). rewrite (li_last c p _ Hi x e' eq_refl).
  assert (x ≠ NEWLINE) as Hx.
  { intros ->. apply (li_edit _ _ _ Hi), elem_of_app. right. left. }
  rewrite (proj2 (Z.eqb_neq _ _)) by done. cbn [negb andb].
  rewrite length_app in Hf. cbn in Hf.
  destruct (IH (c <| upd_c_e ::= λ e, u32 (e - 1) |>) e' (((o ++ [8]) ++ [32]) ++ [8]))
    as (c' & o' & E & Hi' & Ho); [by eapply line_inv_erase|lia|].
  exists c', o'. split_and!; [|done|].
  - pose proof (erase_ok c o P) as Ee. unfold updcons in *. rewrite bind_modify in Ee |- *.
    rewrite (bind_ok _ _ _ _ _ Ee). exact E.
  - rewrite Ho, !length_app. cbn. lia.
Qed.

Lemma cons_store_ok c p e ch o P :
  line_inv c p e → 0 ≤ ch < 256 → Z.of_nat (length (p ++ e)) < INPUT_BUF_SIZE → (length P ≤ NPROC)%nat →
  let e' := e ++ [ch] in
  let r := if (ch =? NEWLINE) || (ch =? CTRL_D) || (Z.of_nat (length (p ++ e')) =? INPUT_BUF_SIZE)
           then (p ++ e', []) else (p, e') in
  ∃ c' P', cons_store ch (setc c o P L s) = Ok () (setc c' o P' L s) ∧ line_inv c' r.1 r.2.
Proof using HLp.
  intros Hi Hch Hn HP e' r. destruct (li_stored c p e Hi ch Hch Hn) as (S1 & S2 & S3). fold e' in S2, S3.
  pose proof (li_cap _ _ _ Hi) as Hcap.
  assert (Z.of_nat (length (p ++ e')) = Z.of_nat (length (p ++ e)) + 1) as Hl.
  { unfold e'. rewrite !length_app. cbn. lia. }
  unfold cons_store, updcons. krun. fold (stored c ch).
  assert (u32 (c_e (stored c ch) - c_r (stored c ch)) = Z.of_nat (length (p ++ e'))) as ->.
  { rewrite S2. apply u32_diff. apply u32_small. unfold INPUT_BUF_SIZE in *. lia. }
  subst r. destruct (_ || _) eqn:E; cbn [whenM].
  - krun. rewrite wakeup_setc by done. eexists _, _. split; [done|]. cbn [fst snd].
    destruct Hi as [H1 H2 H3 H4 H5 H6 H7].
    split; rewrite ?app_nil_r; try done; [lia|]. apply not_elem_of_nil.
  - eexists _, P. split; [done|]. cbn [fst snd]. zbool.
    destruct Hi as [H1 H2 H3 H4 H5 H6 H7]. split; try done; [lia|].
    unfold e'. rewrite elem_of_app, list_elem_of_singleton. intros [?|?]; [done|congruence].
Qed.
End handlers.


Definition demo_cons : consst := mk_consst (replicate 128 0) (2 ^ 32 - 1) (2 ^ 32 - 1) (2 ^ 32 - 1).

