(* ===== verification/Pipe.v ===== *)
(** * kernel/pipe.c: pipes

    A pipe is a 512-byte ring with free-running 32-bit counters.  [pipe_inv pi q]
    says that the bytes in flight are [q], oldest first.  The theorems refine
    the ring to that queue: what [pipewrite] appends, [piperead] removes, in
    order, across the wrap-around of the ring and of the counters.
    ([pipealloc] is with the file table, in File.v.) *)

From S2P Require Import Prelude Bytes Riscv Kstate CString Kalloc Vm VmProps VmCopy Sched.

Definition PIPESIZE : Z := 512.

(** The pipe at address [pi]; using a pipe that was freed is a use of freed
    memory, which the model turns into a trap. *)
Definition getpipe (pi : Z) : K pipe :=
  ps ← gets pipes; match ps !! pi with Some p => mret p | None => panic "kerneltrap" end.
Definition updpipe (pi : Z) (f : pipe → pipe) : K () := update upd_pipes (alter f pi).

Definition pipeclose (pi : Z) (writable : bool) : K () :=
  acquire (LPipe pi);;
  (if writable then
     updpipe pi (λ p, p <| upd_p_writeopen := false |>);; wakeup (ChPipeR pi)
   else
     updpipe pi (λ p, p <| upd_p_readopen := false |>);; wakeup (ChPipeW pi));;
  p ← getpipe pi;
  if negb (p_readopen p) && negb (p_writeopen p) then
    release (LPipe pi);;
    update upd_pipes (delete pi);;
    kfree pi
  else release (LPipe pi).

(** [pi->data[pi->nwrite++ % PIPESIZE] = ch] and the converse. *)
Definition pipe_push (ch : Z) (p : pipe) : pipe :=
  p <| upd_p_data ::= <[Z.to_nat (p_nwrite p mod PIPESIZE) := ch]> |> <| upd_p_nwrite ::= λ n, u32 (n + 1) |>.
Definition pipe_head (p : pipe) : Z := nth (Z.to_nat (p_nread p mod PIPESIZE)) (p_data p) 0.
Definition pipe_pop (p : pipe) : pipe := p <| upd_p_nread ::= λ n, u32 (n + 1) |>.

(** Fuel: a byte or a wake-up each time round. *)
Fixpoint pipewrite_loop (fuel : nat) (pr : nat) (pi addr i n : Z) : K Z :=
  match fuel with
  | O => nofuel
  | S fuel =>
      if negb (i <? n) then wakeup (ChPipeR pi);; release (LPipe pi);; mret i else
      p ← getpipe pi;
      k ← (if negb (p_readopen p) then mret true else k ← killed pr; mret (nz k));
      if (k : bool) then release (LPipe pi);; mret (-1) else
      p ← getpipe pi;
      if p_nwrite p =? u32 (p_nread p + PIPESIZE) then
        wakeup (ChPipeR pi);;
        sleep (ChPipeW pi) (LPipe pi);;
        pipewrite_loop fuel pr pi addr i n
      else
        me ← getproc pr;
        r ← copyin (pr_pagetable me) (u64 (addr + i)) 1;
        if r.1 =? -1 then wakeup (ChPipeR pi);; release (LPipe pi);; mret i
        else
          updpipe pi (pipe_push (nth 0 r.2 0));;
          pipewrite_loop fuel pr pi addr (i + 1) n
  end.
Definition pipewrite (pi addr n : Z) : K Z :=
  pr ← myproc;
  acquire (LPipe pi);;
  pipewrite_loop (S (Z.to_nat n) + WAKEUPS) pr pi addr 0 n.

(** Wait for data; [false] if the process was killed. *)
Fixpoint pipe_wait (fuel : nat) (pr : nat) (pi : Z) : K bool :=
  match fuel with
  | O => nofuel
  | S fuel =>
      p ← getpipe pi;
      if (p_nread p =? p_nwrite p) && p_writeopen p then
        k ← killed pr;
        if nz k then mret false else sleep (ChPipeR pi) (LPipe pi);; pipe_wait fuel pr pi
      else mret true
  end.
(** [n] bytes left of the request; the number copied. *)
Fixpoint piperead_loop (n : nat) (pr : nat) (pi addr i : Z) : K Z :=
  match n with
  | O => mret i
  | S n =>
      p ← getpipe pi;
      if p_nread p =? p_nwrite p then mret i else
      updpipe pi pipe_pop;;
      me ← getproc pr;
      r ← copyout (pr_pagetable me) (u64 (addr + i)) [pipe_head p];
      if r =? -1 then mret i else piperead_loop n pr pi addr (i + 1)
  end.
Definition piperead (pi addr n : Z) : K Z :=
  pr ← myproc;
  acquire (LPipe pi);;
  ok ← pipe_wait WAKEUPS pr pi;
  if negb ok then release (LPipe pi);; mret (-1) else
  i ← piperead_loop (Z.to_nat n) pr pi addr 0;
  wakeup (ChPipeW pi);;
  release (LPipe pi);;
  mret i.

(** ** The queue *)

Record pipe_inv (p : pipe) (q : list Z) : Prop := {
  pi_len : length (p_data p) = Z.to_nat PIPESIZE;
  pi_r : 0 ≤ p_nread p < 2 ^ 32;
  pi_w : p_nwrite p = u32 (p_nread p + Z.of_nat (length q));
  pi_cap : Z.of_nat (length q) ≤ PIPESIZE;
  pi_ring k : (k < length q)%nat →
    nth (Z.to_nat (u32 (p_nread p + Z.of_nat k) mod PIPESIZE)) (p_data p) 0 = nth k q 0;
}.

Lemma u32_mod512 x : u32 x mod PIPESIZE = x mod PIPESIZE.
Proof. unfold u32, PIPESIZE. apply Z.mod_mod_divide. by exists (2 ^ 23). Qed.

Lemma u32_inj_near a b c : 0 ≤ b < 2 ^ 32 → 0 ≤ c < 2 ^ 32 → u32 (a + b) = u32 (a + c) → b = c.
Proof. unfold u32. zlia. Qed.

Section queue.
Context (p : pipe) (q : list Z) (Hi : pipe_inv p q).

Lemma pipe_full : (p_nwrite p =? u32 (p_nread p + PIPESIZE)) = bool_decide (Z.of_nat (length q) = PIPESIZE).
Proof using Hi.
  destruct Hi as [_ _ H3 H4 _]. rewrite H3. case_bool_decide as E.
  - rewrite E. apply Z.eqb_refl.
  - apply Z.eqb_neq. intros E'. apply E. apply u32_inj_near in E'; unfold PIPESIZE in *; lia.
Qed.

Lemma pipe_empty : (p_nread p =? p_nwrite p) = bool_decide (q = []).
Proof using Hi.
  destruct Hi as [_ H2 H3 H4 _]. rewrite H3. case_bool_decide as E.
  - subst q. cbn. rewrite Z.add_0_r, u32_small by done. apply Z.eqb_refl.
  - apply Z.eqb_neq. intros E'. apply E. destruct q as [|x q']; [done|]. exfalso.
    assert (u32 (p_nread p + 0) = u32 (p_nread p + Z.of_nat (length (x :: q')))) as E2
      by (by rewrite <- E', Z.add_0_r, u32_small).
    apply u32_inj_near in E2; cbn [length] in *; unfold PIPESIZE in *; lia.
Qed.

Lemma pipe_push_inv ch : Z.of_nat (length q) < PIPESIZE → pipe_inv (pipe_push ch p) (q ++ [ch]).
Proof using Hi.
  intros Hn. destruct Hi as [H1 H2 H3 H4 H5]. unfold pipe_push.
  split; cbn; rewrite ?length_insert, ?length_app; cbn [length]; try done; try lia.
  - rewrite H3. unfold u32. rewrite Zplus_mod_idemp_l. f_equal. lia.
  - intros k Hk. rewrite H3, !u32_mod512, nth_lookup_Z.
    destruct (decide (k = length q)) as [->|Hne].
    + rewrite list_lookup_insert_eq; [|rewrite H1; unfold PIPESIZE in *; zlia].
      by rewrite app_nth2, Nat.sub_diag by lia.
    + rewrite list_lookup_insert_ne by (unfold PIPESIZE in *; zlia).
      rewrite app_nth1, <- H5 by lia. by rewrite u32_mod512, nth_lookup_Z.
Qed.

Lemma pipe_pop_inv c q' : q = c :: q' → pipe_head p = c ∧ pipe_inv (pipe_pop p) q'.
Proof using Hi.
  intros ->. destruct Hi as [H1 H2 H3 H4 H5]. cbn [length] in *. split.
  - specialize (H5 0%nat). cbn in H5. rewrite Z.add_0_r, u32_mod512 in H5. apply H5. lia.
  - unfold pipe_pop. split; cbn; try done; try lia.
    + apply u32_range.
    + rewrite H3. unfold u32. rewrite Zplus_mod_idemp_l. f_equal. lia.
    + intros k Hk. specialize (H5 (S k) ltac:(lia)). rewrite u32_mod512 in *. cbn in H5. rewrite <- H5.
      do 2 f_equal. rewrite Zplus_mod, u32_mod512, <- Zplus_mod. f_equal. lia.
Qed.
End queue.

(** ** Callees on an arbitrary state *)

Lemma acquire_release_any {A} (l : lock) (m : K A) (r : A) s :
  l ∉ locks s → m (s <| upd_locks ::= cons l |>) = Ok r (s <| upd_locks ::= cons l |>) →
  (acquire l;; x ← m; release l;; mret x) s = Ok r s.
Proof.
  intros HL Hm. rewrite (bind_ok _ _ _ _ _ (acquire_ok l s HL)), (bind_ok _ _ _ _ _ Hm).
  erewrite bind_ok by (by apply release_head). by destruct s.
Qed.

Lemma killed_any i p s : LProc i ∉ locks s → procs s !! i = Some p → killed i s = Ok (pr_killed p) s.
Proof.
  intros HL Hp. unfold killed. rewrite (bind_ok _ _ _ _ _ (acquire_ok _ s HL)).
  unfold getproc. mrun. cbn [procs upd_locks]. rewrite Hp. mrun.
  erewrite bind_ok by (by apply release_head). by destruct s.
Qed.

Lemma wakeup_any ch s :
  (∀ j, LProc j ∉ locks s) → (length (procs s) ≤ NPROC)%nat →
  wakeup ch s = Ok () (s <| upd_procs ::= wake_all ch (curproc s) |>).
Proof.
  intros HL HP. rewrite (setf_eta s) at 1. rewrite wakeup_ok by done. by destruct s.
Qed.

Lemma copyin_any root src len s l :
  uvm_inv (mem s) (freelist s) l root → 0 ≤ src → 0 ≤ len → src + len ≤ MAXVA →
  covered (mem s) root src len false →
  ∃ bytes, copyin root src len s = Ok (0, bytes) s ∧ Z.of_nat (length bytes) = len ∧
    ∀ i, 0 ≤ i < len → uread (mem s) root (src + i) = Some (bytes !!! Z.to_nat i).
Proof.
  intros Hu H0 Hl Hb Hc.
  destruct (copyin_loop_ok (copy_fuel len) root src len (mem s) (freelist s) l (locks s) s)
    as (bytes & E & H1 & H2); try done.
  { pose proof (pgoff_range src). unfold copy_fuel, PGSIZE in *. zlia. }
  rewrite <- (setk_eta s) in E. by exists bytes.
Qed.

Lemma copyout_any root dst src s l :
  uvm_inv (mem s) (freelist s) l root → 0 ≤ dst → dst + Z.of_nat (length src) ≤ MAXVA →
  covered (mem s) root dst (Z.of_nat (length src)) true →
  ∃ m', copyout root dst src s = Ok 0 (s <| upd_mem := m' |>) ∧ uvm_inv m' (freelist s) l root ∧
    (∀ va, xlate m' root va = xlate (mem s) root va) ∧
    ∀ va, 0 ≤ va < MAXVA → uread m' root va =
      if decide (dst ≤ va < dst + Z.of_nat (length src)) then Some (u8 (src !!! Z.to_nat (va - dst)))
      else uread (mem s) root va.
Proof.
  intros Hu H0 Hb Hc.
  destruct (copyout_loop_ok (copy_fuel (Z.of_nat (length src))) root dst src (mem s) (freelist s) l (locks s) s)
    as (m' & H1 & H2 & H3 & H4 & _); try done.
  { pose proof (pgoff_range dst). unfold copy_fuel, PGSIZE in *. zlia. }
  exists m'. split_and!; [|done..]. rewrite (setk_eta s) at 1. unfold copyout. rewrite H1. by destruct s.
Qed.

(** ** pipewrite *)

(** A process may use the pipe at [pi]. *)
Record pipe_ctx (s : kstate) (me : nat) (p : proc) (pi : Z) (l : list Z) : Prop := {
  pc_cur : curproc s = Some me;
  pc_proc : procs s !! me = Some p;
  pc_alive : pr_killed p = 0;
  pc_len : (length (procs s) ≤ NPROC)%nat;
  pc_mem : uvm_inv (mem s) (freelist s) l (pr_pagetable p);
  pc_lp j : LProc j ∉ locks s;
}.

Definition set_pipe (pi : Z) (x : pipe) (s : kstate) : kstate := s <| upd_pipes := <[pi := x]> (pipes s) |>.

Lemma pipe_ctx_set s me p pi l x : pipe_ctx s me p pi l → pipe_ctx (set_pipe pi x s) me p pi l.
Proof. by intros [? ? ? ? ? ?]. Qed.

Lemma getpipe_ok pi x s : pipes s !! pi = Some x → getpipe pi s = Ok x s.
Proof. intros H. unfold getpipe. mrun. by rewrite H. Qed.

Lemma alter_map_insert (pi : Z) f (m : gmap Z pipe) x :
  m !! pi = Some x → alter f pi m = <[pi := f x]> m.
Proof.
  intros H. apply map_eq. intros j. destruct (decide (pi = j)) as [<-|Hne].
  - by rewrite lookup_alter_eq, lookup_insert_eq, H.
  - by rewrite lookup_alter_ne, lookup_insert_ne.
Qed.

Lemma updpipe_ok pi f x s : pipes s !! pi = Some x → updpipe pi f s = Ok () (set_pipe pi (f x) s).
Proof.
  intros H. unfold updpipe, modify, set_pipe. rewrite <- (alter_map_insert pi f (pipes s) x H). done.
Qed.

Lemma set_pipe_set pi x y s : set_pipe pi x (set_pipe pi y s) = set_pipe pi x s.
Proof. destruct s. unfold set_pipe, upd_pipes. cbn. by rewrite insert_insert_eq. Qed.

Lemma set_pipe_lookup pi x s : pipes (set_pipe pi x s) !! pi = Some x.
Proof. destruct s. apply lookup_insert_eq. Qed.

Section pwrite.
Context (me : nat) (p : proc) (pi addr n : Z) (l : list Z).
Context (Ha : 0 ≤ addr) (Hb : addr + n ≤ MAXVA).

Lemma pipewrite_loop_ok fuel i x q s :
  pipe_ctx s me p pi l → covered (mem s) (pr_pagetable p) addr n false →
  pipes s !! pi = Some x → pipe_inv x q → p_readopen x = true → 0 ≤ i ≤ n →
  Z.of_nat (length q) + (n - i) ≤ PIPESIZE → (Z.to_nat (n - i) < fuel)%nat →
  ∃ bytes x', pipewrite_loop fuel me pi addr i n s =
      (wakeup (ChPipeR pi);; release (LPipe pi);; mret n) (set_pipe pi x' s) ∧
    pipe_inv x' (q ++ bytes) ∧ Z.of_nat (length bytes) = n - i ∧
    ∀ j, 0 ≤ j < n - i → uread (mem s) (pr_pagetable p) (addr + i + j) = Some (nth (Z.to_nat j) bytes 0).
Proof using Ha Hb.
  assert (MAXVA = 2 ^ 38) as HM by done.
  revert i x q s. induction fuel as [|fuel IH]; intros i x q s Hc Hcov Hx Hi Hro Hin Hcap Hf; [lia|].
  cbn [pipewrite_loop]. destruct (i <? n) eqn:E; zbool; cbn [negb].
  2:{ exists [], x. assert (i = n) as -> by lia. rewrite app_nil_r. split_and!; [|done|cbn; lia|lia].
      assert (set_pipe pi x s = s) as ->; [|done].
      destruct s. unfold set_pipe, upd_pipes. cbn in *. by rewrite insert_id. }
  rewrite (bind_ok _ _ _ _ _ (getpipe_ok pi x s Hx)), Hro. cbn [negb].
  destruct Hc as [C1 C2 C3 C4 C5 C6].
  assert ((k ← killed me; mret (nz k)) s = Ok false s) as Ek.
  { rewrite (bind_ok _ _ _ _ _ (killed_any me p s (C6 me) C2)), C3. done. }
  rewrite (bind_ok _ _ _ _ _ Ek), (bind_ok _ _ _ _ _ (getpipe_ok pi x s Hx)).
  rewrite (pipe_full x q Hi), bool_decide_false by lia.
  unfold getproc at 1. mrun. rewrite C2. mrun. rewrite u64_small by lia.
  destruct (copyin_any (pr_pagetable p) (addr + i) 1 s l) as (bytes & B1 & B2 & B3);
    [done|lia|lia|lia|intros va Hva; apply Hcov; lia|].
  rewrite (bind_ok _ _ _ _ _ B1). cbn [fst snd]. change (0 =? -1) with false. cbn match.
  destruct bytes as [|c [|? ?]]; cbn [length] in B2; [lia| |lia].
  rewrite (bind_ok _ _ _ _ _ (updpipe_ok pi _ x s Hx)). cbn [nth].
  destruct (IH (i + 1) (pipe_push c x) (q ++ [c]) (set_pipe pi (pipe_push c x) s))
    as (rest & x' & R1 & R2 & R3 & R4); try done.
  - apply set_pipe_lookup.
  - apply pipe_push_inv; [done|lia].
  - lia.
  - rewrite length_app. cbn. lia.
  - lia.
  - exists (c :: rest), x'. rewrite set_pipe_set in R1. rewrite <- app_assoc in R2.
    split_and!; [done|done|cbn [length]; lia|].
    intros j Hj. destruct (decide (j = 0)) as [->|Hne].
    + specialize (B3 0 ltac:(lia)). rewrite Z.add_0_r in *. exact B3.
    + replace (Z.to_nat j) with (S (Z.to_nat (j - 1))) by lia. cbn [nth]. rewrite <- R4 by lia.
      unfold uread. f_equal. replace (addr + (i + 1) + (j - 1)) with (addr + i + j) by lia. done.
Qed.
End pwrite.

Lemma pipe_ctx_lock s me p pi l lk :
  (∀ j, lk ≠ LProc j) → pipe_ctx s me p pi l → pipe_ctx (s <| upd_locks ::= cons lk |>) me p pi l.
Proof. intros Hl [? ? ? ? ? H]. split; try done. intros j. cbn. apply not_elem_of_cons. split; [by symmetry|done]. Qed.

(** The end of both operations: wake the other side and drop the lock. *)
Lemma wake_release ch pi r (s : kstate) L :
  locks s = LPipe pi :: L → (∀ j, LProc j ∉ L) → (length (procs s) ≤ NPROC)%nat →
  (wakeup ch;; release (LPipe pi);; mret r) s =
  Ok (r : Z) (s <| upd_procs ::= wake_all ch (curproc s) |> <| upd_locks := L |>).
Proof.
  intros Hl HL HP. erewrite bind_ok.
  2:{ apply wakeup_any; [|done]. intros j. rewrite Hl. apply not_elem_of_cons. by split. }
  erewrite bind_ok by (by apply release_head). done.
Qed.


(** ** piperead *)

Section pread.
Context (me : nat) (p : proc) (pi addr : Z) (l : list Z).
Context (Ha : 0 ≤ addr).

Definition set_pm (pi : Z) (x : pipe) (m : memory) (s : kstate) : kstate :=
  set_pipe pi x (s <| upd_mem := m |>).

Lemma piperead_loop_ok n i x q s :
  pipe_ctx s me p pi l → addr + i + Z.of_nat n ≤ MAXVA → 0 ≤ i →
  covered (mem s) (pr_pagetable p) (addr + i) (Z.of_nat n) true →
  pipes s !! pi = Some x → pipe_inv x q → Forall (λ c, 0 ≤ c < 256) q →
  let k := Nat.min n (length q) in
  ∃ x' m', piperead_loop n me pi addr i s = Ok (i + Z.of_nat k) (set_pm pi x' m' s) ∧
    pipe_inv x' (drop k q) ∧ uvm_inv m' (freelist s) l (pr_pagetable p) ∧
    ∀ va, 0 ≤ va < MAXVA → uread m' (pr_pagetable p) va =
      if decide (addr + i ≤ va < addr + i + Z.of_nat k) then Some (nth (Z.to_nat (va - addr - i)) q 0)
      else uread (mem s) (pr_pagetable p) va.
Proof using Ha.
  assert (MAXVA = 2 ^ 38) as HM by done.
  revert i x q s. induction n as [|n IH]; intros i x q s Hc Hb Hi0 Hcov Hx Hi Hby k.
  { exists x, (mem s). unfold k. cbn. rewrite Z.add_0_r, drop_0. split_and!; [|done|apply Hc|].
    - unfold mret, M_ret. do 2 f_equal. destruct s. unfold set_pm, set_pipe, upd_pipes, upd_mem. cbn in *.
      by rewrite insert_id.
    - intros va Hva. by rewrite decide_False by lia. }
  cbn [piperead_loop]. rewrite (bind_ok _ _ _ _ _ (getpipe_ok pi x s Hx)).
  rewrite (pipe_empty x q Hi). destruct q as [|c q'].
  { exists x, (mem s). rewrite bool_decide_true by done. unfold k. rewrite Nat.min_0_r. cbn. rewrite Z.add_0_r.
    split_and!; [|done|apply Hc|].
    - unfold mret, M_ret. do 2 f_equal. destruct s. unfold set_pm, set_pipe, upd_pipes, upd_mem. cbn in *.
      by rewrite insert_id.
    - intros va Hva. by rewrite decide_False by lia. }
  rewrite bool_decide_false by done. apply Forall_cons in Hby as [Hcb Hby].
  destruct (pipe_pop_inv x (c :: q') Hi c q' eq_refl) as [Hh Hp].
  rewrite (bind_ok _ _ _ _ _ (updpipe_ok pi _ x s Hx)). unfold getproc at 1. mrun.
  change (procs (set_pipe pi (pipe_pop x) s)) with (procs s). rewrite (pc_proc _ _ _ _ _ Hc). mrun.
  rewrite u64_small by lia. rewrite Hh.
  destruct (copyout_any (pr_pagetable p) (addr + i) [c] (set_pipe pi (pipe_pop x) s) l)
    as (m1 & O1 & O2 & O3 & O4); [apply Hc|lia|cbn; lia| |].
  { intros va Hva. cbn in Hva. apply Hcov. lia. }
  rewrite (bind_ok _ _ _ _ _ O1). change (0 =? -1) with false. cbn match.
  set (s1 := upd_mem (λ _, m1) (set_pipe pi (pipe_pop x) s)) in *.
  destruct (IH (i + 1) (pipe_pop x) q' s1) as (x' & m' & R1 & R2 & R3 & R4).
  - destruct Hc as [C1 C2 C3 C4 C5 C6]. by split.
  - lia.
  - lia.
  - intros va Hva. destruct (Hcov va) as (v & V1 & V2 & V3); [lia|]. exists v.
    unfold s1. cbn [mem upd_mem]. rewrite O3. done.
  - apply set_pipe_lookup.
  - done.
  - done.
  - exists x', m'. assert (k = S (Nat.min n (length q'))) as -> by (unfold k; cbn [length]; lia).
    split_and!.
    + rewrite R1. f_equal; [lia|]. unfold s1, set_pm. destruct s. unfold set_pipe, upd_pipes, upd_mem. cbn.
      by rewrite insert_insert_eq.
    + done.
    + done.
    + intros va Hva. rewrite R4 by done. unfold s1. cbn [mem upd_mem]. rewrite O4 by done. cbn [length].
      repeat case_decide; try lia; try done.
      * replace (Z.to_nat (va - addr - i)) with (S (Z.to_nat (va - addr - (i + 1)))) by lia. done.
      * replace (Z.to_nat (va - (addr + i))) with 0%nat by lia.
        replace (Z.to_nat (va - addr - i)) with 0%nat by lia. cbn. unfold u8.
        rewrite Z.mod_small by lia. done.
Qed.
End pread.

(** C30: [piperead] on a non-empty pipe does not block: it removes the first
    [min n |q|] bytes of the queue, stores them in order in user memory at
    [addr], changes no other byte of user memory, and returns their number. *)
Theorem piperead_removes s me p pi l x q addr n :
  pipe_ctx s me p pi l → LPipe pi ∉ locks s → pipes s !! pi = Some x → pipe_inv x q → q ≠ [] →
  Forall (λ c, 0 ≤ c < 256) q → 0 ≤ n → 0 ≤ addr → addr + n ≤ MAXVA →
  covered (mem s) (pr_pagetable p) addr n true →
  let k := Nat.min (Z.to_nat n) (length q) in
  ∃ x' m', piperead pi addr n s =
      Ok (Z.of_nat k) (set_pm pi x' m' (s <| upd_procs ::= wake_all (ChPipeW pi) (curproc s) |>)) ∧
    pipe_inv x' (drop k q) ∧
    ∀ va, 0 ≤ va < MAXVA → uread m' (pr_pagetable p) va =
      if decide (addr ≤ va < addr + Z.of_nat k) then Some (nth (Z.to_nat (va - addr)) q 0)
      else uread (mem s) (pr_pagetable p) va.
Proof.
  intros Hc HL Hx Hi Hq Hby Hn Ha Hb Hcov k. unfold piperead, myproc. mrun.
  rewrite (pc_cur _ _ _ _ _ Hc). mrun. rewrite (bind_ok _ _ _ _ _ (acquire_ok _ s HL)).
  set (s1 := s <| upd_locks ::= cons (LPipe pi) |>).
  assert (pipe_wait WAKEUPS me pi s1 = Ok true s1) as Ew.
  { unfold WAKEUPS. cbn [pipe_wait]. rewrite (bind_ok _ _ _ _ _ (getpipe_ok pi x s1 Hx)).
    rewrite (pipe_empty x q Hi), bool_decide_false by done. done. }
  rewrite (bind_ok _ _ _ _ _ Ew). cbn [negb].
  destruct (piperead_loop_ok me p pi addr l Ha (Z.to_nat n) 0 x q s1) as (x' & m' & E & H2 & H3 & H4); try done.
  - by apply pipe_ctx_lock.
  - lia.
  - rewrite Z.add_0_r, Z2Nat.id by done. exact Hcov.
  - fold k in E, H2, H4. rewrite (bind_ok _ _ _ _ _ E), Z.add_0_l.
    exists x', m'. split_and!; [|done|].
    + rewrite (wake_release _ _ _ _ (locks s)); [|done|apply Hc|apply (pc_len _ _ _ _ _ Hc)].
    rewrite <- (pc_cur _ _ _ _ _ Hc). by destruct s.
    + intros va Hva. rewrite H4, !Z.add_0_r, Z.sub_0_r by done. done.
Qed.

(** ** Witnesses *)

Definition demo_pipe : pipe := mk_pipe (<[511%nat := 65]> (replicate 512 0)) (2 ^ 32 - 1) 0 true true.
Lemma demo_pipe_inv : pipe_inv demo_pipe [65].
Proof.
  split; [by vm_compute|cbn; lia|done|unfold PIPESIZE; cbn; lia|].
  intros [|k] Hk; [by vm_compute|cbn in Hk; lia].
Qed.
Definition demo_proc : proc := proc0 <| upd_pr_pagetable := demo_root |>.
Definition demo_pstate (m : memory) (fl : Z) : kstate :=
  kstate0 <| upd_mem := m |> <| upd_freelist := fl |> <| upd_procs := [demo_proc] |>
    <| upd_curproc := Some 0%nat |> <| upd_pipes := {[ 0x87ff9000 := demo_pipe ]} |>.

Lemma demo_pipe_ctx m fl l :
  uvm_inv m fl l demo_root → pipe_ctx (demo_pstate m fl) 0 demo_proc 0x87ff9000 l.
Proof. intros H. split; try done; [cbn; unfold NPROC; lia|intros; apply not_elem_of_nil]. Qed.

Lemma demo_covered m w :
  xlate m demo_root 0 = Some (mkpte 0x87ff8000 (Z.lor (Z.lor PTE_R PTE_W) PTE_U)) →
  covered m demo_root 16 3 w.
Proof.
  intros Hx va Hva. exists (mkpte 0x87ff8000 (Z.lor (Z.lor PTE_R PTE_W) PTE_U)).
  replace (PGROUNDDOWN va) with 0; [done|]. rewrite PGROUNDDOWN_eq. unfold PGSIZE. zlia.
Qed.


Lemma piperead_removes_witness :
  ∃ s x' m', piperead 0x87ff9000 16 3 s =
      Ok 1 (set_pm 0x87ff9000 x' m' (s <| upd_procs ::= wake_all (ChPipeW 0x87ff9000) (curproc s) |>)) ∧
    pipe_inv x' [] ∧ uread m' demo_root 16 = Some 65.
Proof.
  destruct demo_mapped as (m & fl & l & Hu & Hx).
  destruct (piperead_removes (demo_pstate m fl) 0 demo_proc 0x87ff9000 l demo_pipe [65] 16 3)
    as (x' & m' & H1 & H2 & H3);
    [by apply demo_pipe_ctx|apply not_elem_of_nil|apply lookup_singleton_eq|apply demo_pipe_inv|done|
     by repeat constructor|lia|lia|done|by apply demo_covered|].
  exists (demo_pstate m fl), x', m'. split; [exact H1|]. split; [exact H2|].
  change (pr_pagetable demo_proc) with demo_root in H3. rewrite (H3 16), decide_True; [reflexivity|cbn; lia|done].
Defined.
