(* ===== verification/Fs.v ===== *)
(** * kernel/fs.c, kernel/fs.h: blocks, inodes, directories and path names

    The file system proper, on top of the buffer cache and the log: the block
    bitmap ([balloc], [bfree]), the inode table and the inodes on disk
    ([ialloc], [iget], [ilock], [iput], [iupdate], [itrunc]), file content
    ([bmap], [readi], [writei]), directories ([dirlookup], [dirlink],
    [findname]) and path names ([skipelem], [namex], [getcwd_path]).

    A pointer to an entry of the inode table is its index, NULL is [None]; a
    C string is the list of its characters without the terminating NUL; a
    structure on disk is read and written through the byte offsets the C
    layout gives its fields. *)

From S2P Require Import Prelude Bytes Riscv Kstate CString Kalloc Vm Sched Bio Log Printf Console.

(** ** kernel/fs.h *)

Definition ROOTINO : Z := 1.
Definition FSMAGIC : Z := 0x10203040.
Definition NINDIRECT : Z := BSIZE / 4.
Definition MAXFILE : Z := Z.of_nat NDIRECT + NINDIRECT.
Definition DINODE_SIZE : Z := 64.
Definition IPB : Z := BSIZE / DINODE_SIZE.
Definition IBLOCK (i : Z) (sb : superblock) : Z := u32 (i / IPB + sb_inodestart sb).
Definition BPB : Z := BSIZE * 8.
Definition BBLOCK (b : Z) (sb : superblock) : Z := u32 (b / BPB + sb_bmapstart sb).
Definition DIRSIZ : nat := 14.
Definition DIRENT_SIZE : Z := 16.

Definition T_DIR : Z := 1.
Definition T_FILE : Z := 2.
Definition T_DEVICE : Z := 3.

(** Conversion to a signed 16-bit [short]. *)
Definition s16 (x : Z) : Z := (x + 2 ^ 15) mod 2 ^ 16 - 2 ^ 15.

(** [struct dinode]: the fields of inode [inum] in the data of its block.
    The offset of [type] is 0, [major] 2, [minor] 4, [nlink] 6, [size] 8 and
    [addrs] 12. *)
Definition dip (inum : Z) : nat := Z.to_nat (DINODE_SIZE * (inum mod IPB)).
Definition di_type (d : list Z) (inum : Z) : Z := s16 (ldl 2 d (dip inum)).
Definition di_major (d : list Z) (inum : Z) : Z := s16 (ldl 2 d (dip inum + 2)).
Definition di_minor (d : list Z) (inum : Z) : Z := s16 (ldl 2 d (dip inum + 4)).
Definition di_nlink (d : list Z) (inum : Z) : Z := s16 (ldl 2 d (dip inum + 6)).
Definition di_size (d : list Z) (inum : Z) : Z := ldl 4 d (dip inum + 8).
Definition di_addrs (d : list Z) (inum : Z) : list Z :=
  (λ k, ldl 4 d (dip inum + 12 + 4 * k)) <$> seq 0 (S NDIRECT).

Fixpoint put_addrs (n k o : nat) (addrs : list Z) (d : list Z) : list Z :=
  match n with
  | O => d
  | S n => put_addrs n (S k) o addrs (stl 4 d (o + 4 * k) (nth k addrs 0))
  end.
(** What [iupdate] stores in the block. *)
Definition di_put (d : list Z) (ip : inode) : list Z :=
  let o := dip (i_inum ip) in
  let d := stl 2 d o (i_type ip) in
  let d := stl 2 d (o + 2) (i_major ip) in
  let d := stl 2 d (o + 4) (i_minor ip) in
  let d := stl 2 d (o + 6) (i_nlink ip) in
  let d := stl 4 d (o + 8) (i_size ip) in
  put_addrs (S NDIRECT) 0 (o + 12) (i_addrs ip) d.

(** [safestrcpy(dst, src, n)] on local arrays: the bytes after the NUL keep
    their value. *)
Definition arr_safestrcpy (n : nat) (dst src : list Z) : list Z :=
  let c := take (n - 1) (until_nul src) in c ++ 0 :: drop (S (length c)) dst.

(** [struct dirent]: [inum] at offset 0, [name] at offset 2. *)
Definition de_inum (de : list Z) : Z := ldl 2 de 0.
Definition de_name (de : list Z) : list Z := drop 2 de.

(** [n] zero bytes from offset [o]. *)
Fixpoint zero_bytes (n o : nat) (d : list Z) : list Z :=
  match n with O => d | S n => zero_bytes n (S o) (<[o := 0]> d) end.
(** The bytes [l] stored from offset [o]. *)
Fixpoint put_bytes (l : list Z) (o : nat) (d : list Z) : list Z :=
  match l with [] => d | c :: l => put_bytes l (S o) (<[o := u8 c]> d) end.

Definition setdata (b : nat) (f : list Z → list Z) : K () := updb b (λ x, x <| upd_b_data ::= f |>).

(** ** The super block *)

Definition sb_of (d : list Z) : superblock :=
  mk_superblock (ldl 4 d 0) (ldl 4 d 4) (ldl 4 d 8) (ldl 4 d 12) (ldl 4 d 16) (ldl 4 d 20)
    (ldl 4 d 24) (ldl 4 d 28).
Definition readsb (dev : Z) : K () :=
  bp ← bread dev 1;
  x ← getb bp;
  put upd_sb (sb_of (b_data x));;
  brelse bp.

(** ** Blocks *)

Definition bzero (dev bno : Z) : K () :=
  bp ← bread dev bno;
  setdata bp (λ d, zero_bytes (Z.to_nat BSIZE) 0 d);;
  log_write bp;;
  brelse bp.

Definition bit_byte (bi : Z) : nat := Z.to_nat (bi / 8).
Definition bit_mask (bi : Z) : Z := Z.shiftl 1 (bi mod 8).
Definition bit_set (d : list Z) (bi : Z) : bool := nz (Z.land (nth (bit_byte bi) d 0) (bit_mask bi)).

(** The inner loop of [balloc]: the first free bit of one bitmap block, of
    the [n] bits from [bi] on. *)
Fixpoint find_free_bit (n : nat) (d : list Z) (b bi size : Z) : option Z :=
  match n with
  | O => None
  | S n =>
      if negb (b + bi <? size) then None else
      if negb (bit_set d bi) then Some bi else find_free_bit n d b (bi + 1) size
  end.
Fixpoint balloc_loop (fuel : nat) (dev b : Z) : K Z :=
  match fuel with
  | O => nofuel
  | S fuel =>
      S ← gets sb;
      if negb (b <? sb_size S) then
        kprintf (line "balloc: out of blocks") [];; mret 0
      else
        bp ← bread dev (BBLOCK b S);
        x ← getb bp;
        match find_free_bit (Z.to_nat BPB) (b_data x) b 0 (sb_size S) with
        | Some bi =>
            setdata bp (λ d, <[bit_byte bi := Z.lor (nth (bit_byte bi) d 0) (bit_mask bi)]> d);;
            log_write bp;;
            brelse bp;;
            bzero dev (b + bi);;
            mret (b + bi)
        | None => brelse bp;; balloc_loop fuel dev (b + BPB)
        end
  end.
Definition balloc (dev : Z) : K Z :=
  S ← gets sb; balloc_loop (Datatypes.S (Datatypes.S (Z.to_nat (sb_size S / BPB)))) dev 0.

Definition bfree (dev b : Z) : K () :=
  S ← gets sb;
  bp ← bread dev (BBLOCK b S);
  let bi := b mod BPB in
  x ← getb bp;
  if negb (bit_set (b_data x) bi) then panic "freeing free block" else
  setdata bp (λ d, <[bit_byte bi := Z.land (nth (bit_byte bi) d 0) (Z.lnot (bit_mask bi))]> d);;
  log_write bp;;
  brelse bp.

(** ** Inodes *)

Definition geti (i : nat) : K inode :=
  I ← gets itable; match I !! i with Some x => mret x | None => panic "kerneltrap" end.
Definition updi (i : nat) (f : inode → inode) : K () := update upd_itable (alter f i).

Fixpoint iinit_loop (n i : nat) : K () :=
  match n with O => mret () | S n => initsleeplock (SlInode i);; iinit_loop n (S i) end.
Definition iinit : K () := iinit_loop NINODE 0.

(** The scan of [iget]: the entry for the inode, or the first empty one. *)
Fixpoint iget_scan (I : list inode) (ip : nat) (dev inum : Z) (empty : option nat) : bool * option nat :=
  match I with
  | [] => (false, empty)
  | x :: rest =>
      if (0 <? i_ref x) && (i_dev x =? dev) && (i_inum x =? inum) then (true, Some ip)
      else iget_scan rest (S ip) dev inum
             (if bool_decide (empty = None) && (i_ref x =? 0) then Some ip else empty)
  end.
Definition iget (dev inum : Z) : K nat :=
  acquire LItable;;
  I ← gets itable;
  match iget_scan I 0 dev inum None with
  | (true, Some ip) =>
      updi ip (λ x, x <| upd_i_ref ::= λ r, r + 1 |>);;
      release LItable;;
      mret ip
  | (false, Some ip) =>
      updi ip (λ x, x <| upd_i_dev := dev |> <| upd_i_inum := inum |> <| upd_i_ref := 1 |>
                      <| upd_i_valid := false |>);;
      release LItable;;
      mret ip
  | (_, None) => panic "iget: no inodes"
  end.

Fixpoint ialloc_loop (fuel : nat) (dev type inum : Z) : K (option nat) :=
  match fuel with
  | O => nofuel
  | S fuel =>
      S ← gets sb;
      if negb (inum <? sb_ninodes S) then
        kprintf (line "ialloc: no inodes") [];; mret None
      else
        bp ← bread dev (IBLOCK inum S);
        x ← getb bp;
        if di_type (b_data x) inum =? 0 then
          setdata bp (λ d, stl 2 (zero_bytes (Z.to_nat DINODE_SIZE) (dip inum) d) (dip inum) type);;
          log_write bp;;
          brelse bp;;
          ip ← iget dev inum;
          mret (Some ip)
        else
          brelse bp;; ialloc_loop fuel dev type (inum + 1)
  end.
Definition ialloc (dev type : Z) : K (option nat) :=
  S ← gets sb; ialloc_loop (Datatypes.S (Z.to_nat (sb_ninodes S))) dev type 1.

Definition iupdate (ip : nat) : K () :=
  x ← geti ip;
  S ← gets sb;
  bp ← bread (i_dev x) (IBLOCK (i_inum x) S);
  x ← geti ip;
  setdata bp (λ d, di_put d x);;
  log_write bp;;
  brelse bp.

Definition idup (ip : nat) : K nat :=
  acquire LItable;;
  updi ip (λ x, x <| upd_i_ref ::= λ r, r + 1 |>);;
  release LItable;;
  mret ip.

(** What [ilock] copies from the disk into the table entry. *)
Definition di_get (d : list Z) (x : inode) : inode :=
  let k := i_inum x in
  x <| upd_i_type := di_type d k |> <| upd_i_major := di_major d k |>
    <| upd_i_minor := di_minor d k |> <| upd_i_nlink := di_nlink d k |>
    <| upd_i_size := di_size d k |> <| upd_i_addrs := di_addrs d k |>.

Definition ilock (ip : nat) : K () :=
  x ← geti ip;
  if i_ref x <? 1 then panic "ilock" else
  acquiresleep (SlInode ip);;
  x ← geti ip;
  whenM (negb (i_valid x))
    (S ← gets sb;
     bp ← bread (i_dev x) (IBLOCK (i_inum x) S);
     y ← getb bp;
     updi ip (di_get (b_data y));;
     brelse bp;;
     updi ip (λ x, x <| upd_i_valid := true |>);;
     x ← geti ip;
     if i_type x =? 0 then panic "ilock: no type" else mret ()).

Definition iunlock (ip : nat) : K () :=
  h ← holdingsleep (SlInode ip);
  x ← geti ip;
  if negb h || (i_ref x <? 1) then panic "iunlock" else
  releasesleep (SlInode ip).

(** ** Truncation *)

Fixpoint itrunc_direct (n i ip : nat) : K () :=
  match n with
  | O => mret ()
  | S n =>
      x ← geti ip;
      whenM (nz (nth i (i_addrs x) 0))
        (bfree (i_dev x) (nth i (i_addrs x) 0);;
         updi ip (λ x, x <| upd_i_addrs ::= <[i := 0]> |>));;
      itrunc_direct n (S i) ip
  end.
Fixpoint itrunc_indirect (n j bp : nat) (dev : Z) : K () :=
  match n with
  | O => mret ()
  | S n =>
      y ← getb bp;
      let a := ldl 4 (b_data y) (4 * j) in
      whenM (nz a) (bfree dev a);;
      itrunc_indirect n (S j) bp dev
  end.
Definition itrunc (ip : nat) : K () :=
  itrunc_direct NDIRECT 0 ip;;
  x ← geti ip;
  whenM (nz (nth NDIRECT (i_addrs x) 0))
    (bp ← bread (i_dev x) (nth NDIRECT (i_addrs x) 0);
     itrunc_indirect (Z.to_nat NINDIRECT) 0 bp (i_dev x);;
     brelse bp;;
     x ← geti ip;
     bfree (i_dev x) (nth NDIRECT (i_addrs x) 0);;
     updi ip (λ x, x <| upd_i_addrs ::= <[NDIRECT := 0]> |>));;
  updi ip (λ x, x <| upd_i_size := 0 |>);;
  iupdate ip.

Definition iput (ip : nat) : K () :=
  acquire LItable;;
  x ← geti ip;
  whenM ((i_ref x =? 1) && i_valid x && (i_nlink x =? 0))
    (acquiresleep (SlInode ip);;
     release LItable;;
     itrunc ip;;
     updi ip (λ x, x <| upd_i_type := 0 |>);;
     iupdate ip;;
     updi ip (λ x, x <| upd_i_valid := false |>);;
     releasesleep (SlInode ip);;
     acquire LItable);;
  updi ip (λ x, x <| upd_i_ref ::= λ r, r - 1 |>);;
  release LItable.

Definition iunlockput (ip : nat) : K () := iunlock ip;; iput ip.

Fixpoint ireclaim_loop (fuel : nat) (dev inum : Z) : K () :=
  match fuel with
  | O => nofuel
  | S fuel =>
      S ← gets sb;
      if negb (inum <? sb_ninodes S) then mret () else
      bp ← bread dev (IBLOCK inum S);
      y ← getb bp;
      ip ← (if nz (di_type (b_data y) inum) && (di_nlink (b_data y) inum =? 0) then
              kprintf (line "ireclaim: orphaned inode %d") [VInt inum];;
              ip ← iget dev inum; mret (Some ip)
            else mret None);
      brelse bp;;
      match ip with
      | Some ip => begin_op;; ilock ip;; iunlock ip;; iput ip;; end_op
      | None => mret ()
      end;;
      ireclaim_loop fuel dev (inum + 1)
  end.
Definition ireclaim (dev : Z) : K () :=
  S ← gets sb; ireclaim_loop (Datatypes.S (Z.to_nat (sb_ninodes S))) dev 1.

Definition fsinit (dev : Z) : K () :=
  readsb dev;;
  S ← gets sb;
  if negb (sb_magic S =? FSMAGIC) then panic "invalid file system" else
  initlog dev S;;
  ireclaim dev.

(** ** Content *)

Definition bmap (ip : nat) (bn : Z) : K Z :=
  x ← geti ip;
  if bn <? Z.of_nat NDIRECT then
    let addr := nth (Z.to_nat bn) (i_addrs x) 0 in
    if addr =? 0 then
      addr ← balloc (i_dev x);
      if addr =? 0 then mret 0 else
      updi ip (λ x, x <| upd_i_addrs ::= <[Z.to_nat bn := addr]> |>);;
      mret addr
    else mret addr
  else
  let bn := bn - Z.of_nat NDIRECT in
  if bn <? NINDIRECT then
    let addr := nth NDIRECT (i_addrs x) 0 in
    addr ← (if addr =? 0 then
              addr ← balloc (i_dev x);
              if addr =? 0 then mret 0 else
              updi ip (λ x, x <| upd_i_addrs ::= <[NDIRECT := addr]> |>);;
              mret addr
            else mret addr);
    if addr =? 0 then mret 0 else
    bp ← bread (i_dev x) addr;
    y ← getb bp;
    let addr := ldl 4 (b_data y) (Z.to_nat (4 * bn)) in
    addr ← (if addr =? 0 then
              addr ← balloc (i_dev x);
              whenM (nz addr)
                (setdata bp (λ d, stl 4 d (Z.to_nat (4 * bn)) addr);; log_write bp);;
              mret addr
            else mret addr);
    brelse bp;;
    mret addr
  else panic "bmap: out of range".

(** [struct stat] as the bytes [copyout] sends: [dev] (int), [ino] (uint),
    [type], [nlink] (short), four bytes of padding, [size] (uint64). *)
Definition STAT_SIZE : nat := 24.
Definition stati (x : inode) (st : list Z) : list Z :=
  let st := stl 4 st 0 (i_dev x) in
  let st := stl 4 st 4 (i_inum x) in
  let st := stl 2 st 8 (i_type x) in
  let st := stl 2 st 10 (i_nlink x) in
  stl 8 st 16 (i_size x).

(** Content is copied in pieces that end at block boundaries.  The result is
    the C return value and the bytes read. *)
Definition piece (tot n off : Z) : Z := Z.min (n - tot) (BSIZE - off mod BSIZE).
Fixpoint readi_loop (fuel : nat) (ip : nat) (dst : dest) (tot off n : Z) : K (Z * list Z) :=
  match fuel with
  | O => nofuel
  | S fuel =>
      if negb (tot <? n) then mret (tot, []) else
      addr ← bmap ip (off / BSIZE);
      if addr =? 0 then mret (tot, []) else
      x ← geti ip;
      bp ← bread (i_dev x) addr;
      let m := piece tot n off in
      y ← getb bp;
      let bytes := take (Z.to_nat m) (drop (Z.to_nat (off mod BSIZE)) (b_data y)) in
      r ← either_copyout dst bytes;
      if r =? -1 then brelse bp;; mret (-1, bytes) else
      brelse bp;;
      q ← readi_loop fuel ip (dest_add dst m) (tot + m) (u32 (off + m)) n;
      mret (q.1, bytes ++ q.2)
  end.
Definition content_fuel (n : Z) : nat := S (S (S (Z.to_nat (n / BSIZE)))).
Definition readi (ip : nat) (dst : dest) (off n : Z) : K (Z * list Z) :=
  x ← geti ip;
  if (i_size x <? off) || (u32 (off + n) <? off) then mret (0, []) else
  let n := if i_size x <? u32 (off + n) then i_size x - off else n in
  r ← readi_loop (content_fuel n) ip dst 0 off n;
  mret (s32 r.1, r.2).

Fixpoint writei_loop (fuel : nat) (ip : nat) (src : source) (tot off n : Z) : K (Z * Z) :=
  match fuel with
  | O => nofuel
  | S fuel =>
      if negb (tot <? n) then mret (tot, off) else
      addr ← bmap ip (off / BSIZE);
      if addr =? 0 then mret (tot, off) else
      x ← geti ip;
      bp ← bread (i_dev x) addr;
      let m := piece tot n off in
      r ← either_copyin src m;
      setdata bp (λ d, put_bytes r.2 (Z.to_nat (off mod BSIZE)) d);;
      if r.1 =? -1 then brelse bp;; mret (tot, off) else
      log_write bp;;
      brelse bp;;
      writei_loop fuel ip (source_add src m) (tot + m) (u32 (off + m)) n
  end.
Definition writei (ip : nat) (src : source) (off n : Z) : K Z :=
  x ← geti ip;
  if (i_size x <? off) || (u32 (off + n) <? off) then mret (-1) else
  if MAXFILE * BSIZE <? u32 (off + n) then mret (-1) else
  r ← writei_loop (content_fuel n) ip src 0 off n;
  x ← geti ip;
  whenM (i_size x <? r.2) (updi ip (λ x, x <| upd_i_size := r.2 |>));;
  iupdate ip;;
  mret (s32 r.1).

(** ** Directories *)

(** The characters of an array, as [strncmp] indexes them. *)
Definition chars (l : list Z) : Z → Z := λ i, nth (Z.to_nat i) l 0.
Definition namecmp (s t : list Z) : Z := strncmp (chars s) (chars t) (Z.of_nat DIRSIZ).

(** [readi(dp, 0, (uint64)&de, off, sizeof(de))] *)
Definition read_dirent (dp : nat) (off : Z) (msg : string) : K (list Z) :=
  r ← readi dp DLocal off DIRENT_SIZE;
  if negb (r.1 =? DIRENT_SIZE) then panic msg else mret r.2.

Definition dir_fuel (x : inode) : nat := S (S (Z.to_nat (i_size x / DIRENT_SIZE))).
(** The result is the entry's inode and its offset ([*poff]). *)
Fixpoint dirlookup_loop (fuel : nat) (dp : nat) (name : list Z) (off : Z) : K (option (nat * Z)) :=
  match fuel with
  | O => nofuel
  | S fuel =>
      x ← geti dp;
      if negb (off <? i_size x) then mret None else
      de ← read_dirent dp off "dirlookup read";
      if negb (de_inum de =? 0) && (namecmp name (de_name de) =? 0) then
        ip ← iget (i_dev x) (de_inum de);
        mret (Some (ip, off))
      else dirlookup_loop fuel dp name (u32 (off + DIRENT_SIZE))
  end.
Definition dirlookup (dp : nat) (name : list Z) : K (option (nat * Z)) :=
  x ← geti dp;
  if negb (i_type x =? T_DIR) then panic "dirlookup not DIR" else
  dirlookup_loop (dir_fuel x) dp name 0.

(** The offset of the first empty entry, or the end of the directory. *)
Fixpoint dirlink_slot (fuel : nat) (dp : nat) (off : Z) : K Z :=
  match fuel with
  | O => nofuel
  | S fuel =>
      x ← geti dp;
      if negb (off <? i_size x) then mret off else
      de ← read_dirent dp off "dirlink read";
      if de_inum de =? 0 then mret off else dirlink_slot fuel dp (off + DIRENT_SIZE)
  end.
(** [strncpy(de.name, name, DIRSIZ)] *)
Definition pad_name (name : list Z) : list Z :=
  let c := take DIRSIZ (until_nul name) in c ++ replicate (DIRSIZ - length c) 0.
Definition mk_dirent (name : list Z) (inum : Z) : list Z :=
  [u8 inum; u8 (inum / 256)] ++ pad_name name.
Definition dirlink (dp : nat) (name : list Z) (inum : Z) : K Z :=
  r ← dirlookup dp name;
  match r with
  | Some (ip, _) => iput ip;; mret (-1)
  | None =>
      x ← geti dp;
      off ← dirlink_slot (dir_fuel x) dp 0;
      w ← writei dp (SLocal (mk_dirent name inum)) off DIRENT_SIZE;
      mret (if negb (w =? DIRENT_SIZE) then -1 else 0)
  end.

(** ** Paths *)

Definition SLASH : Z := 47.
Fixpoint skip_slashes (path : list Z) : list Z :=
  match path with c :: p => if c =? SLASH then skip_slashes p else path | [] => [] end.
(** The characters up to the next slash, and the rest. *)
Fixpoint path_elem (path : list Z) : list Z * list Z :=
  match path with
  | c :: p => if c =? SLASH then ([], path) else let r := path_elem p in (c :: r.1, r.2)
  | [] => ([], [])
  end.
(** The rest of the path and the new content of the array [name]. *)
Definition skipelem (path name : list Z) : option (list Z * list Z) :=
  let path := skip_slashes path in
  match path with
  | [] => None
  | _ =>
      let r := path_elem path in
      let len := length r.1 in
      let name := if (DIRSIZ <=? len)%nat then take DIRSIZ r.1
                  else r.1 ++ 0 :: drop (S len) name in
      Some (skip_slashes r.2, name)
  end.

(** The array [name] is the caller's: the result has its final content. *)
Fixpoint namex_loop (fuel : nat) (ip : nat) (path : list Z) (nameiparent : bool) (name : list Z) :
    K (option nat * list Z) :=
  match fuel with
  | O => nofuel
  | S fuel =>
      match skipelem path name with
      | None => if nameiparent then iput ip;; mret (None, name) else mret (Some ip, name)
      | Some (path, name) =>
          ilock ip;;
          x ← geti ip;
          if negb (i_type x =? T_DIR) then iunlockput ip;; mret (None, name) else
          if nameiparent && bool_decide (path = []) then iunlock ip;; mret (Some ip, name) else
          next ← dirlookup ip name;
          match next with
          | None => iunlockput ip;; mret (None, name)
          | Some (next, _) => iunlockput ip;; namex_loop fuel next path nameiparent name
          end
      end
  end.
Definition proc_cwd : K nat :=
  i ← myproc;
  p ← getproc i;
  match pr_cwd p with Some ip => mret ip | None => panic "kerneltrap" end.
Definition namex (path : list Z) (nameiparent : bool) (name : list Z) : K (option nat * list Z) :=
  ip ← (if bool_decide (head path = Some SLASH) then iget ROOTDEV ROOTINO
        else (cwd ← proc_cwd; idup cwd));
  namex_loop (S (length path)) ip path nameiparent name.

(** A local array the code has not written yet. *)
Definition fresh_name : list Z := replicate DIRSIZ 0.
Definition namei (path : list Z) : K (option nat) :=
  r ← namex path false fresh_name; mret r.1.
Definition nameiparent (path : list Z) : K (option nat * list Z) := namex path true fresh_name.

Fixpoint findname_loop (fuel : nat) (dp : nat) (inum : Z) (name : list Z) (off : Z) : K (Z * list Z) :=
  match fuel with
  | O => nofuel
  | S fuel =>
      x ← geti dp;
      if negb (off <? i_size x) then mret (-1, name) else
      de ← read_dirent dp off "findname: readi";
      if de_inum de =? inum then mret (0, arr_safestrcpy DIRSIZ name (de_name de))
      else findname_loop fuel dp inum name (off + DIRENT_SIZE)
  end.
Definition findname (dp : nat) (inum : Z) (name : list Z) : K (Z * list Z) :=
  x ← geti dp;
  if negb (i_type x =? T_DIR) then mret (-1, name) else
  findname_loop (dir_fuel x) dp inum name 0.

(** [buf] points into kernel memory; [fuel] bounds the depth of the tree. *)
Fixpoint getcwd_loop (fuel : nat) (ip : nat) (buf size len : Z) (name : list Z) : K Z :=
  match fuel with
  | O => nofuel
  | S fuel =>
      root ← namei [SLASH];
      if bool_decide (root = Some ip) then mret len else
      parent ← dirlookup ip [46; 46];
      match parent with
      | None => mret len
      | Some (parent, _) =>
          ilock parent;;
          x ← geti ip;
          r ← findname parent (i_inum x) name;
          iunlock parent;;
          let name := r.2 in
          let n := Z.of_nat (length (until_nul name)) in
          if size <? len + n + 2 then mret len else
          update upd_mem (λ m, memmove m (buf + len + 1) buf len);;
          update upd_mem (λ m, wr m buf SLASH);;
          update upd_mem (λ m, wr_list m (buf + 1) (take (Z.to_nat n) name));;
          iput ip;;
          getcwd_loop fuel parent buf size (len + n + 1) name
      end
  end.
Definition getcwd_path (fuel : nat) (ip : nat) (buf size : Z) : K Z :=
  len ← getcwd_loop fuel ip buf size 0 fresh_name;
  update upd_mem (λ m, wr m (buf + len) 0);;
  mret len.
