(* ===== verification/FsPath.v ===== *)
(** * Properties of kernel/fs.c: path names and inodes on disk

    [skipelem], called again and again as [namex] does, walks the elements of
    a path: the maximal runs of characters other than '/', each cut to DIRSIZ
    characters.  And [iupdate]'s and [ilock]'s encodings of an inode in its
    block are inverse to each other and leave the other inodes of the block
    alone. *)

From S2P Require Import Prelude Bytes Riscv Kstate CString Kalloc Vm Sched Bio Log Printf Console Fs.

(** ** Elements of a path *)

(** The pieces between slashes, the empty ones included. *)
Fixpoint segments (path : list Z) : list (list Z) :=
  match path with
  | [] => [[]]
  | c :: p =>
      if c =? SLASH then [] :: segments p
      else match segments p with s :: r => (c :: s) :: r | [] => [[c]] end
  end.
Definition elements (path : list Z) : list (list Z) := List.filter (λ s, negb (bool_decide (s = []))) (segments path).

(** The string an array of DIRSIZ bytes holds. *)
Definition name_str (name : list Z) : list Z := take DIRSIZ (until_nul name).

(** The names [namex] looks up, one after the other. *)
Fixpoint names (fuel : nat) (path name : list Z) : list (list Z) :=
  match fuel with
  | O => []
  | S fuel =>
      match skipelem path name with
      | None => []
      | Some (path, name) => name_str name :: names fuel path name
      end
  end.

Lemma segments_ne p : segments p ≠ [].
Proof. destruct p as [|c p]; cbn; [done|]. destruct (c =? SLASH); [done|]. by destruct (segments p). Qed.

Lemma elements_slash c p : c = SLASH → elements (c :: p) = elements p.
Proof. intros ->. done. Qed.

Lemma elements_skip p : elements (skip_slashes p) = elements p.
Proof. induction p as [|c p IH]; [done|]. cbn [skip_slashes]. destruct (c =? SLASH) eqn:E; [|done].
  zbool. by rewrite IH, elements_slash. Qed.

Lemma skip_head p : match skip_slashes p with [] => True | c :: _ => c ≠ SLASH end.
Proof. induction p as [|c p IH]; [done|]. cbn. destruct (c =? SLASH) eqn:E; zbool; done. Qed.

Lemma path_elem_spec p :
  p = (path_elem p).1 ++ (path_elem p).2 ∧ (SLASH ∉ (path_elem p).1) ∧
  match (path_elem p).2 with [] => True | c :: _ => c = SLASH end ∧
  match p with [] => True | c :: _ => c ≠ SLASH → (path_elem p).1 ≠ [] end.
Proof.
  induction p as [|c p (I1 & I2 & I3 & I4)]; cbn; [split_and!; try done; apply not_elem_of_nil|].
  destruct (c =? SLASH) eqn:E; zbool; cbn.
  - split_and!; try done. apply not_elem_of_nil.
  - rewrite <- I1. split_and!; try done. apply not_elem_of_cons. split; [congruence|done].
Qed.

Lemma segments_app e r :
  SLASH ∉ e → match r with [] => True | c :: _ => c = SLASH end →
  segments (e ++ r) = e :: match r with [] => [] | _ :: r' => segments r' end.
Proof.
  intros He Hr. induction e as [|c e IH].
  - destruct r as [|c r]; [done|]. subst c. done.
  - apply not_elem_of_cons in He as [Hc He]. cbn [segments app].
    destruct (c =? SLASH) eqn:E; zbool; [congruence|]. by rewrite IH.
Qed.

Lemma elements_app e r :
  e ≠ [] → SLASH ∉ e → match r with [] => True | c :: _ => c = SLASH end →
  elements (e ++ r) = e :: elements r.
Proof.
  intros Hn He Hr. unfold elements. rewrite segments_app by done. cbn [List.filter].
  rewrite bool_decide_false by done. cbn. f_equal. destruct r as [|c r]; [done|]. subst c. done.
Qed.

Lemma elements_slash_free p e : e ∈ elements p → e ≠ [].
Proof. intros H. apply list_elem_of_In, List.filter_In in H as [_ H]. by case_bool_decide. Qed.

(** ** skipelem *)

Lemma until_nul_id l : 0 ∉ l → until_nul l = l.
Proof.
  induction l as [|c l IH]; [done|]. intros [H1 H2]%not_elem_of_cons. cbn.
  destruct (c =? 0) eqn:E; zbool; [congruence|]. by rewrite IH.
Qed.
Lemma until_nul_app l l' : 0 ∉ l → until_nul (l ++ 0 :: l') = l.
Proof.
  induction l as [|c l IH]; [done|]. intros [H1 H2]%not_elem_of_cons. cbn.
  destruct (c =? 0) eqn:E; zbool; [congruence|]. by rewrite IH.
Qed.

Lemma skipelem_spec path name :
  0 ∉ path →
  match skipelem path name with
  | None => elements path = []
  | Some (rest, name') =>
      ∃ e, elements path = e :: elements rest ∧ name_str name' = take DIRSIZ e ∧
        (0 ∉ rest) ∧ (length rest < length path)%nat ∧ (rest = [] ↔ elements rest = [])
  end.
Proof.
  intros H0. unfold skipelem. pose proof (elements_skip path) as Hel. pose proof (skip_head path) as Hh.
  assert ((0 ∉ skip_slashes path) ∧ (length (skip_slashes path) ≤ length path)%nat) as [Hs Hlen].
  { clear Hel Hh. induction path as [|c p IH]; [done|]. apply not_elem_of_cons in H0 as [A B]. cbn.
    destruct (c =? SLASH); [destruct IH; [done|]; split; [done|lia]|].
    split; [by apply not_elem_of_cons|done]. }
  destruct (skip_slashes path) as [|c p] eqn:Es; [by rewrite <- Hel|].
  destruct (path_elem_spec (c :: p)) as (P1 & P2 & P3 & P4). specialize (P4 Hh).
  set (e := (path_elem (c :: p)).1) in *. set (r := (path_elem (c :: p)).2) in *.
  assert ((0 ∉ e) ∧ (0 ∉ r)) as [H0e H0r].
  { rewrite P1 in Hs. by apply not_elem_of_app in Hs. }
  exists e. split_and!.
  - rewrite <- Hel, P1, elements_app, elements_skip by done. done.
  - unfold name_str. destruct (DIRSIZ <=? length e)%nat eqn:El.
    + rewrite until_nul_id; [by rewrite take_take, Nat.min_id|]. intros H. apply H0e.
      rewrite <- (take_drop DIRSIZ e). apply elem_of_app. by left.
    + by rewrite until_nul_app.
  - clear -H0r. induction r as [|x r IH]; [done|]. apply not_elem_of_cons in H0r as [A B]. cbn.
    destruct (x =? SLASH); [by apply IH|by apply not_elem_of_cons].
  - assert (length (skip_slashes r) ≤ length r)%nat.
    { clear. induction r as [|x r IH]; [done|]. cbn. destruct (x =? SLASH); cbn; lia. }
    assert (length (c :: p) = length e + length r)%nat as Hl by (rewrite P1; apply length_app).
    destruct e; [done|]. cbn in *. lia.
  - split; [by intros ->|]. intros Hn. pose proof (skip_head r) as Hr. destruct (skip_slashes r) as [|x q]; [done|].
    destruct (path_elem_spec (x :: q)) as (Q1 & Q2 & Q3 & Q4). specialize (Q4 Hr).
    rewrite Q1, elements_app in Hn by done. done.
Qed.

(** The names [namex] gets from [skipelem], starting from any path and
    any content of the array [name], are the path's elements in order, each
    cut to DIRSIZ characters; its loop ends after at most [length path] names;
    and the test for the last element ("*path == '\0'" after the call) is
    right. *)
Theorem skipelem_walks_elements path name :
  0 ∉ path →
  names (S (length path)) path name = take DIRSIZ <$> elements path ∧
  (length (elements path) ≤ length path)%nat ∧
  ∀ rest name', skipelem path name = Some (rest, name') → (rest = [] ↔ length (elements path) = 1%nat).
Proof.
  intros H0. split_and!.
  - assert (∀ n, (length path < n)%nat → names n path name = take DIRSIZ <$> elements path) as H; [|apply H; lia].
    intros n. revert path name H0. induction n as [|n IH]; intros path name H0 Hn; [lia|]. cbn [names].
    pose proof (skipelem_spec path name H0) as Hs. destruct (skipelem path name) as [[rest name']|]; [|by rewrite Hs].
    destruct Hs as (e & -> & -> & H0r & Hl & _). cbn. f_equal. apply IH; [done|lia].
  - assert (∀ n, (length path < n)%nat → (length (elements path) ≤ length path)%nat) as H;
      [|apply (H (S (length path))); lia].
    intros n. revert path name H0. induction n as [|n IH]; intros path name H0 Hn; [lia|].
    pose proof (skipelem_spec path name H0) as Hs.
    destruct (skipelem path name) as [[rest name']|]; [|rewrite Hs; cbn; lia].
    destruct Hs as (e & -> & _ & H0r & Hl & _). cbn. specialize (IH rest name' H0r ltac:(lia)). lia.
  - intros rest name' E. pose proof (skipelem_spec path name H0) as Hs. rewrite E in Hs.
    destruct Hs as (e & -> & _ & _ & _ & ->). cbn. split; [by intros ->|]. intros [= H]. by apply nil_length_inv.
Qed.

Lemma skipelem_walks_elements_witness :
  names 20 (codes "//usr//a-very-long-name/x") fresh_name = [codes "usr"; codes "a-very-long-na"; codes "x"] ∧
  elements (codes "//usr//a-very-long-name/x") = [codes "usr"; codes "a-very-long-name"; codes "x"] ∧
  (length (elements (codes "//usr//a-very-long-name/x")) ≤ 25)%nat.
Proof.
  split; [reflexivity|]. split; [reflexivity|].
  apply (skipelem_walks_elements (codes "//usr//a-very-long-name/x") fresh_name).
  apply (bool_decide_unpack _). vm_compute. exact I.
Defined.

(** ** Inodes in their block *)

Lemma length_put_addrs n k o a d : length (put_addrs n k o a d) = length d.
Proof. revert k d. induction n as [|n IH]; intros k d; [done|]. cbn [put_addrs]. by rewrite IH, length_stl. Qed.

Lemma ldl_put_addrs_out n k o a d w o' :
  (o' + w ≤ o + 4 * k ∨ o + 4 * (k + n) ≤ o')%nat → ldl w (put_addrs n k o a d) o' = ldl w d o'.
Proof.
  revert k d. induction n as [|n IH]; intros k d H; [done|]. cbn [put_addrs].
  rewrite IH by lia. apply ldl_stl_ne. lia.
Qed.

Lemma ldl_put_addrs n k o a d j :
  (k ≤ j < k + n)%nat → (o + 4 * (k + n) ≤ length d)%nat → 0 ≤ nth j a 0 < 2 ^ 32 →
  ldl 4 (put_addrs n k o a d) (o + 4 * j) = nth j a 0.
Proof.
  revert k d. induction n as [|n IH]; intros k d Hj Hl Ha; [lia|]. cbn [put_addrs].
  destruct (decide (j = k)) as [->|Hne].
  - rewrite ldl_put_addrs_out by lia. apply ldl_stl_eq; [lia|]. by change (256 ^ Z.of_nat 4) with (2 ^ 32).
  - apply IH; [lia|rewrite length_stl; lia|done].
Qed.

Lemma s16_ldl d o v : (o + 2 ≤ length d)%nat → - 2 ^ 15 ≤ v < 2 ^ 15 → s16 (ldl 2 (stl 2 d o v) o) = v.
Proof.
  intros Hl Hv. rewrite ldl_stl by done. change (256 ^ Z.of_nat 2) with (2 ^ 16). unfold s16.
  rewrite Zplus_mod_idemp_l, Z.mod_small by lia. lia.
Qed.

(** The values the fields can hold. *)
Record inode_wf (x : inode) : Prop := {
  iw_type : - 2 ^ 15 ≤ i_type x < 2 ^ 15;
  iw_major : - 2 ^ 15 ≤ i_major x < 2 ^ 15;
  iw_minor : - 2 ^ 15 ≤ i_minor x < 2 ^ 15;
  iw_nlink : - 2 ^ 15 ≤ i_nlink x < 2 ^ 15;
  iw_size : 0 ≤ i_size x < 2 ^ 32;
  iw_len : length (i_addrs x) = S NDIRECT;
  iw_addrs a : a ∈ i_addrs x → 0 ≤ a < 2 ^ 32
}.

Lemma dip_bound inum : (dip inum + 64 ≤ Z.to_nat BSIZE)%nat.
Proof. unfold dip, DINODE_SIZE, BSIZE. change IPB with 16. zlia. Qed.
Lemma dip_sep i j : i mod IPB ≠ j mod IPB → (dip i + 64 ≤ dip j ∨ dip j + 64 ≤ dip i)%nat.
Proof. intros H. unfold dip, DINODE_SIZE. change IPB with 16 in *. zlia. Qed.

(** A field of another inode of the block. *)
Lemma di_put_out d x w o : (o + w ≤ dip (i_inum x) ∨ dip (i_inum x) + 64 ≤ o)%nat → ldl w (di_put d x) o = ldl w d o.
Proof.
  intros H. unfold di_put. cbn zeta. rewrite ldl_put_addrs_out by (unfold NDIRECT; lia).
  rewrite !ldl_stl_ne by lia. done.
Qed.

(** [iupdate]'s encoding of an inode is read back by [ilock]: storing a
    table entry in the inode's slot of its block and loading it into any
    entry for the same inode gives the same type, device numbers, link count,
    size and block addresses; loading any inode of another slot gives what
    was there before. *)
Theorem dinode_roundtrip d x y :
  length d = Z.to_nat BSIZE → inode_wf x →
  (i_inum y = i_inum x →
     di_get (di_put d x) y =
     mk_inode (i_dev y) (i_inum y) (i_ref y) (i_lock y) (i_valid y) (i_type x) (i_major x) (i_minor x)
       (i_nlink x) (i_size x) (i_addrs x)) ∧
  (i_inum y mod IPB ≠ i_inum x mod IPB → di_get (di_put d x) y = di_get d y).
Proof.
  intros Hl [W1 W2 W3 W4 W5 W6 W7]. split.
  - intros Hy. unfold di_get, upd_i_type, upd_i_major, upd_i_minor, upd_i_nlink, upd_i_size, upd_i_addrs.
    rewrite Hy. pose proof (dip_bound (i_inum x)) as Hb. rewrite <- Hl in Hb.
    cbn [i_dev i_inum i_ref i_lock i_valid i_type i_major i_minor i_nlink i_size i_addrs]. f_equal.
    all: unfold di_type, di_major, di_minor, di_nlink, di_size, di_put; cbn zeta.
    1-5: rewrite ldl_put_addrs_out by (unfold NDIRECT; lia).
    + rewrite !(ldl_stl_ne 2) by lia. apply s16_ldl; [lia|done].
    + rewrite !(ldl_stl_ne 2 _ _ _ (dip _ + 2)) by lia. apply s16_ldl; [rewrite !length_stl; lia|done].
    + rewrite !(ldl_stl_ne 2 _ _ _ (dip _ + 4)) by lia. apply s16_ldl; [rewrite !length_stl; lia|done].
    + rewrite !(ldl_stl_ne 2 _ _ _ (dip _ + 6)) by lia. apply s16_ldl; [rewrite !length_stl; lia|done].
    + apply ldl_stl_eq; [rewrite !length_stl; lia|]. by change (256 ^ Z.of_nat 4) with (2 ^ 32).
    + apply (nth_ext _ _ 0 0); [unfold di_addrs; by rewrite length_fmap, length_seq|].
      unfold di_addrs. rewrite length_fmap, length_seq. intros k Hk.
      rewrite (nth_indep _ 0 (ldl 4 (di_put d x) (dip (i_inum x) + 12 + 4 * 0)))
        by (rewrite length_fmap, length_seq; done).
      rewrite (map_nth (λ k, ldl 4 _ (dip (i_inum x) + 12 + 4 * k))), seq_nth by done. cbn [Nat.add].
      unfold di_put. cbn zeta. apply ldl_put_addrs; [lia|rewrite !length_stl; unfold NDIRECT; lia|].
      apply W7. destruct (lookup_lt_is_Some_2 (i_addrs x) k) as [a Ha]; [lia|].
      rewrite (nth_lookup_Some _ _ _ _ Ha). by eapply list_elem_of_lookup_2.
  - intros Hne. apply dip_sep in Hne.
    unfold di_get, di_type, di_major, di_minor, di_nlink, di_size, di_addrs.
    rewrite !di_put_out by lia.
    replace ((λ k, ldl 4 (di_put d x) (dip (i_inum y) + 12 + 4 * k)) <$> seq 0 (S NDIRECT))
      with ((λ k, ldl 4 d (dip (i_inum y) + 12 + 4 * k)) <$> seq 0 (S NDIRECT)); [done|].
    apply map_ext_in. intros k Hk. apply in_seq in Hk. symmetry. apply di_put_out. unfold NDIRECT in Hk. lia.
Qed.

Lemma dinode_roundtrip_witness :
  let x := mk_inode 1 18 1 sleeplock0 true 2 0 0 3 5000 (seqZ 46 13) in
  let y := mk_inode 1 18 1 sleeplock0 false 0 0 0 0 0 [] in
  inode_wf x ∧ i_nlink (di_get (di_put zero_block x) y) = 3 ∧ i_addrs (di_get (di_put zero_block x) y) = seqZ 46 13.
Proof.
  intros x y. assert (inode_wf x) as Hw.
  { split; try (cbn; lia); [reflexivity|]. intros a Ha. cbn in Ha.
    repeat (apply elem_of_cons in Ha as [->|Ha]; [lia|]). by apply not_elem_of_nil in Ha. }
  split; [exact Hw|]. destruct (dinode_roundtrip zero_block x y) as [H _]; [reflexivity|exact Hw|].
  specialize (H eq_refl). rewrite H. split; reflexivity.
Defined.
