(* ===== verification/FsTxn.v ===== *)
(** * Blocks inside a transaction

    The interface between kernel/fs.c and the layers below it.  Between
    [begin_op] and [end_op] the file system works on single blocks: [bread],
    a change of the data followed by [log_write], [brelse]; reads also happen
    outside.  [txn me H s] is the state of a thread that holds the buffers [H]
    (each with its block), the others holding none: a buffer is referenced
    once by its holder and once by the log, so every block that differs from
    the disk is in the transaction.  Under it [fview s bn] is what block [bn] holds, and the
    lemmas say what each of the three operations does to it. *)

From S2P Require Import Prelude Bytes Riscv Kstate CString Kalloc Vm Sched Bio Log LogProps LogCrash LogTxn Printf Console Fs.

(** ** What a step may change *)

Definition fview (s : kstate) : Z → list Z := cview (bcache s) (disk s).

(** The cache, the processes woken up, the log's header and the diagnostics
    on the console. *)
Definition moves (s s' : kstate) : Prop :=
  ∃ B P G O, s' = setf B (disk s) (dwrites s) P G (itable s) (locks s) (s <| upd_uart_out := O |>) ∧
    lg_start G = lg_start (log s) ∧ lg_dev G = lg_dev (log s) ∧
    lg_outstanding G = lg_outstanding (log s) ∧ lg_committing G = lg_committing (log s).

Section setf.
#[local] Transparent setf.
Lemma setf_out B D W P G I L B' D' W' P' G' I' L' O O' s :
  setf B D W P G I L ((setf B' D' W' P' G' I' L' (s <| upd_uart_out := O |>)) <| upd_uart_out := O' |>) =
  setf B D W P G I L (s <| upd_uart_out := O' |>).
Proof. by destruct s. Qed.
Lemma setf_out_id B D W P G I L s :
  setf B D W P G I L (s <| upd_uart_out := uart_out s |>) = setf B D W P G I L s.
Proof. by destruct s. Qed.
End setf.

#[export] Instance moves_preorder : PreOrder moves.
Proof.
  split.
  - intros s. exists (bcache s), (procs s), (log s), (uart_out s). by rewrite setf_out_id, <- setf_eta.
  - intros s1 s2 s3 (B & P & G & O & -> & G1 & G2 & G3 & G4) (B' & P' & G' & O' & -> & H1 & H2 & H3 & H4).
    autorewrite with kst in *. exists B', P', G', O'. rewrite setf_out. split_and!; congruence || done.
Qed.

Section moves.
Context (s s' : kstate) (Hm : moves s s').
Ltac mv := destruct Hm as (B & P & G & O & -> & ? & ? & ? & ?); autorewrite with kst; done.
Lemma moves_disk : disk s' = disk s. Proof. mv. Qed.
Lemma moves_dwrites : dwrites s' = dwrites s. Proof. mv. Qed.
Lemma moves_itable : itable s' = itable s. Proof. mv. Qed.
Lemma moves_locks : locks s' = locks s. Proof. mv. Qed.
Lemma moves_sb : sb s' = sb s. Proof. mv. Qed.
Lemma moves_curproc : curproc s' = curproc s. Proof. mv. Qed.
Lemma moves_start : lg_start (log s') = lg_start (log s). Proof. mv. Qed.
Lemma moves_outstanding : lg_outstanding (log s') = lg_outstanding (log s). Proof. mv. Qed.
End moves.

(** ** The invariant *)

Definition holder (me : proc) (b : buf) (bn : Z) : Prop :=
  b_lock b = mk_sleeplock true (pr_pid me) ∧ b_dev b = ROOTDEV ∧ b_valid b = true ∧ b_blockno b = bn.

(** The references to buffer [i]: its holder's and the log's. *)
Definition nrefs (H : list (nat * Z)) (T : list Z) (i : nat) (b : buf) : Z :=
  (if decide (i ∈ H.*1) then 1 else 0) +
  (if decide (b_dev b = ROOTDEV ∧ b_blockno b ∈ T) then 1 else 0).

Record txn (me : proc) (H : list (nat * Z)) (s : kstate) : Prop := {
  tn_ring : ∃ l, ring (bcache s) l;
  tn_ok : bc_ok (bcache s) (disk s);
  tn_ctx : tctx s (procs s) (locks s) me;
  tn_llog : LLog ∉ locks s;
  tn_nodup : NoDup H.*1;
  tn_free i b : (i < NBUF)%nat → bcache s !! i = Some b → i ∉ H.*1 → sl_locked (b_lock b) = false;
  tn_refs i b : (i < NBUF)%nat → bcache s !! i = Some b → b_refcnt b = nrefs H (logged (log s)) i b;
  tn_held i bn : (i, bn) ∈ H → (i < NBUF)%nat ∧ ∃ b, bcache s !! i = Some b ∧ holder me b bn ∧
    (bn ∈ logged (log s) ∨ b_data b = dblock (disk s) bn);
  tn_pin bn : bn ∈ logged (log s) → pinned (bcache s) bn;
  tn_log : log_wf (log s);
  tn_once : NoDup (logged (log s));
}.

Definition used_buffers (H : list (nat * Z)) (s : kstate) : nat := (length H + length (logged (log s)))%nat.

Lemma nrefs_bound H T i b : 0 ≤ nrefs H T i b ≤ 2.
Proof. unfold nrefs. repeat case_decide; lia. Qed.
Lemma nrefs_zero H T i b : nrefs H T i b = 0 → (i ∉ H.*1) ∧ ¬ (b_dev b = ROOTDEV ∧ b_blockno b ∈ T).
Proof. unfold nrefs. repeat case_decide; lia || done. Qed.

Lemma logged_length G : log_wf G → Z.of_nat (length (logged G)) = lh_n G.
Proof. intros [H1 H2]. unfold logged. rewrite length_take. lia. Qed.

(** Every buffer in use is held or pinned, so one is left. *)
Lemma txn_spare me H s :
  txn me H s → (used_buffers H s < NBUF)%nat → ∃ k, spare (bcache s) k.
Proof.
  intros T Hlt. destruct (tn_ring _ _ _ T) as [l Hr]. set (B := bcache s) in *.
  destruct (List.find (bunused B) (seq 0 NBUF)) as [k|] eqn:E.
  { apply find_seq_some in E as [Hk E]. exists k. unfold bunused in E.
    destruct (B !! k) as [b|] eqn:Eb; [|done]. zbool. split; [done|]. by exists b. }
  exfalso. pose proof (find_seq_none _ _ E) as Hno.
  assert (∀ k, (k < NBUF)%nat → ∃ b, B !! k = Some b ∧ b_refcnt b ≠ 0) as Hb.
  { intros k Hk. destruct (lookup_lt_is_Some_2 B k) as [b Eb]; [rewrite (rg_len _ _ Hr); lia|].
    exists b. split; [done|]. specialize (Hno k Hk). unfold bunused in Hno. rewrite Eb in Hno. by zbool. }
  set (g := λ k : nat, if decide (k ∈ H.*1) then inl k
              else inr (from_option b_blockno 0 (B !! k)) : nat + Z).
  set (tgt := (inl <$> H.*1) ++ (inr <$> logged (log s)) : list (nat + Z)).
  assert (∀ k, (k < NBUF)%nat → k ∉ H.*1 → ∃ b, B !! k = Some b ∧ b_dev b = ROOTDEV ∧
    b_blockno b ∈ logged (log s)) as Hl.
  { intros k Hk Hn. destruct (Hb k Hk) as (b & Eb & Hz). exists b. split; [done|].
    rewrite (tn_refs _ _ _ T k b Hk Eb) in Hz. unfold nrefs in Hz. rewrite decide_False in Hz by done.
    by case_decide. }
  assert (g <$> seq 0 NBUF ⊆+ tgt) as Hsub.
  { apply NoDup_submseteq.
    - apply NoDup_fmap_2_strong; [|apply NoDup_seq]. intros i j Hi%elem_of_seq Hj%elem_of_seq. unfold g.
      repeat case_decide; [by intros [= ->]|done|done|]. intros [= Eij].
      destruct (Hl i) as (b & Eb & D1 & _); [lia|done|]. destruct (Hl j) as (b' & Eb' & D2 & _); [lia|done|].
      rewrite Eb, Eb' in Eij. cbn in Eij. eapply (bo_uniq _ _ (tn_ok _ _ _ T) i j b b'); lia || done.
    - intros x (k & -> & Hk%elem_of_seq)%list_elem_of_fmap. unfold g, tgt. rewrite elem_of_app. case_decide.
      + left. by apply list_elem_of_fmap_2.
      + right. destruct (Hl k) as (b & -> & _ & Hb'); [lia|done|]. by apply list_elem_of_fmap_2. }
  apply submseteq_length in Hsub. unfold tgt in Hsub.
  rewrite length_app, !length_fmap, length_seq in Hsub. unfold used_buffers in Hlt. lia.
Qed.

(** ** The three operations *)

Section ops.
Context (me : proc) (H : list (nat * Z)).
Implicit Types (s : kstate) (i : nat) (bn : Z).

Lemma txn_lookup s i bn :
  txn me H s → (i, bn) ∈ H →
  (i < NBUF)%nat ∧ ∃ b, bcache s !! i = Some b ∧ holder me b bn ∧ b_data b = fview s bn.
Proof using.
  intros T (Hi & b & Hb & (H1 & H2 & H3 & H4) & _)%(tn_held _ _ _ T). split; [done|].
  exists b. split_and!; try done. symmetry. by eapply cview_holder; [apply T|..].
Qed.

Lemma getb_txn s i bn :
  txn me H s → (i, bn) ∈ H → ∃ x, getb i s = Ok x s ∧ b_data x = fview s bn ∧ holder me x bn.
Proof using.
  intros T Hi. destruct (txn_lookup s i bn T Hi) as (_ & b & Hb & Hh & Hd). exists b.
  unfold getb. rewrite bind_gets, Hb. done.
Qed.

(** A buffer held for another block, or not referenced, is another buffer. *)
Lemma txn_unlocked s bn i b :
  txn me H s → bn ∉ H.*2 → (i < NBUF)%nat → bcache s !! i = Some b →
  (b_dev b = ROOTDEV ∧ b_blockno b = bn) ∨ b_refcnt b = 0 → i ∉ H.*1.
Proof using.
  intros T Hbn Hi Hb Hor ([j bn'] & -> & Hin)%list_elem_of_fmap. cbn in *.
  destruct (tn_held _ _ _ T _ _ Hin) as (_ & b' & Hb' & (_ & _ & _ & Hn) & _).
  rewrite Hb in Hb'. injection Hb' as <-. destruct Hor as [[_ E]|E].
  - apply Hbn. apply list_elem_of_fmap. exists (j, bn'). split; [cbn; congruence|done].
  - rewrite (tn_refs _ _ _ T j b Hi Hb) in E. apply nrefs_zero in E as [E _]. apply E.
    apply list_elem_of_fmap. by exists (j, bn').
Qed.

End ops.

(** One buffer [b] becomes [x]; the others keep their state. *)
Section replace.
Context (me : proc) (H H' : list (nat * Z)) (s : kstate) (i : nat) (b x : buf).
Context (B' : list buf) (l' : list nat) (P' : list proc) (G' : logst).
Context (T : txn me H s) (Hi : (i < NBUF)%nat) (Hb : bcache s !! i = Some b)
  (Hbx : 0 < b_refcnt b → b_blockno b = b_blockno x).
Context (Hdev : b_dev x = ROOTDEV) (Hval : b_valid x = true)
  (Href : b_refcnt x = nrefs H' (logged G') i x)
  (Hlk : i ∉ H'.*1 → sl_locked (b_lock x) = false)
  (Hhd : ∀ bn, (i, bn) ∈ H' → holder me x bn ∧ (bn ∈ logged G' ∨ b_data x = dblock (disk s) bn)).
Context (HH : ∀ j bn, j ≠ i → (j, bn) ∈ H' ↔ (j, bn) ∈ H) (HN : NoDup H'.*1).
Context (HT : ∀ bn, bn ≠ b_blockno x → bn ∈ logged G' ↔ bn ∈ logged (log s))
  (HT' : ∀ bn, bn ∈ logged (log s) → bn ∈ logged G').
Context (Hc : bcore (<[i := x]> (bcache s)) B') (Hr : ring B' l') (Ho : bc_ok B' (disk s))
  (Htc : tctx s P' (locks s) me)
  (Hwf : log_wf G') (Honce : NoDup (logged G')).

Lemma replace_at : ∃ y, B' !! i = Some y ∧ core y = core x.
Proof using Hb Hc Hi.
  apply bcore_sym in Hc. eapply bcore_lookup in Hc; [|done|].
  - destruct Hc as (y & ? & E). by exists y.
  - apply list_lookup_insert_eq. by eapply lookup_lt_Some.
Qed.
Lemma replace_inv j y :
  (j < NBUF)%nat → B' !! j = Some y →
  (j = i ∧ core y = core x) ∨ (j ≠ i ∧ ∃ b', bcache s !! j = Some b' ∧ core y = core b').
Proof using Hc.
  intros Hj Hy. destruct (bcore_lookup _ _ _ _ Hc Hj Hy) as (b' & Hb' & E).
  apply lookup_replace in Hb' as [[-> ->]|[? ?]]; [by left|right]. split; [done|by exists b'].
Qed.
Lemma replace_other j b' :
  (j < NBUF)%nat → j ≠ i → bcache s !! j = Some b' → ∃ y, B' !! j = Some y ∧ core y = core b'.
Proof using Hc.
  intros Hj Hne Hb'. eapply (bcore_lookup _ _ j b' (bcore_sym _ _ Hc)) in Hj; [|by rewrite list_lookup_insert_ne].
  destruct Hj as (y & ? & E). by exists y.
Qed.
Lemma replace_fst j : j ≠ i → j ∈ H'.*1 ↔ j ∈ H.*1.
Proof using HH.
  intros Hne. rewrite !list_elem_of_fmap.
  split; intros ([j' bn] & -> & Hin); exists (j', bn); (split; [done|]); by apply HH.
Qed.
Lemma replace_nrefs j y b' :
  (j < NBUF)%nat → j ≠ i → B' !! j = Some y → core y = core b' →
  nrefs H (logged (log s)) j b' = nrefs H' (logged G') j y.
Proof using Hb HH HT Hc Hdev Hi Ho.
  intros Hj Hne Hy (_ & E1 & E2 & _)%core_fields. unfold nrefs.
  f_equal; apply decide_ext; [by rewrite replace_fst|]. rewrite <- E1, <- E2.
  split; intros [D1 D2]; (split; [done|]);
    (assert (b_blockno y ≠ b_blockno x) as Hbn;
     [|by apply (HT _ Hbn)]);
    intros E; destruct replace_at as (z & Hz & (_ & F1 & F2 & _)%core_fields); apply Hne;
    eapply (bo_uniq _ _ Ho j i y z); congruence || done.
Qed.

Lemma txn_replace : txn me H' (setf B' (disk s) (dwrites s) P' G' (itable s) (locks s) s).
Proof using All.
  split; autorewrite with kst; try done.
  - by exists l'.
  - destruct Htc as [(c & Hc' & Hm) ? ? ? ?]. split; autorewrite with kst; try done. by exists c.
  - apply T.
  - intros j y Hj Hy Hn. destruct (replace_inv j y Hj Hy) as [[-> E]|(Hne & b' & Hb' & E)];
      apply core_fields in E as (_ & _ & _ & _ & _ & -> & _); [by apply Hlk|].
    eapply (tn_free _ _ _ T); [done..|]. by rewrite <- replace_fst.
  - intros j y Hj Hy. destruct (replace_inv j y Hj Hy) as [[-> E]|(Hne & b' & Hb' & E)].
    + apply core_fields in E as (_ & E1 & E2 & E3 & _). rewrite E3, Href. unfold nrefs. by rewrite E1, E2.
    + pose proof (replace_nrefs j y b' Hj Hne Hy E) as <-. apply core_fields in E as (_ & _ & _ & -> & _).
      by apply T.
  - intros j bn Hin. destruct (decide (j = i)) as [->|Hne].
    + split; [done|]. destruct replace_at as (y & Hy & E). exists y. split; [done|].
      destruct (Hhd bn Hin) as [(A1 & A2 & A3 & A4) A5].
      apply core_fields in E as (E1 & E2 & E3 & _ & -> & E4 & _).
      split; [|done]. split_and!; congruence.
    + apply HH in Hin; [|done]. destruct (tn_held _ _ _ T j bn Hin) as (Hj & b' & Hb' & (A1 & A2 & A3 & A4) & A5).
      split; [done|]. destruct (replace_other j b' Hj Hne Hb') as (y & Hy & E). exists y. split; [done|].
      apply core_fields in E as (E1 & E2 & E3 & _ & -> & E4 & _). split; [split_and!; congruence|].
      destruct A5; [left; auto|by right].
  - intros bn Hin. destruct (decide (bn = b_blockno x)) as [->|Hne].
    + destruct replace_at as (y & Hy & E). exists i, y.
      apply core_fields in E as (-> & -> & -> & -> & _). split_and!; try done. rewrite Href. unfold nrefs.
      rewrite (decide_True (P := _ ∧ _)) by done. case_decide; lia.
    + apply (HT bn Hne) in Hin. destruct (tn_pin _ _ _ T bn Hin) as (j & b' & Hj & Hb' & A1 & A2 & A3 & A4).
      assert (j ≠ i) as Hji by (intros ->; rewrite Hb in Hb'; injection Hb' as <-; apply Hne; rewrite <- A3; auto).
      destruct (replace_other j b' Hj Hji Hb') as (y & Hy & E). exists j, y.
      by apply core_fields in E as (-> & -> & -> & -> & _).
Qed.
End replace.

Section steps.
Context (me : proc) (H : list (nat * Z)).
Implicit Types (s : kstate) (i : nat) (bn : Z).

Lemma setf_moves s B P :
  moves s (setf B (disk s) (dwrites s) P (log s) (itable s) (locks s) s).
Proof using. exists B, P, (log s), (uart_out s). by rewrite setf_out_id. Qed.

(** The buffer [bread] picks is not held; it is referenced only by the log. *)
Lemma picks_refs s bn i b :
  txn me H s → bn ∉ H.*2 → picks (bcache s) bn i b →
  (i ∉ H.*1) ∧ b_refcnt b = (if decide (bn ∈ logged (log s)) then 1 else 0).
Proof using.
  intros T Hbn (Hi & Hb & Hor). assert (i ∉ H.*1) as HiH by (eapply txn_unlocked; [done..|]; tauto).
  split; [done|]. pose proof (tn_refs _ _ _ T i b Hi Hb) as Href. unfold nrefs in Href.
  rewrite decide_False in Href by done. rewrite Href. destruct Hor as [[E1 E2]|[E3 Hno]].
  - rewrite E1, E2. repeat case_decide; tauto || done.
  - rewrite E3 in Href. case_decide; [lia|]. rewrite decide_False; [done|]. intros Hin.
    destruct (tn_pin _ _ _ T bn Hin) as (j & b' & Hj & Hb' & _ & Hd' & Hn' & _). by destruct (Hno j b').
Qed.

(** [bread] of a block not held: the buffer joins [H], no block changes. *)
Lemma bread_txn s bn :
  txn me H s → bn ∉ H.*2 → (used_buffers H s < NBUF)%nat →
  ∃ i s', bread ROOTDEV bn s = Ok i s' ∧ moves s s' ∧ log s' = log s ∧ txn me ((i, bn) :: H) s' ∧
    ∀ x, fview s' x = fview s x.
Proof using.
  intros T Hbn Hroom. destruct (tn_ring _ _ _ T) as [l Hr]. pose proof (tn_ok _ _ _ T) as Ho.
  destruct (txn_spare me H s T Hroom) as [k Hk].
  destruct (bread_ok s me (bcache s) l bn (disk s) (dwrites s) (procs s) (log s) (itable s) (locks s))
    as (i & b & Hpk & E); [done|done|apply T| |by eapply spare_picks|].
  { intros i b Hi Hb Hor. eapply (tn_free _ _ _ T); [done..|]. by eapply txn_unlocked. }
  rewrite <- setf_eta in E. destruct (picks_refs s bn i b T Hbn Hpk) as [HiH Href].
  destruct (hold_inv _ l _ bn me i b Hr Ho Hpk) as (Hr' & Ho' & Hv'); [rewrite Href; case_decide; lia|].
  pose proof Hpk as (Hi & Hb & Hor).
  exists i. eexists. split; [exact E|]. split_and!; [apply setf_moves|by autorewrite with kst| |].
  2:{ intros x. unfold fview. autorewrite with kst. apply Hv'. }
  eapply (txn_replace me H ((i, bn) :: H) s i b (held me bn (fview s bn) b)); try done; try (by apply T).
  - cbn. destruct Hor as [[_ ?]|[? _]]; [done|lia].
  - cbn [held b_refcnt]. unfold nrefs. cbn [held b_dev b_blockno]. rewrite Href, fmap_cons.
    rewrite (decide_True (P := i ∈ _)) by left. repeat case_decide; tauto || lia.
  - rewrite fmap_cons, not_elem_of_cons. cbn. tauto.
  - intros bn' [[= ->]|Hin]%elem_of_cons.
    + split; [done|]. destruct (decide (bn ∈ logged (log s))); [by left|right]. by eapply picks_clean.
    + exfalso. apply HiH. apply list_elem_of_fmap. by exists (i, bn').
  - intros j bn' Hne. rewrite elem_of_cons. split; [intros [[= -> _]|?]; done|by right].
  - rewrite fmap_cons. apply NoDup_cons. split; [done|apply T].
Qed.

(** The blocks of the transaction after [bn] was logged. *)
Definition note (bn : Z) (T : list Z) : list Z := if decide (bn ∈ T) then T else T ++ [bn].
Lemma elem_note bn T x : x ∈ note bn T ↔ x = bn ∨ x ∈ T.
Proof using. unfold note. case_decide; set_solver. Qed.
Lemma NoDup_note bn T : NoDup T → NoDup (note bn T).
Proof using. unfold note. case_decide; [done|]. intros. apply NoDup_app. split_and!; [done|set_solver|apply NoDup_singleton]. Qed.
Lemma length_note bn T : (length T ≤ length (note bn T) ≤ S (length T))%nat.
Proof using. unfold note. case_decide; [lia|]. rewrite length_app. cbn. lia. Qed.

(** The references to a held buffer. *)
Lemma held_refs s i bn b :
  txn me H s → (i, bn) ∈ H → bcache s !! i = Some b →
  b_refcnt b = 1 + (if decide (bn ∈ logged (log s)) then 1 else 0).
Proof using.
  intros T Hin Hb. destruct (tn_held _ _ _ T i bn Hin) as (Hi & b' & Hb' & (_ & H2 & _ & H4) & _).
  rewrite Hb in Hb'. injection Hb' as <-. rewrite (tn_refs _ _ _ T i b Hi Hb). unfold nrefs.
  rewrite decide_True by (apply list_elem_of_fmap; by exists (i, bn)). rewrite H2, H4.
  repeat case_decide; tauto || done.
Qed.

(** A held buffer with new data, pinned by the log. *)
Lemma txn_write s i bn b d G' :
  txn me H s → (i, bn) ∈ H → bcache s !! i = Some b → length d = Z.to_nat BSIZE →
  log_wf G' → logged G' = note bn (logged (log s)) →
  let s' := setf (<[i := b <| upd_b_data := d |> <| upd_b_refcnt := 2 |>]> (bcache s))
    (disk s) (dwrites s) (procs s) G' (itable s) (locks s) s in
  txn me H s' ∧ ∀ x, fview s' x = if decide (x = bn) then d else fview s x.
Proof using.
  intros T Hin Hb Hd Hwf HG. destruct (tn_held _ _ _ T i bn Hin) as (Hi & b' & Hb' & (H1 & H2 & H3 & H4) & _).
  rewrite Hb in Hb'. injection Hb' as <-. pose proof (tn_ok _ _ _ T) as Ho. destruct (tn_ring _ _ _ T) as [l Hr].
  assert (∀ j b', (j < NBUF)%nat → j ≠ i → bcache s !! j = Some b' → b_dev b' = ROOTDEV →
    b_blockno b' ≠ b_blockno b) as Hu.
  { intros j b' Hj Hne Hb' Hd' Hn'. apply Hne. eapply (bo_uniq _ _ Ho); eauto. }
  set (x := b <| upd_b_data := d |> <| upd_b_refcnt := 2 |>). split.
  - eapply (txn_replace me H H s i b x _ l); try done; try (by apply T).
    + unfold nrefs. rewrite decide_True by (apply list_elem_of_fmap; by exists (i, bn)).
      rewrite decide_True; [done|]. cbn. rewrite H2, H4, HG, elem_note. tauto.
    + intros Hn. exfalso. apply Hn. apply list_elem_of_fmap. by exists (i, bn).
    + intros bn' Hbn'. destruct (tn_held _ _ _ T i bn' Hbn') as (_ & b' & Hb' & (? & ? & ? & ?) & _).
      rewrite Hb in Hb'. injection Hb' as <-. split; [done|]. left. rewrite HG, elem_note. left. congruence.
    + intros bn' Hne. cbn in Hne. rewrite HG, elem_note. split; [|tauto]. intros [?|?]; [congruence|done].
    + intros bn' ?. rewrite HG, elem_note. tauto.
    + by eapply ring_insert.
    + eapply bc_ok_replace; cbn; try done.
    + rewrite HG. apply NoDup_note, T.
  - intros y. unfold fview. autorewrite with kst. erewrite cview_replace; cbn; try done. by rewrite H4.
Qed.

(** A change of a held buffer's data, logged. *)
Lemma update_txn s i bn f :
  txn me H s → (i, bn) ∈ H → lh_n (log s) < LOGBLOCKS → 1 ≤ lg_outstanding (log s) →
  (∀ d, length d = Z.to_nat BSIZE → length (f d) = Z.to_nat BSIZE) →
  ∃ s1 s', setdata i f s = Ok () s1 ∧ log_write i s1 = Ok () s' ∧ moves s s' ∧ txn me H s' ∧
    logged (log s') = note bn (logged (log s)) ∧
    ∀ x, fview s' x = if decide (x = bn) then f (fview s bn) else fview s x.
Proof using.
  intros T Hin Hlog Hout Hf. destruct (txn_lookup me H s i bn T Hin) as (Hi & b & Hb & (H1 & H2 & H3 & H4) & Hd).
  pose proof (held_refs s i bn b T Hin Hb) as Hrc. pose proof (tn_log _ _ _ T) as Hwf.
  assert (i < length (bcache s))%nat as Hil by (by eapply lookup_lt_Some).
  set (x := b <| upd_b_data ::= f |>).
  exists (setf (<[i := x]> (bcache s)) (disk s) (dwrites s) (procs s) (log s) (itable s) (locks s) s).
  pose proof (log_write_ok s (<[i := x]> (bcache s)) (disk s) (dwrites s) (procs s) (log s) (itable s) (locks s) i x) as E.
  rewrite list_insert_insert_eq in E. change (b_blockno x) with (b_blockno b) in E. rewrite H4 in E.
  set (G' := if decide (bn ∈ logged (log s)) then log s else
    (log s) <| upd_lh_block ::= <[Z.to_nat (lh_n (log s)) := bn]> |> <| upd_lh_n := lh_n (log s) + 1 |>).
  assert (logged G' = note bn (logged (log s)) ∧ log_wf G' ∧ lg_outstanding G' = lg_outstanding (log s)) as (G1 & G2 & G3).
  { unfold G', note. case_decide; [done|]. split_and!; [by apply logged_snoc| |done].
    destruct Hwf as [? ?]. split; cbn; [lia|by rewrite length_insert]. }
  destruct (txn_write s i bn b (f (b_data b)) G' T Hin Hb) as [T' V']; [|done|done|].
  { apply Hf. by eapply (bo_len _ _ (tn_ok _ _ _ T)). }
  eexists. split.
  { rewrite (setf_eta s) at 1. unfold setdata. rewrite updb_ok. by erewrite list_alter_insert. }
  split.
  { rewrite E; try apply T; [|by apply list_lookup_insert_eq|cbn; rewrite Hrc; case_decide; lia|done|done].
    instantiate (1 := setf (<[i := b <| upd_b_data := f (b_data b) |> <| upd_b_refcnt := 2 |>]> (bcache s))
      (disk s) (dwrites s) (procs s) G' (itable s) (locks s) s).
    unfold x, G'. clear -Hrc. destruct b. cbn in *. case_decide; subst; done. }
  split_and!; [|done|by rewrite log_setf|intros y; rewrite <- Hd; apply V'].
  eexists _, _, G', _. rewrite setf_out_id. split; [done|]. unfold G'. by case_decide.
Qed.

(** [brelse] of a held buffer: no block changes. *)
Lemma brelse_txn s i bn :
  txn me ((i, bn) :: H) s →
  ∃ s', brelse i s = Ok () s' ∧ moves s s' ∧ log s' = log s ∧ txn me H s' ∧ ∀ x, fview s' x = fview s x.
Proof using.
  intros T. destruct (tn_held _ _ _ T i bn) as (Hi & b & Hb & (H1 & H2 & H3 & H4) & Hd); [left|].
  destruct (tn_ring _ _ _ T) as [l Hr]. pose proof (tn_ok _ _ _ T) as Ho.
  pose proof (tn_nodup _ _ _ T) as HN. rewrite fmap_cons in HN. apply NoDup_cons in HN as [HiH HN]. cbn in HiH.
  pose proof (tn_refs _ _ _ T i b Hi Hb) as Href. unfold nrefs in Href. rewrite fmap_cons in Href.
  rewrite decide_True in Href by left.
  destruct (brelse_step s me (bcache s) l i (b_refcnt b - 1) bn b (disk s) (dwrites s) (procs s) (log s) (itable s) (locks s))
    as (B' & l' & P' & E & Hr' & Ho' & Ht' & Hv' & Hc & _); try done; try (by apply T).
  - rewrite Href. case_decide; lia.
  - lia.
  - intros H0. destruct Hd as [Hin|?]; [|done]. rewrite Href, decide_True in H0 by (by rewrite H2, H4). lia.
  - rewrite <- setf_eta in E. eexists. split; [exact E|].
    split_and!; [apply setf_moves|by autorewrite with kst| |].
    2:{ intros x. unfold fview. autorewrite with kst. apply Hv'. }
    eapply (txn_replace me ((i, bn) :: H) H s i b (unheld b)); try done; try (by apply T).
    + cbn. rewrite Href. unfold nrefs. rewrite (decide_False (P := i ∈ _)) by done. cbn. lia.
    + intros bn' Hbn'. exfalso. apply HiH. apply list_elem_of_fmap. by exists (i, bn').
    + intros j bn' Hne. rewrite elem_of_cons. split; [by right|]. intros [[= -> _]|?]; done.
Qed.
End steps.

(** ** Console output inside a transaction *)

Lemma txn_out me H s O : txn me H s → txn me H (s <| upd_uart_out := O |>).
Proof.
  intros [? ? [(c & Hc & Hm) ? ? ? ?] ? ? ? ? ? ? ? ?]. split; try done. split; try done. by exists c.
Qed.
Lemma moves_out s O : moves s (s <| upd_uart_out := O |>).
Proof.
  exists (bcache s), (procs s), (log s), O. split; [|done].
  exact (setf_eta (s <| upd_uart_out := O |>)).
Qed.

Lemma consputs_out l s :
  ∃ O, consputs l s = Ok () (s <| upd_uart_out := O |>).
Proof.
  assert (∀ s, s = s <| upd_uart_out := uart_out s |>) as Hid by (by intros []).
  revert s. induction l as [|c l IH]; intros s; cbn [consputs].
  { exists (uart_out s). by rewrite <- Hid. }
  assert (∃ O, consputc c s = Ok () (s <| upd_uart_out := O |>)) as [O E].
  { unfold consputc, uartputc_sync. destruct (c =? BACKSPACE); eexists; rewrite ?bind_modify; by destruct s. }
  rewrite (bind_ok _ _ _ _ _ E). destruct (IH (s <| upd_uart_out := O |>)) as [O' E']. exists O'. rewrite E'. by destruct s.
Qed.

Lemma kprintf_txn me H s fmt args :
  txn me H s → LPr ∉ locks s →
  ∃ s', kprintf fmt args s = Ok () s' ∧ moves s s' ∧ txn me H s' ∧ log s' = log s ∧ fview s' = fview s.
Proof.
  intros T HL. unfold kprintf. rewrite (bind_ok _ _ _ _ _ (acquire_ok _ _ HL)).
  destruct (consputs_out (printf fmt args) (s <| upd_locks ::= cons LPr |>)) as [O E].
  rewrite (bind_ok _ _ _ _ _ E). erewrite release_head by done.
  exists (s <| upd_uart_out := O |>). split; [by destruct s|].
  split_and!; [apply moves_out|by apply txn_out|done|done].
Qed.

(** ** The first transaction after boot *)

Lemma fresh_txn me s l :
  fresh_cache (bcache s) l → disk_ok (disk s) → tctx s (procs s) (locks s) me → LLog ∉ locks s →
  log_wf (log s) → lh_n (log s) = 0 →
  txn me [] s ∧ ∀ x, fview s x = dblock (disk s) x.
Proof.
  intros Hf HD Ht HL Hwf Hn. destruct (fresh_qinv _ _ _ Hf HD) as [Hr Ho Hq _].
  assert (logged (log s) = []) as Hl by (unfold logged; by rewrite Hn).
  split; [|intros x; by eapply fresh_cview].
  split; rewrite ?Hl; try done; try exact (NoDup_nil_2).
  - by exists l.
  - intros i b Hi Hb _. by eapply Hq.
  - intros i b Hi Hb. unfold nrefs. rewrite !decide_False by (rewrite ?elem_of_nil; tauto).
    by apply (fc_buf _ _ Hf i b Hi Hb).
  - by intros i bn ?%not_elem_of_nil.
  - by intros bn ?%not_elem_of_nil.
Qed.

(** A state inside a first transaction on the disk [D]. *)
Definition first_op (D : gmap Z (list Z)) (S : superblock) (I : list inode) : kstate :=
  setf boot_cache D [] (replicate NPROC proc0)
    (mk_logst 2 1 false ROOTDEV 0 (replicate (Z.to_nat LOGBLOCKS) 0)) I []
    (kstate0 <| upd_curproc := Some 0%nat |> <| upd_sb := S |>).
Lemma first_op_txn D S I :
  disk_ok D → txn proc0 [] (first_op D S I) ∧ ∀ x, fview (first_op D S I) x = dblock D x.
Proof.
  intros HD. destruct (fresh_txn proc0 (first_op D S I) boot_order) as [T V].
  - unfold first_op. rewrite bcache_setf. apply boot_cache_fresh.
  - unfold first_op. by rewrite disk_setf.
  - unfold first_op. autorewrite with kst. split; [|by rewrite length_replicate|intros; apply not_elem_of_nil..].
    exists 0%nat. autorewrite with kst. by split.
  - unfold first_op. rewrite locks_setf. apply not_elem_of_nil.
  - unfold first_op. rewrite log_setf. split; [cbn; unfold LOGBLOCKS, MAXOPBLOCKS; lia|reflexivity].
  - unfold first_op. by rewrite log_setf.
  - split; [exact T|]. intros x. rewrite (V x). unfold first_op. by rewrite disk_setf.
Qed.
