(* ===== verification/FsAlloc.v ===== *)
(** * kernel/fs.c: the block bitmap

    [used s b] is the bit of block [b] in the bitmap as the transaction sees
    it.  [balloc] refines a pool of free blocks: it takes the least one,
    marks it used and zeroes it, or fails with the pool empty; [bfree] gives
    a block back, and panics on one that is free already. *)

From S2P Require Import Prelude Bytes Riscv Kstate CString Kalloc Vm Sched Bio Log LogProps LogCrash LogTxn Printf Console Fs FsTxn.

(** ** Bits of a block *)

Definition set_bit (bi : Z) (d : list Z) : list Z :=
  <[bit_byte bi := Z.lor (nth (bit_byte bi) d 0) (bit_mask bi)]> d.
Definition clear_bit (bi : Z) (d : list Z) : list Z :=
  <[bit_byte bi := Z.land (nth (bit_byte bi) d 0) (Z.lnot (bit_mask bi))]> d.

Lemma bit_mask_spec bi j : 0 ≤ bi → 0 ≤ j → Z.testbit (bit_mask bi) j = (j =? bi mod 8).
Proof.
  intros Hb Hj. unfold bit_mask. rewrite Z.shiftl_1_l, Z.pow2_bits_eqb by (apply Z.mod_pos_bound; lia). apply Z.eqb_sym.
Qed.
Lemma bit_set_testbit d bi :
  0 ≤ bi → bit_set d bi = Z.testbit (nth (bit_byte bi) d 0) (bi mod 8).
Proof.
  intros Hb. unfold bit_set. set (x := nth _ _ _). apply eq_true_iff_eq. rewrite nz_true. split.
  - intros Hn. destruct (Z.testbit x (bi mod 8)) eqn:E; [done|]. destruct Hn. apply Z.bits_inj_0. intros j.
    destruct (Z.neg_nonneg_cases j) as [?|?]; [by apply Z.testbit_neg_r|].
    rewrite Z.land_spec, bit_mask_spec by done. destruct (j =? bi mod 8) eqn:E'; zbool; [subst; by rewrite E|].
    by rewrite andb_false_r.
  - intros E Hz. apply (f_equal (λ z, Z.testbit z (bi mod 8))) in Hz.
    rewrite Z.land_spec, E, bit_mask_spec, Z.eqb_refl, Z.bits_0 in Hz; [done..|]. apply Z.mod_pos_bound. lia.
Qed.

Section bits.
Context (d : list Z) (bi : Z) (Hlen : length d = Z.to_nat BSIZE) (Hbi : 0 ≤ bi < BPB).
Lemma bit_byte_bound : (bit_byte bi < length d)%nat.
Proof using All. unfold bit_byte, BPB in *. rewrite Hlen.
  pose proof (Z.div_lt_upper_bound bi 8 BSIZE). pose proof (Z.div_pos bi 8). lia.
Qed.
Lemma bit_byte_eq j : 0 ≤ j → bit_byte j = bit_byte bi → j mod 8 = bi mod 8 → j = bi.
Proof using Hbi.
  clear Hlen d. unfold bit_byte. intros Hj E1 E2. rewrite (Z.div_mod j 8), (Z.div_mod bi 8), E2 by lia.
  pose proof (Z.div_pos j 8). pose proof (Z.div_pos bi 8). assert (j / 8 = bi / 8) as -> by lia. done.
Qed.

Lemma bit_update (op : Z → Z → Z) (r : bool → bool) j :
  (∀ x m k, 0 ≤ k → Z.testbit (op x m) k = if Z.testbit m k then r (Z.testbit x k) else Z.testbit x k) →
  0 ≤ j → bit_set (<[bit_byte bi := op (nth (bit_byte bi) d 0) (bit_mask bi)]> d) j =
    if decide (j = bi) then r (bit_set d j) else bit_set d j.
Proof using Hbi Hlen.
  intros Hop Hj. pose proof bit_byte_bound as Hb. rewrite !bit_set_testbit by done.
  assert (0 ≤ j mod 8) by (apply Z.mod_pos_bound; lia).
  destruct (decide (bit_byte j = bit_byte bi)) as [E|E].
  - rewrite E, (nth_lookup_Z (<[_ := _]> d)), list_lookup_insert_eq by done.
    change (default 0 (Some ?x)) with x. rewrite Hop, bit_mask_spec by lia.
    destruct (j mod 8 =? bi mod 8) eqn:E'; zbool.
    + rewrite decide_True; [done|]. by apply bit_byte_eq.
    + rewrite decide_False by congruence. done.
  - rewrite decide_False by congruence.
    by rewrite (nth_lookup_Z (<[_ := _]> d)), list_lookup_insert_ne, <- nth_lookup_Z by done.
Qed.
Lemma bit_set_set j : 0 ≤ j → bit_set (set_bit bi d) j = if decide (j = bi) then true else bit_set d j.
Proof using Hbi Hlen.
  apply (bit_update Z.lor (λ _, true)). intros x m k Hk. rewrite Z.lor_spec.
  destruct (Z.testbit x k), (Z.testbit m k); done.
Qed.
Lemma bit_set_clear j : 0 ≤ j → bit_set (clear_bit bi d) j = if decide (j = bi) then false else bit_set d j.
Proof using Hbi Hlen.
  apply (bit_update (λ x m, Z.land x (Z.lnot m)) (λ _, false)). intros x m k Hk.
  rewrite Z.land_spec, Z.lnot_spec by done. destruct (Z.testbit x k), (Z.testbit m k); done.
Qed.
End bits.

Lemma length_set_bit bi d : length (set_bit bi d) = length d.
Proof. apply length_insert. Qed.
Lemma length_clear_bit bi d : length (clear_bit bi d) = length d.
Proof. apply length_insert. Qed.

Lemma zero_bytes_eq n o d :
  (o + n ≤ length d)%nat → zero_bytes n o d = take o d ++ replicate n 0 ++ drop (o + n) d.
Proof.
  revert o d. induction n as [|n IH]; intros o d Hl; cbn [zero_bytes replicate app].
  { by rewrite Nat.add_0_r, take_drop. }
  rewrite IH by (rewrite length_insert; lia). rewrite (take_S_r _ _ 0) by (apply list_lookup_insert_eq; lia).
  rewrite take_insert_ge, drop_insert_lt, <- app_assoc by lia. cbn [app]. do 4 f_equal. lia.
Qed.
Lemma zero_bytes_all d : length d = Z.to_nat BSIZE → zero_bytes (Z.to_nat BSIZE) 0 d = zero_block.
Proof.
  intros Hl. rewrite zero_bytes_eq by lia. rewrite take_0, drop_ge by lia. by rewrite app_nil_r.
Qed.

(** The inner loop of [balloc]. *)
Lemma find_free_bit_spec n d b bi size :
  match find_free_bit n d b bi size with
  | Some k => bi ≤ k < bi + Z.of_nat n ∧ b + k < size ∧ bit_set d k = false ∧
      ∀ j, bi ≤ j < k → bit_set d j = true
  | None => ∀ j, bi ≤ j < bi + Z.of_nat n → b + j < size → bit_set d j = true
  end.
Proof.
  revert bi. induction n as [|n IH]; intros bi; cbn [find_free_bit]; [intros; lia|].
  destruct (b + bi <? size) eqn:E; zbool; cbn [negb]; [|intros; lia].
  destruct (bit_set d bi) eqn:Eb; cbn [negb]; [|split_and!; [lia..|done|intros; lia]].
  specialize (IH (bi + 1)). destruct (find_free_bit _ _ _ _ _) as [k|].
  - destruct IH as (I1 & I2 & I3 & I4). split_and!; [lia..|done|].
    intros j Hj. destruct (decide (j = bi)) as [->|]; [done|]. apply I4. lia.
  - intros j Hj Hs. destruct (decide (j = bi)) as [->|]; [done|]. apply IH; lia.
Qed.

(** ** The bitmap *)

Definition used (s : kstate) (b : Z) : bool := bit_set (fview s (BBLOCK b (sb s))) (b mod BPB).

(** No held buffer is a bitmap block or a free block. *)
Definition apart (H : list (nat * Z)) (s : kstate) : Prop :=
  ∀ x, x ∈ H.*2 → used s x = true ∧ ∀ c, 0 ≤ c < sb_size (sb s) → BBLOCK c (sb s) ≠ x.

Lemma BPB_pos : 0 < BPB.
Proof. done. Qed.
Lemma bitmap_add q bi S :
  0 ≤ bi < BPB → BBLOCK (BPB * q + bi) S = BBLOCK (BPB * q) S ∧ (BPB * q + bi) mod BPB = bi.
Proof.
  intros Hb. pose proof BPB_pos. unfold BBLOCK. rewrite !(Z.mul_comm BPB).
  rewrite Z.div_add_l, Z.div_mul, Z.div_small, Z.add_0_r by lia. split; [done|].
  rewrite Z.add_comm, Z.mod_add by lia. by apply Z.mod_small.
Qed.

Section alloc.
Context (me : proc) (H : list (nat * Z)).
Implicit Types (s : kstate).

Lemma used_same s s' : moves s s' → (∀ x, fview s' x = fview s x) → ∀ b, used s' b = used s b.
Proof using. intros Hm Hv b. unfold used. by rewrite Hv, (moves_sb _ _ Hm). Qed.
Lemma apart_same s s' : moves s s' → (∀ x, fview s' x = fview s x) → apart H s → apart H s'.
Proof using.
  intros Hm Hv Ha x Hx. rewrite (used_same s s' Hm Hv), (moves_sb _ _ Hm). by apply Ha.
Qed.

(** Read, change, log and release one block. *)
Lemma modify_txn s bno (f : list Z → list Z) :
  txn me H s → 1 ≤ lg_outstanding (log s) → bno ∉ H.*2 → (used_buffers H s < NBUF)%nat →
  (∀ d, length d = Z.to_nat BSIZE → length (f d) = Z.to_nat BSIZE) →
  ∃ i s1 x s2 s3 s', bread ROOTDEV bno s = Ok i s1 ∧ getb i s1 = Ok x s1 ∧ b_data x = fview s bno ∧
    (setdata i f s1 = Ok () s2 ∧ log_write i s2 = Ok () s3 ∧ brelse i s3 = Ok () s') ∧
    moves s s' ∧ txn me H s' ∧ logged (log s') = note bno (logged (log s)) ∧
    ∀ x, fview s' x = if decide (x = bno) then f (fview s bno) else fview s x.
Proof using.
  intros T Hout Hn Hroom Hf. destruct (bread_txn me H s bno T Hn Hroom) as (i & s1 & E1 & M1 & L1 & T1 & V1).
  destruct (getb_txn me _ s1 i bno T1) as (x & Ex & Dx & _); [left|].
  destruct (update_txn me _ s1 i bno f T1) as (s2 & s3 & E2 & E3 & M3 & T3 & L3 & V3); [left| |by rewrite L1|done|].
  { pose proof (logged_length _ (tn_log _ _ _ T)). rewrite L1. unfold used_buffers in Hroom.
    change LOGBLOCKS with (Z.of_nat NBUF). lia. }
  destruct (brelse_txn me H s3 i bno T3) as (s4 & E4 & M4 & L4 & T4 & V4).
  exists i, s1, x, s2, s3, s4. split_and!; try done.
  - by rewrite Dx, V1.
  - by rewrite M1, M3.
  - by rewrite L4, L3, L1.
  - intros y. rewrite V4, V3, !V1. done.
Qed.

Lemma bzero_txn s bno :
  txn me H s → 1 ≤ lg_outstanding (log s) → bno ∉ H.*2 → (used_buffers H s < NBUF)%nat →
  ∃ s', bzero ROOTDEV bno s = Ok () s' ∧ moves s s' ∧ txn me H s' ∧
    logged (log s') = note bno (logged (log s)) ∧
    ∀ x, fview s' x = if decide (x = bno) then zero_block else fview s x.
Proof using.
  intros T Hout Hn Hroom.
  destruct (modify_txn s bno (λ d, zero_bytes (Z.to_nat BSIZE) 0 d) T Hout Hn Hroom)
    as (i & s1 & x & s2 & s3 & s' & E1 & _ & _ & (E2 & E3 & E4) & M & T' & L & V).
  { intros d Hd. rewrite zero_bytes_all by done. apply length_replicate. }
  exists s'. unfold bzero. rewrite (bind_ok _ _ _ _ _ E1), (bind_ok _ _ _ _ _ E2), (bind_ok _ _ _ _ _ E3).
  split_and!; try done. intros y. rewrite V. case_decide; [|done]. apply zero_bytes_all, (cview_length _ _ _ (tn_ok _ _ _ T)).
Qed.

(** What [balloc] does from a state [s]: take the least free block from [b0]
    on, or find none. *)
Definition took s (b0 b : Z) s' : Prop :=
  b0 ≤ b < sb_size (sb s) ∧ used s b = false ∧ (∀ c, b0 ≤ c < b → used s c = true) ∧
  moves s s' ∧ txn me H s' ∧
  logged (log s') = note b (note (BBLOCK b (sb s)) (logged (log s))) ∧
  ∀ x, fview s' x = if decide (x = b) then zero_block
    else if decide (x = BBLOCK b (sb s)) then set_bit (b mod BPB) (fview s x) else fview s x.
Definition full s (b0 : Z) s' : Prop :=
  (∀ c, b0 ≤ c < sb_size (sb s) → used s c = true) ∧ moves s s' ∧ txn me H s' ∧ log s' = log s ∧
  ∀ x, fview s' x = fview s x.

(** A bitmap block without a free bit is skipped. *)
Lemma took_later s s1 b0 b1 b s' :
  moves s s1 → log s1 = log s → (∀ x, fview s1 x = fview s x) → b0 ≤ b1 →
  (∀ c, b0 ≤ c < b1 → c < sb_size (sb s) → used s c = true) → took s1 b1 b s' → took s b0 b s'.
Proof using.
  intros M L V Hb Hu (T1 & T2 & T3 & T4 & T5 & T6 & T7). unfold took.
  rewrite (moves_sb _ _ M) in *. rewrite (used_same s s1 M V) in T2. split_and!; try done; [lia|lia| | | |].
  - intros c Hc. destruct (decide (c < b1)); [apply Hu; lia|]. rewrite <- (used_same s s1 M V). apply T3. lia.
  - by rewrite M.
  - by rewrite T6, L.
  - intros x. by rewrite T7, !V.
Qed.
Lemma full_later s s1 b0 b1 s' :
  moves s s1 → log s1 = log s → (∀ x, fview s1 x = fview s x) →
  (∀ c, b0 ≤ c < b1 → c < sb_size (sb s) → used s c = true) → full s1 b1 s' → full s b0 s'.
Proof using.
  intros M L V Hu (T1 & T2 & T3 & T4 & T5). unfold full. rewrite (moves_sb _ _ M) in *. split_and!; try done.
  - intros c Hc. destruct (decide (c < b1)); [apply Hu; lia|]. rewrite <- (used_same s s1 M V). apply T1. lia.
  - by rewrite M.
  - by rewrite T4, L.
  - intros x. by rewrite T5, V.
Qed.

Lemma balloc_loop_txn fuel s q :
  txn me H s → 1 ≤ lg_outstanding (log s) → apart H s → (used_buffers H s + 2 ≤ NBUF)%nat → LPr ∉ locks s → 0 ≤ q →
  sb_size (sb s) ≤ BPB * (q + Z.of_nat fuel - 1) → (0 < fuel)%nat →
  (∃ b s', balloc_loop fuel ROOTDEV (BPB * q) s = Ok b s' ∧ took s (BPB * q) b s') ∨
  (∃ s', balloc_loop fuel ROOTDEV (BPB * q) s = Ok 0 s' ∧ full s (BPB * q) s').
Proof using.
  pose proof BPB_pos as Hp.
  revert s q. induction fuel as [|fuel IH]; intros s q T Hout Ha Hroom HL Hq Hf Hf0; [lia|].
  cbn [balloc_loop]. rewrite bind_gets. destruct (BPB * q <? sb_size (sb s)) eqn:E; zbool; cbn [negb].
  2:{ right. destruct (kprintf_txn me H s (line "balloc: out of blocks") [] T HL) as (s' & E' & M & T' & L & V).
      exists s'. rewrite (bind_ok _ _ _ _ _ E'). split; [done|]. split_and!; try done; [intros; lia|by rewrite V]. }
  assert (BBLOCK (BPB * q) (sb s) ∉ H.*2) as Hn.
  { intros Hin. destruct (Ha _ Hin) as [_ Hc]. apply (Hc (BPB * q)); [lia|done]. }
  set (fb := find_free_bit (Z.to_nat BPB) (fview s (BBLOCK (BPB * q) (sb s))) (BPB * q) 0 (sb_size (sb s))).
  pose proof (find_free_bit_spec (Z.to_nat BPB) (fview s (BBLOCK (BPB * q) (sb s))) (BPB * q) 0 (sb_size (sb s))) as Hfb.
  fold fb in Hfb. rewrite Z2Nat.id in Hfb by lia. destruct fb as [bi|] eqn:Efb; subst fb.
  - left. destruct Hfb as (F1 & F2 & F3 & F4). destruct (bitmap_add q bi (sb s) ltac:(lia)) as [B1 B2].
    destruct (modify_txn s (BBLOCK (BPB * q) (sb s)) (set_bit bi) T Hout Hn)
      as (i & s1 & x & s1' & s1'' & s2 & E1 & Ex & Dx & (E2 & E2' & E2'') & M2 & T2 & L2 & V2);
      [lia|intros; by rewrite length_set_bit|].
    assert (used s (BPB * q + bi) = false) as Hu by (unfold used; by rewrite B1, B2).
    destruct (bzero_txn s2 (BPB * q + bi) T2) as (s3 & E3 & M3 & T3 & L3 & V3).
    { by rewrite (moves_outstanding _ _ M2). }
    { intros Hin. destruct (Ha _ Hin) as [Ht _]. congruence. }
    { pose proof (length_note (BBLOCK (BPB * q) (sb s)) (logged (log s))). unfold used_buffers in *. rewrite L2. lia. }
    exists (BPB * q + bi), s3.
    rewrite (bind_ok _ _ _ _ _ E1), (bind_ok _ _ _ _ _ Ex), Dx, Efb, (bind_ok _ _ _ _ _ E2), (bind_ok _ _ _ _ _ E2').
    rewrite (bind_ok _ _ _ _ _ E2''), (bind_ok _ _ _ _ _ E3). split; [done|]. unfold took. rewrite B1, B2.
    split_and!; try done; [lia| |by rewrite M2|by rewrite L3, L2|].
    + intros c Hc. unfold used. replace c with (BPB * q + (c - BPB * q)) by lia.
      destruct (bitmap_add q (c - BPB * q) (sb s) ltac:(lia)) as [-> ->]. apply F4. lia.
    + intros y. rewrite V3, V2. repeat case_decide; subst; done.
  - destruct (bread_txn me H s _ T Hn) as (i & s1 & E1 & M1 & L1 & T1 & V1); [lia|].
    destruct (getb_txn me _ s1 i (BBLOCK (BPB * q) (sb s)) T1) as (x & Ex & Dx & _); [left|]. rewrite V1 in Dx.
    destruct (brelse_txn me H s1 i _ T1) as (s2 & E2 & M2 & L2 & T2 & V2).
    rewrite (bind_ok _ _ _ _ _ E1), (bind_ok _ _ _ _ _ Ex), Dx, Efb, (bind_ok _ _ _ _ _ E2).
    assert (moves s s2) as M by (by rewrite M1). assert (log s2 = log s) as L by congruence.
    assert (∀ x, fview s2 x = fview s x) as V by (intros y; by rewrite V2).
    assert (∀ c, BPB * q ≤ c < BPB * (q + 1) → c < sb_size (sb s) → used s c = true) as Hu.
    { intros c Hc Hs. unfold used. replace c with (BPB * q + (c - BPB * q)) by lia.
      destruct (bitmap_add q (c - BPB * q) (sb s) ltac:(lia)) as [-> ->]. apply Hfb; lia. }
    replace (BPB * q + BPB) with (BPB * (q + 1)) by lia.
    destruct (IH s2 (q + 1)) as [(b & s' & E' & R)|(s' & E' & R)]; try done.
    + by rewrite (moves_outstanding _ _ M).
    + by eapply apart_same.
    + unfold used_buffers. by rewrite L.
    + by rewrite (moves_locks _ _ M).
    + lia.
    + rewrite (moves_sb _ _ M). by replace (q + 1 + Z.of_nat fuel - 1) with (q + Z.of_nat (S fuel) - 1) by lia.
    + destruct fuel; [|lia]. replace (q + Z.of_nat 1 - 1) with q in Hf by lia. lia.
    + left. exists b, s'. split; [done|]. eapply took_later; [done..| |done|done]. lia.
    + right. exists s'. split; [done|]. by eapply full_later.
Qed.

Lemma balloc_txn s :
  txn me H s → 1 ≤ lg_outstanding (log s) → apart H s → (used_buffers H s + 2 ≤ NBUF)%nat → LPr ∉ locks s → 0 ≤ sb_size (sb s) →
  (∃ b s', balloc ROOTDEV s = Ok b s' ∧ took s 0 b s') ∨
  (∃ s', balloc ROOTDEV s = Ok 0 s' ∧ full s 0 s').
Proof using.
  intros T Hout Ha Hroom HL Hs. unfold balloc. rewrite bind_gets. pose proof BPB_pos as Hp.
  destruct (balloc_loop_txn (S (S (Z.to_nat (sb_size (sb s) / BPB)))) s 0 T Hout Ha Hroom HL) as [R|R];
    [lia| |lia|by left|by right].
  pose proof (Z.div_mod (sb_size (sb s)) BPB). pose proof (Z.mod_pos_bound (sb_size (sb s)) BPB).
  pose proof (Z.div_pos (sb_size (sb s)) BPB). rewrite !Nat2Z.inj_succ, Z2Nat.id by lia. nia.
Qed.

(** [bfree] clears the bit of a used block. *)
Lemma bfree_txn s b :
  txn me H s → 1 ≤ lg_outstanding (log s) → BBLOCK b (sb s) ∉ H.*2 → (used_buffers H s < NBUF)%nat →
  used s b = true →
  ∃ s', bfree ROOTDEV b s = Ok () s' ∧ moves s s' ∧ txn me H s' ∧
    logged (log s') = note (BBLOCK b (sb s)) (logged (log s)) ∧
    ∀ x, fview s' x = if decide (x = BBLOCK b (sb s)) then clear_bit (b mod BPB) (fview s x) else fview s x.
Proof using.
  intros T Hout Hn Hroom Hu.
  destruct (modify_txn s (BBLOCK b (sb s)) (clear_bit (b mod BPB)) T Hout Hn Hroom)
    as (i & s1 & x & s2 & s3 & s' & E1 & Ex & Dx & (E2 & E3 & E4) & M & T' & L & V);
    [intros; by rewrite length_clear_bit|].
  exists s'. unfold bfree. rewrite bind_gets, (bind_ok _ _ _ _ _ E1), (bind_ok _ _ _ _ _ Ex), Dx.
  unfold used in Hu. rewrite Hu. cbn [negb].
  rewrite (bind_ok _ _ _ _ _ E2), (bind_ok _ _ _ _ _ E3). split_and!; try done.
  intros y. rewrite V. by case_decide; subst.
Qed.
Lemma bfree_free s b :
  txn me H s → BBLOCK b (sb s) ∉ H.*2 → (used_buffers H s < NBUF)%nat → used s b = false →
  bfree ROOTDEV b s = Panic "freeing free block".
Proof using.
  intros T Hn Hroom Hu. destruct (bread_txn me H s _ T Hn Hroom) as (i & s1 & E1 & M1 & L1 & T1 & V1).
  destruct (getb_txn me _ s1 i (BBLOCK b (sb s)) T1) as (x & Ex & Dx & _); [left|]. rewrite V1 in Dx.
  unfold bfree. rewrite bind_gets, (bind_ok _ _ _ _ _ E1), (bind_ok _ _ _ _ _ Ex), Dx.
  unfold used in Hu. by rewrite Hu.
Qed.
End alloc.

(** ** The pool of free blocks *)

(** The bitmap blocks themselves are not free. *)
Definition bitmap_used (s : kstate) : Prop :=
  0 ≤ sb_size (sb s) < 2 ^ 32 ∧ ∀ c, 0 ≤ c < sb_size (sb s) → used s (BBLOCK c (sb s)) = true.

Lemma bitmap_inj S b c :
  0 ≤ b < 2 ^ 32 → 0 ≤ c < 2 ^ 32 → BBLOCK b S = BBLOCK c S → b mod BPB = c mod BPB → b = c.
Proof.
  intros Hb Hc E1 E2. pose proof BPB_pos. rewrite (Z.div_mod b BPB), (Z.div_mod c BPB), E2 by lia.
  assert (∀ x, 0 ≤ x < 2 ^ 32 → 0 ≤ x / BPB < 2 ^ 32) as Hd.
  { intros x Hx. split; [apply Z.div_pos; lia|]. apply Z.div_lt_upper_bound; [done|]. change BPB with 8192. lia. }
  pose proof (Hd b Hb). pose proof (Hd c Hc). unfold BBLOCK, u32 in E1.
  assert (b / BPB = c / BPB) as ->; [|done].
  rewrite <- (Z.mod_small (b / BPB) (2 ^ 32)), <- (Z.mod_small (c / BPB) (2 ^ 32)) by done.
  replace (b / BPB) with (b / BPB + sb_bmapstart S - sb_bmapstart S) by lia.
  replace (c / BPB) with (c / BPB + sb_bmapstart S - sb_bmapstart S) by lia.
  by rewrite <- (Zminus_mod_idemp_l (b / BPB + _)), E1, Zminus_mod_idemp_l.
Qed.

(** One bit of the bitmap changes, and perhaps blocks outside it. *)
Lemma used_update s s' b (v : bool) (f : Z → list Z → list Z) :
  sb s' = sb s → 0 ≤ sb_size (sb s) < 2 ^ 32 → 0 ≤ b < sb_size (sb s) →
  (∀ d j, length d = Z.to_nat BSIZE → 0 ≤ j → bit_set (f (b mod BPB) d) j =
     if decide (j = b mod BPB) then v else bit_set d j) →
  bc_ok (bcache s) (disk s) →
  fview s' (BBLOCK b (sb s)) = f (b mod BPB) (fview s (BBLOCK b (sb s))) →
  (∀ c, 0 ≤ c < sb_size (sb s) → BBLOCK c (sb s) ≠ BBLOCK b (sb s) →
     fview s' (BBLOCK c (sb s)) = fview s (BBLOCK c (sb s))) →
  ∀ c, 0 ≤ c < sb_size (sb s) → used s' c = if decide (c = b) then v else used s c.
Proof.
  intros Hsb Hsz Hb Hf Ho Hv1 Hv2 c Hc. unfold used. rewrite Hsb.
  pose proof (Z.mod_pos_bound c BPB BPB_pos).
  destruct (decide (BBLOCK c (sb s) = BBLOCK b (sb s))) as [E|E].
  - rewrite E, Hv1, Hf by (apply (cview_length _ _ _ Ho) || lia).
    destruct (decide (c = b)) as [->|Hne]; [by rewrite decide_True|].
    rewrite decide_False; [done|]. intros E'. apply Hne. eapply bitmap_inj; lia || done.
  - rewrite Hv2 by done. rewrite decide_False; [done|]. congruence.
Qed.

(** Both outcomes of [balloc], with the blocks it logs. *)
Lemma balloc_pool me H s :
  txn me H s → 1 ≤ lg_outstanding (log s) → apart H s → bitmap_used s → (used_buffers H s + 2 ≤ NBUF)%nat → LPr ∉ locks s →
  ∃ r s', balloc ROOTDEV s = Ok r s' ∧ moves s s' ∧ txn me H s' ∧
    ((0 ≤ r < sb_size (sb s) ∧ used s r = false ∧ (∀ c, 0 ≤ c < r → used s c = true) ∧
      (∀ c, 0 ≤ c < sb_size (sb s) → used s' c = if decide (c = r) then true else used s c) ∧
      fview s' r = zero_block ∧ (∀ x, x ≠ r → x ≠ BBLOCK r (sb s) → fview s' x = fview s x) ∧
      logged (log s') = note r (note (BBLOCK r (sb s)) (logged (log s)))) ∨
     (r = 0 ∧ (∀ c, 0 ≤ c < sb_size (sb s) → used s c = true) ∧ (∀ x, fview s' x = fview s x) ∧ log s' = log s)).
Proof.
  intros T Hout Ha [Hsz Hbm] Hroom HL.
  destruct (balloc_txn me H s T Hout Ha Hroom HL ltac:(lia)) as [(b & s' & E & R)|(s' & E & R1 & R2 & R3 & RL & R4)].
  - destruct R as ([R0 R1] & R2 & R3 & M & T' & L & V). exists b, s'. split_and!; try done. left.
    assert (∀ c, 0 ≤ c < sb_size (sb s) → BBLOCK c (sb s) ≠ b) as Hne.
    { intros c Hc Eb. specialize (Hbm c Hc). congruence. }
    split_and!; try done.
    + apply (used_update s s' b true set_bit); [by apply moves_sb|lia|lia| | | |].
      * intros d j Hd Hj. apply bit_set_set; [done| |done]. apply Z.mod_pos_bound, BPB_pos.
      * apply T.
      * rewrite V, decide_False, decide_True by (done || by apply Hne). done.
      * intros c Hc Hcb. rewrite V, !decide_False; [done|done|by apply Hne].
    + by rewrite V, decide_True.
    + intros x Hx1 Hx2. by rewrite V, !decide_False.
  - exists 0, s'. split_and!; try done. right. done.
Qed.

(** C5: [balloc] refines a pool of free blocks: it takes the least free block,
    marks exactly that one used and zeroes it, changing no other block but the
    bitmap; with no free block it returns 0 and changes no block. *)
Theorem balloc_refines_pool me H s :
  txn me H s → 1 ≤ lg_outstanding (log s) → apart H s → bitmap_used s → (used_buffers H s + 2 ≤ NBUF)%nat → LPr ∉ locks s →
  ∃ r s', balloc ROOTDEV s = Ok r s' ∧ moves s s' ∧ txn me H s' ∧
    ((0 ≤ r < sb_size (sb s) ∧ used s r = false ∧ (∀ c, 0 ≤ c < r → used s c = true) ∧
      (∀ c, 0 ≤ c < sb_size (sb s) → used s' c = if decide (c = r) then true else used s c) ∧
      fview s' r = zero_block ∧ ∀ x, x ≠ r → x ≠ BBLOCK r (sb s) → fview s' x = fview s x) ∨
     (r = 0 ∧ (∀ c, 0 ≤ c < sb_size (sb s) → used s c = true) ∧ ∀ x, fview s' x = fview s x)).
Proof.
  intros T Hout Ha Hb Hroom HL. destruct (balloc_pool me H s T Hout Ha Hb Hroom HL) as (r & s' & E & M & T' & R).
  exists r, s'. split_and!; try done. destruct R as [(? & ? & ? & ? & ? & ? & _)|(? & ? & ? & _)]; [left|right]; done.
Qed.

(** The first 60 of 100 blocks in use, the bitmap in block 45. *)
Definition demo_bitmap : list Z := replicate 7 255 ++ [15] ++ replicate (Z.to_nat BSIZE - 8) 0.
Definition demo_sb : superblock := mk_superblock FSMAGIC 100 0 200 30 2 33 45.
Definition demo_fs : kstate := first_op {[45 := demo_bitmap]} demo_sb [].
Lemma demo_disk_ok : disk_ok {[45 := demo_bitmap]}.
Proof. intros bn d [<- <-]%lookup_singleton_Some. vm_compute. reflexivity. Qed.
Lemma demo_used_at I b :
  0 ≤ b < 100 → used (first_op {[45 := demo_bitmap]} demo_sb I) b = bit_set demo_bitmap b.
Proof.
  intros Hb. unfold used. rewrite (proj2 (first_op_txn _ demo_sb I demo_disk_ok)). unfold first_op.
  autorewrite with kst. change BPB with 8192. rewrite Z.mod_small by lia.
  replace (BBLOCK b _) with 45; [done|]. unfold BBLOCK. change BPB with 8192. rewrite Z.div_small by lia. done.
Qed.
Lemma demo_used b : 0 ≤ b < 100 → used demo_fs b = bit_set demo_bitmap b.
Proof. apply demo_used_at. Qed.
Lemma balloc_refines_pool_witness :
  ∃ s', balloc ROOTDEV demo_fs = Ok 60 s' ∧ used s' 60 = true ∧ used s' 61 = false.
Proof.
  destruct (balloc_refines_pool proc0 [] demo_fs) as (r & s' & E & _ & _ & [R|R]).
  - apply first_op_txn, demo_disk_ok.
  - reflexivity.
  - intros x Hx. by apply not_elem_of_nil in Hx.
  - split; [done|]. intros c Hc. change (sb demo_fs) with demo_sb in *. cbn in Hc. unfold BBLOCK. change BPB with 8192.
    rewrite Z.div_small by lia. change (u32 _) with 45. by rewrite demo_used by lia.
  - vm_compute. lia.
  - apply not_elem_of_nil.
  - change (sb demo_fs) with demo_sb in R. change (sb_size demo_sb) with 100 in R.
    destruct R as (R1 & R2 & R3 & R4 & _).
    assert (r = 60) as ->.
    { destruct (Z.lt_trichotomy r 60) as [Hlt|[->|Hgt]]; [|done|].
      - exfalso. rewrite demo_used in R2 by lia.
        assert (forallb (bit_set demo_bitmap) (seqZ 0 60) = true) as Hall by (vm_compute; reflexivity).
        rewrite forallb_forall in Hall. rewrite Hall in R2; [done|]. apply list_elem_of_In, elem_of_seqZ. lia.
      - exfalso. specialize (R3 60 ltac:(lia)). rewrite demo_used in R3 by lia. vm_compute in R3. discriminate. }
    exists s'. split; [exact E|]. rewrite !R4 by lia. split; [done|]. rewrite decide_False, demo_used by lia. reflexivity.
  - exfalso. destruct R as (_ & R & _). change (sb demo_fs) with demo_sb in R. change (sb_size demo_sb) with 100 in R.
    specialize (R 60 ltac:(lia)). rewrite demo_used in R by lia. vm_compute in R. discriminate.
Defined.

(** [bfree] gives a block back to the pool: its bit alone is cleared and no
    block outside the bitmap changes; a block that is free already is refused
    with a panic.  So [bfree] undoes what [balloc] did to the bitmap. *)
Theorem bfree_gives_back me H s b :
  txn me H s → 1 ≤ lg_outstanding (log s) → BBLOCK b (sb s) ∉ H.*2 → (used_buffers H s < NBUF)%nat →
  0 ≤ b < sb_size (sb s) → sb_size (sb s) < 2 ^ 32 →
  if used s b then
    ∃ s', bfree ROOTDEV b s = Ok () s' ∧ moves s s' ∧ txn me H s' ∧
      (∀ c, 0 ≤ c < sb_size (sb s) → used s' c = if decide (c = b) then false else used s c) ∧
      ∀ x, x ≠ BBLOCK b (sb s) → fview s' x = fview s x
  else bfree ROOTDEV b s = Panic "freeing free block".
Proof.
  intros T Hout Hn Hroom Hb Hsz. destruct (used s b) eqn:Hu; [|by apply (bfree_free me H)].
  destruct (bfree_txn me H s b T Hout Hn Hroom Hu) as (s' & E & M & T' & _ & V). exists s'. split_and!; try done.
  - apply (used_update s s' b false clear_bit); [by apply moves_sb|lia|lia| | | |].
    + intros d j Hd Hj. apply bit_set_clear; [done| |done]. apply Z.mod_pos_bound, BPB_pos.
    + apply T.
    + by rewrite V, decide_True.
    + intros c Hc Hcb. by rewrite V, decide_False.
  - intros x Hx. by rewrite V, decide_False.
Qed.
Lemma bfree_gives_back_witness :
  (∃ s', bfree ROOTDEV 59 demo_fs = Ok () s' ∧ used s' 59 = false) ∧
  bfree ROOTDEV 61 demo_fs = Panic "freeing free block".
Proof.
  assert (∀ b, 0 ≤ b < 100 → if used demo_fs b then ∃ s', bfree ROOTDEV b demo_fs = Ok () s' ∧ used s' b = false
    else bfree ROOTDEV b demo_fs = Panic "freeing free block") as Hb.
  { intros b Hb. pose proof (bfree_gives_back proc0 [] demo_fs b) as R.
    destruct (used demo_fs b) eqn:E.
    - destruct R as (s' & E1 & _ & _ & R & _); [apply first_op_txn, demo_disk_ok|done|apply not_elem_of_nil|vm_compute; lia|done..|].
      exists s'. split; [exact E1|]. rewrite R by done. by rewrite decide_True.
    - apply R; [apply first_op_txn, demo_disk_ok|done|apply not_elem_of_nil|vm_compute; lia|done..]. }
  split; [specialize (Hb 59 ltac:(lia))|specialize (Hb 61 ltac:(lia))]; by rewrite demo_used in Hb by lia.
Defined.
