(* ===== verification/FsCommit.v ===== *)
(** * Transactions from [begin_op] to [end_op]

    [idle me s]: no operation is outstanding and no buffer is referenced, so
    that the cache agrees with the disk.  [begin_op] opens a transaction in
    such a state; [end_op] of the only operation commits what the transaction
    has logged and leaves an idle state whose disk holds every block as the
    transaction saw it. *)

From S2P Require Import Prelude Bytes Riscv Kstate CString Kalloc Vm Sched Bio Log LogProps LogCrash LogTxn Printf Console Fs FsTxn FsAlloc.

Record idle (me : proc) (s : kstate) : Prop := {
  id_txn : txn me [] s;
  id_n : lh_n (log s) = 0;
  id_out : lg_outstanding (log s) = 0;
  id_com : lg_committing (log s) = false;
}.

Lemma idle_logged me s : idle me s → logged (log s) = [].
Proof. intros Hi. unfold logged. by rewrite (id_n _ _ Hi). Qed.
Lemma idle_refs me s i b : idle me s → (i < NBUF)%nat → bcache s !! i = Some b → b_refcnt b = 0.
Proof.
  intros Hi Hk Hb. rewrite (tn_refs _ _ _ (id_txn _ _ Hi) i b Hk Hb), (idle_logged me s Hi). unfold nrefs.
  by rewrite !decide_False by (rewrite ?elem_of_nil; tauto).
Qed.
Lemma idle_view me s bn : idle me s → fview s bn = dblock (disk s) bn.
Proof.
  intros Hi. pose proof (id_txn _ _ Hi) as T.
  destruct (cview_cases (bcache s) (disk s) bn) as [(i & b & Hk & Hb & Hv & Hd & Hn & E)|[_ E]]; [|exact E].
  unfold fview. rewrite E, <- Hn. eapply (bo_clean _ _ (tn_ok _ _ _ T)); [done..|]. by eapply idle_refs.
Qed.

Lemma txn_opened me H s n :
  txn me H s → txn me H (s <| upd_log ::= λ G, G <| upd_lg_outstanding := n |> |>).
Proof.
  intros [? ? [(c & Hc & Hm) ? ? ? ?] ? ? ? ? ? ? [? ?] ?]. split; try done. split; try done. by exists c.
Qed.
Lemma quiet_txn me s l :
  qinv (bcache s) l (disk s) → (∀ i b, (i < NBUF)%nat → bcache s !! i = Some b → b_refcnt b = 0) →
  tctx s (procs s) (locks s) me → LLog ∉ locks s → log_wf (log s) → lh_n (log s) = 0 → txn me [] s.
Proof.
  intros Hq Href Ht HL Hwf Hn. assert (logged (log s) = []) as Hl by (unfold logged; by rewrite Hn).
  split; rewrite ?Hl; try done; try exact NoDup_nil_2.
  - exists l. apply Hq.
  - apply Hq.
  - intros i b Hi Hb _. by eapply (q_quiet _ _ _ Hq).
  - intros i b Hi Hb. unfold nrefs. rewrite !decide_False by (rewrite ?elem_of_nil; tauto). by eapply Href.
  - by intros i bn ?%not_elem_of_nil.
  - by intros bn ?%not_elem_of_nil.
Qed.

(** ** begin_op *)

Lemma begin_op_idle me s :
  idle me s →
  ∃ s1, begin_op s = Ok () s1 ∧ moves (s <| upd_log ::= λ G, G <| upd_lg_outstanding := 1 |> |>) s1 ∧
    txn me [] s1 ∧ logged (log s1) = [] ∧ ∀ bn, fview s1 bn = dblock (disk s) bn.
Proof.
  intros Hi. pose proof Hi as [T Hn Ho Hcm]. pose proof (tn_llog _ _ _ T) as HL. unfold begin_op.
  rewrite (bind_ok _ _ _ _ _ (acquire_ok _ _ HL)). change WAKEUPS with (S 99). generalize 99%nat. intros n.
  cbn [begin_op_loop]. rewrite bind_gets.
  change (log (upd_locks (cons LLog) s)) with (log s). rewrite Hcm, Hn, Ho.
  change (LOGBLOCKS <? 0 + (0 + 1) * MAXOPBLOCKS) with false. cbn iota.
  unfold updlog. rewrite bind_modify. erewrite release_head by done.
  exists (s <| upd_log ::= λ G, G <| upd_lg_outstanding := 1 |> |>).
  split; [|split; [reflexivity|]].
  { assert (∀ G, lg_outstanding G = 0 → upd_lg_outstanding (λ o, o + 1) G = upd_lg_outstanding (λ _, 1) G) as E
      by (intros []; cbn; by intros ->).
    destruct s as []. cbn in *. unfold upd_log. cbn. by rewrite E. }
  split; [|split; [exact (idle_logged me s Hi)|intros bn; exact (idle_view me s bn Hi)]].
  by apply txn_opened.
Qed.

(** ** end_op *)

(** The blocks of the transaction lie outside the log area. *)
Definition outside_log (s : kstate) : Prop :=
  ∀ bn, bn ∈ logged (log s) → 0 ≤ bn < 2 ^ 31 ∧ data_block (lg_start (log s)) bn.

Lemma logged_nth G i : log_wf G → (i < Z.to_nat (lh_n G))%nat → nth i (lh_block G) 0 ∈ logged G.
Proof.
  intros [H1 H2] Hi. unfold logged. apply elem_take. exists i. split; [done|].
  destruct (lookup_lt_is_Some_2 (lh_block G) i) as [x Hx]; [lia|]. by rewrite (nth_lookup_Some _ _ _ _ Hx).
Qed.

Section commit.
Context (me : proc) (s : kstate) (T : txn me [] s).

Lemma txn_quiet l : ring (bcache s) l → qinv (bcache s) l (disk s).
Proof using T.
  intros Hr. split; [done|apply T| |].
  - intros i b Hi Hb. eapply (tn_free _ _ _ T); [done..|apply not_elem_of_nil].
  - intros i b Hi Hb. rewrite (tn_refs _ _ _ T i b Hi Hb). pose proof (nrefs_bound [] (logged (log s)) i b). lia.
Qed.

Lemma txn_wf_txn : outside_log s → txn_ok (lg_start (log s)) (lh_block (log s)) (Z.to_nat (lh_n (log s))).
Proof using T.
  intros Hout. pose proof (tn_log _ _ _ T) as Hwf. pose proof Hwf as [H1 H2]. split; [lia|done| |].
  - intros i Hi. apply (Hout _ (logged_nth _ i Hwf Hi)).
  - intros i j Hi Hj E. pose proof (tn_once _ _ _ T) as HN. unfold logged in HN.
    destruct (lookup_lt_is_Some_2 (lh_block (log s)) i) as [x Hx]; [lia|].
    destruct (lookup_lt_is_Some_2 (lh_block (log s)) j) as [y Hy]; [lia|].
    rewrite (nth_lookup_Some _ _ _ _ Hx), (nth_lookup_Some _ _ _ _ Hy) in E. subst y.
    eapply (NoDup_lookup _ i j x HN); by rewrite lookup_take_lt.
Qed.

Lemma txn_only_pins : only_pins (lh_block (log s)) 0 (Z.to_nat (lh_n (log s))) (bcache s).
Proof using T.
  intros k b Hk Hb. rewrite (tn_refs _ _ _ T k b Hk Hb). unfold nrefs.
  rewrite decide_False by apply not_elem_of_nil. case_decide as Hd; [|lia]. destruct Hd as [Hd Hin].
  intros _. split_and!; [done|done|]. unfold logged in Hin. apply elem_take in Hin as (i & Hi & E).
  exists i. split; [lia|]. by rewrite (nth_lookup_Some _ _ _ _ E).
Qed.
End commit.

(** What the disk writes of a commit do to the data blocks: nothing, they hold
    what the transaction saw. *)
Lemma commit_ws_data st V bl n bn :
  txn_ok st bl n → data_block st bn → applyv V (commit_ws st V bl n) bn = V bn.
Proof.
  intros Htx Hd. pose proof (data_not_st _ _ Hd) as Hne. unfold commit_ws. rewrite !applyv_app.
  set (d := hdr_put _ _ _). unfold applyv at 1. cbn [foldl fst snd]. rewrite decide_False by done.
  set (V1 := applyv (applyv V (log_ws st V bl n 0)) [(st, d)]).
  assert (V1 bn = V bn) as E1.
  { unfold V1, applyv at 1. cbn [foldl fst snd]. rewrite decide_False by done. apply applyv_notin.
    intros (i & Hi & E)%log_ws_fst. destruct Htx as [Hn _ _ _]. unfold data_block in Hd. lia. }
  destruct (decide (bn ∈ (home_new V bl n).*1)) as [Hin|Hin]; [|by rewrite applyv_notin].
  apply applyv_in; [by eapply NoDup_home_new|]. apply home_new_fst in Hin as (i & Hi & ->).
  unfold home_new. apply list_elem_of_fmap. exists i. split; [done|]. apply elem_of_seq. lia.
Qed.

Lemma commit_txn me s G :
  txn me [] s → outside_log s → (used_buffers [] s < NBUF)%nat → lg_dev (log s) = ROOTDEV →
  lh_n G = lh_n (log s) → lh_block G = lh_block (log s) → lg_start G = lg_start (log s) → lg_dev G = lg_dev (log s) →
  ∃ B' l' D' W' P',
    commit (setf (bcache s) (disk s) (dwrites s) (procs s) G (itable s) (locks s) s) =
      Ok () (setf B' D' W' P' (G <| upd_lh_n := 0 |>) (itable s) (locks s) s) ∧
    qinv B' l' D' ∧ tctx s P' (locks s) me ∧
    (∀ i b, (i < NBUF)%nat → B' !! i = Some b → b_refcnt b = 0) ∧
    ∀ bn, data_block (lg_start (log s)) bn → cview B' D' bn = fview s bn.
Proof.
  intros T Hout Hroom Hdev G1 G2 G3 G4. destruct (tn_ring _ _ _ T) as [l Hr].
  pose proof (txn_quiet me s T l Hr) as Hq. pose proof (tn_log _ _ _ T) as Hwf. pose proof Hwf as [Hn Hlen].
  destruct (decide (lh_n (log s) = 0)) as [Hz|Hz].
  - exists (bcache s), l, (disk s), (dwrites s), (procs s). split_and!; [|done|apply T| |done].
    + unfold commit. krun. rewrite G1, Hz. cbn. unfold mret, M_ret. do 2 f_equal.
      destruct G. cbn in *. by rewrite G1, Hz.
    + intros i b Hi Hb. rewrite (tn_refs _ _ _ T i b Hi Hb). unfold nrefs, logged. rewrite Hz.
      by rewrite !decide_False by (rewrite ?elem_of_nil; tauto).
  - pose proof (txn_wf_txn me s T Hout) as Htx. set (n := Z.to_nat (lh_n (log s))) in *.
    destruct (txn_spare me [] s T Hroom) as [k Hk].
    destruct (commit_ok s me n (bcache s) l k (disk s) (dwrites s) (procs s) G (itable s) (locks s))
      as (B' & l' & P' & E & Q & Tc & Hp & V); [done|apply T|done|congruence|congruence|lia|lia| |].
    { intros i Hi. rewrite G2. apply T, logged_nth; done. }
    rewrite G2 in *. specialize (Hp (txn_only_pins me s T)).
    eexists B', l', _, _, P'. split; [exact E|]. split; [exact Q|]. split; [exact Tc|]. split.
    + intros i b Hi Hb. pose proof (bo_ref _ _ (q_ok _ _ _ Q) i b Hi Hb).
      destruct (decide (0 < b_refcnt b)); [|lia]. destruct (Hp i b Hi Hb) as (_ & _ & j & Hj & _); lia.
    + intros bn Hd. rewrite V. rewrite G3. by apply commit_ws_data.
Qed.

(** [end_op] of the only operation. *)
Lemma end_op_txn me s :
  txn me [] s → lg_outstanding (log s) = 1 → lg_committing (log s) = false → lg_dev (log s) = ROOTDEV →
  outside_log s → (used_buffers [] s < NBUF)%nat →
  ∃ B' D' W' P' G', end_op s = Ok () (setf B' D' W' P' G' (itable s) (locks s) s) ∧
    idle me (setf B' D' W' P' G' (itable s) (locks s) s) ∧
    lg_start G' = lg_start (log s) ∧ lg_dev G' = ROOTDEV ∧
    ∀ bn, data_block (lg_start (log s)) bn → dblock D' bn = fview s bn.
Proof.
  intros T Ho Hcm Hdev Hout Hroom. pose proof (tn_llog _ _ _ T) as HL.
  set (G := (log s) <| upd_lg_outstanding := 0 |> <| upd_lg_committing := true |>).
  destruct (commit_txn me s G T Hout Hroom Hdev) as (B' & l' & D' & W' & P' & E & Q & Tc & Hz & V);
    [reflexivity..|].
  set (G' := G <| upd_lh_n := 0 |> <| upd_lg_committing := false |>).
  assert (∀ j, LProc j ∉ LLog :: locks s) as HLP by (intros j; rewrite not_elem_of_cons; split; [done|apply Tc]).
  assert (end_op s = Ok () (setf B' D' W' (wake_all ChLog (curproc s) P') G' (itable s) (locks s) s)) as Ee.
  { rewrite (setf_eta s) at 1. unfold end_op. rewrite (bind_ok _ _ _ _ _ (acquire_setf s LLog _ _ _ _ _ _ _ HL)).
    unfold updlog. krun. cbn [lg_committing lg_outstanding upd_lg_outstanding]. rewrite Hcm, Ho. cbn iota.
    change (1 - 1 =? 0) with true. cbn iota. rewrite bind_modify2, upd_log_setf, bind_mret.
    rewrite (bind_ok _ _ _ _ _ (release_setf s LLog _ _ _ _ _ _ _)). cbn [whenM].
    assert (upd_lg_committing (λ _, true) (upd_lg_outstanding (λ o, o - 1) (log s)) = G) as ->.
    { unfold G. destruct (log s). cbn in *. by subst. }
    rewrite (bind_ok _ _ _ _ _ E), (bind_ok _ _ _ _ _ (acquire_setf s LLog _ _ _ _ _ _ _ HL)). krun.
    rewrite (bind_ok _ _ _ _ _ (wakeup_ok s ChLog _ _ _ _ _ _ _ HLP (tc_len _ _ _ _ Tc))).
    by rewrite release_setf. }
  exists B', D', W', (wake_all ChLog (curproc s) P'), G'. split; [exact Ee|].
  assert (idle me (setf B' D' W' (wake_all ChLog (curproc s) P') G' (itable s) (locks s) s)) as Hid.
  { split; [|by autorewrite with kst..]. apply quiet_txn with l'; autorewrite with kst; try done.
    - pose proof (tctx_wake _ _ _ _ ChLog Tc) as [(c & Hc & Hm) ? ? ? ?].
      split; autorewrite with kst; try done. by exists c.
    - destruct (tn_log _ _ _ T) as [? ?]. split; [cbn; unfold LOGBLOCKS, MAXOPBLOCKS; lia|done]. }
  split_and!; [exact Hid|done|done|]. intros bn Hd. rewrite <- V by done.
  pose proof (idle_view me _ bn Hid) as Hv. unfold fview in Hv. autorewrite with kst in Hv. by rewrite Hv.
Qed.

(** C3: A transaction is durable: from an idle state [begin_op], a body that
    works under the transaction's invariant and [end_op] leave an idle state
    again, with every data block of the disk as the body last saw it. *)
Theorem transaction_durable me s (body : K ()) (V : Z → list Z) :
  idle me s → lg_dev (log s) = ROOTDEV →
  (∀ s1, moves (s <| upd_log ::= λ G, G <| upd_lg_outstanding := 1 |> |>) s1 → txn me [] s1 → logged (log s1) = [] →
     (∀ bn, fview s1 bn = dblock (disk s) bn) →
     ∃ s2, body s1 = Ok () s2 ∧ moves s1 s2 ∧ txn me [] s2 ∧ outside_log s2 ∧ (used_buffers [] s2 < NBUF)%nat ∧
       ∀ bn, fview s2 bn = V bn) →
  ∃ s3, (begin_op;; body;; end_op) s = Ok () s3 ∧ idle me s3 ∧
    ∀ bn, data_block (lg_start (log s)) bn → dblock (disk s3) bn = V bn.
Proof.
  intros Hi Hdev Hbody. destruct (begin_op_idle me s Hi) as (s1 & E1 & M1 & T1 & L1 & V1).
  destruct (Hbody s1 M1 T1 L1 V1) as (s2 & E2 & M2 & T2 & Hout & Hroom & V2).
  destruct M1 as (B & P & G & O & -> & A1 & A2 & A3 & A4).
  destruct M2 as (B' & P' & G' & O' & -> & A1' & A2' & A3' & A4'). autorewrite with kst in *. cbn in *.
  edestruct end_op_txn as (B3 & D3 & W3 & P3 & G3 & E3 & I3 & _ & _ & V3); [exact T2|..|done|done|].
  1-3: rewrite log_setf; first [congruence|etransitivity; [eassumption|]; etransitivity; [eassumption|]; apply Hi].
  eexists. split; [rewrite (bind_ok _ _ _ _ _ E1), (bind_ok _ _ _ _ _ E2); exact E3|]. split; [exact I3|].
  intros bn Hd. rewrite disk_setf, V3; [apply V2|]. rewrite log_setf. by rewrite A1', A1.
Qed.

Definition idle_demo : kstate :=
  (first_op {[45 := demo_bitmap]} demo_sb []) <| upd_log ::= λ G, G <| upd_lg_outstanding := 0 |> |>.
Lemma idle_demo_ok : idle proc0 idle_demo.
Proof.
  destruct (first_op_txn {[45 := demo_bitmap]} demo_sb [] demo_disk_ok) as [T _].
  split; [by apply txn_opened|reflexivity..].
Qed.
Lemma opened_start s : lg_start (log (s <| upd_log ::= λ G, G <| upd_lg_outstanding := 1 |> |>)) = lg_start (log s).
Proof. done. Qed.
Lemma idle_demo_disk : disk idle_demo = {[45 := demo_bitmap]}.
Proof. unfold idle_demo, first_op. rewrite upd_log_setf. apply disk_setf. Qed.
Lemma idle_demo_start : lg_start (log idle_demo) = 2 ∧ lg_dev (log idle_demo) = ROOTDEV.
Proof. unfold idle_demo, first_op. by rewrite upd_log_setf, log_setf. Qed.
Lemma transaction_durable_witness :
  ∃ s3, (begin_op;; bzero ROOTDEV 70;; end_op) idle_demo = Ok () s3 ∧ dblock (disk s3) 70 = zero_block ∧
    dblock (disk s3) 45 = demo_bitmap.
Proof.
  destruct (transaction_durable proc0 idle_demo (bzero ROOTDEV 70)
    (λ bn, if decide (bn = 70) then zero_block else dblock (disk idle_demo) bn)) as (s3 & E & _ & V).
  - apply idle_demo_ok.
  - apply idle_demo_start.
  - intros s1 M1 T1 L1 V1. destruct (bzero_txn proc0 [] s1 70 T1) as (s2 & E2 & M2 & T2 & L2 & V2).
    + by rewrite (moves_outstanding _ _ M1).
    + apply not_elem_of_nil.
    + unfold used_buffers. rewrite L1. vm_compute. lia.
    + exists s2. rewrite L1 in L2. change (note 70 []) with [70] in L2. split_and!; try done.
      * intros bn Hbn. rewrite L2 in Hbn. apply list_elem_of_singleton in Hbn as ->. split; [lia|].
        rewrite (moves_start _ _ M2), (moves_start _ _ M1). rewrite opened_start, (proj1 idle_demo_start).
        unfold data_block, LOGBLOCKS, MAXOPBLOCKS. lia.
      * unfold used_buffers. rewrite L2. vm_compute. lia.
      * intros bn. rewrite V2, V1. done.
  - assert (∀ bn, 32 < bn → data_block (lg_start (log idle_demo)) bn) as Hd.
    { intros bn Hbn. rewrite (proj1 idle_demo_start). unfold data_block, LOGBLOCKS, MAXOPBLOCKS. lia. }
    exists s3. split; [exact E|]. rewrite !V by (apply Hd; lia). rewrite idle_demo_disk.
    split; [reflexivity|]. unfold dblock. rewrite decide_False by lia. by rewrite lookup_singleton_eq.
Defined.
