(* ===== verification/FsFile.v ===== *)
(** * kernel/fs.c: the content of an inode

    [baddr s x n] is the disk address of block [n] of the inode [x], through
    the direct addresses or the indirect block; [fslice s x off n] the bytes
    of the file from [off] on.  [bmap] looks the addresses up, [readi] returns
    the slice cut at the end of the file, and [dirlookup] the first entry of
    a directory with a name. *)

From S2P Require Import Prelude Bytes Riscv Kstate CString Kalloc Vm Sched Bio Log LogProps LogCrash LogTxn Printf Console Fs FsPath FsTxn FsAlloc.

Definition baddr (s : kstate) (x : inode) (n : Z) : Z :=
  if n <? Z.of_nat NDIRECT then nth (Z.to_nat n) (i_addrs x) 0
  else if nth NDIRECT (i_addrs x) 0 =? 0 then 0
  else ldl 4 (fview s (nth NDIRECT (i_addrs x) 0)) (Z.to_nat (4 * (n - Z.of_nat NDIRECT))).

Definition fbyte (s : kstate) (x : inode) (k : Z) : Z :=
  nth (Z.to_nat (k mod BSIZE)) (fview s (baddr s x (k / BSIZE))) 0.
Definition fslice (s : kstate) (x : inode) (off n : Z) : list Z := fbyte s x <$> seqZ off n.

(** Every block below the size has an address. *)
Record file_ok (s : kstate) (x : inode) : Prop := {
  fo_dev : i_dev x = ROOTDEV;
  fo_size : 0 ≤ i_size x ≤ MAXFILE * BSIZE;
  fo_mapped n : 0 ≤ n → n * BSIZE < i_size x → baddr s x n ≠ 0;
}.

Section views.
Context (s s' : kstate) (Hv : ∀ x, fview s' x = fview s x).
Lemma baddr_same x n : baddr s' x n = baddr s x n.
Proof using Hv. unfold baddr. by rewrite Hv. Qed.
Lemma fbyte_same x k : fbyte s' x k = fbyte s x k.
Proof using Hv. unfold fbyte. by rewrite baddr_same, Hv. Qed.
Lemma fslice_same x off n : fslice s' x off n = fslice s x off n.
Proof using Hv. apply list_fmap_ext. intros ???. apply fbyte_same. Qed.
Lemma file_ok_same x : file_ok s x → file_ok s' x.
Proof using Hv. intros [H1 H2 H3]. split; [done..|]. intros n. rewrite baddr_same. apply H3. Qed.
End views.

Lemma geti_ok s ip x : itable s !! ip = Some x → geti ip s = Ok x s.
Proof. intros E. unfold geti. by rewrite bind_gets, E. Qed.

(** One block read and released. *)
Section read.
Context (me : proc) (H : list (nat * Z)).

Lemma peek_txn s bn :
  txn me H s → bn ∉ H.*2 → (used_buffers H s < NBUF)%nat →
  ∃ i s1 x s', bread ROOTDEV bn s = Ok i s1 ∧ getb i s1 = Ok x s1 ∧ b_data x = fview s bn ∧
    txn me ((i, bn) :: H) s1 ∧ brelse i s1 = Ok () s' ∧ moves s s' ∧ log s' = log s ∧ txn me H s' ∧ ∀ y, fview s' y = fview s y.
Proof using.
  intros T Hn Hroom. destruct (bread_txn me H s bn T Hn Hroom) as (i & s1 & E1 & M1 & L1 & T1 & V1).
  destruct (getb_txn me _ s1 i bn T1) as (x & Ex & Dx & _); [left|]. rewrite V1 in Dx.
  destruct (brelse_txn me H s1 i bn T1) as (s' & E2 & M2 & L2 & T2 & V2).
  exists i, s1, x, s'. split_and!; try done; [by rewrite M1|congruence|]. intros y. by rewrite V2.
Qed.

(** [bmap] of a block that has an address. *)
Lemma bmap_mapped s ip x n :
  txn me H s → itable s !! ip = Some x → i_dev x = ROOTDEV → 0 ≤ n < MAXFILE → baddr s x n ≠ 0 →
  nth NDIRECT (i_addrs x) 0 ∉ H.*2 → (used_buffers H s < NBUF)%nat →
  ∃ s', bmap ip n s = Ok (baddr s x n) s' ∧ moves s s' ∧ log s' = log s ∧ txn me H s' ∧
    ∀ y, fview s' y = fview s y.
Proof using.
  intros T Hx Hd Hn Ha Hi Hroom. unfold bmap. rewrite (bind_ok _ _ _ _ _ (geti_ok s ip x Hx)).
  unfold baddr in *. destruct (n <? Z.of_nat NDIRECT) eqn:E; zbool.
  { rewrite (proj2 (Z.eqb_neq _ _)) by done. exists s. by split_and!. }
  cbv zeta. unfold MAXFILE in Hn. rewrite (proj2 (Z.ltb_lt _ _)) by lia.
  destruct (nth NDIRECT (i_addrs x) 0 =? 0) eqn:E'; [done|].
  rewrite bind_mret, E', Hd.
  destruct (peek_txn s _ T Hi Hroom) as (i & s1 & b & s' & E1 & E2 & D & _ & E3 & M & L & T' & V).
  exists s'. rewrite (bind_ok _ _ _ _ _ E1), (bind_ok _ _ _ _ _ E2), D.
  rewrite (proj2 (Z.eqb_neq _ _)) by done. rewrite bind_mret, (bind_ok _ _ _ _ _ E3). done.
Qed.
End read.

(** ** Slices *)

Lemma seqZ_split off m n : 0 ≤ m → 0 ≤ n → seqZ off (m + n) = seqZ off m ++ seqZ (off + m) n.
Proof. intros. apply seqZ_app; lia. Qed.

(** The part of one block that a piece of the file is. *)
Lemma fslice_block s x off m :
  bc_ok (bcache s) (disk s) → 0 ≤ off → 0 ≤ m ≤ BSIZE - off mod BSIZE →
  fslice s x off m = take (Z.to_nat m) (drop (Z.to_nat (off mod BSIZE)) (fview s (baddr s x (off / BSIZE)))).
Proof.
  intros Ho Hoff Hm. pose proof (Z.mod_pos_bound off BSIZE ltac:(done)) as Hb.
  set (d := fview s (baddr s x (off / BSIZE))).
  assert (length d = Z.to_nat BSIZE) as Hl by apply (cview_length _ _ _ Ho).
  apply list_eq. intros i. unfold fslice. rewrite list_lookup_fmap.
  destruct (decide (Z.of_nat i < m)) as [Hi|Hi].
  - rewrite lookup_seqZ_lt by lia. rewrite lookup_take_lt by lia. rewrite lookup_drop. cbn [fmap option_fmap option_map].
    unfold fbyte. pose proof (Z.div_mod off BSIZE ltac:(done)).
    assert ((off + Z.of_nat i) / BSIZE = off / BSIZE ∧ (off + Z.of_nat i) mod BSIZE = off mod BSIZE + Z.of_nat i) as [-> ->].
    { split; [symmetry; apply (Z.div_unique _ _ _ (off mod BSIZE + Z.of_nat i)); lia|].
      symmetry. apply (Z.mod_unique _ _ (off / BSIZE)); lia. }
    fold d. destruct (lookup_lt_is_Some_2 d (Z.to_nat (off mod BSIZE) + i)) as [v Hv]; [lia|].
    rewrite Hv. f_equal. rewrite nth_lookup_Z. replace (Z.to_nat _) with (Z.to_nat (off mod BSIZE) + i)%nat by lia. by rewrite Hv.
  - rewrite lookup_seqZ_ge by lia. rewrite lookup_take_ge by lia. done.
Qed.

(** ** readi *)

Lemma copyout_local me H s bytes : txn me H s → either_copyout DLocal bytes s = Ok 0 s.
Proof.
  intros T. destruct (tn_ctx _ _ _ T) as [(c & Hc & Hm) _ _ _ _].
  unfold either_copyout, myproc, getproc. rewrite bind_gets2, Hc, bind_mret, bind_gets2, Hm. done.
Qed.

Section readi.
Context (me : proc) (ip : nat) (x : inode).

(** What a read leaves: nothing has changed but the cache's order. *)
Definition same_files (s s' : kstate) : Prop :=
  moves s s' ∧ txn me [] s' ∧ log s' = log s ∧ ∀ y, fview s' y = fview s y.

Lemma readi_loop_ok fuel s tot off n :
  txn me [] s → itable s !! ip = Some x → file_ok s x → (used_buffers [] s < NBUF)%nat →
  0 ≤ tot ≤ n → 0 ≤ off → off + (n - tot) ≤ i_size x → (1 ≤ fuel)%nat →
  (tot < n → off mod BSIZE + (n - tot) ≤ BSIZE * (Z.of_nat fuel - 1)) →
  ∃ s', readi_loop fuel ip DLocal tot off n s = Ok (n, fslice s x off (n - tot)) s' ∧ same_files s s'.
Proof using.
  revert s tot off. induction fuel as [|fuel IH]; intros s tot off T Hx Hf Hroom Ht Hoff Hsz Hf1 Hfuel; [lia|].
  cbn [readi_loop]. destruct (tot <? n) eqn:E; zbool; cbn [negb].
  2:{ assert (tot = n) as -> by lia. exists s. rewrite Z.sub_diag. by split_and!. }
  specialize (Hfuel E). pose proof (fo_size _ _ Hf) as Hsize.
  pose proof (Z.mod_pos_bound off BSIZE ltac:(done)) as Hmod. pose proof (Z.div_mod off BSIZE ltac:(done)) as Hdm.
  assert (0 ≤ off / BSIZE < MAXFILE) as Hblk.
  { split; [apply Z.div_pos; [done|done]|]. apply Z.div_lt_upper_bound; [done|]. lia. }
  assert (baddr s x (off / BSIZE) ≠ 0) as Ha by (apply (fo_mapped _ _ Hf); lia).
  destruct (bmap_mapped me [] s ip x (off / BSIZE)) as (s1 & E1 & M1 & L1 & T1 & V1);
    [done|done|apply Hf|done|done|apply not_elem_of_nil|done|].
  rewrite (bind_ok _ _ _ _ _ E1), (proj2 (Z.eqb_neq _ _)) by done.
  assert (itable s1 !! ip = Some x) as Hx1 by (by rewrite (moves_itable _ _ M1)).
  rewrite (bind_ok _ _ _ _ _ (geti_ok s1 ip x Hx1)), (fo_dev _ _ Hf).
  destruct (peek_txn me [] s1 (baddr s x (off / BSIZE))) as (i & s2 & b & s3 & E2 & E3 & D & T2 & E4 & M4 & L4 & T4 & V4);
    [done|apply not_elem_of_nil|unfold used_buffers; by rewrite L1|].
  rewrite (bind_ok _ _ _ _ _ E2), (bind_ok _ _ _ _ _ E3), (bind_ok _ _ _ _ _ (copyout_local me _ s2 _ T2)).
  change (0 =? -1) with false. cbn iota. rewrite (bind_ok _ _ _ _ _ E4). cbn [dest_add].
  set (m := piece tot n off). assert (0 < m ≤ n - tot ∧ m ≤ BSIZE - off mod BSIZE) as Hm by (unfold m, piece; lia).
  assert (moves s s3) as M by (by rewrite M1). assert (log s3 = log s) as L by congruence.
  assert (∀ y, fview s3 y = fview s y) as V by (intros y; by rewrite V4).
  assert (MAXFILE * BSIZE < 2 ^ 32) as Hmax by done.
  rewrite u32_small by lia.
  destruct (IH s3 (tot + m) (off + m)) as (s' & E5 & M5 & T5 & L5 & V5).
  - done.
  - by rewrite (moves_itable _ _ M).
  - by eapply file_ok_same.
  - unfold used_buffers. by rewrite L.
  - lia.
  - lia.
  - lia.
  - destruct fuel; lia.
  - intros Hlt. assert (m = BSIZE - off mod BSIZE) as Em by (unfold m, piece in *; lia).
    assert ((off + m) mod BSIZE = 0) as ->; [|rewrite Em; lia].
    rewrite Em. replace (off + (BSIZE - off mod BSIZE)) with ((off / BSIZE + 1) * BSIZE) by lia. apply Z.mod_mul. done.
  - exists s'. rewrite (bind_ok _ _ _ _ _ E5). cbn [fst snd]. split.
    + unfold mret, M_ret. rewrite (fslice_same s s3 V), D, V1. do 2 f_equal.
      rewrite <- (fslice_block s x off m) by (apply T || lia).
      replace (n - tot) with (m + (n - (tot + m))) by lia. unfold fslice.
      by rewrite (seqZ_split off m) by lia; rewrite fmap_app.
    + split_and!; [by rewrite M|done|congruence|]. intros y. by rewrite V5.
Qed.
End readi.

Lemma readi_slice me s ip x off n :
  txn me [] s → itable s !! ip = Some x → file_ok s x → (used_buffers [] s < NBUF)%nat →
  0 ≤ off < 2 ^ 32 → 0 ≤ n < 2 ^ 32 →
  let m := if (i_size x <? off) || (2 ^ 32 <=? off + n) then 0 else Z.min n (i_size x - off) in
  ∃ s', readi ip DLocal off n s = Ok (m, fslice s x off m) s' ∧ same_files me s s'.
Proof.
  intros T Hx Hf Hroom Hoff Hn m. unfold readi. rewrite (bind_ok _ _ _ _ _ (geti_ok s ip x Hx)).
  pose proof (fo_size _ _ Hf) as Hsize.
  destruct (i_size x <? off) eqn:E1; zbool; cbn [orb] in *.
  { exists s. subst m. by split_and!. }
  assert ((u32 (off + n) <? off) = (2 ^ 32 <=? off + n)) as ->.
  { apply eq_true_iff_eq. rewrite Z.ltb_lt, Z.leb_le. unfold u32. split; intros Hlt.
    - destruct (decide (off + n < 2 ^ 32)); [|lia]. rewrite Z.mod_small in Hlt by lia. lia.
    - replace (off + n) with (off + n - 2 ^ 32 + 1 * 2 ^ 32) by lia. rewrite Z.mod_add, Z.mod_small by lia. lia. }
  destruct (2 ^ 32 <=? off + n) eqn:E2; zbool; cbn iota.
  { exists s. subst m. by split_and!. }
  rewrite u32_small by lia. cbv zeta.
  assert ((if i_size x <? off + n then i_size x - off else n) = m) as ->.
  { unfold m. destruct (i_size x <? off + n) eqn:E; zbool; lia. }
  assert (MAXFILE * BSIZE < 2 ^ 31) as Hmax by done.
  assert (0 ≤ m ≤ i_size x - off) as Hm by (unfold m; lia). clearbody m.
  pose proof (Z.mod_pos_bound off BSIZE ltac:(done)). pose proof (Z.div_mod m BSIZE ltac:(done)).
  pose proof (Z.mod_pos_bound m BSIZE ltac:(done)). pose proof (Z.div_pos m BSIZE ltac:(lia) ltac:(done)).
  destruct (readi_loop_ok me ip x (content_fuel m) s 0 off m) as (s' & E & R); try done; try lia.
  { unfold content_fuel. lia. }
  { intros _. unfold content_fuel. rewrite !Nat2Z.inj_succ, Z2Nat.id by done. lia. }
  exists s'. rewrite (bind_ok _ _ _ _ _ E), Z.sub_0_r. split; [|done]. cbn [fst snd].
  unfold mret, M_ret. do 2 f_equal. unfold s32. rewrite Z.mod_small by lia. lia.
Qed.


(** A directory of three entries in block 60: ".", an empty one and "a". *)
Definition demo_block : list Z :=
  mk_dirent [46] 1 ++ mk_dirent [] 0 ++ mk_dirent [97] 7 ++ replicate (Z.to_nat BSIZE - 48) 0.
Definition demo_dir : inode :=
  inode0 <| upd_i_dev := ROOTDEV |> <| upd_i_inum := 1 |> <| upd_i_ref := 1 |> <| upd_i_valid := true |>
    <| upd_i_type := T_DIR |> <| upd_i_size := 48 |> <| upd_i_addrs := 60 :: replicate NDIRECT 0 |>.
Definition demo_files : kstate := first_op {[60 := demo_block]} demo_sb [demo_dir; inode0].
(** The same blocks, without a cache. *)
Definition demo_blocks : kstate := kstate0 <| upd_bcache := [] |> <| upd_disk := {[60 := demo_block]} |>.

Lemma demo_block_ok : disk_ok {[60 := demo_block]}.
Proof. intros bn d [<- <-]%lookup_singleton_Some. vm_compute. reflexivity. Qed.
Lemma demo_txn : txn proc0 [] demo_files.
Proof. apply first_op_txn, demo_block_ok. Qed.
Lemma demo_view y : fview demo_files y = fview demo_blocks y.
Proof.
  unfold demo_files. rewrite (proj2 (first_op_txn _ demo_sb [demo_dir; inode0] demo_block_ok)).
  symmetry. apply cview_none. by intros i b _ ?.
Qed.
Lemma demo_itable : itable demo_files = [demo_dir; inode0] ∧ locks demo_files = [] ∧ (used_buffers [] demo_files < NBUF)%nat.
Proof.
  unfold demo_files, first_op. rewrite itable_setf, locks_setf. split_and!; [done..|].
  unfold used_buffers. rewrite log_setf. vm_compute. lia.
Qed.
Lemma demo_file_ok : file_ok demo_files demo_dir.
Proof.
  split; [done|vm_compute; split; discriminate|]. intros n Hn Hs. change (i_size demo_dir) with 48 in Hs.
  assert (n = 0) as -> by (change BSIZE with 1024 in Hs; lia). discriminate.
Qed.

