(* ===== verification/FsDir.v ===== *)
(** * kernel/fs.c: the inode table and directory lookup

    [itab_ok I]: at most one entry in use per inode, so that all references to
    an inode share one lock and one copy.  [iget] keeps this and returns that
    entry; [dirlookup] returns the inode of the first entry of the directory
    with the name. *)

From S2P Require Import Prelude Bytes Riscv Kstate CString Kalloc Vm Sched Bio Log LogProps LogCrash LogTxn Printf Console Fs FsPath FsTxn FsAlloc FsFile.

(** ** The inode table *)

Definition in_use (dev inum : Z) (y : inode) : Prop := 0 < i_ref y ∧ i_dev y = dev ∧ i_inum y = inum.
Definition itab_ok (I : list inode) : Prop :=
  ∀ i j y z dev inum, I !! i = Some y → I !! j = Some z → in_use dev inum y → in_use dev inum z → i = j.

(** The scan returns the entry in use, or the first empty one. *)
Lemma iget_scan_spec I k dev inum e :
  match iget_scan I k dev inum e with
  | (true, o) => ∃ i y, o = Some (k + i)%nat ∧ I !! i = Some y ∧ in_use dev inum y
  | (false, o) => (∀ i y, I !! i = Some y → ¬ in_use dev inum y) ∧
      match e with
      | Some _ => o = e
      | None =>
          match o with
          | Some a => ∃ i y, a = (k + i)%nat ∧ I !! i = Some y ∧ i_ref y = 0 ∧
              ∀ j z, (j < i)%nat → I !! j = Some z → i_ref z ≠ 0
          | None => ∀ i y, I !! i = Some y → i_ref y ≠ 0
          end
      end
  end.
Proof.
  revert k e. induction I as [|y I IH]; intros k e; cbn [iget_scan].
  { split; [by intros i y|]. destruct e; [done|by intros i y]. }
  destruct ((0 <? i_ref y) && (i_dev y =? dev) && (i_inum y =? inum)) eqn:E.
  { rewrite !andb_true_iff, Z.ltb_lt, !Z.eqb_eq in E. exists 0%nat, y. rewrite Nat.add_0_r.
    split_and!; [done|done|]. unfold in_use. tauto. }
  assert (¬ in_use dev inum y) as Hy.
  { intros (H1 & H2 & H3). rewrite (proj2 (Z.ltb_lt _ _) H1), H2, H3, !Z.eqb_refl in E. done. }
  clear E. specialize (IH (S k) (if bool_decide (e = None) && (i_ref y =? 0) then Some k else e)).
  destruct (iget_scan I (S k) dev inum _) as [[] o].
  { destruct IH as (i & z & -> & Hz & Hu). exists (S i), z. split_and!; [f_equal; lia|done..]. }
  destruct IH as [Hno IH]. split; [intros [|i] z; [by intros [= <-]|apply Hno]|].
  destruct e as [a|]; [exact IH|]. cbn [bool_decide andb] in IH. rewrite bool_decide_true in IH by done. cbn [andb] in IH.
  destruct (i_ref y =? 0) eqn:E0; zbool.
  - subst o. exists 0%nat, y. split_and!; [lia|done|done|]. intros; lia.
  - destruct o as [a|].
    + destruct IH as (i & z & -> & Hz & Hr & Hlt). exists (S i), z. split_and!; [lia|done|done|].
      intros [|j] w Hj; [by intros [= <-]|]. apply Hlt. lia.
    + intros [|i] z; [by intros [= <-]|apply IH].
Qed.

(** The entry [iget] returns. *)
Definition got (dev inum : Z) (y : inode) : inode :=
  if 0 <? i_ref y then y <| upd_i_ref := i_ref y + 1 |>
  else y <| upd_i_dev := dev |> <| upd_i_inum := inum |> <| upd_i_ref := 1 |> <| upd_i_valid := false |>.

(** [iget] panics when the table is full, and otherwise changes one entry. *)
Lemma iget_ok s dev inum :
  LItable ∉ locks s →
  (∃ i y, itable s !! i = Some y ∧
     iget dev inum s = Ok i (s <| upd_itable := <[i := got dev inum y]> (itable s) |>) ∧
     (in_use dev inum y ∨ (i_ref y = 0 ∧ ∀ j z, itable s !! j = Some z → ¬ in_use dev inum z))) ∨
  (iget dev inum s = Panic "iget: no inodes" ∧
   ∀ j z, itable s !! j = Some z → i_ref z ≠ 0 ∧ ¬ in_use dev inum z).
Proof.
  intros HL. unfold iget. rewrite (bind_ok _ _ _ _ _ (acquire_ok _ _ HL)), bind_gets.
  change (itable (upd_locks (cons LItable) s)) with (itable s).
  assert (∀ i y f, itable s !! i = Some y → f y = got dev inum y →
    (updi i f;; release LItable;; mret i) (upd_locks (cons LItable) s) =
    Ok i (s <| upd_itable := <[i := got dev inum y]> (itable s) |>)) as E.
  { intros i y f Hy Hf. unfold updi. rewrite bind_modify.
    erewrite bind_ok by (by apply release_head). unfold mret, M_ret. f_equal. rewrite <- Hf.
    pose proof (list_alter_insert f _ i y Hy) as E. destruct s. cbn in *. unfold upd_locks, upd_itable. cbn. by rewrite E. }
  pose proof (iget_scan_spec (itable s) 0 dev inum None) as Hs.
  destruct (iget_scan (itable s) 0 dev inum None) as [[] o].
  - destruct Hs as (i & y & -> & Hy & Hu). left. exists i, y. split_and!; [done| |by left]. cbn [Nat.add].
    apply E; [done|]. unfold got. destruct Hu as (Hu & _). by rewrite (proj2 (Z.ltb_lt _ _) Hu).
  - destruct Hs as [Hno Hs]. destruct o as [a|].
    + destruct Hs as (i & y & -> & Hy & Hr & _). left. exists i, y. split_and!; [done| |by right]. cbn [Nat.add].
      apply E; [done|]. unfold got. by rewrite Hr.
    + right. split; [done|]. intros j z Hz. split; [by eapply Hs|by eapply Hno].
Qed.

(** The entry [iget] returns keeps the table's invariant. *)
Lemma got_ok (I : list inode) dev inum i y :
  itab_ok I → I !! i = Some y →
  (in_use dev inum y ∨ (i_ref y = 0 ∧ ∀ j z, I !! j = Some z → ¬ in_use dev inum z)) →
  in_use dev inum (got dev inum y) ∧ i_ref (got dev inum y) = i_ref y + 1 ∧ itab_ok (<[i := got dev inum y]> I).
Proof.
  intros Hok Hy Hor.
  assert (in_use dev inum (got dev inum y) ∧ i_ref (got dev inum y) = i_ref y + 1) as [Hg1 Hg2].
  { unfold got, in_use. destruct Hor as [(H1 & H2 & H3)|[H1 _]].
    - rewrite (proj2 (Z.ltb_lt _ _) H1). cbn. split_and!; lia || done.
    - rewrite H1. cbn. split_and!; lia || done. }
  split_and!; [done..|].
  assert (∀ j z d k, j ≠ i → I !! j = Some z → in_use d k z → ¬ in_use d k (got dev inum y)) as Hne.
  { intros j z d k Hji Hz Hu (_ & <- & <-). destruct Hg1 as (_ & E1 & E2). rewrite E1, E2 in Hu.
    destruct Hor as [Hor|[_ Hor]]; [|by eapply Hor]. apply Hji. eapply Hok; eauto. }
  intros a b u v d k Ha Hb Hu Hv.
  apply list_lookup_insert_Some in Ha as [(<- & <- & _)|[Na Ha]];
    apply list_lookup_insert_Some in Hb as [(<- & <- & _)|[Nb Hb]]; try done.
  - exfalso. eapply (Hne b v); eauto.
  - exfalso. eapply (Hne a u); eauto.
  - eapply Hok; eauto.
Qed.

(** C34: [iget] returns the one table entry of the inode, with one more
    reference: the entry in use if there is one, otherwise an empty one that
    starts invalid with one reference; no other entry changes and there still
    is at most one entry in use per inode.  With neither it panics. *)
Theorem iget_unique_entry s dev inum :
  LItable ∉ locks s → itab_ok (itable s) →
  (∃ i y, itable s !! i = Some y ∧
     let s' := s <| upd_itable := <[i := got dev inum y]> (itable s) |> in
     iget dev inum s = Ok i s' ∧ itab_ok (itable s') ∧ in_use dev inum (got dev inum y) ∧
     i_ref (got dev inum y) = i_ref y + 1 ∧
     (0 < i_ref y → in_use dev inum y) ∧
     (i_ref y = 0 → i_valid (got dev inum y) = false ∧ ∀ j z, itable s !! j = Some z → ¬ in_use dev inum z)) ∨
  (iget dev inum s = Panic "iget: no inodes" ∧
   ∀ j z, itable s !! j = Some z → i_ref z ≠ 0 ∧ ¬ in_use dev inum z).
Proof.
  intros HL Hok. destruct (iget_ok s dev inum HL) as [(i & y & Hy & E & Hor)|R]; [left|by right].
  destruct (got_ok (itable s) dev inum i y Hok Hy Hor) as (Hg1 & Hg2 & Hg3).
  exists i, y. split; [done|]. cbn zeta. change (itable (upd_itable _ s)) with (<[i := got dev inum y]> (itable s)).
  split_and!; try done.
  - intros Hr. destruct Hor as [?|[? _]]; [done|lia].
  - intros Hr. destruct Hor as [(? & _)|[_ Hor]]; [lia|]. split; [|done]. unfold got. by rewrite Hr.
Qed.

Definition iget_witness_state : kstate := kstate0 <| upd_itable := replicate 2 inode0 |>.
Lemma iget_unique_entry_witness :
  ∃ i s', iget ROOTDEV ROOTINO iget_witness_state = Ok i s' ∧ itab_ok (itable s') ∧
    i_ref <$> itable s' !! i = Some 1.
Proof.
  destruct (iget_unique_entry iget_witness_state ROOTDEV ROOTINO) as [(i & y & Hy & E & Hok & _ & Hr & _)|[_ R]].
  - apply not_elem_of_nil.
  - intros i j y z d k Hy _ (Hu & _) _. exfalso. revert Hy Hu.
    change (itable iget_witness_state) with (replicate 2 inode0). intros [-> _]%lookup_replicate. cbn. lia.
  - eexists i, _. split; [exact E|]. split; [exact Hok|].
    change (itable (upd_itable _ iget_witness_state)) with (<[i := got ROOTDEV ROOTINO y]> (itable iget_witness_state)).
    rewrite list_lookup_insert_eq by (by eapply lookup_lt_Some). cbn [fmap option_fmap option_map]. rewrite Hr.
    change (itable iget_witness_state) with (replicate 2 inode0) in Hy. by apply lookup_replicate in Hy as [-> _].
  - exfalso. destruct (R 0%nat inode0); [reflexivity|]. done.
Defined.

(** ** Names *)

Lemma cstr_chars k i l : cstr k (chars l) (Z.of_nat i) = take k (until_nul (drop i l)).
Proof.
  revert i. induction k as [|k IH]; intros i; cbn [cstr]; [by rewrite take_0|].
  unfold chars at 1 2. rewrite Nat2Z.id, nth_lookup_Z.
  destruct (l !! i) as [c|] eqn:E; cbn [from_option].
  - rewrite (drop_S _ _ _ E). cbn [until_nul]. unfold id. destruct (c =? 0); [done|]. cbn [take]. f_equal.
    rewrite <- IH. f_equal. lia.
  - rewrite drop_ge by (by apply lookup_ge_None). done.
Qed.
(** [namecmp] compares the names as C strings of at most DIRSIZ characters. *)
Lemma namecmp_zero s t : namecmp s t = 0 ↔ name_str s = name_str t.
Proof.
  unfold namecmp, name_str. rewrite strncmp_zero_iff, Nat2Z.id.
  change 0 with (Z.of_nat 0). by rewrite !cstr_chars, !drop_0.
Qed.

(** ** Lookup *)

Definition dirent (s : kstate) (x : inode) (k : Z) : list Z := fslice s x (DIRENT_SIZE * k) DIRENT_SIZE.
Definition names (name de : list Z) : Prop := de_inum de ≠ 0 ∧ name_str name = name_str (de_name de).

Lemma names_spec name de :
  negb (de_inum de =? 0) && (namecmp name (de_name de) =? 0) = true ↔ names name de.
Proof. unfold names. by rewrite andb_true_iff, negb_true_iff, Z.eqb_neq, Z.eqb_eq, namecmp_zero. Qed.

Section lookup.
Context (me : proc) (dp : nat) (x : inode) (name : list Z).

Lemma read_dirent_ok s k msg :
  txn me [] s → itable s !! dp = Some x → file_ok s x → (used_buffers [] s < NBUF)%nat →
  0 ≤ k → DIRENT_SIZE * k + DIRENT_SIZE ≤ i_size x →
  ∃ s', read_dirent dp (DIRENT_SIZE * k) msg s = Ok (dirent s x k) s' ∧ same_files me s s'.
Proof using.
  intros T Hx Hf Hroom Hk Hs. pose proof (fo_size _ _ Hf). assert (MAXFILE * BSIZE < 2 ^ 31) by done.
  change DIRENT_SIZE with 16 in *.
  destruct (readi_slice me s dp x (16 * k) 16) as (s' & E & R); try done; try lia.
  exists s'. split; [|done]. unfold read_dirent. change DIRENT_SIZE with 16. rewrite (bind_ok _ _ _ _ _ E). cbn [fst snd].
  rewrite (proj2 (Z.ltb_ge _ _)), (proj2 (Z.leb_gt _ _)) by lia. cbn [orb].
  replace (16 `min` (i_size x - 16 * k)) with 16 by lia. done.
Qed.

Definition nentries : Z := i_size x / DIRENT_SIZE.

Lemma same_files_entry s s' k : same_files me s s' → dirent s' x k = dirent s x k.
Proof using. intros (_ & _ & _ & V). by apply fslice_same. Qed.
Lemma same_files_trans s1 s2 s3 : same_files me s1 s2 → same_files me s2 s3 → same_files me s1 s3.
Proof using.
  intros (M1 & _ & L1 & V1) (M2 & T2 & L2 & V2). split_and!; [by rewrite M1|done|congruence|].
  intros y. by rewrite V2.
Qed.

(** The scan of the entries from [k] on: the first with the name, or none. *)
Lemma dirlookup_loop_ok fuel s k :
  txn me [] s → itable s !! dp = Some x → file_ok s x → i_size x mod DIRENT_SIZE = 0 →
  (used_buffers [] s < NBUF)%nat → 0 ≤ k ≤ nentries → nentries - k < Z.of_nat fuel →
  ∃ s1, same_files me s s1 ∧
    ((∃ j, k ≤ j < nentries ∧ names name (dirent s x j) ∧ (∀ i, k ≤ i < j → ¬ names name (dirent s x i)) ∧
        dirlookup_loop fuel dp name (DIRENT_SIZE * k) s =
        (ip ← iget ROOTDEV (de_inum (dirent s x j)); mret (Some (ip, DIRENT_SIZE * j))) s1) ∨
     ((∀ i, k ≤ i < nentries → ¬ names name (dirent s x i)) ∧
        dirlookup_loop fuel dp name (DIRENT_SIZE * k) s = Ok None s1)).
Proof using.
  revert s k. induction fuel as [|fuel IH]; intros s k T Hx Hf Hmod Hroom Hk Hfuel; [lia|].
  assert (i_size x = DIRENT_SIZE * nentries) as Hdm.
  { unfold nentries. rewrite (Z.div_mod (i_size x) DIRENT_SIZE) at 1 by done. lia. }
  pose proof (fo_size _ _ Hf). assert (MAXFILE * BSIZE < 2 ^ 31) by done. change DIRENT_SIZE with 16 in *.
  cbn [dirlookup_loop]. rewrite (bind_ok _ _ _ _ _ (geti_ok s dp x Hx)).
  destruct (16 * k <? i_size x) eqn:E; zbool; cbn [negb].
  2:{ exists s. split; [by split_and!|]. right. split; [intros; lia|done]. }
  destruct (read_dirent_ok s k "dirlookup read") as (s1 & E1 & R1); try done; [lia|change DIRENT_SIZE with 16; lia|].
  change DIRENT_SIZE with 16 in E1. rewrite (bind_ok _ _ _ _ _ E1).
  destruct (negb (de_inum (dirent s x k) =? 0) && (namecmp name (de_name (dirent s x k)) =? 0)) eqn:En.
  - apply names_spec in En. exists s1. split; [done|]. left. exists k. rewrite (fo_dev _ _ Hf).
    split_and!; [lia|lia|done|intros; lia|done].
  - assert (¬ names name (dirent s x k)) as Hn by (intros Hn%names_spec; congruence).
    change DIRENT_SIZE with 16. rewrite u32_small by lia. replace (16 * k + 16) with (16 * (k + 1)) by lia.
    pose proof R1 as (M1 & T1 & L1 & V1).
    destruct (IH s1 (k + 1)) as (s2 & R2 & Hor); [done|by rewrite (moves_itable _ _ M1)|by eapply file_ok_same|done| |lia|lia|].
    { unfold used_buffers. by rewrite L1. }
    exists s2. split; [by eapply same_files_trans|]. destruct Hor as [(j & Hj & Hm & Hno & E2)|[Hno E2]].
    + left. exists j. rewrite (same_files_entry s s1) in Hm, E2 by done. split_and!; [lia|lia|done| |done].
      intros i Hi. destruct (decide (i = k)) as [->|]; [done|]. rewrite <- (same_files_entry s s1) by done. apply Hno. lia.
    + right. split; [|done]. intros i Hi. destruct (decide (i = k)) as [->|]; [done|].
      rewrite <- (same_files_entry s s1) by done. apply Hno. lia.
Qed.
End lookup.

(** C18: [dirlookup] returns the inode and the offset of the first entry of the
    directory with the name (names compared as C strings of at most DIRSIZ
    characters, empty entries skipped), taking a reference to that inode's
    table entry (a panic if the table is full); without such an entry it
    returns NULL and changes nothing. *)
Theorem dirlookup_first_match me s dp x name :
  txn me [] s → itable s !! dp = Some x → i_type x = T_DIR → file_ok s x → i_size x mod DIRENT_SIZE = 0 →
  (used_buffers [] s < NBUF)%nat → LItable ∉ locks s → itab_ok (itable s) →
  (∃ j s1, 0 ≤ j < nentries x ∧ names name (dirent s x j) ∧
     (∀ i, 0 ≤ i < j → ¬ names name (dirent s x i)) ∧ same_files me s s1 ∧
     let inum := de_inum (dirent s x j) in
     (∃ i y s', dirlookup dp name s = Ok (Some (i, DIRENT_SIZE * j)) s' ∧ itable s !! i = Some y ∧
        s' = s1 <| upd_itable := <[i := got ROOTDEV inum y]> (itable s) |> ∧
        in_use ROOTDEV inum (got ROOTDEV inum y) ∧ itab_ok (itable s')) ∨
     (dirlookup dp name s = Panic "iget: no inodes" ∧
        ∀ j z, itable s !! j = Some z → i_ref z ≠ 0 ∧ ¬ in_use ROOTDEV inum z)) ∨
  (∃ s1, (∀ i, 0 ≤ i < nentries x → ¬ names name (dirent s x i)) ∧
     dirlookup dp name s = Ok None s1 ∧ same_files me s s1).
Proof.
  intros T Hx Hty Hf Hmod Hroom HL Hok. unfold dirlookup.
  pose proof (Z.div_pos (i_size x) DIRENT_SIZE (proj1 (fo_size _ _ Hf)) ltac:(done)) as Hn.
  destruct (dirlookup_loop_ok me dp x name (dir_fuel x) s 0) as (s1 & R & Hor); try done.
  { unfold nentries, dir_fuel. lia. }
  rewrite (bind_ok _ _ _ _ _ (geti_ok s dp x Hx)), Hty. change (T_DIR =? T_DIR) with true. cbn [negb].
  rewrite Z.mul_0_r in Hor. destruct Hor as [(j & Hj & Hm & Hno & E)|[Hno E]]; [left|right; by exists s1].
  exists j, s1. split_and!; try done; [lia|lia|]. cbn zeta. rewrite E. pose proof R as (M & _).
  destruct (iget_ok s1 ROOTDEV (de_inum (dirent s x j))) as [(i & y & Hy & Ei & Hi)|[Ei Hfull]].
  { by rewrite (moves_locks _ _ M). }
  - rewrite (moves_itable _ _ M) in *. destruct (got_ok (itable s) ROOTDEV (de_inum (dirent s x j)) i y) as (G1 & G2 & G3); try done.
    left. eexists i, y, _. rewrite (bind_ok _ _ _ _ _ Ei). split_and!; try done.
  - right. rewrite (bind_panic _ _ _ _ Ei). split; [done|]. by rewrite (moves_itable _ _ M) in Hfull.
Qed.

Lemma dirlookup_first_match_witness :
  ∃ i s', dirlookup 0 [97] demo_files = Ok (Some (i, 32)) s' ∧ i_inum <$> itable s' !! i = Some 7.
Proof.
  destruct demo_itable as (E1 & E2 & E3).
  assert (∀ k, dirent demo_files demo_dir k = dirent demo_blocks demo_dir k) as Hd
    by (intros k; apply fslice_same, demo_view).
  assert (∀ k, 0 ≤ k < 3 → names [97] (dirent demo_files demo_dir k) ↔ k = 2) as Hk.
  { intros k Hk. rewrite Hd. assert (k = 0 ∨ k = 1 ∨ k = 2) as [->|[->| ->]] by lia;
      rewrite <- names_spec; vm_compute; split; discriminate || done. }
  destruct (dirlookup_first_match proc0 demo_files 0 demo_dir [97])
    as [(j & s1 & Hj & Hm & _ & _ & [(i & y & s' & E & Hi & -> & (_ & _ & Hin) & _)|[_ E]])|(s1 & Hno & _)].
  - apply demo_txn.
  - by rewrite E1.
  - reflexivity.
  - apply demo_file_ok.
  - reflexivity.
  - exact E3.
  - rewrite E2. apply not_elem_of_nil.
  - rewrite E1. intros [|[|i]] [|[|j]] y z d k; cbn; intros [= <-] [= <-] (Hu & _) (Hv & _); cbn in Hu, Hv; done || lia.
  - apply (Hk j Hj) in Hm as ->. eexists i, _. split; [exact E|].
    change (itable (upd_itable (λ _, ?l) s1)) with l.
    rewrite list_lookup_insert_eq by (by eapply lookup_lt_Some). cbn [fmap option_fmap option_map]. by rewrite Hin, Hd.
  - exfalso. destruct (E 1%nat inode0); [by rewrite E1|]. done.
  - exfalso. apply (Hno 2); [by vm_compute|]. by apply Hk.
Defined.
