(* ===== verification/FsBmap.v ===== *)
(** * kernel/fs.c: giving a block of an inode an address

    [slot s x n] are the addresses of the inode [x]: block [n] of the file,
    and for [n = MAXFILE] the indirect block.  [fs_file s x] says that they
    are distinct data blocks, marked used in the bitmap, and that every block
    below the size has one.  [bmap] gives a block an address: it keeps
    [fs_file], the content of this and of other files, and the number of
    blocks it logs is bounded. *)

From S2P Require Import Prelude Bytes Riscv Kstate CString Kalloc Vm Sched Bio Log LogProps LogCrash LogTxn Printf Console Fs FsPath FsTxn FsAlloc FsFile.

(** ** Steps that also change the inode table *)

Definition imoves (s s' : kstate) : Prop := moves (s <| upd_itable := itable s' |>) s'.

Section setf.
#[local] Transparent setf.
Lemma setf_itable B D W P G I L O J s :
  setf B D W P G I L ((s <| upd_itable := J |>) <| upd_uart_out := O |>) =
  setf B D W P G I L (s <| upd_uart_out := O |>).
Proof. by destruct s. Qed.
Lemma itable_of_setf B D W P G I L J s :
  (setf B D W P G I L s) <| upd_itable := J |> = setf B D W P G J L s.
Proof. by destruct s. Qed.
End setf.

Lemma moves_itable_set s s' I : moves s s' → moves (s <| upd_itable := I |>) (s' <| upd_itable := I |>).
Proof.
  intros (B & P & G & O & -> & H). exists B, P, G, O. rewrite itable_of_setf, setf_itable. split; [|done].
  by destruct s.
Qed.
Lemma itable_self s : s <| upd_itable := itable s |> = s.
Proof. by destruct s. Qed.
Lemma moves_imoves s s' : moves s s' → imoves s s'.
Proof. intros M. unfold imoves. rewrite (moves_itable _ _ M). by rewrite itable_self. Qed.
Lemma imoves_set s I : imoves s (s <| upd_itable := I |>).
Proof. unfold imoves. by destruct s. Qed.
#[export] Instance imoves_preorder : PreOrder imoves.
Proof.
  split; [intros s; by apply moves_imoves|]. intros s1 s2 s3 M1 M2. unfold imoves in *.
  apply (moves_itable_set _ _ (itable s3)) in M1. etrans; [|exact M2]. etrans; [|exact M1].
  by destruct s1.
Qed.

Section imoves.
Context (s s' : kstate) (Hm : imoves s s').
Lemma imoves_disk : disk s' = disk s. Proof using Hm. exact (moves_disk _ _ Hm). Qed.
Lemma imoves_locks : locks s' = locks s. Proof using Hm. exact (moves_locks _ _ Hm). Qed.
Lemma imoves_sb : sb s' = sb s. Proof using Hm. exact (moves_sb _ _ Hm). Qed.
Lemma imoves_start : lg_start (log s') = lg_start (log s). Proof using Hm. exact (moves_start _ _ Hm). Qed.
Lemma imoves_outstanding : lg_outstanding (log s') = lg_outstanding (log s).
Proof using Hm. exact (moves_outstanding _ _ Hm). Qed.
End imoves.

Lemma txn_set_itable me H s I : txn me H s → txn me H (s <| upd_itable := I |>).
Proof.
  intros [? ? [(c & Hc & Hm) ? ? ? ?] ? ? ? ? ? ? ? ?]. split; try done. split; try done. by exists c.
Qed.
Lemma fview_set_itable s I y : fview (s <| upd_itable := I |>) y = fview s y.
Proof. by destruct s. Qed.

Lemma updi_ok s ip x f :
  itable s !! ip = Some x → updi ip f s = Ok () (s <| upd_itable := <[ip := f x]> (itable s) |>).
Proof.
  intros Hx. unfold updi. erewrite <- list_alter_insert by done. by destruct s.
Qed.

(** ** The addresses of an inode *)

Definition ind (x : inode) : Z := nth NDIRECT (i_addrs x) 0.
Definition slot (s : kstate) (x : inode) (n : Z) : Z := if n =? MAXFILE then ind x else baddr s x n.
Definition iblock (s : kstate) (x : inode) : Z := IBLOCK (i_inum x) (sb s).

(** Neither a bitmap block nor block 0. *)
Definition data_block (s : kstate) (a : Z) : Prop :=
  0 < a < sb_size (sb s) ∧ used s a = true ∧ ∀ c, 0 ≤ c < sb_size (sb s) → BBLOCK c (sb s) ≠ a.

Record fs_file (s : kstate) (x : inode) : Prop := {
  ff_bitmap : bitmap_used s;
  ff_range c : 0 ≤ c < sb_size (sb s) → 0 ≤ BBLOCK c (sb s) < sb_size (sb s);
  ff_boot : used s 0 = true;
  ff_inode : data_block s (iblock s x);
  ff_wf : inode_wf x;
  ff_dev : i_dev x = ROOTDEV;
  ff_size : 0 ≤ i_size x ≤ MAXFILE * BSIZE;
  ff_mapped n : 0 ≤ n → n * BSIZE < i_size x → baddr s x n ≠ 0;
  ff_data n : 0 ≤ n ≤ MAXFILE → slot s x n ≠ 0 → data_block s (slot s x n) ∧ slot s x n ≠ iblock s x;
  ff_inj m n : 0 ≤ m ≤ MAXFILE → 0 ≤ n ≤ MAXFILE → slot s x m = slot s x n → slot s x m ≠ 0 → m = n;
}.

(** A block of another file. *)
Definition foreign (s : kstate) (x : inode) (y : Z) : Prop :=
  0 ≤ y < sb_size (sb s) ∧ used s y = true ∧ (∀ c, 0 ≤ c < sb_size (sb s) → BBLOCK c (sb s) ≠ y) ∧
  ∀ n, 0 ≤ n ≤ MAXFILE → slot s x n ≠ y.

Lemma slot_block s x n : 0 ≤ n < MAXFILE → slot s x n = baddr s x n.
Proof. intros Hn. unfold slot. by rewrite (proj2 (Z.eqb_neq _ _)) by lia. Qed.
Lemma slot_ind s x : slot s x MAXFILE = ind x.
Proof. unfold slot. by rewrite Z.eqb_refl. Qed.
Lemma file_ok_of s x : fs_file s x → file_ok s x.
Proof. intros F. split; apply F. Qed.
Lemma iblock_foreign s x : fs_file s x → foreign s x (iblock s x).
Proof.
  intros F. destruct (ff_inode _ _ F) as (A & B & C). split_and!; [lia..|done|done|].
  intros n Hn E. assert (slot s x n ≠ 0) as Hz by lia. by destruct (ff_data _ _ F n Hn Hz).
Qed.

(** ** The state after a step that gives the inode at most one new block *)

Section grow.
Context (s s' : kstate) (x x' : inode) (n r : Z).
Context (F : fs_file s x) (Hsb : sb s' = sb s).
Context (Hu : ∀ c, 0 ≤ c < sb_size (sb s) → used s' c = if decide (c = r) then true else used s c).
Context (Hr : 0 ≤ r < sb_size (sb s)) (Hf : used s r = false).
Context (Hn : 0 ≤ n ≤ MAXFILE) (Hs : slot s' x' n = r)
  (Hso : ∀ m, 0 ≤ m ≤ MAXFILE → m ≠ n → slot s' x' m = slot s x m) (Hs0 : slot s x n = 0).
Context (Hx : ∃ a, x' = x <| upd_i_addrs := a |> ∧ length a = S NDIRECT ∧ ∀ v, v ∈ a → 0 ≤ v < 2 ^ 32).

Lemma grow_used c : 0 ≤ c < sb_size (sb s) → used s c = true → used s' c = true.
Proof using All. intros Hc H. rewrite Hu by done. by case_decide. Qed.
Lemma grow_data a : data_block s a → data_block s' a.
Proof using All. intros (A & B & C). unfold data_block. rewrite Hsb. split_and!; [lia..| |done]. apply grow_used; [lia|done]. Qed.
Lemma grow_iblock : iblock s' x' = iblock s x.
Proof using All. clear -Hsb Hx. destruct Hx as (a & -> & _). unfold iblock. by rewrite Hsb. Qed.
Lemma fresh_data : data_block s' r.
Proof using All.
  assert (r ≠ 0) as Hr0 by (intros ->; rewrite (ff_boot _ _ F) in Hf; done).
  unfold data_block. rewrite Hsb. split_and!; [lia..| |].
  - rewrite Hu by done. by rewrite decide_True.
  - intros c Hc E. destruct (ff_bitmap _ _ F) as [_ Hb]. specialize (Hb c Hc). congruence.
Qed.
Lemma fresh_slot m : 0 ≤ m ≤ MAXFILE → slot s x m ≠ r.
Proof using All.
  intros Hm E. destruct (decide (slot s x m = 0)) as [E0|Hz].
  - rewrite <- E, E0, (ff_boot _ _ F) in Hf. done.
  - destruct (ff_data _ _ F m Hm Hz) as [(_ & B & _) _]. congruence.
Qed.
Lemma grow_bitmap : bitmap_used s'.
Proof using All.
  destruct (ff_bitmap _ _ F) as [Hz Hb]. split; rewrite Hsb; [done|]. intros c Hc.
  apply grow_used; [by apply F|by apply Hb].
Qed.
Lemma size_pos : 0 < sb_size (sb s).
Proof using All. destruct (ff_inode _ _ F). lia. Qed.

Lemma fs_file_grow : fs_file s' x'.
Proof using All.
  pose proof size_pos as Hp. pose proof fresh_slot as Hfs. pose proof fresh_data as Hfd.
  pose proof grow_iblock as Hib. pose proof grow_data as Hgd. pose proof grow_bitmap as Hgb.
  pose proof grow_used as Hgu. destruct Hx as (a & -> & Ha1 & Ha2).
  set (y := x <| upd_i_addrs := a |>) in *. split.
  - exact Hgb.
  - rewrite Hsb. apply F.
  - apply Hgu; [lia|apply F].
  - rewrite Hib. apply Hgd, F.
  - destruct (ff_wf _ _ F). by split.
  - apply F.
  - apply F.
  - intros m Hm Hsz. assert (0 ≤ m < MAXFILE) as Hm'.
    { split; [done|]. pose proof (ff_size _ _ F) as Hsize. change (i_size y) with (i_size x) in Hsz.
      apply (Z.mul_lt_mono_pos_r BSIZE); [done|lia]. }
    rewrite <- slot_block by done. destruct (decide (m = n)) as [->|Hne].
    + rewrite Hs. destruct Hfd. lia.
    + rewrite Hso, slot_block by lia. by apply F.
  - intros m Hm Hz. destruct (decide (m = n)) as [->|Hne].
    + rewrite Hs. split; [done|]. rewrite Hib. intros E. destruct (ff_inode _ _ F) as (_ & B & _). congruence.
    + rewrite Hso in * by done. destruct (ff_data _ _ F m Hm Hz). rewrite Hib. auto.
  - intros m k Hm Hk E Hz. destruct (decide (m = n)) as [->|Hne], (decide (k = n)) as [->|Hne']; [done|..].
    + rewrite Hs, Hso in E by done. by destruct (Hfs k Hk).
    + rewrite Hs, Hso in E by done. by destruct (Hfs m Hm).
    + rewrite !Hso in * by done. by eapply F.
Qed.

Lemma foreign_grow y : foreign s x y → foreign s' x' y.
Proof using All.
  intros (A & B & C & D). unfold foreign. rewrite Hsb. split_and!; [lia..|by apply grow_used|done|].
  intros m Hm. destruct (decide (m = n)) as [->|Hne]; [rewrite Hs; congruence|]. rewrite Hso by done. auto.
Qed.
End grow.

(** A step that changes no address and no bit. *)
Lemma fs_file_same s s' x :
  fs_file s x → sb s' = sb s → (∀ c, 0 ≤ c < sb_size (sb s) → used s' c = used s c) →
  (∀ n, 0 ≤ n ≤ MAXFILE → slot s' x n = slot s x n) → fs_file s' x.
Proof.
  intros F Hsb Hu Hs.
  assert (∀ a, data_block s a → data_block s' a) as Hd.
  { intros a (A & B & C). unfold data_block. rewrite Hsb. split_and!; [lia..| |done]. by rewrite Hu by lia. }
  assert (iblock s' x = iblock s x) as Hib by (unfold iblock; by rewrite Hsb).
  pose proof (proj1 (ff_inode _ _ F)). split; try apply F.
  - destruct (ff_bitmap _ _ F) as [Hz Hb]. split; rewrite Hsb; [done|]. intros c Hc. rewrite Hu; auto. by apply F.
  - rewrite Hsb. apply F.
  - rewrite Hu by lia. apply F.
  - rewrite Hib. apply Hd, F.
  - intros n Hn Hsz. assert (0 ≤ n < MAXFILE) as Hn'.
    { split; [done|]. pose proof (ff_size _ _ F). apply (Z.mul_lt_mono_pos_r BSIZE); [done|lia]. }
    rewrite <- slot_block, Hs, slot_block by lia. by apply F.
  - intros n Hn. rewrite Hs, Hib by done. intros Hz. destruct (ff_data _ _ F n Hn Hz). auto.
  - intros m n Hm Hn. rewrite !Hs by done. by apply F.
Qed.
Lemma foreign_same s s' x y :
  foreign s x y → sb s' = sb s → (∀ c, 0 ≤ c < sb_size (sb s) → used s' c = used s c) →
  (∀ n, 0 ≤ n ≤ MAXFILE → slot s' x n = slot s x n) → foreign s' x y.
Proof.
  intros (A & B & C & D) Hsb Hu Hs. unfold foreign. rewrite Hsb, Hu by done. split_and!; [lia..|done|done|].
  intros n Hn. rewrite Hs by done. auto.
Qed.

Lemma baddr_frame s s' x n :
  (ind x ≠ 0 → fview s' (ind x) = fview s (ind x)) → baddr s' x n = baddr s x n.
Proof.
  intros H. unfold baddr. fold (ind x). destruct (n <? _); [done|]. destruct (ind x =? 0) eqn:E; [done|]. zbool.
  by rewrite H.
Qed.
Lemma slot_frame s s' x n :
  (ind x ≠ 0 → fview s' (ind x) = fview s (ind x)) → slot s' x n = slot s x n.
Proof. intros H. unfold slot. destruct (n =? MAXFILE); [done|]. by apply baddr_frame. Qed.

(** ** What every step of a write keeps *)

Record keeps (ip : nat) (s : kstate) (x : inode) (s' : kstate) (x' : inode) : Prop := {
  kp_env : imoves s s';
  kp_itable : itable s' = <[ip := x']> (itable s);
  kp_file : fs_file s' x';
  kp_fields : x' = x <| upd_i_addrs := i_addrs x' |>;
  kp_slots n : 0 ≤ n < MAXFILE → baddr s x n ≠ 0 → baddr s' x' n = baddr s x n;
  kp_foreign y : foreign s x y → foreign s' x' y ∧ fview s' y = fview s y;
  kp_logged : logged (log s) ⊆ logged (log s');
}.

(** The blocks of the file keep their bytes. *)
Definition same_data (s : kstate) (x : inode) (s' : kstate) : Prop :=
  ∀ n, 0 ≤ n < MAXFILE → baddr s x n ≠ 0 → fview s' (baddr s x n) = fview s (baddr s x n).
Lemma same_data_trans ip s x s1 x1 s2 :
  keeps ip s x s1 x1 → same_data s x s1 → same_data s1 x1 s2 → same_data s x s2.
Proof.
  intros K H1 H2 n Hn Hz. rewrite <- H1 by done. rewrite <- (kp_slots _ _ _ _ _ K n Hn Hz). apply H2; [done|].
  by rewrite (kp_slots _ _ _ _ _ K n Hn Hz).
Qed.
Lemma baddr_data s x n : fs_file s x → 0 ≤ n < MAXFILE → baddr s x n ≠ 0 → data_block s (baddr s x n).
Proof. intros F Hn Hz. rewrite <- slot_block in * by done. apply F; [lia|done]. Qed.

Lemma upd_addrs_self x : x <| upd_i_addrs := i_addrs x |> = x.
Proof. by destruct x. Qed.
Lemma upd_addrs_twice x a b : x <| upd_i_addrs := a |> <| upd_i_addrs := b |> = x <| upd_i_addrs := b |>.
Proof. by destruct x. Qed.

Lemma ikeeps_trans ip s x s1 x1 s2 x2 : keeps ip s x s1 x1 → keeps ip s1 x1 s2 x2 → keeps ip s x s2 x2.
Proof.
  intros [A1 A2 A3 A4 A5 A6 A7] [B1 B2 B3 B4 B5 B6 B7]. split; [by etrans|..].
  - rewrite B2, A2. apply list_insert_insert_eq.
  - done.
  - rewrite B4, A4. by rewrite upd_addrs_twice.
  - intros n Hn Hz. rewrite B5, A5; [done..|]. by rewrite A5.
  - intros y Hy. destruct (A6 y Hy) as [Hy1 E1]. destruct (B6 y Hy1) as [Hy2 E2]. split; [done|congruence].
  - by etrans.
Qed.

(** Only the order of the cache changed. *)
Lemma keeps_same ip s x s' :
  itable s !! ip = Some x → fs_file s x → moves s s' → log s' = log s → (∀ y, fview s' y = fview s y) →
  keeps ip s x s' x.
Proof.
  intros Hx F M L V.
  assert (∀ n, slot s' x n = slot s x n) as Hs by (intros; apply slot_frame; auto).
  split; [by apply moves_imoves| | | | | |].
  - by rewrite (moves_itable _ _ M), list_insert_id.
  - eapply fs_file_same; [done|by apply moves_sb| |done]. intros. by apply used_same.
  - by rewrite upd_addrs_self.
  - intros. apply baddr_same. done.
  - intros y Hy. split; [|done]. eapply foreign_same; [done|by apply moves_sb| |done]. intros. by apply used_same.
  - by rewrite L.
Qed.
Lemma keeps_itable ip s x s' x' : itable s !! ip = Some x → keeps ip s x s' x' → itable s' !! ip = Some x'.
Proof. intros Hx K. rewrite (kp_itable _ _ _ _ _ K). apply list_lookup_insert_eq. by eapply lookup_lt_Some. Qed.

(** ** A new block for a direct address, or the indirect block *)

Lemma ldl_zero n o : ldl n zero_block o = 0.
Proof. apply ldl_replicate. Qed.

Definition slot_of (k : nat) : Z := if decide (k = NDIRECT) then MAXFILE else Z.of_nat k.
Lemma slot_of_range k : (k ≤ NDIRECT)%nat → 0 ≤ slot_of k ≤ MAXFILE.
Proof. intros Hk. unfold slot_of. case_decide; [done|]. unfold MAXFILE, NDIRECT in *. change NINDIRECT with 256. lia. Qed.
Lemma slot_of_zero s x k : (k ≤ NDIRECT)%nat → nth k (i_addrs x) 0 = 0 → slot s x (slot_of k) = 0.
Proof.
  intros Hk E. unfold slot_of. case_decide as Hd; [by rewrite slot_ind; subst|].
  rewrite slot_block by (unfold MAXFILE, NDIRECT in *; change NINDIRECT with 256; lia).
  unfold baddr. rewrite (proj2 (Z.ltb_lt _ _)) by lia. by rewrite Nat2Z.id.
Qed.

Lemma nth_insert_case (l : list Z) i j v :
  (i < length l)%nat → nth j (<[i := v]> l) 0 = if decide (j = i) then v else nth j l 0.
Proof.
  intros Hi. rewrite nth_lookup_Z. case_decide; [subst; by rewrite list_lookup_insert_eq|].
  by rewrite list_lookup_insert_ne, <- nth_lookup_Z by done.
Qed.

Lemma slot_new_addr s s' x k a m :
  (k ≤ NDIRECT)%nat → length (i_addrs x) = S NDIRECT → nth k (i_addrs x) 0 = 0 → a ≠ 0 → 0 ≤ m ≤ MAXFILE →
  (ind x ≠ 0 → fview s' (ind x) = fview s (ind x)) → fview s' a = zero_block →
  slot s' (x <| upd_i_addrs := <[k := a]> (i_addrs x) |>) m = if decide (m = slot_of k) then a else slot s x m.
Proof.
  intros Hk Hl H0 Ha Hm Hv Hz. set (x' := x <| upd_i_addrs := _ |>).
  assert (∀ j, nth j (i_addrs x') 0 = if decide (j = k) then a else nth j (i_addrs x) 0) as Hn
    by (intros j; apply nth_insert_case; lia).
  unfold slot, slot_of, ind, baddr in *. rewrite !Hn. destruct (m =? MAXFILE) eqn:E; zbool.
  { repeat case_decide; subst; try done.
    unfold MAXFILE, NDIRECT in *. change NINDIRECT with 256 in *. lia. }
  destruct (m <? Z.of_nat NDIRECT) eqn:E'; zbool.
  { repeat case_decide; subst; try lia; try done. }
  destruct (decide (NDIRECT = k)) as [<-|Hne].
  - rewrite (proj2 (Z.eqb_neq _ _)) by done. rewrite Hz, ldl_zero. rewrite H0.
    rewrite (decide_False (P := m = _)); [done|]. case_decide; done || lia.
  - rewrite (decide_False (P := k = _)) by done. rewrite decide_False by lia.
    destruct (_ =? 0) eqn:E2; [done|]. zbool. by rewrite Hv.
Qed.

(** The two places where [bmap] allocates for [ip->addrs]. *)
Definition new_addr (ip : nat) (dev : Z) (k : nat) : K Z :=
  addr ← balloc dev;
  if addr =? 0 then mret 0 else
  updi ip (λ x, x <| upd_i_addrs ::= <[k := addr]> |>);;
  mret addr.

(** No free block is left. *)
Definition disk_full (s : kstate) : Prop := ∀ c, 0 ≤ c < sb_size (sb s) → used s c = true.

(** The blocks the next use of the indirect block may add to the log. *)
Definition ind_cost (s : kstate) (x : inode) : nat :=
  if decide (ind x = 0) then 2 else if decide (ind x ∈ logged (log s)) then 0 else 1.
Definition logs (s : kstate) : nat := length (logged (log s)).

Lemma ind_cost_mono s s' x :
  logged (log s) ⊆ logged (log s') → (ind_cost s' x ≤ ind_cost s x)%nat.
Proof. intros H. unfold ind_cost. repeat case_decide; try lia. set_solver. Qed.

Section alloc.
Context (me : proc) (ip : nat).
Implicit Types (s : kstate) (x : inode).

Lemma note_subset b T : T ⊆ note b T.
Proof using. intros y Hy. apply elem_note. by right. Qed.

Lemma new_addr_ok s x k :
  txn me [] s → itable s !! ip = Some x → fs_file s x → 1 ≤ lg_outstanding (log s) → LPr ∉ locks s →
  (used_buffers [] s + 2 ≤ NBUF)%nat → (k ≤ NDIRECT)%nat → nth k (i_addrs x) 0 = 0 →
  ∃ a s' x', new_addr ip ROOTDEV k s = Ok a s' ∧ txn me [] s' ∧ keeps ip s x s' x' ∧ same_data s x s' ∧
    (logs s' ≤ logs s + 2)%nat ∧
    if decide (a = 0) then x' = x ∧ disk_full s' ∧ log s' = log s ∧ ∀ m, slot s' x m = slot s x m
    else a ∈ logged (log s') ∧ nth k (i_addrs x') 0 = a ∧
      ∀ m, 0 ≤ m ≤ MAXFILE → slot s' x' m = if decide (m = slot_of k) then a else slot s x m.
Proof using.
  intros T Hx F Hout HL Hroom Hk H0.
  destruct (balloc_pool me [] s T Hout) as (r & s1 & E & M & T1 & R); [|apply F|done|done|].
  { intros y Hy. by apply not_elem_of_nil in Hy. }
  unfold new_addr. rewrite (bind_ok _ _ _ _ _ E).
  destruct R as [(R1 & R2 & R3 & R4 & R5 & R6 & R7)|(-> & R1 & R2 & R3)].
  2:{ exists 0, s1, x. split; [done|]. split; [done|]. split; [by apply keeps_same|]. split; [by intros ???|].
      split; [unfold logs; rewrite R3; lia|]. rewrite decide_True by done. split_and!; [done| |done|].
      - intros c. rewrite (moves_sb _ _ M). intros Hc. rewrite (used_same s s1) by done. by apply R1.
      - intros m. by apply slot_frame. }
  assert (r ≠ 0) as Hr0 by (intros ->; rewrite (ff_boot _ _ F) in R2; done).
  rewrite (proj2 (Z.eqb_neq _ _)) by done.
  assert (itable s1 !! ip = Some x) as Hx1 by (by rewrite (moves_itable _ _ M)).
  rewrite (bind_ok _ _ _ _ _ (updi_ok s1 ip x _ Hx1)).
  set (x' := x <| upd_i_addrs := <[k := r]> (i_addrs x) |>).
  set (s2 := s1 <| upd_itable := <[ip := x']> (itable s1) |>).
  pose proof (iw_len _ (ff_wf _ _ F)) as Hl.
  assert (∀ y, data_block s y → fview s2 y = fview s y) as Hv.
  { intros y (A & B & C). unfold s2. rewrite fview_set_itable. apply R6; [congruence|]. symmetry. by apply C. }
  assert (∀ m, 0 ≤ m ≤ MAXFILE → slot s2 x' m = if decide (m = slot_of k) then r else slot s x m) as Hs.
  { intros m Hm. apply slot_new_addr; try done.
    intros Hi. apply Hv. rewrite <- (slot_ind s). apply F; [done|by rewrite slot_ind]. }
  assert (∀ c, 0 ≤ c < sb_size (sb s) → used s2 c = if decide (c = r) then true else used s c) as Hu.
  { intros c Hc. rewrite <- R4 by done. unfold used, s2. by rewrite fview_set_itable. }
  assert (sb s2 = sb s) as Hsb by (unfold s2; rewrite <- (moves_sb _ _ M); by destruct s1).
  assert (slot s2 x' (slot_of k) = r) as Hsk by (rewrite Hs, decide_True by (done || by apply slot_of_range); done).
  assert (∀ m, 0 ≤ m ≤ MAXFILE → m ≠ slot_of k → slot s2 x' m = slot s x m) as Hso
    by (intros; by rewrite Hs, decide_False by done).
  assert (∃ a, x' = x <| upd_i_addrs := a |> ∧ length a = S NDIRECT ∧ ∀ v, v ∈ a → 0 ≤ v < 2 ^ 32) as Hax.
  { eexists. split; [done|]. split; [by rewrite length_insert|]. intros v Hv'. pose proof (proj1 (ff_bitmap _ _ F)).
    apply list_elem_of_lookup in Hv' as [j Hj]. apply list_lookup_insert_Some in Hj as [(_ & <- & _)|[_ Hj]]; [lia|].
    apply (ff_wf _ _ F). by eapply list_elem_of_lookup_2. }
  pose proof (slot_of_zero s x k Hk H0) as Hs0. pose proof (slot_of_range k Hk) as Hkr.
  exists r, s2, x'. split; [done|]. split; [by apply txn_set_itable|]. split; [split|].
  - etrans; [by apply moves_imoves|]. apply imoves_set.
  - unfold s2. rewrite <- (moves_itable _ _ M). by destruct s1.
  - by eapply (fs_file_grow s s2 x x' (slot_of k) r).
  - done.
  - intros n Hn Hz. rewrite <- !slot_block in * by done. apply Hso; [lia|]. intros ->. done.
  - intros y Hy. split; [by eapply (foreign_grow s s2 x x' (slot_of k) r)|].
    destruct Hy as (A & B & C & _). unfold s2. rewrite fview_set_itable. apply R6; [congruence|]. symmetry. by apply C.
  - change (log s2) with (log s1). rewrite R7. etrans; [|apply note_subset]. apply note_subset.
  - split; [intros m Hm Hmz; by apply Hv, baddr_data|].
    rewrite decide_False by done. change (log s2) with (log s1) in *. unfold logs. change (log s2) with (log s1). rewrite R7.
    split; [|split_and!; [apply elem_note; by left| |done]].
    + pose proof (length_note r (note (BBLOCK r (sb s)) (logged (log s)))).
      pose proof (length_note (BBLOCK r (sb s)) (logged (log s))). lia.
    + cbn. rewrite nth_insert_case by lia. by rewrite decide_True.
Qed.

(** The part of [bmap] that works on the indirect block. *)
Definition ind_addr (dev addr bn : Z) : K Z :=
  bp ← bread dev addr;
  y ← getb bp;
  let addr := ldl 4 (b_data y) (Z.to_nat (4 * bn)) in
  addr ← (if addr =? 0 then
            addr ← balloc dev;
            whenM (nz addr)
              (setdata bp (λ d, stl 4 d (Z.to_nat (4 * bn)) addr);; log_write bp);;
            mret addr
          else mret addr);
  brelse bp;;
  mret addr.

Lemma baddr_ind s x bn :
  ind x ≠ 0 → 0 ≤ bn → baddr s x (Z.of_nat NDIRECT + bn) = ldl 4 (fview s (ind x)) (Z.to_nat (4 * bn)).
Proof using.
  intros Hi Hb. unfold baddr. fold (ind x). rewrite (proj2 (Z.ltb_ge _ _)), (proj2 (Z.eqb_neq _ _)) by (done || lia).
  do 2 f_equal. lia.
Qed.

(** One entry of the indirect block is set. *)
Lemma slot_new_entry s s' x bn a m :
  ind x ≠ 0 → 0 ≤ bn < NINDIRECT → 0 ≤ a < 2 ^ 32 → length (fview s (ind x)) = Z.to_nat BSIZE →
  fview s' (ind x) = stl 4 (fview s (ind x)) (Z.to_nat (4 * bn)) a → 0 ≤ m ≤ MAXFILE →
  slot s' x m = if decide (m = Z.of_nat NDIRECT + bn) then a else slot s x m.
Proof using.
  intros Hi Hb Ha Hl Hv Hm. change NINDIRECT with 256 in *. change (Z.to_nat BSIZE) with 1024%nat in Hl.
  unfold slot. change MAXFILE with 268 in *. unfold NDIRECT in *. destruct (m =? 268) eqn:E; zbool.
  { rewrite decide_False by lia. done. }
  destruct (decide (m < Z.of_nat 12)) as [Hlt|Hge].
  { rewrite decide_False by lia. unfold baddr, NDIRECT. by rewrite (proj2 (Z.ltb_lt _ _)) by done. }
  replace m with (Z.of_nat 12 + (m - 12)) by lia. change 12%nat with NDIRECT. rewrite !baddr_ind, Hv by (done || lia).
  unfold NDIRECT. case_decide as Hd.
  - replace (m - 12) with bn by lia. apply ldl_stl_eq; [lia|]. by change (256 ^ Z.of_nat 4) with (2 ^ 32).
  - apply ldl_stl_ne. lia.
Qed.

Lemma ind_mapped s x bn :
  txn me [] s → itable s !! ip = Some x → fs_file s x → ind x ≠ 0 → 0 ≤ bn < NINDIRECT →
  (used_buffers [] s < NBUF)%nat → baddr s x (Z.of_nat NDIRECT + bn) ≠ 0 →
  ∃ s', ind_addr ROOTDEV (ind x) bn s = Ok (baddr s x (Z.of_nat NDIRECT + bn)) s' ∧ txn me [] s' ∧
    keeps ip s x s' x ∧ log s' = log s ∧ ∀ y, fview s' y = fview s y.
Proof using.
  intros T Hx F Hi Hb Hroom Hz.
  destruct (peek_txn me [] s (ind x) T (not_elem_of_nil _) Hroom) as (i & s1 & b & s' & E1 & E2 & D & _ & E3 & M & L & T' & V).
  exists s'. unfold ind_addr. rewrite (bind_ok _ _ _ _ _ E1), (bind_ok _ _ _ _ _ E2), D.
  rewrite baddr_ind in * by (done || lia). rewrite (proj2 (Z.eqb_neq _ _)) by done.
  rewrite bind_mret, (bind_ok _ _ _ _ _ E3). split_and!; try done. by apply keeps_same.
Qed.

(** A held data block is neither a bitmap block nor free. *)
Lemma apart_data s i a : data_block s a → apart [(i, a)] s.
Proof using. intros (A & B & C) y Hy%list_elem_of_singleton. cbn in Hy. subst y. done. Qed.

Lemma length_note3 a b c T : (length (note a (note b (note c T))) ≤ length T + 2 + if decide (a ∈ T) then 0 else 1)%nat.
Proof using.
  pose proof (length_note c T). pose proof (length_note b (note c T)).
  case_decide as Ha; [|pose proof (length_note a (note b (note c T))); lia].
  unfold note at 1. rewrite decide_True; [lia|]. by do 2 apply note_subset.
Qed.

(** The state after the block [r] was taken for entry [bn] of the indirect
    block. *)
Lemma entry_keeps s s' x bn r :
  itable s !! ip = Some x → fs_file s x → ind x ≠ 0 → 0 ≤ bn < NINDIRECT → moves s s' →
  bc_ok (bcache s) (disk s) → 0 ≤ r < sb_size (sb s) → used s r = false →
  (∀ c, 0 ≤ c < sb_size (sb s) → used s' c = if decide (c = r) then true else used s c) →
  (∀ y, y ≠ r → y ≠ BBLOCK r (sb s) → fview s' y =
     if decide (y = ind x) then stl 4 (fview s y) (Z.to_nat (4 * bn)) r else fview s y) →
  baddr s x (Z.of_nat NDIRECT + bn) = 0 →
  logged (log s') = note (ind x) (note r (note (BBLOCK r (sb s)) (logged (log s)))) →
  keeps ip s x s' x ∧
  ∀ m, 0 ≤ m ≤ MAXFILE → slot s' x m = if decide (m = Z.of_nat NDIRECT + bn) then r else slot s x m.
Proof using.
  intros Hx F Hi Hb M Ho Hr Hf Hu Hv Hz Hl. set (n := Z.of_nat NDIRECT + bn) in *.
  assert (0 ≤ n < MAXFILE) as Hn by (unfold n, MAXFILE; lia). pose proof (proj1 (ff_bitmap _ _ F)) as Hsz.
  assert (data_block s (ind x)) as (D1 & D2 & D3).
  { rewrite <- (slot_ind s x). apply F; [done|by rewrite slot_ind]. }
  assert (∀ m, 0 ≤ m ≤ MAXFILE → slot s' x m = if decide (m = n) then r else slot s x m) as Hs.
  { intros m Hm. apply slot_new_entry; [done|done|lia| | |done].
    - apply (cview_length _ _ _ Ho).
    - rewrite Hv, decide_True; [done..|congruence|]. symmetry. by apply D3. }
  split; [|done]. rewrite <- slot_block in Hz by done.
  assert (slot s' x n = r) as Hsn by (rewrite Hs, decide_True by (done || lia); done).
  assert (∀ m, 0 ≤ m ≤ MAXFILE → m ≠ n → slot s' x m = slot s x m) as Hso by (intros; by rewrite Hs, decide_False by done).
  assert (∃ a, x = x <| upd_i_addrs := a |> ∧ length a = S NDIRECT ∧ ∀ v, v ∈ a → 0 ≤ v < 2 ^ 32) as Hax.
  { exists (i_addrs x). rewrite upd_addrs_self. split; [done|]. split; apply F. }
  pose proof (moves_sb _ _ M) as Hsb. assert (0 ≤ n ≤ MAXFILE) as Hn' by lia. split.
  - by apply moves_imoves.
  - by rewrite (moves_itable _ _ M), list_insert_id.
  - by eapply (fs_file_grow s s' x x n r).
  - by rewrite upd_addrs_self.
  - intros m Hm Hmz. rewrite <- !slot_block in * by done. apply Hso; [lia|]. intros ->. done.
  - intros y Hy. split; [by eapply (foreign_grow s s' x x n r)|]. destruct Hy as (A & B & C & D).
    rewrite Hv, decide_False; [done| |congruence|symmetry; by apply C].
    intros ->. apply (D MAXFILE); [done|apply slot_ind].
  - rewrite Hl. do 2 (etrans; [|apply note_subset]). apply note_subset.
Qed.

Lemma ind_unmapped s x bn :
  txn me [] s → itable s !! ip = Some x → fs_file s x → 1 ≤ lg_outstanding (log s) → LPr ∉ locks s →
  ind x ≠ 0 → 0 ≤ bn < NINDIRECT → (used_buffers [] s + 3 ≤ NBUF)%nat → baddr s x (Z.of_nat NDIRECT + bn) = 0 →
  ∃ a s', ind_addr ROOTDEV (ind x) bn s = Ok a s' ∧ txn me [] s' ∧ keeps ip s x s' x ∧ same_data s x s' ∧
    (logs s' + ind_cost s' x ≤ logs s + ind_cost s x + 2)%nat ∧
    if decide (a = 0) then disk_full s' ∧ ∀ m, slot s' x m = slot s x m
    else a ∈ logged (log s') ∧
      ∀ m, 0 ≤ m ≤ MAXFILE → slot s' x m = if decide (m = Z.of_nat NDIRECT + bn) then a else slot s x m.
Proof using.
  intros T Hx F Hout HL Hi Hb Hroom Hz. set (n := Z.of_nat NDIRECT + bn) in *.
  assert (0 ≤ n < MAXFILE) as Hn by (unfold n, MAXFILE; lia).
  assert (data_block s (ind x) ∧ ind x ≠ iblock s x) as [Hd _].
  { rewrite <- (slot_ind s x). apply F; [done|by rewrite slot_ind]. }
  destruct (bread_txn me [] s (ind x) T (not_elem_of_nil _) ltac:(lia)) as (i & s1 & E1 & M1 & L1 & T1 & V1).
  destruct (getb_txn me _ s1 i (ind x) T1) as (b & E2 & D & _); [left|]. rewrite V1 in D.
  unfold ind_addr. rewrite (bind_ok _ _ _ _ _ E1), (bind_ok _ _ _ _ _ E2), D.
  rewrite <- baddr_ind by (done || lia). fold n. rewrite Hz. change (0 =? 0) with true. cbn iota.
  assert (keeps ip s x s1 x) as K1 by (by apply keeps_same).
  destruct (balloc_pool me [(i, ind x)] s1 T1) as (r & s2 & E3 & M2 & T2 & R).
  { by rewrite L1. } { apply apart_data. destruct Hd as (A & B & C). unfold data_block. rewrite (moves_sb _ _ M1), (used_same s s1) by done. done. }
  { apply K1. } { unfold used_buffers in *. rewrite L1. cbn in *. lia. } { by rewrite (moves_locks _ _ M1). }
  destruct R as [(R1 & R2 & R3 & R4 & R5 & R6 & R7)|(-> & R1 & R2 & R3)].
  - rewrite (moves_sb _ _ M1) in R1, R4, R6, R7. rewrite (used_same s s1) in R2 by done. rewrite L1 in R7.
    assert (r ≠ 0) as Hr0 by (intros ->; rewrite (ff_boot _ _ F) in R2; done).
    destruct (update_txn me _ s2 i (ind x) (λ d, stl 4 d (Z.to_nat (4 * bn)) r) T2)
      as (s3 & s4 & E4 & E5 & M4 & T4 & L4 & V4); [left| |by rewrite (moves_outstanding _ _ M2), L1|intros; by rewrite length_stl|].
    { pose proof (logged_length _ (tn_log _ _ _ T2)). rewrite R7 in *.
      pose proof (length_note r (note (BBLOCK r (sb s)) (logged (log s)))).
      pose proof (length_note (BBLOCK r (sb s)) (logged (log s))).
      unfold used_buffers in Hroom. cbn in Hroom. change LOGBLOCKS with (Z.of_nat NBUF). lia. }
    destruct (brelse_txn me [] s4 i (ind x) T4) as (s5 & E6 & M5 & L5 & T5 & V5).
    assert (moves s s5) as M by (by rewrite M1, M2, M4).
    assert (logged (log s5) = note (ind x) (note r (note (BBLOCK r (sb s)) (logged (log s))))) as L by congruence.
    assert (∀ y, y ≠ r → y ≠ BBLOCK r (sb s) → fview s5 y =
      if decide (y = ind x) then stl 4 (fview s y) (Z.to_nat (4 * bn)) r else fview s y) as V.
    { intros y H1 H2. rewrite V5, V4. case_decide; subst; by rewrite R6, V1. }
    destruct (entry_keeps s s5 x bn r) as [K Hs]; try done; try (by apply T).
    { intros c Hc. rewrite <- (used_same s s1), <- R4 by done. unfold used.
      rewrite V5, V4, decide_False; [by rewrite (moves_sb _ _ M), (moves_sb _ _ M2), (moves_sb _ _ M1)|].
      rewrite (moves_sb _ _ M). by apply Hd. }
    exists r, s5. rewrite (bind_ok _ _ _ r s4).
    2:{ rewrite (bind_ok _ _ _ _ _ E3). rewrite (proj2 (nz_true _)) by done. cbn [whenM].
        rewrite (bind_ok _ _ _ () s4); [done|]. by rewrite (bind_ok _ _ _ _ _ E4). }
    rewrite (bind_ok _ _ _ _ _ E6). split; [done|]. split; [done|]. split; [done|]. split; [|split].
    + intros m Hm Hmz. destruct (baddr_data s x m F Hm Hmz) as (A & B & C).
      rewrite V, decide_False; [done| |congruence|symmetry; by apply C]. intros E.
      assert (m = MAXFILE); [|lia]. rewrite <- slot_block in * by done. apply F; [lia|done|by rewrite slot_ind|done].
    + unfold logs, ind_cost. rewrite L. pose proof (length_note3 (ind x) r (BBLOCK r (sb s)) (logged (log s))).
      rewrite !(decide_False (P := ind x = 0)) by done.
      rewrite (decide_True (P := ind x ∈ note _ _)) by (apply elem_note; by left). lia.
    + rewrite decide_False by done. split; [|done]. rewrite L, !elem_note. tauto.
  - change (nz 0) with false. cbn [whenM].
    rewrite (bind_ok _ _ _ 0 s2) by (by rewrite (bind_ok _ _ _ _ _ E3)).
    destruct (brelse_txn me [] s2 i (ind x) T2) as (s3 & E4 & M3 & L3 & T3 & V3).
    assert (moves s s3) as M by (by rewrite M1, M2). assert (log s3 = log s) as L by congruence.
    assert (∀ y, fview s3 y = fview s y) as V by (intros y; by rewrite V3, R2).
    exists 0, s3. rewrite (bind_ok _ _ _ _ _ E4). split; [done|]. split; [done|]. split; [by apply keeps_same|]. split; [by intros ???|].
    split; [unfold logs, ind_cost; rewrite L; lia|]. rewrite decide_True by done. split.
    + intros c. rewrite (moves_sb _ _ M). intros Hc. rewrite (used_same s s3) by done.
      rewrite <- (used_same s s1) by done. apply R1. by rewrite (moves_sb _ _ M1).
    + intros m. by apply slot_frame.
Qed.

(** ** bmap *)

Definition maybe (s : kstate) (x : inode) (n : Z) : nat := if decide (baddr s x n = 0) then 2 else 0.

Lemma bmap_direct s x n :
  itable s !! ip = Some x → i_dev x = ROOTDEV → 0 ≤ n < Z.of_nat NDIRECT → baddr s x n = 0 →
  bmap ip n s = new_addr ip ROOTDEV (Z.to_nat n) s ∧ nth (Z.to_nat n) (i_addrs x) 0 = 0.
Proof using.
  intros Hx Hd Hn Hz. unfold baddr in Hz. rewrite (proj2 (Z.ltb_lt _ _)) in Hz by lia. split; [|done].
  unfold bmap. rewrite (bind_ok _ _ _ _ _ (geti_ok s ip x Hx)), (proj2 (Z.ltb_lt _ _)) by lia.
  rewrite Hz, Hd. done.
Qed.
Lemma bmap_indirect s x n :
  itable s !! ip = Some x → i_dev x = ROOTDEV → Z.of_nat NDIRECT ≤ n < MAXFILE →
  bmap ip n s = (a ← (if ind x =? 0 then new_addr ip ROOTDEV NDIRECT else mret (ind x));
                 if a =? 0 then mret 0 else ind_addr ROOTDEV a (n - Z.of_nat NDIRECT)) s.
Proof using.
  intros Hx Hd Hn. unfold bmap. rewrite (bind_ok _ _ _ _ _ (geti_ok s ip x Hx)), (proj2 (Z.ltb_ge _ _)) by lia.
  unfold MAXFILE in Hn. rewrite (proj2 (Z.ltb_lt _ _)) by lia. rewrite Hd. done.
Qed.

Lemma bmap_ok s x n :
  txn me [] s → itable s !! ip = Some x → fs_file s x → 1 ≤ lg_outstanding (log s) → LPr ∉ locks s → 0 ≤ n < MAXFILE →
  (logs s + ind_cost s x + maybe s x n + 1 ≤ NBUF)%nat →
  ∃ a s' x', bmap ip n s = Ok a s' ∧ txn me [] s' ∧ keeps ip s x s' x' ∧ same_data s x s' ∧
    (logs s' + ind_cost s' x' ≤ logs s + ind_cost s x + maybe s x n)%nat ∧
    if decide (a = 0) then disk_full s' else baddr s' x' n = a ∧ (baddr s x n = 0 → a ∈ logged (log s')).
Proof using.
  intros T Hx F Hout HL Hn Hroom. unfold maybe in *. pose proof (ff_dev _ _ F) as Hdev.
  assert (used_buffers [] s = logs s) as Hub by done.
  destruct (decide (baddr s x n = 0)) as [Hz|Hz]; cycle 1.
  { destruct (bmap_mapped me [] s ip x n) as (s' & E & M & L & T' & V); try done; [apply not_elem_of_nil|lia|].
    exists (baddr s x n), s', x. split; [done|]. split; [done|]. split; [by apply keeps_same|]. split; [by intros ???|].
    split; [unfold logs, ind_cost; rewrite L; lia|]. rewrite decide_False by done. split; [by apply baddr_same|done]. }
  destruct (decide (n < Z.of_nat NDIRECT)) as [Hlt|Hge].
  - destruct (bmap_direct s x n Hx Hdev ltac:(lia) Hz) as [-> H0].
    destruct (new_addr_ok s x (Z.to_nat n) T Hx F Hout HL) as (a & s' & x' & E & T' & K & D & Hl & R); [lia|lia|done|].
    exists a, s', x'. split; [done|]. split; [done|]. split; [done|]. split; [done|].
    assert (slot_of (Z.to_nat n) = n) as Hsl by (unfold slot_of; rewrite decide_False by lia; lia).
    assert (ind x' = ind x) as Hi.
    { case_decide; [by destruct R as (-> & _)|]. destruct R as (_ & _ & R). rewrite <- !(slot_ind s'), R by done.
      by rewrite decide_False, !slot_ind by lia. }
    split.
    + pose proof (ind_cost_mono s s' x (kp_logged _ _ _ _ _ K)). unfold ind_cost in *. rewrite Hi. lia.
    + case_decide; [by apply R|]. destruct R as (R1 & _ & R). rewrite <- slot_block, R by lia. by rewrite Hsl, decide_True.
  - rewrite (bmap_indirect s x n Hx Hdev) by lia. set (bn := n - Z.of_nat NDIRECT) in *.
    assert (n = Z.of_nat NDIRECT + bn) as En by (unfold bn; lia).
    assert (0 ≤ bn < NINDIRECT) as Hbn by (unfold bn, MAXFILE in *; lia).
    destruct (ind x =? 0) eqn:Ei; zbool.
    + destruct (new_addr_ok s x NDIRECT T Hx F Hout HL) as (a & s1 & x1 & E & T1 & K & D & Hl & R);
        [unfold ind_cost in Hroom; rewrite decide_True in Hroom by done; lia|done|done|].
      rewrite (bind_ok _ _ _ _ _ E). destruct (decide (a = 0)) as [->|Ha].
      { destruct R as (-> & R1 & R2 & R3). exists 0, s1, x. split; [done|]. split; [done|]. split; [done|]. split; [done|].
        split; [unfold logs, ind_cost; rewrite R2; lia|]. by rewrite decide_True. }
      destruct R as (R1 & R2 & R3). rewrite (proj2 (Z.eqb_neq _ _)) by done. change (nth NDIRECT (i_addrs x1) 0) with (ind x1) in R2.
      rewrite <- R2. assert (ind x1 ≠ 0) as Hi1 by congruence.
      assert (ind_cost s x = 2%nat ∧ ind_cost s1 x1 = 0%nat) as [C0 C1].
      { unfold ind_cost. rewrite decide_True by done. split; [done|]. rewrite decide_False, R2, decide_True by done. done. }
      destruct (ind_unmapped s1 x1 bn) as (c & s2 & E2 & T2 & K2 & D2 & Hc & R4); try done.
      * by eapply keeps_itable.
      * apply K.
      * by rewrite (imoves_outstanding _ _ (kp_env _ _ _ _ _ K)).
      * by rewrite (imoves_locks _ _ (kp_env _ _ _ _ _ K)).
      * change (used_buffers [] s1) with (logs s1). lia.
      * rewrite <- En, <- slot_block, R3, decide_False by (done || lia || (unfold slot_of; rewrite decide_True by done; lia)).
        by rewrite slot_block.
      * exists c, s2, x1. split; [done|]. split; [done|]. split; [by eapply ikeeps_trans|].
        split; [by eapply same_data_trans|]. split; [lia|]. case_decide; [by apply R4|]. destruct R4 as [R4 R5]. rewrite <- slot_block, R5, decide_True by (done || lia).
        done.
    + rewrite bind_mret, (proj2 (Z.eqb_neq _ _)) by done.
      destruct (ind_unmapped s x bn) as (c & s2 & E2 & T2 & K2 & D2 & Hc & R4); try done; [|congruence|].
      { rewrite Hub. lia. }
      exists c, s2, x. split; [done|]. split; [done|]. split; [done|]. split; [done|]. split; [lia|].
      case_decide; [by apply R4|]. destruct R4 as [R4 R5]. rewrite <- slot_block, R5, decide_True by (done || lia). done.
Qed.
End alloc.
