(* ===== verification/File.v ===== *)
(** * kernel/file.c, kernel/file.h, and pipealloc of kernel/pipe.c: the table of open files

    A pointer to a [struct file] is its index in [ftable].  The device switch
    has one entry, the console's, present once [consoleinit] ran.  The pages
    that hold pipes are kept as records in [pipes], under their address. *)

From S2P Require Import Prelude Bytes Riscv Kstate CString Kalloc Vm Sched Bio Log Printf Console Pipe Fs.

Definition getfile (f : nat) : K file :=
  F ← gets ftable; match F !! f with Some x => mret x | None => panic "kerneltrap" end.
Definition updfile (f : nat) (g : file → file) : K () := update upd_ftable (alter g f).

Fixpoint filealloc_loop (n f : nat) : K (option nat) :=
  match n with
  | O => release LFtable;; mret None
  | S n =>
      x ← getfile f;
      if f_ref x =? 0 then
        updfile f (λ x, x <| upd_f_ref := 1 |>);; release LFtable;; mret (Some f)
      else filealloc_loop n (S f)
  end.
Definition filealloc : K (option nat) := acquire LFtable;; filealloc_loop NFILE 0.

Definition filedup (f : nat) : K nat :=
  acquire LFtable;;
  x ← getfile f;
  if f_ref x <? 1 then panic "filedup" else
  updfile f (λ x, x <| upd_f_ref ::= λ r, r + 1 |>);;
  release LFtable;;
  mret f.

(** A dereference of a possibly NULL inode pointer. *)
Definition deref (ip : option nat) : K nat :=
  match ip with Some i => mret i | None => panic "kerneltrap" end.

Definition fileclose (f : nat) : K () :=
  acquire LFtable;;
  x ← getfile f;
  if f_ref x <? 1 then panic "fileclose" else
  updfile f (λ x, x <| upd_f_ref ::= λ r, r - 1 |>);;
  if 0 <? f_ref x - 1 then release LFtable
  else
    ff ← getfile f;
    updfile f (λ x, x <| upd_f_ref := 0 |>);;
    updfile f (λ x, x <| upd_f_type := FD_NONE |>);;
    release LFtable;;
    match f_type ff with
    | FD_PIPE => pipeclose (f_pipe ff) (f_writable ff)
    | FD_INODE | FD_DEVICE =>
        begin_op;; ip ← deref (f_ip ff); iput ip;; end_op
    | FD_NONE => mret ()
    end.

Definition filestat (f : nat) (addr : Z) : K Z :=
  i ← myproc;
  p ← getproc i;
  x ← getfile f;
  match f_type x with
  | FD_INODE | FD_DEVICE =>
      ip ← deref (f_ip x);
      ilock ip;;
      y ← geti ip;
      let st := stati y (replicate STAT_SIZE 0) in
      iunlock ip;;
      r ← copyout (pr_pagetable p) addr st;
      mret (if r <? 0 then -1 else 0)
  | _ => mret (-1)
  end.

Definition CONSOLE : Z := 1.
(** [major < 0 || major >= NDEV || !devsw[major].read]; the console sets its
    [read] and its [write] together. *)
Definition no_device (major : Z) (s : kstate) : bool :=
  (major <? 0) || (NDEV <=? major) || negb ((major =? CONSOLE) && devsw_console s).

Definition fileread (f : nat) (addr n : Z) : K Z :=
  x ← getfile f;
  if negb (f_readable x) then mret (-1) else
  match f_type x with
  | FD_PIPE => piperead (f_pipe x) addr n
  | FD_DEVICE =>
      none ← gets (no_device (f_major x));
      if (none : bool) then mret (-1) else
      r ← consoleread (DUser addr) n; mret r.1
  | FD_INODE =>
      ip ← deref (f_ip x);
      ilock ip;;
      r ← readi ip (DUser addr) (f_off x) (u32 n);
      whenM (0 <? r.1) (updfile f (λ x, x <| upd_f_off ::= λ o, u32 (o + r.1) |>));;
      iunlock ip;;
      mret r.1
  | FD_NONE => panic "fileread"
  end.

(** [((MAXOPBLOCKS-1-1-2) / 2) * BSIZE] *)
Definition MAXWRITE : Z := ((MAXOPBLOCKS - 1 - 1 - 2) / 2) * BSIZE.
(** One transaction of [filewrite]. *)
Definition write_chunk (f ip : nat) (addr n1 : Z) : K Z :=
  begin_op;;
  ilock ip;;
  x ← getfile f;
  r ← writei ip (SUser addr) (f_off x) (u32 n1);
  whenM (0 <? r) (updfile f (λ x, x <| upd_f_off ::= λ o, u32 (o + r) |>));;
  iunlock ip;;
  end_op;;
  mret r.
Fixpoint filewrite_loop (fuel : nat) (f ip : nat) (addr i n : Z) : K Z :=
  match fuel with
  | O => nofuel
  | S fuel =>
      if negb (i <? n) then mret i else
      let n1 := if MAXWRITE <? n - i then MAXWRITE else n - i in
      r ← write_chunk f ip (u64 (addr + i)) n1;
      if negb (r =? n1) then mret i else filewrite_loop fuel f ip addr (i + r) n
  end.
Definition filewrite (f : nat) (addr n : Z) : K Z :=
  x ← getfile f;
  if negb (f_writable x) then mret (-1) else
  match f_type x with
  | FD_PIPE => pipewrite (f_pipe x) addr n
  | FD_DEVICE =>
      none ← gets (no_device (f_major x));
      if (none : bool) then mret (-1) else consolewrite (SUser addr) n
  | FD_INODE =>
      ip ← deref (f_ip x);
      i ← filewrite_loop (S (S (Z.to_nat (n / MAXWRITE)))) f ip addr 0 n;
      mret (if i =? n then n else -1)
  | FD_NONE => panic "filewrite"
  end.

(** ** pipealloc *)

(** The content of a pipe in a page fresh from [kalloc], which fills it with 5. *)
Definition pipe_fresh : pipe := mk_pipe (replicate (Z.to_nat PIPESIZE) 5) 0 0 true true.
Definition close_opt (f : option nat) : K () :=
  match f with Some f => fileclose f | None => mret () end.
Definition set_pipe_end (f : nat) (pi : Z) (readable writable : bool) : K () :=
  updfile f (λ x, x <| upd_f_type := FD_PIPE |> <| upd_f_readable := readable |>
                    <| upd_f_writable := writable |> <| upd_f_pipe := pi |>).
(** The two file pointers on success, [None] for -1. *)
Definition pipealloc : K (option (nat * nat)) :=
  f0 ← filealloc;
  f1 ← (match f0 with Some _ => filealloc | None => mret None end);
  pi ← (match f0, f1 with Some _, Some _ => kalloc | _, _ => mret 0 end);
  match f0, f1, negb (pi =? 0) with
  | Some f0, Some f1, true =>
      update upd_pipes (<[pi := pipe_fresh]>);;
      set_pipe_end f0 pi true false;;
      set_pipe_end f1 pi false true;;
      mret (Some (f0, f1))
  | _, _, _ =>
      close_opt f0;;
      close_opt f1;;
      mret None
  end.
