(* ===== verification/FsWrite.v ===== *)
(** * kernel/fs.c: writing the content of an inode

    [wrote ip s x off data s' x'] says what a write does to the inode [x]: the
    bytes [data] at [off], every other byte of the file and every block of
    another file as before.  [writei] from a kernel buffer does that, up to
    the first block the disk has no room for, and logs no more blocks than
    [filewrite] counts on when it cuts a long write into pieces. *)

From S2P Require Import Prelude Bytes Riscv Kstate CString Kalloc Vm Sched Bio Log LogProps LogCrash LogTxn Printf Console Fs FsPath FsTxn FsAlloc FsFile FsBmap Pipe File.

(** ** Bytes in a block *)

Lemma length_put_bytes l o d : length (put_bytes l o d) = length d.
Proof. revert o d. induction l as [|c l IH]; intros o d; [done|]. cbn [put_bytes]. by rewrite IH, length_insert. Qed.
Lemma nth_put_bytes l o d k :
  (o + length l ≤ length d)%nat →
  nth k (put_bytes l o d) 0 = if decide (o ≤ k < o + length l)%nat then nth (k - o) (u8 <$> l) 0 else nth k d 0.
Proof.
  revert o d. induction l as [|c l IH]; intros o d Hl; cbn [put_bytes length] in *.
  { rewrite decide_False by lia. done. }
  rewrite IH by (rewrite length_insert; lia). rewrite nth_insert_case by lia. cbn [fmap list_fmap].
  destruct (decide (k = o)) as [->|Hne].
  { rewrite decide_False, decide_True by lia. by rewrite Nat.sub_diag. }
  destruct (decide (S o ≤ k < S o + length l)%nat) as [Hin|Hout].
  - rewrite decide_True by lia. replace (k - o)%nat with (S (k - S o)) by lia. done.
  - rewrite decide_False by lia. done.
Qed.

Lemma nth_take_lt (l : list Z) n k : (k < n)%nat → nth k (take n l) 0 = nth k l 0.
Proof. intros H. by rewrite !nth_lookup_Z, lookup_take_lt. Qed.
Lemma nth_app_case (l1 l2 : list Z) k :
  nth k (l1 ++ l2) 0 = if decide (k < length l1)%nat then nth k l1 0 else nth (k - length l1) l2 0.
Proof. case_decide; [by apply app_nth1|apply app_nth2; lia]. Qed.

(** ** What a write does *)

Record wrote (ip : nat) (s : kstate) (x : inode) (off : Z) (data : list Z) (s' : kstate) (x' : inode) : Prop := {
  wr_keeps : keeps ip s x s' x';
  wr_new k : off ≤ k < off + Z.of_nat (length data) →
    baddr s' x' (k / BSIZE) ≠ 0 ∧ fbyte s' x' k = nth (Z.to_nat (k - off)) data 0;
  wr_old k : 0 ≤ k < MAXFILE * BSIZE → ¬ (off ≤ k < off + Z.of_nat (length data)) →
    baddr s x (k / BSIZE) ≠ 0 → fbyte s' x' k = fbyte s x k;
}.

Lemma block_range k : 0 ≤ k < MAXFILE * BSIZE → 0 ≤ k / BSIZE < MAXFILE.
Proof. intros Hk. split; [apply Z.div_pos; [lia|done]|]. apply Z.div_lt_upper_bound; [done|lia]. Qed.

(** A step that only gives blocks addresses. *)
Lemma wrote_nothing ip s x off s' x' :
  keeps ip s x s' x' → same_data s x s' → wrote ip s x off [] s' x'.
Proof.
  intros K D. split; [done|cbn; lia|]. intros k Hk _ Hz. pose proof (block_range k Hk) as Hn. unfold fbyte.
  by rewrite (kp_slots _ _ _ _ _ K), D.
Qed.

Lemma wrote_app ip s x off d1 s1 x1 d2 s2 x2 :
  0 ≤ off → off + Z.of_nat (length d1 + length d2) ≤ MAXFILE * BSIZE →
  wrote ip s x off d1 s1 x1 → wrote ip s1 x1 (off + Z.of_nat (length d1)) d2 s2 x2 →
  wrote ip s x off (d1 ++ d2) s2 x2.
Proof.
  intros H0 Hm [K1 N1 O1] [K2 N2 O2]. split; [by eapply ikeeps_trans|..]; intros k; rewrite length_app; intros Hk.
  - rewrite nth_app_case. case_decide as Hd.
    + destruct (N1 k) as [Z1 E1]; [lia|]. pose proof (block_range k ltac:(lia)).
      split; [by rewrite (kp_slots _ _ _ _ _ K2)|]. rewrite O2; lia || done.
    + destruct (N2 k) as [Z2 E2]; [lia|]. split; [done|]. rewrite E2. f_equal. lia.
  - intros Hn Hz. pose proof (block_range k Hk).
    rewrite O2, O1; [done|lia|lia|done|lia|lia|by rewrite (kp_slots _ _ _ _ _ K1)].
Qed.

(** ** One piece *)

Section piece.
Context (me : proc) (ip : nat).
Implicit Types (s : kstate) (x : inode).

Lemma copyin_local H s bytes m :
  txn me H s → either_copyin (SLocal bytes) m s = Ok (0, take (Z.to_nat m) bytes) s.
Proof using.
  intros T. destruct (tn_ctx _ _ _ T) as [(c & Hc & Hm) _ _ _ _].
  unfold either_copyin, myproc, getproc. rewrite bind_gets2, Hc, bind_mret, bind_gets2, Hm. done.
Qed.

(** Bytes stored in a block of the file. *)
Lemma store_wrote s s' x off l :
  itable s !! ip = Some x → fs_file s x → bc_ok (bcache s) (disk s) → 0 ≤ off →
  off mod BSIZE + Z.of_nat (length l) ≤ BSIZE → off / BSIZE < MAXFILE →
  let a := baddr s x (off / BSIZE) in a ≠ 0 → moves s s' → logged (log s') = note a (logged (log s)) →
  (∀ y, fview s' y = if decide (y = a) then put_bytes l (Z.to_nat (off mod BSIZE)) (fview s a) else fview s y) →
  wrote ip s x off (u8 <$> l) s' x.
Proof using.
  intros Hx F Ho Hoff Hl Hn a Ha M L V. pose proof (Z.div_pos off BSIZE Hoff ltac:(done)) as Hb.
  destruct (baddr_data s x (off / BSIZE) F ltac:(lia) Ha) as (D1 & D2 & D3). fold a in D1, D2, D3.
  assert (a = slot s x (off / BSIZE)) as Ea by (by rewrite slot_block by lia).
  assert (∀ m, 0 ≤ m ≤ MAXFILE → m ≠ off / BSIZE → slot s x m ≠ a) as Hne.
  { intros m Hm Hne E. apply Hne. apply F; [done|lia|by rewrite <- Ea|by rewrite E]. }
  assert (∀ m, 0 ≤ m ≤ MAXFILE → slot s' x m = slot s x m) as Hs.
  { intros m Hm. apply slot_frame. intros Hi. rewrite V, decide_False; [done|].
    rewrite <- (slot_ind s). apply Hne; [done|lia]. }
  pose proof (moves_sb _ _ M) as Hsb.
  assert (∀ c, 0 ≤ c < sb_size (sb s) → used s' c = used s c) as Hu.
  { intros c Hc. unfold used. rewrite Hsb, V, decide_False; [done|]. by apply D3. }
  assert (keeps ip s x s' x) as K.
  { split; [by apply moves_imoves| | | | | |].
    - by rewrite (moves_itable _ _ M), list_insert_id.
    - by eapply fs_file_same.
    - by rewrite upd_addrs_self.
    - intros m Hm Hz. rewrite <- !slot_block by done. apply Hs. lia.
    - intros y Hy. split; [by eapply foreign_same|]. rewrite V, decide_False; [done|]. intros ->.
      destruct Hy as (_ & _ & _ & Hy). apply (Hy (off / BSIZE)); [lia|done].
    - rewrite L. apply note_subset. }
  assert (∀ k, 0 ≤ k < MAXFILE * BSIZE → baddr s' x (k / BSIZE) = baddr s x (k / BSIZE)) as Hbs.
  { intros k Hk. pose proof (block_range k Hk). rewrite <- !slot_block by done. apply Hs. lia. }
  assert (length (fview s a) = Z.to_nat BSIZE) as Hlen by apply (cview_length _ _ _ Ho).
  pose proof (Z.mod_pos_bound off BSIZE ltac:(done)) as Hmod. pose proof (Z.div_mod off BSIZE ltac:(done)) as Hdm.
  split; [done|..]; rewrite length_fmap; intros k Hk.
  - assert (k / BSIZE = off / BSIZE ∧ k mod BSIZE = off mod BSIZE + (k - off)) as [E1 E2].
    { split; [symmetry; apply (Z.div_unique _ _ _ (off mod BSIZE + (k - off)))|symmetry; apply (Z.mod_unique _ _ (off / BSIZE))]; lia. }
    assert (0 ≤ k < MAXFILE * BSIZE) as Hk'.
    { split; [lia|]. pose proof (Z.mul_le_mono_nonneg_r (off / BSIZE + 1) MAXFILE BSIZE ltac:(done) ltac:(lia)). lia. }
    unfold fbyte. rewrite (Hbs k Hk'), E1, E2. fold a. split; [done|].
    rewrite V, decide_True, nth_put_bytes, decide_True by (done || lia). f_equal. lia.
  - intros Hout Hz. pose proof (Hbs k Hk) as Hbk. pose proof (block_range k Hk) as Hkr. unfold fbyte. rewrite Hbk, V.
    case_decide as Hd; [|done]. rewrite Hd.
    assert (k / BSIZE = off / BSIZE) as Eq.
    { apply F; rewrite ?slot_block by lia; [lia|lia|done|done]. }
    pose proof (Z.div_mod k BSIZE ltac:(done)). pose proof (Z.mod_pos_bound k BSIZE ltac:(done)).
    rewrite nth_put_bytes, decide_False by lia. done.
Qed.
End piece.

(** ** The loop of [writei] *)

(** The blocks that writing [rem] bytes at [off] may log, the inode and the
    indirect block apart: one for a block that is there already, two for a new
    one and its bit. *)
Definition cdiv (r : Z) : Z := (r + BSIZE - 1) / BSIZE.
Definition budget (off rem : Z) : Z :=
  if rem <=? 0 then 0
  else if off mod BSIZE =? 0 then 2 * cdiv rem
  else 1 + 2 * cdiv (rem - (BSIZE - off mod BSIZE)).

Lemma cdiv_bounds r : - BSIZE < r → 0 ≤ cdiv r ∧ r ≤ BSIZE * cdiv r < r + BSIZE.
Proof.
  intros Hr. unfold cdiv. pose proof (Z.div_mod (r + BSIZE - 1) BSIZE ltac:(done)).
  pose proof (Z.mod_pos_bound (r + BSIZE - 1) BSIZE ltac:(done)). split; [apply Z.div_pos; [lia|done]|lia].
Qed.
Lemma cdiv_next r : cdiv (r - BSIZE) = cdiv r - 1.
Proof. unfold cdiv. replace (r - BSIZE + BSIZE - 1) with (r + BSIZE - 1 + (-1) * BSIZE) by lia. rewrite Z.div_add by done. lia. Qed.

(** What one piece takes of the budget. *)
Lemma budget_piece tot off n (new : bool) :
  0 ≤ tot < n → 0 ≤ off → (new = true → off mod BSIZE = 0) →
  let m := piece tot n off in
  budget (off + m) (n - (tot + m)) + (if new then 2 else 1) ≤ budget off (n - tot) ∧
  (tot + m < n → (off + m) mod BSIZE = 0) ∧ 0 ≤ budget (off + m) (n - (tot + m)).
Proof.
  intros Ht Hoff Hnew m. pose proof (Z.mod_pos_bound off BSIZE ltac:(done)) as Hmod.
  pose proof (Z.div_mod off BSIZE ltac:(done)) as Hdm.
  assert (tot + m < n → (off + m) mod BSIZE = 0) as Hal.
  { intros Hlt. assert (m = BSIZE - off mod BSIZE) as -> by (unfold m, piece in *; lia).
    replace (off + _) with ((off / BSIZE + 1) * BSIZE) by lia. by apply Z.mod_mul. }
  assert (0 < m ≤ n - tot) as Hm by (unfold m, piece; lia).
  unfold budget. rewrite (proj2 (Z.leb_gt (n - tot) 0)) by lia.
  destruct (n - (tot + m) <=? 0) eqn:E1; zbool.
  - pose proof (cdiv_bounds (n - tot) ltac:(lia)). pose proof (cdiv_bounds (n - tot - (BSIZE - off mod BSIZE)) ltac:(lia)).
    split_and!; [|done|done]. destruct (off mod BSIZE =? 0) eqn:E2; zbool; destruct new; try lia.
    all: try (assert (BSIZE * 0 < BSIZE * cdiv (n - tot)) as Hp by lia; apply Z.mul_lt_mono_pos_l in Hp; [lia|done]).
  - rewrite (Hal ltac:(lia)). change (0 =? 0) with true. cbn iota. split_and!; [|done|].
    2:{ pose proof (cdiv_bounds (n - (tot + m)) ltac:(lia)). lia. }
    assert (m = BSIZE - off mod BSIZE) as Em by (unfold m, piece in *; lia). rewrite Em.
    destruct (off mod BSIZE =? 0) eqn:E2; zbool.
    + rewrite E2. replace (n - (tot + (BSIZE - 0))) with (n - tot - BSIZE) by lia. rewrite cdiv_next. destruct new; lia.
    + destruct new; [by specialize (Hnew eq_refl)|].
      replace (n - (tot + (BSIZE - off mod BSIZE))) with (n - tot - (BSIZE - off mod BSIZE)) by lia. lia.
Qed.

Section loop.
Context (me : proc) (ip : nat).
Implicit Types (s : kstate) (x : inode).

(** [bread], the copy, [log_write] and [brelse] of one piece. *)
Lemma store_ok s x off l :
  txn me [] s → itable s !! ip = Some x → fs_file s x → 1 ≤ lg_outstanding (log s) → 0 ≤ off →
  off mod BSIZE + Z.of_nat (length l) ≤ BSIZE → off / BSIZE < MAXFILE → (logs s < NBUF)%nat →
  let a := baddr s x (off / BSIZE) in a ≠ 0 →
  ∃ i s1 s2 s3 s', bread ROOTDEV a s = Ok i s1 ∧ txn me [(i, a)] s1 ∧
    setdata i (λ d, put_bytes l (Z.to_nat (off mod BSIZE)) d) s1 = Ok () s2 ∧ log_write i s2 = Ok () s3 ∧
    brelse i s3 = Ok () s' ∧ txn me [] s' ∧ wrote ip s x off (u8 <$> l) s' x ∧
    itable s1 = itable s ∧ logged (log s') = note a (logged (log s)).
Proof using.
  intros T Hx F Hout Hoff Hl Hn Hroom a Ha.
  destruct (bread_txn me [] s a T (not_elem_of_nil _) Hroom) as (i & s1 & E1 & M1 & L1 & T1 & V1).
  destruct (update_txn me _ s1 i a (λ d, put_bytes l (Z.to_nat (off mod BSIZE)) d) T1)
    as (s2 & s3 & E2 & E3 & M3 & T3 & L3 & V3); [left| |by rewrite L1|intros; by rewrite length_put_bytes|].
  { pose proof (logged_length _ (tn_log _ _ _ T)). rewrite L1. unfold logs in Hroom. change LOGBLOCKS with (Z.of_nat NBUF). lia. }
  destruct (brelse_txn me [] s3 i a T3) as (s' & E4 & M4 & L4 & T4 & V4).
  exists i, s1, s2, s3, s'. split_and!; try done; [|by rewrite (moves_itable _ _ M1)|by rewrite L4, L3, L1].
  eapply store_wrote; try done; [apply T|by rewrite M1, M3|by rewrite L4, L3, L1|].
  intros y. rewrite V4, V3. fold a. case_decide; by rewrite V1.
Qed.

Lemma writei_loop_ok fuel s x tot off n bytes :
  txn me [] s → itable s !! ip = Some x → fs_file s x → 1 ≤ lg_outstanding (log s) → LPr ∉ locks s →
  0 ≤ tot ≤ n → 0 ≤ off → off + (n - tot) ≤ MAXFILE * BSIZE → Z.of_nat (length bytes) = n - tot →
  (off mod BSIZE ≠ 0 → tot < n → baddr s x (off / BSIZE) ≠ 0) →
  Z.of_nat (logs s + ind_cost s x) + budget off (n - tot) + 1 ≤ Z.of_nat NBUF →
  (1 ≤ fuel)%nat → (tot < n → off mod BSIZE + (n - tot) ≤ BSIZE * (Z.of_nat fuel - 1)) →
  ∃ t s' x', writei_loop fuel ip (SLocal bytes) tot off n s = Ok (t, off + (t - tot)) s' ∧
    tot ≤ t ≤ n ∧ (t < n → disk_full s') ∧ txn me [] s' ∧
    wrote ip s x off (u8 <$> take (Z.to_nat (t - tot)) bytes) s' x' ∧
    Z.of_nat (logs s' + ind_cost s' x') ≤ Z.of_nat (logs s + ind_cost s x) + budget off (n - tot).
Proof using.
  revert s x tot off bytes. induction fuel as [|fuel IH]; intros s x tot off bytes T Hx F Hout HL Ht Hoff Hmax Hlen Hmap Hroom Hf1 Hfuel; [lia|].
  cbn [writei_loop]. destruct (tot <? n) eqn:E; zbool; cbn [negb].
  2:{ assert (tot = n) as -> by lia. exists n, s, x. rewrite Z.sub_diag, Z.add_0_r. split; [done|]. split; [lia|].
      split; [lia|]. split; [done|]. split; [apply wrote_nothing; [by apply keeps_same|by intros ???]|]. cbn. lia. }
  specialize (Hfuel E). specialize (Hmap). pose proof (Z.mod_pos_bound off BSIZE ltac:(done)) as Hmod.
  assert (0 ≤ off / BSIZE < MAXFILE) as Hblk by (apply block_range; lia).
  set (new := bool_decide (baddr s x (off / BSIZE) = 0)).
  set (m := piece tot n off). assert (0 < m ≤ n - tot ∧ m ≤ BSIZE - off mod BSIZE) as Hm by (unfold m, piece; lia).
  destruct (budget_piece tot off n new ltac:(lia) Hoff) as (B1 & B2 & B3).
  { unfold new. intros Hn%bool_decide_eq_true. destruct (decide (off mod BSIZE = 0)) as [|Hne]; [done|]. by destruct (Hmap Hne E). }
  fold m in B1, B2, B3.
  assert (maybe s x (off / BSIZE) = if new then 2 else 0)%nat as Hmb by (unfold maybe, new; case_bool_decide; [by rewrite decide_True|by rewrite decide_False]).
  destruct (bmap_ok me ip s x (off / BSIZE)) as (a & s1 & x1 & E1 & T1 & K1 & D1 & Hc1 & R); try done.
  { rewrite Hmb. destruct new; lia. }
  rewrite (bind_ok _ _ _ _ _ E1). destruct (decide (a = 0)) as [->|Ha].
  { exists tot, s1, x1. rewrite Z.sub_diag, Z.add_0_r. split; [done|]. split; [lia|]. split; [done|]. split; [done|].
    split; [by apply wrote_nothing|]. rewrite Hmb in Hc1. destruct new; lia. }
  destruct R as [<- Hlog]. rewrite (proj2 (Z.eqb_neq _ _)) by done.
  pose proof (keeps_itable _ _ _ _ _ Hx K1) as Hx1. pose proof (kp_file _ _ _ _ _ K1) as F1.
  rewrite (bind_ok _ _ _ _ _ (geti_ok s1 ip x1 Hx1)), (ff_dev _ _ F1).
  pose proof (imoves_outstanding _ _ (kp_env _ _ _ _ _ K1)) as O1.
  destruct (store_ok s1 x1 off (take (Z.to_nat m) bytes)) as (i & s2 & s3 & s4 & s5 & E2 & T2 & E3 & E4 & E5 & T5 & W5 & _ & L5); try done.
  { lia. } { rewrite length_take. lia. } { apply Hblk. } { rewrite Hmb in Hc1. destruct new; lia. }
  rewrite (bind_ok _ _ _ _ _ E2), (bind_ok _ _ _ _ _ (copyin_local me _ s2 bytes m T2)). cbn [fst snd].
  rewrite (bind_ok _ _ _ _ _ E3). change (0 =? -1) with false. cbn iota.
  rewrite (bind_ok _ _ _ _ _ E4), (bind_ok _ _ _ _ _ E5). cbn [source_add].
  assert (MAXFILE * BSIZE < 2 ^ 32) as Hmax' by done. rewrite u32_small by lia.
  pose proof (wr_keeps _ _ _ _ _ _ _ W5) as K5. pose proof (ind_cost_mono s1 s5 x1 (kp_logged _ _ _ _ _ K5)) as Hcm.
  assert (Z.of_nat (logs s5 + ind_cost s5 x1) ≤ Z.of_nat (logs s + ind_cost s x) + if new then 2 else 1) as Hc5.
  { rewrite Hmb in Hc1. destruct new eqn:En.
    - unfold new in En. apply bool_decide_eq_true in En. specialize (Hlog En). unfold logs at 1. rewrite L5. unfold note.
      rewrite decide_True by done. fold (logs s1). lia.
    - pose proof (length_note (baddr s1 x1 (off / BSIZE)) (logged (log s1))). unfold logs at 1. rewrite L5. fold (logs s1) in *. lia. }
  destruct (IH s5 x1 (tot + m) (off + m) (drop (Z.to_nat m) bytes)) as (t & s' & x' & E6 & Ht6 & Hf6 & T6 & W6 & Hc6).
  - done.
  - by eapply keeps_itable.
  - apply K5.
  - by rewrite (imoves_outstanding _ _ (kp_env _ _ _ _ _ K5)), O1.
  - by rewrite (imoves_locks _ _ (kp_env _ _ _ _ _ K5)), (imoves_locks _ _ (kp_env _ _ _ _ _ K1)).
  - lia.
  - lia.
  - lia.
  - rewrite length_drop. lia.
  - intros Hne Hlt. by destruct (Hne (B2 Hlt)).
  - lia.
  - destruct fuel; lia.
  - intros Hlt. rewrite (B2 Hlt). assert (m = BSIZE - off mod BSIZE) as Em by (unfold m, piece in *; lia). lia.
  - exists t, s', x'. split; [rewrite E6; do 2 f_equal; lia|]. split; [lia|]. split; [done|]. split; [done|]. split; [|lia].
    assert (take (Z.to_nat (t - tot)) bytes = take (Z.to_nat m) bytes ++ take (Z.to_nat (t - (tot + m))) (drop (Z.to_nat m) bytes)) as ->.
    { replace (Z.to_nat (t - tot)) with (Z.to_nat m + Z.to_nat (t - (tot + m)))%nat by lia. symmetry. apply take_take_drop. }
    assert (Z.of_nat (length (u8 <$> take (Z.to_nat m) bytes)) = m) as Hlm by (rewrite length_fmap, length_take; lia).
    assert (wrote ip s x off ([] ++ (u8 <$> take (Z.to_nat m) bytes)) s5 x1) as W.
    { apply (wrote_app ip s x off [] s1 x1); [done| |by apply wrote_nothing|cbn [length]; by rewrite Z.add_0_r].
      change (length [] + ?k)%nat with k. rewrite Hlm. lia. }
    rewrite fmap_app. apply (wrote_app ip s x off _ s5 x1); [done| |exact W|by rewrite Hlm].
    rewrite Nat2Z.inj_add, Hlm, length_fmap, length_take. lia.
Qed.
End loop.

(** ** writei *)

Record written (ip : nat) (s : kstate) (x : inode) (off : Z) (data : list Z) (s' : kstate) (x' : inode) : Prop := {
  wn_env : imoves s s';
  wn_itable : itable s' = <[ip := x']> (itable s);
  wn_file : fs_file s' x';
  wn_fields : x' = x <| upd_i_addrs := i_addrs x' |> <| upd_i_size := Z.max (i_size x) (off + Z.of_nat (length data)) |>;
  wn_bytes k : 0 ≤ k < i_size x' →
    fbyte s' x' k = if decide (off ≤ k < off + Z.of_nat (length data)) then nth (Z.to_nat (k - off)) data 0
                    else fbyte s x k;
  wn_disk : fview s' (iblock s x) = di_put (fview s (iblock s x)) x';
  wn_foreign y : foreign s x y → y ≠ iblock s x → fview s' y = fview s y;
}.

Section writei.
Context (me : proc) (ip : nat).
Implicit Types (s : kstate) (x : inode).

Lemma length_di_put d x : length (di_put d x) = length d.
Proof using. unfold di_put. cbn zeta. by rewrite length_put_addrs, !length_stl. Qed.

Lemma iupdate_ok s x :
  txn me [] s → itable s !! ip = Some x → i_dev x = ROOTDEV → 1 ≤ lg_outstanding (log s) → (logs s < NBUF)%nat →
  ∃ s', iupdate ip s = Ok () s' ∧ moves s s' ∧ txn me [] s' ∧
    logged (log s') = note (iblock s x) (logged (log s)) ∧
    ∀ y, fview s' y = if decide (y = iblock s x) then di_put (fview s y) x else fview s y.
Proof using.
  intros T Hx Hd Hout Hroom.
  destruct (modify_txn me [] s (iblock s x) (λ d, di_put d x) T Hout (not_elem_of_nil _) Hroom)
    as (i & s1 & b & s2 & s3 & s' & E1 & _ & _ & (E2 & E3 & E4) & M & T' & L & V);
    [intros; by rewrite length_di_put|].
  assert (itable s1 = itable s) as Hi1.
  { destruct (bread_txn me [] s (iblock s x) T (not_elem_of_nil _) Hroom) as (i' & s1' & E1' & M1 & _).
    rewrite E1 in E1'. injection E1' as -> ->. by rewrite (moves_itable _ _ M1). }
  exists s'. unfold iupdate. rewrite (bind_ok _ _ _ _ _ (geti_ok s ip x Hx)), bind_gets, Hd. fold (iblock s x).
  rewrite (bind_ok _ _ _ _ _ E1), (bind_ok _ _ _ _ _ (geti_ok s1 ip x ltac:(by rewrite Hi1))).
  rewrite (bind_ok _ _ _ _ _ E2), (bind_ok _ _ _ _ _ E3). split_and!; try done.
  intros y. rewrite V. by case_decide; subst.
Qed.

(** The size grows over blocks that have an address. *)
Lemma fs_file_size s x z :
  fs_file s x → i_size x ≤ z ≤ MAXFILE * BSIZE →
  (∀ k, i_size x ≤ k < z → baddr s x (k / BSIZE) ≠ 0) → fs_file s (x <| upd_i_size := z |>).
Proof using.
  intros F Hz Hm. destruct (ff_size _ _ F) as [Hs1 Hs2]. assert (MAXFILE * BSIZE < 2 ^ 32) by done.
  split; try apply F.
  - destruct (ff_wf _ _ F). split; try done. cbn. lia.
  - cbn. lia.
  - cbn [i_size]. intros n Hn Hlt. change (baddr s (x <| upd_i_size := z |>) n) with (baddr s x n).
    change (i_size (x <| upd_i_size := z |>)) with z in Hlt.
    destruct (decide (n * BSIZE < i_size x)) as [Hlt'|Hge]; [by apply F|].
    rewrite <- (Z.div_mul n BSIZE) by done. apply Hm. lia.
Qed.

(** The inode stored on the disk: neither an address nor a byte of the file
    changes. *)
Lemma iupdate_keeps s x s' :
  itable s !! ip = Some x → fs_file s x → moves s s' → logged (log s) ⊆ logged (log s') →
  (∀ y, fview s' y = if decide (y = iblock s x) then di_put (fview s y) x else fview s y) →
  fs_file s' x ∧ (∀ n, baddr s' x n = baddr s x n) ∧ ∀ k, 0 ≤ k < i_size x → fbyte s' x k = fbyte s x k.
Proof using.
  intros Hx F M L V. destruct (ff_inode _ _ F) as (I1 & I2 & I3).
  assert (ind x ≠ 0 → fview s' (ind x) = fview s (ind x)) as Hi.
  { intros Hi. rewrite V, decide_False; [done|]. rewrite <- (slot_ind s). apply F; [done|by rewrite slot_ind]. }
  split_and!.
  - eapply fs_file_same; [done|by apply moves_sb| |intros; by apply slot_frame].
    intros c Hc. unfold used. rewrite (moves_sb _ _ M), V, decide_False; [done|]. by apply I3.
  - intros n. by apply baddr_frame.
  - intros k Hk. unfold fbyte. rewrite (baddr_frame _ _ _ _ Hi). pose proof (ff_size _ _ F).
    pose proof (Z.div_mod k BSIZE ltac:(done)). pose proof (Z.mod_pos_bound k BSIZE ltac:(done)).
    assert (0 ≤ k / BSIZE < MAXFILE) as Hb by (apply block_range; lia).
    rewrite V, decide_False; [done|]. rewrite <- slot_block by done. apply F; [lia|]. rewrite slot_block by done. apply F; lia.
Qed.

Lemma fields_size x x1 z :
  x1 = x <| upd_i_addrs := i_addrs x1 |> →
  x1 <| upd_i_size := z |> = x <| upd_i_addrs := i_addrs (x1 <| upd_i_size := z |>) |> <| upd_i_size := z |> ∧
  i_size x1 = i_size x ∧ i_inum x1 = i_inum x.
Proof using. intros ->. by destruct x. Qed.

(** The end of [writei]: the size and the inode on the disk. *)
Lemma writei_end s x off data s1 x1 :
  itable s !! ip = Some x → fs_file s x → txn me [] s1 → 1 ≤ lg_outstanding (log s1) → (logs s1 < NBUF)%nat →
  0 ≤ off ≤ i_size x → off + Z.of_nat (length data) ≤ MAXFILE * BSIZE → wrote ip s x off data s1 x1 →
  ∃ s' x', (x ← geti ip;
            whenM (i_size x <? off + Z.of_nat (length data)) (updi ip (λ x, x <| upd_i_size := off + Z.of_nat (length data) |>));;
            iupdate ip) s1 = Ok () s' ∧ txn me [] s' ∧ written ip s x off data s' x' ∧ (logs s' ≤ logs s1 + 1)%nat ∧
    (disk_full s1 → disk_full s').
Proof using.
  intros Hx F T1 Hout Hroom Hoff Hmax [K N O]. pose proof (keeps_itable _ _ _ _ _ Hx K) as Hx1.
  set (e := off + Z.of_nat (length data)) in *. set (z := Z.max (i_size x) e). set (x2 := x1 <| upd_i_size := z |>).
  destruct (fields_size x x1 z (kp_fields _ _ _ _ _ K)) as (Hf & Hsz & Hin).
  pose proof (ff_size _ _ F) as Hsize.
  assert (fs_file s1 x2) as F2.
  { apply fs_file_size; [apply K|unfold z; lia|]. intros k Hk. apply N. unfold z in Hk. lia. }
  set (s2 := s1 <| upd_itable := <[ip := x2]> (itable s1) |>).
  assert (whenM (i_size x1 <? e) (updi ip (λ x, x <| upd_i_size := e |>)) s1 = Ok () s2) as Eu.
  { rewrite Hsz. unfold s2, x2, z. destruct (i_size x <? e) eqn:Ee; zbool; cbn [whenM].
    - rewrite (updi_ok s1 ip x1 _ Hx1). by rewrite Z.max_r by lia.
    - rewrite Z.max_l by lia. rewrite <- Hsz.
      replace (x1 <| upd_i_size := i_size x1 |>) with x1 by (by destruct x1). by rewrite list_insert_id, itable_self. }
  assert (itable s2 !! ip = Some x2) as Hx2 by (apply list_lookup_insert_eq; by eapply lookup_lt_Some).
  assert (fs_file s2 x2) as F2' by (by apply (fs_file_same s1)).
  destruct (iupdate_ok s2 x2) as (s' & E & M & T' & L & V); [by apply txn_set_itable|done|apply F2|done|done|].
  assert (iblock s2 x2 = iblock s x) as Hib.
  { unfold iblock. change (sb s2) with (sb s1). rewrite (imoves_sb _ _ (kp_env _ _ _ _ _ K)).
    by change (i_inum x2) with (i_inum x1); rewrite Hin. }
  rewrite Hib in L, V. pose proof (note_subset (iblock s x) (logged (log s2))) as Hsub. rewrite <- L in Hsub.
  destruct (iupdate_keeps s2 x2 s') as (F' & HB & HC); [done..|by rewrite Hib|].
  destruct (kp_foreign _ _ _ _ _ K _ (iblock_foreign s x F)) as [_ Vi].
  exists s', x2. split; [|split; [done|split; [|split]]].
  - rewrite (bind_ok _ _ _ _ _ (geti_ok s1 ip x1 Hx1)), (bind_ok _ _ _ _ _ Eu). done.
  - split.
    + etrans; [apply K|]. etrans; [|by apply moves_imoves]. apply imoves_set.
    + rewrite (moves_itable _ _ M). change (itable s2) with (<[ip := x2]> (itable s1)).
      rewrite (kp_itable _ _ _ _ _ K). apply list_insert_insert_eq.
    + done.
    + exact Hf.
    + intros k Hk. rewrite (HC k Hk). change (fbyte s2 x2 k) with (fbyte s1 x1 k). fold e.
      change (i_size x2) with z in Hk. case_decide as Hd; [by apply N|].
      assert (k < i_size x) by (unfold z in Hk; lia). apply O; [lia|done|].
      pose proof (Z.div_mod k BSIZE ltac:(done)). pose proof (Z.mod_pos_bound k BSIZE ltac:(done)).
      apply F; [apply Z.div_pos; [lia|done]|lia].
    + rewrite V, decide_True by done. change (fview s2 (iblock s x)) with (fview s1 (iblock s x)). by rewrite Vi.
    + intros y Hy Hne. rewrite V, decide_False by done. apply K, Hy.
  - unfold logs. rewrite L. pose proof (length_note (iblock s x) (logged (log s2))). change (log s2) with (log s1) in *. lia.
  - intros Hd c. rewrite (moves_sb _ _ M). change (sb s2) with (sb s1). intros Hc. unfold used.
    rewrite (moves_sb _ _ M), V, decide_False; [by apply Hd|]. rewrite <- Hib. by apply (ff_inode _ _ F2').
Qed.

Lemma writei_ok s x off bytes :
  let n := Z.of_nat (length bytes) in
  txn me [] s → itable s !! ip = Some x → fs_file s x → 1 ≤ lg_outstanding (log s) → LPr ∉ locks s →
  0 ≤ off < 2 ^ 32 → n < 2 ^ 32 → Z.of_nat (logs s + ind_cost s x) + budget off n + 1 ≤ Z.of_nat NBUF →
  if decide (off ≤ i_size x ∧ off + n ≤ MAXFILE * BSIZE) then
    ∃ t s' x', writei ip (SLocal bytes) off n s = Ok t s' ∧ 0 ≤ t ≤ n ∧ (t < n → disk_full s') ∧ txn me [] s' ∧
      written ip s x off (u8 <$> take (Z.to_nat t) bytes) s' x' ∧
      Z.of_nat (logs s') ≤ Z.of_nat (logs s + ind_cost s x) + budget off n + 1
  else writei ip (SLocal bytes) off n s = Ok (-1) s.
Proof using.
  intros n T Hx F Hout HL Hoff Hn Hroom. pose proof (ff_size _ _ F) as Hsize. assert (MAXFILE * BSIZE < 2 ^ 31) as Hmax by done.
  unfold writei. rewrite (bind_ok _ _ _ _ _ (geti_ok s ip x Hx)). case_decide as Hd.
  2:{ destruct (i_size x <? off) eqn:E1; zbool; [done|]. cbn [orb].
      destruct (decide (off + n < 2 ^ 32)) as [Hlt|Hge].
      - rewrite u32_small by lia. rewrite (proj2 (Z.ltb_ge _ _)), (proj2 (Z.ltb_lt _ _)) by lia. done.
      - rewrite (proj2 (Z.ltb_lt (u32 (off + n)) off)); [done|]. unfold u32.
        replace (off + n) with (off + n - 2 ^ 32 + 1 * 2 ^ 32) by lia. rewrite Z.mod_add, Z.mod_small by lia. lia. }
  rewrite u32_small by lia. rewrite !(proj2 (Z.ltb_ge _ _)) by lia. cbn [orb].
  pose proof (Z.mod_pos_bound off BSIZE ltac:(done)). pose proof (Z.div_mod off BSIZE ltac:(done)).
  pose proof (Z.div_mod n BSIZE ltac:(done)). pose proof (Z.mod_pos_bound n BSIZE ltac:(done)).
  pose proof (Z.div_pos n BSIZE ltac:(lia) ltac:(done)).
  destruct (writei_loop_ok me ip (content_fuel n) s x 0 off n bytes) as (t & s1 & x1 & E & Ht & Hf & T1 & W & Hc); try done; try lia.
  { intros Hne _. apply F; [apply Z.div_pos; [lia|done]|lia]. }
  { by rewrite Z.sub_0_r. }
  { unfold content_fuel. lia. }
  { intros _. unfold content_fuel. rewrite !Nat2Z.inj_succ, Z2Nat.id by done. lia. }
  rewrite Z.sub_0_r in *. rewrite (bind_ok _ _ _ _ _ E). cbn [fst snd].
  assert (Z.of_nat (length (u8 <$> take (Z.to_nat t) bytes)) = t) as Hlt.
  { rewrite length_fmap, length_take. lia. }
  destruct (writei_end s x off (u8 <$> take (Z.to_nat t) bytes) s1 x1 Hx F T1) as (s' & x' & E2 & T2 & W2 & Hl2 & Hf2); [| | | |exact W|].
  - by rewrite (imoves_outstanding _ _ (kp_env _ _ _ _ _ (wr_keeps _ _ _ _ _ _ _ W))).
  - lia.
  - lia.
  - rewrite Hlt. lia.
  - rewrite Hlt in E2. exists t, s', x'. split; [|split_and!; auto; lia].
    pose proof (geti_ok s1 ip x1 (keeps_itable _ _ _ _ _ Hx (wr_keeps _ _ _ _ _ _ _ W))) as Eg.
    rewrite (bind_ok _ _ _ _ _ Eg). rewrite (bind_ok _ _ _ _ _ Eg) in E2.
    rewrite <- bind_assoc by (by destruct (i_size x1 <? off + t)). rewrite (bind_ok _ _ _ _ _ E2).
    unfold mret, M_ret, s32. rewrite Z.mod_small by lia. f_equal. lia.
Qed.
End writei.

Lemma u8_bytes l : Forall (λ c, 0 ≤ c < 256) l → u8 <$> l = l.
Proof.
  induction 1 as [|c l Hc _ IH]; [done|]. cbn. rewrite IH. f_equal. unfold u8. change (2 ^ 8) with 256. by apply Z.mod_small.
Qed.

(** ** A file of ten bytes in block 50 *)

Definition demo_file : inode :=
  inode0 <| upd_i_dev := ROOTDEV |> <| upd_i_inum := 1 |> <| upd_i_ref := 1 |> <| upd_i_valid := true |>
    <| upd_i_type := T_FILE |> <| upd_i_nlink := 1 |> <| upd_i_size := 10 |>
    <| upd_i_addrs := 50 :: replicate NDIRECT 0 |>.
Definition file_demo : kstate := first_op {[45 := demo_bitmap]} demo_sb [demo_file].

Lemma file_demo_env :
  itable file_demo = [demo_file] ∧ locks file_demo = [] ∧ sb file_demo = demo_sb ∧
  lg_outstanding (log file_demo) = 1 ∧ logged (log file_demo) = [].
Proof. unfold file_demo, first_op. rewrite itable_setf, locks_setf, log_setf. split_and!; done. Qed.
Lemma demo_bblock c : 0 ≤ c < 100 → BBLOCK c demo_sb = 45.
Proof. intros Hc. unfold BBLOCK. change BPB with 8192. by rewrite Z.div_small by lia. Qed.
Lemma demo_slot n : 0 ≤ n ≤ MAXFILE → slot file_demo demo_file n = if decide (n = 0) then 50 else 0.
Proof.
  intros Hn. change MAXFILE with 268 in Hn. unfold slot. change MAXFILE with 268.
  destruct (n =? 268) eqn:E; zbool; [rewrite decide_False by lia; done|]. unfold baddr.
  destruct (n <? Z.of_nat NDIRECT) eqn:E'; zbool; [|rewrite decide_False by (unfold NDIRECT in *; lia); done].
  case_decide as Hd; [by subst|]. change (i_addrs demo_file) with (50 :: replicate NDIRECT 0).
  replace (Z.to_nat n) with (S (Z.to_nat (n - 1))) by lia. cbn [nth]. rewrite nth_lookup_Z.
  by rewrite lookup_replicate_2 by (unfold NDIRECT in *; lia).
Qed.
Lemma file_demo_ok : fs_file file_demo demo_file.
Proof.
  destruct file_demo_env as (_ & _ & Hsb & _).
  assert (∀ a, 0 < a < 60 → bit_set demo_bitmap a = true) as Hbit.
  { intros a Ha. assert (forallb (bit_set demo_bitmap) (seqZ 0 60) = true) as Hall by (vm_compute; reflexivity).
    rewrite forallb_forall in Hall. apply Hall, list_elem_of_In, elem_of_seqZ. lia. }
  assert (∀ a, 0 < a < 60 → a ≠ 45 → data_block file_demo a) as Hd.
  { intros a Ha Hne. unfold data_block. rewrite Hsb. change (sb_size demo_sb) with 100. split_and!; [lia..| |].
    - unfold file_demo. rewrite demo_used_at by lia. by apply Hbit.
    - intros c Hc. rewrite demo_bblock by done. lia. }
  assert (iblock file_demo demo_file = 33) as Hib by (unfold iblock; by rewrite Hsb).
  split.
  - split; rewrite Hsb; [done|]. change (sb_size demo_sb) with 100. intros c Hc. rewrite demo_bblock by done.
    unfold file_demo. rewrite demo_used_at by lia. by apply Hbit.
  - rewrite Hsb. change (sb_size demo_sb) with 100. intros c Hc. rewrite demo_bblock by done. lia.
  - unfold file_demo. by rewrite demo_used_at by lia.
  - rewrite Hib. apply Hd; lia.
  - split; [by vm_compute..|]. intros a Ha. change (i_addrs demo_file) with (50 :: replicate NDIRECT 0) in Ha.
    apply elem_of_cons in Ha as [->|[-> _]%elem_of_replicate]; lia.
  - done.
  - change (i_size demo_file) with 10. change (MAXFILE * BSIZE) with 274432. lia.
  - change (i_size demo_file) with 10. change BSIZE with 1024. intros n Hn Hlt. assert (n = 0) as -> by lia.
    rewrite <- slot_block by done. by rewrite demo_slot by done.
  - intros n Hn. rewrite demo_slot, Hib by done. case_decide; [|done]. intros _. split; [apply Hd; lia|lia].
  - intros m n Hm Hn. rewrite !demo_slot by done. repeat case_decide; subst; done.
Qed.



(** What [writei] wrote, [readi] reads back: reading the same range after
    a write returns the bytes written. *)
Theorem writei_readi_roundtrip me ip s x off bytes :
  let n := Z.of_nat (length bytes) in
  txn me [] s → itable s !! ip = Some x → fs_file s x → 1 ≤ lg_outstanding (log s) → LPr ∉ locks s →
  Forall (λ c, 0 ≤ c < 256) bytes → 0 ≤ off ≤ i_size x → off + n ≤ MAXFILE * BSIZE →
  Z.of_nat (logs s + ind_cost s x) + budget off n + 2 ≤ Z.of_nat NBUF →
  ∃ t s', writei ip (SLocal bytes) off n s = Ok t s' ∧ 0 ≤ t ≤ n ∧ (t < n → disk_full s') ∧
    ∃ s'', readi ip DLocal off t s' = Ok (t, take (Z.to_nat t) bytes) s''.
Proof.
  intros n T Hx F Hout HL Hb Hoff Hn Hroom. subst n. pose proof (ff_size _ _ F) as Hsize. assert (MAXFILE * BSIZE < 2 ^ 31) as Hmax by done.
  pose proof (writei_ok me ip s x off bytes T Hx F Hout HL ltac:(lia) ltac:(lia) ltac:(lia)) as W.
  rewrite decide_True in W by lia. destruct W as (t & s' & x' & E & Ht & Hf & T' & W & Hl). exists t, s'.
  split; [done|]. split; [done|]. split; [done|]. rewrite u8_bytes in W by (by apply Forall_take).
  assert (length (take (Z.to_nat t) bytes) = Z.to_nat t) as Hlt by (rewrite length_take; lia).
  assert (i_size x' = Z.max (i_size x) (off + t)) as Hs'.
  { rewrite (wn_fields _ _ _ _ _ _ _ W). cbn [i_size upd_i_size]. rewrite Hlt. lia. }
  destruct (readi_slice me s' ip x' off t) as (s'' & R & _).
  - done.
  - rewrite (wn_itable _ _ _ _ _ _ _ W). apply list_lookup_insert_eq. by eapply lookup_lt_Some.
  - apply file_ok_of, W.
  - change (logs s' < NBUF)%nat. lia.
  - lia.
  - lia.
  - exists s''. rewrite R. rewrite (proj2 (Z.ltb_ge (i_size x') off)), (proj2 (Z.leb_gt (2 ^ 32) (off + t))) by lia. cbn [orb].
    rewrite Hs', Z.min_l by lia. do 2 f_equal. apply list_eq. intros i. unfold fslice. rewrite list_lookup_fmap.
    destruct (decide (Z.of_nat i < t)) as [Hi|Hi].
    + rewrite lookup_seqZ_lt by lia. cbn [fmap option_fmap option_map].
      rewrite (wn_bytes _ _ _ _ _ _ _ W), decide_True by lia. rewrite nth_lookup_Z.
      destruct (lookup_lt_is_Some_2 (take (Z.to_nat t) bytes) i) as [v Hv]; [lia|].
      replace (Z.to_nat (off + Z.of_nat i - off)) with i by lia. by rewrite Hv.
    + rewrite lookup_seqZ_ge, lookup_ge_None_2 by lia. done.
Qed.

Lemma writei_readi_roundtrip_witness :
  ∃ t s', writei 0 (SLocal [104; 105; 33]) 10 3 file_demo = Ok t s' ∧ 0 ≤ t ≤ 3 ∧
    ∃ s'', readi 0 DLocal 10 t s' = Ok (t, take (Z.to_nat t) [104; 105; 33]) s''.
Proof.
  destruct file_demo_env as (E1 & E2 & _ & E3 & E4).
  destruct (writei_readi_roundtrip proc0 0 file_demo demo_file 10 [104; 105; 33]) as (t & s' & E & Ht & _ & R).
  - apply first_op_txn, demo_disk_ok.
  - by rewrite E1.
  - apply file_demo_ok.
  - by rewrite E3.
  - rewrite E2. apply not_elem_of_nil.
  - repeat constructor; lia.
  - change (i_size demo_file) with 10. lia.
  - change (MAXFILE * BSIZE) with 274432. cbn. lia.
  - unfold logs, ind_cost. rewrite E4. vm_compute. discriminate.
  - exists t, s'. split; [exact E|]. split; [exact Ht|exact R].
Defined.

(** A write of at most MAXWRITE bytes. *)
Lemma budget_max off n : 0 ≤ off → 0 ≤ n ≤ MAXWRITE → budget off n ≤ 7.
Proof.
  intros Hoff Hn. change MAXWRITE with (3 * BSIZE) in Hn. pose proof (Z.mod_pos_bound off BSIZE ltac:(done)).
  unfold budget. destruct (n <=? 0) eqn:E; zbool; [lia|].
  assert (∀ r, - BSIZE < r ≤ 3 * BSIZE → cdiv r ≤ 3) as Hc.
  { intros r Hr. pose proof (cdiv_bounds r ltac:(lia)) as (_ & _ & Hb). change BSIZE with 1024 in *. lia. }
  destruct (_ =? 0); [pose proof (Hc n ltac:(lia)); lia|].
  pose proof (Hc (n - (BSIZE - off mod BSIZE)) ltac:(lia)). lia.
Qed.


