(* ===== verification/FsTrunc.v ===== *)
(** * kernel/fs.c: freeing the content of an inode

    [itrunc] walks the addresses of an inode in the order of [slot] and gives
    each block back.  [freed s0 fl s] is the state on the way: the blocks [fl]
    are free again and nothing outside the bitmap has changed.  Every block is
    freed once, so [bfree] never panics. *)

From S2P Require Import Prelude Bytes Riscv Kstate CString Kalloc Vm Sched Bio Log LogProps LogCrash LogTxn Printf Console Fs FsPath FsTxn FsAlloc FsFile FsBmap FsWrite.

Definition bitmap_block (s : kstate) (y : Z) : Prop := ∃ c, 0 ≤ c < sb_size (sb s) ∧ BBLOCK c (sb s) = y.

Record freed (s0 : kstate) (fl : list Z) (s : kstate) : Prop := {
  fr_env : imoves s0 s;
  fr_used c : 0 ≤ c < sb_size (sb s0) → used s c = if decide (c ∈ fl) then false else used s0 c;
  fr_view y : ¬ bitmap_block s0 y → fview s y = fview s0 y;
  fr_logged b : b ∈ logged (log s) → b ∈ logged (log s0) ∨ bitmap_block s0 b;
}.

(** The bitmap blocks, and what the log can hold. *)
Definition bitmap_blocks (s : kstate) : list Z :=
  (λ q, BBLOCK (BPB * q) (sb s)) <$> seqZ 0 (sb_size (sb s) / BPB + 1).
Definition nbitmap (s : kstate) : nat := length (bitmap_blocks s).

Lemma bitmap_block_elem s y : 0 ≤ sb_size (sb s) → bitmap_block s y → y ∈ bitmap_blocks s.
Proof.
  intros Hs (c & Hc & <-). unfold bitmap_blocks. apply list_elem_of_fmap. exists (c / BPB).
  pose proof (Z.mod_pos_bound c BPB BPB_pos). pose proof (Z.div_mod c BPB ltac:(done)) as Hdm. split.
  - rewrite Hdm at 1. by apply bitmap_add.
  - apply elem_of_seqZ. pose proof (Z.div_pos c BPB ltac:(lia) BPB_pos).
    pose proof (Z.div_le_mono c (sb_size (sb s)) BPB BPB_pos ltac:(lia)). lia.
Qed.

Lemma freed_logs me H s0 fl s :
  0 ≤ sb_size (sb s0) → txn me H s → freed s0 fl s → (logs s ≤ logs s0 + nbitmap s0)%nat.
Proof.
  intros Hs T Fr. unfold logs, nbitmap. rewrite <- length_app. apply submseteq_length, NoDup_submseteq; [apply T|].
  intros b Hb. apply elem_of_app. destruct (fr_logged _ _ _ Fr b Hb); [by left|right]. by apply bitmap_block_elem.
Qed.

Section trunc.
Context (me : proc) (ip : nat) (s0 : kstate) (x : inode).
Context (F : fs_file s0 x).
Implicit Types (s : kstate).

(** The blocks freed before slot [n]. *)
Definition upto (n : Z) : list Z := filter (λ a, a ≠ 0) (slot s0 x <$> seqZ 0 n).

Lemma upto_elem n c : c ∈ upto n ↔ c ≠ 0 ∧ ∃ m, 0 ≤ m < n ∧ slot s0 x m = c.
Proof using.
  unfold upto. rewrite list_elem_of_filter, list_elem_of_fmap. split; intros [Hz (m & H1 & H2)]; (split; [done|]); exists m.
  - apply elem_of_seqZ in H2. split; [lia|done].
  - rewrite elem_of_seqZ. split; [done|lia].
Qed.
Lemma upto_next n : 0 ≤ n → upto (n + 1) = upto n ++ (if decide (slot s0 x n = 0) then [] else [slot s0 x n]).
Proof using.
  intros Hn. unfold upto. rewrite seqZ_app, fmap_app, filter_app by lia. f_equal. rewrite Z.add_0_l.
  change (seqZ n 1) with [0 + n]. rewrite Z.add_0_l. change (slot s0 x <$> [n]) with [slot s0 x n].
  rewrite filter_cons, filter_nil. repeat case_decide; done.
Qed.
Lemma upto_fresh n : 0 ≤ n ≤ MAXFILE → slot s0 x n ≠ 0 → slot s0 x n ∉ upto n.
Proof using F.
  intros Hn Hz [_ (m & Hm & E)]%upto_elem. assert (m = n); [|lia]. apply F; [lia|done|done|congruence].
Qed.
Lemma upto_data n c : 0 ≤ n ≤ MAXFILE + 1 → c ∈ upto n → data_block s0 c ∧ c ≠ iblock s0 x.
Proof using F. intros Hn [Hz (m & Hm & <-)]%upto_elem. apply F; [lia|done]. Qed.

(** One [bfree]. *)
Lemma bfree_freed H s n :
  txn me H s → freed s0 (upto n) s → 1 ≤ lg_outstanding (log s0) → 0 ≤ n ≤ MAXFILE → slot s0 x n ≠ 0 →
  (∀ b, b ∈ H.*2 → data_block s0 b) → (length H + logs s0 + nbitmap s0 < NBUF)%nat →
  ∃ s', bfree ROOTDEV (slot s0 x n) s = Ok () s' ∧ txn me H s' ∧ freed s0 (upto (n + 1)) s' ∧ itable s' = itable s.
Proof using F.
  intros T Fr Hout Hn Hz HH Hroom. set (a := slot s0 x n) in *. pose proof (fr_env _ _ _ Fr) as M0.
  pose proof (imoves_sb _ _ M0) as Hsb. pose proof (proj1 (ff_bitmap _ _ F)) as Hsz.
  destruct (ff_data _ _ F n Hn Hz) as [(A1 & A2 & A3) _]. fold a in A1, A2, A3.
  assert (BBLOCK a (sb s) ∉ H.*2) as HnH.
  { rewrite Hsb. intros Hin. destruct (HH _ Hin) as (_ & _ & HB). apply (HB a); [lia|done]. }
  assert (used s a = true) as Hu.
  { rewrite (fr_used _ _ _ Fr), decide_False by (lia || by apply upto_fresh). done. }
  destruct (bfree_txn me H s a T) as (s' & E & M & T' & L & V); try done.
  { by rewrite (imoves_outstanding _ _ M0). }
  { pose proof (freed_logs me H s0 _ s ltac:(lia) T Fr). unfold used_buffers. fold (logs s). lia. }
  exists s'. split; [done|]. split; [done|]. split; [|by rewrite (moves_itable _ _ M)].
  rewrite Hsb in L, V. split.
  - etrans; [done|by apply moves_imoves].
  - intros c Hc. rewrite upto_next by lia. fold a. rewrite (decide_False (P := a = 0)) by done.
    rewrite (used_update s s' a false clear_bit); rewrite ?Hsb; [|by rewrite (moves_sb _ _ M), Hsb|lia|lia| |apply T| | |done].
    + rewrite (fr_used _ _ _ Fr) by done.
      rewrite (decide_ext (c ∈ upto n ++ [a]) (c ∈ upto n ∨ c = a)) by (by rewrite elem_of_app, list_elem_of_singleton).
      repeat case_decide; tauto || done.
    + intros d j Hd Hj. apply bit_set_clear; [done| |done]. apply Z.mod_pos_bound, BPB_pos.
    + by rewrite V, decide_True.
    + intros c' _ Hne. by rewrite V, decide_False.
  - intros y Hy. rewrite V, decide_False; [by apply Fr|]. intros ->. apply Hy. exists a. split; [lia|done].
  - intros b. rewrite L, elem_note. intros [->|Hb]; [right; exists a; split; [lia|done]|by apply Fr].
Qed.

Lemma freed_set_itable fl s I : freed s0 fl s → freed s0 fl (s <| upd_itable := I |>).
Proof using. intros [A B C D]. split; [etrans; [done|apply imoves_set]|done..]. Qed.

Context (Hx : itable s0 !! ip = Some x) (Hout : 1 ≤ lg_outstanding (log s0)).

(** The inode with its first [i] addresses cleared. *)
Definition cut (i : nat) : inode := x <| upd_i_addrs := replicate i 0 ++ drop i (i_addrs x) |>.
Lemma nth_cut i : (i < S NDIRECT)%nat → nth i (i_addrs (cut i)) 0 = nth i (i_addrs x) 0.
Proof using.
  intros Hi. cbn. rewrite app_nth2 by (rewrite length_replicate; lia). rewrite length_replicate, Nat.sub_diag.
  rewrite !nth_lookup_Z, lookup_drop. by rewrite Nat.add_0_r.
Qed.
Lemma cut_next i : (i < S NDIRECT)%nat → (cut i) <| upd_i_addrs ::= <[i := 0]> |> = cut (S i).
Proof using F.
  intros Hi. pose proof (iw_len _ (ff_wf _ _ F)) as Hlen. unfold cut.
  destruct (lookup_lt_is_Some_2 (i_addrs x) i) as [v Hv]; [lia|].
  assert (<[i := 0]> (replicate i 0 ++ drop i (i_addrs x)) = replicate (S i) 0 ++ drop (S i) (i_addrs x)) as E.
  { rewrite (drop_S _ _ _ Hv). rewrite insert_app_r_alt by (rewrite length_replicate; lia).
    rewrite length_replicate, Nat.sub_diag. cbn [insert list_insert]. by rewrite replicate_S_end, <- app_assoc. }
  by rewrite <- E.
Qed.
Lemma cut_zero i : (i < S NDIRECT)%nat → nth i (i_addrs x) 0 = 0 → cut (S i) = cut i.
Proof using F.
  intros Hi Hz. rewrite <- cut_next by done. pose proof (iw_len _ (ff_wf _ _ F)) as Hlen.
  assert (<[i := 0]> (i_addrs (cut i)) = i_addrs (cut i)) as E.
  { apply list_insert_id. rewrite <- Hz, <- nth_cut by done.
    destruct (lookup_lt_is_Some_2 (i_addrs (cut i)) i) as [v Hv].
    - cbn. rewrite length_app, length_replicate, length_drop. lia.
    - rewrite Hv. f_equal. symmetry. by apply nth_lookup_Some. }
  change ((cut i) <| upd_i_addrs ::= <[i := 0]> |>) with (x <| upd_i_addrs := <[i := 0]> (i_addrs (cut i)) |>).
  by rewrite E.
Qed.
Lemma slot_direct i : (i < NDIRECT)%nat → slot s0 x (Z.of_nat i) = nth i (i_addrs x) 0.
Proof using.
  intros Hi. rewrite slot_block by (unfold MAXFILE; change NINDIRECT with 256; lia). unfold baddr.
  by rewrite (proj2 (Z.ltb_lt _ _)), Nat2Z.id by lia.
Qed.

Lemma itrunc_direct_ok n i s :
  (i + n = NDIRECT)%nat → txn me [] s → freed s0 (upto (Z.of_nat i)) s → itable s = <[ip := cut i]> (itable s0) →
  (logs s0 + nbitmap s0 < NBUF)%nat →
  ∃ s', itrunc_direct n i ip s = Ok () s' ∧ txn me [] s' ∧ freed s0 (upto (Z.of_nat NDIRECT)) s' ∧
    itable s' = <[ip := cut NDIRECT]> (itable s0).
Proof using F Hout Hx.
  revert i s. induction n as [|n IH]; intros i s Hi T Fr HI Hroom; cbn [itrunc_direct].
  { replace i with NDIRECT in * by lia. by exists s. }
  assert (itable s !! ip = Some (cut i)) as Hxi.
  { rewrite HI. apply list_lookup_insert_eq. by eapply lookup_lt_Some. }
  rewrite (bind_ok _ _ _ _ _ (geti_ok s ip _ Hxi)), nth_cut by lia. rewrite <- slot_direct by lia.
  change (i_dev (cut i)) with (i_dev x). rewrite (ff_dev _ _ F).
  assert (0 ≤ Z.of_nat i ≤ MAXFILE) as Hir by (unfold MAXFILE; change NINDIRECT with 256; lia).
  replace (Z.of_nat (S i)) with (Z.of_nat i + 1) in IH by lia.
  pose proof (upto_next (Z.of_nat i) ltac:(lia)) as Hup.
  destruct (decide (slot s0 x (Z.of_nat i) = 0)) as [Hz|Hz].
  - rewrite Hz. change (nz 0) with false. cbn [whenM]. rewrite bind_mret.
    apply IH; [lia|done| |rewrite HI, cut_zero; [done|lia|by rewrite <- slot_direct by lia]|done].
    replace (Z.of_nat (S i)) with (Z.of_nat i + 1) by lia. by rewrite Hup, app_nil_r.
  - rewrite (proj2 (nz_true _)) by done. cbn [whenM].
    destruct (bfree_freed [] s (Z.of_nat i)) as (s1 & E & T1 & Fr1 & HI1); try done.
    { intros b Hb. by apply not_elem_of_nil in Hb. }
    assert (itable s1 !! ip = Some (cut i)) as Hx1 by (by rewrite HI1).
    erewrite bind_ok by (rewrite (bind_ok _ _ _ _ _ E); by apply updi_ok).
    apply IH; [lia|by apply txn_set_itable| | |done].
    + replace (Z.of_nat (S i)) with (Z.of_nat i + 1) by lia. by apply freed_set_itable.
    + rewrite cut_next by lia. change (<[ip := cut (S i)]> (itable s1) = <[ip := cut (S i)]> (itable s0)).
      rewrite HI1, HI. apply list_insert_insert_eq.
Qed.

Lemma MAXFILE_slots : MAXFILE = Z.of_nat NDIRECT + Z.of_nat (Z.to_nat NINDIRECT).
Proof using. done. Qed.
Lemma ind_block : ind x ≠ 0 → data_block s0 (ind x).
Proof using F. intros Hi. rewrite <- (slot_ind s0 x). apply F; [done|by rewrite slot_ind]. Qed.
Lemma data_not_bitmap y : data_block s0 y → ¬ bitmap_block s0 y.
Proof using. intros (_ & _ & H) (c & Hc & E). by apply (H c). Qed.

Lemma slot_indirect j :
  ind x ≠ 0 → (j < Z.to_nat NINDIRECT)%nat →
  slot s0 x (Z.of_nat NDIRECT + Z.of_nat j) = ldl 4 (fview s0 (ind x)) (4 * j).
Proof using.
  intros Hi Hj. rewrite slot_block by (rewrite MAXFILE_slots; lia). rewrite baddr_ind by (done || lia). f_equal. lia.
Qed.

Lemma itrunc_indirect_ok n j bp s :
  (j + n = Z.to_nat NINDIRECT)%nat → ind x ≠ 0 → txn me [(bp, ind x)] s →
  freed s0 (upto (Z.of_nat NDIRECT + Z.of_nat j)) s → (1 + logs s0 + nbitmap s0 < NBUF)%nat →
  ∃ s', itrunc_indirect n j bp ROOTDEV s = Ok () s' ∧ txn me [(bp, ind x)] s' ∧ freed s0 (upto MAXFILE) s' ∧
    itable s' = itable s.
Proof using F Hout.
  revert j s. induction n as [|n IH]; intros j s Hj Hi T Fr Hroom; cbn [itrunc_indirect].
  { replace (Z.of_nat NDIRECT + Z.of_nat j) with MAXFILE in Fr by (rewrite MAXFILE_slots; lia). by exists s. }
  destruct (getb_txn me _ s bp (ind x) T) as (y & E & Dy & _); [left|].
  rewrite (bind_ok _ _ _ _ _ E), Dy, (fr_view _ _ _ Fr) by (by apply data_not_bitmap, ind_block).
  rewrite <- slot_indirect by (done || lia). set (m := Z.of_nat NDIRECT + Z.of_nat j) in *.
  assert (0 ≤ m ≤ MAXFILE) as Hm by (unfold m; rewrite MAXFILE_slots; lia). pose proof (upto_next m ltac:(lia)) as Hup.
  assert (Z.of_nat NDIRECT + Z.of_nat (S j) = m + 1) as Hnext by (unfold m; lia).
  destruct (decide (slot s0 x m = 0)) as [Hz|Hz].
  - rewrite Hz. change (nz 0) with false. cbn [whenM]. rewrite bind_mret.
    apply IH; [lia|done|done| |done]. by rewrite Hnext, Hup, app_nil_r.
  - rewrite (proj2 (nz_true _)) by done. cbn [whenM].
    destruct (bfree_freed [(bp, ind x)] s m) as (s1 & E1 & T1 & Fr1 & HI1); try done.
    { intros b ->%list_elem_of_singleton. by apply ind_block. }
    rewrite (bind_ok _ _ _ _ _ E1).
    destruct (IH (S j) s1) as (s' & E2 & T2 & Fr2 & HI2); [lia|done|done|by rewrite Hnext|done|].
    exists s'. split_and!; try done. by rewrite HI2.
Qed.

(** The indirect block and what it points to. *)
Lemma itrunc_ind_ok s :
  txn me [] s → freed s0 (upto (Z.of_nat NDIRECT)) s → itable s = <[ip := cut NDIRECT]> (itable s0) →
  (1 + logs s0 + nbitmap s0 < NBUF)%nat →
  ∃ s', (x ← geti ip;
         whenM (nz (nth NDIRECT (i_addrs x) 0))
           (bp ← bread (i_dev x) (nth NDIRECT (i_addrs x) 0);
            itrunc_indirect (Z.to_nat NINDIRECT) 0 bp (i_dev x);;
            brelse bp;;
            x ← geti ip;
            bfree (i_dev x) (nth NDIRECT (i_addrs x) 0);;
            updi ip (λ x, x <| upd_i_addrs ::= <[NDIRECT := 0]> |>))) s = Ok () s' ∧
    txn me [] s' ∧ freed s0 (upto (MAXFILE + 1)) s' ∧ itable s' = <[ip := cut (S NDIRECT)]> (itable s0).
Proof using F Hout Hx.
  intros T Fr HI Hroom.
  assert (∀ s, itable s = <[ip := cut NDIRECT]> (itable s0) → geti ip s = Ok (cut NDIRECT) s) as Hg.
  { intros s1 E. apply geti_ok. rewrite E. apply list_lookup_insert_eq. by eapply lookup_lt_Some. }
  rewrite (bind_ok _ _ _ _ _ (Hg s HI)), nth_cut by lia. fold (ind x).
  change (i_dev (cut NDIRECT)) with (i_dev x). rewrite (ff_dev _ _ F).
  pose proof (upto_next MAXFILE ltac:(done)) as Hup. rewrite slot_ind in Hup.
  destruct (decide (ind x = 0)) as [Hz|Hz].
  - rewrite Hz. change (nz 0) with false. cbn [whenM]. exists s. split_and!; [done|done| |rewrite HI, cut_zero; [done|lia|done]].
    rewrite Hup, app_nil_r. destruct Fr as [A B C D]. split; try done. intros c Hc. rewrite B by done.
    apply decide_ext. rewrite !upto_elem. split; intros [Hc0 (m & Hm & E)]; (split; [done|]); exists m; (split; [|done]).
    + unfold MAXFILE. change NINDIRECT with 256. lia.
    + split; [lia|]. destruct (decide (m < Z.of_nat NDIRECT)) as [|Hge]; [done|]. exfalso. apply Hc0. rewrite <- E.
      rewrite slot_block by lia. unfold baddr. rewrite (proj2 (Z.ltb_ge _ _)) by lia. fold (ind x). by rewrite Hz.
  - rewrite (proj2 (nz_true _)) by done. cbn [whenM].
    pose proof (proj1 (ff_bitmap _ _ F)) as Hsz. pose proof (freed_logs me [] s0 _ s ltac:(lia) T Fr) as Hl.
    destruct (bread_txn me [] s (ind x) T (not_elem_of_nil _)) as (bp & s1 & E1 & M1 & L1 & T1 & V1).
    { change (logs s < NBUF)%nat. lia. }
    assert (freed s0 (upto (Z.of_nat NDIRECT + Z.of_nat 0)) s1) as Fr1.
    { rewrite Z.add_0_r. destruct Fr as [A B C D]. split.
      - etrans; [done|by apply moves_imoves].
      - intros c Hc. rewrite <- B by done. by apply used_same.
      - intros y Hy. rewrite V1. by apply C.
      - by rewrite L1. }
    destruct (itrunc_indirect_ok (Z.to_nat NINDIRECT) 0 bp s1) as (s2 & E2 & T2 & Fr2 & HI2); try done.
    destruct (brelse_txn me [] s2 bp (ind x) T2) as (s3 & E3 & M3 & L3 & T3 & V3).
    assert (itable s3 = <[ip := cut NDIRECT]> (itable s0)) as HI3.
    { by rewrite (moves_itable _ _ M3), HI2, (moves_itable _ _ M1). }
    assert (freed s0 (upto MAXFILE) s3) as Fr3.
    { destruct Fr2 as [A B C D]. split.
      - etrans; [done|by apply moves_imoves].
      - intros c Hc. rewrite <- B by done. by apply used_same.
      - intros y Hy. rewrite V3. by apply C.
      - by rewrite L3. }
    destruct (bfree_freed [] s3 MAXFILE) as (s4 & E4 & T4 & Fr4 & HI4); try done.
    { intros b Hb. by apply not_elem_of_nil in Hb. } { cbn [length]. lia. }
    rewrite slot_ind in E4.
    rewrite (bind_ok _ _ _ _ _ E1), (bind_ok _ _ _ _ _ E2), (bind_ok _ _ _ _ _ E3), (bind_ok _ _ _ _ _ (Hg s3 HI3)).
    change (i_dev (cut NDIRECT)) with (i_dev x). rewrite nth_cut by lia. fold (ind x). rewrite (ff_dev _ _ F).
    rewrite (bind_ok _ _ _ _ _ E4). erewrite updi_ok.
    2:{ rewrite HI4, HI3. apply list_lookup_insert_eq. by eapply lookup_lt_Some. }
    eexists. split; [done|]. split; [by apply txn_set_itable|]. split; [by apply freed_set_itable|].
    rewrite cut_next by lia. change (<[ip := cut (S NDIRECT)]> (itable s4) = <[ip := cut (S NDIRECT)]> (itable s0)).
    rewrite HI4, HI3. apply list_insert_insert_eq.
Qed.
End trunc.

Definition owns (s : kstate) (x : inode) (c : Z) : Prop := c ≠ 0 ∧ ∃ n, 0 ≤ n ≤ MAXFILE ∧ slot s x n = c.
Definition empty_file (x : inode) : inode := x <| upd_i_addrs := replicate (S NDIRECT) 0 |> <| upd_i_size := 0 |>.

Lemma slot_empty s x n : slot s (empty_file x) n = 0.
Proof.
  assert (∀ k, nth k (replicate (S NDIRECT) 0) 0 = 0) as Hn.
  { intros k. rewrite nth_lookup_Z. destruct (_ !! k) as [v|] eqn:E; [|done]. by apply lookup_replicate in E as [-> _]. }
  unfold slot, ind, baddr. change (i_addrs (empty_file x)) with (replicate (S NDIRECT) 0). rewrite !Hn.
  destruct (n =? MAXFILE); [done|]. by destruct (n <? _).
Qed.

(** The blocks of the file. *)
Lemma upto_owns s x c : c ∈ upto s x (MAXFILE + 1) ↔ owns s x c.
Proof. rewrite upto_elem. unfold owns. split; intros [Hz (m & Hm & Em)]; (split; [done|]); exists m; (split; [lia|done]). Qed.
Lemma meta_not_owned s x y : fs_file s x → y = 0 ∨ bitmap_block s y ∨ y = iblock s x → ¬ owns s x y.
Proof.
  intros F Hy (Hz & m & Hm & Em). destruct (ff_data _ _ F m Hm ltac:(congruence)) as [(_ & _ & HB) Hi].
  rewrite Em in HB, Hi. destruct Hy as [?|[(c & Hc & E)|?]]; [done|by apply (HB c)|done].
Qed.
(** The empty file that is left. *)
Lemma empty_file_ok s s' x :
  fs_file s x → sb s' = sb s →
  (∀ c, 0 ≤ c < sb_size (sb s) → used s' c = if decide (c ∈ upto s x (MAXFILE + 1)) then false else used s c) →
  fs_file s' (empty_file x).
Proof.
  intros F Hsb Hu. pose proof (proj1 (ff_bitmap _ _ F)) as Hsz. pose proof (ff_inode _ _ F) as (I1 & _).
  assert (∀ y, data_block s y → ¬ owns s x y → data_block s' y) as Hd.
  { intros y (A & B & C) Hno. unfold data_block. rewrite Hsb. split_and!; [lia..| |done].
    rewrite Hu, decide_False by (lia || by rewrite upto_owns). done. }
  split.
  - split; rewrite Hsb; [done|]. intros c Hc. destruct (ff_bitmap _ _ F) as [_ Hb]. pose proof (ff_range _ _ F c Hc) as Hr.
    rewrite Hu, decide_False; [by apply Hb| |done]. rewrite upto_owns. apply meta_not_owned; [done|]. right. left. by exists c.
  - rewrite Hsb. apply F.
  - rewrite Hu, decide_False; [apply F|rewrite upto_owns; apply meta_not_owned; [done|by left]|lia].
  - unfold iblock. rewrite Hsb. apply (Hd (iblock s x)); [by apply F|]. apply meta_not_owned; auto.
  - destruct (ff_wf _ _ F). split; try done. intros a [-> _]%elem_of_replicate. lia.
  - apply F.
  - cbn. done.
  - cbn. change BSIZE with 1024. lia.
  - intros n _. by rewrite slot_empty.
  - intros m n _ _. by rewrite !slot_empty.
Qed.

(** C23: [itrunc] gives back exactly the blocks of the inode: it ends, never
    frees a block twice (no panic), clears the bits of the direct, indirect and
    indirect-table blocks and no others, leaves the inode empty in memory and
    on the disk, and changes no block of another file; it logs at most the
    bitmap blocks and the inode's. *)
Theorem itrunc_frees me ip s x :
  txn me [] s → itable s !! ip = Some x → fs_file s x → 1 ≤ lg_outstanding (log s) →
  (1 + logs s + nbitmap s < NBUF)%nat →
  ∃ s', itrunc ip s = Ok () s' ∧ txn me [] s' ∧ imoves s s' ∧ itable s' = <[ip := empty_file x]> (itable s) ∧
    fs_file s' (empty_file x) ∧
    (∀ c, 0 ≤ c < sb_size (sb s) → (owns s x c → used s' c = false) ∧ (¬ owns s x c → used s' c = used s c)) ∧
    fview s' (iblock s x) = di_put (fview s (iblock s x)) (empty_file x) ∧
    (∀ y, foreign s x y → y ≠ iblock s x → fview s' y = fview s y) ∧
    (logs s' ≤ logs s + nbitmap s + 1)%nat.
Proof.
  intros T Hx F Hout Hroom. pose proof (proj1 (ff_bitmap _ _ F)) as Hsz.
  pose proof (iw_len _ (ff_wf _ _ F)) as Hlen.
  destruct (itrunc_direct_ok me ip s x F Hx Hout NDIRECT 0 s) as (s1 & E1 & T1 & Fr1 & HI1); [done|done| | |lia|].
  { split; [done|..]; [|done|by left]. intros c Hc. rewrite decide_False; [done|]. intros [_ (m & Hm & _)]%upto_elem. lia. }
  { unfold cut. cbn [replicate app]. rewrite drop_0, upd_addrs_self. by rewrite list_insert_id. }
  destruct (itrunc_ind_ok me ip s x F Hx Hout s1 T1 Fr1 HI1 Hroom) as (s2 & E2 & T2 & Fr2 & HI2).
  set (x' := empty_file x). set (s3 := s2 <| upd_itable := <[ip := x']> (itable s2) |>).
  assert (updi ip (λ x, x <| upd_i_size := 0 |>) s2 = Ok () s3) as E3.
  { erewrite updi_ok; [|rewrite HI2; apply list_lookup_insert_eq; by eapply lookup_lt_Some].
    unfold s3, x', empty_file, cut. by rewrite drop_ge, app_nil_r by lia. }
  assert (freed s (upto s x (MAXFILE + 1)) s3) as Fr3 by (by apply freed_set_itable).
  assert (txn me [] s3) as T3 by (by apply txn_set_itable).
  assert (itable s3 = <[ip := x']> (itable s)) as HI3.
  { change (itable s3) with (<[ip := x']> (itable s2)). rewrite HI2. apply list_insert_insert_eq. }
  pose proof (fr_env _ _ _ Fr3) as M3. pose proof (freed_logs me [] s _ s3 ltac:(lia) T3 Fr3) as Hl3.
  assert (iblock s3 x' = iblock s x) as Hib by (unfold iblock; by rewrite (imoves_sb _ _ M3)).
  destruct (iupdate_ok me ip s3 x') as (s' & E4 & M4 & T4 & L4 & V4); [done| |apply F| |lia|].
  { rewrite HI3. apply list_lookup_insert_eq. by eapply lookup_lt_Some. } { by rewrite (imoves_outstanding _ _ M3). }
  rewrite Hib in V4, L4. assert (sb s' = sb s) as Hsb by (by rewrite (moves_sb _ _ M4), (imoves_sb _ _ M3)).
  pose proof (ff_inode _ _ F) as (I1 & I2 & I3).
  assert (∀ c, 0 ≤ c < sb_size (sb s) → used s' c = if decide (c ∈ upto s x (MAXFILE + 1)) then false else used s c) as Hu.
  { intros c Hc. rewrite <- (fr_used _ _ _ Fr3) by done. unfold used. rewrite Hsb, V4, decide_False by (by apply I3).
    by rewrite (imoves_sb _ _ M3). }
  exists s'. split.
  { unfold itrunc. rewrite (bind_ok _ _ _ _ _ E1). rewrite <- bind_assoc.
    - rewrite (bind_ok _ _ _ _ _ E2), (bind_ok _ _ _ _ _ E3). done.
    - erewrite geti_ok; [done|]. rewrite HI1. apply list_lookup_insert_eq. by eapply lookup_lt_Some. }
  split; [done|]. split; [etrans; [done|by apply moves_imoves]|].
  split; [by rewrite (moves_itable _ _ M4)|]. split_and!.
  - by apply (empty_file_ok s).
  - intros c Hc. rewrite Hu by done. rewrite <- upto_owns. split; intros H; by rewrite ?decide_True, ?decide_False by done.
  - rewrite V4, decide_True by done. f_equal. apply (fr_view _ _ _ Fr3). intros (c & Hc & E). by apply (I3 c).
  - intros y (A & B & C & _) Hne. rewrite V4, decide_False by done. apply (fr_view _ _ _ Fr3).
    intros (c & Hc & E). by apply (C c).
  - pose proof (length_note (iblock s x) (logged (log s3))). unfold logs in *. rewrite L4. lia.
Qed.

Lemma itrunc_frees_witness :
  ∃ s', itrunc 0 file_demo = Ok () s' ∧ used s' 50 = false ∧ used s' 49 = true.
Proof.
  destruct file_demo_env as (E1 & E2 & E5 & E3 & E4).
  destruct (itrunc_frees proc0 0 file_demo demo_file) as (s' & E & _ & _ & _ & _ & Hu & _).
  - apply first_op_txn, demo_disk_ok.
  - by rewrite E1.
  - apply file_demo_ok.
  - by rewrite E3.
  - unfold logs, nbitmap, bitmap_blocks. rewrite E4, E5. vm_compute. lia.
  - exists s'. split; [exact E|]. rewrite E5 in Hu. change (sb_size demo_sb) with 100 in Hu. split.
    + apply (Hu 50); [lia|]. split; [done|]. exists 0. assert (0 ≤ 0 ≤ MAXFILE) as H0 by (vm_compute; split; discriminate). split; [exact H0|]. rewrite demo_slot by exact H0. reflexivity.
    + rewrite (proj2 (Hu 49 ltac:(lia))).
      * unfold file_demo. rewrite demo_used_at by lia. reflexivity.
      * intros (_ & n & Hn & E'). rewrite demo_slot in E' by exact Hn. by case_decide.
Defined.
