(* ===== verification/Mkfs.v ===== *)
(** * mkfs/mkfs.c: building a file system image (definitions)

    The program runs on the host.  Its state is the image file, as a map from
    sector numbers, and the two counters [freeinode] and [freeblock].  A
    [struct dinode] and a [struct dirent] are their bytes, as they go to the
    image; [xshort] and [xint] are the conversions to the byte order of the
    target, on a little-endian host.

    The host's files are data: a file is the chunks that successive calls of
    [read] return, a directory the entries of [readdir] in order.  Seeking
    and writing in the image succeed; reading past its end fails, as [read]
    returns less than a sector there.  [die] and a failed [assert] end the
    program.  What it prints is left out. *)

From S2P Require Import Prelude Bytes Riscv Kstate CString Bio Printf Fs.

Definition NINODES : Z := 200.
Definition nbitmap : Z := FSSIZE / (BSIZE * 8) + 1.
Definition ninodeblocks : Z := NINODES / IPB + 1.
Definition nlog : Z := LOGBLOCKS.
(** Computed by [main]. *)
Definition nmeta : Z := 2 + nlog + ninodeblocks + nbitmap.
Definition nblocks : Z := FSSIZE - nmeta.

Record mkst := mk_mkst { image : gmap Z (list Z); freeinode : Z; freeblock : Z }.
Abbreviation H := (M Empty_set mkst).

Definition die {A} (msg : string) : H A := panic msg.
Definition assert_ (b : bool) : H () := if b then mret () else panic "assert".

(** ** Byte order *)

Definition xshort (x : Z) : Z := ldl 2 [u8 x; u8 (Z.shiftr x 8)] 0.
Definition xint (x : Z) : Z := ldl 4 [u8 x; u8 (Z.shiftr x 8); u8 (Z.shiftr x 16); u8 (Z.shiftr x 24)] 0.

Definition the_sb : superblock :=
  mk_superblock FSMAGIC (xint FSSIZE) (xint nblocks) (xint NINODES) (xint nlog) (xint 2)
    (xint (2 + nlog)) (xint (2 + nlog + ninodeblocks)).
(** [memmove(buf, &sb, sizeof(sb))] into a zeroed buffer. *)
Definition sb_bytes (sb : superblock) : list Z :=
  let b := zero_block in
  let b := stl 4 b 0 (sb_magic sb) in
  let b := stl 4 b 4 (sb_size sb) in
  let b := stl 4 b 8 (sb_nblocks sb) in
  let b := stl 4 b 12 (sb_ninodes sb) in
  let b := stl 4 b 16 (sb_nlog sb) in
  let b := stl 4 b 20 (sb_logstart sb) in
  let b := stl 4 b 24 (sb_inodestart sb) in
  stl 4 b 28 (sb_bmapstart sb).

(** ** Sectors *)

Definition wsect (sec : Z) (buf : list Z) : H () :=
  modify (λ s, mk_mkst (<[sec := buf]> (image s)) (freeinode s) (freeblock s)).
Definition rsect (sec : Z) : H (list Z) :=
  I ← gets image; match I !! sec with Some d => mret d | None => die "read" end.

(** ** Inodes *)

(** [n] bytes of [d] at [o], and their replacement. *)
Definition slice (o n : nat) (d : list Z) : list Z := take n (drop o d).
Definition splice (o : nat) (l d : list Z) : list Z := take o d ++ l ++ drop (o + length l) d.

Definition winode (inum : Z) (ip : list Z) : H () :=
  let bn := IBLOCK inum the_sb in
  buf ← rsect bn;
  wsect bn (splice (dip inum) ip buf).
Definition rinode (inum : Z) : H (list Z) :=
  let bn := IBLOCK inum the_sb in
  buf ← rsect bn;
  mret (slice (dip inum) (Z.to_nat DINODE_SIZE) buf).

(** Fields of a [struct dinode]. *)
Definition din_size (din : list Z) : Z := ldl 4 din 8.
Definition set_din_size (din : list Z) (v : Z) : list Z := stl 4 din 8 v.
Definition din_addr (din : list Z) (k : Z) : Z := ldl 4 din (Z.to_nat (12 + 4 * k)).
Definition set_din_addr (din : list Z) (k v : Z) : list Z := stl 4 din (Z.to_nat (12 + 4 * k)) v.

(** [freeinode++], [freeblock++] *)
Definition next_inode : H Z :=
  i ← gets freeinode;
  modify (λ s, mk_mkst (image s) (u32 (i + 1)) (freeblock s));;
  mret i.
Definition next_block : H Z :=
  b ← gets freeblock;
  modify (λ s, mk_mkst (image s) (freeinode s) (u32 (b + 1)));;
  mret b.

Definition new_dinode (type : Z) : list Z :=
  let din := replicate (Z.to_nat DINODE_SIZE) 0 in
  let din := stl 2 din 0 (xshort type) in
  let din := stl 2 din 6 (xshort 1) in
  set_din_size din (xint 0).
Definition ialloc (type : Z) : H Z :=
  inum ← next_inode;
  winode inum (new_dinode type);;
  mret inum.

(** The address of block [fbn] of the file, allocated if it has none: the new
    [din] and the address. *)
Definition get_block (din : list Z) (fbn : Z) : H (list Z * Z) :=
  if fbn <? Z.of_nat NDIRECT then
    din ← (if xint (din_addr din fbn) =? 0 then
             b ← next_block; mret (set_din_addr din fbn (xint b))
           else mret din);
    mret (din, xint (din_addr din fbn))
  else
    din ← (if xint (din_addr din (Z.of_nat NDIRECT)) =? 0 then
             b ← next_block; mret (set_din_addr din (Z.of_nat NDIRECT) (xint b))
           else mret din);
    indirect ← rsect (xint (din_addr din (Z.of_nat NDIRECT)));
    let k := Z.to_nat (4 * (fbn - Z.of_nat NDIRECT)) in
    indirect ← (if ldl 4 indirect k =? 0 then
                  b ← next_block;
                  let indirect := stl 4 indirect k (xint b) in
                  wsect (xint (din_addr din (Z.of_nat NDIRECT))) indirect;;
                  mret indirect
                else mret indirect);
    mret (din, xint (ldl 4 indirect k)).

(** The loop of [iappend]: the bytes still to append, the inode and the
    offset. *)
Fixpoint iappend_loop (fuel : nat) (p din : list Z) (off : Z) : H (list Z * Z) :=
  match fuel with
  | O => nofuel
  | S fuel =>
      let n := Z.of_nat (length p) in
      if negb (0 <? n) then mret (din, off) else
      let fbn := off / BSIZE in
      assert_ (fbn <? MAXFILE);;
      r ← get_block din fbn;
      let n1 := Z.min n ((fbn + 1) * BSIZE - off) in
      buf ← rsect r.2;
      wsect r.2 (splice (Z.to_nat (off - fbn * BSIZE)) (take (Z.to_nat n1) p) buf);;
      iappend_loop fuel (drop (Z.to_nat n1) p) r.1 (u32 (off + n1))
  end.
Definition iappend (inum : Z) (p : list Z) : H () :=
  din ← rinode inum;
  let off := xint (din_size din) in
  r ← iappend_loop (S (length p)) p din off;
  winode inum (set_din_size r.1 (xint r.2)).

(** ** The bitmap *)

Fixpoint mark_loop (n : nat) (i : Z) (buf : list Z) : list Z :=
  match n with
  | O => buf
  | S n => mark_loop n (i + 1)
             (<[Z.to_nat (i / 8) := Z.lor (nth (Z.to_nat (i / 8)) buf 0) (Z.shiftl 1 (i mod 8))]> buf)
  end.
Definition balloc (used : Z) : H () :=
  assert_ (used <? BSIZE * 8);;
  wsect (sb_bmapstart the_sb) (mark_loop (Z.to_nat used) 0 zero_block).

(** ** Files and directories of the host *)

#[local] Set Warnings "-register-all".
Inductive node :=
| HFile (chunks : option (list (list Z)))
| HDir (entries : option (list (list Z * node)))
| HOther (chunks : option (list (list Z))).

(** [bzero(&de); de.inum = xshort(inum); strncpy(de.name, name, DIRSIZ);] *)
Definition dirent_n (inum : Z) (name : list Z) : list Z :=
  stl 2 (replicate 2 0) 0 (xshort inum) ++ pad_name name.
(** The same with [strcpy], which writes outside the structure when the name
    and its NUL do not fit. *)
Definition dirent_s (inum : Z) (name : list Z) : H (list Z) :=
  if (length name <? DIRSIZ)%nat then mret (dirent_n inum name) else panic "strcpy: name too long".

Fixpoint append_chunks (inum : Z) (chunks : list (list Z)) : H () :=
  match chunks with
  | [] => mret ()
  | c :: chunks => iappend inum c;; append_chunks inum chunks
  end.

Definition add_file (parentino : Z) (filename : list Z) (chunks : option (list (list Z))) : H () :=
  match chunks with
  | None => die "open"
  | Some chunks =>
      inum ← ialloc T_FILE;
      iappend parentino (dirent_n inum filename);;
      append_chunks inum chunks
  end.

Fixpoint add_dir (parentino : Z) (dirname : list Z) (n : node) : H Z :=
  dino ← ialloc T_DIR;
  de ← dirent_s dino dirname;
  iappend parentino de;;
  de ← dirent_s dino [46];
  iappend dino de;;
  de ← dirent_s parentino [46; 46];
  iappend dino de;;
  match n with
  | HDir (Some entries) =>
      (fix loop (es : list (list Z * node)) : H () :=
         match es with
         | [] => mret ()
         | (name, e) :: es =>
             (if hd 0 name =? 46 then mret ()
              else match e with
                   | HFile chunks => add_file dino name chunks
                   | HDir _ => add_dir dino name e;; mret ()
                   | HOther _ => mret ()
                   end);;
             loop es
         end) entries;;
      mret dino
  | _ => mret dino
  end.

(** ** main *)

Definition user_prefix : list Z := codes "user/".
Definition shorten (path : list Z) : list Z :=
  if bool_decide (take 5 path = user_prefix) then drop 5 path else path.
Definition strip_underscore (name : list Z) : list Z := if hd 0 name =? 95 then drop 1 name else name.

(** One argument of the command line, with what the host has there. *)
Definition main_arg (rootino : Z) (path : list Z) (n : node) : H () :=
  match n with
  | HDir _ => add_dir rootino path n;; mret ()
  | HFile chunks | HOther chunks =>
      let shortname := shorten path in
      assert_ (negb (bool_decide (SLASH ∈ shortname)));;
      match chunks with
      | None => die "open"
      | Some chunks =>
          let shortname := strip_underscore shortname in
          inum ← ialloc T_FILE;
          iappend rootino (dirent_n inum shortname);;
          append_chunks inum chunks
      end
  end.
Fixpoint main_args (rootino : Z) (args : list (list Z * node)) : H () :=
  match args with
  | [] => mret ()
  | (path, n) :: args => main_arg rootino path n;; main_args rootino args
  end.

(** [for(i = 0; i < FSSIZE; i++) wsect(i, zeroes);] *)
Fixpoint zero_loop (n : nat) (i : Z) : H () :=
  match n with O => mret () | S n => wsect i zero_block;; zero_loop n (i + 1) end.

Definition fix_root_size (rootino : Z) : H () :=
  din ← rinode rootino;
  let off := xint (din_size din) in
  let off := u32 ((off / BSIZE + 1) * BSIZE) in
  winode rootino (set_din_size din (xint off)).

Definition main (args : list (list Z * node)) : H () :=
  modify (λ s, mk_mkst (image s) (freeinode s) nmeta);;
  zero_loop (Z.to_nat FSSIZE) 0;;
  wsect 1 (sb_bytes the_sb);;
  rootino ← ialloc T_DIR;
  assert_ (rootino =? ROOTINO);;
  de ← dirent_s rootino [46];
  iappend rootino de;;
  de ← dirent_s rootino [46; 46];
  iappend rootino de;;
  main_args rootino args;;
  fix_root_size rootino;;
  b ← gets freeblock;
  balloc b.
(** The image is opened with O_TRUNC. *)
Definition mkfs (args : list (list Z * node)) : res Empty_set mkst () := main args (mk_mkst ∅ 1 0).
