(* ===== verification/MkfsProps.v ===== *)
(** * mkfs/mkfs.c: the image it builds

    An image represents a list of files, each a type and its bytes, by inode
    number.  [core V Ds A fb] says how: [V] are the sectors, [Ds] the inodes
    of the files [A], [fb] the first free block.  Each file has exactly the
    blocks its size needs, no block belongs to two files, and the blocks hold
    the bytes, followed by zeros in the last one.  [iappend] refines appending to a file and [ialloc] adding an
    empty one; the blocks they use are counted exactly. *)

From S2P Require Import Prelude Bytes Riscv Kstate CString Bio Printf Fs FsPath Mkfs.

Definition din_ind (D : list Z) : Z := din_addr D (Z.of_nat NDIRECT).
Definition daddr (V : Z → list Z) (D : list Z) (n : Z) : Z :=
  if n <? Z.of_nat NDIRECT then din_addr D n
  else if din_ind D =? 0 then 0 else ldl 4 (V (din_ind D)) (Z.to_nat (4 * (n - Z.of_nat NDIRECT))).
(** Slot MAXFILE is the indirect block. *)
Definition dslot (V : Z → list Z) (D : list Z) (n : Z) : Z := if n =? MAXFILE then din_ind D else daddr V D n.

Abbreviation filemap := (list (Z * list Z)).
Definition size_of (b : list Z) : Z := Z.of_nat (length b).

Definition type_ok (t : Z) : Prop := t = T_DIR ∨ t = T_FILE.

Record core (V : Z → list Z) (Ds : list (list Z)) (A : filemap) (fb : Z) : Prop := {
  co_len : length Ds = length A;
  co_vlen sec : length (V sec) = Z.to_nat BSIZE;
  co_fb : nmeta ≤ fb ≤ FSSIZE;
  co_zero sec : fb ≤ sec → V sec = zero_block;
  co_D i D : Ds !! i = Some D → length D = 64%nat;
  co_type i D t b : Ds !! i = Some D → A !! i = Some (t, b) → ldl 2 D 0 = t ∧ ldl 2 D 6 = 1 ∧ type_ok t;
  co_max i t b : A !! i = Some (t, b) → size_of b ≤ MAXFILE * BSIZE;
  co_map i D t b n : Ds !! i = Some D → A !! i = Some (t, b) → 0 ≤ n < MAXFILE →
    daddr V D n ≠ 0 ↔ n * BSIZE < size_of b;
  co_ind i D t b : Ds !! i = Some D → A !! i = Some (t, b) →
    din_ind D ≠ 0 ↔ Z.of_nat NDIRECT * BSIZE < size_of b;
  co_range i D n : Ds !! i = Some D → 0 ≤ n ≤ MAXFILE → dslot V D n ≠ 0 → nmeta ≤ dslot V D n < fb;
  co_inj i j D D' m n : Ds !! i = Some D → Ds !! j = Some D' → 0 ≤ m ≤ MAXFILE → 0 ≤ n ≤ MAXFILE →
    dslot V D m = dslot V D' n → dslot V D m ≠ 0 → i = j ∧ m = n;
  co_byte i D t b k : Ds !! i = Some D → A !! i = Some (t, b) → 0 ≤ k → k / BSIZE * BSIZE < size_of b →
    nth (Z.to_nat (k mod BSIZE)) (V (daddr V D (k / BSIZE))) 0 = nth (Z.to_nat k) b 0;
}.

Lemma dslot_block V D n : 0 ≤ n < MAXFILE → dslot V D n = daddr V D n.
Proof. intros Hn. unfold dslot. by rewrite (proj2 (Z.eqb_neq _ _)) by lia. Qed.
Lemma dslot_ind V D : dslot V D MAXFILE = din_ind D.
Proof. unfold dslot. by rewrite Z.eqb_refl. Qed.
Lemma daddr_frame V V' D n :
  (din_ind D ≠ 0 → V' (din_ind D) = V (din_ind D)) → daddr V' D n = daddr V D n.
Proof.
  intros H. unfold daddr. destruct (n <? _); [done|]. destruct (din_ind D =? 0) eqn:E; [done|]. zbool. by rewrite H.
Qed.
Lemma dslot_frame V V' D n :
  (din_ind D ≠ 0 → V' (din_ind D) = V (din_ind D)) → dslot V' D n = dslot V D n.
Proof. intros H. unfold dslot. destruct (n =? MAXFILE); [done|]. by apply daddr_frame. Qed.

(** ** Bytes *)

Lemma length_splice o l d : (o + length l ≤ length d)%nat → length (splice o l d) = length d.
Proof. intros H. unfold splice. rewrite !length_app, length_take, length_drop. lia. Qed.
Lemma nth_splice o l d k :
  (o + length l ≤ length d)%nat →
  nth k (splice o l d) 0 = if decide (o ≤ k < o + length l)%nat then nth (k - o) l 0 else nth k d 0.
Proof.
  intros H. unfold splice. rewrite !nth_lookup_Z. case_decide as Hk.
  - rewrite lookup_app_r, length_take, lookup_app_l by (rewrite ?length_take; lia). f_equal. f_equal. lia.
  - destruct (decide (k < o)%nat).
    + by rewrite lookup_app_l, lookup_take_lt by (rewrite ?length_take; lia).
    + rewrite lookup_app_r, length_take, lookup_app_r, lookup_drop by (rewrite ?length_take; lia).
      do 2 f_equal. lia.
Qed.

Lemma lookup_insert_case {X} (l : list X) c d j e :
  <[c := d]> l !! j = Some e → (j = c ∧ e = d) ∨ (j ≠ c ∧ l !! j = Some e).
Proof. intros [(-> & <- & _)|[? ?]]%list_lookup_insert_Some; auto. Qed.
Lemma file_insert_case (A : filemap) c t b j t' b' :
  <[c := (t, b)]> A !! j = Some (t', b') → (j = c ∧ t' = t ∧ b' = b) ∨ (j ≠ c ∧ A !! j = Some (t', b')).
Proof. intros [[-> [= -> ->]]|[? ?]]%lookup_insert_case; auto. Qed.

(** ** Appending to one block *)

Section append.
Context (V V' : Z → list Z) (Ds : list (list Z)) (A : filemap) (fb fb' : Z).
Context (c : nat) (D D' : list Z) (t : Z) (b l : list Z) (x : Z).
Context (C : core V Ds A fb) (HD : Ds !! c = Some D) (HA : A !! c = Some (t, b)).
Let n : Z := size_of b / BSIZE.
Let off : Z := size_of b mod BSIZE.
Context (Hl : (0 < length l)%nat) (Hoff : off + size_of l ≤ BSIZE) (Hn : n < MAXFILE).
Context (Hfb : fb ≤ fb' ≤ FSSIZE) (HVl : ∀ y, length (V' y) = Z.to_nat BSIZE).
Context (HV : ∀ y, y ≠ x → y ≠ din_ind D' → V' y = V y)
  (Hx : V' x = splice (Z.to_nat off) l (V x)).
Context (Hsl : ∀ m, 0 ≤ m < MAXFILE → daddr V' D' m = if decide (m = n) then x else daddr V D m).
Context (Hxc : (x = daddr V D n ∧ x ≠ 0) ∨ (fb ≤ x < fb' ∧ daddr V D n = 0)).
Context (Hic : din_ind D' = din_ind D ∨ (fb ≤ din_ind D' < fb' ∧ din_ind D = 0 ∧ din_ind D' ≠ x)).
Context (Hiz : din_ind D' ≠ 0 ↔ Z.of_nat NDIRECT * BSIZE < size_of b + size_of l).
Context (HDl : length D' = 64%nat) (HDt : ldl 2 D' 0 = ldl 2 D 0 ∧ ldl 2 D' 6 = ldl 2 D 6).

Lemma append_div : 0 ≤ n ∧ 0 ≤ off < BSIZE ∧ size_of b = BSIZE * n + off.
Proof using.
  clear. unfold n, off, size_of. pose proof (Z.mod_pos_bound (Z.of_nat (length b)) BSIZE ltac:(done)).
  pose proof (Z.div_mod (Z.of_nat (length b)) BSIZE ltac:(done)). split_and!; [|lia..]. apply Z.div_pos; [lia|done].
Qed.
Lemma nmeta_pos : 0 < nmeta.
Proof using. done. Qed.

(** Any other slot of any inode is another block. *)
Lemma append_other j E m :
  Ds !! j = Some E → 0 ≤ m ≤ MAXFILE → dslot V E m ≠ 0 → (j = c → m ≠ n ∧ m ≠ MAXFILE) →
  dslot V E m ≠ x ∧ dslot V E m ≠ din_ind D'.
Proof using All.
  intros HE Hm Hz Hne. pose proof (co_range _ _ _ _ C j E m HE Hm Hz) as Hr. pose proof append_div as (Hn0 & _).
  split; intros Eq.
  - destruct Hxc as [[Ex Hx0]|[Hfr _]]; [|lia]. rewrite Ex, <- dslot_block in Eq by lia.
    destruct (co_inj _ _ _ _ C j c E D m n HE HD Hm ltac:(lia) Eq Hz) as [-> ->]. by destruct (Hne eq_refl).
  - destruct Hic as [Ei|[Hfr _]]; [|lia]. rewrite Ei, <- (dslot_ind V) in Eq.
    destruct (co_inj _ _ _ _ C j c E D m MAXFILE HE HD Hm ltac:(done) Eq Hz) as [-> ->]. by destruct (Hne eq_refl).
Qed.
Lemma append_ind j E : Ds !! j = Some E → j ≠ c → din_ind E ≠ 0 → V' (din_ind E) = V (din_ind E).
Proof using All.
  intros HE Hj Hi. destruct (append_other j E MAXFILE HE ltac:(done)) as [H1 H2]; [by rewrite dslot_ind|done|].
  rewrite dslot_ind in H1, H2. by apply HV.
Qed.
Lemma append_frame j E m : Ds !! j = Some E → j ≠ c → dslot V' E m = dslot V E m.
Proof using All. intros HE Hj. apply dslot_frame. by apply (append_ind j). Qed.
Lemma append_daddr j E m : Ds !! j = Some E → j ≠ c → daddr V' E m = daddr V E m.
Proof using All. intros HE Hj. apply daddr_frame. by apply (append_ind j). Qed.
(** A block of a file that is not the one written. *)
Lemma append_block j E m :
  Ds !! j = Some E → 0 ≤ m < MAXFILE → daddr V E m ≠ 0 → (j = c → m ≠ n) → V' (daddr V E m) = V (daddr V E m).
Proof using All.
  intros HE Hm Hz Hne. rewrite <- dslot_block in * by done.
  destruct (append_other j E m HE ltac:(lia) Hz) as [H1 H2]; [|by apply HV].
  intros Hj. split; [auto|lia].
Qed.

Lemma append_x : 0 < x < fb' ∧ (x < fb → x = daddr V D n).
Proof using All.
  pose proof append_div. pose proof nmeta_pos. pose proof (co_fb _ _ _ _ C).
  destruct Hxc as [[Ex Hx0]|[? _]]; [|lia]. pose proof (co_range _ _ _ _ C c D n HD ltac:(lia)) as Hr.
  rewrite dslot_block in Hr by lia. rewrite <- Ex in Hr. specialize (Hr Hx0). split; [lia|done].
Qed.
Lemma append_i : din_ind D' < fb' ∧ (din_ind D' ≠ 0 → nmeta ≤ din_ind D').
Proof using All.
  pose proof (co_fb _ _ _ _ C). pose proof nmeta_pos. destruct Hic as [Ei|[? _]]; [|lia].
  destruct (decide (din_ind D = 0)) as [Hz|Hz]; [lia|].
  pose proof (co_range _ _ _ _ C c D MAXFILE HD ltac:(done)) as Hr. rewrite dslot_ind in Hr. specialize (Hr Hz). lia.
Qed.

(** The slots of the file after the append. *)
Lemma append_slot m :
  0 ≤ m ≤ MAXFILE →
  dslot V' D' m = if decide (m = n) then x else if decide (m = MAXFILE) then din_ind D' else dslot V D m.
Proof using All.
  intros Hm. destruct (decide (m = MAXFILE)) as [->|Hne].
  - rewrite decide_False by lia. apply dslot_ind.
  - rewrite dslot_block, Hsl by lia. case_decide; [done|]. by rewrite dslot_block by lia.
Qed.
(** Each is an old block of the file or a new one. *)
Lemma append_old m :
  0 ≤ m ≤ MAXFILE → dslot V' D' m ≠ 0 →
  (dslot V' D' m = dslot V D m ∧ dslot V D m ≠ 0) ∨
  (fb ≤ dslot V' D' m < fb' ∧ dslot V D m = 0 ∧ (m = n ∨ m = MAXFILE)).
Proof using All.
  intros Hm. rewrite append_slot by done. pose proof append_div as (Hn0 & _). destruct (decide (m = n)) as [->|Hmn].
  - intros _. rewrite dslot_block by lia. destruct Hxc as [[-> ?]|[? ?]]; [left|right]; auto.
  - destruct (decide (m = MAXFILE)) as [->|Hne]; [|by left]. rewrite dslot_ind.
    intros Hz. destruct Hic as [Ei|(? & ? & _)]; [left|right]; auto. split; congruence.
Qed.
Lemma append_new_inj m m' :
  0 ≤ m ≤ MAXFILE → 0 ≤ m' ≤ MAXFILE → dslot V' D' m = dslot V' D' m' → dslot V' D' m ≠ 0 → m = m'.
Proof using All.
  intros Hm Hm' E Hz. assert (dslot V' D' m' ≠ 0) as Hz' by congruence.
  destruct (append_old m Hm Hz) as [[E1 Z1]|(R1 & Z1 & N1)], (append_old m' Hm' Hz') as [[E2 Z2]|(R2 & Z2 & N2)].
  - by destruct (co_inj _ _ _ _ C c c D D m m' HD HD Hm Hm' ltac:(congruence) Z1).
  - pose proof (co_range _ _ _ _ C c D m HD Hm Z1). lia.
  - pose proof (co_range _ _ _ _ C c D m' HD Hm' Z2). lia.
  - rewrite !append_slot in * by done. destruct N1 as [->| ->], N2 as [->| ->]; try done.
    + rewrite decide_True, decide_False, decide_True in E by (done || lia).
      destruct Hic as [Ei|(_ & _ & Hne)]; [|congruence]. rewrite dslot_ind in Z2. rewrite Ei, Z2 in E. pose proof append_x. lia.
    + rewrite decide_False, decide_True, decide_True in E by (done || lia).
      destruct Hic as [Ei|(_ & _ & Hne)]; [|congruence]. rewrite dslot_ind in Z1. rewrite Ei, Z1 in E. pose proof append_x. lia.
Qed.

Lemma append_byte k :
  0 ≤ k → k / BSIZE * BSIZE < size_of (b ++ l) →
  nth (Z.to_nat (k mod BSIZE)) (V' (daddr V' D' (k / BSIZE))) 0 = nth (Z.to_nat k) (b ++ l) 0.
Proof using All.
  pose proof append_div as (Hn0 & Ho & Hdm).
  assert (size_of (b ++ l) = size_of b + size_of l) as -> by (unfold size_of; rewrite length_app; lia).
  assert (0 < size_of l) by (unfold size_of; lia). intros Hk0 Hk.
  pose proof (Z.div_mod k BSIZE ltac:(done)) as Hkd. pose proof (Z.mod_pos_bound k BSIZE ltac:(done)) as Hkm.
  assert (0 ≤ k / BSIZE ≤ n) as Hkn.
  { split; [by apply Z.div_pos|]. apply Z.lt_succ_r, (Z.mul_lt_mono_pos_r BSIZE); [done|]. lia. }
  rewrite Hsl by lia. assert (length (V x) = Z.to_nat BSIZE) as Hvx by apply C.
  assert (Z.to_nat off + length l ≤ length (V x))%nat as Hfit by (unfold size_of in *; lia).
  destruct (decide (k / BSIZE = n)) as [E|Hne].
  - rewrite E in *. rewrite Hx, nth_splice by done.
    assert (k - size_of b = k mod BSIZE - off) as Hko by lia.
    destruct (decide (Z.to_nat off ≤ Z.to_nat (k mod BSIZE) < Z.to_nat off + length l)%nat) as [Hin|Hout].
    { rewrite app_nth2 by (unfold size_of in *; lia). f_equal. unfold size_of in *. lia. }
    assert (nth (Z.to_nat k) (b ++ l) 0 = nth (Z.to_nat k) b 0) as ->.
    { destruct (decide (k < size_of b)); [apply app_nth1; unfold size_of in *; lia|].
      rewrite !nth_overflow by (rewrite ?length_app; unfold size_of in *; lia). done. }
    destruct Hxc as [[Ex Hx0]|[Hfr Hz]].
    + rewrite Ex, <- E. apply (co_byte _ _ _ _ C c D t b k HD HA); [done|]. rewrite E.
      rewrite Ex in Hx0. apply (co_map _ _ _ _ C c D t b n HD HA) in Hx0; lia.
    + rewrite (co_zero _ _ _ _ C) by lia. assert (¬ n * BSIZE < size_of b) as Hnm.
      { intros Hm. apply (co_map _ _ _ _ C c D t b n HD HA) in Hm; [done|lia]. }
      rewrite (nth_overflow b) by (unfold size_of in *; lia). unfold zero_block. rewrite nth_lookup_Z.
      destruct (replicate _ _ !! _) as [v|] eqn:Er; [|done]. by apply lookup_replicate in Er as [-> _].
  - assert ((k / BSIZE + 1) * BSIZE ≤ n * BSIZE) as Hle by (apply Z.mul_le_mono_nonneg_r; [done|lia]).
    rewrite app_nth1 by (unfold size_of in *; lia). rewrite <- (co_byte _ _ _ _ C c D t b k HD HA) by lia.
    assert (daddr V D (k / BSIZE) ≠ 0) as Hz by (apply (co_map _ _ _ _ C c D t b _ HD HA); lia).
    by rewrite (append_block c D (k / BSIZE)) by (done || lia).
Qed.

Lemma core_append : core V' (<[c := D']> Ds) (<[c := (t, b ++ l)]> A) fb'.
Proof using All.
  pose proof append_div as (Hn0 & Ho & Hdm). pose proof (co_fb _ _ _ _ C) as Hfb0.
  assert (size_of (b ++ l) = size_of b + size_of l) as Hsz by (unfold size_of; rewrite length_app; lia).
  assert (0 < size_of l) as Hl0 by (unfold size_of; lia). split.
  - rewrite !length_insert. apply C.
  - done.
  - lia.
  - intros sec Hs. destruct append_x, append_i. rewrite HV by lia. apply C. lia.
  - intros j E [[-> ->]|[Hj HE]]%lookup_insert_case; [done|by apply (co_D _ _ _ _ C j)].
  - intros j E t' b' [[-> ->]|[Hj HE]]%lookup_insert_case [(? & -> & ->)|[? HB]]%file_insert_case; try done.
    + destruct HDt as [-> ->]. by apply (co_type _ _ _ _ C c D t b).
    + by apply (co_type _ _ _ _ C j E t' b').
  - intros j t' b' [(? & -> & ->)|[? HB]]%file_insert_case; [rewrite Hsz|by apply (co_max _ _ _ _ C j t')].
    pose proof (Z.mul_le_mono_nonneg_l (n + 1) MAXFILE BSIZE ltac:(done) ltac:(lia)). lia.
  - intros j E t' b' m [[-> ->]|[Hj HE]]%lookup_insert_case [(? & -> & ->)|[? HB]]%file_insert_case Hm; try done.
    + rewrite Hsl, Hsz by done. pose proof append_x. pose proof (co_map _ _ _ _ C c D t b m HD HA Hm) as Hmap.
      case_decide as Hd; [subst m; lia|]. rewrite Hmap. destruct (decide (m < n)).
      * pose proof (Z.mul_le_mono_nonneg_l (m + 1) n BSIZE ltac:(done) ltac:(lia)). lia.
      * pose proof (Z.mul_le_mono_nonneg_l (n + 1) m BSIZE ltac:(done) ltac:(lia)). lia.
    + rewrite (append_daddr j E) by done. by apply (co_map _ _ _ _ C j E t').
  - intros j E t' b' [[-> ->]|[Hj HE]]%lookup_insert_case [(? & -> & ->)|[? HB]]%file_insert_case; try done.
    + by rewrite Hsz.
    + by apply (co_ind _ _ _ _ C j E t').
  - intros j E m [[-> ->]|[Hj HE]]%lookup_insert_case Hm.
    + intros Hz. destruct (append_old m Hm Hz) as [[-> Z1]|(R1 & _)]; [|lia]. pose proof (co_range _ _ _ _ C c D m HD Hm Z1). lia.
    + rewrite (append_frame j E) by done. intros Hz. pose proof (co_range _ _ _ _ C j E m HE Hm Hz). lia.
  - intros i j E E' m m' [[-> ->]|[Hi HE]]%lookup_insert_case [[-> ->]|[Hj HE']]%lookup_insert_case Hm Hm'.
    + intros Eq Hz. split; [done|]. by apply append_new_inj.
    + rewrite (append_frame j E') by done. intros Eq Hz. exfalso. apply Hj.
      destruct (append_old m Hm Hz) as [[E1 Z1]|(R1 & _)].
      * by destruct (co_inj _ _ _ _ C c j D E' m m' HD HE' Hm Hm' ltac:(congruence) Z1).
      * pose proof (co_range _ _ _ _ C j E' m' HE' Hm' ltac:(congruence)). lia.
    + rewrite (append_frame i E) by done. intros Eq Hz. exfalso. apply Hi.
      destruct (append_old m' Hm' ltac:(congruence)) as [[E1 Z1]|(R1 & _)].
      * by destruct (co_inj _ _ _ _ C i c E D m m' HE HD Hm Hm' ltac:(congruence) Hz).
      * pose proof (co_range _ _ _ _ C i E m HE Hm Hz). lia.
    + rewrite (append_frame i E), (append_frame j E') by done. by apply C.
  - intros j E t' b' k [[-> ->]|[Hj HE]]%lookup_insert_case [(? & -> & ->)|[? HB]]%file_insert_case Hk0 Hk; try done.
    + by apply append_byte.
    + rewrite (append_daddr j E) by done. pose proof (co_max _ _ _ _ C j t' b' HB) as Hmax.
      assert (0 ≤ k / BSIZE < MAXFILE) as Hkb.
      { split; [by apply Z.div_pos|]. apply (Z.mul_lt_mono_pos_r BSIZE); [done|lia]. }
      rewrite (append_block j E); [by apply (co_byte _ _ _ _ C j E t' b')|done|done| |done].
      by apply (co_map _ _ _ _ C j E t' b').
Qed.
End append.

(** ** The state *)

Definition vw (s : mkst) : Z → list Z := dblock (image s).
Definition present (s : mkst) : Prop := ∀ sec, 0 ≤ sec < FSSIZE → is_Some (image s !! sec).

Lemma xint_u32 v : xint v = u32 v.
Proof.
  unfold xint, u32, u8. cbn [ldl nth]. rewrite !Z.shiftr_div_pow2 by lia. change (2 ^ 8) with 256.
  change (2 ^ 16) with (256 * 256). change (2 ^ 24) with (256 * 256 * 256). change (2 ^ 32) with (256 * (256 * (256 * 256))).
  rewrite (Z.rem_mul_r v 256), (Z.rem_mul_r (v / 256) 256), (Z.rem_mul_r (v / 256 / 256) 256) by lia.
  rewrite !Z.div_div by lia. change (256 * 256 * 256) with 16777216. change (256 * 256) with 65536. lia.
Qed.
Lemma xint_id v : 0 ≤ v < 2 ^ 32 → xint v = v.
Proof. intros Hv. rewrite xint_u32. by apply u32_small. Qed.

Lemma sector_insert (I : gmap Z (list Z)) a d y : dblock (<[a := d]> I) y = if decide (y = a) then d else dblock I y.
Proof. unfold dblock. case_decide; subst; [by rewrite lookup_insert_eq|by rewrite lookup_insert_ne by done]. Qed.

Lemma rsect_ok s sec : present s → 0 ≤ sec < FSSIZE → rsect sec s = Ok (vw s sec) s.
Proof. intros Hp Hs. destruct (Hp sec Hs) as [d Hd]. unfold rsect. rewrite bind_gets. unfold vw, dblock. by rewrite Hd. Qed.
Lemma wsect_ok s sec d :
  present s → ∃ s', wsect sec d s = Ok () s' ∧ present s' ∧ freeblock s' = freeblock s ∧ freeinode s' = freeinode s ∧
    ∀ y, vw s' y = if decide (y = sec) then d else vw s y.
Proof.
  intros Hp. eexists. split; [done|]. split_and!; [|done|done|intros; apply sector_insert].
  intros y Hy. cbn. destruct (decide (y = sec)) as [->|]; [by rewrite lookup_insert_eq|].
  rewrite lookup_insert_ne by done. by apply Hp.
Qed.
Lemma next_block_ok s :
  0 ≤ freeblock s < FSSIZE → ∃ s', next_block s = Ok (freeblock s) s' ∧ image s' = image s ∧
    freeblock s' = freeblock s + 1 ∧ freeinode s' = freeinode s.
Proof.
  intros Hf. eexists. split; [done|]. split_and!; [done| |done]. cbn. apply u32_small. change FSSIZE with 4000 in Hf. lia.
Qed.

Lemma din_addr_set D k v m :
  length D = 64%nat → 0 ≤ k ≤ Z.of_nat NDIRECT → 0 ≤ m ≤ Z.of_nat NDIRECT → 0 ≤ v < 2 ^ 32 →
  din_addr (set_din_addr D k v) m = if decide (m = k) then v else din_addr D m.
Proof.
  intros Hl Hk Hm Hv. unfold din_addr, set_din_addr, NDIRECT in *. case_decide as Hd.
  - subst. apply ldl_stl_eq; [lia|]. by change (256 ^ Z.of_nat 4) with (2 ^ 32).
  - apply ldl_stl_ne. lia.
Qed.
Lemma set_din_addr_fields D k v :
  length D = 64%nat → 0 ≤ k ≤ Z.of_nat NDIRECT →
  length (set_din_addr D k v) = 64%nat ∧ ldl 2 (set_din_addr D k v) 0 = ldl 2 D 0 ∧
  ldl 2 (set_din_addr D k v) 6 = ldl 2 D 6 ∧ din_size (set_din_addr D k v) = din_size D.
Proof.
  intros Hl Hk. unfold set_din_addr, din_size, NDIRECT in *. rewrite length_stl. split; [done|].
  by rewrite !ldl_stl_ne by lia.
Qed.

(** The blocks a file of [sz] bytes takes. *)
Definition blocks (sz : Z) : Z := (sz + BSIZE - 1) / BSIZE + (if Z.of_nat NDIRECT * BSIZE <? sz then 1 else 0).
(** The blocks one more piece takes. *)
Definition need (sz : Z) : Z :=
  if negb (sz mod BSIZE =? 0) then 0
  else if sz / BSIZE =? Z.of_nat NDIRECT then 2 else 1.
Lemma blocks_piece sz m :
  0 ≤ sz → 0 < m ≤ BSIZE - sz mod BSIZE → blocks (sz + m) = blocks sz + need sz.
Proof.
  intros Hs Hm. pose proof (Z.div_mod sz BSIZE ltac:(done)) as Hd. pose proof (Z.mod_pos_bound sz BSIZE ltac:(done)) as Hb.
  set (q := sz / BSIZE) in *. set (r := sz mod BSIZE) in *.
  assert ((sz + m + BSIZE - 1) / BSIZE = q + 1) as Ha.
  { symmetry. apply (Z.div_unique _ _ _ (r + m - 1)); lia. }
  unfold blocks, need. fold q r. rewrite Ha. change BSIZE with 1024 in *. unfold NDIRECT.
  destruct (r =? 0) eqn:E; zbool; cbn [negb].
  - assert ((sz + 1024 - 1) / 1024 = q) as ->.
    { symmetry. apply (Z.div_unique _ _ _ 1023); lia. }
    destruct (q =? Z.of_nat 12) eqn:E1, (Z.of_nat 12 * 1024 <? sz + m) eqn:E2, (Z.of_nat 12 * 1024 <? sz) eqn:E3; zbool; lia.
  - assert ((sz + 1024 - 1) / 1024 = q + 1) as ->.
    { symmetry. apply (Z.div_unique _ _ _ (r - 1)); lia. }
    destruct (Z.of_nat 12 * 1024 <? sz + m) eqn:E2, (Z.of_nat 12 * 1024 <? sz) eqn:E3; zbool; lia.
Qed.

(** ** The block for the next byte *)

Section block.
Context (s : mkst) (Ds : list (list Z)) (A : filemap) (c : nat) (D : list Z) (t : Z) (b : list Z).
Context (C : core (vw s) Ds A (freeblock s)) (Hp : present s) (HD : Ds !! c = Some D) (HA : A !! c = Some (t, b)).
Let n : Z := size_of b / BSIZE.
Context (Hn : n < MAXFILE) (Hcap : freeblock s + need (size_of b) ≤ FSSIZE).

(** What [get_block] leaves for the write of a piece at the end of the file. *)
Record got (D1 : list Z) (x : Z) (s1 : mkst) : Prop := {
  gt_fb : freeblock s1 = freeblock s + need (size_of b);
  gt_fi : freeinode s1 = freeinode s;
  gt_present : present s1;
  gt_len y : length (vw s1 y) = Z.to_nat BSIZE;
  gt_view y : (din_ind D1 ≠ 0 → y ≠ din_ind D1) → vw s1 y = vw s y;
  gt_addr m : 0 ≤ m < MAXFILE → daddr (vw s1) D1 m = if decide (m = n) then x else daddr (vw s) D m;
  gt_x : (x = daddr (vw s) D n ∧ x ≠ 0) ∨ (freeblock s ≤ x < freeblock s1 ∧ daddr (vw s) D n = 0);
  gt_i : din_ind D1 = din_ind D ∨ (freeblock s ≤ din_ind D1 < freeblock s1 ∧ din_ind D = 0 ∧ din_ind D1 ≠ x);
  gt_xi : x ≠ din_ind D1;
  gt_iz : din_ind D1 ≠ 0 ↔ Z.of_nat NDIRECT ≤ n;
  gt_D : length D1 = 64%nat ∧ ldl 2 D1 0 = ldl 2 D 0 ∧ ldl 2 D1 6 = ldl 2 D 6 ∧ din_size D1 = din_size D;
}.

Lemma block_div : 0 ≤ n ∧ 0 ≤ size_of b mod BSIZE < BSIZE ∧ size_of b = BSIZE * n + size_of b mod BSIZE.
Proof using All. exact (append_div b). Qed.

Lemma slot_small m : 0 ≤ m ≤ MAXFILE → 0 ≤ dslot (vw s) D m < FSSIZE.
Proof using All.
  intros Hm. destruct (decide (dslot (vw s) D m = 0)) as [->|Hz]; [done|].
  pose proof (co_range _ _ _ _ C c D m HD Hm Hz). pose proof (co_fb _ _ _ _ C). pose proof nmeta_pos. lia.
Qed.
Lemma xint_slot m : 0 ≤ m ≤ MAXFILE → xint (dslot (vw s) D m) = dslot (vw s) D m.
Proof using All. intros Hm. apply xint_id. pose proof (slot_small m Hm). change FSSIZE with 4000 in *. lia. Qed.
Lemma addr_direct m : 0 ≤ m < Z.of_nat NDIRECT → din_addr D m = dslot (vw s) D m.
Proof using All.
  intros Hm. rewrite dslot_block by (unfold MAXFILE; change NINDIRECT with 256; lia). unfold daddr.
  by rewrite (proj2 (Z.ltb_lt _ _)) by lia.
Qed.
Lemma addr_ind m :
  din_ind D ≠ 0 → Z.of_nat NDIRECT ≤ m < MAXFILE →
  ldl 4 (vw s (din_ind D)) (Z.to_nat (4 * (m - Z.of_nat NDIRECT))) = dslot (vw s) D m.
Proof using All.
  intros Hi Hm. rewrite dslot_block by lia. unfold daddr. rewrite (proj2 (Z.ltb_ge _ _)) by lia.
  by rewrite (proj2 (Z.eqb_neq _ _)).
Qed.
Lemma slot_inj m m' : 0 ≤ m ≤ MAXFILE → 0 ≤ m' ≤ MAXFILE → m ≠ m' → dslot (vw s) D m ≠ 0 → dslot (vw s) D m ≠ dslot (vw s) D m'.
Proof using All. intros Hm Hm' Hne Hz E. apply Hne. by destruct (co_inj _ _ _ _ C c c D D m m' HD HD Hm Hm' E Hz). Qed.

(** The block is there already. *)
Lemma get_block_mapped :
  size_of b mod BSIZE ≠ 0 → ∃ x, get_block D n s = Ok (D, x) s ∧ got D x s.
Proof using All.
  intros Ho. pose proof block_div as (Hn0 & Hb & Hdm). exists (dslot (vw s) D n).
  assert (dslot (vw s) D n ≠ 0) as Hz.
  { rewrite dslot_block by lia. apply (co_map _ _ _ _ C c D t b n HD HA); lia. }
  assert (din_ind D ≠ 0 ↔ Z.of_nat NDIRECT ≤ n) as Hi.
  { rewrite (co_ind _ _ _ _ C c D t b HD HA), Hdm. change BSIZE with 1024 in *. unfold NDIRECT. lia. }
  split.
  - unfold get_block. destruct (n <? Z.of_nat NDIRECT) eqn:E; zbool.
    + rewrite (addr_direct n) by lia. rewrite xint_slot by lia. rewrite (proj2 (Z.eqb_neq _ _)) by done.
      rewrite bind_mret, (addr_direct n) by lia. by rewrite xint_slot by lia.
    + fold (din_ind D). rewrite <- (dslot_ind (vw s)), xint_slot, dslot_ind by done.
      rewrite (proj2 (Z.eqb_neq _ _)) by (by apply Hi). rewrite bind_mret. fold (din_ind D).
      rewrite <- (dslot_ind (vw s)), xint_slot by done.
      rewrite (bind_ok _ _ _ _ _ (rsect_ok s _ Hp (slot_small MAXFILE ltac:(done)))). rewrite dslot_ind.
      rewrite addr_ind by (lia || by apply Hi). rewrite (proj2 (Z.eqb_neq _ _)) by done. rewrite bind_mret.
      by rewrite addr_ind, xint_slot by (lia || by apply Hi).
  - assert (need (size_of b) = 0) as Hnd by (unfold need; by rewrite (proj2 (Z.eqb_neq _ _))).
    split; try done; [lia|apply C| | | | |].
    + intros m Hm. case_decide; [subst; by rewrite dslot_block|done].
    + left. by rewrite dslot_block in * by lia.
    + by left.
    + rewrite <- (dslot_ind (vw s)). apply slot_inj; try done; lia.
    + split_and!; [by apply (co_D _ _ _ _ C c)|done..].
Qed.

(** A new direct block. *)
Lemma get_block_direct :
  size_of b mod BSIZE = 0 → n < Z.of_nat NDIRECT → ∃ D1 x s1, get_block D n s = Ok (D1, x) s1 ∧ got D1 x s1.
Proof using All.
  intros Ho Hlt. pose proof block_div as (Hn0 & Hb & Hdm). pose proof (co_D _ _ _ _ C c D HD) as HDl.
  pose proof (co_fb _ _ _ _ C) as Hfb. pose proof nmeta_pos as Hp0.
  assert (need (size_of b) = 1) as Hnd.
  { unfold need. rewrite Ho. fold n. by rewrite (proj2 (Z.eqb_neq n _)) by lia. }
  assert (dslot (vw s) D n = 0) as Hz.
  { rewrite dslot_block by lia. pose proof (co_map _ _ _ _ C c D t b n HD HA ltac:(lia)) as Hm. 
    destruct (decide (daddr (vw s) D n = 0)) as [|Hne]; [done|]. apply Hm in Hne. lia. }
  assert (din_ind D = 0) as Hi0.
  { pose proof (co_ind _ _ _ _ C c D t b HD HA) as Hi. destruct (decide (din_ind D = 0)) as [|Hne]; [done|].
    apply Hi in Hne. rewrite Hdm in Hne. change BSIZE with 1024 in *. unfold NDIRECT in *. lia. }
  destruct (next_block_ok s ltac:(lia)) as (s1 & E1 & I1 & F1 & G1).
  assert (vw s1 = vw s) as Hv by (unfold vw; by rewrite I1).
  assert (0 ≤ freeblock s < 2 ^ 32) as Hf32 by (change FSSIZE with 4000 in *; lia).
  set (D1 := set_din_addr D n (freeblock s)). exists D1, (freeblock s), s1.
  assert (∀ m, 0 ≤ m ≤ Z.of_nat NDIRECT → din_addr D1 m = if decide (m = n) then freeblock s else din_addr D m) as HD1.
  { intros m Hm. apply din_addr_set; [done|lia|lia|done]. }
  assert (din_ind D1 = 0) as Hi1.
  { unfold din_ind. rewrite HD1, decide_False by lia. exact Hi0. }
  split.
  - unfold get_block. rewrite (proj2 (Z.ltb_lt _ _)) by lia. rewrite (addr_direct n) by lia. rewrite xint_slot, Hz by lia.
    change (0 =? 0) with true. cbn iota. erewrite bind_ok; [|rewrite (bind_ok _ _ _ _ _ E1); done].
    rewrite (xint_id (freeblock s)) by done. fold D1. rewrite HD1, decide_True by (done || lia). by rewrite xint_id.
  - destruct (set_din_addr_fields D n (freeblock s) HDl ltac:(lia)) as (? & ? & ? & ?).
    split; try done; rewrite ?Hv; try (done || lia).
    + unfold present in *. rewrite I1. exact Hp.
    + apply C.
    + intros m Hm. unfold daddr. rewrite Hi1, Hi0. destruct (m <? Z.of_nat NDIRECT) eqn:E; zbool; [by rewrite HD1 by lia|].
      by rewrite decide_False by lia.
    + right. rewrite dslot_block in Hz by lia. split; [lia|done].
Qed.

(** The view after one entry of the indirect block was set. *)
Lemma entry_addr D1 s1 k x :
  length D1 = 64%nat → din_ind D1 ≠ 0 → 0 ≤ x < 2 ^ 32 → Z.of_nat NDIRECT ≤ k < MAXFILE →
  length (vw s1 (din_ind D1)) = Z.to_nat BSIZE → ∀ V',
  V' (din_ind D1) = stl 4 (vw s1 (din_ind D1)) (Z.to_nat (4 * (k - Z.of_nat NDIRECT))) x →
  ∀ m, 0 ≤ m < MAXFILE → daddr V' D1 m = if decide (m = k) then x else daddr (vw s1) D1 m.
Proof using All.
  clear. intros HDl Hi Hx Hk Hl V' HV m Hm. unfold daddr. destruct (m <? Z.of_nat NDIRECT) eqn:E; zbool; [by rewrite decide_False by lia|].
  rewrite (proj2 (Z.eqb_neq _ _)), HV by done. change MAXFILE with 268 in *. change (Z.to_nat BSIZE) with 1024%nat in Hl.
  unfold NDIRECT in *. case_decide as Hd.
  - subst. apply ldl_stl_eq; [lia|]. by change (256 ^ Z.of_nat 4) with (2 ^ 32).
  - apply ldl_stl_ne. lia.
Qed.

(** A new block through the indirect block. *)
Lemma get_block_indirect :
  size_of b mod BSIZE = 0 → Z.of_nat NDIRECT < n → ∃ x s1, get_block D n s = Ok (D, x) s1 ∧ got D x s1.
Proof using All.
  intros Ho Hlt. pose proof block_div as (Hn0 & Hb & Hdm). pose proof (co_D _ _ _ _ C c D HD) as HDl.
  pose proof (co_fb _ _ _ _ C) as Hfb. pose proof nmeta_pos as Hp0.
  assert (need (size_of b) = 1) as Hnd.
  { unfold need. rewrite Ho. fold n. by rewrite (proj2 (Z.eqb_neq n _)) by lia. }
  assert (dslot (vw s) D n = 0) as Hz.
  { rewrite dslot_block by lia. pose proof (co_map _ _ _ _ C c D t b n HD HA ltac:(lia)) as Hm.
    destruct (decide (daddr (vw s) D n = 0)) as [|Hne]; [done|]. apply Hm in Hne. lia. }
  assert (din_ind D ≠ 0) as Hi.
  { apply (co_ind _ _ _ _ C c D t b HD HA). rewrite Hdm. change BSIZE with 1024 in *. unfold NDIRECT in *. lia. }
  destruct (next_block_ok s ltac:(lia)) as (s1 & E1 & I1 & F1 & G1).
  assert (vw s1 = vw s) as Hv by (unfold vw; by rewrite I1).
  assert (present s1) as Hp1 by (unfold present in *; by rewrite I1).
  assert (0 ≤ freeblock s < 2 ^ 32) as Hf32 by (change FSSIZE with 4000 in *; lia).
  set (k := Z.to_nat (4 * (n - Z.of_nat NDIRECT))).
  destruct (wsect_ok s1 (din_ind D) (stl 4 (vw s (din_ind D)) k (freeblock s)) Hp1) as (s2 & E2 & P2 & F2 & G2 & V2).
  pose proof (slot_small MAXFILE ltac:(done)) as Hsm. pose proof (xint_slot MAXFILE ltac:(done)) as Hxi. rewrite dslot_ind in Hsm, Hxi.
  exists (freeblock s), s2. split.
  - unfold get_block. rewrite (proj2 (Z.ltb_ge _ _)) by lia. fold (din_ind D). rewrite Hxi, (proj2 (Z.eqb_neq _ _)) by done.
    rewrite bind_mret. fold (din_ind D). rewrite Hxi, (bind_ok _ _ _ _ _ (rsect_ok s _ Hp Hsm)).
    rewrite addr_ind, Hz by (done || lia). change (0 =? 0) with true. cbn iota. fold k.
    erewrite bind_ok; [|rewrite (bind_ok _ _ _ _ _ E1), (xint_id (freeblock s)), (bind_ok _ _ _ _ _ E2) by done; done].
    rewrite ldl_stl_eq, xint_id; [done|done| |by change (256 ^ Z.of_nat 4) with (2 ^ 32)].
    rewrite (co_vlen _ _ _ _ C). change (Z.to_nat BSIZE) with 1024%nat. unfold k. change MAXFILE with 268 in *. unfold NDIRECT in *. lia.
  - pose proof (co_range _ _ _ _ C c D MAXFILE HD ltac:(done)) as Hr. rewrite dslot_ind in Hr. specialize (Hr Hi).
    split; try done; try lia.
    + intros y. rewrite V2, Hv. case_decide; rewrite ?length_stl; apply C.
    + intros y Hy. rewrite V2, decide_False, Hv by auto. done.
    + apply entry_addr; try done; [lia|apply C|]. by rewrite V2, decide_True.
    + right. rewrite dslot_block in Hz by lia. split; [lia|done].
Qed.

(** The first block through the indirect block, which is new as well. *)
Lemma get_block_first :
  size_of b mod BSIZE = 0 → n = Z.of_nat NDIRECT → ∃ D1 x s1, get_block D n s = Ok (D1, x) s1 ∧ got D1 x s1.
Proof using All.
  intros Ho Heq. pose proof block_div as (Hn0 & Hb & Hdm). pose proof (co_D _ _ _ _ C c D HD) as HDl.
  pose proof (co_fb _ _ _ _ C) as Hfb. pose proof nmeta_pos as Hp0.
  assert (need (size_of b) = 2) as Hnd.
  { unfold need. rewrite Ho. fold n. by rewrite (proj2 (Z.eqb_eq n _)). }
  assert (din_ind D = 0) as Hi0.
  { pose proof (co_ind _ _ _ _ C c D t b HD HA) as Hi. destruct (decide (din_ind D = 0)) as [|Hne]; [done|].
    apply Hi in Hne. lia. }
  assert (daddr (vw s) D n = 0) as Hz.
  { unfold daddr. rewrite (proj2 (Z.ltb_ge _ _)), Hi0 by lia. done. }
  destruct (next_block_ok s ltac:(lia)) as (s1 & E1 & I1 & F1 & G1).
  destruct (next_block_ok s1 ltac:(lia)) as (s2 & E2 & I2 & F2 & G2).
  assert (vw s1 = vw s ∧ vw s2 = vw s) as [Hv1 Hv] by (unfold vw; by rewrite I2, I1).
  assert (present s1 ∧ present s2) as [Hp1 Hp2] by (unfold present in *; by rewrite I2, I1).
  assert (0 ≤ freeblock s < 2 ^ 32 ∧ 0 ≤ freeblock s1 < 2 ^ 32) as [Hf32 Hf32'] by (change FSSIZE with 4000 in *; lia).
  set (D1 := set_din_addr D (Z.of_nat NDIRECT) (freeblock s)).
  assert (∀ m, 0 ≤ m ≤ Z.of_nat NDIRECT → din_addr D1 m = if decide (m = Z.of_nat NDIRECT) then freeblock s else din_addr D m) as HD1.
  { intros m Hm. apply din_addr_set; [done|lia|lia|done]. }
  assert (din_ind D1 = freeblock s) as Hi1.
  { unfold din_ind. rewrite HD1, decide_True by (done || lia). done. }
  assert (vw s (freeblock s) = zero_block) as Hz0 by (apply C; lia).
  destruct (wsect_ok s2 (freeblock s) (stl 4 zero_block 0 (freeblock s1)) Hp2) as (s3 & E3 & P3 & F3 & G3 & V3).
  exists D1, (freeblock s1), s3. rewrite Heq. split.
  - unfold get_block. rewrite (proj2 (Z.ltb_ge _ _)) by lia. fold (din_ind D). rewrite Hi0.
    change (xint 0 =? 0) with true. cbn iota. erewrite bind_ok; [|rewrite (bind_ok _ _ _ _ _ E1); done].
    rewrite (xint_id (freeblock s)) by done. fold D1. fold (din_ind D1). rewrite Hi1, (xint_id (freeblock s)) by done.
    rewrite (bind_ok _ _ _ _ _ (rsect_ok s1 (freeblock s) Hp1 ltac:(lia))), Hv1, Hz0. rewrite Z.sub_diag. change (Z.to_nat (4 * 0)) with 0%nat.
    change (ldl 4 zero_block 0 =? 0) with true. cbn iota.
    erewrite bind_ok; [|rewrite (bind_ok _ _ _ _ _ E2), (xint_id (freeblock s1)), (bind_ok _ _ _ _ _ E3) by done; done].
    rewrite ldl_stl_eq, xint_id; [done|done|vm_compute; lia|by change (256 ^ Z.of_nat 4) with (2 ^ 32)].
  - destruct (set_din_addr_fields D (Z.of_nat NDIRECT) (freeblock s) HDl ltac:(lia)) as (? & ? & ? & ?).
    split; try done; rewrite ?Hi1; try lia.
    + intros y. rewrite V3, Hv. case_decide; rewrite ?length_stl; [done|apply C].
    + intros y Hy. rewrite V3, decide_False, Hv; [done|]. apply Hy. lia.
    + intros m Hm. rewrite (entry_addr D1 s n (freeblock s1)); [|done|lia|done|lia|apply C| |done].
      2:{ rewrite Hi1, V3, decide_True, Hz0 by done. by rewrite Heq, Z.sub_diag. }
      case_decide; [done|]. unfold daddr. rewrite Hi0, Hi1. destruct (m <? Z.of_nat NDIRECT) eqn:E; zbool.
      * by rewrite HD1, decide_False by lia.
      * rewrite (proj2 (Z.eqb_neq _ _)) by lia. rewrite Hz0. apply ldl_replicate.
Qed.

Lemma get_block_ok : ∃ D1 x s1, get_block D n s = Ok (D1, x) s1 ∧ got D1 x s1.
Proof using All.
  destruct (decide (size_of b mod BSIZE = 0)) as [Ho|Ho].
  - destruct (Z.lt_trichotomy n (Z.of_nat NDIRECT)) as [Hlt|[Heq|Hgt]].
    + by apply get_block_direct.
    + by apply get_block_first.
    + destruct (get_block_indirect Ho Hgt) as (x & s1 & E & G). by exists D, x, s1.
  - destruct (get_block_mapped Ho) as (x & E & G). by exists D, x, s.
Qed.
End block.

(** ** iappend *)

(** A step keeps the boot, super, log, inode and bitmap sectors. *)
Definition meta_same (s s' : mkst) : Prop := ∀ y, y < nmeta → vw s' y = vw s y.

Lemma piece_ok s Ds A c D t b l :
  core (vw s) Ds A (freeblock s) → present s → Ds !! c = Some D → A !! c = Some (t, b) →
  (0 < length l)%nat → size_of b mod BSIZE + size_of l ≤ BSIZE → size_of b / BSIZE < MAXFILE →
  freeblock s + need (size_of b) ≤ FSSIZE →
  ∃ D' x s1 s', get_block D (size_of b / BSIZE) s = Ok (D', x) s1 ∧ rsect x s1 = Ok (vw s x) s1 ∧
    wsect x (splice (Z.to_nat (size_of b mod BSIZE)) l (vw s x)) s1 = Ok () s' ∧
    core (vw s') (<[c := D']> Ds) (<[c := (t, b ++ l)]> A) (freeblock s') ∧ present s' ∧ meta_same s s' ∧
    freeblock s' = freeblock s + need (size_of b) ∧ freeinode s' = freeinode s ∧ din_size D' = din_size D.
Proof.
  intros C Hp HD HA Hl Ho Hn Hcap.
  destruct (get_block_ok s Ds A c D t b C Hp HD HA Hn Hcap) as (D' & x & s1 & E1 & [G1 G2 G3 G4 G5 G6 G7 G8 G9 G10 G11]).
  assert (0 ≤ x < FSSIZE ∧ nmeta ≤ x) as [Hx Hxm].
  { pose proof (co_fb _ _ _ _ C). pose proof nmeta_pos. destruct G7 as [[Ex Hz]|[? _]]; [|lia].
    pose proof (append_div b) as (? & _ & _). pose proof (co_range _ _ _ _ C c D (size_of b / BSIZE) HD ltac:(lia)) as Hr.
    rewrite dslot_block, <- Ex in Hr by lia. specialize (Hr Hz). lia. }
  assert (vw s1 x = vw s x) as Hvx by (apply G5; auto).
  destruct (wsect_ok s1 x (splice (Z.to_nat (size_of b mod BSIZE)) l (vw s x)) G3) as (s' & E2 & P2 & F2 & I2 & V2).
  exists D', x, s1, s'. split; [done|]. split; [rewrite <- Hvx; by apply rsect_ok|]. split; [done|].
  pose proof (append_div b) as (Hn0 & Hb & Hdm). assert (length (vw s x) = Z.to_nat BSIZE) as Hlx by apply C.
  assert (0 < size_of l) as Hl0 by (unfold size_of; lia).
  assert (core (vw s') (<[c := D']> Ds) (<[c := (t, b ++ l)]> A) (freeblock s')) as C'.
  { eapply (core_append (vw s) (vw s') Ds A (freeblock s) (freeblock s') c D D' t b l x); try done.
    - rewrite F2, G1. unfold need in *. repeat case_match; lia.
    - intros y. rewrite V2. case_decide; [|done]. rewrite length_splice; [done|]. unfold size_of in *. lia.
    - intros y Hyx Hyi. rewrite V2, decide_False by done. apply G5. auto.
    - by rewrite V2, decide_True.
    - intros m Hm. rewrite <- G6 by done. apply daddr_frame. intros _. rewrite V2, decide_False; [done|]. by apply not_eq_sym.
    - by rewrite F2.
    - by rewrite F2.
    - rewrite G10. clear -Ho Hl0 Hdm Hb Hn0. generalize dependent (size_of b / BSIZE). generalize dependent (size_of b mod BSIZE).
      change BSIZE with 1024. unfold NDIRECT. lia.
    - apply G11.
    - destruct G11 as (_ & ? & ? & _). done. }
  split_and!; try done.
  - intros y Hy. rewrite V2, decide_False by lia. apply G5. intros Hi ->.
    pose proof (co_range _ _ _ _ C' c D' MAXFILE) as Hr. rewrite list_lookup_insert_eq, dslot_ind in Hr by (by eapply lookup_lt_Some).
    specialize (Hr eq_refl ltac:(done) Hi). lia.
  - lia.
  - congruence.
  - by destruct G11 as (_ & _ & _ & ?).
Qed.

Lemma blocks_mono a m : 0 ≤ a → 0 ≤ m → blocks a ≤ blocks (a + m).
Proof.
  intros Ha Hm. unfold blocks. pose proof (Z.div_le_mono (a + BSIZE - 1) (a + m + BSIZE - 1) BSIZE ltac:(done) ltac:(lia)).
  destruct (_ <? a) eqn:E1, (_ <? a + m) eqn:E2; zbool; lia.
Qed.

Lemma iappend_loop_ok fuel p s Ds A c D t b :
  core (vw s) Ds A (freeblock s) → present s → Ds !! c = Some D → A !! c = Some (t, b) → (length p < fuel)%nat →
  size_of b + size_of p ≤ MAXFILE * BSIZE →
  freeblock s + (blocks (size_of b + size_of p) - blocks (size_of b)) ≤ FSSIZE →
  ∃ D' s', iappend_loop fuel p D (size_of b) s = Ok (D', size_of b + size_of p) s' ∧
    core (vw s') (<[c := D']> Ds) (<[c := (t, b ++ p)]> A) (freeblock s') ∧ present s' ∧ meta_same s s' ∧
    freeblock s' = freeblock s + (blocks (size_of b + size_of p) - blocks (size_of b)) ∧
    freeinode s' = freeinode s ∧ din_size D' = din_size D.
Proof.
  revert p s Ds A D b. induction fuel as [|fuel IH]; intros p s Ds A D b C Hp HD HA Hf Hmax Hcap; [lia|].
  cbn [iappend_loop]. fold (size_of p). destruct (0 <? size_of p) eqn:E; zbool; cbn [negb].
  2:{ assert (p = []) as -> by (apply nil_length_inv; unfold size_of in *; lia). exists D, s.
      change (size_of []) with 0. rewrite Z.add_0_r, Z.sub_diag, app_nil_r, !list_insert_id by done. by split_and!; try lia. }
  pose proof (append_div b) as (Hn0 & Hb & Hdm). set (n := size_of b / BSIZE) in *. set (o := size_of b mod BSIZE) in *.
  assert (n < MAXFILE) as Hn by (apply Z.div_lt_upper_bound; [done|lia]).
  unfold assert_. rewrite (proj2 (Z.ltb_lt _ _)) by done. rewrite bind_mret.
  replace ((n + 1) * BSIZE - size_of b) with (BSIZE - o) by lia. replace (size_of b - n * BSIZE) with o by lia.
  set (m := Z.min (size_of p) (BSIZE - o)). assert (0 < m ≤ size_of p ∧ m ≤ BSIZE - o) as Hm by lia.
  set (l := take (Z.to_nat m) p). assert (size_of l = m) as Hlm by (unfold size_of, l in *; rewrite length_take; lia).
  assert (0 ≤ size_of b) as Hb0 by (unfold size_of; lia).
  pose proof (blocks_piece (size_of b) m Hb0 ltac:(fold o; lia)) as Hbp.
  assert (size_of (drop (Z.to_nat m) p) = size_of p - m) as Hdr by (unfold size_of in *; rewrite length_drop; lia).
  assert (size_of (b ++ l) = size_of b + m) as Hbl by (rewrite <- Hlm; unfold size_of; rewrite length_app; lia).
  pose proof (blocks_mono (size_of b + m) (size_of p - m) ltac:(lia) ltac:(lia)) as Hmono.
  replace (size_of b + m + (size_of p - m)) with (size_of b + size_of p) in Hmono by lia.
  destruct (piece_ok s Ds A c D t b l C Hp HD HA) as (D1 & x & s1 & s2 & E1 & E2 & E3 & C2 & P2 & M2 & F2 & I2 & S2).
  { unfold size_of in *. lia. } { fold o. lia. } { done. } { lia. }
  rewrite (bind_ok _ _ _ _ _ E1). cbn [fst snd]. rewrite (bind_ok _ _ _ _ _ E2), (bind_ok _ _ _ _ _ E3).
  rewrite u32_small by (assert (MAXFILE * BSIZE < 2 ^ 32) by done; lia). rewrite <- Hbl.
  destruct (IH (drop (Z.to_nat m) p) s2 (<[c := D1]> Ds) (<[c := (t, b ++ l)]> A) D1 (b ++ l))
    as (D' & s' & E4 & C4 & P4 & M4 & F4 & I4 & S4).
  - done.
  - done.
  - apply list_lookup_insert_eq. by eapply lookup_lt_Some.
  - apply list_lookup_insert_eq. by eapply lookup_lt_Some.
  - unfold size_of in *. rewrite length_drop. lia.
  - lia.
  - rewrite Hbl, Hdr, F2. replace (size_of b + m + (size_of p - m)) with (size_of b + size_of p) by lia. lia.
  - rewrite Hdr, Hbl in *. replace (size_of b + m + (size_of p - m)) with (size_of b + size_of p) in * by lia.
    exists D', s'. rewrite !list_insert_insert_eq, <- app_assoc in C4. unfold l in C4. rewrite take_drop in C4.
    split_and!; try done; [intros y Hy; by rewrite M4, M2|lia|congruence|congruence].
Qed.

(** ** Inodes in their sectors *)

Lemma slice_splice o l d : (o + length l ≤ length d)%nat → slice o (length l) (splice o l d) = l.
Proof.
  intros H. unfold slice, splice. rewrite drop_app_length' by (rewrite length_take; lia). apply take_app_length.
Qed.
Lemma slice_splice_ne o l d o' n :
  (o + length l ≤ length d)%nat → (o' + n ≤ o ∨ o + length l ≤ o')%nat → slice o' n (splice o l d) = slice o' n d.
Proof.
  intros H Hd. apply list_eq. intros k. unfold slice. destruct (decide (k < n)%nat) as [Hk|Hk].
  2:{ by rewrite !lookup_take_ge by lia. }
  rewrite !lookup_take_lt, !lookup_drop by done. unfold splice. destruct Hd.
  - by rewrite lookup_app_l, lookup_take_lt by (rewrite ?length_take; lia).
  - rewrite lookup_app_r, lookup_app_r, lookup_drop by (rewrite ?length_take; lia). f_equal. rewrite length_take. lia.
Qed.

Definition inum_ok (inum : Z) : Prop := 0 ≤ inum < ninodeblocks * IPB.
Lemma iblock_range inum : inum_ok inum → IBLOCK inum the_sb = inum / IPB + 32 ∧ 32 ≤ IBLOCK inum the_sb < nmeta.
Proof.
  unfold inum_ok. change ninodeblocks with 13. intros Hi. change IPB with 16 in *.
  assert (0 ≤ inum / 16 < 13) as Hd by (split; [apply Z.div_pos; lia|apply Z.div_lt_upper_bound; lia]).
  unfold IBLOCK. change IPB with 16. change (sb_inodestart the_sb) with 32. change nmeta with 46.
  rewrite u32_small by lia. lia.
Qed.
Lemma inode_of (s : mkst) inum (d : list Z) : length d = Z.to_nat BSIZE → length (slice (dip inum) 64 d) = 64%nat.
Proof. intros Hd. unfold slice. rewrite length_take, length_drop. pose proof (dip_bound inum). lia. Qed.
Definition inode_at (s : mkst) (inum : Z) : list Z := slice (dip inum) 64 (vw s (IBLOCK inum the_sb)).

Lemma winode_ok s inum D :
  present s → inum_ok inum → length D = 64%nat → (∀ y, length (vw s y) = Z.to_nat BSIZE) →
  ∃ s', winode inum D s = Ok () s' ∧ present s' ∧ freeblock s' = freeblock s ∧ freeinode s' = freeinode s ∧
    (∀ y, length (vw s' y) = Z.to_nat BSIZE) ∧ (∀ y, nmeta ≤ y → vw s' y = vw s y) ∧
    (∀ y, (y < 32 ∨ 45 ≤ y) → vw s' y = vw s y) ∧
    ∀ k, inum_ok k → inode_at s' k = if decide (k = inum) then D else inode_at s k.
Proof.
  intros Hp Hi HD Hl. destruct (iblock_range inum Hi) as [Eb Hb]. change nmeta with 46 in *.
  pose proof (dip_bound inum) as Hdb. set (bn := IBLOCK inum the_sb) in *.
  assert (dip inum + length D ≤ length (vw s bn))%nat as Hfit by (rewrite Hl, HD; lia).
  destruct (wsect_ok s bn (splice (dip inum) D (vw s bn)) Hp) as (s' & E & P & F & I & V). exists s'.
  split.
  { unfold winode. fold bn. change FSSIZE with 4000 in *. by rewrite (bind_ok _ _ _ _ _ (rsect_ok s bn Hp ltac:(change FSSIZE with 4000; lia))). }
  assert (bn < 45) as Hb45.
  { rewrite Eb. unfold inum_ok in Hi. change (ninodeblocks * IPB) with 208 in Hi. change IPB with 16.
    pose proof (Z.div_lt_upper_bound inum 16 13). lia. }
  split_and!; try done.
  - intros y. rewrite V. case_decide; [|done]. by rewrite length_splice.
  - intros y Hy. by rewrite V, decide_False by lia.
  - intros y Hy. by rewrite V, decide_False by lia.
  - intros k Hk. unfold inode_at. rewrite V. destruct (iblock_range k Hk) as [Ek _]. fold bn.
    destruct (decide (k = inum)) as [->|Hne].
    + fold bn. rewrite decide_True by done. rewrite <- HD. by apply slice_splice.
    + case_decide as Hd; [|done]. rewrite Hd. apply slice_splice_ne; [done|]. rewrite HD.
      assert (k mod IPB ≠ inum mod IPB) as Hm.
      { intros Em. apply Hne. rewrite (Z.div_mod k IPB), (Z.div_mod inum IPB), Em by done. rewrite Hd in Ek. f_equal. f_equal. lia. }
      destruct (dip_sep k inum Hm); lia.
Qed.

(** ** The image represents a list of files *)

Definition inodes (s : mkst) (n : nat) : list (list Z) := (λ i, inode_at s (1 + Z.of_nat i)) <$> seq 0 n.
Fixpoint total (A : filemap) : Z := match A with [] => 0 | (_, b) :: A => blocks (size_of b) + total A end.
Record rep (s : mkst) (A : filemap) : Prop := {
  rp_present : present s;
  rp_free : freeinode s = 1 + Z.of_nat (length A);
  rp_max : freeinode s ≤ NINODES;
  rp_core : core (vw s) (inodes s (length A)) A (freeblock s);
  rp_size i t b : A !! i = Some (t, b) → din_size (inode_at s (1 + Z.of_nat i)) = size_of b;
  rp_count : freeblock s = nmeta + total A;
  rp_unused k : freeinode s ≤ k → inum_ok k → inode_at s k = replicate 64 0;
}.

Lemma lookup_inodes s n i : (i < n)%nat → inodes s n !! i = Some (inode_at s (1 + Z.of_nat i)).
Proof. intros Hi. unfold inodes. rewrite list_lookup_fmap, lookup_seq_lt by done. done. Qed.
Lemma lookup_inodes_inv s n i D : inodes s n !! i = Some D → (i < n)%nat ∧ D = inode_at s (1 + Z.of_nat i).
Proof.
  intros HD. assert (i < n)%nat as Hi by (apply lookup_lt_Some in HD; unfold inodes in HD; rewrite length_fmap, length_seq in HD; done).
  rewrite lookup_inodes in HD by done. by injection HD as <-.
Qed.
Lemma length_inodes s n : length (inodes s n) = n.
Proof. unfold inodes. by rewrite length_fmap, length_seq. Qed.

(** Two inodes with the same addresses, type and links. *)
Definition same_node (D D' : list Z) : Prop :=
  length D' = 64%nat ∧ ldl 2 D' 0 = ldl 2 D 0 ∧ ldl 2 D' 6 = ldl 2 D 6 ∧
  ∀ k, 0 ≤ k ≤ Z.of_nat NDIRECT → din_addr D' k = din_addr D k.
Lemma same_node_refl D : length D = 64%nat → same_node D D.
Proof. done. Qed.
Lemma set_size_same D v : length D = 64%nat → same_node D (set_din_size D v).
Proof.
  intros Hl. unfold same_node, set_din_size, din_addr, NDIRECT. rewrite length_stl. split; [done|].
  rewrite !ldl_stl_ne by lia. split_and!; [done..|]. intros k Hk. rewrite ldl_stl_ne by lia. done.
Qed.

Section ext.
Context (V V' : Z → list Z) (D D' : list Z) (Hs : same_node D D').
Context (HV : din_ind D ≠ 0 → V' (din_ind D) = V (din_ind D)).
Lemma ext_ind : din_ind D' = din_ind D.
Proof using Hs. destruct Hs as (_ & _ & _ & Ha). apply Ha. lia. Qed.
Lemma ext_daddr n : 0 ≤ n → daddr V' D' n = daddr V D n.
Proof using HV Hs.
  intros Hn. unfold daddr. rewrite ext_ind. destruct (n <? Z.of_nat NDIRECT) eqn:E; zbool.
  - destruct Hs as (_ & _ & _ & Ha). apply Ha. lia.
  - destruct (din_ind D =? 0) eqn:E'; [done|]. zbool. by rewrite HV.
Qed.
Lemma ext_dslot n : 0 ≤ n → dslot V' D' n = dslot V D n.
Proof using HV Hs. intros Hn. unfold dslot. destruct (n =? MAXFILE); [apply ext_ind|by apply ext_daddr]. Qed.
End ext.

Lemma core_ext V V' Ds Ds' A fb :
  core V Ds A fb → (∀ y, nmeta ≤ y → V' y = V y) → (∀ y, length (V' y) = Z.to_nat BSIZE) → length Ds' = length Ds →
  (∀ i D', Ds' !! i = Some D' → ∃ D, Ds !! i = Some D ∧ same_node D D') → core V' Ds' A fb.
Proof.
  intros C HV Hl Hlen Hn. pose proof (co_fb _ _ _ _ C) as Hfb.
  assert (∀ i D, Ds !! i = Some D → din_ind D ≠ 0 → V' (din_ind D) = V (din_ind D)) as Hi.
  { intros i D HD Hz. apply HV. pose proof (co_range _ _ _ _ C i D MAXFILE HD ltac:(done)) as Hr. rewrite dslot_ind in Hr. by apply Hr. }
  split.
  - by rewrite Hlen, (co_len _ _ _ _ C).
  - done.
  - done.
  - intros sec Hs. rewrite HV by lia. by apply C.
  - intros i D' HD'. destruct (Hn i D' HD') as (D & _ & (? & _)). done.
  - intros i D' t b HD' HA. destruct (Hn i D' HD') as (D & HD & (_ & -> & -> & _)). by apply (co_type _ _ _ _ C i D t b).
  - apply C.
  - intros i D' t b n HD' HA Hr. destruct (Hn i D' HD') as (D & HD & Hs). rewrite (ext_daddr V V' D D') by (eauto || lia).
    by apply (co_map _ _ _ _ C i D t b).
  - intros i D' t b HD' HA. destruct (Hn i D' HD') as (D & HD & Hs). rewrite (ext_ind D D' Hs). by apply (co_ind _ _ _ _ C i D t b).
  - intros i D' n HD' Hr. destruct (Hn i D' HD') as (D & HD & Hs). rewrite (ext_dslot V V' D D') by (eauto || lia).
    by apply (co_range _ _ _ _ C i D).
  - intros i j D1' D2' m n H1 H2 Hm Hn'. destruct (Hn i D1' H1) as (D1 & HD1 & Hs1). destruct (Hn j D2' H2) as (D2 & HD2 & Hs2).
    rewrite (ext_dslot V V' D1 D1'), (ext_dslot V V' D2 D2') by (eauto || lia). by apply C.
  - intros i D' t b k HD' HA Hk0 Hk. destruct (Hn i D' HD') as (D & HD & Hs). pose proof (co_max _ _ _ _ C i t b HA).
    assert (0 ≤ k / BSIZE < MAXFILE) as Hb by (split; [by apply Z.div_pos|apply (Z.mul_lt_mono_pos_r BSIZE); [done|lia]]).
    assert (daddr V D (k / BSIZE) ≠ 0) as Hz by (by apply (co_map _ _ _ _ C i D t b)).
    rewrite (ext_daddr V V' D D') by (eauto || lia). rewrite HV; [by apply (co_byte _ _ _ _ C i D t b)|].
    pose proof (co_range _ _ _ _ C i D (k / BSIZE) HD ltac:(lia)) as Hr. rewrite dslot_block in Hr by lia. by apply Hr.
Qed.
