(* ===== verification/MkfsImage.v ===== *)
(** * mkfs/mkfs.c: the operations refine a list of files

    [rep s A] says that the image of [s] represents the files [A].  [ialloc]
    adds an empty file and [iappend] extends one; so [main] builds the root
    directory and the files of its arguments.  *)

From S2P Require Import Prelude Bytes Riscv Kstate CString Bio Printf Fs FsPath Mkfs MkfsProps.

Lemma rep_inum s A i : rep s A → (i < length A)%nat → inum_ok (1 + Z.of_nat i).
Proof.
  intros R Hi. pose proof (rp_free _ _ R). pose proof (rp_max _ _ R). unfold inum_ok.
  change (ninodeblocks * IPB) with 208. change NINODES with 200 in *. lia.
Qed.

Lemma din_size_set D v : length D = 64%nat → 0 ≤ v < 2 ^ 32 → din_size (set_din_size D (xint v)) = v.
Proof.
  intros Hl Hv. rewrite xint_id by done. unfold din_size, set_din_size. apply ldl_stl_eq; [lia|].
  by change (256 ^ Z.of_nat 4) with (2 ^ 32).
Qed.

Lemma rinode_ok s inum : present s → inum_ok inum → rinode inum s = Ok (inode_at s inum) s.
Proof.
  intros Hp Hi. destruct (iblock_range inum Hi) as [_ Hb]. unfold rinode. cbv zeta.
  rewrite (bind_ok _ _ _ _ _ (rsect_ok s (IBLOCK inum the_sb) Hp ltac:(change FSSIZE with 4000; change nmeta with 46 in Hb; lia))). done.
Qed.

(** The files after an operation on inode [i], from the state before the inode
    is written back. *)
Lemma rep_winode s A A' i D t b s1 D1 s' :
  rep s A → (i < length A)%nat → length A' = length A → present s1 → freeinode s1 = freeinode s → meta_same s s1 →
  A' !! i = Some (t, b) → (∀ j, j ≠ i → A' !! j = A !! j) →
  core (vw s1) (<[i := D1]> (inodes s (length A))) A' (freeblock s1) → D = set_din_size D1 (xint (size_of b)) →
  freeblock s1 = nmeta + total A' →
  winode (1 + Z.of_nat i) D s1 = Ok () s' → rep s' A'.
Proof.
  intros R Hi HlA P1 I1 M1 HA' Ho C1 -> Hcnt E. pose proof (rep_inum s A i R Hi) as Hin.
  assert (<[i := D1]> (inodes s (length A)) !! i = Some D1) as HD1 by (apply list_lookup_insert_eq; by rewrite length_inodes).
  pose proof (co_D _ _ _ _ C1 i D1 HD1) as Hl1.
  destruct (winode_ok s1 (1 + Z.of_nat i) (set_din_size D1 (xint (size_of b))) P1 Hin) as (s2 & E2 & P2 & F2 & I2 & L2 & N2 & _ & A2);
    [unfold set_din_size; by rewrite length_stl|apply C1|].
  rewrite E in E2. injection E2 as <-.
  assert (0 ≤ size_of b < 2 ^ 32) as Hsz.
  { pose proof (co_max _ _ _ _ C1 i t b HA'). assert (MAXFILE * BSIZE < 2 ^ 32) by done. unfold size_of in *. lia. }
  assert (∀ j, (j < length A)%nat → inode_at s1 (1 + Z.of_nat j) = inode_at s (1 + Z.of_nat j)) as Hsame.
  { intros j Hj. unfold inode_at. rewrite M1; [done|]. apply (iblock_range _ (rep_inum s A j R Hj)). }
  split.
  - done.
  - rewrite I2, I1, HlA. apply R.
  - rewrite I2, I1. apply R.
  - rewrite F2. eapply core_ext; [exact C1|done|done|by rewrite length_inodes, length_insert, length_inodes|].
    intros j D' [Hj ->]%lookup_inodes_inv. rewrite HlA in Hj. rewrite A2 by (by eapply rep_inum).
    destruct (decide (j = i)) as [->|Hne].
    + rewrite decide_True by done. exists D1. split; [done|]. by apply set_size_same.
    + rewrite decide_False by lia. rewrite list_lookup_insert_ne, lookup_inodes by done. eexists. split; [done|].
      rewrite Hsame by done. apply same_node_refl. apply (co_D _ _ _ _ (rp_core _ _ R) j). by apply lookup_inodes.
  - intros j t' b' Hj. assert (j < length A)%nat as Hjl by (rewrite <- HlA; by eapply lookup_lt_Some).
    rewrite A2 by (by eapply rep_inum). destruct (decide (j = i)) as [->|Hne].
    + rewrite decide_True by done. rewrite HA' in Hj. injection Hj as <- <-. by apply din_size_set.
    + rewrite decide_False by lia. rewrite Hsame by done. rewrite Ho in Hj by done. by apply (rp_size _ _ R j t').
  - by rewrite F2.
  - intros k Hk Hok. rewrite I2, I1, (rp_free _ _ R) in Hk. rewrite A2, decide_False by (done || lia).
    unfold inode_at. rewrite M1 by (apply (iblock_range _ Hok)). apply (rp_unused _ _ R); [rewrite (rp_free _ _ R); lia|done].
Qed.

(** The blocks in use. *)
Lemma blocks_nonneg z : 0 ≤ z → 0 ≤ blocks z.
Proof. intros Hz. unfold blocks. pose proof (Z.div_pos (z + BSIZE - 1) BSIZE ltac:(change BSIZE with 1024; lia) ltac:(done)). case_match; lia. Qed.
Lemma total_insert A i t b t' b' :
  A !! i = Some (t, b) → total (<[i := (t', b')]> A) = total A - blocks (size_of b) + blocks (size_of b').
Proof.
  revert i. induction A as [|[u d] A IH]; intros [|i]; [done..| |].
  - intros [= -> ->]. cbn. lia.
  - intros HA. change (blocks (size_of d) + total (<[i := (t', b')]> A) = blocks (size_of d) + total A - blocks (size_of b) + blocks (size_of b')).
    rewrite (IH i HA). lia.
Qed.
Lemma total_app A B : total (A ++ B) = total A + total B.
Proof. induction A as [|[u d] A IH]; [done|]. cbn. rewrite IH. lia. Qed.

(** The sectors before the inodes, and the bitmap, are as before. *)
Definition low_same (s s' : mkst) : Prop := ∀ y, y < 32 ∨ y = 45 → vw s' y = vw s y.
#[export] Instance low_same_preorder : PreOrder low_same.
Proof. split; [done|]. intros s s1 s2 H1 H2 y Hy. by rewrite H2, H1. Qed.

(** Bytes appended to a file. *)
Lemma iappend_ok s A i t b p :
  rep s A → A !! i = Some (t, b) → size_of b + size_of p ≤ MAXFILE * BSIZE →
  nmeta + total (<[i := (t, b ++ p)]> A) ≤ FSSIZE →
  ∃ s', iappend (1 + Z.of_nat i) p s = Ok () s' ∧ low_same s s' ∧ rep s' (<[i := (t, b ++ p)]> A).
Proof.
  intros R HA Hmax Hcap. pose proof (total_insert A i t b t (b ++ p) HA) as Htot. pose proof (rp_count _ _ R) as Hcnt.
  assert (size_of (b ++ p) = size_of b + size_of p) as Hbp by (unfold size_of; rewrite length_app; lia). rewrite Hbp in Htot.
  assert (i < length A)%nat as Hi by (by eapply lookup_lt_Some).
  pose proof (rep_inum s A i R Hi) as Hin. pose proof (lookup_inodes s (length A) i Hi) as HD.
  assert (0 ≤ size_of b ∧ size_of b + size_of p < 2 ^ 32) as [Hb0 Hb].
  { assert (MAXFILE * BSIZE < 2 ^ 32) by done. unfold size_of in *. lia. }
  assert (0 ≤ size_of p) as Hp0 by (unfold size_of; lia).
  destruct (iappend_loop_ok (S (length p)) p s _ A i _ t b (rp_core _ _ R) (rp_present _ _ R) HD HA ltac:(lia) Hmax ltac:(lia))
    as (D' & s1 & E1 & C1 & P1 & M1 & F1 & I1 & S1).
  destruct (winode_ok s1 (1 + Z.of_nat i) (set_din_size D' (xint (size_of b + size_of p))) P1 Hin) as (s2 & E2 & _ & _ & _ & _ & _ & N2 & _).
  { unfold set_din_size. rewrite length_stl. apply (co_D _ _ _ _ C1 i). apply list_lookup_insert_eq. by rewrite length_inodes. }
  { apply C1. }
  exists s2. split_and!.
  - unfold iappend. rewrite (bind_ok _ _ _ _ _ (rinode_ok s _ (rp_present _ _ R) Hin)). cbv zeta.
    rewrite (rp_size _ _ R i t b HA), (xint_id (size_of b)) by lia. rewrite (bind_ok _ _ _ _ _ E1). done.
  - intros y Hy. rewrite N2, M1; [done|change nmeta with 46; lia|lia].
  - apply (rep_winode s A _ i (set_din_size D' (xint (size_of b + size_of p))) t (b ++ p) s1 D'); try done.
    + by rewrite length_insert.
    + by apply list_lookup_insert_eq.
    + intros j Hj. by apply list_lookup_insert_ne.
    + by rewrite Hbp.
    + lia.
Qed.

(** ** ialloc *)

Lemma new_dinode_ok t :
  type_ok t → length (new_dinode t) = 64%nat ∧ ldl 2 (new_dinode t) 0 = t ∧ ldl 2 (new_dinode t) 6 = 1 ∧
    din_size (new_dinode t) = 0 ∧ ∀ k, 0 ≤ k ≤ Z.of_nat NDIRECT → din_addr (new_dinode t) k = 0.
Proof.
  intros Ht. split_and!; try (by destruct Ht as [->| ->]). intros k Hk. unfold new_dinode, din_addr, set_din_size.
  rewrite !ldl_stl_ne by lia. apply ldl_replicate.
Qed.
Lemma new_slot t V n : type_ok t → 0 ≤ n → dslot V (new_dinode t) n = 0 ∧ daddr V (new_dinode t) n = 0.
Proof.
  intros Ht Hn. destruct (new_dinode_ok t Ht) as (_ & _ & _ & _ & Ha).
  assert (din_ind (new_dinode t) = 0) as Hi by (apply Ha; lia).
  assert (daddr V (new_dinode t) n = 0) as Hd.
  { unfold daddr. rewrite Hi. destruct (n <? Z.of_nat NDIRECT) eqn:E; zbool; [apply Ha; lia|done]. }
  split; [|done]. unfold dslot. by destruct (n =? MAXFILE).
Qed.
Lemma lookup_snoc_case {X} (l : list X) x i y :
  (l ++ [x]) !! i = Some y → l !! i = Some y ∨ (i = length l ∧ y = x).
Proof. intros [?|[? [? Hi]%list_lookup_singleton_Some]]%lookup_app_Some; [by left|right]. split; [lia|done]. Qed.

Lemma core_new V Ds A fb t : type_ok t → core V Ds A fb → core V (Ds ++ [new_dinode t]) (A ++ [(t, [])]) fb.
Proof.
  intros Ht C. pose proof (co_len _ _ _ _ C) as Hlen. destruct (new_dinode_ok t Ht) as (L & N1 & N2 & _ & Ha).
  assert (∀ i D t' b, (Ds ++ [new_dinode t]) !! i = Some D → (A ++ [(t, [])]) !! i = Some (t', b) →
    (Ds !! i = Some D ∧ A !! i = Some (t', b)) ∨ (D = new_dinode t ∧ t' = t ∧ b = [])) as Hc.
  { intros i D t' b [HD|[-> ->]]%lookup_snoc_case [HA|[Hi [= -> ->]]]%lookup_snoc_case; [by left| | |by right].
    - apply lookup_lt_Some in HD. lia.
    - apply lookup_lt_Some in HA. lia. }
  split; try apply C.
  - rewrite !length_app, Hlen. done.
  - intros i D [HD|[_ ->]]%lookup_snoc_case; [by apply (co_D _ _ _ _ C i)|done].
  - intros i D t' b HD HA. destruct (Hc i D t' b HD HA) as [[? ?]|(-> & -> & ->)]; [by apply (co_type _ _ _ _ C i D t' b)|done].
  - intros i t' b [HA|[_ [= -> ->]]]%lookup_snoc_case; [by apply (co_max _ _ _ _ C i t')|done].
  - intros i D t' b n HD HA Hn. destruct (Hc i D t' b HD HA) as [[? ?]|(-> & -> & ->)]; [by apply (co_map _ _ _ _ C i D t' b)|].
    rewrite (proj2 (new_slot t V n Ht ltac:(lia))). change (size_of []) with 0. change BSIZE with 1024. lia.
  - intros i D t' b HD HA. destruct (Hc i D t' b HD HA) as [[? ?]|(-> & -> & ->)]; [by apply (co_ind _ _ _ _ C i D t' b)|].
    unfold din_ind. rewrite Ha by lia. change (size_of []) with 0. change BSIZE with 1024. unfold NDIRECT. lia.
  - intros i D n [HD|[_ ->]]%lookup_snoc_case Hn; [by apply (co_range _ _ _ _ C i D)|].
    by rewrite (proj1 (new_slot t V n Ht ltac:(lia))).
  - intros i j D D' m n [HD|[-> ->]]%lookup_snoc_case [HD'|[-> ->]]%lookup_snoc_case Hm Hn.
    + by apply C.
    + rewrite (proj1 (new_slot t V n Ht ltac:(lia))). by intros ->.
    + by rewrite (proj1 (new_slot t V m Ht ltac:(lia))).
    + by rewrite (proj1 (new_slot t V m Ht ltac:(lia))).
  - intros i D t' b k HD HA Hk0 Hk. destruct (Hc i D t' b HD HA) as [[? ?]|(-> & -> & ->)]; [by apply (co_byte _ _ _ _ C i D t' b)|].
    change (size_of []) with 0 in Hk. pose proof (Z.div_pos k BSIZE Hk0 ltac:(done)). change BSIZE with 1024 in *. lia.
Qed.

Lemma ialloc_ok s A t :
  rep s A → type_ok t → freeinode s < NINODES →
  ∃ s', ialloc t s = Ok (1 + Z.of_nat (length A)) s' ∧ low_same s s' ∧ rep s' (A ++ [(t, [])]).
Proof.
  intros R Ht Hlt. destruct (new_dinode_ok t Ht) as (L & N1 & N2 & N3 & Ha). pose proof (rp_free _ _ R) as Hf.
  set (s1 := mk_mkst (image s) (u32 (freeinode s + 1)) (freeblock s)).
  assert (freeinode s1 = freeinode s + 1) as Hf1 by (apply u32_small; change NINODES with 200 in *; lia).
  assert (inum_ok (freeinode s)) as Hin.
  { unfold inum_ok. change (ninodeblocks * IPB) with 208. change NINODES with 200 in *. lia. }
  destruct (winode_ok s1 (freeinode s) (new_dinode t)) as (s2 & E2 & P2 & F2 & I2 & L2 & N4 & N5 & A2);
    [apply R|done|done|apply (rp_core _ _ R)|].
  assert (∀ j, (j < length A)%nat → inode_at s2 (1 + Z.of_nat j) = inode_at s (1 + Z.of_nat j)) as Hsame.
  { intros j Hj. rewrite A2 by (by eapply rep_inum). by rewrite decide_False by lia. }
  assert (inode_at s2 (1 + Z.of_nat (length A)) = new_dinode t) as Hnew.
  { rewrite <- Hf, A2 by done. by rewrite decide_True. }
  exists s2. rewrite <- Hf. split_and!.
  - unfold ialloc, next_inode. rewrite bind_gets2, bind_modify2, bind_mret. fold s1. by rewrite (bind_ok _ _ _ _ _ E2).
  - intros y Hy. rewrite N5; [done|lia].
  - split.
    + done.
    + rewrite I2, Hf1, length_app, Hf. cbn. lia.
    + rewrite I2, Hf1. lia.
    + assert (inodes s2 (length (A ++ [(t, [])])) = inodes s (length A) ++ [new_dinode t]) as ->.
      { rewrite length_app, Nat.add_1_r. unfold inodes. rewrite seq_S, fmap_app.
        change (_ <$> [(0 + length A)%nat]) with [inode_at s2 (1 + Z.of_nat (length A))]. rewrite Hnew. f_equal.
        apply list_fmap_ext. intros k j Hj. apply lookup_seq in Hj as [-> Hj]. apply Hsame. lia. }
      rewrite F2. apply core_new; [done|]. eapply core_ext; [apply R|done|done|done|].
      intros i D HD. exists D. split; [done|]. apply same_node_refl. by apply (co_D _ _ _ _ (rp_core _ _ R) i).
    + intros i t' b [HA|[-> [= -> ->]]]%lookup_snoc_case; [|by rewrite Hnew].
      rewrite Hsame by (by eapply lookup_lt_Some). by apply (rp_size _ _ R i t').
    + rewrite F2, total_app. change (freeblock s1) with (freeblock s). rewrite (rp_count _ _ R).
      change (total [(t, [])]) with 0. lia.
    + intros k Hk Hok. rewrite I2, Hf1 in Hk. rewrite A2, decide_False by (done || lia). apply (rp_unused _ _ R); [lia|done].
Qed.

(** ** Programs that build files *)

Definition grows (A A' : filemap) : Prop :=
  (length A ≤ length A')%nat ∧ ∀ i t b, A !! i = Some (t, b) → ∃ b', A' !! i = Some (t, b ++ b').
(** There is room for the files. *)
Definition fits (A : filemap) : Prop :=
  nmeta + total A ≤ FSSIZE ∧ Z.of_nat (length A) < NINODES ∧ ∀ i t b, A !! i = Some (t, b) → size_of b ≤ MAXFILE * BSIZE.

#[export] Instance grows_preorder : PreOrder grows.
Proof.
  split.
  - intros A. split; [done|]. intros i t b H. exists []. by rewrite app_nil_r.
  - intros A B C [L1 H1] [L2 H2]. split; [lia|]. intros i t b H. destruct (H1 i t b H) as [b1 E1].
    destruct (H2 i t _ E1) as [b2 E2]. exists (b1 ++ b2). by rewrite app_assoc.
Qed.
Lemma grows_total A A' : grows A A' → total A ≤ total A'.
Proof.
  revert A'. induction A as [|[t b] A IH]; intros A' [Hl H].
  { cbn. clear. induction A' as [|[t b] A' IH]; [done|]. cbn. pose proof (blocks_nonneg (size_of b) ltac:(unfold size_of; lia)). lia. }
  destruct A' as [|[t' b'] A']; [cbn in Hl; lia|]. destruct (H 0%nat t b eq_refl) as [b2 [= -> ->]]. cbn.
  assert (grows A A') as HG.
  { split; [cbn in Hl; lia|]. intros i u d Hi. by apply (H (S i)). }
  pose proof (IH A' HG). pose proof (blocks_mono (size_of b) (size_of b2) ltac:(unfold size_of; lia) ltac:(unfold size_of; lia)).
  assert (size_of (b ++ b2) = size_of b + size_of b2) as -> by (unfold size_of; rewrite length_app; lia). lia.
Qed.
Lemma fits_mono A A' : grows A A' → fits A' → fits A.
Proof.
  intros G (H1 & H2 & H3). pose proof (grows_total A A' G). destruct G as [Gl G]. split_and!; [lia|lia|].
  intros i t b Hi. destruct (G i t b Hi) as [b' Hb']. pose proof (H3 i t _ Hb') as Hs. unfold size_of in *. rewrite length_app in Hs. lia.
Qed.

(** From files [A] the program returns [v] with files [A'], given room. *)
Definition builds {X} (m : H X) (A : filemap) (v : X) (A' : filemap) : Prop :=
  grows A A' ∧ ∀ s, rep s A → fits A' → ∃ s', m s = Ok v s' ∧ low_same s s' ∧ rep s' A'.

Lemma builds_ret {X} (v : X) A : builds (mret v) A v A.
Proof. split; [done|]. intros s R _. by exists s. Qed.
Lemma builds_bind {X Y} (m : H X) (k : X → H Y) A v A1 w A2 :
  builds m A v A1 → builds (k v) A1 w A2 → builds (m ≫= k) A w A2.
Proof.
  intros [G1 B1] [G2 B2]. split; [by etrans|]. intros s R Hf.
  destruct (B1 s R (fits_mono _ _ G2 Hf)) as (s1 & E1 & L1 & R1). destruct (B2 s1 R1 Hf) as (s2 & E2 & L2 & R2).
  exists s2. rewrite (bind_ok _ _ _ _ _ E1). split_and!; [done|by etrans|done].
Qed.

Definition add_bytes (p : list Z) (x : Z * list Z) : Z * list Z := (x.1, x.2 ++ p).
(** Bytes appended to inode [inum]. *)
Definition append (inum : Z) (p : list Z) (A : filemap) : filemap := alter (add_bytes p) (Z.to_nat (inum - 1)) A.
Definition has_inode (A : filemap) (inum : Z) : Prop := 1 ≤ inum ≤ Z.of_nat (length A).

Lemma length_append inum p A : length (append inum p A) = length A.
Proof. apply length_alter. Qed.
Lemma builds_iappend A inum p : has_inode A inum → builds (iappend inum p) A () (append inum p A).
Proof.
  intros Hi. unfold has_inode in Hi. assert (∃ i, inum = 1 + Z.of_nat i) as [i ->] by (exists (Z.to_nat (inum - 1)); lia).
  destruct (lookup_lt_is_Some_2 A i) as [[t b] HA]; [lia|].
  assert (append (1 + Z.of_nat i) p A = <[i := (t, b ++ p)]> A) as Ea.
  { unfold append. replace (Z.to_nat _) with i by lia. by rewrite (list_alter_insert _ A i (t, b) HA). }
  rewrite Ea. split.
  - split; [by rewrite length_insert|]. intros j u d Hj. destruct (decide (j = i)) as [->|Hne].
    + rewrite HA in Hj. injection Hj as <- <-. exists p. apply list_lookup_insert_eq. by eapply lookup_lt_Some.
    + exists []. rewrite app_nil_r. by rewrite list_lookup_insert_ne.
  - intros s R (F1 & F2 & F3). apply iappend_ok; try done.
    pose proof (F3 i t (b ++ p)) as Hs. rewrite list_lookup_insert_eq in Hs by (by eapply lookup_lt_Some).
    specialize (Hs eq_refl). unfold size_of in *. rewrite length_app in Hs. lia.
Qed.
Lemma builds_ialloc A t : type_ok t → builds (ialloc t) A (1 + Z.of_nat (length A)) (A ++ [(t, [])]).
Proof.
  intros Ht. split.
  - split; [rewrite length_app; lia|]. intros i u b Hi. exists []. rewrite app_nil_r. by apply lookup_app_l_Some.
  - intros s R (_ & F2 & _). rewrite length_app in F2. cbn in F2. pose proof (rp_free _ _ R). apply ialloc_ok; [done|done|lia].
Qed.
