(* ===== verification/MkfsMain.v ===== *)
(** * mkfs/mkfs.c: the image of [main]

    [tree args] are the files the arguments ask for: the root directory first,
    then each file and directory in the order in which the host's directories
    list them, a directory holding an entry for each of its members.  When
    there is room for them, [main] ends without an error and the image holds
    them: the super block, an empty log, the inodes, the bitmap of exactly the
    blocks in use, and each file's bytes in its blocks. *)

From S2P Require Import Prelude Bytes Riscv Kstate CString Bio Printf Fs FsPath FsAlloc Mkfs MkfsProps MkfsImage.

(** ** The files *)

Definition next_inum (A : filemap) : Z := 1 + Z.of_nat (length A).
Definition new_file (t parent : Z) (name : list Z) (A : filemap) : filemap :=
  append parent (dirent_n (next_inum A) name) (A ++ [(t, [])]).
Definition data_of (chunks : option (list (list Z))) : list Z := concat (default [] chunks).
Definition tree_file (parent : Z) (name : list Z) (chunks : option (list (list Z))) (A : filemap) : filemap :=
  append (next_inum A) (data_of chunks) (new_file T_FILE parent name A).
Definition tree_new_dir (parent : Z) (name : list Z) (A : filemap) : filemap :=
  append (next_inum A) (dirent_n (next_inum A) [46] ++ dirent_n parent [46; 46]) (new_file T_DIR parent name A).
(** A directory and its members; hidden files, and what is neither a file nor
    a directory, are left out. *)
Fixpoint tree_dir (parent : Z) (name : list Z) (n : node) (A : filemap) : filemap :=
  let A1 := tree_new_dir parent name A in
  match n with
  | HDir (Some entries) =>
      (fix members (es : list (list Z * node)) (A1 : filemap) : filemap :=
         match es with
         | [] => A1
         | (name, e) :: es =>
             members es
               (if hd 0 name =? 46 then A1
                else match e with
                     | HFile chunks => tree_file (next_inum A) name chunks A1
                     | HDir _ => tree_dir (next_inum A) name e A1
                     | HOther _ => A1
                     end)
         end) entries A1
  | _ => A1
  end.
Definition root_dir : list Z := dirent_n ROOTINO [46] ++ dirent_n ROOTINO [46; 46].
Definition tree_arg (A : filemap) (arg : list Z * node) : filemap :=
  match arg.2 with
  | HDir _ => tree_dir ROOTINO arg.1 arg.2 A
  | HFile chunks | HOther chunks => tree_file ROOTINO (strip_underscore (shorten arg.1)) chunks A
  end.
Definition tree (args : list (list Z * node)) : filemap := foldl tree_arg [(T_DIR, root_dir)] args.

(** The arguments [mkfs] takes: the files can be read, a directory's name fits
    an entry, a file's name has no slash. *)
Definition can_read (chunks : option (list (list Z))) : bool := if chunks is Some _ then true else false.
Fixpoint good_node (n : node) : bool :=
  match n with
  | HFile chunks => can_read chunks
  | HDir None => true
  | HDir (Some entries) =>
      (fix members (es : list (list Z * node)) : bool :=
         match es with
         | [] => true
         | (name, e) :: es =>
             ((hd 0 name =? 46) || match e with
              | HFile chunks => can_read chunks
              | HDir _ => (length name <? DIRSIZ)%nat && good_node e
              | HOther _ => true
              end) && members es
         end) entries
  | HOther _ => true
  end.
Definition good_arg (arg : list Z * node) : bool :=
  match arg.2 with
  | HDir _ => (length arg.1 <? DIRSIZ)%nat && good_node arg.2
  | HFile chunks | HOther chunks => negb (bool_decide (SLASH ∈ shorten arg.1)) && can_read chunks
  end.

(** ** Each step builds its files *)

Lemma append_nil inum A : append inum [] A = A.
Proof.
  apply list_eq. intros j. unfold append. rewrite list_lookup_alter. case_decide as E; [|done]. subst j.
  destruct (A !! _) as [[t b]|]; [|done]. cbn. unfold add_bytes. by rewrite app_nil_r.
Qed.
Lemma append_app inum p q A : append inum (p ++ q) A = append inum q (append inum p A).
Proof.
  apply list_eq. intros j. unfold append. rewrite !list_lookup_alter. case_decide as E; [|done].
  rewrite decide_True by done. destruct (A !! _) as [[t b]|]; [|done]. cbn. unfold add_bytes. cbn. by rewrite app_assoc.
Qed.
Lemma has_inode_grows A A' inum : grows A A' → has_inode A inum → has_inode A' inum.
Proof. intros [Hl _] H. unfold has_inode in *. lia. Qed.
Lemma has_inode_append A i p inum : has_inode (append i p A) inum ↔ has_inode A inum.
Proof. unfold has_inode. by rewrite length_append. Qed.
Lemma has_inode_new A x inum : has_inode (A ++ [x]) inum ↔ has_inode A inum ∨ inum = next_inum A.
Proof. unfold has_inode, next_inum. rewrite length_app. cbn. lia. Qed.
#[local] Hint Resolve <- has_inode_append : core.

Lemma builds_dirent_s inum name A : (length name < DIRSIZ)%nat → builds (dirent_s inum name) A (dirent_n inum name) A.
Proof. intros Hl. unfold dirent_s. rewrite (proj2 (Nat.ltb_lt _ _)) by done. apply builds_ret. Qed.
Lemma builds_assert b A : b = true → builds (assert_ b) A () A.
Proof. intros ->. apply builds_ret. Qed.
Lemma builds_chunks A inum chunks :
  has_inode A inum → builds (append_chunks inum chunks) A () (append inum (concat chunks) A).
Proof.
  revert A. induction chunks as [|c chunks IH]; intros A Hi; cbn [append_chunks concat].
  - rewrite append_nil. apply builds_ret.
  - rewrite append_app. eapply builds_bind; [by apply builds_iappend|]. apply IH. auto.
Qed.

(** What [add_file] and the body of [main]'s loop do once the file is open. *)
Lemma builds_new_file A parent name chunks :
  has_inode A parent →
  builds (inum ← ialloc T_FILE; iappend parent (dirent_n inum name);; append_chunks inum chunks) A ()
    (tree_file parent name (Some chunks) A).
Proof.
  intros Hp. eapply builds_bind; [apply builds_ialloc; by right|].
  eapply builds_bind; [apply builds_iappend; apply has_inode_new; by left|].
  apply builds_chunks, has_inode_append, has_inode_new. by right.
Qed.
Lemma builds_add_file A parent name chunks :
  has_inode A parent → can_read chunks = true → builds (add_file parent name chunks) A () (tree_file parent name chunks A).
Proof. intros Hp. destruct chunks as [chunks|]; [|done]. intros _. by apply builds_new_file. Qed.

(** *** Directories *)

Section members.
Context (dino : Z).
Definition add_member (name : list Z) (e : node) : H () :=
  if hd 0 name =? 46 then mret ()
  else match e with
       | HFile chunks => add_file dino name chunks
       | HDir _ => add_dir dino name e;; mret ()
       | HOther _ => mret ()
       end.
Fixpoint add_members (es : list (list Z * node)) : H () :=
  match es with [] => mret () | (name, e) :: es => add_member name e;; add_members es end.
Definition tree_member (name : list Z) (e : node) (A : filemap) : filemap :=
  if hd 0 name =? 46 then A
  else match e with
       | HFile chunks => tree_file dino name chunks A
       | HDir _ => tree_dir dino name e A
       | HOther _ => A
       end.
Fixpoint tree_members (es : list (list Z * node)) (A : filemap) : filemap :=
  match es with [] => A | (name, e) :: es => tree_members es (tree_member name e A) end.
End members.
Definition good_member (name : list Z) (e : node) : bool :=
  (hd 0 name =? 46) || match e with
  | HFile chunks => can_read chunks
  | HDir _ => (length name <? DIRSIZ)%nat && good_node e
  | HOther _ => true
  end.

Lemma node_ind_nested (P : node → Prop) :
  (∀ c, P (HFile c)) → (∀ es, Forall (λ x, P x.2) (default [] es) → P (HDir es)) → (∀ c, P (HOther c)) → ∀ n, P n.
Proof.
  intros H1 H2 H3. fix IH 1. intros [c|[es|]|c]; [apply H1| |by apply H2|apply H3]. apply H2. cbn.
  induction es as [|[name e] es IHes]; constructor; [apply IH|apply IHes].
Qed.

(** What is built for [e] under any name and parent. *)
Definition dir_builds (e : node) : Prop :=
  ∀ parent name A, has_inode A parent → (length name < DIRSIZ)%nat → good_node e = true →
    builds (add_dir parent name e) A (next_inum A) (tree_dir parent name e A).

Lemma builds_member dino name e A :
  dir_builds e → has_inode A dino → good_member name e = true →
  builds (add_member dino name e) A () (tree_member dino name e A).
Proof.
  intros IH Hd Hg. unfold good_member, add_member, tree_member in *. destruct (hd 0 name =? 46); [apply builds_ret|].
  destruct e as [c|es|c]; cbn [orb] in Hg.
  - by apply builds_add_file.
  - apply andb_true_iff in Hg as [Hl%Nat.ltb_lt Hg]. eapply builds_bind; [by apply IH|]. apply builds_ret.
  - apply builds_ret.
Qed.
Lemma builds_members dino es A :
  Forall (λ x, dir_builds x.2) es → has_inode A dino → forallb (λ x, good_member x.1 x.2) es = true →
  builds (add_members dino es) A () (tree_members dino es A).
Proof.
  intros IH. revert A. induction IH as [|[name e] es He _ IH]; intros A Hd Hg; [apply builds_ret|].
  cbn [forallb fst snd add_members tree_members] in *. apply andb_true_iff in Hg as [Hg1 Hg2].
  pose proof (builds_member dino name e A He Hd Hg1) as Hb. eapply builds_bind; [done|]. apply IH; [|done].
  eapply has_inode_grows; [apply Hb|done].
Qed.

(** The directory before its members. *)
Lemma builds_new_dir {X} parent name A (k : Z → H X) v A' :
  has_inode A parent → (length name < DIRSIZ)%nat → builds (k (next_inum A)) (tree_new_dir parent name A) v A' →
  builds (dino ← ialloc T_DIR; de ← dirent_s dino name; iappend parent de;; de ← dirent_s dino [46]; iappend dino de;;
          de ← dirent_s parent [46; 46]; iappend dino de;; k dino) A v A'.
Proof.
  intros Hp Hl Hk. eapply builds_bind; [apply builds_ialloc; by left|].
  eapply builds_bind; [by apply builds_dirent_s|].
  eapply builds_bind; [apply builds_iappend; apply has_inode_new; by left|].
  assert (has_inode (new_file T_DIR parent name A) (next_inum A)) as Hd.
  { apply has_inode_append, has_inode_new. by right. }
  eapply builds_bind; [apply builds_dirent_s; unfold DIRSIZ; cbn; lia|].
  eapply builds_bind; [by apply builds_iappend|].
  eapply builds_bind; [apply builds_dirent_s; unfold DIRSIZ; cbn; lia|].
  eapply builds_bind; [apply builds_iappend; by apply has_inode_append|].
  unfold tree_new_dir in Hk. by rewrite append_app in Hk.
Qed.

Lemma builds_add_dir e : dir_builds e.
Proof.
  induction e as [c|es IH|c] using node_ind_nested; intros parent name A Hp Hl Hg.
  1, 3: by apply builds_new_dir; [done..|]; apply builds_ret.
  destruct es as [es|]; cbn [add_dir tree_dir]; (apply builds_new_dir; [done..|]); [|apply builds_ret].
  change (builds (add_members (next_inum A) es;; mret (next_inum A)) (tree_new_dir parent name A) (next_inum A)
    (tree_members (next_inum A) es (tree_new_dir parent name A))).
  eapply builds_bind; [|apply builds_ret]. apply builds_members; [done| |].
  - apply has_inode_append, has_inode_append, has_inode_new. by right.
  - clear -Hg. revert Hg. cbn [good_node]. induction es as [|[nm e] es IH]; [done|]. intros [H1 H2]%andb_true_iff.
    cbn [forallb fst snd]. apply andb_true_iff. split; [apply H1|by apply IH].
Qed.

Lemma builds_arg A path n :
  has_inode A ROOTINO → good_arg (path, n) = true → builds (main_arg ROOTINO path n) A () (tree_arg A (path, n)).
Proof.
  intros Hr Hg. unfold good_arg, tree_arg, main_arg in *. cbn [fst snd] in *.
  destruct n as [[c|]|es|[c|]]; apply andb_true_iff in Hg as [H1 H2]; try done.
  - eapply builds_bind; [by apply builds_assert|]. by apply builds_new_file.
  - apply Nat.ltb_lt in H1. eapply builds_bind; [by apply builds_add_dir|]. apply builds_ret.
  - eapply builds_bind; [by apply builds_assert|]. by apply builds_new_file.
Qed.
Lemma builds_args args A :
  has_inode A ROOTINO → forallb good_arg args = true → builds (main_args ROOTINO args) A () (foldl tree_arg A args).
Proof.
  revert A. induction args as [|[path n] args IH]; intros A Hr Hg; [apply builds_ret|].
  cbn [main_args foldl forallb] in *. apply andb_true_iff in Hg as [Hg1 Hg2].
  pose proof (builds_arg A path n Hr Hg1) as Hb. eapply builds_bind; [done|]. apply IH; [|done].
  eapply has_inode_grows; [apply Hb|done].
Qed.

(** ** An empty image *)

Lemma zero_loop_ok n i s :
  ∃ s', zero_loop n i s = Ok () s' ∧ freeblock s' = freeblock s ∧ freeinode s' = freeinode s ∧
    ∀ y, image s' !! y = if decide (i ≤ y < i + Z.of_nat n) then Some zero_block else image s !! y.
Proof.
  revert i s. induction n as [|n IH]; intros i s; cbn [zero_loop].
  - exists s. split_and!; [done..|]. intros y. by rewrite decide_False by lia.
  - destruct (IH (i + 1) (mk_mkst (<[i := zero_block]> (image s)) (freeinode s) (freeblock s))) as (s' & E & F & I & V).
    exists s'. split_and!; [|done..|].
    + unfold wsect. by rewrite bind_modify.
    + intros y. rewrite V. cbn [image]. repeat case_decide; try lia; try done.
      * assert (y = i) as -> by lia. apply lookup_insert_eq.
      * apply lookup_insert_ne. lia.
Qed.

Lemma length_zero_block : length zero_block = Z.to_nat BSIZE.
Proof. apply length_replicate. Qed.
Lemma length_sb_bytes sb : length (sb_bytes sb) = Z.to_nat BSIZE.
Proof. unfold sb_bytes. cbv zeta. rewrite !length_stl. apply length_zero_block. Qed.
Lemma rep_empty s :
  present s → freeinode s = 1 → freeblock s = nmeta → (∀ y, length (vw s y) = Z.to_nat BSIZE) →
  (∀ y, 32 ≤ y → vw s y = zero_block) → rep s [].
Proof.
  intros P I F L Hz. split; [done|done|by rewrite I| |done|by rewrite F|].
  - rewrite F. split; try done. all: intros; try (by destruct i). apply Hz. change nmeta with 46 in *. lia.
  - intros k _ Hok. unfold inode_at. rewrite Hz by apply (iblock_range _ Hok). unfold slice, zero_block.
    pose proof (dip_bound k). by rewrite drop_replicate, take_replicate, Nat.min_l by lia.
Qed.

(** ** Padding the root directory *)

Definition pad (b : list Z) : list Z := replicate (Z.to_nat (BSIZE - size_of b mod BSIZE)) 0.
Lemma size_pad b :
  size_of b mod BSIZE ≠ 0 → size_of (b ++ pad b) = (size_of b / BSIZE + 1) * BSIZE ∧
    size_of (b ++ pad b) = size_of b + (BSIZE - size_of b mod BSIZE) ∧ 0 < size_of b mod BSIZE < BSIZE.
Proof.
  intros Hm. pose proof (Z.mod_pos_bound (size_of b) BSIZE ltac:(done)). pose proof (Z.div_mod (size_of b) BSIZE ltac:(done)).
  assert (size_of (b ++ pad b) = size_of b + (BSIZE - size_of b mod BSIZE)) as ->.
  { unfold size_of at 1. unfold pad. rewrite length_app, length_replicate. unfold size_of in *. lia. }
  lia.
Qed.
Lemma nth_pad b k : nth k (b ++ pad b) 0 = nth k b 0.
Proof.
  destruct (decide (k < length b)%nat); [by apply app_nth1|]. rewrite app_nth2, (nth_overflow b) by lia.
  unfold pad. rewrite nth_lookup_Z. destruct (replicate _ _ !! _) as [v|] eqn:Er; [|done]. by apply lookup_replicate in Er as [-> _].
Qed.
(** No block is needed for the padding. *)
Lemma pad_blocks b n : 0 ≤ n → size_of b mod BSIZE ≠ 0 → n * BSIZE < size_of (b ++ pad b) ↔ n * BSIZE < size_of b.
Proof.
  intros Hn Hm. destruct (size_pad b Hm) as (E1 & E2 & Hr). split; [|lia]. rewrite E1. intros Hlt.
  apply Z.mul_lt_mono_pos_r in Hlt; [|done]. pose proof (Z.div_mod (size_of b) BSIZE ltac:(done)).
  pose proof (Z.mul_le_mono_nonneg_r n (size_of b / BSIZE) BSIZE ltac:(done) ltac:(lia)). lia.
Qed.
Lemma core_pad V Ds A fb i t b :
  core V Ds A fb → A !! i = Some (t, b) → size_of b mod BSIZE ≠ 0 → core V Ds (<[i := (t, b ++ pad b)]> A) fb.
Proof.
  intros C HA Hm.
  assert (∀ j t' b', <[i := (t, b ++ pad b)]> A !! j = Some (t', b') → ∃ b0, A !! j = Some (t', b0) ∧
    (∀ k, nth k b' 0 = nth k b0 0) ∧ ∀ n, 0 ≤ n → n * BSIZE < size_of b' ↔ n * BSIZE < size_of b0) as Hc.
  { intros j t' b' [(-> & -> & ->)|[_ H]]%file_insert_case; [|by exists b'].
    exists b. split_and!; [done|apply nth_pad|]. intros n Hn. by apply pad_blocks. }
  split; try apply C.
  - rewrite length_insert. apply C.
  - intros j D t' b' HD Hj. destruct (Hc j t' b' Hj) as (b0 & H0 & _). by apply (co_type _ _ _ _ C j D t' b0).
  - intros j t' b' Hj. destruct (Hc j t' b' Hj) as (b0 & H0 & _ & Hs). pose proof (co_max _ _ _ _ C j t' b0 H0).
    destruct (Hs MAXFILE ltac:(done)). lia.
  - intros j D t' b' n HD Hj Hn. destruct (Hc j t' b' Hj) as (b0 & H0 & _ & Hs). rewrite Hs by lia. by apply (co_map _ _ _ _ C j D t' b0).
  - intros j D t' b' HD Hj. destruct (Hc j t' b' Hj) as (b0 & H0 & _ & Hs). rewrite Hs by lia. by apply (co_ind _ _ _ _ C j D t' b0).
  - intros j D t' b' k HD Hj Hk0. destruct (Hc j t' b' Hj) as (b0 & H0 & Hb & Hs).
    rewrite Hs by (apply Z.div_pos; [lia|done]). intros Hk. rewrite Hb. by apply (co_byte _ _ _ _ C j D t' b0).
Qed.

Lemma fix_root_ok s A b :
  rep s A → A !! 0%nat = Some (T_DIR, b) → size_of b mod BSIZE ≠ 0 →
  ∃ s', fix_root_size ROOTINO s = Ok () s' ∧ low_same s s' ∧ rep s' (<[0%nat := (T_DIR, b ++ pad b)]> A).
Proof.
  intros R HA Hm. assert (0 < length A)%nat as Hi by (by eapply lookup_lt_Some). pose proof (rep_inum s A 0 R Hi) as Hin.
  destruct (size_pad b Hm) as (E1 & E2 & Hr). pose proof (core_pad _ _ _ _ _ _ _ (rp_core _ _ R) HA Hm) as C1.
  set (A' := <[0%nat := _]> A) in *. set (D := inode_at s ROOTINO).
  pose proof (lookup_inodes s (length A) 0 Hi) as HD. change (inode_at s _) with D in HD.
  assert (A' !! 0%nat = Some (T_DIR, b ++ pad b)) as HA' by (by apply list_lookup_insert_eq).
  assert (0 ≤ size_of (b ++ pad b) < 2 ^ 32) as Hsz.
  { pose proof (co_max _ _ _ _ C1 _ _ _ HA'). assert (MAXFILE * BSIZE < 2 ^ 32) by done. unfold size_of in *. lia. }
  destruct (winode_ok s ROOTINO (set_din_size D (xint (size_of (b ++ pad b))))) as (s' & E & _ & _ & _ & _ & _ & N & _).
  { apply R. } { done. } { unfold set_din_size. rewrite length_stl. by apply (co_D _ _ _ _ C1 0). } { apply C1. }
  exists s'. split_and!.
  - unfold fix_root_size. rewrite (bind_ok _ _ _ _ _ (rinode_ok s ROOTINO (rp_present _ _ R) Hin)). cbv zeta. fold D.
    assert (din_size D = size_of b) as -> by exact (rp_size _ _ R 0 _ _ HA). rewrite (xint_id (size_of b)) by (unfold size_of in *; lia).
    by rewrite u32_small, <- E1 by lia.
  - intros y Hy. apply N. lia.
  - apply (rep_winode s A A' 0 (set_din_size D (xint (size_of (b ++ pad b)))) T_DIR (b ++ pad b) s D); try done.
    + apply length_insert.
    + apply R.
    + intros j Hj. by apply list_lookup_insert_ne.
    + by rewrite list_insert_id.
    + unfold A'. rewrite (total_insert A 0 T_DIR b) by done. rewrite (rp_count _ _ R), E2, blocks_piece by (unfold size_of in *; lia).
      unfold need. rewrite (proj2 (Z.eqb_neq _ _)) by done. cbn [negb]. lia.
Qed.

(** ** The bitmap *)

Lemma mark_loop_bits n i d j :
  length d = Z.to_nat BSIZE → 0 ≤ i → i + Z.of_nat n ≤ BPB → 0 ≤ j →
  length (mark_loop n i d) = Z.to_nat BSIZE ∧
  bit_set (mark_loop n i d) j = if decide (i ≤ j < i + Z.of_nat n) then true else bit_set d j.
Proof.
  intros Hl Hi Hn Hj. revert i d Hl Hi Hn. induction n as [|n IH]; intros i d Hl Hi Hn; cbn [mark_loop].
  - by rewrite decide_False by lia.
  - change (<[_ := _]> d) with (set_bit i d). destruct (IH (i + 1) (set_bit i d)) as [L ->]; [by rewrite length_set_bit|lia..|].
    split; [done|]. rewrite (bit_set_set d i) by (done || lia). repeat case_decide; lia || done.
Qed.
Lemma bit_set_zero j : bit_set zero_block j = false.
Proof.
  unfold bit_set, zero_block. rewrite nth_lookup_Z. destruct (replicate _ _ !! _) as [v|] eqn:Er; [|done].
  by apply lookup_replicate in Er as [-> _].
Qed.

(** Only the bitmap differs. *)
Lemma rep_bitmap s s' A :
  rep s A → present s' → freeblock s' = freeblock s → freeinode s' = freeinode s →
  (∀ y, y ≠ 45 → vw s' y = vw s y) → length (vw s' 45) = Z.to_nat BSIZE → rep s' A.
Proof.
  intros R P F I Hv Hl.
  assert (∀ k, inum_ok k → inode_at s' k = inode_at s k) as Hk.
  { intros k Hin. unfold inode_at. rewrite Hv; [done|]. destruct (iblock_range _ Hin) as [-> _]. unfold inum_ok in Hin.
    change (ninodeblocks * IPB) with 208 in Hin. pose proof (Z.div_lt_upper_bound k IPB 13 ltac:(done)). change IPB with 16 in *. lia. }
  assert (∀ i, (i < length A)%nat → inode_at s' (1 + Z.of_nat i) = inode_at s (1 + Z.of_nat i)) as Hsame.
  { intros i Hi. apply Hk. by eapply rep_inum. }
  split.
  - done.
  - rewrite I. apply R.
  - rewrite I. apply R.
  - rewrite F. eapply core_ext; [apply R| | |by rewrite !length_inodes|].
    + intros y Hy. apply Hv. change nmeta with 46 in Hy. lia.
    + intros y. destruct (decide (y = 45)) as [->|]; [done|]. rewrite Hv by done. apply (rp_core _ _ R).
    + intros i D [Hi ->]%lookup_inodes_inv. eexists. split; [by apply lookup_inodes|]. rewrite Hsame by done.
      apply same_node_refl. apply (co_D _ _ _ _ (rp_core _ _ R) i). by apply lookup_inodes.
  - intros i t b Hi. rewrite Hsame by (by eapply lookup_lt_Some). by apply (rp_size _ _ R i t).
  - rewrite F. apply R.
  - intros k. rewrite I. intros Hfr Hok. rewrite Hk by done. by apply (rp_unused _ _ R).
Qed.
Lemma balloc_ok s A :
  rep s A → ∃ s', balloc (freeblock s) s = Ok () s' ∧ rep s' A ∧ freeblock s' = freeblock s ∧
    (∀ y, y ≠ 45 → vw s' y = vw s y) ∧ ∀ c, 0 ≤ c → bit_set (vw s' 45) c = (c <? freeblock s).
Proof.
  intros R. pose proof (co_fb _ _ _ _ (rp_core _ _ R)) as Hfb. change nmeta with 46 in Hfb. change FSSIZE with 4000 in Hfb.
  destruct (wsect_ok s 45 (mark_loop (Z.to_nat (freeblock s)) 0 zero_block) (rp_present _ _ R)) as (s' & E & P & F & I & V).
  assert (∀ y, y ≠ 45 → vw s' y = vw s y) as Hv by (intros y Hy; by rewrite V, decide_False by lia).
  assert (vw s' 45 = mark_loop (Z.to_nat (freeblock s)) 0 zero_block) as Hv45 by (by rewrite V, decide_True).
  pose proof (λ c, mark_loop_bits (Z.to_nat (freeblock s)) 0 zero_block c length_zero_block ltac:(lia)
    ltac:(change BPB with 8192; lia)) as Hm. exists s'. split_and!; [|eapply rep_bitmap; try done|done|done|].
  - unfold balloc, assert_. rewrite (proj2 (Z.ltb_lt _ _)) by (change (BSIZE * 8) with 8192; lia). by rewrite bind_mret.
  - rewrite Hv45. by apply (Hm 0).
  - intros c Hc. rewrite Hv45. destruct (Hm c Hc) as [_ ->]. rewrite bit_set_zero. rewrite Z2Nat.id by lia.
    case_decide; symmetry; [apply Z.ltb_lt|apply Z.ltb_ge]; lia.
Qed.

(** ** main *)

(** The bytes of the file of inode [D], found through its addresses. *)
Definition file_bytes (V : Z → list Z) (D : list Z) : list Z :=
  (λ k, nth (Z.to_nat (k mod BSIZE)) (V (daddr V D (k / BSIZE))) 0) <$> seqZ 0 (din_size D).

Record image_holds (s : mkst) (A : filemap) : Prop := {
  ih_boot : vw s 0 = zero_block;
  ih_sb : sb_of (vw s 1) = the_sb;
  ih_log y : 2 ≤ y < 2 + nlog → vw s y = zero_block;
  ih_file i t b : A !! i = Some (t, b) →
    let D := inode_at s (1 + Z.of_nat i) in
    ldl 2 D 0 = t ∧ ldl 2 D 6 = 1 ∧ file_bytes (vw s) D = b;
  ih_unused k : Z.of_nat (length A) < k < NINODES → inode_at s k = replicate 64 0;
  (** every block in use belongs to one slot of one file *)
  ih_inj i j m n : (i < length A)%nat → (j < length A)%nat → 0 ≤ m ≤ MAXFILE → 0 ≤ n ≤ MAXFILE →
    let a := dslot (vw s) (inode_at s (1 + Z.of_nat i)) m in
    let b := dslot (vw s) (inode_at s (1 + Z.of_nat j)) n in
    a ≠ 0 → nmeta ≤ a < freeblock s ∧ (a = b → i = j ∧ m = n);
  ih_count : freeblock s = nmeta + total A;
  ih_bitmap c : 0 ≤ c < FSSIZE → bit_set (vw s (BBLOCK c the_sb)) (c mod BPB) = (c <? freeblock s);
}.

Lemma rep_file s A i t b :
  rep s A → A !! i = Some (t, b) →
  let D := inode_at s (1 + Z.of_nat i) in ldl 2 D 0 = t ∧ ldl 2 D 6 = 1 ∧ file_bytes (vw s) D = b.
Proof.
  intros R HA D. assert (i < length A)%nat as Hi by (by eapply lookup_lt_Some). pose proof (lookup_inodes s (length A) i Hi) as HD.
  destruct (co_type _ _ _ _ (rp_core _ _ R) i D t b HD HA) as (Ht & Hn & _). split_and!; [done..|].
  apply list_eq. intros k. unfold file_bytes, D. rewrite (rp_size _ _ R i t b HA). fold D. rewrite list_lookup_fmap.
  destruct (decide (k < length b)%nat) as [Hk|Hk].
  - rewrite lookup_seqZ_lt by (unfold size_of; lia). cbn. pose proof (Z.div_mod (Z.of_nat k) BSIZE ltac:(done)).
    pose proof (Z.mod_pos_bound (Z.of_nat k) BSIZE ltac:(done)).
   
    rewrite Z.add_0_l, (co_byte _ _ _ _ (rp_core _ _ R) i D t b) by (done || (unfold size_of; lia)). rewrite Nat2Z.id, nth_lookup_Z.
    destruct (lookup_lt_is_Some_2 b k Hk) as [v ->]. done.
  - rewrite lookup_seqZ_ge by (unfold size_of; lia). symmetry. apply lookup_ge_None_2. lia.
Qed.

Definition pad_root (A : filemap) : filemap :=
  match A with [] => [] | (t, b) :: A => (t, b ++ pad b) :: A end.
Definition root_bytes (A : filemap) : list Z := match A with [] => [] | (_, b) :: _ => b end.

(** The state before the root directory is made. *)
Lemma main_start : ∃ s0, zero_loop (Z.to_nat FSSIZE) 0 (mk_mkst ∅ 1 nmeta) = Ok () s0 ∧
  ∃ s1, wsect 1 (sb_bytes the_sb) s0 = Ok () s1 ∧ rep s1 [] ∧ vw s1 1 = sb_bytes the_sb ∧ ∀ y, y ≠ 1 → vw s1 y = zero_block.
Proof.
  destruct (zero_loop_ok (Z.to_nat FSSIZE) 0 (mk_mkst ∅ 1 nmeta)) as (s0 & E0 & F0 & I0 & V0). exists s0. split; [done|].
  assert (present s0) as P0 by (intros y Hy; rewrite V0, decide_True by lia; done).
  assert (∀ y, vw s0 y = zero_block) as Hz by (intros y; unfold vw, dblock; rewrite V0; by case_decide).
  destruct (wsect_ok s0 1 (sb_bytes the_sb) P0) as (s1 & E1 & P1 & F1 & I1 & V1). exists s1.
  split_and!; [done| |by rewrite V1|intros y Hy; by rewrite V1, decide_False].
  apply rep_empty; [done|by rewrite I1, I0|by rewrite F1, F0| |].
  - intros y. rewrite V1. case_decide; [apply length_sb_bytes|]. rewrite Hz. apply length_zero_block.
  - intros y Hy. rewrite V1, decide_False by lia. apply Hz.
Qed.

Lemma tree_root args : forallb good_arg args = true → ∃ b A, tree args = (T_DIR, root_dir ++ b) :: A.
Proof.
  intros Hg. destruct (builds_args args [(T_DIR, root_dir)]) as [[_ G] _]; [done|done|].
  destruct (G 0%nat _ _ eq_refl) as [b Hb]. exists b. fold (tree args) in Hb.
  destruct (tree args) as [|x A]; [done|]. injection Hb as ->. by exists A.
Qed.

(** The root directory and the files of the arguments. *)
Lemma main_files args s1 :
  rep s1 [] → forallb good_arg args = true → fits (tree args) →
  ∃ s2, (∀ X (k : Z → H X), (rootino ← ialloc T_DIR; assert_ (rootino =? ROOTINO);; de ← dirent_s rootino [46]; iappend rootino de;;
         de ← dirent_s rootino [46; 46]; iappend rootino de;; main_args rootino args;; k rootino) s1 = k ROOTINO s2) ∧
    low_same s1 s2 ∧ rep s2 (tree args).
Proof.
  intros R1 Hg Hf. pose proof (builds_args args [(T_DIR, root_dir)] ltac:(done) Hg) as Bt.
  assert (fits [(T_DIR, root_dir)]) as Hf0 by (by eapply fits_mono; [apply Bt|]).
  assert (has_inode [(T_DIR, [])] ROOTINO) as Hi by done.
  pose proof (builds_iappend [(T_DIR, [])] ROOTINO (dirent_n ROOTINO [46]) Hi) as B2.
  pose proof (builds_iappend (append ROOTINO (dirent_n ROOTINO [46]) [(T_DIR, [])]) ROOTINO (dirent_n ROOTINO [46; 46]) ltac:(done)) as B3.
  rewrite <- append_app in B3. change (append ROOTINO (dirent_n ROOTINO [46] ++ _) _) with [(T_DIR, root_dir)] in B3.
  pose proof (fits_mono _ _ (proj1 B3) Hf0) as Hf2. pose proof (fits_mono _ _ (proj1 B2) Hf2) as Hf1.
  destruct (proj2 (builds_ialloc [] T_DIR ltac:(by left)) s1 R1 Hf1) as (s2 & E2 & L2 & R2).
  destruct (proj2 B2 s2 R2 Hf2) as (s3 & E3 & L3 & R3). destruct (proj2 B3 s3 R3 Hf0) as (s4 & E4 & L4 & R4).
  destruct (proj2 Bt s4 R4 Hf) as (s5 & E5 & L5 & R5). exists s5. split_and!; [|by do 3 (etrans; [done|])|done].
  intros X k. rewrite (bind_ok _ _ _ _ _ E2). change (1 + Z.of_nat (length [])) with ROOTINO.
  rewrite (Z.eqb_refl ROOTINO). unfold assert_. rewrite bind_mret. change (dirent_s ROOTINO [46]) with (mret (M := H) (dirent_n ROOTINO [46])).
  change (dirent_s ROOTINO [46; 46]) with (mret (M := H) (dirent_n ROOTINO [46; 46])).
  by rewrite bind_mret, (bind_ok _ _ _ _ _ E3), bind_mret, (bind_ok _ _ _ _ _ E4), (bind_ok _ _ _ _ _ E5).
Qed.

Lemma mkfs_image args :
  forallb good_arg args = true → fits (tree args) → size_of (root_bytes (tree args)) mod BSIZE ≠ 0 →
  ∃ s, mkfs args = Ok () s ∧ rep s (pad_root (tree args)) ∧ image_holds s (pad_root (tree args)).
Proof.
  intros Hg Hf Hm. destruct main_start as (s0 & E0 & s1 & E1 & R1 & Vsb & Vz).
  destruct (main_files args s1 R1 Hg Hf) as (s2 & E2 & L2 & R2). destruct (tree_root args Hg) as (b & A & Ht).
  assert (tree args !! 0%nat = Some (T_DIR, root_dir ++ b)) as Hroot by (by rewrite Ht). rewrite Ht in Hm. cbn [root_bytes] in Hm.
  destruct (fix_root_ok s2 (tree args) (root_dir ++ b) R2 Hroot Hm) as (s3 & E3 & L3 & R3).
  assert (<[0%nat := (T_DIR, (root_dir ++ b) ++ pad (root_dir ++ b))]> (tree args) = pad_root (tree args)) as Hp by (by rewrite Ht).
  rewrite Hp in R3. destruct (balloc_ok s3 _ R3) as (s4 & E4 & R4 & F4 & V4 & B4). exists s4.
  assert (∀ y, y < 32 → vw s4 y = vw s1 y) as Hlow by (intros y Hy; rewrite V4, L3, L2 by lia; done). split; [|split; [done|]].
  - unfold mkfs, main. rewrite bind_modify. change (mk_mkst _ _ _) with (mk_mkst ∅ 1 nmeta).
    rewrite (bind_ok _ _ _ _ _ E0), (bind_ok _ _ _ _ _ E1), E2, (bind_ok _ _ _ _ _ E3), bind_gets. done.
  - split.
    + rewrite Hlow, Vz by lia. done.
    + rewrite Hlow, Vsb by lia. reflexivity.
    + intros y Hy. change nlog with 30 in Hy. rewrite Hlow, Vz by lia. done.
    + intros i t d. by apply rep_file.
    + intros k Hk. apply (rp_unused _ _ R4); [rewrite (rp_free _ _ R4); lia|]. unfold inum_ok. change NINODES with 200 in Hk.
      change (ninodeblocks * IPB) with 208. lia.
    + intros i j m n Hi Hj Hm1 Hn1 a c Ha. pose proof (rp_core _ _ R4) as C.
      pose proof (lookup_inodes s4 _ i Hi) as HD. pose proof (lookup_inodes s4 _ j Hj) as HD'.
      split; [by apply (co_range _ _ _ _ C i _ m HD Hm1)|]. intros E. by apply (co_inj _ _ _ _ C i j _ _ m n HD HD').
    + apply R4.
    + intros c Hc. change FSSIZE with 4000 in Hc. unfold BBLOCK. change BPB with 8192. rewrite Z.div_small, Z.mod_small by lia.
      change (u32 _) with 45. by rewrite B4, F4 by lia.
Qed.

(** C22: when the host's files can be read, directory names fit an entry, the
    files fit the disk and the root directory does not end on a block
    boundary, mkfs completes, and the image holds exactly the files of its
    arguments: the super block, an empty log, each file's inode with its type
    and bytes, unused inodes zero, no block in two files, and a bitmap of
    exactly the blocks in use.  The root directory is padded with zeros to a
    block. *)
Theorem mkfs_builds args :
  forallb good_arg args = true → fits (tree args) → size_of (root_bytes (tree args)) mod BSIZE ≠ 0 →
  ∃ s, mkfs args = Ok () s ∧ image_holds s (pad_root (tree args)).
Proof. intros Hg Hf Hm. destruct (mkfs_image args Hg Hf Hm) as (s & E & _ & I). exists s. split; [exact E|exact I]. Qed.

Definition fits_b (A : filemap) : bool :=
  (nmeta + total A <=? FSSIZE) && (Z.of_nat (length A) <? NINODES) && forallb (λ x, size_of x.2 <=? MAXFILE * BSIZE) A.
Lemma fits_iff A : fits_b A = true → fits A.
Proof.
  intros [[H1%Z.leb_le H2%Z.ltb_lt]%andb_true_iff H3]%andb_true_iff. split_and!; [done..|].
  intros i t b Hi. rewrite forallb_forall in H3. apply Z.leb_le, (H3 (t, b)). apply list_elem_of_In. by eapply list_elem_of_lookup_2.
Qed.

Definition demo_args : list (list Z * node) :=
  [(codes "README.md", HFile (Some [codes "FogOS"; codes " is an OS"]));
   (codes "user/_cat", HOther (Some [[127; 69; 76; 70]]));
   (codes "docs", HDir (Some [(codes ".", HDir None); (codes "a.txt", HFile (Some [[97]]));
      (codes "sub", HDir (Some [(codes "empty", HFile (Some []))])); (codes "fifo", HOther None)]))].
Lemma mkfs_builds_witness :
  length (tree demo_args) = 7%nat ∧ tree demo_args !! 2%nat = Some (T_FILE, [127; 69; 76; 70]) ∧
  ∃ s, mkfs demo_args = Ok () s ∧ image_holds s (pad_root (tree demo_args)).
Proof.
  split_and!; [reflexivity|vm_compute; reflexivity|]. apply (mkfs_builds demo_args).
  - vm_compute. reflexivity.
  - apply fits_iff. vm_compute. reflexivity.
  - vm_compute. discriminate.
Defined.
