(* ===== verification/MkfsTypes.v ===== *)
(** * mkfs/mkfs.c: the image is well formed whatever the arguments

    Without any assumption on the arguments but that the host's files are
    bytes, [mkfs] ends: it stops with a message or an assertion, or it leaves
    an image every sector of which is a block of bytes. *)

From S2P Require Import Prelude Bytes Riscv Kstate CString Bio Printf Console Fs FsPath Mkfs MkfsProps MkfsImage MkfsMain.

Definition byte (x : Z) : Prop := 0 ≤ x < 256.
Definition block_ok (d : list Z) : Prop := length d = Z.to_nat BSIZE ∧ Forall byte d.
Definition dinode_ok (d : list Z) : Prop := length d = 64%nat ∧ Forall byte d.
Definition typed (s : mkst) : Prop :=
  map_Forall (λ _ d, block_ok d) (image s) ∧ 0 ≤ freeinode s < 2 ^ 32 ∧ 0 ≤ freeblock s < 2 ^ 32.

(** From a well-formed state [m] ends: in a well-formed state, with a value
    that satisfies [Q], or with a message. *)
Definition ends {X} (m : H X) (Q : X → Prop) : Prop :=
  ∀ s, typed s → match m s with Ok v s' => typed s' ∧ Q v | Panic _ => True | Sleep _ _ _ | NoFuel => False end.

Lemma ends_ret {X} (v : X) (Q : X → Prop) : Q v → ends (mret v) Q.
Proof. by intros HQ s Hs. Qed.
Lemma ends_panic {X} msg (Q : X → Prop) : ends (panic msg) Q.
Proof. by intros s Hs. Qed.
Lemma ends_bind {X Y} (m : H X) (k : X → H Y) (Q : X → Prop) (R : Y → Prop) :
  ends m Q → (∀ v, Q v → ends (k v) R) → ends (m ≫= k) R.
Proof.
  intros Hm Hk s Hs. specialize (Hm s Hs). destruct (m s) as [v s'|msg|c|] eqn:E; try done.
  - rewrite (bind_ok _ _ _ _ _ E). destruct Hm as [Ht Hv]. by apply Hk.
  - by rewrite (bind_panic _ _ _ _ E).
Qed.
Lemma ends_weaken {X} (m : H X) (Q R : X → Prop) : ends m Q → (∀ v, Q v → R v) → ends m R.
Proof. intros Hm HR s Hs. specialize (Hm s Hs). destruct (m s); naive_solver. Qed.
Lemma ends_if {X} (b : bool) (m n : H X) Q : (b = true → ends m Q) → (b = false → ends n Q) → ends (if b then m else n) Q.
Proof. destruct b; auto. Qed.
Lemma ends_assert b : ends (assert_ b) (λ _, b = true).
Proof. destruct b; [by apply ends_ret|apply ends_panic]. Qed.

(** ** Bytes *)

Lemma u8_byte x : byte (u8 x).
Proof. apply Z.mod_pos_bound. lia. Qed.
Lemma stl_bytes n d o v : Forall byte d → Forall byte (stl n d o v).
Proof.
  revert d o v. induction n as [|n IH]; intros d o v Hd; [done|]. cbn [stl]. apply IH.
  apply Forall_insert; [done|apply u8_byte].
Qed.
Lemma splice_bytes o l d : Forall byte l → Forall byte d → Forall byte (splice o l d).
Proof. intros Hl Hd. unfold splice. rewrite !Forall_app. split_and!; [by apply Forall_take|done|by apply Forall_drop]. Qed.
Lemma slice_bytes o n d : Forall byte d → Forall byte (slice o n d).
Proof. intros Hd. by apply Forall_take, Forall_drop. Qed.
Lemma zero_bytes n : Forall byte (replicate n 0).
Proof. apply Forall_replicate. done. Qed.
Lemma zero_block_ok : block_ok zero_block.
Proof. split; [apply length_zero_block|apply zero_bytes]. Qed.
Lemma sb_bytes_ok sb : block_ok (sb_bytes sb).
Proof. split; [apply length_sb_bytes|]. unfold sb_bytes. cbv zeta. do 8 apply stl_bytes. apply zero_bytes. Qed.
Lemma splice_block o l d : block_ok d → Forall byte l → (o + length l ≤ Z.to_nat BSIZE)%nat → block_ok (splice o l d).
Proof. intros [Hl Hd] Hb Ho. split; [rewrite length_splice; lia|by apply splice_bytes]. Qed.
Lemma stl_block n d o v : block_ok d → block_ok (stl n d o v).
Proof. intros [Hl Hd]. split; [by rewrite length_stl|by apply stl_bytes]. Qed.
Lemma stl_dinode n d o v : dinode_ok d → dinode_ok (stl n d o v).
Proof. intros [Hl Hd]. split; [by rewrite length_stl|by apply stl_bytes]. Qed.
Lemma dirent_bytes inum name : Forall byte name → Forall byte (dirent_n inum name).
Proof.
  intros Hn. unfold dirent_n. rewrite Forall_app. split; [apply stl_bytes, zero_bytes|].
  unfold pad_name. rewrite Forall_app. split; [apply Forall_take|apply zero_bytes].
  induction Hn as [|c name Hc _ IH]; [constructor|]. cbn [until_nul]. destruct (c =? 0); [constructor|by constructor].
Qed.

(** ** The operations *)

Lemma ends_wsect sec d : block_ok d → ends (wsect sec d) (λ _, True).
Proof. intros Hd s (Hi & Hf & Hb). split; [|done]. split; [by apply map_Forall_insert_2|done]. Qed.
Lemma ends_rsect sec : ends (rsect sec) block_ok.
Proof.
  intros s Hs. unfold rsect. rewrite bind_gets. destruct (image s !! sec) as [d|] eqn:E; [|done]. split; [done|].
  by apply (proj1 Hs sec).
Qed.
Lemma ends_winode inum D : dinode_ok D → ends (winode inum D) (λ _, True).
Proof.
  intros [Hl Hb]. eapply ends_bind; [apply ends_rsect|]. intros d Hd. apply ends_wsect, splice_block; [done..|].
  pose proof (dip_bound inum). lia.
Qed.
Lemma ends_rinode inum : ends (rinode inum) dinode_ok.
Proof.
  eapply ends_bind; [apply ends_rsect|]. intros d [Hl Hb]. apply ends_ret. pose proof (dip_bound inum).
  split; [unfold slice; rewrite length_take, length_drop; change (Z.to_nat DINODE_SIZE) with 64%nat; lia|by apply slice_bytes].
Qed.
Lemma ends_next_block : ends next_block (λ _, True).
Proof. intros s (Hi & Hf & Hb). split; [|done]. split; [done|]. split; [done|]. apply Z.mod_pos_bound. lia. Qed.
Lemma ends_next_inode : ends next_inode (λ _, True).
Proof. intros s (Hi & Hf & Hb). split; [|done]. split; [done|]. split; [|done]. apply Z.mod_pos_bound. lia. Qed.

Lemma ends_ialloc t : ends (ialloc t) (λ _, True).
Proof.
  eapply ends_bind; [apply ends_next_inode|]. intros inum _. eapply ends_bind; [|intros; by apply ends_ret].
  apply ends_winode. do 3 apply stl_dinode. split; [done|apply zero_bytes].
Qed.
Lemma ends_set_addr (b : bool) din k :
  dinode_ok din → ends (if b then b ← next_block; mret (set_din_addr din k (xint b)) else mret din) dinode_ok.
Proof.
  intros Hd. apply ends_if; intros _; [|by apply ends_ret]. eapply ends_bind; [apply ends_next_block|].
  intros x _. by apply ends_ret, stl_dinode.
Qed.
Lemma ends_get_block din fbn : dinode_ok din → ends (get_block din fbn) (λ r, dinode_ok r.1).
Proof.
  intros Hd. apply ends_if; intros _.
  - eapply ends_bind; [by apply ends_set_addr|]. intros D HD. by apply ends_ret.
  - eapply ends_bind; [by apply ends_set_addr|]. intros D HD. eapply ends_bind; [apply ends_rsect|]. intros d Hb. cbv zeta.
    eapply (ends_bind _ _ block_ok); [|intros; by apply ends_ret]. apply ends_if; intros _; [|by apply ends_ret].
    eapply ends_bind; [apply ends_next_block|]. intros x _. cbv zeta.
    eapply ends_bind; [by apply ends_wsect, stl_block|]. intros. by apply ends_ret, stl_block.
Qed.

Lemma ends_iappend_loop fuel p din off :
  (length p < fuel)%nat → Forall byte p → dinode_ok din → 0 ≤ off < 2 ^ 32 →
  ends (iappend_loop fuel p din off) (λ r, dinode_ok r.1).
Proof.
  revert p din off. induction fuel as [|fuel IH]; intros p din off Hf Hp Hd Ho; [lia|]. cbn [iappend_loop].
  apply ends_if; intros E; [by apply ends_ret|]. apply negb_false_iff, Z.ltb_lt in E.
  pose proof (Z.div_mod off BSIZE ltac:(done)) as Hdm. pose proof (Z.mod_pos_bound off BSIZE ltac:(done)) as Hm.
  set (n1 := Z.min _ _). assert (0 < n1 ≤ Z.of_nat (length p)) as Hn by lia.
  assert (off - off / BSIZE * BSIZE + n1 ≤ BSIZE) as Hfit by lia.
  eapply ends_bind; [apply ends_assert|]. intros _ _. eapply ends_bind; [by apply ends_get_block|]. intros [D x] HD. cbn [fst snd] in *.
  eapply ends_bind; [apply ends_rsect|]. intros d Hb. eapply ends_bind.
  { apply ends_wsect, splice_block; [done|by apply Forall_take|]. rewrite length_take. lia. }
  intros _ _. apply IH; [rewrite length_drop; lia|by apply Forall_drop|done|]. apply Z.mod_pos_bound. lia.
Qed.
Lemma ends_iappend inum p : Forall byte p → ends (iappend inum p) (λ _, True).
Proof.
  intros Hp. eapply ends_bind; [apply ends_rinode|]. intros D HD. cbv zeta. eapply ends_bind.
  { apply ends_iappend_loop; [lia|done|done|]. rewrite xint_u32. apply Z.mod_pos_bound. lia. }
  intros r Hr. by apply ends_winode, stl_dinode.
Qed.
Lemma ends_chunks inum chunks : Forall (Forall byte) chunks → ends (append_chunks inum chunks) (λ _, True).
Proof.
  induction 1 as [|c chunks Hc _ IH]; [by apply ends_ret|]. eapply ends_bind; [by apply ends_iappend|]. done.
Qed.

(** ** Files and directories *)

(** The host's files are bytes. *)
Definition chunks_ok (chunks : option (list (list Z))) : Prop := if chunks is Some c then Forall (Forall byte) c else True.
#[local] Set Warnings "-register-all".
Inductive node_ok : node → Prop :=
| file_ok c : chunks_ok c → node_ok (HFile c)
| dir_ok es : (∀ name e, (name, e) ∈ default [] es → Forall byte name ∧ node_ok e) → node_ok (HDir es)
| other_ok c : chunks_ok c → node_ok (HOther c).

Lemma ends_dirent_s inum name : Forall byte name → ends (dirent_s inum name) (Forall byte).
Proof. intros Hn. apply ends_if; intros _; [by apply ends_ret, dirent_bytes|apply ends_panic]. Qed.
(** The common tail of [add_file] and [main]. *)
Lemma ends_new_file parent name chunks :
  Forall byte name → Forall (Forall byte) chunks →
  ends (inum ← ialloc T_FILE; iappend parent (dirent_n inum name);; append_chunks inum chunks) (λ _, True).
Proof.
  intros Hn Hc. eapply ends_bind; [apply ends_ialloc|]. intros inum _. eapply ends_bind; [by apply ends_iappend, dirent_bytes|].
  intros _ _. by apply ends_chunks.
Qed.
Lemma ends_add_file parent name chunks : Forall byte name → chunks_ok chunks → ends (add_file parent name chunks) (λ _, True).
Proof. intros Hn. destruct chunks; intros Hc; [by apply ends_new_file|apply ends_panic]. Qed.

Lemma ends_new_dir {X} parent name (k : Z → H X) (Q : X → Prop) :
  Forall byte name → (∀ dino, ends (k dino) Q) →
  ends (dino ← ialloc T_DIR; de ← dirent_s dino name; iappend parent de;; de ← dirent_s dino [46]; iappend dino de;;
        de ← dirent_s parent [46; 46]; iappend dino de;; k dino) Q.
Proof.
  intros Hn Hk. eapply ends_bind; [apply ends_ialloc|]. intros dino _.
  assert (Forall byte [46] ∧ Forall byte [46; 46]) as [H1 H2] by (split; repeat (apply Forall_cons_2; [done|]); apply Forall_nil_2).
  do 3 (eapply ends_bind; [by apply ends_dirent_s|]; intros ? ?; eapply ends_bind; [by apply ends_iappend|]; intros _ _). done.
Qed.
Lemma ends_add_dir parent name e : Forall byte name → node_ok e → ends (add_dir parent name e) (λ _, True).
Proof.
  revert parent name. induction e as [c|es IH|c] using node_ind_nested; intros parent name Hn Hok.
  1, 3: by apply ends_new_dir; [done|]; intros; apply ends_ret.
  inversion Hok as [|es' Hes|]; subst. destruct es as [es|]; (apply ends_new_dir; [done|]); intros dino; [|by apply ends_ret].
  apply (ends_bind (add_members dino es) _ (λ _, True)); [|intros; by apply ends_ret]. cbn in IH, Hes. clear Hok.
  induction IH as [|[nm e] es He _ IHs]; [by apply ends_ret|]. cbn [add_members].
  destruct (Hes nm e) as [Hnm Hoke]; [by left|]. cbn [snd] in He.
  apply (ends_bind _ _ (λ _, True)); [|intros _ _; apply IHs; intros; apply Hes; by right].
  unfold add_member. apply ends_if; intros _; [by apply ends_ret|]. destruct e as [c|es'|c].
  - apply ends_add_file; [done|]. by inversion Hoke.
  - eapply ends_bind; [by apply He|]. intros. by apply ends_ret.
  - by apply ends_ret.
Qed.

Lemma ends_main_arg root path n : Forall byte path → node_ok n → ends (main_arg root path n) (λ _, True).
Proof.
  intros Hp Hn.
  assert (Forall byte (strip_underscore (shorten path))) as Hs.
  { unfold strip_underscore, shorten. repeat case_match; repeat apply Forall_drop; done. }
  assert (∀ c, chunks_ok c → ends (assert_ (negb (bool_decide (SLASH ∈ shorten path)));;
    match c with None => die "open" | Some chunks => inum ← ialloc T_FILE;
      iappend root (dirent_n inum (strip_underscore (shorten path)));; append_chunks inum chunks end) (λ _, True)) as Hf.
  { intros c Hc. eapply ends_bind; [apply ends_assert|]. intros _ _. destruct c; [by apply ends_new_file|apply ends_panic]. }
  destruct n as [c|es|c]; cbn [main_arg].
  - apply Hf. by inversion Hn.
  - eapply ends_bind; [by apply ends_add_dir|]. intros. by apply ends_ret.
  - apply Hf. by inversion Hn.
Qed.
Lemma ends_main_args root args :
  (∀ path n, (path, n) ∈ args → Forall byte path ∧ node_ok n) → ends (main_args root args) (λ _, True).
Proof.
  induction args as [|[path n] args IH]; intros Ha; [by apply ends_ret|]. cbn [main_args].
  destruct (Ha path n) as [Hp Hn]; [by left|]. eapply ends_bind; [by apply ends_main_arg|].
  intros _ _. apply IH. intros. apply Ha. by right.
Qed.
Lemma ends_zero_loop n i : ends (zero_loop n i) (λ _, True).
Proof.
  revert i. induction n as [|n IH]; intros i; [by apply ends_ret|]. eapply ends_bind; [apply ends_wsect, zero_block_ok|]. auto.
Qed.
Lemma mark_loop_block n i d : 0 ≤ i → block_ok d → block_ok (mark_loop n i d).
Proof.
  revert i d. induction n as [|n IH]; intros i d Hi [Hl Hd]; [done|]. cbn [mark_loop]. apply IH; [lia|].
  split; [by rewrite length_insert|]. apply Forall_insert; [done|].
  assert (byte (nth (Z.to_nat (i / 8)) d 0)) as Hb.
  { rewrite nth_lookup_Z. destruct (d !! _) as [v|] eqn:E; [|done]. by apply (proj1 (Forall_lookup _ _) Hd _ _ E). }
  assert (0 ≤ i mod 8 < 8) as Hm by (apply Z.mod_pos_bound; lia).
  unfold byte in *. rewrite Z.shiftl_1_l. split; [apply Z.lor_nonneg; split; [lia|]; apply Z.pow_nonneg; lia|].
  change 256 with (2 ^ 8). apply Z.log2_lt_cancel. rewrite Z.log2_lor by (apply Z.pow_nonneg || idtac; lia).
  rewrite Z.log2_pow2 by lia. change (Z.log2 (2 ^ 8)) with 8. destruct (decide (nth (Z.to_nat (i / 8)) d 0 = 0)) as [->|Hne]; [cbn; lia|].
  pose proof (proj1 (Z.log2_lt_pow2 (nth (Z.to_nat (i / 8)) d 0) 8 ltac:(lia))). lia.
Qed.

