(* ===== verification/MkfsBoot.v ===== *)
(** * The kernel on the image that mkfs builds

    mkfs.c and fs.c agree on the layout of the disk: on an image of [mkfs], with
    the super block that [readsb] finds there, the table entry that [ilock]
    fills in for an inode is a file in the sense of the file system's theorems,
    and [readi] returns the bytes that [mkfs] was given. *)

From S2P Require Import Prelude Bytes Riscv Kstate CString Kalloc Vm Sched Bio Log LogProps LogCrash LogTxn Printf Console Fs FsPath FsTxn FsAlloc FsFile FsBmap Mkfs MkfsProps MkfsImage MkfsMain.

Lemma ldl_slice n d o p : (p + n ≤ 64)%nat → ldl n (slice o 64 d) p = ldl n d (o + p).
Proof.
  revert p. induction n as [|n IH]; intros p Hp; [done|]. cbn [ldl]. rewrite IH by lia. rewrite <- Nat.add_succ_r.
  rewrite !nth_lookup_Z. unfold slice. by rewrite lookup_take_lt, lookup_drop by lia.
Qed.
Lemma s16_range z : - 2 ^ 15 ≤ s16 z < 2 ^ 15.
Proof. unfold s16. pose proof (Z.mod_pos_bound (z + 2 ^ 15) (2 ^ 16)). lia. Qed.

Section boot.
Context (st : mkst) (A : filemap) (R : rep st A) (I : image_holds st A).
Context (s : kstate) (Hv : ∀ y, fview s y = vw st y) (Hsb : sb s = the_sb).
Lemma boot_BBLOCK c : 0 ≤ c < 4000 → BBLOCK c (sb s) = 45.
Proof using Hsb. intros Hc. rewrite Hsb. unfold BBLOCK. change BPB with 8192. by rewrite Z.div_small by lia. Qed.
Lemma boot_used c : 0 ≤ c < 4000 → used s c = (c <? freeblock st).
Proof using I Hv Hsb. intros Hc. unfold used. rewrite Hsb, Hv. by apply I. Qed.
(** A block in use that is not the bitmap. *)
Lemma boot_data a : 0 < a < freeblock st → a ≠ 45 → data_block s a.
Proof using R I Hv Hsb.
  intros Ha Hn. pose proof (co_fb _ _ _ _ (rp_core _ _ R)) as [_ Hfb]. change FSSIZE with 4000 in Hfb.
  assert (sb_size (sb s) = 4000) as Hsz by (by rewrite Hsb). unfold data_block. rewrite Hsz, boot_used, (proj2 (Z.ltb_lt _ _)) by lia.
  split_and!; [lia..|done|]. intros c Hc. by rewrite boot_BBLOCK by lia.
Qed.

Context (i : nat) (t : Z) (b : list Z) (HA : A !! i = Some (t, b)).
Context (x0 : inode) (Hi : i_inum x0 = 1 + Z.of_nat i) (Hd : i_dev x0 = ROOTDEV).

Let D : list Z := inode_at st (1 + Z.of_nat i).
(** What [ilock] makes of the table entry. *)
Let x : inode := di_get (fview s (IBLOCK (i_inum x0) (sb s))) x0.

Lemma boot_lt : (i < length A)%nat.
Proof using HA. by eapply lookup_lt_Some. Qed.
Lemma boot_D : inodes st (length A) !! i = Some D.
Proof using HA. apply lookup_inodes, boot_lt. Qed.
Lemma boot_field n p : (p + n ≤ 64)%nat → ldl n (fview s (IBLOCK (i_inum x0) (sb s))) (dip (i_inum x0) + p) = ldl n D p.
Proof using Hv Hsb Hi. intros Hp. unfold D, inode_at. rewrite Hv, Hsb, Hi. symmetry. by apply ldl_slice. Qed.
Lemma boot_addr k : (k ≤ NDIRECT)%nat → nth k (i_addrs x) 0 = din_addr D (Z.of_nat k).
Proof using Hv Hsb Hi.
  intros Hk. change (i_addrs x) with (di_addrs (fview s (IBLOCK (i_inum x0) (sb s))) (i_inum x0)). unfold di_addrs.
  rewrite nth_lookup_Z, list_lookup_fmap, lookup_seq_lt by lia. cbn [fmap option_fmap option_map default].
  unfold id. rewrite <- Nat.add_assoc, boot_field by (unfold NDIRECT in *; lia). unfold din_addr.
  by replace (Z.to_nat (12 + 4 * Z.of_nat k)) with (12 + 4 * (0 + k))%nat by lia.
Qed.
Lemma boot_size : i_size x = size_of b.
Proof using R HA Hv Hsb Hi.
  change (i_size x) with (ldl 4 (fview s (IBLOCK (i_inum x0) (sb s))) (dip (i_inum x0) + 8)). rewrite boot_field by lia.
  exact (rp_size _ _ R i t b HA).
Qed.
Lemma boot_type : i_type x = t ∧ i_nlink x = 1.
Proof using R HA Hv Hsb Hi.
  destruct (co_type _ _ _ _ (rp_core _ _ R) i D t b boot_D HA) as (H1 & H2 & H3).
  change (i_type x) with (s16 (ldl 2 (fview s (IBLOCK (i_inum x0) (sb s))) (dip (i_inum x0)))).
  change (i_nlink x) with (s16 (ldl 2 (fview s (IBLOCK (i_inum x0) (sb s))) (dip (i_inum x0) + 6))).
  rewrite boot_field by lia. rewrite <- (Nat.add_0_r (dip _)), boot_field, H1, H2 by lia. by destruct H3 as [->| ->].
Qed.
Lemma boot_baddr n : 0 ≤ n → baddr s x n = daddr (vw st) D n.
Proof using Hv Hsb Hi.
  intros Hn. unfold baddr, daddr, din_ind. rewrite (boot_addr NDIRECT) by lia. rewrite Hv.
  destruct (n <? Z.of_nat NDIRECT) eqn:E; [|done]. zbool. rewrite boot_addr by lia. f_equal. lia.
Qed.
Lemma boot_slot n : 0 ≤ n → slot s x n = dslot (vw st) D n.
Proof using Hv Hsb Hi.
  intros Hn. unfold slot, dslot, ind, din_ind. rewrite (boot_addr NDIRECT) by lia. destruct (n =? MAXFILE); [done|]. by apply boot_baddr.
Qed.
Lemma boot_inum : 32 ≤ IBLOCK (i_inum x) (sb s) < 45.
Proof using R HA Hsb Hi.
  pose proof (rep_inum st A i R boot_lt) as Hin. change (i_inum x) with (i_inum x0). rewrite Hi, Hsb.
  destruct (iblock_range _ Hin) as [E [H1 _]]. split; [done|]. rewrite E. unfold inum_ok in Hin. change (ninodeblocks * IPB) with 208 in Hin.
  pose proof (Z.div_lt_upper_bound (1 + Z.of_nat i) IPB 13 ltac:(done)). change IPB with 16 in *. lia.
Qed.
Lemma boot_file : fs_file s x.
Proof using All.
  pose proof (rp_core _ _ R) as C. pose proof (co_fb _ _ _ _ C) as [Hf1 Hf2]. change nmeta with 46 in Hf1. change FSSIZE with 4000 in Hf2.
  assert (sb_size (sb s) = 4000) as Hsz by (by rewrite Hsb). pose proof boot_inum as Hib.
  assert (∀ n, 0 ≤ n ≤ MAXFILE → slot s x n ≠ 0 → 46 ≤ slot s x n < freeblock st) as Hr.
  { intros n Hn. rewrite boot_slot by lia. apply (co_range _ _ _ _ C i D n boot_D Hn). }
  pose proof (co_max _ _ _ _ C i t b HA) as Hmax. assert (MAXFILE * BSIZE < 2 ^ 32) by done.
  split.
  - split; rewrite Hsz; [lia|]. intros c Hc. rewrite boot_BBLOCK, boot_used by lia. apply Z.ltb_lt. lia.
  - intros c. rewrite Hsz. intros Hc. rewrite boot_BBLOCK by lia. lia.
  - rewrite boot_used by lia. apply Z.ltb_lt. lia.
  - unfold iblock. apply boot_data; lia.
  - split; try apply s16_range.
    + rewrite boot_size. unfold size_of in *. lia.
    + change (i_addrs x) with (di_addrs (fview s (IBLOCK (i_inum x0) (sb s))) (i_inum x0)). unfold di_addrs. by rewrite length_fmap, length_seq.
    + intros a (k & Hk)%list_elem_of_lookup. assert (k < S NDIRECT)%nat as Hlt.
      { apply lookup_lt_Some in Hk. change (i_addrs x) with (di_addrs (fview s (IBLOCK (i_inum x0) (sb s))) (i_inum x0)) in Hk.
        unfold di_addrs in Hk. by rewrite length_fmap, length_seq in Hk. }
      assert (a = nth k (i_addrs x) 0) as -> by (by rewrite nth_lookup_Z, Hk).
      assert (slot s x (slot_of k) = nth k (i_addrs x) 0) as <-.
      { unfold slot_of. case_decide as E; [subst k; apply slot_ind|]. rewrite slot_block by (unfold MAXFILE, NDIRECT in *; change NINDIRECT with 256; lia).
        unfold baddr. rewrite (proj2 (Z.ltb_lt _ _)) by lia. by rewrite Nat2Z.id. }
      destruct (decide (slot s x (slot_of k) = 0)) as [->|Hz]; [lia|]. pose proof (Hr _ (slot_of_range k ltac:(lia)) Hz). lia.
  - done.
  - rewrite boot_size. unfold size_of in *. lia.
  - rewrite boot_size. intros n Hn Hlt. rewrite boot_baddr by done. apply (co_map _ _ _ _ C i D t b n boot_D HA); [|done].
    split; [done|]. apply (Z.mul_lt_mono_pos_r BSIZE); [done|lia].
  - intros n Hn Hz. pose proof (Hr n Hn Hz). split; [apply boot_data; lia|]. unfold iblock. lia.
  - intros m n Hm Hn. rewrite !boot_slot by lia. intros E Hz. by apply (co_inj _ _ _ _ C i i D D m n boot_D boot_D).
Qed.
Lemma boot_bytes : fslice s x 0 (size_of b) = b.
Proof using All.
  destruct (rep_file st A i t b R HA) as (_ & _ & E). fold D in E. rewrite <- E at 2. unfold file_bytes, fslice.
  assert (din_size D = size_of b) as -> by exact (rp_size _ _ R i t b HA). apply list_fmap_ext.
  intros k c [-> Hk]%lookup_seqZ. unfold fbyte. rewrite boot_baddr by (apply Z.div_pos; [lia|done]). by rewrite Hv.
Qed.
End boot.

(** C21: mkfs and the kernel agree on the disk. mkfs builds its image, and on it,
    with the super block read from it, the table entry that ilock fills for any
    inode is a well-formed file of the given type with one link, and readi of
    its whole size returns exactly the bytes mkfs was given (padded to a block
    for the root directory). *)
Theorem kernel_reads_image args :
  forallb good_arg args = true → fits (tree args) → size_of (root_bytes (tree args)) mod BSIZE ≠ 0 →
  ∃ st, mkfs args = Ok () st ∧ ∀ me s i t b ip x0,
    txn me [] s → (∀ y, fview s y = vw st y) → sb s = sb_of (fview s 1) → (used_buffers [] s < NBUF)%nat →
    pad_root (tree args) !! i = Some (t, b) → i_inum x0 = 1 + Z.of_nat i → i_dev x0 = ROOTDEV →
    let x := di_get (fview s (IBLOCK (i_inum x0) (sb s))) x0 in
    itable s !! ip = Some x →
    fs_file s x ∧ i_type x = t ∧ i_nlink x = 1 ∧
    ∃ s', readi ip DLocal 0 (size_of b) s = Ok (size_of b, b) s' ∧ same_files me s s'.
Proof.
  intros Hg Hf Hm. destruct (mkfs_image args Hg Hf Hm) as (st & E & R & I). exists st. split; [exact E|].
  intros me s i t b ip x0 T Hv Hsb Hroom HA Hi Hd x Hx.
  assert (sb s = the_sb) as Hs by (rewrite Hsb, Hv; apply I).
  pose proof (boot_file st _ R I s Hv Hs i t b HA x0 Hi Hd) as F. destruct (boot_type st _ R s Hv Hs i t b HA x0 Hi) as [H1 H2].
  split; [exact F|]. split; [exact H1|]. split; [exact H2|].
  pose proof (boot_size st _ R s Hv Hs i t b HA x0 Hi) as Hz. fold x in F, Hz.
  pose proof (co_max _ _ _ _ (rp_core _ _ R) i t b HA) as Hmax. assert (MAXFILE * BSIZE < 2 ^ 32) by done.
  destruct (readi_slice me s ip x 0 (size_of b) T Hx (file_ok_of s x F) Hroom ltac:(lia) ltac:(unfold size_of in *; lia)) as (s' & Er & Sm).
  exists s'. split; [|exact Sm]. rewrite Er, Hz. rewrite (proj2 (Z.ltb_ge _ _)) by (unfold size_of; lia).
  rewrite (proj2 (Z.leb_gt _ _)) by (unfold size_of in *; lia). cbn [orb]. rewrite Z.sub_0_r, Z.min_id.
  pose proof (boot_bytes st _ R I s Hv Hs i t b HA x0 Hi Hd) as Hb. fold x in Hb. by rewrite Hb.
Qed.

(** The first operation after booting from the image, with one file open. *)
Definition boot_state (st : mkst) (x0 : inode) : kstate :=
  first_op (image st) the_sb [di_get (vw st (IBLOCK (i_inum x0) the_sb)) x0].
Lemma boot_state_env st A x0 :
  rep st A → txn proc0 [] (boot_state st x0) ∧ (∀ y, fview (boot_state st x0) y = vw st y) ∧ sb (boot_state st x0) = the_sb ∧
    (used_buffers [] (boot_state st x0) < NBUF)%nat ∧ itable (boot_state st x0) = [di_get (vw st (IBLOCK (i_inum x0) the_sb)) x0] ∧
    log (boot_state st x0) = mk_logst 2 1 false ROOTDEV 0 (replicate (Z.to_nat LOGBLOCKS) 0) ∧ locks (boot_state st x0) = [].
Proof.
  intros R. destruct (first_op_txn (image st) the_sb [di_get (vw st (IBLOCK (i_inum x0) the_sb)) x0]) as [T V].
  { intros bn d Hd. pose proof (co_vlen _ _ _ _ (rp_core _ _ R) bn) as Hl. unfold vw, dblock in Hl. by rewrite Hd in Hl. }
  unfold boot_state. split; [exact T|]. split; [exact V|]. unfold first_op. rewrite itable_setf, locks_setf.
  split; [done|]. split; [|by rewrite log_setf]. unfold used_buffers. rewrite log_setf. vm_compute. lia.
Qed.
Lemma kernel_reads_image_witness :
  ∃ s s', readi 0 DLocal 0 14 s = Ok (14, codes "FogOS is an OS") s'.
Proof.
  assert (forallb good_arg demo_args = true ∧ fits (tree demo_args) ∧ size_of (root_bytes (tree demo_args)) mod BSIZE ≠ 0) as (H1 & H2 & H3).
  { split; [vm_compute; reflexivity|]. split; [apply fits_iff; vm_compute; reflexivity|vm_compute; discriminate]. }
  destruct (mkfs_image demo_args H1 H2 H3) as (st & E & R & I).
  destruct (kernel_reads_image demo_args H1 H2 H3) as (st' & E' & K). rewrite E in E'. injection E' as <-.
  set (x0 := inode0 <| upd_i_dev := ROOTDEV |> <| upd_i_inum := 2 |>).
  destruct (boot_state_env st _ x0 R) as (T & V & S & B & Ht & _). exists (boot_state st x0).
  destruct (K proc0 (boot_state st x0) 1%nat T_FILE (codes "FogOS is an OS") 0%nat x0) as (_ & _ & _ & s' & Er & _).
  - exact T.
  - exact V.
  - rewrite S, V. symmetry. apply I.
  - exact B.
  - vm_compute. reflexivity.
  - reflexivity.
  - reflexivity.
  - by rewrite Ht, S, V.
  - exists s'. exact Er.
Defined.
