(* ===== verification/FsLink.v ===== *)
(** * kernel/fs.c: adding an entry to a directory

    [entries s x] are the entries of the directory [x]; [find_name] is what a
    name means in them.  [dirlink] refines the insertion of a name into that
    map, and [dirlookup] then finds it. *)

From S2P Require Import Prelude Bytes Riscv Kstate CString Kalloc Vm Sched Bio Log LogProps LogCrash LogTxn Printf Console Fs FsPath FsTxn FsAlloc FsFile FsDir FsBmap File FsWrite Mkfs MkfsProps MkfsImage MkfsMain MkfsBoot.

Definition entries (s : kstate) (x : inode) : list (list Z) := dirent s x <$> seqZ 0 (nentries x).
Definition names_b (name de : list Z) : bool := negb (de_inum de =? 0) && bool_decide (name_str name = name_str (de_name de)).
(** The inode number of the first entry with the name. *)
Fixpoint find_name (name : list Z) (es : list (list Z)) : option Z :=
  match es with [] => None | de :: es => if names_b name de then Some (de_inum de) else find_name name es end.

Lemma names_b_iff name de : names_b name de = true ↔ FsDir.names name de.
Proof. unfold names_b, FsDir.names. by rewrite andb_true_iff, negb_true_iff, Z.eqb_neq, bool_decide_eq_true. Qed.
Lemma find_none name es : find_name name es = None ↔ ∀ i de, es !! i = Some de → names_b name de = false.
Proof.
  induction es as [|e es IH]; cbn [find_name]; [split; [done|by intros _]|]. destruct (names_b name e) eqn:E.
  - split; [done|]. intros H. specialize (H 0%nat e eq_refl). congruence.
  - rewrite IH. split; [|intros H i de Hi; by apply (H (S i) de)]. intros H [|i] de; [by intros [= <-]|apply H].
Qed.
Lemma find_first name es i de :
  es !! i = Some de → names_b name de = true → (∀ j d, (j < i)%nat → es !! j = Some d → names_b name d = false) →
  find_name name es = Some (de_inum de).
Proof.
  revert i. induction es as [|e es IH]; intros [|i]; cbn [find_name]; [done..| |].
  - intros [= ->] H _. by rewrite H.
  - intros Hi H Hb. rewrite (Hb 0%nat e) by (done || lia). apply (IH i); [done..|]. intros j d Hj Hd. apply (Hb (S j)); [lia|done].
Qed.

(** An entry stored where there was an empty one, or at the end. *)
Definition stored (j : nat) (e : list Z) (es es' : list (list Z)) : Prop :=
  (∃ d, es !! j = Some d ∧ de_inum d = 0 ∧ es' = <[j := e]> es) ∨ (j = length es ∧ es' = es ++ [e]).
Lemma empty_unnamed name d : de_inum d = 0 → names_b name d = false.
Proof. intros H. unfold names_b. by rewrite H. Qed.
Lemma find_stored name j e es es' :
  stored j e es es' → names_b name e = false → find_name name es' = find_name name es.
Proof.
  intros [(d & Hd & Hz & ->)|[-> ->]] He.
  - revert j Hd. induction es as [|f es IH]; intros [|j]; [done..| |].
    + intros [= ->]. cbn [insert list_insert find_name]. by rewrite He, (empty_unnamed name d Hz).
    + intros Hj. change (find_name name (f :: <[j := e]> es) = find_name name (f :: es)). cbn [find_name]. by rewrite IH.
  - induction es as [|f es IH]; cbn [app find_name]; [by rewrite He|]. by rewrite IH.
Qed.
Lemma find_new name j e es es' :
  stored j e es es' → names_b name e = true → find_name name es = None → find_name name es' = Some (de_inum e).
Proof.
  intros Hst He Hn. rewrite find_none in Hn. apply (find_first name es' j e); [|done|].
  - destruct Hst as [(d & Hd & _ & ->)|[-> ->]]; [apply list_lookup_insert_eq; by eapply lookup_lt_Some|by apply list_lookup_middle].
  - intros k d Hk. destruct Hst as [(f & Hf & _ & ->)|[-> ->]].
    + rewrite list_lookup_insert_ne by lia. apply Hn.
    + rewrite lookup_app_l by done. apply Hn.
Qed.

(** ** The new entry *)

Lemma length_pad_name name : length (pad_name name) = DIRSIZ.
Proof. unfold pad_name. rewrite length_app, length_replicate, length_take. lia. Qed.
Lemma until_nul_no0 name : 0 ∉ until_nul name.
Proof.
  induction name as [|c name IH]; cbn [until_nul]; [apply not_elem_of_nil|]. destruct (c =? 0) eqn:E; [apply not_elem_of_nil|].
  zbool. rewrite not_elem_of_cons. done.
Qed.
Lemma name_str_pad name : name_str (pad_name name) = name_str name.
Proof.
  unfold name_str at 1, pad_name. set (c := take DIRSIZ (until_nul name)).
  assert (0 ∉ c) as Hc by (intros H; apply (until_nul_no0 name); by eapply elem_of_subseteq; [apply subseteq_take|]).
  assert (length c ≤ DIRSIZ)%nat as Hl by (unfold c; rewrite length_take; lia).
  destruct (DIRSIZ - length c)%nat as [|m] eqn:E.
  - rewrite app_nil_r, until_nul_id by done. by rewrite take_ge.
  - cbn [replicate]. rewrite until_nul_app by done. by rewrite take_ge.
Qed.
Lemma mk_dirent_ok name inum :
  0 < inum < 2 ^ 16 → Forall (λ c, 0 ≤ c < 256) name →
  length (mk_dirent name inum) = 16%nat ∧ de_inum (mk_dirent name inum) = inum ∧
  (∀ name', names_b name' (mk_dirent name inum) = bool_decide (name_str name' = name_str name)) ∧
  Forall (λ c, 0 ≤ c < 256) (mk_dirent name inum).
Proof.
  intros Hi Hn. assert (de_inum (mk_dirent name inum) = inum) as E.
  { unfold de_inum, mk_dirent, u8. cbn [ldl nth app]. change (2 ^ 8) with 256. change (2 ^ 16) with 65536 in Hi.
    pose proof (Z.div_mod inum 256). rewrite (Z.mod_small (inum / 256)); [lia|].
    split; [apply Z.div_pos; lia|apply Z.div_lt_upper_bound; lia]. }
  split_and!.
  - unfold mk_dirent. rewrite length_app, length_pad_name. done.
  - done.
  - intros name'. unfold names_b. rewrite E, (proj2 (Z.eqb_neq _ _)) by lia. cbn [negb andb].
    change (de_name (mk_dirent name inum)) with (pad_name name). by rewrite name_str_pad.
  - unfold mk_dirent. rewrite Forall_app. split.
    + repeat apply Forall_cons_2; try apply Forall_nil_2; apply Z.mod_pos_bound; lia.
    + unfold pad_name. rewrite Forall_app. split; [|apply Forall_replicate; lia]. apply Forall_take.
      clear E. induction Hn as [|c l Hc _ IH]; cbn [until_nul]; [apply Forall_nil_2|]. destruct (c =? 0); [apply Forall_nil_2|by apply Forall_cons_2].
Qed.

(** ** The first empty entry *)

Lemma nentries_size x : i_size x mod DIRENT_SIZE = 0 → i_size x = DIRENT_SIZE * nentries x.
Proof. intros H. unfold nentries. rewrite (Z.div_mod (i_size x) DIRENT_SIZE) at 1 by done. lia. Qed.
Lemma dirlink_slot_ok me dp x fuel s k :
  txn me [] s → itable s !! dp = Some x → file_ok s x → i_size x mod DIRENT_SIZE = 0 →
  (used_buffers [] s < NBUF)%nat → 0 ≤ k ≤ nentries x → nentries x - k < Z.of_nat fuel →
  ∃ j s1, dirlink_slot fuel dp (DIRENT_SIZE * k) s = Ok (DIRENT_SIZE * j) s1 ∧ same_files me s s1 ∧ k ≤ j ≤ nentries x ∧
    (j < nentries x → de_inum (dirent s x j) = 0).
Proof.
  intros T Hx Hf Hmod Hroom Hk Hfuel. pose proof (nentries_size x Hmod) as Hsz. pose proof (fo_size _ _ Hf) as Hfs.
  assert (MAXFILE * BSIZE < 2 ^ 31) by done. change DIRENT_SIZE with 16 in *.
  revert s k T Hx Hf Hroom Hk Hfuel. induction fuel as [|fuel IH]; intros s k T Hx Hf Hroom Hk Hfuel; [lia|].
  cbn [dirlink_slot]. rewrite (bind_ok _ _ _ _ _ (geti_ok s dp x Hx)). destruct (16 * k <? i_size x) eqn:E; zbool; cbn [negb].
  2:{ exists k, s. split_and!; try done; lia. }
  destruct (read_dirent_ok me dp x s k "dirlink read") as (s1 & E1 & R1); try done; [lia|change DIRENT_SIZE with 16; lia|].
  change DIRENT_SIZE with 16 in E1. rewrite (bind_ok _ _ _ _ _ E1). destruct (de_inum (dirent s x k) =? 0) eqn:Ez; zbool.
  { exists k, s1. split_and!; try done; lia. }
  change DIRENT_SIZE with 16. replace (16 * k + 16) with (16 * (k + 1)) by lia. pose proof R1 as (M1 & T1 & L1 & V1).
  destruct (IH s1 (k + 1)) as (j & s2 & E2 & R2 & Hj & Hz); [done|by rewrite (moves_itable _ _ M1)|by eapply file_ok_same| |lia|lia|].
  { unfold used_buffers. by rewrite L1. }
  exists j, s2. split_and!; [done|by eapply same_files_trans|lia|lia|]. intros Hlt. rewrite <- (same_files_entry me x s s1) by done. by apply Hz.
Qed.

(** ** Entries after a write *)

Lemma dirent_written ip s x j e s' x' :
  i_size x mod DIRENT_SIZE = 0 → 0 ≤ i_size x → 0 ≤ j ≤ nentries x → length e = 16%nat → written ip s x (DIRENT_SIZE * j) e s' x' →
  nentries x' = Z.max (nentries x) (j + 1) ∧ i_size x' mod DIRENT_SIZE = 0 ∧
  ∀ i, 0 ≤ i < nentries x' → dirent s' x' i = if decide (i = j) then e else dirent s x i.
Proof.
  intros Hmod H0 Hj Hl W. pose proof (nentries_size x Hmod) as Hsz. change DIRENT_SIZE with 16 in *.
  assert (i_size x' = 16 * Z.max (nentries x) (j + 1)) as Hs'.
  { rewrite (wn_fields _ _ _ _ _ _ _ W). cbn [i_size upd_i_size]. rewrite Hl. lia. }
  assert (nentries x' = Z.max (nentries x) (j + 1)) as Hn'.
  { unfold nentries at 1. rewrite Hs'. change DIRENT_SIZE with 16. rewrite Z.mul_comm. by apply Z.div_mul. }
  split_and!; [done|rewrite Hs', Z.mul_comm; by apply Z.mod_mul|]. intros i Hi. apply list_eq. intros k. unfold dirent, fslice.
  change DIRENT_SIZE with 16. destruct (decide (k < 16)%nat) as [Hk|Hk].
  - rewrite list_lookup_fmap, lookup_seqZ_lt by lia. cbn [fmap option_fmap option_map].
    rewrite (wn_bytes _ _ _ _ _ _ _ W) by (rewrite Hs'; lia). rewrite Hl. destruct (decide (i = j)) as [->|Hne].
    + rewrite decide_True by lia. destruct (lookup_lt_is_Some_2 e k) as [v Hv]; [lia|].
      rewrite nth_lookup_Z. replace (Z.to_nat (16 * j + Z.of_nat k - 16 * j)) with k by lia. by rewrite Hv.
    + rewrite decide_False by lia. by rewrite list_lookup_fmap, lookup_seqZ_lt by lia.
  - rewrite list_lookup_fmap, lookup_seqZ_ge by lia. symmetry. apply lookup_ge_None_2.
    destruct (decide (i = j)); [lia|]. rewrite length_fmap, length_seqZ. lia.
Qed.
Lemma entries_stored s x j e s' x' :
  0 ≤ j ≤ nentries x → (j < nentries x → de_inum (dirent s x j) = 0) → nentries x' = Z.max (nentries x) (j + 1) →
  (∀ i, 0 ≤ i < nentries x' → dirent s' x' i = if decide (i = j) then e else dirent s x i) →
  stored (Z.to_nat j) e (entries s x) (entries s' x').
Proof.
  intros Hj Hz Hn He. unfold entries. destruct (decide (j < nentries x)) as [Hlt|Hge]; [left|right].
  - exists (dirent s x j). rewrite Hn, Z.max_l by lia. split_and!; [|by apply Hz|].
    + rewrite list_lookup_fmap, lookup_seqZ_lt by lia. cbn. do 2 f_equal. lia.
    + apply list_eq. intros k. rewrite list_lookup_insert, length_fmap, length_seqZ, !list_lookup_fmap.
      destruct (decide (Z.of_nat k < nentries x)).
      * rewrite lookup_seqZ_lt by lia. cbn [fmap option_fmap option_map]. rewrite He by lia. repeat case_decide; (lia || done).
      * rewrite lookup_seqZ_ge by lia. rewrite decide_False by lia. done.
  - assert (j = nentries x) as -> by lia. rewrite length_fmap, length_seqZ. split; [lia|].
    apply list_eq. intros k. rewrite list_lookup_fmap, Hn, Z.max_r by lia. destruct (decide (Z.of_nat k < nentries x)).
    + rewrite lookup_app_l by (rewrite length_fmap, length_seqZ; lia). rewrite list_lookup_fmap, !lookup_seqZ_lt by lia.
      cbn [fmap option_fmap option_map]. rewrite He by lia. by rewrite decide_False by lia.
    + rewrite lookup_app_r by (rewrite length_fmap, length_seqZ; lia). rewrite length_fmap, length_seqZ.
      destruct (decide (Z.of_nat k = nentries x)) as [E|E].
      * rewrite lookup_seqZ_lt by lia. cbn [fmap option_fmap option_map]. rewrite He by lia. rewrite decide_True by lia.
        by replace (k - Z.to_nat (nentries x))%nat with 0%nat by lia.
      * rewrite lookup_seqZ_ge by lia. symmetry. apply lookup_ge_None_2. cbn. lia.
Qed.

Lemma entry_budget j : 0 ≤ j → budget (DIRENT_SIZE * j) 16 ≤ 2.
Proof.
  intros Hj. unfold budget. change (16 <=? 0) with false. cbn iota. change DIRENT_SIZE with 16. change BSIZE with 1024 in *.
  set (r := (16 * j) mod 1024). assert (0 ≤ r ≤ 1008) as Hr.
  { unfold r. change 1024 with (16 * 64). rewrite Z.mul_mod_distr_l by lia. pose proof (Z.mod_pos_bound j 64 ltac:(lia)). lia. }
  destruct (r =? 0) eqn:E; zbool; [vm_compute; discriminate|]. pose proof (cdiv_bounds (16 - (1024 - r))) as Hc. change BSIZE with 1024 in *.
  specialize (Hc ltac:(lia)). nia.
Qed.
(** No entry has the name. *)
Lemma find_none_entries s x name i : find_name name (entries s x) = None → 0 ≤ i < nentries x → ¬ FsDir.names name (dirent s x i).
Proof.
  intros Hn Hi Hm. apply names_b_iff in Hm. rewrite (proj1 (find_none name (entries s x)) Hn (Z.to_nat i)) in Hm; [done|].
  unfold entries. rewrite list_lookup_fmap, lookup_seqZ_lt by lia. cbn. do 2 f_equal. lia.
Qed.
Lemma dirlookup_runs me s dp x name :
  txn me [] s → itable s !! dp = Some x → i_type x = T_DIR → file_ok s x → i_size x mod DIRENT_SIZE = 0 →
  (used_buffers [] s < NBUF)%nat →
  ∃ s1, same_files me s s1 ∧
    match find_name name (entries s x) with
    | None => dirlookup dp name s = Ok None s1
    | Some inum => ∃ off, dirlookup dp name s = (ip ← iget ROOTDEV inum; mret (Some (ip, off))) s1
    end.
Proof.
  intros T Hx Hty Hf Hmod Hroom. unfold dirlookup. rewrite (bind_ok _ _ _ _ _ (geti_ok s dp x Hx)), Hty.
  change (T_DIR =? T_DIR) with true. cbn [negb].
  pose proof (Z.div_pos (i_size x) DIRENT_SIZE (proj1 (fo_size _ _ Hf)) ltac:(done)) as Hn.
  destruct (dirlookup_loop_ok me dp x name (dir_fuel x) s 0) as (s1 & R & Hor); try done; [unfold nentries, dir_fuel; lia|].
  rewrite Z.mul_0_r in Hor. exists s1. split; [done|]. destruct Hor as [(j & Hj & Hm & Hno & E)|[Hno E]].
  - rewrite (find_first name (entries s x) (Z.to_nat j) (dirent s x j)); [by eexists| |by apply names_b_iff|].
    + unfold entries. rewrite list_lookup_fmap, lookup_seqZ_lt by lia. cbn. do 2 f_equal. lia.
    + intros k d Hk. unfold entries. rewrite list_lookup_fmap, lookup_seqZ_lt by lia. intros [= <-].
      apply not_true_is_false. rewrite names_b_iff. apply Hno. lia.
  - rewrite (proj2 (find_none name (entries s x))); [done|]. intros k d. unfold entries. rewrite list_lookup_fmap.
    destruct (decide (Z.of_nat k < nentries x)); [|by rewrite lookup_seqZ_ge by lia]. rewrite lookup_seqZ_lt by lia.
    intros [= <-]. apply not_true_is_false. rewrite names_b_iff. apply Hno. lia.
Qed.

(** Reading leaves directories as they are. *)
Lemma same_files_dir me s s' x : same_files me s s' → fs_file s x → fs_file s' x ∧ entries s' x = entries s x.
Proof.
  intros R F. pose proof R as (M & _ & _ & V). split.
  - apply (fs_file_same s); [done|by apply moves_sb| |].
    + intros c _. unfold used. by rewrite V, (moves_sb _ _ M).
    + intros n _. unfold slot. by rewrite (baddr_same s s' V).
  - apply list_fmap_ext. intros k y _. by apply (same_files_entry me).
Qed.


(** The entries of a directory from its bytes. *)
Definition cut_entries (b : list Z) : list (list Z) :=
  (λ k, take 16 (drop (16 * k) b)) <$> seq 0 (length b / 16).
Lemma entries_cut s x : 0 ≤ i_size x → entries s x = cut_entries (fslice s x 0 (i_size x)).
Proof.
  intros H0. unfold entries, cut_entries, nentries. change DIRENT_SIZE with 16.
  assert (length (fslice s x 0 (i_size x)) = Z.to_nat (i_size x)) as -> by (unfold fslice; by rewrite length_fmap, length_seqZ).
  assert (Z.to_nat (i_size x) / 16 = Z.to_nat (i_size x / 16))%nat as -> 
    by (apply Nat2Z.inj; rewrite Nat2Z.inj_div, !Z2Nat.id by (lia || (apply Z.div_pos; lia)); done).
  pose proof (Z.mul_div_le (i_size x) 16 ltac:(lia)) as Hle.
  apply list_eq. intros k. rewrite !list_lookup_fmap. destruct (decide (k < Z.to_nat (i_size x / 16))%nat) as [Hk|Hk].
  - rewrite lookup_seqZ_lt, lookup_seq_lt by lia. cbn [fmap option_fmap option_map]. f_equal. unfold dirent, fslice. change DIRENT_SIZE with 16.
    apply list_eq. intros m. rewrite list_lookup_fmap. destruct (decide (m < 16)%nat).
    + rewrite lookup_take_lt, lookup_drop, list_lookup_fmap, !lookup_seqZ_lt by lia. cbn [fmap option_fmap option_map]. do 2 f_equal. lia.
    + by rewrite lookup_seqZ_ge, lookup_take_ge by lia.
  - rewrite lookup_seqZ_ge by lia. rewrite lookup_ge_None_2; [done|]. rewrite length_seq. lia.
Qed.

