(* ===== verification/Proc.v ===== *)
(** * kernel/proc.c: processes

    Creation ([allocproc], [kfork], [userinit]), memory ([proc_pagetable],
    [growproc], [kmmap], [kmunmap]), death ([kexit], [reparent], [freeproc],
    [kwait], [wait2]) and the scheduler.  (Sleeping and waking are in Sched.v,
    [procdump] and the copy routines in Console.v, [forkret] in Trap.v.)

    A pointer to a process is its index in [procs].  [trampoline] and
    [forkret] are the addresses the linker gives these symbols. *)

From S2P Require Import Prelude Bytes Riscv Kstate CString Kalloc Vm Sched Bio Log Printf Console Pipe Fs File.

(** ** Creation *)

Fixpoint procinit_loop (n i : nat) : K () :=
  match n with
  | O => mret ()
  | S n =>
      setproc i (λ p, p <| upd_pr_state := UNUSED |>);;
      setproc i (λ p, p <| upd_pr_kstack := KSTACK (Z.of_nat i) |>);;
      procinit_loop n (S i)
  end.
Definition procinit : K () := procinit_loop NPROC 0.

Definition allocpid : K Z :=
  acquire LPid;;
  pid ← gets nextpid;
  put upd_nextpid (pid + 1);;
  release LPid;;
  mret pid.

Definition proc_pagetable (trampoline : Z) (i : nat) : K Z :=
  pagetable ← uvmcreate;
  if pagetable =? 0 then mret 0 else
  r ← mappages pagetable TRAMPOLINE PGSIZE trampoline (Z.lor PTE_R PTE_X);
  if r <? 0 then uvmfree pagetable 0;; mret 0 else
  p ← getproc i;
  r ← mappages pagetable TRAPFRAME PGSIZE (pr_trapframe p) (Z.lor PTE_R PTE_W);
  if r <? 0 then
    uvmunmap pagetable TRAMPOLINE 1 false;; uvmfree pagetable 0;; mret 0
  else mret pagetable.

Definition proc_freepagetable (pagetable sz : Z) : K () :=
  uvmunmap pagetable TRAMPOLINE 1 false;;
  uvmunmap pagetable TRAPFRAME 1 false;;
  uvmfree pagetable sz.

Definition clear_mmaps (p : proc) : proc :=
  p <| upd_pr_mmaps ::= fmap (λ r, r <| upd_mm_used := false |>) |>.
Definition freeproc (i : nat) : K () :=
  p ← getproc i;
  whenM (nz (pr_trapframe p)) (kfree (pr_trapframe p));;
  setproc i (λ p, p <| upd_pr_trapframe := 0 |>);;
  p ← getproc i;
  whenM (nz (pr_pagetable p)) (proc_freepagetable (pr_pagetable p) (pr_sz p));;
  setproc i (λ p, p <| upd_pr_pagetable := 0 |> <| upd_pr_sz := 0 |> <| upd_pr_pid := 0 |>
    <| upd_pr_parent := None |> <| upd_pr_name ::= <[0%nat := 0]> |> <| upd_pr_chan := None |>
    <| upd_pr_killed := 0 |> <| upd_pr_xstate := 0 |> <| upd_pr_traced := 0 |>
    <| upd_pr_tracing := 0 |>);;
  setproc i clear_mmaps;;
  setproc i (λ p, p <| upd_pr_state := UNUSED |> <| upd_pr_syscall_count := 0 |>).

(** The part of [allocproc] after [found:]. *)
Definition allocproc_found (trampoline forkret : Z) (i : nat) : K (option nat) :=
  pid ← allocpid;
  setproc i (λ p, p <| upd_pr_pid := pid |> <| upd_pr_state := USED |>);;
  setproc i clear_mmaps;;
  tf ← kalloc;
  setproc i (λ p, p <| upd_pr_trapframe := tf |>);;
  if tf =? 0 then freeproc i;; release (LProc i);; mret None else
  pt ← proc_pagetable trampoline i;
  setproc i (λ p, p <| upd_pr_pagetable := pt |>);;
  if pt =? 0 then freeproc i;; release (LProc i);; mret None else
  setproc i (λ p, p <| upd_pr_ctx_ra := forkret |> <| upd_pr_ctx_sp := pr_kstack p + PGSIZE |>);;
  mret (Some i).
(** When no entry is UNUSED the loop ends with [p == &proc[NPROC]], and the
    two assignments before [return 0] store past the end of the table. *)
Fixpoint allocproc_loop (n i : nat) (trampoline forkret : Z) : K (option nat) :=
  match n with
  | O =>
      setproc i (λ p, p <| upd_pr_nice := 0 |>);;
      setproc i (λ p, p <| upd_pr_priority := 3 - pr_nice p |>);;
      mret None
  | S n =>
      acquire (LProc i);;
      p ← getproc i;
      if bool_decide (pr_state p = UNUSED) then allocproc_found trampoline forkret i
      else release (LProc i);; allocproc_loop n (S i) trampoline forkret
  end.
Definition allocproc (trampoline forkret : Z) : K (option nat) :=
  allocproc_loop NPROC 0 trampoline forkret.

Definition userinit (trampoline forkret : Z) : K () :=
  p ← allocproc trampoline forkret;
  put upd_initproc p;;
  match p with
  | None => panic "kerneltrap"
  | Some p =>
      ip ← namei [SLASH];
      setproc p (λ p, p <| upd_pr_cwd := ip |>);;
      setproc p (λ p, p <| upd_pr_state := RUNNABLE |>);;
      release (LProc p)
  end.

(** ** Memory *)

Definition growproc (n : Z) : K Z :=
  i ← myproc;
  p ← getproc i;
  let sz := pr_sz p in
  r ← (if 0 <? n then
         sz' ← uvmalloc (pr_pagetable p) sz (u64 (sz + n)) PTE_W;
         mret (if sz' =? 0 then None else Some sz')
       else if n <? 0 then
         sz' ← uvmdealloc (pr_pagetable p) sz (u64 (sz + n)); mret (Some sz')
       else mret (Some sz));
  match r with
  | None => mret (-1)
  | Some sz => setproc i (λ p, p <| upd_pr_sz := sz |>);; mret 0
  end.

Fixpoint first_free_mmap (i : nat) (l : list mmap_region) : option nat :=
  match l with
  | [] => None
  | r :: l => if negb (mm_used r) then Some i else first_free_mmap (S i) l
  end.
Definition kmmap (addr length : Z) : K Z :=
  i ← myproc;
  if negb (length =? PGSIZE) then mret (u64 (-1)) else
  let addr := if addr =? 0 then 0x40000000 else addr in
  mem ← kalloc;
  if mem =? 0 then mret (u64 (-1)) else
  p ← getproc i;
  r ← mappages (pr_pagetable p) addr PGSIZE mem (Z.lor (Z.lor PTE_U PTE_R) PTE_W);
  if r <? 0 then kfree mem;; mret (u64 (-1)) else
  p ← getproc i;
  match first_free_mmap 0 (pr_mmaps p) with
  | Some k =>
      setproc i (λ p, p <| upd_pr_mmaps ::=
        alter (λ r, r <| upd_mm_used := true |> <| upd_mm_addr := addr |> <| upd_mm_pa := mem |>) k |>)
  | None => mret ()
  end;;
  p ← getproc i;
  whenM (pr_sz p <? u64 (addr + PGSIZE))
    (setproc i (λ p, p <| upd_pr_sz := u64 (addr + PGSIZE) |>));;
  mret addr.

Fixpoint find_mmap (i : nat) (addr : Z) (l : list mmap_region) : option nat :=
  match l with
  | [] => None
  | r :: l => if mm_used r && (mm_addr r =? addr) then Some i else find_mmap (S i) addr l
  end.
Definition kmunmap (addr length : Z) : K Z :=
  i ← myproc;
  p ← getproc i;
  match find_mmap 0 addr (pr_mmaps p) with
  | Some k =>
      uvmunmap (pr_pagetable p) addr 1 true;;
      setproc i (λ p, p <| upd_pr_mmaps ::= alter (λ r, r <| upd_mm_used := false |>) k |>);;
      mret 0
  | None => mret (u64 (-1))
  end.

(** ** fork *)

(** Offsets in [struct trapframe], and its size. *)
Definition TF_KSATP : Z := 0.
Definition TF_KSP : Z := 8.
Definition TF_KTRAP : Z := 16.
Definition TF_EPC : Z := 24.
Definition TF_KHARTID : Z := 32.
Definition TF_SP : Z := 48.
Definition TF_A (n : Z) : Z := 112 + 8 * n.
Definition TRAPFRAME_SIZE : Z := 288.

Fixpoint dup_files (n fd i np : nat) : K () :=
  match n with
  | O => mret ()
  | S n =>
      p ← getproc i;
      match pr_ofile p !! fd with
      | Some (Some f) =>
          f' ← filedup f;
          setproc np (λ p, p <| upd_pr_ofile ::= <[fd := Some f']> |>)
      | _ => mret ()
      end;;
      dup_files n (S fd) i np
  end.
(** The part of [kfork] after the memory of the child [np] has been copied. *)
Definition fork_copy (i np : nat) (p q : proc) : K Z :=
  setproc np (λ q, q <| upd_pr_sz := pr_sz p |>);;
  update upd_mem (λ m, memmove m (pr_trapframe q) (pr_trapframe p) TRAPFRAME_SIZE);;
  update upd_mem (λ m, store64 m (pr_trapframe q + TF_A 0) 0);;
  dup_files NOFILE 0 i np;;
  cwd ← deref (pr_cwd p);
  cwd ← idup cwd;
  setproc np (λ q, q <| upd_pr_cwd := Some cwd |>);;
  setproc np (λ q, q <| upd_pr_name ::= λ n, arr_safestrcpy 16 n (pr_name p) |>);;
  setproc np (λ q, q <| upd_pr_traced := pr_traced p |>);;
  q ← getproc np;
  let pid := pr_pid q in
  release (LProc np);;
  acquire LWait;;
  setproc np (λ q, q <| upd_pr_parent := Some i |>);;
  release LWait;;
  acquire (LProc np);;
  setproc np (λ q, q <| upd_pr_state := RUNNABLE |>);;
  release (LProc np);;
  mret pid.
Definition kfork (trampoline forkret : Z) : K Z :=
  i ← myproc;
  a ← allocproc trampoline forkret;
  match a with
  | None => mret (-1)
  | Some np =>
      p ← getproc i;
      q ← getproc np;
      r ← uvmcopy (pr_pagetable p) (pr_pagetable q) (pr_sz p);
      if r <? 0 then freeproc np;; release (LProc np);; mret (-1) else fork_copy i np p q
  end.

(** ** exit *)

(** [wakeup(p)] for a process pointer; nothing sleeps on the NULL pointer. *)
Definition wakeup_proc (p : option nat) : K () :=
  match p with Some p => wakeup (ChProc p) | None => mret () end.
Fixpoint reparent_loop (n pp p : nat) : K () :=
  match n with
  | O => mret ()
  | S n =>
      q ← getproc pp;
      whenM (bool_decide (pr_parent q = Some p))
        (init ← gets initproc;
         setproc pp (λ q, q <| upd_pr_parent := init |>);;
         wakeup_proc init);;
      reparent_loop n (S pp) p
  end.
Definition reparent (p : nat) : K () := reparent_loop NPROC 0 p.

Fixpoint close_files (n fd i : nat) : K () :=
  match n with
  | O => mret ()
  | S n =>
      p ← getproc i;
      match pr_ofile p !! fd with
      | Some (Some f) =>
          fileclose f;; setproc i (λ p, p <| upd_pr_ofile ::= <[fd := None]> |>)
      | _ => mret ()
      end;;
      close_files n (S fd) i
  end.
Definition kexit {A} (status : Z) : K A :=
  i ← myproc;
  init ← gets initproc;
  if bool_decide (init = Some i) then panic "init exiting" else
  close_files NOFILE 0 i;;
  begin_op;;
  p ← getproc i;
  cwd ← deref (pr_cwd p);
  iput cwd;;
  end_op;;
  setproc i (λ p, p <| upd_pr_cwd := None |>);;
  acquire LWait;;
  reparent i;;
  p ← getproc i;
  wakeup_proc (pr_parent p);;
  acquire (LProc i);;
  setproc i (λ p, p <| upd_pr_xstate := status |>);;
  setproc i (λ p, p <| upd_pr_state := ZOMBIE |>);;
  release LWait;;
  sched;;
  panic "zombie exit".

(** ** wait *)

(** The [n] low bytes of a value, as [copyout] sends them. *)
Definition le_bytes (n : nat) (v : Z) : list Z := stl n (replicate n 0) 0 v.

(** One child [pp] found: [None] to go on with the scan (no zombie), or the
    value to return, with both locks released. *)
Definition reap (i pp : nat) (addr count : Z) : K (option Z) :=
  acquire (LProc pp);;
  q ← getproc pp;
  if bool_decide (pr_state q = ZOMBIE) then
    p ← getproc i;
    r ← (if addr =? 0 then mret 0 else copyout (pr_pagetable p) addr (le_bytes 4 (pr_xstate q)));
    r ← (if (r <? 0) || (count =? 0) then mret r
         else copyout (pr_pagetable p) count (le_bytes 4 (pr_syscall_count q)));
    if r <? 0 then release (LProc pp);; release LWait;; mret (Some (-1)) else
    freeproc pp;;
    release (LProc pp);;
    release LWait;;
    mret (Some (pr_pid q))
  else release (LProc pp);; mret None.
(** The scan of the table: whether there are children, and the result if a
    zombie was found. *)
Fixpoint wait_scan (n pp i : nat) (addr count : Z) (havekids : bool) : K (bool * option Z) :=
  match n with
  | O => mret (havekids, None)
  | S n =>
      q ← getproc pp;
      if bool_decide (pr_parent q = Some i) then
        r ← reap i pp addr count;
        match r with
        | Some r => mret (true, Some r)
        | None => wait_scan n (S pp) i addr count true
        end
      else wait_scan n (S pp) i addr count havekids
  end.
Fixpoint wait_loop (fuel : nat) (i : nat) (addr count : Z) : K Z :=
  match fuel with
  | O => nofuel
  | S fuel =>
      r ← wait_scan NPROC 0 i addr count false;
      match r.2 with
      | Some v => mret v
      | None =>
          k ← (if negb r.1 then mret true else k ← killed i; mret (nz k));
          if (k : bool) then release LWait;; mret (-1)
          else sleep (ChProc i) LWait;; wait_loop fuel i addr count
      end
  end.
(** [wait2] is [kwait] with a second address, for the system call count. *)
Definition wait2 (ustatus usyscalls : Z) : K Z :=
  i ← myproc; acquire LWait;; wait_loop WAKEUPS i ustatus usyscalls.
Definition kwait (addr : Z) : K Z :=
  i ← myproc; acquire LWait;; wait_loop WAKEUPS i addr 0.

(** ** The scheduler *)

(** The first scan: the highest priority of a RUNNABLE process. *)
Fixpoint maxprio_loop (n i : nat) (maxprio : Z) : K Z :=
  match n with
  | O => mret maxprio
  | S n =>
      acquire (LProc i);;
      p ← getproc i;
      release (LProc i);;
      maxprio_loop n (S i)
        (if bool_decide (pr_state p = RUNNABLE) && (maxprio <? pr_priority p)
         then pr_priority p else maxprio)
  end.
(** [run i] is what happens from [swtch] to process [i] until it switches
    back.  The result lists the processes run, in order. *)
Fixpoint sched_level (run : nat → K ()) (n i : nat) (target : Z) : K (list nat) :=
  match n with
  | O => mret []
  | S n =>
      acquire (LProc i);;
      p ← getproc i;
      if negb (bool_decide (pr_state p = RUNNABLE)) || (pr_priority p <? target) then
        release (LProc i);; sched_level run n (S i) target
      else
        setproc i (λ p, p <| upd_pr_state := RUNNING |>);;
        put upd_curproc (Some i);;
        run i;;
        put upd_curproc None;;
        release (LProc i);;
        l ← sched_level run n (S i) target;
        mret (i :: l)
  end.
(** [target] levels left, from [target - 1] down to 0. *)
Fixpoint sched_levels (run : nat → K ()) (target : nat) : K (list nat) :=
  match target with
  | O => mret []
  | S t =>
      l ← sched_level run NPROC 0 (Z.of_nat t);
      l' ← sched_levels run t;
      mret (l ++ l')
  end.
(** One time round [scheduler]'s endless loop. *)
Definition scheduler_round (run : nat → K ()) : K (list nat) :=
  maxprio ← maxprio_loop NPROC 0 0;
  sched_levels run (S (Z.to_nat maxprio)).

Definition strace (i : nat) (num retval : Z) : K () :=
  p ← getproc i;
  whenM (nz (pr_traced p))
    (kprintf (line "%d: syscall %d -> %d") [VInt (pr_pid p); VInt num; VInt retval]).
