(* ===== verification/ProcProps.v ===== *)
(** * Properties of kernel/proc.c: the scheduler

    One round of [scheduler] against a declarative schedule: level by level
    from the highest priority down to 0, every runnable process whose priority
    is at least the level.  The round is analysed for processes that use their
    turn and yield; what a process does in its turn is arbitrary otherwise. *)

From S2P Require Import Prelude Bytes Riscv Kstate CString Kalloc Vm Sched Bio Log Printf Console Pipe Fs File Proc.

(** What the scheduler looks at. *)
Definition sp (P : list proc) (i : nat) : option (procstate * Z) :=
  (λ p, (pr_state p, pr_priority p)) <$> P !! i.
Definition same_sp (P P' : list proc) : Prop := length P' = length P ∧ ∀ i, sp P' i = sp P i.

(** The process runs at level [t] or above. *)
Definition eligible (P : list proc) (t : Z) (i : nat) : bool :=
  match sp P i with Some (RUNNABLE, pri) => t <=? pri | _ => false end.
Definition level (P : list proc) (t : Z) : list nat := List.filter (eligible P t) (seq 0 NPROC).
Fixpoint schedule (P : list proc) (n : nat) : list nat :=
  match n with O => [] | S t => level P (Z.of_nat t) ++ schedule P t end.
Fixpoint top (P : list proc) (l : list nat) (m : Z) : Z :=
  match l with
  | [] => m
  | i :: l => top P l (match sp P i with Some (RUNNABLE, pri) => Z.max m pri | _ => m end)
  end.

Lemma same_sp_refl P : same_sp P P.
Proof. done. Qed.
Lemma same_sp_trans P1 P2 P3 : same_sp P1 P2 → same_sp P2 P3 → same_sp P1 P3.
Proof. intros [? H1] [? H2]. split; [congruence|]. intros i. by rewrite H2, H1. Qed.
Lemma eligible_same P P' t i : same_sp P P' → eligible P' t i = eligible P t i.
Proof. intros [_ H]. unfold eligible. by rewrite H. Qed.

Lemma level_same P P' t : same_sp P P' → level P' t = level P t.
Proof. intros H. unfold level. apply List.filter_ext. intros i. by apply eligible_same. Qed.
Lemma schedule_same P P' n : same_sp P P' → schedule P' n = schedule P n.
Proof. intros H. induction n as [|n IH]; [done|]. cbn [schedule]. by rewrite IH, (level_same P P'). Qed.
#[local] Opaque NPROC.

(** ** Looking at a process under its lock *)

Lemma peek {A} i p (k : proc → K A) s :
  locks s = [] → procs s !! i = Some p →
  (acquire (LProc i);; p ← getproc i; release (LProc i);; k p) s = k p s.
Proof.
  intros Hl Hp. rewrite (bind_ok _ _ _ _ _ (acquire_ok (LProc i) s ltac:(rewrite Hl; apply not_elem_of_nil))).
  unfold getproc. mrun. cbn [procs upd_locks]. rewrite Hp. mrun.
  erewrite bind_ok; [|apply (release_head _ []); cbn; by rewrite Hl].
  assert (upd_locks (λ _, []) (upd_locks (cons (LProc i)) s) = s) as ->; [|done].
  destruct s. cbn in *. by subst.
Qed.

Lemma maxprio_ok n i m s :
  locks s = [] → length (procs s) = (i + n)%nat →
  maxprio_loop n i m s = Ok (top (procs s) (seq i n) m) s.
Proof.
  intros Hl. revert i m. induction n as [|n IH]; intros i m Hlen; [done|].
  cbn [maxprio_loop seq top]. destruct (lookup_lt_is_Some_2 (procs s) i) as [p Hp]; [lia|].
  rewrite (peek i p _ s Hl Hp), IH by lia. unfold sp. rewrite Hp. cbn.
  destruct (pr_state p); try done. rewrite bool_decide_true by done. cbn.
  repeat f_equal. destruct (m <? pr_priority p) eqn:E; zbool; lia.
Qed.

Section round.
Context (run : nat → K ()).

(** A process that runs and yields: it gives the CPU back with only its own
    lock held, runnable again, and every state and priority as before. *)
Definition yields : Prop := ∀ i s,
  locks s = [LProc i] → sp (procs s) i ≠ None →
  ∃ s', run i s = Ok () s' ∧ locks s' = [LProc i] ∧
    same_sp (alter (λ p, p <| upd_pr_state := RUNNABLE |>) i (procs s)) (procs s').
Context (Hrun : yields).

Lemma alter_twice (P : list proc) i :
  alter (λ p, p <| upd_pr_state := RUNNABLE |>) i (alter (λ p, p <| upd_pr_state := RUNNING |>) i P) =
  alter (λ p, p <| upd_pr_state := RUNNABLE |>) i P.
Proof.
  apply list_eq. intros j. destruct (decide (i = j)) as [->|Hne].
  - rewrite !list_lookup_alter_eq. by destruct (P !! j).
  - by rewrite !list_lookup_alter_ne.
Qed.

(** Giving a runnable process its turn. *)
Lemma turn_ok i p s :
  locks s = [LProc i] → procs s !! i = Some p → pr_state p = RUNNABLE →
  ∃ s', ∀ A (k : K A),
    (setproc i (λ p, p <| upd_pr_state := RUNNING |>);; put upd_curproc (Some i);; run i;;
     put upd_curproc None;; release (LProc i);; k) s = k s' ∧
    locks s' = [] ∧ same_sp (procs s) (procs s').
Proof using Hrun.
  intros Hl Hp Hst. unfold setproc.
  set (s1 := upd_curproc (λ _, Some i) (upd_procs (alter (λ p, p <| upd_pr_state := RUNNING |>) i) s)).
  destruct (Hrun i s1) as (s2 & E & L2 & [H2 S2]); [done| |].
  { unfold sp. cbn [procs upd_procs upd_curproc s1]. rewrite list_lookup_alter_eq, Hp. done. }
  unfold s1 in H2, S2. cbn [procs upd_procs upd_curproc] in H2, S2. rewrite alter_twice in H2, S2.
  exists (upd_locks (λ _, []) (upd_curproc (λ _, None) s2)). intros A k. split; [|split; [done|]].
  - mrun. fold s1. rewrite (bind_ok _ _ _ _ _ E). mrun. by erewrite bind_ok by (apply (release_head _ []); cbn; by rewrite L2).
  - cbn [procs upd_locks upd_curproc]. split; [by rewrite H2, length_alter|]. intros j. rewrite S2. unfold sp.
    rewrite list_lookup_alter. case_decide as Hj; [|done]. subst j. rewrite Hp. cbn. by rewrite Hst.
Qed.

Lemma sched_level_ok n i t s :
  locks s = [] → length (procs s) = (i + n)%nat →
  ∃ s', sched_level run n i t s = Ok (List.filter (eligible (procs s) t) (seq i n)) s' ∧
    locks s' = [] ∧ same_sp (procs s) (procs s').
Proof using Hrun.
  revert i s. induction n as [|n IH]; intros i s Hl Hlen; [by exists s|].
  cbn [sched_level seq List.filter]. destruct (lookup_lt_is_Some_2 (procs s) i) as [p Hp]; [lia|].
  rewrite (bind_ok _ _ _ _ _ (acquire_ok (LProc i) s ltac:(rewrite Hl; apply not_elem_of_nil))).
  unfold getproc. mrun. cbn [procs upd_locks]. rewrite Hp. mrun.
  set (s1 := upd_locks (cons (LProc i)) s).
  assert (locks s1 = [LProc i]) as Hl1 by (cbn; by rewrite Hl).
  assert (eligible (procs s) t i = bool_decide (pr_state p = RUNNABLE) && (t <=? pr_priority p)) as He.
  { unfold eligible, sp. rewrite Hp. cbn. by destruct (pr_state p). }
  rewrite He. destruct (bool_decide (pr_state p = RUNNABLE)) eqn:Es; cbn [negb orb andb].
  2:{ erewrite bind_ok by (by apply (release_head _ [])).
      destruct (IH (S i) (upd_locks (λ _, []) s1)) as (s' & E & ?); [done|cbn; lia|]. exists s'. by rewrite E. }
  apply bool_decide_eq_true in Es. rewrite Z.ltb_antisym. destruct (t <=? pr_priority p) eqn:Et; cbn [negb].
  2:{ erewrite bind_ok by (by apply (release_head _ [])).
      destruct (IH (S i) (upd_locks (λ _, []) s1)) as (s' & E & ?); [done|cbn; lia|]. exists s'. by rewrite E. }
  destruct (turn_ok i p s1 Hl1 Hp Es) as (s2 & E2).
  rewrite (proj1 (E2 _ _)). destruct (E2 _ (mret ())) as (_ & L2 & S2).
  destruct (IH (S i) s2 L2) as (s' & E & L' & S'); [destruct S2 as [-> _]; cbn; lia|].
  exists s'. rewrite (bind_ok _ _ _ _ _ E). split_and!; [|done|by eapply same_sp_trans].
  unfold mret, M_ret. do 2 f_equal. apply List.filter_ext. intros j. by rewrite (eligible_same (procs s)).
Qed.

Lemma sched_levels_ok n s :
  locks s = [] → length (procs s) = NPROC →
  ∃ s', sched_levels run n s = Ok (schedule (procs s) n) s' ∧ locks s' = [] ∧ same_sp (procs s) (procs s').
Proof using Hrun.
  revert s. induction n as [|n IH]; intros s Hl Hlen; [by exists s|]. cbn [sched_levels schedule].
  destruct (sched_level_ok NPROC 0 (Z.of_nat n) s Hl Hlen) as (s1 & E1 & L1 & S1).
  rewrite (bind_ok _ _ _ _ _ E1). destruct (IH s1 L1) as (s2 & E2 & L2 & S2); [destruct S1 as [-> _]; done|].
  exists s2. rewrite (bind_ok _ _ _ _ _ E2). split_and!; [|done|by eapply same_sp_trans].
  by rewrite (schedule_same _ _ n S1).
Qed.
End round.

(** ** Facts about the schedule *)

Lemma top_ge P l m : m ≤ top P l m.
Proof. revert m. induction l as [|i l IH]; intros m; cbn; [lia|]. destruct (sp P i) as [[[] ?]|]; etrans; [|apply IH| |apply IH| |apply IH| |apply IH| |apply IH| |apply IH| |apply IH]; lia. Qed.

Lemma top_bound P l m i pri : i ∈ l → sp P i = Some (RUNNABLE, pri) → pri ≤ top P l m.
Proof.
  intros Hi Hs. revert m. induction l as [|j l IH]; intros m; [by apply not_elem_of_nil in Hi|]. cbn.
  apply elem_of_cons in Hi as [->|Hi]; [|by apply IH]. rewrite Hs. etrans; [|apply top_ge]. lia.
Qed.

Lemma count_app (l l' : list nat) i :
  count_occ Nat.eq_dec (l ++ l') i = (count_occ Nat.eq_dec l i + count_occ Nat.eq_dec l' i)%nat.
Proof. apply count_occ_app. Qed.

Lemma count_level P t i : (i < NPROC)%nat →
  count_occ Nat.eq_dec (level P t) i = if eligible P t i then 1%nat else 0%nat.
Proof.
  intros Hi. unfold level. assert (NoDup (List.filter (eligible P t) (seq 0 NPROC))) as Hd.
  { apply NoDup_ListNoDup, List.NoDup_filter, seq_NoDup. }
  apply NoDup_ListNoDup in Hd. destruct (eligible P t i) eqn:E.
  - apply NoDup_count_occ'; [done|]. apply List.filter_In. split; [apply in_seq; lia|done].
  - apply count_occ_not_In. rewrite List.filter_In. intros [_ H]. congruence.
Qed.

Lemma count_schedule P n i pri :
  (i < NPROC)%nat → sp P i = Some (RUNNABLE, pri) → 0 ≤ pri →
  count_occ Nat.eq_dec (schedule P n) i = Nat.min n (S (Z.to_nat pri)).
Proof.
  intros Hi Hs Hp. induction n as [|n IH]; [done|]. cbn [schedule]. rewrite count_app, IH, count_level by done.
  unfold eligible. rewrite Hs. destruct (Z.of_nat n <=? pri) eqn:E; zbool; lia.
Qed.

Lemma schedule_runnable P n i : i ∈ schedule P n → ∃ pri, sp P i = Some (RUNNABLE, pri).
Proof.
  induction n as [|n IH]; cbn; [by intros ?%not_elem_of_nil|]. intros [H|H]%elem_of_app; [|by apply IH].
  apply list_elem_of_In, List.filter_In in H as [_ H]. unfold eligible in H.
  destruct (sp P i) as [[[] pri]|]; try done. eauto.
Qed.

Lemma schedule_head P n i pri j pri' :
  head (schedule P n) = Some i → sp P i = Some (RUNNABLE, pri) →
  (j < NPROC)%nat → sp P j = Some (RUNNABLE, pri') → pri' < Z.of_nat n → pri' ≤ pri ∨ pri' < 0.
Proof.
  intros Hh Hi Hj Hsj. revert Hh. induction n as [|n IH]; [done|]. cbn [schedule]. intros Hh Hn.
  destruct (level P (Z.of_nat n)) as [|x l] eqn:El.
  - destruct (decide (pri' = Z.of_nat n)) as [->|Hne]; [|apply IH; [done|lia]]. exfalso.
    assert (j ∈ level P (Z.of_nat n)) as Hin; [|rewrite El in Hin; by apply not_elem_of_nil in Hin].
    apply list_elem_of_In, List.filter_In. split; [apply in_seq; lia|]. unfold eligible. rewrite Hsj.
    apply Z.leb_refl.
  - left. injection Hh as ->. assert (i ∈ level P (Z.of_nat n)) as Hin by (rewrite El; left).
    apply list_elem_of_In, List.filter_In in Hin as [_ Hin]. unfold eligible in Hin. rewrite Hi in Hin. zbool. lia.
Qed.


#[local] Transparent NPROC.
(** ** Witness: two runnable processes of priority 3 and 0 *)

Definition yield_back (i : nat) : K () := setproc i (λ p, p <| upd_pr_state := RUNNABLE |>).
Lemma yield_back_yields : yields yield_back.
Proof. intros i s Hl _. eexists. split; [reflexivity|]. split; [exact Hl|]. apply same_sp_refl. Qed.
Definition demo_procs : list proc :=
  proc0 <| upd_pr_state := RUNNABLE |> :: proc0 <| upd_pr_state := SLEEPING |> ::
  proc0 <| upd_pr_state := RUNNABLE |> <| upd_pr_priority := 3 |> :: replicate (NPROC - 3) proc0.

