(* ===== verification/ProcMem.v ===== *)
(** * kernel/proc.c: the memory of a process, from [allocproc] to [freeproc]

    A process owns its trap frame, the pages of its page table and the pages
    that map its memory.  [allocproc] takes what it needs from the pool or,
    when it fails, gives everything back; [freeproc] returns all of it. *)

From S2P Require Import Prelude Bytes Riscv Kstate CString Kalloc Vm VmProps VmCopy VmFork VmFree Sched Bio Log Printf Console Pipe Fs File Proc.

(** ** One entry of the process table

    [foc i q s] is [s] with process [i] set to [q]. *)
Definition foc (i : nat) (q : proc) (s : kstate) : kstate := s <| upd_procs ::= <[i := q]> |>.

#[local] Transparent setk.
Lemma upd_procs_setk g m fl L s : upd_procs g (setk m fl L s) = setk m fl L (upd_procs g s).
Proof. done. Qed.
Lemma upd_nextpid_setk g m fl L s : upd_nextpid g (setk m fl L s) = setk m fl L (upd_nextpid g s).
Proof. done. Qed.
Lemma nextpid_setk m fl L s : nextpid (setk m fl L s) = nextpid s.
Proof. done. Qed.
#[local] Opaque setk.
#[export] Hint Rewrite upd_procs_setk upd_nextpid_setk nextpid_setk : kst.

Section foc.
Context (i : nat) (q : proc) (m : memory) (fl : Z) (L : list lock) (s : kstate).

Lemma foc_self : procs s !! i = Some q → foc i q s = s.
Proof. intros H. unfold foc, upd_procs. rewrite list_insert_id by done. by destruct s. Qed.
Lemma foc_foc q' : foc i q (foc i q' s) = foc i q s.
Proof. unfold foc, upd_procs. cbn. by rewrite list_insert_insert_eq. Qed.
Lemma procs_foc : procs (foc i q s) = <[i := q]> (procs s).
Proof. done. Qed.
Lemma nextpid_foc g : upd_nextpid g (foc i q s) = foc i q (upd_nextpid g s).
Proof. done. Qed.

Context (Hi : (i < length (procs s))%nat).
Lemma setproc_foc f : setproc i f (setk m fl L (foc i q s)) = Ok () (setk m fl L (foc i (f q) s)).
Proof using Hi.
  unfold setproc, modify. rewrite upd_procs_setk. unfold foc, upd_procs. cbn.
  erewrite list_alter_insert by (by apply list_lookup_insert_eq). by rewrite list_insert_insert_eq.
Qed.
Lemma getproc_foc : getproc i (setk m fl L (foc i q s)) = Ok q (setk m fl L (foc i q s)).
Proof using Hi. unfold getproc. krun. rewrite procs_foc. by rewrite list_lookup_insert_eq. Qed.
Lemma getproc_foc_ne j p : j ≠ i → procs s !! j = Some p → getproc j (setk m fl L (foc i q s)) = Ok p (setk m fl L (foc i q s)).
Proof using. intros Hne Hp. unfold getproc. krun. rewrite procs_foc, list_lookup_insert_ne by done. by rewrite Hp. Qed.
End foc.

(** ** proc_freepagetable *)

(** Unmapping one page without freeing it needs no more than a page table. *)
Lemma unmap_one root va m fl l L s :
  vm_inv m fl l root → va_ok va →
  ∃ m', uvmunmap root va 1 false (setk m fl L s) = Ok () (setk m' fl L s) ∧ vm_inv m' fl l root ∧ same_nodes m m' root ∧
    (∀ va', va_ok va' → xlate m' root va' = if decide (va' = va) then None else xlate m root va') ∧ tframe m l m' l root.
Proof.
  intros Hi Ha. assert (MAXVA = 2 ^ 38) as HM by done. unfold uvmunmap. rewrite (proj2 Ha). cbn [negb Z.eqb].
  change (u64 (1 * PGSIZE)) with PGSIZE. rewrite u64_small by (destruct Ha; unfold PGSIZE in *; lia).
  change (S (Z.to_nat 1)) with 2%nat. cbn [uvmunmap_loop]. rewrite (proj2 (Z.ltb_lt _ _)) by (unfold PGSIZE; lia).
  rewrite u64_small by (destruct Ha; unfold PGSIZE in *; lia). rewrite Z.ltb_irrefl.
  assert (∃ m', unmap_body false root va (setk m fl L s) = Ok () (setk m' fl L s) ∧ vm_inv m' fl l root ∧ same_nodes m m' root ∧
    (∀ va', va_ok va' → xlate m' root va' = if decide (va' = va) then None else xlate m root va') ∧ tframe m l m' l root)
    as (m' & E & R); [|exists m'; by rewrite (bind_ok _ _ _ _ _ E)].
  unfold unmap_body. rewrite (bind_ok _ _ _ _ _ (walk_lookup root va m fl L s (proj1 Ha))).
  destruct (xlate m root va) as [v|] eqn:Hx.
  - destruct (xlate_Some_inv _ _ _ _ Hx) as (slot & Hs & Hld & Hv). rewrite Hs. change (default 0 (Some slot)) with slot.
    pose proof (leaf_slot_pos _ _ _ _ (vi_pt _ _ _ _ Hi) Hs). rewrite (proj2 (Z.eqb_neq _ _)) by lia. unfold ld_pte, st_pte. krun.
    rewrite Hld, valid_land, Hv. cbn [negb whenM]. assert (0 ≤ 0 < 2 ^ 64) as H0 by lia. exists (store64 m slot 0). split_and!.
    + by krun.
    + by eapply vm_inv_set_leaf.
    + intros p Hp. by erewrite node_set_leaf by done.
    + intros va' Hva'. by erewrite xlate_set_leaf by done.
    + by eapply tframe_set_leaf.
  - exists m. split_and!; [|done|by intros p _| |apply tframe_refl].
    + unfold xlate in Hx. destruct (leaf_slot m root va) as [slot|] eqn:Hs; cbn in *; [|done].
      destruct (slot =? 0); [done|]. unfold ld_pte. krun. rewrite valid_land. destruct (valid (load64 m slot)); done.
    + intros va' Hva'. case_decide; [by subst|done].
Qed.

(** The pages of a process whose memory is [sz] bytes: its tables, and what
    maps the addresses below [sz].  The trampoline and the trap frame, mapped
    at the top, are not its table's to free. *)
Definition user_own (m : memory) (root sz b : Z) : Prop :=
  (∃ p, path_ok p ∧ node m root p = Some b) ∨ (∃ va v, va_ok va ∧ va < sz ∧ xlate m root va = Some v ∧ PTE2PA v = b).

Record user_space (m : memory) (fl : Z) (l : list Z) (root sz : Z) : Prop := {
  us_vm : vm_inv m fl l root;
  us_leaf va v : va_ok va → va < sz → xlate m root va = Some v →
    page_ok (PTE2PA v) ∧ (PTE2PA v ∉ l) ∧ not_table m root (PTE2PA v);
  us_inj va va' v v' : va_ok va → va_ok va' → va < sz → va' < sz → xlate m root va = Some v →
    xlate m root va' = Some v' → PTE2PA v = PTE2PA v' → va = va';
  us_top va : va_ok va → sz ≤ va → va ≠ TRAMPOLINE → va ≠ TRAPFRAME → xlate m root va = None;
}.

(** [b] is not written unless it is in the pool at the end. *)
Definition spared (m m' : memory) (l' : list Z) : Prop :=
  ∀ b x, page_ok b → b ∉ l' → b ≤ x < b + PGSIZE → rd m' x = rd m x.

Lemma user_own_page m fl l root sz b : user_space m fl l root sz → user_own m root sz b → page_ok b ∧ b ∉ l.
Proof.
  intros Hu [(p & Hp & E)|(va & v & Hva & Hlt & E & <-)].
  - split; [by eapply pw_page; [apply Hu|..]|by eapply (vi_free _ _ _ _ (us_vm _ _ _ _ _ Hu))].
  - by destruct (us_leaf _ _ _ _ _ Hu va v Hva Hlt E) as (? & ? & _).
Qed.

Lemma va_ok_top : va_ok TRAMPOLINE ∧ va_ok TRAPFRAME.
Proof. by split. Qed.

Lemma proc_freepagetable_ok root sz m fl l L s :
  user_space m fl l root sz → LKmem ∉ L → 0 ≤ sz ≤ TRAPFRAME →
  ∃ m' l', proc_freepagetable root sz (setk m fl L s) = Ok () (setk m' (hd 0 l') L s) ∧ kmem_inv m' (hd 0 l') l' ∧
    (∀ b, b ∈ l' ↔ b ∈ l ∨ user_own m root sz b) ∧ spared m m' l'.
Proof.
  intros U HL Hsz. destruct va_ok_top as [Ht1 Ht2]. assert (MAXVA = 2 ^ 38) as HM by done. unfold proc_freepagetable.
  destruct (unmap_one root TRAMPOLINE m fl l L s (us_vm _ _ _ _ _ U) Ht1) as (m1 & E1 & I1 & N1 & X1 & T1).
  destruct (unmap_one root TRAPFRAME m1 fl l L s I1 Ht2) as (m2 & E2 & I2 & N2 & X2 & T2).
  assert (TRAPFRAME < TRAMPOLINE < MAXVA) as Htt by done.
  assert (∀ va, va_ok va → xlate m2 root va = if decide (va < sz) then xlate m root va else None) as X.
  { intros va Hva. rewrite X2, X1 by done. destruct (decide (va < sz)).
    - by rewrite !decide_False by lia.
    - repeat case_decide; try done. apply (us_top _ _ _ _ _ U); [done|lia|done|done]. }
  assert (∀ p, path_ok p → node m2 root p = node m root p) as N by (intros p Hp; by rewrite N2, N1).
  assert (uvm_inv m2 fl l root) as U2.
  { split; [done| |].
    - intros va v Hva. rewrite X by done. case_decide; [|done]. intros E.
      destruct (us_leaf _ _ _ _ _ U va v Hva) as (? & ? & Hn); [done..|]. split_and!; [done|done|]. intros p Hp. rewrite N by done. by apply Hn.
    - intros va va' v v' H1 H2. rewrite !X by done. repeat case_decide; try done. by apply (us_inj _ _ _ _ _ U). }
  destruct (uvmfree_ok root sz m2 fl l L s U2 HL) as (m' & l' & E3 & Hk & Hl & Ho);
    [lia|intros va Hva ?; by rewrite X, decide_False by (done || lia)|].
  assert (∀ b, own m2 root b ↔ user_own m root sz b) as Hown.
  { intros b. unfold own, user_own. split; (intros [(p & Hp & E)|(va & v & Hva & H)]; [left; exists p; split; [done|by rewrite N in *]|right; exists va, v]).
    - rewrite X in H by done. case_decide; naive_solver.
    - rewrite X by done. destruct H as (H1 & H2 & H3). by rewrite decide_True. }
  exists m', l'. rewrite (bind_ok _ _ _ _ _ E1), (bind_ok _ _ _ _ _ E2). split_and!; [done|done|intros b; by rewrite Hl, Hown|].
  intros b x Hp Hb Hx. rewrite (Ho b) by done.
  assert ((b ∉ l) ∧ not_table m root b) as [Hbl Hbn].
  { split; [intros H; apply Hb, Hl; by left|]. intros p Hpp E. apply Hb, Hl. right. apply Hown. left. by exists p. }
  eapply (tframe_trans m l m1 l m2 l root T1) in T2. by apply (tf_frame _ _ _ _ _ T2 b).
Qed.

(** ** freeproc *)

(** The entry [freeproc] leaves. *)
Definition freed_fields (p : proc) : proc :=
  p <| upd_pr_trapframe := 0 |> <| upd_pr_pagetable := 0 |> <| upd_pr_sz := 0 |> <| upd_pr_pid := 0 |>
    <| upd_pr_parent := None |> <| upd_pr_name ::= <[0%nat := 0]> |> <| upd_pr_chan := None |>
    <| upd_pr_killed := 0 |> <| upd_pr_xstate := 0 |> <| upd_pr_traced := 0 |>
    <| upd_pr_tracing := 0 |>.
Definition freed_proc (p : proc) : proc :=
  (clear_mmaps (freed_fields p)) <| upd_pr_state := UNUSED |> <| upd_pr_syscall_count := 0 |>.

(** The pages a process entry holds: trap frame and address space. *)
Definition proc_own (m : memory) (p : proc) (b : Z) : Prop :=
  (pr_trapframe p ≠ 0 ∧ b = pr_trapframe p) ∨ (pr_pagetable p ≠ 0 ∧ user_own m (pr_pagetable p) (pr_sz p) b).

Record proc_mem (m : memory) (fl : Z) (l : list Z) (p : proc) : Prop := {
  pm_kmem : kmem_inv m fl l;
  pm_tf : pr_trapframe p ≠ 0 → page_ok (pr_trapframe p) ∧ pr_trapframe p ∉ l;
  pm_space : pr_pagetable p ≠ 0 → user_space m fl l (pr_pagetable p) (pr_sz p) ∧ 0 ≤ pr_sz p ≤ TRAPFRAME;
  pm_apart : pr_trapframe p ≠ 0 → pr_pagetable p ≠ 0 → ¬ user_own m (pr_pagetable p) (pr_sz p) (pr_trapframe p);
}.

(** Freeing the trap frame. *)
Lemma free_trapframe m fl l p L s :
  proc_mem m fl l p → LKmem ∉ L →
  ∃ m1 l1, whenM (nz (pr_trapframe p)) (kfree (pr_trapframe p)) (setk m fl L s) = Ok () (setk m1 (hd 0 l1) L s) ∧
    proc_mem m1 (hd 0 l1) l1 (p <| upd_pr_trapframe := 0 |>) ∧
    (∀ b, b ∈ l1 ↔ b ∈ l ∨ (pr_trapframe p ≠ 0 ∧ b = pr_trapframe p)) ∧ spared m m1 l1 ∧
    (pr_pagetable p ≠ 0 → ∀ b, user_own m1 (pr_pagetable p) (pr_sz p) b ↔ user_own m (pr_pagetable p) (pr_sz p) b).
Proof.
  intros [Hk Htf Hsp Hap] HL. unfold nz. destruct (decide (pr_trapframe p = 0)) as [E|Hne].
  { exists m, l. rewrite (proj2 (Z.eqb_eq _ _)) by done. cbn [negb whenM]. rewrite <- (flist_head m fl l) by apply Hk.
    split_and!; [done|split; [done|done|done|done]|intros b; tauto|done|done]. }
  rewrite (proj2 (Z.eqb_neq _ _)) by done. cbn [negb whenM]. destruct (Htf Hne) as [Hp Hn].
  destruct (kfree_ok m (pr_trapframe p) l fl L s Hk HL Hp Hn) as [E Hk1].
  pose proof (λ x, freed_mem_out m (pr_trapframe p) fl x) as Hout. revert E Hk1 Hout.
  generalize (freed_mem m (pr_trapframe p) fl). intros m1 E Hk1 Hout.
  assert (spared m m1 (pr_trapframe p :: l)) as Hs.
  { intros b x Hb [Hbn _]%not_elem_of_cons Hx. apply Hout. destruct (page_ok_sep b (pr_trapframe p)); [done..|lia|lia]. }
  assert (pr_pagetable p ≠ 0 → user_space m1 (pr_trapframe p) (pr_trapframe p :: l) (pr_pagetable p) (pr_sz p) ∧
    ∀ b, user_own m1 (pr_pagetable p) (pr_sz p) b ↔ user_own m (pr_pagetable p) (pr_sz p) b) as Hu.
  { intros Hpt. destruct (Hsp Hpt) as [[Hv Hlf Hinj Htop] _]. specialize (Hap Hne Hpt).
    assert (tables_eq m m1 (pr_pagetable p)) as T.
    { eapply tables_eq_page; [apply Hv|done| |done]. intros q Hq En. apply Hap. left. by exists q. }
    assert (∀ va, xlate m1 (pr_pagetable p) va = xlate m (pr_pagetable p) va) as X by (by apply xlate_frame).
    split; [split|].
    - eapply vm_inv_frame; [done|done|done|]. intros b q Hq Hb [->|Hin]%elem_of_cons; [apply Hap; left; by exists q|by eapply (vi_free _ _ _ _ Hv)].
    - intros va v Hva Hlt. rewrite X. intros Ev. destruct (Hlf va v Hva Hlt Ev) as (? & ? & ?). split_and!; [done| |by eapply not_table_frame].
      apply not_elem_of_cons. split; [|done]. intros Et. apply Hap. right. by exists va, v.
    - intros va va' v v' H1 H2 H3 H4. rewrite !X. by apply Hinj.
    - intros va Hva. rewrite X. by apply Htop.
    - intros b. unfold user_own. setoid_rewrite X. split; (intros [(q & Hq & En)|H]; [left; exists q|by right]); (split; [done|]);
        rewrite <- En; [symmetry|]; by apply node_frame. }
  exists m1, (pr_trapframe p :: l). split_and!; [exact E| |intros b; rewrite elem_of_cons; tauto|done|intros Hpt; by apply Hu].
  split; [done|done|intros Hpt; split; [by apply Hu|by apply Hsp]|done].
Qed.

Lemma spared_trans m1 m2 m3 l2 l3 : spared m1 m2 l2 → spared m2 m3 l3 → (∀ b, b ∈ l2 → b ∈ l3) → spared m1 m3 l3.
Proof. intros A B H b x Hb Hl Hx. rewrite (B b) by done. apply (A b); [done|naive_solver|done]. Qed.

(** Freeing the address space. *)
Lemma free_space m fl l p L s :
  proc_mem m fl l p → LKmem ∉ L →
  ∃ m1 l1, whenM (nz (pr_pagetable p)) (proc_freepagetable (pr_pagetable p) (pr_sz p)) (setk m fl L s) = Ok () (setk m1 (hd 0 l1) L s) ∧
    kmem_inv m1 (hd 0 l1) l1 ∧
    (∀ b, b ∈ l1 ↔ b ∈ l ∨ (pr_pagetable p ≠ 0 ∧ user_own m (pr_pagetable p) (pr_sz p) b)) ∧ spared m m1 l1.
Proof.
  intros [Hk _ Hsp _] HL. unfold nz. destruct (decide (pr_pagetable p = 0)) as [E|Hne].
  - exists m, l. rewrite (proj2 (Z.eqb_eq _ _)) by done. cbn [negb whenM]. rewrite <- (flist_head m fl l) by apply Hk.
    split_and!; [done|done|intros b; tauto|done].
  - rewrite (proj2 (Z.eqb_neq _ _)) by done. cbn [negb whenM]. destruct (Hsp Hne) as [Hu Hsz].
    destruct (proc_freepagetable_ok _ _ m fl l L s Hu HL Hsz) as (m1 & l1 & E & H1 & H2 & H3).
    exists m1, l1. split_and!; [done|done|intros b; rewrite H2; tauto|done].
Qed.

Lemma freeproc_ok i p m fl l L s :
  proc_mem m fl l p → LKmem ∉ L → (i < length (procs s))%nat →
  ∃ m' l', freeproc i (setk m fl L (foc i p s)) = Ok () (setk m' (hd 0 l') L (foc i (freed_proc p) s)) ∧
    kmem_inv m' (hd 0 l') l' ∧ (∀ b, b ∈ l' ↔ b ∈ l ∨ proc_own m p b) ∧ spared m m' l'.
Proof.
  intros Hm HL Hi. unfold freeproc. rewrite (bind_ok _ _ _ _ _ (getproc_foc i p m fl L s Hi)).
  destruct (free_trapframe m fl l p L (foc i p s) Hm HL) as (m1 & l1 & E1 & Hm1 & Hl1 & S1 & U1).
  rewrite (bind_ok _ _ _ _ _ E1), (bind_ok _ _ _ _ _ (setproc_foc i _ m1 (hd 0 l1) L s Hi _)).
  rewrite (bind_ok _ _ _ _ _ (getproc_foc i _ m1 (hd 0 l1) L s Hi)).
  destruct (free_space m1 (hd 0 l1) l1 _ L (foc i (p <| upd_pr_trapframe := 0 |>) s) Hm1 HL) as (m2 & l2 & E2 & Hk2 & Hl2 & S2).
  rewrite (bind_ok _ _ _ _ _ E2), (bind_ok _ _ _ _ _ (setproc_foc i _ m2 (hd 0 l2) L s Hi _)).
  rewrite (bind_ok _ _ _ _ _ (setproc_foc i _ m2 (hd 0 l2) L s Hi _)), (setproc_foc i _ m2 (hd 0 l2) L s Hi).
  exists m2, l2. split_and!; [done|done| |eapply spared_trans; [done..|]; intros b Hb; apply Hl2; by left].
  intros b. rewrite Hl2, Hl1. unfold proc_own. change (pr_pagetable (p <| upd_pr_trapframe := 0 |>)) with (pr_pagetable p).
  change (pr_sz (p <| upd_pr_trapframe := 0 |>)) with (pr_sz p). destruct (decide (pr_pagetable p = 0)); [tauto|].
  rewrite (U1 n b). tauto.
Qed.

(** ** proc_pagetable *)

Lemma uvmcreate_ok m fl l L s :
  kmem_inv m fl l → LKmem ∉ L →
  (l = [] ∧ uvmcreate (setk m fl L s) = Ok 0 (setk m fl L s)) ∨
  ∃ root l1 m1, l = root :: l1 ∧ root ≠ 0 ∧ uvmcreate (setk m fl L s) = Ok root (setk m1 (hd 0 l1) L s) ∧
    uvm_inv m1 (hd 0 l1) l1 root ∧ (∀ va, xlate m1 root va = None) ∧ (∀ b, b ≠ root → not_table m1 root b) ∧
    ∀ x, ¬ (root ≤ x < root + PGSIZE) → rd m1 x = rd m x.
Proof.
  intros Hk HL. unfold uvmcreate. destruct l as [|root l1]; [left|right].
  { rewrite (bind_ok _ _ _ _ _ (kalloc_none m fl L s Hk HL)). done. }
  destruct (fresh_table m fl root l1 L s Hk HL) as (m0 & E & Hr0 & U). rewrite (bind_ok _ _ _ _ _ E). clear E.
  rewrite (proj2 (Z.eqb_neq root 0)) by done. krun. revert U. generalize (memset m0 root 0 PGSIZE). intros m1 (U & X & N & O).
  exists root, l1, m1. by split_and!.
Qed.

(** The table of a new process: the trampoline and the trap frame. *)
Record new_space (m : memory) (l : list Z) (m' : memory) (l' : list Z) (root trampoline tf : Z) : Prop := {
  ns_uvm : uvm_inv m' (hd 0 l') l' root;
  ns_xlate va : va_ok va → xlate m' root va =
    if decide (va = TRAMPOLINE) then Some (mkpte trampoline (Z.lor PTE_R PTE_X))
    else if decide (va = TRAPFRAME) then Some (mkpte tf (Z.lor PTE_R PTE_W)) else None;
  ns_pool b : b ∈ l ↔ b ∈ l' ∨ ∃ p, path_ok p ∧ node m' root p = Some b;
  ns_out : spared m m' l;
}.

(** A table grown from an empty one: the pages of the pool are free or tables,
    and no other page is written. *)
Record grew (m : memory) (l : list Z) (m' : memory) (l' : list Z) (root : Z) : Prop := {
  gw_pool b : b ∈ l ↔ b ∈ l' ∨ ∃ p, path_ok p ∧ node m' root p = Some b;
  gw_out b : page_ok b → b ∉ l → not_table m' root b ∧ ∀ x, b ≤ x < b + PGSIZE → rd m' x = rd m x;
}.

Lemma grew_step m l m1 l1 m2 l2 root fl2 :
  grew m l m1 l1 root → vm_inv m2 fl2 l2 root → tframe m1 l1 m2 l2 root → taken m1 l1 m2 l2 root → grew m l m2 l2 root.
Proof.
  intros [G1 G2] V [T1 T2] [K1 K2].
  assert (∀ b, page_ok b → b ∉ l → not_table m2 root b ∧ ∀ x, b ≤ x < b + PGSIZE → rd m2 x = rd m x) as H.
  { intros b Hb Hl. destruct (G2 b Hb Hl) as [Hn Hrd]. destruct (T2 b Hb) as [H1 H2]; [rewrite G1 in Hl; tauto|done|].
    split; [done|]. intros x Hx. by rewrite H1, Hrd. }
  split; [|done]. intros b. split.
  - intros [Hb|(p & Hp & E)]%G1; [by apply K2|right; exists p; eauto].
  - intros [Hb|(p & Hp & E)].
    + apply G1. left. destruct T1 as [k ->]. apply elem_of_app. by right.
    + destruct (decide (b ∈ l)) as [|Hl]; [done|]. destruct (H b) as [Hn _]; [by eapply pw_page; [apply V|..]|done|]. by destruct (Hn p).
Qed.

(** Giving a table without leaves back. *)
Lemma grew_free m l m1 l1 root L s :
  grew m l m1 l1 root → uvm_inv m1 (hd 0 l1) l1 root → (∀ va, va_ok va → xlate m1 root va = None) → LKmem ∉ L →
  ∃ m' l', (uvmfree root 0;; mret 0) (setk m1 (hd 0 l1) L s) = Ok 0 (setk m' (hd 0 l') L s) ∧
    kmem_inv m' (hd 0 l') l' ∧ (∀ b, b ∈ l' ↔ b ∈ l) ∧ spared m m' l.
Proof.
  intros [G1 G2] U X HL. destruct (uvmfree_ok root 0 m1 (hd 0 l1) l1 L s U HL) as (m' & l' & E & Hk & Hl & Ho); [done|intros; by apply X|].
  assert (∀ b, b ∈ l' ↔ b ∈ l) as Hl'.
  { intros b. rewrite Hl, G1. unfold own. split; [|naive_solver]. intros [?|[?|(va & v & Hva & Ev & _)]]; [tauto|tauto|]. by rewrite X in Ev. }
  exists m', l'. rewrite (bind_ok _ _ _ _ _ E). split_and!; [done|done|done|].
  intros b x Hb Hbl Hx. rewrite (Ho b) by (done || by rewrite Hl'). by apply (G2 b).
Qed.

(** [proc_pagetable] builds the table or gives back all it took. *)
Lemma proc_pagetable_ok i p trampoline m fl l L s :
  kmem_inv m fl l → LKmem ∉ L → procs s !! i = Some p → page_ok trampoline → trampoline ∉ l →
  page_ok (pr_trapframe p) → pr_trapframe p ∉ l → pr_trapframe p ≠ trampoline →
  ∃ r m' l', proc_pagetable trampoline i (setk m fl L s) = Ok r (setk m' (hd 0 l') L s) ∧
    ((r ≠ 0 ∧ new_space m l m' l' r trampoline (pr_trapframe p)) ∨
     (r = 0 ∧ (length l ≤ 5)%nat ∧ kmem_inv m' (hd 0 l') l' ∧ (∀ b, b ∈ l' ↔ b ∈ l) ∧ spared m m' l)).
Proof.
  intros Hk HL Hp Ht Htl Htf Htfl Hne. unfold proc_pagetable. destruct va_ok_top as [V1 V2].
  destruct (uvmcreate_ok m fl l L s Hk HL) as [(-> & E)|(root & l1 & m1 & -> & Hr & E & U1 & X1 & N1 & O1)].
  { exists 0, m, []. rewrite (bind_ok _ _ _ _ _ E). cbn [Z.eqb]. pose proof (flist_head _ _ _ (ki_list _ _ _ Hk)) as ->.
    split; [done|]. right. split_and!; simpl; done || lia. }
  rewrite (bind_ok _ _ _ _ _ E), (proj2 (Z.eqb_neq root 0)) by done. apply not_elem_of_cons in Htl as [Htr Htl]. apply not_elem_of_cons in Htfl as [Htfr Htfl].
  assert (grew m (root :: l1) m1 l1 root) as G1.
  { split.
    - intros b. rewrite elem_of_cons. split; [intros [->|?]; [right; exists []; split; [split; [simpl; lia|constructor]|done]|by left]|].
      intros [?|(q & Hq & En)]; [by right|]. destruct (decide (b = root)); [by left|]. by destruct (N1 b n q).
    - intros b Hb [Hbr _]%not_elem_of_cons. split; [by apply N1|]. intros x Hx. apply O1.
      assert (page_ok root) by (eapply kmem_inv_page; [exact Hk|left]). destruct (page_ok_sep b root); [done..|lia|lia]. }
  destruct (map_fresh root TRAMPOLINE trampoline (Z.lor PTE_R PTE_X) m1 (hd 0 l1) l1 L s) as (r & m2 & l2 & j & E2 & U2 & T2 & M2 & [K2 C2] & D2);
    [done|done|done|by apply X1|split; [done|done|by apply N1|intros va v _; by rewrite X1]|done|].
  rewrite (bind_ok _ _ _ _ _ E2). pose proof (grew_step _ _ _ _ _ _ _ _ G1 (uv_vm _ _ _ _ U2) T2 K2) as G2.
  destruct D2 as [[-> ->]|(-> & -> & -> & _)]; cbn [Z.ltb Z.compare].
  2:{ destruct (grew_free m (root :: l1) m2 [] root L s G2 U2) as (m' & l' & E3 & R); [|done|].
      - intros va Hva. rewrite M2, decide_False by (done || lia). apply X1.
      - exists 0, m', l'. rewrite E3. split; [done|]. right. split; [done|]. split; [simpl in *; lia|done]. }
  unfold getproc. krun. rewrite Hp. krun. assert (TRAPFRAME + PGSIZE = TRAMPOLINE) as Htt by done.
  assert (∀ va, va_ok va → xlate m2 root va = if decide (va = TRAMPOLINE) then Some (mkpte trampoline (Z.lor PTE_R PTE_X)) else None) as X2.
  { intros va Hva. rewrite M2, X1 by done. destruct (decide (va = TRAMPOLINE)) as [->|Hv].
    - by rewrite decide_True, Z.sub_diag, Z.add_0_r by (unfold PGSIZE; lia).
    - rewrite decide_False; [done|]. intros [H1 H2]. pose proof (va_ok_step TRAMPOLINE va V1 Hva ltac:(lia) ltac:(done)). lia. }
  assert (PTE2PA (mkpte trampoline (Z.lor PTE_R PTE_X)) = trampoline) as Ept
    by (apply mkpte_pa; [by apply page_ok_pa|done|apply Ht]).
  destruct (map_fresh root TRAPFRAME (pr_trapframe p) (Z.lor PTE_R PTE_W) m2 (hd 0 l2) l2 L s) as (r & m3 & l3 & j & E3 & U3 & T3 & M3 & [K3 C3] & D3);
    [done|done|done|by rewrite X2, decide_False| |done|].
  { split; [done|eapply not_in_suffix; [apply T2|done]|apply (gw_out _ _ _ _ _ G2); [done|by apply not_elem_of_cons]|].
    intros va v Hva. rewrite X2 by done. case_decide; [|done]. intros [= <-]. by rewrite Ept. }
  rewrite (bind_ok _ _ _ _ _ E3). pose proof (grew_step _ _ _ _ _ _ _ _ G2 (uv_vm _ _ _ _ U3) T3 K3) as G3.
  destruct D3 as [[-> ->]|(-> & -> & -> & _)]; cbn [Z.ltb Z.compare].
  - exists root, m3, l3. split; [done|]. left. split; [done|]. split; [done| |apply G3|intros b x Hb Hbl Hx; by apply (gw_out _ _ _ _ _ G3 b)].
    intros va Hva. rewrite M3 by done. destruct (decide (va = TRAPFRAME)) as [->|Hv].
    + by rewrite decide_True, decide_False, Z.sub_diag, Z.add_0_r by (done || (unfold PGSIZE; lia)).
    + rewrite decide_False; [by apply X2|]. intros [H1 H2]. pose proof (va_ok_step TRAPFRAME va V2 Hva ltac:(lia) ltac:(done)). lia.
  - destruct (unmap_one root TRAMPOLINE m3 (hd 0 []) [] L s (uv_vm _ _ _ _ U3) V1) as (m4 & E4 & I4 & N4 & X4 & T4).
    assert (∀ va, va_ok va → xlate m4 root va = None) as Hx.
    { intros va Hva. rewrite X4, M3, X2 by done. rewrite (decide_False (P := TRAPFRAME ≤ va < _)) by lia. by case_decide. }
    destruct (grew_free m (root :: l1) m4 [] root L s) as (m' & l' & E5 & R).
    + by eapply grew_step; [apply G3|apply I4|done|apply taken_same].
    + split; [done|intros va v Hva; by rewrite Hx|intros va va' v v' Hva _; by rewrite Hx].
    + done.
    + done.
    + exists 0, m', l'. rewrite (bind_ok _ _ _ _ _ E4). split; [exact E5|]. right. split; [done|]. split; [simpl in *; lia|done].
Qed.

(** ** allocproc *)

(** The entry [allocproc] fills in. *)
Definition new_proc (forkret pid tf pt : Z) (p : proc) : proc :=
  clear_mmaps (p <| upd_pr_pid := pid |> <| upd_pr_state := USED |>) <| upd_pr_trapframe := tf |>
    <| upd_pr_pagetable := pt |> <| upd_pr_ctx_ra := forkret |> <| upd_pr_ctx_sp := pr_kstack p + PGSIZE |>.

Lemma clear_clear p : clear_mmaps (clear_mmaps p) = clear_mmaps p.
Proof. unfold clear_mmaps, upd_pr_mmaps. cbn. f_equal. by rewrite <- list_fmap_compose. Qed.
(** [freeproc] undoes what [allocproc] sets. *)
Lemma freed_new p pid tf pt :
  freed_proc (clear_mmaps (p <| upd_pr_pid := pid |> <| upd_pr_state := USED |>) <| upd_pr_trapframe := tf |> <| upd_pr_pagetable := pt |>) =
  freed_proc p.
Proof.
  transitivity ((clear_mmaps (clear_mmaps (freed_fields p))) <| upd_pr_state := UNUSED |> <| upd_pr_syscall_count := 0 |>).
  - by destruct p.
  - by rewrite clear_clear.
Qed.
Lemma freed_new0 p pid tf :
  freed_proc (clear_mmaps (p <| upd_pr_pid := pid |> <| upd_pr_state := USED |>) <| upd_pr_trapframe := tf |>) = freed_proc p.
Proof. rewrite <- (freed_new p pid tf 0). by destruct p. Qed.

Definition bump (s : kstate) : kstate := s <| upd_nextpid ::= λ n, n + 1 |>.

Lemma allocpid_ok m fl L s : LPid ∉ L → allocpid (setk m fl L s) = Ok (nextpid s) (setk m fl L (bump s)).
Proof.
  intros HL. unfold allocpid. rewrite (bind_ok _ _ _ _ _ (acquire_setk LPid m fl L s HL)). krun.
  by rewrite (bind_ok _ _ _ _ _ (release_setk LPid m fl L _)).
Qed.

(** The memory of a new process: a trap frame, a page table that maps it and the
    trampoline, and the pool the rest; no other page is written. *)
Record new_mem (m : memory) (l : list Z) (m' : memory) (l' : list Z) (trampoline : Z) (q : proc) : Prop := {
  nm_tf : pr_trapframe q ≠ 0 ∧ pr_trapframe q ∈ l ∧ pr_trapframe q ∉ l';
  nm_tf_table : not_table m' (pr_pagetable q) (pr_trapframe q);
  nm_pt : pr_pagetable q ≠ 0;
  nm_uvm : uvm_inv m' (hd 0 l') l' (pr_pagetable q);
  nm_xlate va : va_ok va → xlate m' (pr_pagetable q) va =
    if decide (va = TRAMPOLINE) then Some (mkpte trampoline (Z.lor PTE_R PTE_X))
    else if decide (va = TRAPFRAME) then Some (mkpte (pr_trapframe q) (Z.lor PTE_R PTE_W)) else None;
  nm_pool b : b ∈ l ↔ b = pr_trapframe q ∨ b ∈ l' ∨ ∃ p, path_ok p ∧ node m' (pr_pagetable q) p = Some b;
  nm_out : spared m m' l;
}.

Definition alloc_result (trampoline forkret : Z) (i : nat) (p : proc) (m : memory) (l : list Z) (L : list lock) (s : kstate)
    (o : res (option chan) kstate (option nat)) : Prop :=
  (∃ m' l', o = Ok None (setk m' (hd 0 l') L (foc i (freed_proc p) (bump s))) ∧ (length l ≤ 6)%nat ∧
     kmem_inv m' (hd 0 l') l' ∧ (∀ b, b ∈ l' ↔ b ∈ l) ∧ spared m m' l) ∨
  (∃ m' l' tf pt, let q := new_proc forkret (nextpid s) tf pt p in
     o = Ok (Some i) (setk m' (hd 0 l') (LProc i :: L) (foc i q (bump s))) ∧ new_mem m l m' l' trampoline q).

(** The failure path of [allocproc]. *)
Lemma alloc_fail i q m1 l1 L s m l :
  pr_pagetable q = 0 → kmem_inv m1 (hd 0 l1) l1 → (pr_trapframe q ≠ 0 → page_ok (pr_trapframe q) ∧ pr_trapframe q ∉ l1) →
  (∀ b, b ∈ l ↔ b ∈ l1 ∨ (pr_trapframe q ≠ 0 ∧ b = pr_trapframe q)) → spared m m1 l → LKmem ∉ LProc i :: L →
  (i < length (procs s))%nat → (length l ≤ 6)%nat →
  ∃ m' l', (freeproc i;; release (LProc i);; mret (None : option nat)) (setk m1 (hd 0 l1) (LProc i :: L) (foc i q s)) =
      Ok None (setk m' (hd 0 l') L (foc i (freed_proc q) s)) ∧ (length l ≤ 6)%nat ∧ kmem_inv m' (hd 0 l') l' ∧
    (∀ b, b ∈ l' ↔ b ∈ l) ∧ spared m m' l.
Proof.
  intros Hpt Hk Htf Hl Hs HL Hi Hlen.
  destruct (freeproc_ok i q m1 (hd 0 l1) l1 (LProc i :: L) s) as (m' & l' & E & Hk' & Hl' & S'); [by split|done|done|].
  assert (∀ b, b ∈ l' ↔ b ∈ l) as Hll by (intros b; rewrite Hl', Hl; unfold proc_own; tauto).
  exists m', l'. rewrite (bind_ok _ _ _ _ _ E), (bind_ok _ _ _ _ _ (release_setk (LProc i) m' (hd 0 l') L _)).
  split_and!; [done|done|done|done|]. intros b x Hb Hbl Hx. rewrite (S' b) by (done || by rewrite Hll). by apply (Hs b).
Qed.

Lemma allocproc_found_ok trampoline forkret i p m fl l L s :
  kmem_inv m fl l → LKmem ∉ L → LPid ∉ L → procs s !! i = Some p → pr_pagetable p = 0 →
  page_ok trampoline → trampoline ∉ l →
  alloc_result trampoline forkret i p m l L s (allocproc_found trampoline forkret i (setk m fl (LProc i :: L) s)).
Proof.
  intros Hk HL HLp Hp Hpt Ht Htl. assert (i < length (procs s))%nat as Hi by (by eapply lookup_lt_Some).
  assert (LKmem ∉ LProc i :: L) as HL' by (by apply not_elem_of_cons). unfold allocproc_found.
  rewrite (bind_ok _ _ _ _ _ (allocpid_ok m fl (LProc i :: L) s ltac:(by apply not_elem_of_cons))).
  assert (procs (bump s) !! i = Some p ∧ (i < length (procs (bump s)))%nat) as [Hp' Hi'] by done.
  unfold alloc_result.
  assert (setk m fl (LProc i :: L) (bump s) = setk m fl (LProc i :: L) (foc i p (bump s))) as -> by (by rewrite foc_self).
  revert Hi'. generalize (bump s) as s1. intros s1 Hi'. set (pid := nextpid s).
  rewrite (bind_ok _ _ _ _ _ (setproc_foc i p m fl _ s1 Hi' _)), (bind_ok _ _ _ _ _ (setproc_foc i _ m fl _ s1 Hi' _)).
  set (p1 := clear_mmaps (p <| upd_pr_pid := pid |> <| upd_pr_state := USED |>)). destruct l as [|tf l0].
  { rewrite (bind_ok _ _ _ _ _ (kalloc_none m fl _ _ Hk HL')), (bind_ok _ _ _ _ _ (setproc_foc i p1 m fl _ s1 Hi' _)). cbn [Z.eqb].
    pose proof (flist_head _ _ _ (ki_list _ _ _ Hk)) as ->. left. rewrite <- (freed_new0 p pid 0).
    apply alloc_fail; [done|done|done|intros b; split; [by left|intros [?|[? _]]; done]|done|done|done|simpl; lia]. }
  destruct (kalloc_some m tf l0 fl (LProc i :: L) (foc i p1 s1) Hk HL') as [E Hk1]. rewrite (bind_ok _ _ _ _ _ E). clear E.
  pose proof (kmem_inv_page _ _ _ tf Hk ltac:(left)) as Htf. pose proof (ki_nodup _ _ _ Hk) as [Hnl _]%NoDup_cons.
  assert (tf ≠ 0) as Htf0 by (destruct Htf; lia). apply not_elem_of_cons in Htl as [Htt Htl0].
  assert (spared m (memset m tf 5 PGSIZE) (tf :: l0)) as S1.
  { intros b x Hb [Hbn _]%not_elem_of_cons Hx. apply rd_memset_out. destruct (page_ok_sep b tf); [done..|lia|lia]. }
  revert Hk1 S1. generalize (memset m tf 5 PGSIZE). intros m1 Hk1 S1.
  rewrite (bind_ok _ _ _ _ _ (setproc_foc i p1 m1 _ _ s1 Hi' _)), (proj2 (Z.eqb_neq tf 0)) by done.
  set (p2 := p1 <| upd_pr_trapframe := tf |>).
  destruct (proc_pagetable_ok i p2 trampoline m1 (hd 0 l0) l0 (LProc i :: L) (foc i p2 s1)) as (r & m2 & l2 & E2 & D);
    [done|done|by rewrite procs_foc, list_lookup_insert_eq|done|done|done|done|by intros Ett|].
  rewrite (bind_ok _ _ _ _ _ E2), (bind_ok _ _ _ _ _ (setproc_foc i p2 m2 _ _ s1 Hi' _)). destruct D as [[Hr N]|(-> & Hlen & Hk2 & Hl2 & S2)].
  - right. rewrite (proj2 (Z.eqb_neq r 0)) by done. rewrite (bind_ok _ _ _ _ _ (setproc_foc i _ m2 _ _ s1 Hi' _)).
    exists m2, l2, tf, r. split; [done|]. destruct N as [NU NX NP NO].
    assert (tf ∉ l2) as Hn2 by (intros H; apply Hnl, NP; by left).
    split; cbn [new_proc pr_trapframe pr_pagetable upd_pr_ctx_ra upd_pr_ctx_sp upd_pr_pagetable upd_pr_trapframe]; try done.
    + split_and!; [done|by left|done].
    + intros q Hq Eq. apply Hnl, NP. right. by exists q.
    + intros b. rewrite elem_of_cons, NP. tauto.
    + intros b x Hb Hbl Hx. rewrite (NO b), (S1 b) by (done || (apply not_elem_of_cons in Hbl; tauto)). done.
  - left. cbn [Z.eqb]. rewrite <- (freed_new p pid tf 0). apply alloc_fail; [done|done| | | |done|done|simpl; lia].
    + intros _. split; [done|]. cbn. by rewrite Hl2.
    + intros b. rewrite elem_of_cons, Hl2. cbn. tauto.
    + intros b x Hb Hbl Hx. rewrite (S2 b), (S1 b) by (done || (apply not_elem_of_cons in Hbl; tauto)). done.
Qed.

(** An assignment past the end of the table is lost. *)
Lemma setproc_past i f m fl L s : (length (procs s) ≤ i)%nat → setproc i f (setk m fl L s) = Ok () (setk m fl L s).
Proof.
  intros Hi. unfold setproc, modify. rewrite upd_procs_setk. do 2 f_equal. unfold upd_procs.
  assert (alter f i (procs s) = procs s) as ->; [|by destruct s]. apply list_eq. intros j. destruct (decide (j = i)) as [->|].
  - by rewrite list_lookup_alter_eq, lookup_ge_None_2.
  - by rewrite list_lookup_alter_ne.
Qed.

Lemma allocproc_loop_ok n i trampoline forkret m fl l L s :
  kmem_inv m fl l → LKmem ∉ L → LPid ∉ L → (∀ j, LProc j ∉ L) → length (procs s) = (i + n)%nat →
  (∀ j p, procs s !! j = Some p → pr_state p = UNUSED → pr_pagetable p = 0) →
  page_ok trampoline → trampoline ∉ l →
  ((∀ j p, (i ≤ j)%nat → procs s !! j = Some p → pr_state p ≠ UNUSED) ∧
     allocproc_loop n i trampoline forkret (setk m fl L s) = Ok None (setk m fl L s)) ∨
  (∃ j p, (i ≤ j)%nat ∧ procs s !! j = Some p ∧ pr_state p = UNUSED ∧
     alloc_result trampoline forkret j p m l L s (allocproc_loop n i trampoline forkret (setk m fl L s))).
Proof.
  intros Hk HL HLp HLj Hlen Hslots Ht Htl. revert i Hlen. induction n as [|n IH]; intros i Hlen; cbn [allocproc_loop].
  { left. split; [intros j p Hj Hp; apply lookup_lt_Some in Hp; lia|].
    rewrite (bind_ok _ _ _ _ _ (setproc_past i _ m fl L s ltac:(lia))). by rewrite (bind_ok _ _ _ _ _ (setproc_past i _ m fl L s ltac:(lia))). }
  destruct (lookup_lt_is_Some_2 (procs s) i ltac:(lia)) as [p Hp].
  rewrite (bind_ok _ _ _ _ _ (acquire_setk (LProc i) m fl L s (HLj i))). unfold getproc. krun. rewrite Hp. krun.
  case_bool_decide as Hst.
  - right. exists i, p. split_and!; [lia|done|done|]. apply allocproc_found_ok; try done. by apply (Hslots i).
  - rewrite (bind_ok _ _ _ _ _ (release_setk (LProc i) m fl L s)). destruct (IH (S i) ltac:(lia)) as [[H1 H2]|(j & q & Hj & H)]; [left|right].
    + split; [|done]. intros j q Hj Hq. destruct (decide (j = i)) as [->|]; [congruence|]. apply (H1 j); [lia|done].
    + exists j, q. split; [lia|done].
Qed.

Lemma allocproc_ok trampoline forkret m fl l L s :
  kmem_inv m fl l → LKmem ∉ L → LPid ∉ L → (∀ j, LProc j ∉ L) → length (procs s) = NPROC →
  (∀ j p, procs s !! j = Some p → pr_state p = UNUSED → pr_pagetable p = 0) →
  page_ok trampoline → trampoline ∉ l →
  ((∀ j p, procs s !! j = Some p → pr_state p ≠ UNUSED) ∧
     allocproc trampoline forkret (setk m fl L s) = Ok None (setk m fl L s)) ∨
  (∃ i p, procs s !! i = Some p ∧ pr_state p = UNUSED ∧
     alloc_result trampoline forkret i p m l L s (allocproc trampoline forkret (setk m fl L s))).
Proof.
  intros Hk HL HLp HLj Hlen Hslots Ht Htl.
  destruct (allocproc_loop_ok NPROC 0 trampoline forkret m fl l L s) as [[H1 H2]|(j & p & _ & H)]; try done.
  - left. split; [|done]. intros j p. apply H1. lia.
  - right. by exists j, p.
Qed.


