(* ===== verification/Boot.v ===== *)
(** * kernel/main.c: from reset to the scheduler

    The machine while it boots: the kernel's state, its harts (Machine.v), the
    writes to device registers so far, in order, and the globals main shares
    between harts.  What a device register reads is a function [dev] of the
    writes before it.  [boot0] is the list of calls hart 0 makes, [boot1] the
    list of the others; [main0] is hart 0 alone, and [bstep] interleaves the
    calls of all harts, each of the others waiting for [started].  The theorems:
    hart 0's calls succeed and build a kernel with its page table, its first
    process and its devices; and in every interleaving no hart reaches the
    scheduler before that is done.

    The addresses are the linker's: [kend], [etext], [trampoline], [kernelvec],
    [forkret]. *)

From S2P Require Import Prelude Bytes Riscv CString Machine Kstate Kalloc Vm VmProps VmCopy VmFork VmKernel VmFree Sched Bio Log Printf Console Pipe Fs File Proc ProcMem.

(** ** State *)

(** The part of [struct disk] that [virtio_disk_init] sets: the pages of the
    queue and the free descriptors. *)
Record vqueue := mk_vqueue { q_desc : Z; q_avail : Z; q_used : Z; q_free : list bool }.

Record sys := mk_sys {
  ks : kstate;
  kernel_pagetable : Z;
  started : Z;
  mmio : list (Z * Z);
  vq : vqueue;
  harts : list hart;
}.
Definition upd_ks (g : kstate → kstate) (s : sys) : sys :=
  mk_sys (g (ks s)) (kernel_pagetable s) (started s) (mmio s) (vq s) (harts s).
Definition upd_kernel_pagetable (g : Z → Z) (s : sys) : sys :=
  mk_sys (ks s) (g (kernel_pagetable s)) (started s) (mmio s) (vq s) (harts s).
Definition upd_started (g : Z → Z) (s : sys) : sys :=
  mk_sys (ks s) (kernel_pagetable s) (g (started s)) (mmio s) (vq s) (harts s).
Definition upd_mmio (g : list (Z * Z) → list (Z * Z)) (s : sys) : sys :=
  mk_sys (ks s) (kernel_pagetable s) (started s) (g (mmio s)) (vq s) (harts s).
Definition upd_vq (g : vqueue → vqueue) (s : sys) : sys :=
  mk_sys (ks s) (kernel_pagetable s) (started s) (mmio s) (g (vq s)) (harts s).
Definition upd_harts (g : list hart → list hart) (s : sys) : sys :=
  mk_sys (ks s) (kernel_pagetable s) (started s) (mmio s) (vq s) (g (harts s)).

Abbreviation B := (M (option chan) sys).

(** A routine of the kernel, and accesses of hart [i] to its registers. *)
Fixpoint lift_res {A} (s : sys) (r : res (option chan) kstate A) : res (option chan) sys A :=
  match r with
  | Ok a k => Ok a (upd_ks (λ _, k) s)
  | Panic msg => Panic msg
  | Sleep c k f => Sleep c (upd_ks (λ _, k) s) (λ s', lift_res s' (f (ks s')))
  | NoFuel => NoFuel
  end.
Definition kern {A} (m : K A) : B A := λ s, lift_res s (m (ks s)).
Definition onhart {A} (i : nat) (m : HM A) : B A := λ s,
  match harts s !! i with
  | Some h =>
      match m h with
      | Ok a h' => Ok a (upd_harts (<[i := h']>) s)
      | Panic msg => Panic msg
      | Sleep c _ _ => match c : Empty_set with end
      | NoFuel => NoFuel
      end
  | None => Panic "hart"
  end.

(** A store to a device register. *)
Definition wreg (a v : Z) : B () := modify (upd_mmio (λ w, w ++ [(a, v)])).

(** ** uart.c, plic.c, trap.c, vm.c: initialisation *)

Definition RHR : Z := 0.
Definition IER : Z := 1.
Definition FCR : Z := 2.
Definition LCR : Z := 3.
Definition IER_RX_ENABLE : Z := Z.shiftl 1 0.
Definition IER_TX_ENABLE : Z := Z.shiftl 1 1.
Definition FCR_FIFO_ENABLE : Z := Z.shiftl 1 0.
Definition FCR_FIFO_CLEAR : Z := Z.shiftl 3 1.
Definition LCR_EIGHT_BITS : Z := Z.shiftl 3 0.
Definition LCR_BAUD_LATCH : Z := Z.shiftl 1 7.
Definition WriteReg (reg v : Z) : B () := wreg (UART0 + reg) v.
Definition uartinit : B () :=
  WriteReg IER 0x00;;
  WriteReg LCR LCR_BAUD_LATCH;;
  WriteReg 0 0x03;;
  WriteReg 1 0x00;;
  WriteReg LCR LCR_EIGHT_BITS;;
  WriteReg FCR (Z.lor FCR_FIFO_ENABLE FCR_FIFO_CLEAR);;
  WriteReg IER (Z.lor IER_TX_ENABLE IER_RX_ENABLE).
(** [consoleinit] of console.c calls [uartinit] and then registers the console. *)
Definition consoleinit : B () := uartinit;; kern console_devsw.

(** The hart's number is in tp. *)
Definition cpuid (i : nat) : B Z := x ← onhart i r_tp; mret (s32 x).
Definition plicinit : B () :=
  wreg (PLIC + UART0_IRQ * 4) 1;;
  wreg (PLIC + VIRTIO0_IRQ * 4) 1.
Definition plicinithart (i : nat) : B () :=
  hart ← cpuid i;
  wreg (PLIC_SENABLE hart) (Z.lor (Z.shiftl 1 UART0_IRQ) (Z.shiftl 1 VIRTIO0_IRQ));;
  wreg (PLIC_SPRIORITY hart) 0.

Section boot.
Context (impl : csrname → Z) (dev : list (Z * Z) → Z → Z).
Context (kend etext trampoline kernelvec forkret : Z).

Definition trapinithart (i : nat) : B () := onhart i (w_stvec impl kernelvec).

Definition kvminit : B () :=
  r ← kern (kvmmake etext trampoline);
  modify (upd_kernel_pagetable (λ _, r)).
(** The fences around the write of satp have no effect here: translations are
    not cached. *)
Definition kvminithart (i : nat) : B () :=
  r ← gets kernel_pagetable;
  onhart i (w_satp impl (MAKE_SATP r)).

(** ** virtio_disk.c: the handshake *)

Definition VIRTIO_MMIO_MAGIC_VALUE : Z := 0x000.
Definition VIRTIO_MMIO_VERSION : Z := 0x004.
Definition VIRTIO_MMIO_DEVICE_ID : Z := 0x008.
Definition VIRTIO_MMIO_VENDOR_ID : Z := 0x00c.
Definition VIRTIO_MMIO_DEVICE_FEATURES : Z := 0x010.
Definition VIRTIO_MMIO_DRIVER_FEATURES : Z := 0x020.
Definition VIRTIO_MMIO_QUEUE_SEL : Z := 0x030.
Definition VIRTIO_MMIO_QUEUE_NUM_MAX : Z := 0x034.
Definition VIRTIO_MMIO_QUEUE_NUM : Z := 0x038.
Definition VIRTIO_MMIO_QUEUE_READY : Z := 0x044.
Definition VIRTIO_MMIO_STATUS : Z := 0x070.
Definition VIRTIO_MMIO_QUEUE_DESC_LOW : Z := 0x080.
Definition VIRTIO_MMIO_QUEUE_DESC_HIGH : Z := 0x084.
Definition VIRTIO_MMIO_DRIVER_DESC_LOW : Z := 0x090.
Definition VIRTIO_MMIO_DRIVER_DESC_HIGH : Z := 0x094.
Definition VIRTIO_MMIO_DEVICE_DESC_LOW : Z := 0x0a0.
Definition VIRTIO_MMIO_DEVICE_DESC_HIGH : Z := 0x0a4.
Definition S_ACKNOWLEDGE : Z := 1.
Definition S_DRIVER : Z := 2.
Definition S_DRIVER_OK : Z := 4.
Definition S_FEATURES_OK : Z := 8.
Definition NUM : nat := 8.

(** The feature bits the driver refuses: RO, SCSI, CONFIG_WCE, MQ, ANY_LAYOUT,
    EVENT_IDX, INDIRECT_DESC. *)
Definition refused_features : list Z := [5; 7; 11; 12; 27; 29; 28].
Definition negotiate (features : Z) : Z :=
  foldl (λ f n, Z.land f (Z.lnot (Z.shiftl 1 n))) features refused_features.

Definition R (r : Z) : B Z := w ← gets mmio; mret (dev w (VIRTIO0 + r)).
Definition wR (r v : Z) : B () := wreg (VIRTIO0 + r) (u32 v).

(** The queue's memory: three pages, cleared. *)
Definition virtio_queue : B () :=
  d ← kern kalloc;
  modify (upd_vq (λ q, mk_vqueue d (q_avail q) (q_used q) (q_free q)));;
  a ← kern kalloc;
  modify (upd_vq (λ q, mk_vqueue (q_desc q) a (q_used q) (q_free q)));;
  u ← kern kalloc;
  modify (upd_vq (λ q, mk_vqueue (q_desc q) (q_avail q) u (q_free q)));;
  if (d =? 0) || (a =? 0) || (u =? 0) then panic "virtio disk kalloc" else
  kern (update upd_mem (λ m, memset m d 0 PGSIZE));;
  kern (update upd_mem (λ m, memset m a 0 PGSIZE));;
  kern (update upd_mem (λ m, memset m u 0 PGSIZE));;
  wR VIRTIO_MMIO_QUEUE_NUM (Z.of_nat NUM);;
  wR VIRTIO_MMIO_QUEUE_DESC_LOW d;;
  wR VIRTIO_MMIO_QUEUE_DESC_HIGH (Z.shiftr d 32);;
  wR VIRTIO_MMIO_DRIVER_DESC_LOW a;;
  wR VIRTIO_MMIO_DRIVER_DESC_HIGH (Z.shiftr a 32);;
  wR VIRTIO_MMIO_DEVICE_DESC_LOW u;;
  wR VIRTIO_MMIO_DEVICE_DESC_HIGH (Z.shiftr u 32);;
  wR VIRTIO_MMIO_QUEUE_READY 0x1;;
  modify (upd_vq (λ q, mk_vqueue (q_desc q) (q_avail q) (q_used q) (replicate NUM true))).

Definition virtio_disk_init : B () :=
  magic ← R VIRTIO_MMIO_MAGIC_VALUE;
  version ← R VIRTIO_MMIO_VERSION;
  device ← R VIRTIO_MMIO_DEVICE_ID;
  vendor ← R VIRTIO_MMIO_VENDOR_ID;
  if negb (magic =? 0x74726976) || negb (version =? 2) || negb (device =? 2) || negb (vendor =? 0x554d4551)
  then panic "could not find virtio disk" else
  wR VIRTIO_MMIO_STATUS 0;;
  let status := Z.lor 0 S_ACKNOWLEDGE in
  wR VIRTIO_MMIO_STATUS status;;
  let status := Z.lor status S_DRIVER in
  wR VIRTIO_MMIO_STATUS status;;
  features ← R VIRTIO_MMIO_DEVICE_FEATURES;
  wR VIRTIO_MMIO_DRIVER_FEATURES (negotiate features);;
  let status := Z.lor status S_FEATURES_OK in
  wR VIRTIO_MMIO_STATUS status;;
  status ← R VIRTIO_MMIO_STATUS;
  if Z.land status S_FEATURES_OK =? 0 then panic "virtio disk FEATURES_OK unset" else
  wR VIRTIO_MMIO_QUEUE_SEL 0;;
  ready ← R VIRTIO_MMIO_QUEUE_READY;
  if nz ready then panic "virtio disk should not be ready" else
  max ← R VIRTIO_MMIO_QUEUE_NUM_MAX;
  if max =? 0 then panic "virtio disk has no queue 0" else
  if max <? Z.of_nat NUM then panic "virtio disk max queue too short" else
  virtio_queue;;
  wR VIRTIO_MMIO_STATUS (Z.lor status S_DRIVER_OK).

(** ** main.c *)

(** The calls of hart 0.  [printfinit], [trapinit] and [fileinit] only
    initialise a lock, which is free in the initial state. *)
Definition boot0 : list (B ()) :=
  [consoleinit; mret ();
   kern (kprintf (line "") []); kern (kprintf (line "xv6 kernel is booting") []); kern (kprintf (line "") []);
   kern (kinit kend); kvminit; kvminithart 0; kern procinit; mret (); trapinithart 0;
   plicinit; plicinithart 0; kern binit; kern iinit; mret (); virtio_disk_init;
   kern (userinit trampoline forkret); modify (upd_started (λ _, 1))].
(** The calls of the other harts, after they found [started] set. *)
Definition boot1 (i : nat) : list (B ()) :=
  [id ← cpuid i; kern (kprintf (line "hart %d starting") [VInt id]); kvminithart i; trapinithart i; plicinithart i].

Definition calls (l : list (B ())) : B () := foldr (λ c k, c;; k) (mret ()) l.
Definition main0 : B () := calls boot0.
End boot.

(** ** Running the calls *)

Section lift.
Context (r st : Z) (w : list (Z * Z)) (q : vqueue) (H : list hart).
Lemma kern_ok {A} (m : K A) k a k' : m k = Ok a k' →
  kern m (mk_sys k r st w q H) = Ok a (mk_sys k' r st w q H).
Proof using. intros E. unfold kern. cbn [ks]. by rewrite E. Qed.
Lemma onhart_ok {A} (m : HM A) i h a h' k : H !! i = Some h → m h = Ok a h' →
  onhart i m (mk_sys k r st w q H) = Ok a (mk_sys k r st w q (<[i := h']> H)).
Proof using. intros E E'. unfold onhart. cbn [harts]. by rewrite E, E'. Qed.
End lift.

Lemma kern_fill {A} f (g : () → B A) m fl L s r st w q H :
  (kern (update upd_mem f) ≫= g) (mk_sys (setk m fl L s) r st w q H) = g () (mk_sys (setk (f m) fl L s) r st w q H).
Proof. done. Qed.
Lemma wR_run {A} rg v (g : () → B A) k r st w q H :
  (wR rg v ≫= g) (mk_sys k r st w q H) = g () (mk_sys k r st (w ++ [(VIRTIO0 + rg, u32 v)]) q H).
Proof. done. Qed.
Lemma R_run {A} dev rg (g : Z → B A) k r st w q H :
  (R dev rg ≫= g) (mk_sys k r st w q H) = g (dev w (VIRTIO0 + rg)) (mk_sys k r st w q H).
Proof. done. Qed.

(** The writes of each driver. *)
Definition uart_writes : list (Z * Z) :=
  [(UART0 + IER, 0); (UART0 + LCR, 0x80); (UART0, 3); (UART0 + 1, 0); (UART0 + LCR, 3); (UART0 + FCR, 7); (UART0 + IER, 3)].
Definition plic_writes : list (Z * Z) := [(PLIC + 40, 1); (PLIC + 4, 1)].
Definition plichart_writes (id : Z) : list (Z * Z) := [(PLIC_SENABLE id, 0x402); (PLIC_SPRIORITY id, 0)].

Lemma uartinit_ok k r st w q H : uartinit (mk_sys k r st w q H) = Ok () (mk_sys k r st (w ++ uart_writes) q H).
Proof. unfold uartinit, WriteReg, wreg. mrun. unfold upd_mmio, modify. cbn [mmio ks kernel_pagetable started vq harts]. by rewrite <- !app_assoc. Qed.

Lemma plicinit_ok k r st w q H : plicinit (mk_sys k r st w q H) = Ok () (mk_sys k r st (w ++ plic_writes) q H).
Proof. unfold plicinit, wreg. mrun. unfold upd_mmio, modify. cbn [mmio ks kernel_pagetable started vq harts]. by rewrite <- !app_assoc. Qed.

Lemma plicinithart_ok i h k r st w q H : H !! i = Some h →
  plicinithart i (mk_sys k r st w q H) = Ok () (mk_sys k r st (w ++ plichart_writes (s32 (h_tp h))) q H).
Proof.
  intros Hh. unfold plicinithart, cpuid. rewrite (bind_ok2 _ _ _ _ _ _ (onhart_ok r st w q H r_tp i h _ h k Hh eq_refl)).
  rewrite list_insert_id by done. unfold wreg. mrun. unfold upd_mmio, modify. cbn [mmio ks kernel_pagetable started vq harts]. by rewrite <- !app_assoc.
Qed.

(** A full register takes the value written to it. *)
Lemma onhart_write impl rg v i h k r st w q H :
  H !! i = Some h → csr_target rg = rg → csr_window impl h rg = impl rg → 0 ≤ h_csr h rg < 2 ^ 64 → 0 ≤ v < 2 ^ 64 →
  (∀ n, 0 ≤ n < 64 → Z.testbit (impl rg) n = true) →
  onhart i (csrw impl rg v) (mk_sys k r st w q H) =
  Ok () (mk_sys k r st w q (<[i := upd_h_csr (set_csr rg v) h]> H)).
Proof.
  intros Hh Et Ew Hx Hv Hf. apply (onhart_ok r st w q H _ i h); [done|]. unfold csrw, modify, write_csr. rewrite Et, Ew.
  rewrite merge_bits_full; [done|done|done|]. intros n Hn. left. by apply Hf.
Qed.

(** ** The disk *)

(** A virtio block device as its specification describes it: it identifies
    itself, keeps the status it is given (so accepts the negotiated features),
    has a queue 0 that is not in use before it is made ready, and room for at
    least [NUM] descriptors. *)
Record virtio_ok (dev : list (Z * Z) → Z → Z) : Prop := {
  vo_magic w : dev w (VIRTIO0 + VIRTIO_MMIO_MAGIC_VALUE) = 0x74726976;
  vo_version w : dev w (VIRTIO0 + VIRTIO_MMIO_VERSION) = 2;
  vo_device w : dev w (VIRTIO0 + VIRTIO_MMIO_DEVICE_ID) = 2;
  vo_vendor w : dev w (VIRTIO0 + VIRTIO_MMIO_VENDOR_ID) = 0x554d4551;
  vo_status w v : dev (w ++ [(VIRTIO0 + VIRTIO_MMIO_STATUS, v)]) (VIRTIO0 + VIRTIO_MMIO_STATUS) = v;
  vo_ready w : (∀ v, (VIRTIO0 + VIRTIO_MMIO_QUEUE_READY, v) ∉ w) → dev w (VIRTIO0 + VIRTIO_MMIO_QUEUE_READY) = 0;
  vo_max w : 8 ≤ dev w (VIRTIO0 + VIRTIO_MMIO_QUEUE_NUM_MAX);
}.

(** The status and feature writes of the handshake. *)
Definition hello_writes (features : Z) : list (Z * Z) :=
  [(VIRTIO0 + VIRTIO_MMIO_STATUS, 0); (VIRTIO0 + VIRTIO_MMIO_STATUS, 1); (VIRTIO0 + VIRTIO_MMIO_STATUS, 3);
   (VIRTIO0 + VIRTIO_MMIO_DRIVER_FEATURES, u32 (negotiate features)); (VIRTIO0 + VIRTIO_MMIO_STATUS, 11);
   (VIRTIO0 + VIRTIO_MMIO_QUEUE_SEL, 0)].
Definition queue_writes (d a u : Z) : list (Z * Z) :=
  [(VIRTIO0 + VIRTIO_MMIO_QUEUE_NUM, 8);
   (VIRTIO0 + VIRTIO_MMIO_QUEUE_DESC_LOW, u32 d); (VIRTIO0 + VIRTIO_MMIO_QUEUE_DESC_HIGH, u32 (Z.shiftr d 32));
   (VIRTIO0 + VIRTIO_MMIO_DRIVER_DESC_LOW, u32 a); (VIRTIO0 + VIRTIO_MMIO_DRIVER_DESC_HIGH, u32 (Z.shiftr a 32));
   (VIRTIO0 + VIRTIO_MMIO_DEVICE_DESC_LOW, u32 u); (VIRTIO0 + VIRTIO_MMIO_DEVICE_DESC_HIGH, u32 (Z.shiftr u 32));
   (VIRTIO0 + VIRTIO_MMIO_QUEUE_READY, 1)].
Definition disk_writes (features d a u : Z) : list (Z * Z) :=
  hello_writes features ++ queue_writes d a u ++ [(VIRTIO0 + VIRTIO_MMIO_STATUS, 15)].

(** A page of the pool that was taken and cleared. *)
Definition zeroed (m : memory) (b : Z) : Prop := ∀ x, b ≤ x < b + PGSIZE → rd m x = 0.

Lemma kmem_fill m fl l p c : kmem_inv m fl l → page_ok p → p ∉ l → kmem_inv (memset m p c PGSIZE) fl l.
Proof.
  intros Hk Hp Hn. eapply kmem_inv_mem; [exact Hk|apply bytes_ok_memset, Hk|]. intros b x Hb Hx. apply rd_memset_out.
  pose proof (kmem_inv_page _ _ _ b Hk Hb). destruct (page_ok_sep b p); [done|done|by intros ->|lia|lia].
Qed.

Lemma zeroed_memset m p : zeroed (memset m p 0 PGSIZE) p.
Proof. intros x Hx. by rewrite rd_memset_in. Qed.
Lemma zeroed_other m p b c : page_ok p → page_ok b → p ≠ b → zeroed m p → zeroed (memset m b c PGSIZE) p.
Proof.
  intros Hp Hb Hne Hz x Hx. rewrite rd_memset_out; [by apply Hz|]. destruct (page_ok_sep p b); [done..|lia|lia].
Qed.

Lemma spared_memset m m0 l p c : spared m m0 l → page_ok p → p ∈ l → spared m (memset m0 p c PGSIZE) l.
Proof.
  intros Hs Hp Hl b x Hb Hbl Hx. rewrite rd_memset_out; [by apply (Hs b)|].
  destruct (page_ok_sep b p); [done..|by intros ->|lia|lia].
Qed.

(** The memory of the queue, after [virtio_queue]. *)
Record queue_mem (m : memory) (l : list Z) (m' : memory) (l' : list Z) (d a u : Z) : Prop := {
  qm_pool : l = d :: a :: u :: l';
  qm_kmem : kmem_inv m' (hd 0 l') l';
  qm_zero : zeroed m' d ∧ zeroed m' a ∧ zeroed m' u;
  qm_out : spared m m' l;
}.

Lemma queue_mem_ok m fl d a u l' :
  kmem_inv m fl (d :: a :: u :: l') →
  let m3 := memset (memset (memset m d 5 PGSIZE) a 5 PGSIZE) u 5 PGSIZE in
  queue_mem m (d :: a :: u :: l') (memset (memset (memset m3 d 0 PGSIZE) a 0 PGSIZE) u 0 PGSIZE) l' d a u.
Proof.
  intros Hk m3. pose proof (not_elem_of_nil LKmem) as HL.
  destruct (kalloc_some m d (a :: u :: l') fl [] kstate0 Hk HL) as [_ K1].
  destruct (kalloc_some _ a (u :: l') _ [] kstate0 K1 HL) as [_ K2]. destruct (kalloc_some _ u l' _ [] kstate0 K2 HL) as [_ K3].
  pose proof (ki_nodup _ _ _ Hk) as [Hd [Ha [Hu _]%NoDup_cons]%NoDup_cons]%NoDup_cons.
  pose proof (ki_pages _ _ _ Hk) as [Pd [Pa [Pu _]%Forall_cons]%Forall_cons]%Forall_cons.
  apply not_elem_of_cons in Hd as [Nda Hd]. apply not_elem_of_cons in Hd as [Ndu Hd]. apply not_elem_of_cons in Ha as [Nau Ha].
  split; [done| | |].
  - by do 3 (apply kmem_fill; [|done..]).
  - split_and!.
    + do 2 (apply zeroed_other; [done..|]). apply zeroed_memset.
    + apply zeroed_other; [done..|]. apply zeroed_memset.
    + apply zeroed_memset.
  - unfold m3. repeat (apply spared_memset; [|done|set_solver+]). done.
Qed.

Lemma virtio_queue_ok m l r st w q H s :
  kmem_inv m (hd 0 l) l → (3 ≤ length l)%nat →
  ∃ d a u m' l', virtio_queue (mk_sys (setk m (hd 0 l) [] s) r st w q H) =
      Ok () (mk_sys (setk m' (hd 0 l') [] s) r st (w ++ queue_writes d a u) (mk_vqueue d a u (replicate NUM true)) H) ∧
    queue_mem m l m' l' d a u.
Proof.
  intros Hk Hl. destruct l as [|d [|a [|u l']]]; [simpl in Hl; lia..|]. pose proof (not_elem_of_nil LKmem) as HL.
  pose proof (queue_mem_ok _ _ _ _ _ _ Hk) as Q. cbn zeta in Q.
  destruct (kalloc_some m d (a :: u :: l') _ [] s Hk HL) as [E1 K1].
  destruct (kalloc_some _ a (u :: l') _ [] s K1 HL) as [E2 K2]. destruct (kalloc_some _ u l' _ [] s K2 HL) as [E3 K3].
  pose proof (ki_pages _ _ _ Hk) as [[_ Pd] [[_ Pa] [[_ Pu] _]%Forall_cons]%Forall_cons]%Forall_cons.
  exists d, a, u. eexists _, l'. split; [|exact Q]. clear Q K1 K2 K3 Hk Hl. revert E1 E2 E3.
  generalize (memset m d 5 PGSIZE). intros m1 E1. generalize (memset m1 a 5 PGSIZE). intros m2 E2.
  generalize (memset m2 u 5 PGSIZE). intros m3 E3. unfold virtio_queue.
  rewrite (bind_ok _ _ _ _ _ (kern_ok r st w q H _ _ _ _ E1)). mrun. unfold upd_vq. cbn [ks kernel_pagetable started mmio vq harts q_desc q_avail q_used q_free].
  rewrite (bind_ok _ _ _ _ _ (kern_ok _ _ _ _ _ _ _ _ _ E2)). mrun. unfold upd_vq. cbn [ks kernel_pagetable started mmio vq harts q_desc q_avail q_used q_free].
  rewrite (bind_ok _ _ _ _ _ (kern_ok _ _ _ _ _ _ _ _ _ E3)). mrun. unfold upd_vq. cbn [ks kernel_pagetable started mmio vq harts q_desc q_avail q_used q_free].
  rewrite !(proj2 (Z.eqb_neq _ 0)) by lia. cbn [orb]. rewrite !kern_fill, !wR_run. unfold modify, upd_vq.
  cbn [ks kernel_pagetable started mmio vq harts q_desc q_avail q_used q_free]. by rewrite <- !app_assoc.
Qed.

Lemma virtio_disk_init_ok dev m l r st w q H s :
  virtio_ok dev → kmem_inv m (hd 0 l) l → (3 ≤ length l)%nat → (∀ v, (VIRTIO0 + VIRTIO_MMIO_QUEUE_READY, v) ∉ w) →
  ∃ f d a u m' l', virtio_disk_init dev (mk_sys (setk m (hd 0 l) [] s) r st w q H) =
      Ok () (mk_sys (setk m' (hd 0 l') [] s) r st (w ++ disk_writes f d a u) (mk_vqueue d a u (replicate NUM true)) H) ∧
    queue_mem m l m' l' d a u.
Proof.
  intros [V1 V2 V3 V4 V5 V6 V7] Hk Hl Hw. unfold virtio_disk_init. rewrite !R_run, V1, V2, V3, V4. cbn [Z.eqb Pos.eqb negb orb].
  cbn zeta. rewrite !wR_run, R_run. set (f := dev _ _). rewrite !wR_run, R_run.
  rewrite V5. change (u32 (Z.lor (Z.lor (Z.lor 0 S_ACKNOWLEDGE) S_DRIVER) S_FEATURES_OK)) with 11. change (Z.land 11 S_FEATURES_OK =? 0) with false. cbv iota.
  rewrite wR_run, R_run. rewrite V6.
  2:{ intros v. rewrite !not_elem_of_app, !not_elem_of_cons. split_and?; try done; try apply not_elem_of_nil; try apply Hw. }
  change (nz 0) with false. cbv iota. rewrite R_run. set (mx := dev _ _). assert (8 ≤ mx) as Hm by apply V7.
  rewrite (proj2 (Z.eqb_neq mx 0)), (proj2 (Z.ltb_ge mx _)) by (unfold NUM; lia).
  destruct (virtio_queue_ok m l r st (w ++ hello_writes f) q H s Hk Hl) as (d & a & u & m' & l' & E & Q).
  exists f, d, a, u, m', l'. split; [|done]. rewrite <- !app_assoc. cbn [app].
  rewrite (bind_ok _ _ _ _ _ E). unfold disk_writes. rewrite !app_assoc. done.
Qed.

(** ** The kernel's tables

    The kernel's variables start as zero; memory may hold anything.  Each call
    that does not touch memory is run on that state. *)

Definition result_of (m : K ()) (s : kstate) : kstate := match m s with Ok _ s' => s' | _ => s end.
Definition s_devsw : kstate := result_of console_devsw kstate0.
Definition s_blank : kstate := result_of (kprintf (line "") []) s_devsw.
Definition s_banner : kstate := result_of (kprintf (line "xv6 kernel is booting") []) s_blank.
Definition s_console : kstate := result_of (kprintf (line "") []) s_banner.
Definition s_proc : kstate := result_of procinit s_console.
Definition s_bio : kstate := result_of binit s_proc.
Definition s_inode : kstate := result_of iinit s_bio.

(** The entry of the process table that [allocproc] finds first, and the inode
    table entry of the root directory. *)
Definition slot0 : proc := proc0 <| upd_pr_kstack := KSTACK 0 |>.
Definition root_entry : inode := inode0 <| upd_i_dev := ROOTDEV |> <| upd_i_inum := ROOTINO |> <| upd_i_ref := 1 |>.
Definition init_proc (forkret tf pt : Z) : proc :=
  (new_proc forkret 1 tf pt slot0) <| upd_pr_cwd := Some 0%nat |> <| upd_pr_state := RUNNABLE |>.
Definition s_user (forkret tf pt : Z) : kstate :=
  (foc 0 (init_proc forkret tf pt) (bump s_inode)) <| upd_initproc := Some 0%nat |> <| upd_itable ::= <[0%nat := root_entry]> |>.

Lemma devsw_tables m fl : console_devsw (setk m fl [] kstate0) = Ok () (setk m fl [] s_devsw).
Proof. vm_compute. reflexivity. Qed.
Lemma blank_tables m fl : kprintf (line "") [] (setk m fl [] s_devsw) = Ok () (setk m fl [] s_blank).
Proof. vm_compute. reflexivity. Qed.
Lemma banner_tables m fl :
  kprintf (line "xv6 kernel is booting") [] (setk m fl [] s_blank) = Ok () (setk m fl [] s_banner).
Proof. vm_compute. reflexivity. Qed.
Lemma console_tables m fl : kprintf (line "") [] (setk m fl [] s_banner) = Ok () (setk m fl [] s_console).
Proof. vm_compute. reflexivity. Qed.
Lemma procinit_tables m fl : procinit (setk m fl [] s_console) = Ok () (setk m fl [] s_proc).
Proof. vm_compute. reflexivity. Qed.
Lemma binit_tables m fl : binit (setk m fl [] s_proc) = Ok () (setk m fl [] s_bio).
Proof. vm_compute. reflexivity. Qed.
Lemma iinit_tables m fl : iinit (setk m fl [] s_bio) = Ok () (setk m fl [] s_inode).
Proof. vm_compute. reflexivity. Qed.

(** The part of [userinit] after [allocproc]. *)
Lemma userinit_rest m fl forkret tf pt :
  (put upd_initproc (Some 0%nat);;
   ip ← namei [SLASH];
   setproc 0 (λ p, p <| upd_pr_cwd := ip |>);;
   setproc 0 (λ p, p <| upd_pr_state := RUNNABLE |>);;
   release (LProc 0)) (setk m fl [LProc 0] (foc 0 (new_proc forkret 1 tf pt slot0) (bump s_inode))) =
  Ok () (setk m fl [] (s_user forkret tf pt)).
Proof. vm_compute. reflexivity. Qed.

Lemma slot0_first : procs s_inode !! 0%nat = Some slot0 ∧ nextpid s_inode = 1.
Proof. by vm_compute. Qed.

Lemma allocproc_first trampoline forkret m fl s p :
  procs s !! 0%nat = Some p → pr_state p = UNUSED →
  allocproc trampoline forkret (setk m fl [] s) = allocproc_found trampoline forkret 0 (setk m fl [LProc 0] s).
Proof.
  intros Hp Hs. unfold allocproc. change NPROC with (S 63). generalize 63%nat. intros n. cbn [allocproc_loop].
  rewrite (bind_ok _ _ _ _ _ (acquire_setk (LProc 0) m _ [] s (not_elem_of_nil _))).
  unfold getproc. krun. rewrite Hp. krun. by rewrite bool_decide_true.
Qed.

Lemma userinit_ok trampoline forkret m l :
  kmem_inv m (hd 0 l) l → page_ok trampoline → trampoline ∉ l → (7 ≤ length l)%nat →
  ∃ m' l' tf pt, userinit trampoline forkret (setk m (hd 0 l) [] s_inode) =
      Ok () (setk m' (hd 0 l') [] (s_user forkret tf pt)) ∧
    new_mem m l m' l' trampoline (new_proc forkret 1 tf pt slot0).
Proof.
  intros Hk Ht Htl Hl. destruct slot0_first as [Hp Hn].
  destruct (allocproc_found_ok trampoline forkret 0 slot0 m (hd 0 l) l [] s_inode) as [(m' & l' & _ & Hlen & _)|(m' & l' & tf & pt & E' & N)];
    [done|apply not_elem_of_nil|apply not_elem_of_nil|done|done|done|done|lia|].
  rewrite Hn in E', N. exists m', l', tf, pt. split; [|exact N].
  unfold userinit. rewrite (bind_ok _ _ _ _ _ (eq_trans (allocproc_first trampoline forkret m (hd 0 l) s_inode slot0 Hp eq_refl) E')). apply userinit_rest.
Qed.

(** ** Hart 0 *)

(** The registers hart 0 needs, of 64 bits each. *)
Definition hart_impl (impl : csrname → Z) : Prop :=
  ∀ r n, r = Csatp ∨ r = Cstvec → 0 ≤ n < 64 → Z.testbit (impl r) n = true.

Lemma lor_range a b n : 0 ≤ n → 0 ≤ a < 2 ^ n → 0 ≤ b < 2 ^ n → 0 ≤ Z.lor a b < 2 ^ n.
Proof.
  intros Hn Ha Hb. rewrite <- (Z.mod_small a (2 ^ n)), <- (Z.mod_small b (2 ^ n)), <- !Z.land_ones by done.
  rewrite <- Z.land_lor_distr_l, Z.land_ones by done. apply Z.mod_pos_bound. lia.
Qed.

Lemma make_satp_range root : page_ok root → 0 ≤ MAKE_SATP root < 2 ^ 64.
Proof.
  intros [_ Hr]. apply lor_range; [done|done|]. unfold PHYSTOP, KERNBASE in *. rewrite Z.shiftr_div_pow2 by lia.
  split; [apply Z.div_pos; lia|apply Z.div_lt_upper_bound; lia].
Qed.

(** What the kernel is when hart 0 enters the scheduler: nothing is locked; the
    kernel's page table holds the regions of [kernel_regions] and the stacks,
    and is the one in satp; traps go to kernelvec; the first process can run, its table maps
    the trampoline and its trap frame, its directory is the root, and the other
    entries are free; the disk's queue is three zeroed pages with every descriptor free; the devices were programmed by
    the writes of [mmio], in this order. *)
Record booted (etext trampoline kernelvec forkret : Z) (s : sys) : Prop := {
  bt_started : started s = 1;
  bt_locks : locks (ks s) = [];
  bt_map : ∃ l stacks, vm_inv (mem (ks s)) (freelist (ks s)) l (kernel_pagetable s) ∧ length stacks = NPROC ∧
    ∀ va, va_ok va → xlate (mem (ks s)) (kernel_pagetable s) va =
      kspace (kernel_regions etext trampoline ++ stack_regions 0 stacks) va;
  bt_hart : ∃ h, harts s !! 0%nat = Some h ∧ h_csr h Csatp = MAKE_SATP (kernel_pagetable s) ∧ h_csr h Cstvec = kernelvec;
  bt_init : ∃ p, procs (ks s) !! 0%nat = Some p ∧ initproc (ks s) = Some 0%nat ∧ pr_state p = RUNNABLE ∧ pr_pid p = 1 ∧
    pr_ctx_ra p = forkret ∧ pr_ctx_sp p = KSTACK 0 + PGSIZE ∧
    (∀ va, va_ok va → xlate (mem (ks s)) (pr_pagetable p) va =
       if decide (va = TRAMPOLINE) then Some (mkpte trampoline (Z.lor PTE_R PTE_X))
       else if decide (va = TRAPFRAME) then Some (mkpte (pr_trapframe p) (Z.lor PTE_R PTE_W)) else None) ∧
    ∃ ip x, pr_cwd p = Some ip ∧ itable (ks s) !! ip = Some x ∧ i_dev x = ROOTDEV ∧ i_inum x = ROOTINO ∧ i_ref x = 1;
  bt_others : ∀ j p, procs (ks s) !! j = Some p → j ≠ 0%nat → pr_state p = UNUSED ∧ pr_kstack p = KSTACK (Z.of_nat j);
  bt_disk : zeroed (mem (ks s)) (q_desc (vq s)) ∧ zeroed (mem (ks s)) (q_avail (vq s)) ∧ zeroed (mem (ks s)) (q_used (vq s)) ∧
    q_free (vq s) = replicate NUM true;
  bt_mmio : ∃ f, mmio s = uart_writes ++ plic_writes ++ plichart_writes 0 ++
    disk_writes f (q_desc (vq s)) (q_avail (vq s)) (q_used (vq s));
}.

(** Memory kept from one step of the boot to the next. *)
Lemma spared_built m l m' l' root rs :
  built m l root rs → spared m m' l → kmem_inv m' (hd 0 l') l' → (∀ b, b ∈ l' → b ∈ l) → built m' l' root rs.
Proof.
  intros [Hi Hm] Hs Hk Hl. assert (tables_eq m m' root) as T.
  { intros p a x Hp Ha Hx. apply (Hs a); [by eapply pw_page; [apply Hi|..]|by eapply vi_free|done]. }
  split; [|intros va Hva; by rewrite (xlate_frame m), Hm].
  eapply vm_inv_frame; [done..|]. intros b p Hp Hb Hin. eapply vi_free; [exact Hi|exact Hp|exact Hb|by apply Hl].
Qed.

Lemma init_entry forkret tf pt :
  procs (s_user forkret tf pt) !! 0%nat = Some (init_proc forkret tf pt) ∧ initproc (s_user forkret tf pt) = Some 0%nat ∧
  itable (s_user forkret tf pt) !! 0%nat = Some root_entry.
Proof. by vm_compute. Qed.

(** The entries of the process table after the first. *)
Lemma other_entries forkret tf pt j p :
  procs (s_user forkret tf pt) !! j = Some p → j ≠ 0%nat → pr_state p = UNUSED ∧ pr_kstack p = KSTACK (Z.of_nat j).
Proof.
  intros Hp Hj. assert (procs (s_user forkret tf pt) = <[0%nat := init_proc forkret tf pt]> (procs s_inode)) as E by (by vm_compute).
  rewrite E, list_lookup_insert_ne in Hp by done.
  assert (∀ j p, procs s_inode !! j = Some p → pr_state p = UNUSED ∧ pr_kstack p = KSTACK (Z.of_nat j)) as Hall; [|by apply Hall].
  clear. assert (procs s_inode = (λ i, proc0 <| upd_pr_kstack := KSTACK (Z.of_nat i) |>) <$> seq 0 64) as -> by (by vm_compute).
  intros j p Hp. apply list_lookup_fmap_Some in Hp as (i & -> & Hi). apply lookup_seq in Hi as [-> _]. done.
Qed.

#[local] Opaque s_devsw s_blank s_banner s_console s_proc s_bio s_inode s_user.

(** The machine at reset: the kernel's variables are zero, memory is arbitrary,
    no device register was written. *)
Definition sys0 (m : memory) (H : list hart) : sys :=
  mk_sys (setk m 0 [] kstate0) 0 0 [] (mk_vqueue 0 0 0 []) H.

Section kernel.
Context (impl : csrname → Z) (dev : list (Z * Z) → Z → Z) (kend etext trampoline kernelvec forkret : Z).
Context (Hlay : kernel_layout etext trampoline kend) (Himpl : hart_impl impl) (Hdev : virtio_ok dev).
Context (Hvec : 0 ≤ kernelvec < 2 ^ 64).
Implicit Types (r st : Z) (w : list (Z * Z)) (q : vqueue) (H : list hart).

(** Pages for the page table and the first process. *)
Lemma kvminit_ok m l r st w q H s :
  kmem_inv m (hd 0 l) l → (599 ≤ length l)%nat →
  ∃ root m' l' stacks, kvminit etext trampoline (mk_sys (setk m (hd 0 l) [] s) r st w q H) =
      Ok () (mk_sys (setk m' (hd 0 l') [] s) root st w q H) ∧
    built m' l' root (kernel_regions etext trampoline ++ stack_regions 0 stacks) ∧ length stacks = NPROC ∧
    l' `suffix_of` l ∧ (length l ≤ length l' + 545)%nat.
Proof using Hlay.
  intros Hk Hl. destruct (kvmmake_ok etext trampoline kend m (hd 0 l) l [] s Hlay Hk (not_elem_of_nil _) Hl)
    as (root & m' & l' & stacks & E & Bt & _ & N & S & _ & C).
  exists root, m', l', stacks. split; [|done]. unfold kvminit. by rewrite (bind_ok _ _ _ _ _ (kern_ok r st w q H _ _ _ _ E)).
Qed.

Lemma kvminithart_ok i h k r st w q H :
  H !! i = Some h → 0 ≤ h_csr h Csatp < 2 ^ 64 → page_ok r →
  kvminithart impl i (mk_sys k r st w q H) =
  Ok () (mk_sys k r st w q (<[i := upd_h_csr (set_csr Csatp (MAKE_SATP r)) h]> H)).
Proof using Himpl.
  intros Hh Hx Hr. unfold kvminithart. rewrite bind_gets. cbn [kernel_pagetable].
  apply onhart_write; [done|done|done|done|by apply make_satp_range|]. intros n. apply Himpl. by left.
Qed.

Lemma trapinithart_ok i h k r st w q H :
  H !! i = Some h → 0 ≤ h_csr h Cstvec < 2 ^ 64 →
  trapinithart impl kernelvec i (mk_sys k r st w q H) =
  Ok () (mk_sys k r st w q (<[i := upd_h_csr (set_csr Cstvec kernelvec) h]> H)).
Proof using Himpl Hvec. intros Hh Hx. apply onhart_write; try done. intros n. apply Himpl. by right. Qed.

Lemma consoleinit_ok m r st w q H :
  consoleinit (mk_sys (setk m 0 [] kstate0) r st w q H) = Ok () (mk_sys (setk m 0 [] s_devsw) r st (w ++ uart_writes) q H).
Proof using. unfold consoleinit. rewrite (bind_ok _ _ _ _ _ (uartinit_ok _ r st w q H)). apply kern_ok, devsw_tables. Qed.
End kernel.

Lemma layout_trampoline etext trampoline kend (l : list Z) :
  kernel_layout etext trampoline kend → (∀ p, p ∈ l → ram_pages kend p) → page_ok trampoline ∧ trampoline ∉ l.
Proof.
  intros [(He & Ha & Hk) [Ht Ht'] Hr] Hl. split.
  - split; [done|]. unfold KERNBASE, PGSIZE in *. lia.
  - intros (_ & Hx & _)%Hl. lia.
Qed.

(** The writes before the disk's do not touch its queue. *)
Lemma early_writes v : (VIRTIO0 + VIRTIO_MMIO_QUEUE_READY, v) ∉ (([] ++ uart_writes) ++ plic_writes) ++ plichart_writes (s32 0).
Proof.
  unfold uart_writes, plic_writes, plichart_writes. rewrite !not_elem_of_app, !not_elem_of_cons.
  split_and?; first [apply not_elem_of_nil|by intros [= E]].
Qed.

(** The first process in its entry of the table. *)
Record first_proc (forkret : Z) (s : kstate) (p : proc) : Prop := {
  fp_entry : procs s !! 0%nat = Some p ∧ initproc s = Some 0%nat;
  fp_run : pr_state p = RUNNABLE ∧ pr_pid p = 1;
  fp_ctx : pr_ctx_ra p = forkret ∧ pr_ctx_sp p = KSTACK 0 + PGSIZE;
  fp_cwd : ∃ ip x, pr_cwd p = Some ip ∧ itable s !! ip = Some x ∧ i_dev x = ROOTDEV ∧ i_inum x = ROOTINO ∧ i_ref x = 1;
  fp_others j q : procs s !! j = Some q → j ≠ 0%nat → pr_state q = UNUSED ∧ pr_kstack q = KSTACK (Z.of_nat j);
}.

Lemma s_user_first forkret tf pt : first_proc forkret (s_user forkret tf pt) (init_proc forkret tf pt).
Proof.
  destruct (init_entry forkret tf pt) as (I1 & I2 & I3).
  split; [exact (conj I1 I2)|clear; by vm_compute|clear; by vm_compute| |apply other_entries].
  exists 0%nat, root_entry. split; [clear; by vm_compute|]. split; [exact I3|clear; by vm_compute].
Qed.

Lemma new_mem_same m l m' l' trampoline p q :
  pr_trapframe p = pr_trapframe q → pr_pagetable p = pr_pagetable q →
  new_mem m l m' l' trampoline q → new_mem m l m' l' trampoline p.
Proof. intros E1 E2 [T1 T2 T3 T4 T5 T6 T7]. by split; rewrite ?E1, ?E2. Qed.

(** The memory of the kernel before and after the first process is set up. *)
Lemma booted_intro etext trampoline kernelvec forkret root m0 m l m' l' d a u f stacks h hs su p :
  kmem_inv m0 (hd 0 (d :: a :: u :: l)) (d :: a :: u :: l) → zeroed m d ∧ zeroed m a ∧ zeroed m u →
  built m l root (kernel_regions etext trampoline ++ stack_regions 0 stacks) → length stacks = NPROC →
  h_csr h Csatp = MAKE_SATP root → h_csr h Cstvec = kernelvec →
  new_mem m l m' l' trampoline p → first_proc forkret su p →
  booted etext trampoline kernelvec forkret
    (mk_sys (setk m' (hd 0 l') [] su) root 1 (((([] ++ uart_writes) ++ plic_writes) ++ plichart_writes (s32 0)) ++ disk_writes f d a u)
       (mk_vqueue d a u (replicate NUM true)) (h :: hs)).
Proof.
  intros K2 (Z1 & Z2 & Z3) B3 N2 Hsatp Hstvec [T1 T2 T3 T4 T5 T6 T7] [F1 F2 F3 F4 F5].
  assert (built m' l' root (kernel_regions etext trampoline ++ stack_regions 0 stacks)) as B4.
  { eapply spared_built; [done|done|apply T4|]. intros b Hb. apply T6. by right; left. }
  pose proof (ki_nodup _ _ _ K2) as Nd. pose proof (ki_pages _ _ _ K2) as Pg.
  assert (∀ b, b ∈ [d; a; u] → zeroed m b → zeroed m' b) as Hz.
  { intros b Hin Hz x Hx. rewrite (T7 b); [by apply Hz| | |done].
    - eapply Forall_forall in Pg; [exact Pg|]. clear -Hin. set_solver.
    - change (d :: a :: u :: l) with ([d; a; u] ++ l) in Nd. apply NoDup_app in Nd as (_ & Nd & _). by apply Nd. }
  destruct F1 as [F1 F1'], F2 as [F2 F2'], F3 as [F3 F3'].
  split; cbn [started ks kernel_pagetable harts vq mmio q_desc q_avail q_used q_free].
  - done.
  - done.
  - exists l', stacks. split; [apply B4|]. split; [done|apply B4].
  - by exists h.
  - exists p. by split_and!.
  - exact F5.
  - split_and!; [apply Hz; [set_solver+|done]..|done].
  - exists f. by rewrite <- !app_assoc.
Qed.

(** The last three calls: the disk, the first process, [started]. *)
Lemma boot_tail dev etext trampoline kernelvec forkret root m l stacks q h hs :
  virtio_ok dev → built m l root (kernel_regions etext trampoline ++ stack_regions 0 stacks) → length stacks = NPROC →
  (10 ≤ length l)%nat → page_ok trampoline → trampoline ∉ l →
  h_csr h Csatp = MAKE_SATP root → h_csr h Cstvec = kernelvec →
  ∃ s, (virtio_disk_init dev;; kern (userinit trampoline forkret);; modify (upd_started (λ _, 1));; mret ())
    (mk_sys (setk m (hd 0 l) [] s_inode) root 0 ((([] ++ uart_writes) ++ plic_writes) ++ plichart_writes (s32 0)) q (h :: hs)) =
    Ok () s ∧ booted etext trampoline kernelvec forkret s.
Proof.
  intros Hdev B2 N2 Hl Ht Htl Hsatp Hstvec. pose proof (vi_kmem _ _ _ _ (bu_vm _ _ _ _ B2)) as K2.
  destruct (virtio_disk_init_ok dev m l root 0 _ q (h :: hs) s_inode Hdev K2 ltac:(lia) early_writes)
    as (f & d & a & u & m3 & l3 & E3 & [-> Q2 Q3 Q4]).
  assert (built m3 l3 root (kernel_regions etext trampoline ++ stack_regions 0 stacks)) as B3
    by (eapply spared_built; [done..|]; set_solver+).
  destruct (userinit_ok trampoline forkret m3 l3 Q2 Ht) as (m4 & l4 & tf & pt & E4 & Nm);
    [set_solver|simpl in Hl; lia|].
  eexists. split.
  - rewrite (bind_ok _ _ _ _ _ E3), (bind_ok _ _ _ _ _ (kern_ok _ _ _ _ _ _ _ _ _ E4)). rewrite bind_modify. reflexivity.
  - eapply booted_intro; [exact K2|exact Q3|exact B3|exact N2|exact Hsatp|exact Hstvec| |apply s_user_first].
    eapply new_mem_same; [..|exact Nm]; clear; by vm_compute.
Qed.

Lemma main0_boots impl dev kend etext trampoline kernelvec forkret m h hs :
  kernel_layout etext trampoline kend → hart_impl impl → virtio_ok dev → 0 ≤ kernelvec < 2 ^ 64 →
  bytes_ok m → (∀ r, 0 ≤ h_csr h r < 2 ^ 64) → h_tp h = 0 →
  ∃ s, main0 impl dev kend etext trampoline kernelvec forkret (sys0 m (h :: hs)) = Ok () s ∧
    booted etext trampoline kernelvec forkret s.
Proof.
  intros Hlay Himpl Hdev Hvec Hb Hh Htp. unfold main0, calls, boot0, sys0. cbn [foldr].
  destruct (kinit_free_pages m kend [] s_console) as (m1 & l1 & E1 & K1 & P1);
    [destruct Hlay as [? _ ?]; unfold KERNBASE, PGSIZE in *; lia|done|apply not_elem_of_nil|].
  assert (599 ≤ length l1)%nat as Hl1.
  { eapply ram_pages_many; [|apply Hlay|apply K1|done]. destruct Hlay as [? _ _]. unfold KERNBASE in *. lia. }
  rewrite (bind_ok _ _ _ _ _ (consoleinit_ok m 0 0 [] (mk_vqueue 0 0 0 []) (h :: hs))). mrun.
  rewrite (bind_ok _ _ _ _ _ (kern_ok _ _ _ _ _ _ _ _ _ (blank_tables m 0))).
  rewrite (bind_ok _ _ _ _ _ (kern_ok _ _ _ _ _ _ _ _ _ (banner_tables m 0))).
  rewrite (bind_ok _ _ _ _ _ (kern_ok _ _ _ _ _ _ _ _ _ (console_tables m 0))).
  rewrite (bind_ok _ _ _ _ _ (kern_ok _ _ _ _ _ _ _ _ _ E1)).
  edestruct (kvminit_ok kend etext trampoline Hlay m1 l1) as (root & m2 & l2 & stacks & E2 & B2 & N2 & S2 & C2); [done|done|].
  rewrite (bind_ok _ _ _ _ _ E2). clear E1 E2.
  assert (page_ok root) as Hroot by (eapply (pw_page _ _ (vi_pt _ _ _ _ (bu_vm _ _ _ _ B2)) []); [split; [simpl; lia|constructor]|done]).
  rewrite (bind_ok _ _ _ _ _ (kvminithart_ok impl Himpl 0 h _ root _ _ _ (h :: hs) eq_refl (Hh Csatp) Hroot)).
  set (h1 := upd_h_csr (set_csr Csatp (MAKE_SATP root)) h). change (<[0%nat := h1]> (h :: hs)) with (h1 :: hs).
  rewrite (bind_ok _ _ _ _ _ (kern_ok _ _ _ _ _ _ _ _ _ (procinit_tables m2 (hd 0 l2)))). mrun.
  rewrite (bind_ok _ _ _ _ _ (trapinithart_ok impl kernelvec Himpl Hvec 0 h1 _ root _ _ _ (h1 :: hs) eq_refl (Hh Cstvec))).
  set (h2 := upd_h_csr (set_csr Cstvec kernelvec) h1). change (<[0%nat := h2]> (h1 :: hs)) with (h2 :: hs).
  rewrite (bind_ok _ _ _ _ _ (plicinit_ok _ _ _ _ _ _)).
  rewrite (bind_ok _ _ _ _ _ (plicinithart_ok 0 h2 _ _ _ _ _ (h2 :: hs) eq_refl)). change (h_tp h2) with (h_tp h). rewrite Htp.
  rewrite (bind_ok _ _ _ _ _ (kern_ok _ _ _ _ _ _ _ _ _ (binit_tables m2 (hd 0 l2)))).
  rewrite (bind_ok _ _ _ _ _ (kern_ok _ _ _ _ _ _ _ _ _ (iinit_tables m2 (hd 0 l2)))). mrun.
  apply layout_trampoline with (l := l2) in Hlay as [Ht Htl]; [by eapply boot_tail; [..|lia|done|done|done|done]|].
  intros p Hp. apply P1. destruct S2 as [k ->]. apply elem_of_app. by right.
Qed.

(** C7: the kernel boots. On a machine with arbitrary memory contents and a
    virtio disk, the calls hart 0 makes in main all return, none panics, and
    they leave the kernel as [booted] says: the page table of the kernel built and in
    use, the trap vector set, one runnable process with a table of its own and
    the root as its directory, the devices programmed in order and the disk's
    queue cleared. *)
Theorem kernel_boots impl dev kend etext trampoline kernelvec forkret m h hs :
  kernel_layout etext trampoline kend → hart_impl impl → virtio_ok dev → 0 ≤ kernelvec < 2 ^ 64 →
  bytes_ok m → (∀ r, 0 ≤ h_csr h r < 2 ^ 64) → h_tp h = 0 →
  ∃ s, main0 impl dev kend etext trampoline kernelvec forkret (sys0 m (h :: hs)) = Ok () s ∧
    booted etext trampoline kernelvec forkret s.
Proof. apply main0_boots. Qed.

(** A block device: status and queue state are what was written last, its
    identity and its queue size are fixed. *)
Definition last_write (w : list (Z * Z)) (a : Z) : Z :=
  default 0 (snd <$> last (filter (λ x, x.1 = a) w)).
Definition demo_dev (w : list (Z * Z)) (a : Z) : Z :=
  if a =? VIRTIO0 + VIRTIO_MMIO_MAGIC_VALUE then 0x74726976
  else if a =? VIRTIO0 + VIRTIO_MMIO_VERSION then 2
  else if a =? VIRTIO0 + VIRTIO_MMIO_DEVICE_ID then 2
  else if a =? VIRTIO0 + VIRTIO_MMIO_VENDOR_ID then 0x554d4551
  else if a =? VIRTIO0 + VIRTIO_MMIO_QUEUE_NUM_MAX then 1024
  else last_write w a.

Lemma demo_dev_ok : virtio_ok demo_dev.
Proof.
  split; try done.
  - intros w v. change (demo_dev (w ++ _) _) with (last_write (w ++ [(VIRTIO0 + VIRTIO_MMIO_STATUS, v)]) (VIRTIO0 + VIRTIO_MMIO_STATUS)).
    unfold last_write. rewrite filter_app, filter_cons_True, filter_nil by done. by rewrite last_snoc.
  - intros w Hw. change (last_write w (VIRTIO0 + VIRTIO_MMIO_QUEUE_READY) = 0). unfold last_write.
    destruct (last _) as [[a v]|] eqn:E; [|done]. apply last_Some_elem_of, list_elem_of_filter in E as [E Hin]. cbn in E. subst a.
    by destruct (Hw v).
Qed.

Lemma kernel_boots_witness :
  ∃ s, main0 (λ _, -1) demo_dev 0x80031234 0x80008000 0x80007000 0x80001200 0x80001400 (sys0 ∅ [demo_hart]) = Ok () s ∧
    booted 0x80008000 0x80007000 0x80001200 0x80001400 s.
Proof.
  apply kernel_boots.
  - split; unfold KERNBASE, PHYSTOP, PGSIZE; split_and?; done || lia.
  - intros r n _ Hn. apply Z.bits_m1. lia.
  - exact demo_dev_ok.
  - lia.
  - intros a. unfold rd. rewrite lookup_empty. cbn. lia.
  - intros r. cbn. case_decide; lia.
  - reflexivity.
Defined.
