(* ===== verification/BootOrder.v ===== *)
(** * kernel/main.c on several harts: the order of the boot

    All harts enter main together.  Hart 0 makes the calls of [boot0]; the
    others read [started] until it is set and then make the calls of [boot1].
    [bstep] interleaves them call by call; a hart that has entered the scheduler
    may do anything to the kernel's state, as processes run, but does not write the two variables of main
    and the other harts' registers.  The theorem: in every interleaving, a hart
    that gets past its wait or into the scheduler finds the kernel booted, and
    runs on the kernel's page table with the kernel's trap vector. *)

From stdpp Require relations.
From S2P Require Import Prelude Bytes Riscv CString Machine Kstate Kalloc Vm VmProps VmCopy VmFork VmKernel VmFree Sched Bio Log Printf Console Pipe Fs File Proc ProcMem Boot.

(** Where a hart is in main: reading [started], before its call number [k], or
    in the scheduler. *)
Inductive pos := Spin | Call (k : nat) | InScheduler.

(** Registers are 64 bits wide. *)
Definition regs_ok (h : hart) : Prop := ∀ r, 0 ≤ h_csr h r < 2 ^ 64.

(** What a hart [i] in the scheduler leaves alone. *)
Record scheduled (i : nat) (s s' : sys) : Prop := {
  sd_pt : kernel_pagetable s' = kernel_pagetable s;
  sd_started : started s' = started s;
  sd_harts j : j ≠ i → harts s' !! j = harts s !! j;
}.

(** ** Calls of one hart

    A call of hart [i] leaves [started] and the other harts alone. *)

Definition local {A} (i : nat) (c : B A) : Prop :=
  ∀ s a s', c s = Ok a s' → started s' = started s ∧ ∀ j, j ≠ i → harts s' !! j = harts s !! j.

Section local.
Context (i : nat).
Lemma local_mret {A} (a : A) : local i (mret a).
Proof using. intros s a' s' E. unfold mret, M_ret in E. by simplify_eq. Qed.
Lemma local_bind {A C} (c : B A) (f : A → B C) : local i c → (∀ a, local i (f a)) → local i (c ≫= f).
Proof using.
  intros H1 H2 s a s' (a1 & s1 & E1 & E2)%bind_Ok_inv. destruct (H1 _ _ _ E1) as [A1 A2], (H2 _ _ _ _ E2) as [B1 B2].
  split; [congruence|]. intros j Hj. by rewrite B2, A2.
Qed.
Lemma local_kern {A} (m : K A) : local i (kern m).
Proof using. intros s a s' E. unfold kern in E. destruct (m (ks s)); cbn in E; by simplify_eq. Qed.
Lemma local_onhart {A} (m : HM A) : local i (onhart i m).
Proof using.
  intros s a s' E. unfold onhart in E. destruct (harts s !! i) as [h|] eqn:Eh; [|done].
  destruct (m h) as [x h'| |[]|]; try done. simplify_eq. split; [done|]. intros j Hj. cbn. by rewrite list_lookup_insert_ne.
Qed.
Lemma local_wreg a v : local i (wreg a v).
Proof using. intros s x s' E. unfold wreg, modify in E. by simplify_eq. Qed.
Lemma local_gets {A} (f : sys → A) : local i (gets f).
Proof using. intros s x s' E. unfold gets in E. by simplify_eq. Qed.
Lemma local_panic {A} msg : local i (panic msg : B A).
Proof using. done. Qed.
Lemma local_pt g : local i (modify (upd_kernel_pagetable g)).
Proof using. intros s x s' E. unfold wreg, modify in E. by simplify_eq. Qed.
Lemma local_vq g : local i (modify (upd_vq g)).
Proof using. intros s x s' E. unfold wreg, modify in E. by simplify_eq. Qed.
End local.

Create HintDb boot discriminated.
#[export] Hint Resolve local_mret local_bind local_kern local_onhart local_wreg local_gets local_panic local_pt local_vq : boot.

(** Goes through the body of a call. *)
Ltac locals :=
  repeat first
    [ apply local_bind; [|intros ?] | progress (cbn zeta) | case_match | solve [auto with boot nocore] ].

Section order.
Context (impl : csrname → Z) (dev : list (Z * Z) → Z → Z) (kend etext trampoline kernelvec forkret : Z).
Abbreviation boot0' := (boot0 impl dev kend etext trampoline kernelvec forkret).
Abbreviation main0' := (main0 impl dev kend etext trampoline kernelvec forkret).

Definition hart_calls (i : nat) : list (B ()) := if decide (i = 0%nat) then boot0' else boot1 impl kernelvec i.

Inductive bstep : sys * list pos → sys * list pos → Prop :=
| step_spin i s ps : ps !! i = Some Spin → started s = 0 → bstep (s, ps) (s, ps)
| step_go i s ps : ps !! i = Some Spin → started s ≠ 0 → bstep (s, ps) (s, <[i := Call 0]> ps)
| step_call i k c s s' ps : ps !! i = Some (Call k) → hart_calls i !! k = Some c → c s = Ok () s' →
    bstep (s, ps) (s', <[i := Call (S k)]> ps)
| step_enter i k s ps : ps !! i = Some (Call k) → hart_calls i !! k = None → bstep (s, ps) (s, <[i := InScheduler]> ps)
| step_sched i s s' ps : ps !! i = Some InScheduler → scheduled i s s' → bstep (s, ps) (s', ps).

(** All harts at the start of main. *)
Definition reset (m : memory) (h0 : hart) (hs : list hart) : sys * list pos :=
  (sys0 m (h0 :: hs), Call 0 :: replicate (length hs) Spin).

(** ** Invariant *)

Lemma boot0_local k c : (k < 18)%nat → boot0' !! k = Some c → local 0 c.
Proof using.
  intros Hk Hc. assert (Forall (local 0) (take 18 boot0')) as Hf.
  { unfold boot0. cbn [take]. repeat (apply Forall_cons_2 || apply Forall_nil_2); try solve [auto with boot nocore];
      unfold consoleinit, uartinit, WriteReg, kvminit, kvminithart, trapinithart, plicinit, plicinithart, cpuid, virtio_disk_init, virtio_queue, R, wR; locals. }
  eapply Forall_lookup_1; [exact Hf|]. by rewrite lookup_take_lt.
Qed.

Context (m0 : memory) (h0 : hart) (hs : list hart).
Context (Hlay : kernel_layout etext trampoline kend) (Himpl : hart_impl impl) (Hdev : virtio_ok dev).
Context (Hvec : 0 ≤ kernelvec < 2 ^ 64) (Hmem : bytes_ok m0) (Hregs : Forall regs_ok (h0 :: hs)) (Htp : h_tp h0 = 0).

(** Hart 0 made all its calls, from the reset state and undisturbed. *)
Definition initialised (s : sys) : Prop :=
  ∃ s1, main0' (sys0 m0 (h0 :: hs)) = Ok () s1 ∧ booted etext trampoline kernelvec forkret s1 ∧
    started s = 1 ∧ kernel_pagetable s = kernel_pagetable s1.

(** Hart [i] runs on the kernel's page table and takes its traps. *)
Definition ready (s : sys) (i : nat) : Prop :=
  ∃ h, harts s !! i = Some h ∧ h_csr h Csatp = MAKE_SATP (kernel_pagetable s) ∧ h_csr h Cstvec = kernelvec.

(** The registers of another hart at position [p], as far as its calls set them. *)
Definition hart_at (s : sys) (j : nat) (p : pos) : Prop :=
  p = InScheduler ∨
  ∃ h, harts s !! j = Some h ∧ regs_ok h ∧
    ∀ k, p = Call k → (2 ≤ k)%nat → h_csr h Csatp = MAKE_SATP (kernel_pagetable s) ∧
      ((3 ≤ k)%nat → h_csr h Cstvec = kernelvec).

(** Hart 0 is booting and the others wait, or it is done. *)
Definition booting (s : sys) (ps : list pos) : Prop :=
  ∃ k, ps !! 0%nat = Some (Call k) ∧ (k ≤ 18)%nat ∧ started s = 0 ∧
    calls (drop k boot0') s = main0' (sys0 m0 (h0 :: hs)) ∧
    ∀ j p, j ≠ 0%nat → ps !! j = Some p → p = Spin.
Definition finished (s : sys) (ps : list pos) : Prop :=
  initialised s ∧ (ps !! 0%nat = Some InScheduler ∨ (ps !! 0%nat = Some (Call 19) ∧ ready s 0)).

Record inv (s : sys) (ps : list pos) : Prop := {
  in_phase : booting s ps ∨ finished s ps;
  in_others j p : j ≠ 0%nat → ps !! j = Some p → hart_at s j p;
}.

(** A step that touches hart [i] only keeps what is known of the others. *)
Lemma hart_at_kept s s' i j p :
  kernel_pagetable s' = kernel_pagetable s → (∀ j, j ≠ i → harts s' !! j = harts s !! j) → j ≠ i →
  hart_at s j p → hart_at s' j p.
Proof using.
  intros Ek Eh Hj [->|(h & H1 & H2 & H3)]; [by left|right]. exists h. rewrite Eh, Ek by done. done.
Qed.

Lemma finished_kept s s' i ps ps' :
  kernel_pagetable s' = kernel_pagetable s → started s' = started s → (∀ j, j ≠ i → harts s' !! j = harts s !! j) →
  (i ≠ 0%nat ∨ ps !! 0%nat = Some InScheduler) → ps' !! 0%nat = ps !! 0%nat → finished s ps → finished s' ps'.
Proof using.
  intros Ek Es Eh Hi Ep [(s1 & E & Bt & S1 & K1) H]. split.
  - exists s1. rewrite Es, Ek. done.
  - rewrite Ep. destruct H as [H|[H (h & H1 & H2)]]; [by left|right]. split; [done|]. exists h.
    destruct Hi as [Hi|Hi]; [|congruence]. rewrite Eh, Ek by done. done.
Qed.

Lemma inv_reset : inv (sys0 m0 (h0 :: hs)) (Call 0 :: replicate (length hs) Spin).
Proof using Hregs.
  split.
  - left. exists 0%nat. split_and!; [done|lia|done|done|]. intros [|j] p Hj Hp; [done|].
    cbn in Hp. by apply lookup_replicate in Hp as [-> _].
  - intros [|j] p Hj Hp; [done|]. cbn in Hp. apply lookup_replicate in Hp as [-> Hl]. right.
    destruct (lookup_lt_is_Some_2 hs j Hl) as [h Hh]. exists h. split; [done|]. split; [|done].
    apply Forall_cons in Hregs as [_ Hr]. by eapply Forall_lookup_1.
Qed.

Lemma initialised_root s : initialised s → page_ok (kernel_pagetable s).
Proof using.
  intros (s1 & _ & Bt & _ & ->). destruct (bt_map _ _ _ _ _ Bt) as (l & stacks & V & _).
  eapply (pw_page _ _ (vi_pt _ _ _ _ V) []); [split; [simpl; lia|constructor]|done].
Qed.

(** ** Steps *)

Lemma regs_ok_set h r v : regs_ok h → 0 ≤ v < 2 ^ 64 → regs_ok (upd_h_csr (set_csr r v) h).
Proof using. intros Hh Hv r'. cbn. unfold set_csr. by case_decide. Qed.

(** The first call of another hart only prints. *)
Lemma hello_ok j h k r st w q H s' :
  H !! j = Some h →
  (id ← cpuid j; kern (kprintf (line "hart %d starting") [VInt id])) (mk_sys k r st w q H) = Ok () s' →
  ∃ k', s' = mk_sys k' r st w q H.
Proof using.
  intros Hh E. unfold cpuid in E. rewrite (bind_ok2 _ _ _ _ _ _ (onhart_ok r st w q H r_tp j h _ h k Hh eq_refl)) in E.
  rewrite list_insert_id in E by done. rewrite bind_mret in E. unfold kern in E.
  destruct (kprintf _ _ _) as [a k'| | |]; cbn in E; simplify_eq. by exists k'.
Qed.

Lemma call_other j k c s s' :
  j ≠ 0%nat → initialised s → boot1 impl kernelvec j !! k = Some c → c s = Ok () s' → hart_at s j (Call k) →
  kernel_pagetable s' = kernel_pagetable s ∧ started s' = started s ∧
  (∀ i, i ≠ j → harts s' !! i = harts s !! i) ∧ hart_at s' j (Call (S k)).
Proof using Himpl Hvec.
  intros Hj Hi Hc E [|(h & Hh & Hr & Hk)]; [done|]. pose proof (initialised_root s Hi) as Hp. specialize (Hk k eq_refl).
  destruct s as [ks0 r st w q H]. cbn [harts kernel_pagetable] in *. pose proof (make_satp_range r Hp) as Hv.
  assert (∀ h' i, i ≠ j → <[j := h']> H !! i = H !! i) as Hne by (intros; by rewrite list_lookup_insert_ne).
  assert (∀ h', <[j := h']> H !! j = Some h') as Heq by (intros; apply list_lookup_insert_eq; by eapply lookup_lt_Some).
  destruct k as [|[|[|[|k]]]]; cbn in Hc; simplify_eq.
  - destruct (hello_ok j h ks0 r st w q H s' Hh E) as [k' ->]. split_and!; [done..|]. right. exists h. split_and!; [done..|]. intros k [= <-]. lia.
  - rewrite (kvminithart_ok impl Himpl j h _ _ _ _ _ _ Hh (Hr Csatp) Hp) in E. simplify_eq. cbn [harts kernel_pagetable started].
    split_and!; [done|done|apply Hne|]. right. eexists. split; [apply Heq|]. split; [by apply regs_ok_set|].
    intros k [= <-] _. split; [done|lia].
  - rewrite (trapinithart_ok impl kernelvec Himpl Hvec j h _ _ _ _ _ _ Hh (Hr Cstvec)) in E. simplify_eq. cbn [harts kernel_pagetable started].
    split_and!; [done|done|apply Hne|]. right. eexists. split; [apply Heq|]. split; [by apply regs_ok_set|].
    intros k [= <-] _. split; [by apply Hk|done].
  - rewrite (plicinithart_ok j h _ _ _ _ _ _ Hh) in E. simplify_eq. cbn [harts kernel_pagetable started].
    split_and!; [done..|]. right. exists h. split_and!; [done..|]. intros k [= <-] _. destruct Hk as [H1 H2]; [lia|]. split; [done|]. intros _. apply H2. lia.
Qed.

(** A call of hart 0. *)
Lemma call_boot k c s s' ps :
  inv s ps → ps !! 0%nat = Some (Call k) → boot0' !! k = Some c → c s = Ok () s' → inv s' (<[0%nat := Call (S k)]> ps).
Proof using Hlay Himpl Hdev Hvec Hmem Hregs Htp.
  intros [Hph Ho] Hp Hc E. assert (k < 19)%nat as Hk by (apply lookup_lt_Some in Hc; exact Hc).
  assert (<[0%nat := Call (S k)]> ps !! 0%nat = Some (Call (S k))) as Hp' by (apply list_lookup_insert_eq; by eapply lookup_lt_Some).
  destruct Hph as [(k' & Hk' & Hk18 & Hs & Hr & Hsp)|[_ [Hf|[Hf _]]]]; [|congruence|rewrite Hf in Hp; injection Hp as <-; lia].
  rewrite Hp in Hk'. injection Hk' as <-. assert (drop k boot0' = c :: drop (S k) boot0') as Ed by (by apply drop_S). rewrite Ed in Hr. clear Ed. cbn [calls foldr] in Hr. rewrite (bind_ok _ _ _ _ _ E) in Hr.
  assert (∀ j p, j ≠ 0%nat → <[0%nat := Call (S k)]> ps !! j = Some p → p = Spin) as Hsp'
    by (intros j p Hj Hq; rewrite list_lookup_insert_ne in Hq by done; by apply (Hsp j)).
  assert ((started s' = started s ∧ ∀ j, j ≠ 0%nat → harts s' !! j = harts s !! j) ∨ (k = 18%nat ∧ s' = upd_started (λ _, 1) s)) as Hst.
  { destruct (decide (k = 18%nat)) as [->|]; [right|left; eapply boot0_local; [|exact Hc|exact E]; lia].
    cbn in Hc. injection Hc as <-. split; [done|]. unfold modify in E. by injection E as <-. }
  split.
  - destruct Hst as [[Hst _]|[-> ->]].
    + destruct (decide (k = 18%nat)) as [->|]; [|left; exists (S k); split_and!; [done|lia|congruence|done|done]].
      cbn in Hc. injection Hc as <-. unfold modify in E. injection E as <-. cbn in Hst. lia.
    + right. cbn [drop foldr boot0] in Hr.
      destruct (main0_boots impl dev kend etext trampoline kernelvec forkret m0 h0 hs Hlay Himpl Hdev Hvec Hmem) as (s1 & E1 & Bt);
        [by apply Forall_cons in Hregs as [? _]|done|]. rewrite E1 in Hr. injection Hr as <-.
      split; [by eexists|]. right. split; [done|]. apply Bt.
  - intros j p Hj Hq. assert (harts s' !! j = harts s !! j) as Eh by (destruct Hst as [[_ H]|[_ ->]]; [by apply H|done]).
    pose proof (Hsp' j p Hj Hq) as Hps. subst p. rewrite list_lookup_insert_ne in Hq by done. destruct (Ho j Spin Hj Hq) as [|(h & H1 & H2 & _)]; [done|].
    right. exists h. rewrite Eh. split_and!; done.
Qed.

(** A hart past its wait finds hart 0 done. *)
Lemma past_finished s ps j p : inv s ps → ps !! j = Some p → j ≠ 0%nat → p ≠ Spin → finished s ps.
Proof using. intros [[(k & _ & _ & _ & _ & Hsp)|Hf] _] Hp Hj Hn; [|done]. by destruct Hn; eapply Hsp. Qed.

Lemma inv_step c c' : inv c.1 c.2 → bstep c c' → inv c'.1 c'.2.
Proof using Hlay Himpl Hdev Hvec Hmem Hregs Htp.
  intros Hi Hst. destruct Hst as [i s ps Hp Hs|i s ps Hp Hs|i k c s s' ps Hp Hc E|i k s ps Hp Hc|i s s' ps Hp [K1 K2 K3]]; cbn [fst snd] in *.
  - done.
  - destruct (decide (i = 0%nat)) as [->|Hi0].
    { destruct Hi as [[(k & Hk & _)|[_ [Hf|[Hf _]]]] _]; congruence. }
    destruct Hi as [Hph Ho]. split.
    + right. destruct Hph as [(k & _ & _ & Hs0 & _)|Hf]; [congruence|]. by eapply (finished_kept s s i); [..|rewrite list_lookup_insert_ne by done|]; auto.
    + intros j p Hj Hq. destruct (decide (j = i)) as [->|Hji].
      * rewrite list_lookup_insert_eq in Hq by (by eapply lookup_lt_Some). injection Hq as <-.
        destruct (Ho i Spin Hi0 Hp) as [|(h & H1 & H2 & _)]; [done|]. right. exists h. split_and!; [done|done|]. intros k [= <-]. lia.
      * rewrite list_lookup_insert_ne in Hq by done. by apply Ho.
  - unfold hart_calls in Hc. destruct (decide (i = 0%nat)) as [->|Hi0]; [by eapply call_boot|].
    pose proof (past_finished s ps i _ Hi Hp Hi0 ltac:(done)) as Hf.
    destruct (call_other i k c s s' Hi0 (proj1 Hf) Hc E (in_others _ _ Hi i _ Hi0 Hp)) as (E1 & E2 & E3 & E4). split.
    + right. eapply (finished_kept s s' i); [done|done|done|by left| |done]. by rewrite list_lookup_insert_ne.
    + intros j p Hj Hq. destruct (decide (j = i)) as [->|Hji].
      * rewrite list_lookup_insert_eq in Hq by (by eapply lookup_lt_Some). injection Hq as <-. done.
      * rewrite list_lookup_insert_ne in Hq by done. eapply hart_at_kept; [done|done|done|by apply (in_others _ _ Hi)].
  - assert (finished s ps) as Hf.
    { destruct (decide (i = 0%nat)) as [->|Hi0]; [|by eapply past_finished]. destruct Hi as [[(k' & Hk & Hk18 & _)|Hf] _]; [|done].
      rewrite Hp in Hk. injection Hk as <-. apply lookup_ge_None_1 in Hc. unfold hart_calls in Hc. rewrite decide_True in Hc by done. cbn in Hc. lia. }
    split.
    + right. destruct Hf as [H1 H2]. split; [done|]. destruct (decide (i = 0%nat)) as [->|Hi0].
      * left. apply list_lookup_insert_eq. by eapply lookup_lt_Some.
      * by rewrite list_lookup_insert_ne.
    + intros j p Hj Hq. destruct (decide (j = i)) as [->|Hji].
      * rewrite list_lookup_insert_eq in Hq by (by eapply lookup_lt_Some). injection Hq as <-. by left.
      * rewrite list_lookup_insert_ne in Hq by done. by apply (in_others _ _ Hi).
  - assert (finished s ps) as Hf.
    { destruct (decide (i = 0%nat)) as [->|Hi0]; [|by eapply past_finished]. destruct Hi as [[(k' & Hk & _)|Hf] _]; [congruence|done]. }
    split.
    + right. eapply (finished_kept s s' i); [done..| |done|done]. destruct (decide (i = 0%nat)) as [->|]; [by right|by left].
    + intros j p Hj Hq. destruct (decide (j = i)) as [->|Hji]; [rewrite Hp in Hq; injection Hq as <-; by left|].
      eapply hart_at_kept; [done|done|done|by apply (in_others _ _ Hi)].
Qed.

Lemma reached_inv s ps : relations.rtc bstep (reset m0 h0 hs) (s, ps) → inv s ps.
Proof using Hlay Himpl Hdev Hvec Hmem Hregs Htp.
  intros Hr. change (inv (s, ps).1 (s, ps).2). revert Hr. generalize (s, ps). intros c Hr.
  refine (relations.rtc_ind_r (λ c, inv c.1 c.2) (reset m0 h0 hs) inv_reset _ c Hr). intros c1 c2 _ Hst Hi. by eapply inv_step.
Qed.

Lemma boot_order_ok s ps i p :
  relations.rtc bstep (reset m0 h0 hs) (s, ps) → ps !! i = Some p →
  (p = InScheduler ∨ (i ≠ 0%nat ∧ p ≠ Spin) → initialised s) ∧
  (∀ k, p = Call k → hart_calls i !! k = None → initialised s ∧ ready s i).
Proof using Hlay Himpl Hdev Hvec Hmem Hregs Htp.
  intros Hr%reached_inv Hp. split.
  - intros H. assert (finished s ps) as [? _]; [|done]. destruct (decide (i = 0%nat)) as [->|Hi0].
    + destruct H as [->|[? _]]; [|done]. destruct Hr as [[(k & Hk & _)|Hf] _]; [congruence|done].
    + eapply past_finished; [done..|]. destruct H as [->|[_ ?]]; done.
  - intros k -> Hn. apply lookup_ge_None_1 in Hn. unfold hart_calls in Hn. destruct (decide (i = 0%nat)) as [->|Hi0].
    + destruct Hr as [[(k' & Hk & Hk18 & _)|[H1 [Hf|[Hf Hd]]]] _]; [|congruence|done].
      rewrite Hp in Hk. injection Hk as <-. cbn in Hn. lia.
    + split; [by eapply past_finished|]. destruct (in_others _ _ Hr i _ Hi0 Hp) as [|(h & H1 & H2 & H3)]; [done|].
      cbn in Hn. exists h. destruct (H3 k eq_refl) as [H4 H5]; [lia|]. split_and!; [done|done|apply H5; lia].
Qed.

(** Hart 0 can make its calls while the others wait. *)
Lemma boot_reaches k s s1 ps :
  (k ≤ 19)%nat → calls (drop k boot0') s = Ok () s1 → relations.rtc bstep (s, Call k :: ps) (s1, Call 19 :: ps).
Proof using.
  intros Hk. remember (19 - k)%nat as n eqn:En. revert k s Hk En. induction n as [|n IH]; intros k s Hk En E.
  - assert (k = 19%nat) as -> by lia. injection E as <-. apply relations.rtc_refl.
  - destruct (lookup_lt_is_Some_2 boot0' k) as [c Hc]; [cbn; lia|].
    assert (drop k boot0' = c :: drop (S k) boot0') as Ed by (by apply drop_S). rewrite Ed in E. cbn [calls foldr] in E.
    apply bind_Ok_inv in E as ([] & s' & E1 & E2). eapply relations.rtc_l; [|apply (IH (S k)); [lia|lia|exact E2]].
    by apply (step_call 0 k c s s').
Qed.
End order.

(** ** Claim *)

(** C14: no hart schedules before the kernel has booted. In every interleaving of
    the harts' calls from reset, a hart that is in the scheduler, or a hart
    other than 0 that stopped waiting, finds [started] set and the calls of
    hart 0 all done, with the result [booted] describes; and a hart about to
    enter the scheduler runs on the kernel's page table with the kernel's trap
    vector. *)
Theorem boots_before_scheduling impl dev kend etext trampoline kernelvec forkret m h hs s ps i p :
  kernel_layout etext trampoline kend → hart_impl impl → virtio_ok dev → 0 ≤ kernelvec < 2 ^ 64 →
  bytes_ok m → Forall regs_ok (h :: hs) → h_tp h = 0 →
  relations.rtc (bstep impl dev kend etext trampoline kernelvec forkret) (reset m h hs) (s, ps) → ps !! i = Some p →
  let init := initialised impl dev kend etext trampoline kernelvec forkret m h hs in
  (p = InScheduler ∨ (i ≠ 0%nat ∧ p ≠ Spin) → init s) ∧
  (∀ k, p = Call k → hart_calls impl dev kend etext trampoline kernelvec forkret i !! k = None →
     init s ∧ ready kernelvec s i).
Proof. intros. by apply (boot_order_ok impl dev kend etext trampoline kernelvec forkret m h hs) with (ps := ps). Qed.

(** Two harts: hart 0 has booted, the other still waits. *)
Lemma boots_before_scheduling_witness :
  ∃ s, relations.rtc (bstep (λ _, -1) demo_dev 0x80031234 0x80008000 0x80007000 0x80001200 0x80001400)
      (reset ∅ demo_hart [demo_hart]) (s, [Call 19; Spin]) ∧ ready 0x80001200 s 0.
Proof.
  assert (kernel_layout 0x80008000 0x80007000 0x80031234) as Hlay by (split; unfold KERNBASE, PHYSTOP, PGSIZE; split_and?; done || lia).
  assert (hart_impl (λ _, -1)) as Himpl by (intros r n _ Hn; apply Z.bits_m1; lia).
  assert (0 ≤ 0x80001200 < 2 ^ 64) as Hvec by lia.
  assert (bytes_ok ∅) as Hm by (intros a; unfold rd; rewrite lookup_empty; cbn; lia).
  assert (regs_ok demo_hart) as Hh by (intros r; cbn; case_decide; lia).
  destruct (main0_boots (λ _, -1) demo_dev 0x80031234 0x80008000 0x80007000 0x80001200 0x80001400 ∅ demo_hart [demo_hart]
    Hlay Himpl demo_dev_ok Hvec Hm Hh eq_refl) as (s & E & _).
  assert (relations.rtc (bstep (λ _, -1) demo_dev 0x80031234 0x80008000 0x80007000 0x80001200 0x80001400)
      (reset ∅ demo_hart [demo_hart]) (s, [Call 19; Spin])) as Hr by (apply boot_reaches; [lia|exact E]).
  exists s. split; [exact Hr|].
  refine (proj2 (proj2 (boots_before_scheduling (λ _, -1) demo_dev 0x80031234 0x80008000 0x80007000 0x80001200 0x80001400 ∅ demo_hart
    [demo_hart] s [Call 19; Spin] 0 (Call 19) Hlay Himpl demo_dev_ok Hvec Hm _ eq_refl Hr eq_refl) 19%nat eq_refl eq_refl)).
  apply Forall_cons_2; [exact Hh|]. apply Forall_cons_2; [exact Hh|apply Forall_nil_2].
Defined.
