(* ===== verification/ProcFork.v ===== *)
(** * kernel/proc.c: fork

    [kfork] composes [allocproc], [uvmcopy], the copy of the trap frame, of the
    open files and of the current directory.  The theorem describes the child
    it makes, or that it leaves the pool and the process table as they were. *)

From S2P Require Import Prelude Bytes Riscv Kstate CString Kalloc Vm VmProps VmCopy VmFork VmFree Sched Bio Log Printf Console Pipe Fs File Proc ProcMem.

#[local] Transparent setk.
Lemma upd_ftable_setk g m fl L s : upd_ftable g (setk m fl L s) = setk m fl L (upd_ftable g s).
Proof. done. Qed.
Lemma ftable_setk m fl L s : ftable (setk m fl L s) = ftable s.
Proof. done. Qed.
Lemma upd_itable_setk g m fl L s : upd_itable g (setk m fl L s) = setk m fl L (upd_itable g s).
Proof. done. Qed.
#[local] Opaque setk.
#[export] Hint Rewrite upd_ftable_setk ftable_setk upd_itable_setk : kst.

(** ** The open files *)

(** One more reference to an open file. *)
Definition dup_ref (F : list file) (o : option nat) : list file :=
  match o with Some f => alter (λ x, x <| upd_f_ref ::= λ r, r + 1 |>) f F | None => F end.
Definition open_ok (F : list file) (o : option nat) : Prop :=
  match o with Some f => ∃ x, F !! f = Some x ∧ 1 ≤ f_ref x | None => True end.
Definition withf (F : list file) (s : kstate) : kstate := s <| upd_ftable := F |>.

Lemma open_dup F o o' : open_ok F o → open_ok (dup_ref F o') o.
Proof.
  destruct o as [f|], o' as [f'|]; try done. intros (x & Hx & Hr). cbn. destruct (decide (f = f')) as [->|].
  - rewrite list_lookup_alter_eq, Hx. eexists. split; [done|]. cbn. lia.
  - rewrite list_lookup_alter_ne by done. by exists x.
Qed.

Lemma filedup_ok f F np q m fl L s :
  open_ok F (Some f) → LFtable ∉ L →
  filedup f (setk m fl L (foc np q (withf F s))) = Ok f (setk m fl L (foc np q (withf (dup_ref F (Some f)) s))).
Proof.
  intros (x & Hx & Hr) HL. unfold filedup, getfile, updfile.
  rewrite (bind_ok _ _ _ _ _ (acquire_setk LFtable m fl L _ HL)). krun. change (ftable (foc np q (withf F s))) with F. rewrite Hx. krun.
  rewrite (proj2 (Z.ltb_ge _ _)) by lia. krun.
  by rewrite (bind_ok _ _ _ _ _ (release_setk LFtable m fl L _)).
Qed.

(** The child's files while they are copied: the parent's below [fd]. *)
Definition ofile_upto (fd : nat) (O Q : list (option nat)) : Prop :=
  length Q = length O ∧ ∀ j, (j < length O)%nat → Q !! j = if decide (j < fd)%nat then O !! j else Some None.

Lemma dup_files_ok n fd i np p q Q F m fl L s :
  (i ≠ np) → procs s !! i = Some p → (np < length (procs s))%nat → LFtable ∉ L → (fd + n = length (pr_ofile p))%nat →
  ofile_upto fd (pr_ofile p) Q → (∀ o, o ∈ drop fd (pr_ofile p) → open_ok F o) →
  dup_files n fd i np (setk m fl L (foc np (q <| upd_pr_ofile := Q |>) (withf F s))) =
  Ok () (setk m fl L (foc np (q <| upd_pr_ofile := pr_ofile p |>) (withf (foldl dup_ref F (drop fd (pr_ofile p))) s))).
Proof.
  intros Hne Hp Hnp HL. revert fd Q F. induction n as [|n IH]; intros fd Q F Hn [Hlen HQ] Hop; cbn [dup_files].
  { rewrite drop_ge by lia. cbn [foldl]. assert (Q = pr_ofile p) as ->; [|done]. apply list_eq. intros j.
    destruct (decide (j < length (pr_ofile p))%nat); [by rewrite HQ, decide_True by lia|by rewrite !lookup_ge_None_2 by lia]. }
  rewrite (bind_ok _ _ _ _ _ (getproc_foc_ne np _ m fl L (withf F s) i p Hne Hp)).
  destruct (lookup_lt_is_Some_2 (pr_ofile p) fd ltac:(lia)) as [o Ho]. rewrite Ho.
  rewrite (drop_S _ _ _ Ho) in Hop |- *. cbn [foldl]. destruct o as [f|].
  - erewrite bind_ok2 by (apply filedup_ok; [apply Hop; by left|done]).
    rewrite (bind_ok _ _ _ _ _ (setproc_foc np _ m fl L (withf (dup_ref F (Some f)) s) Hnp _)).
    apply (IH (S fd) (<[fd := Some f]> Q)); [lia| |].
    + split; [by rewrite length_insert|]. intros j Hj. destruct (decide (j = fd)) as [->|Hjf].
      * rewrite list_lookup_insert_eq, decide_True by lia. done.
      * rewrite list_lookup_insert_ne, HQ by done. repeat case_decide; try done; lia.
    + intros o Hin. apply open_dup, Hop. by right.
  - krun. apply (IH (S fd) Q); [lia| |intros o Hin; apply Hop; by right]. split; [done|]. intros j Hj. rewrite HQ by done.
    destruct (decide (j = fd)) as [->|]; [by rewrite decide_False, decide_True by lia|]. repeat case_decide; try done; lia.
Qed.

(** ** The trap frame *)

Lemma loadn_shift n m m' a b :
  (∀ k, 0 ≤ k < Z.of_nat n → rd m' (b + k) = rd m (a + k)) → loadn n m' b = loadn n m a.
Proof.
  revert a b. induction n as [|n IH]; intros a b H; [done|]. cbn [loadn]. f_equal.
  - specialize (H 0 ltac:(lia)). by rewrite !Z.add_0_r in H.
  - f_equal. apply IH. intros k Hk. specialize (H (1 + k) ltac:(lia)). by rewrite !Z.add_assoc in H.
Qed.

Definition copy_tf (m : memory) (dst src : Z) : memory :=
  store64 (memmove m dst src TRAPFRAME_SIZE) (dst + TF_A 0) 0.

(** The child's registers are the parent's, but for a0. *)
Lemma copy_tf_ok m dst src :
  bytes_ok m → page_ok dst → page_ok src → src ≠ dst →
  bytes_ok (copy_tf m dst src) ∧ (∀ x, ¬ (dst ≤ x < dst + PGSIZE) → rd (copy_tf m dst src) x = rd m x) ∧
  ∀ k, 0 ≤ k < 36 → load64 (copy_tf m dst src) (dst + 8 * k) = if decide (k = 14) then 0 else load64 m (src + 8 * k).
Proof.
  intros Hm Hd Hs Hne. unfold copy_tf. assert (TF_A 0 = 112 ∧ TRAPFRAME_SIZE = 288) as [-> Esz] by done.
  pose proof (λ a, rd_memmove m dst src TRAPFRAME_SIZE a Hm ltac:(done)) as Hrd. rewrite Esz in *.
  pose proof (bytes_ok_memmove m dst src 288 Hm ltac:(done)) as Hb. revert Hrd Hb. generalize (memmove m dst src 288). intros m1 Hrd Hb.
  split_and!.
  - by apply bytes_ok_store64.
  - intros x Hx. unfold PGSIZE in *. rewrite rd_store64_out, Hrd by lia. destruct (_ && _) eqn:E; [|done]. zbool. lia.
  - intros k Hk. case_decide as E14; [subst k; by apply load64_store64_eq|]. rewrite load64_store64_ne by lia.
    apply (loadn_shift 8). intros j Hj. rewrite Hrd. rewrite (proj2 (Z.leb_le _ _)), (proj2 (Z.ltb_lt _ _)) by lia. cbn [andb]. f_equal. lia.
Qed.

(** A write to a page that is neither free nor a table. *)
Lemma write_page m fl l root pg m' :
  uvm_inv m fl l root → page_ok pg → pg ∉ l → not_table m root pg → bytes_ok m' →
  (∀ x, ¬ (pg ≤ x < pg + PGSIZE) → rd m' x = rd m x) → uvm_inv m' fl l root ∧ ∀ va, xlate m' root va = xlate m root va.
Proof.
  intros Hu Hp Hl Hn Hb Ho. pose proof (uv_vm _ _ _ _ Hu) as V.
  assert (tables_eq m m' root) as T by (eapply tables_eq_page; [apply V|done..]).
  assert (∀ va, xlate m' root va = xlate m root va) as X by (by apply xlate_frame). split; [|done].
  eapply uvm_inv_frame; [done| |done|intros; by eapply not_table_frame|intros; apply X].
  eapply vm_inv_frame; [done|done| |intros b p; apply V].
  eapply kmem_inv_mem; [apply V|done|]. intros p a Hpl Ha. apply Ho. pose proof (kmem_inv_page _ _ _ p (vi_kmem _ _ _ _ V) Hpl).
  destruct (page_ok_sep p pg); [done|done|by intros ->|lia|lia].
Qed.

(** ** The child's entry *)

Definition child_proc (i c : nat) (p q : proc) : proc :=
  q <| upd_pr_sz := pr_sz p |> <| upd_pr_ofile := pr_ofile p |> <| upd_pr_cwd := Some c |>
    <| upd_pr_name ::= λ n, arr_safestrcpy 16 n (pr_name p) |> <| upd_pr_traced := pr_traced p |>
    <| upd_pr_parent := Some i |> <| upd_pr_state := RUNNABLE |>.
(** One more reference to each open file and to the current directory. *)
Definition fork_refs (p : proc) (c : nat) (s : kstate) : kstate :=
  (withf (foldl dup_ref (ftable s) (pr_ofile p)) s) <| upd_itable ::= alter (λ x, x <| upd_i_ref ::= λ r, r + 1 |>) c |>.

Lemma withf_self s : withf (ftable s) s = s.
Proof. by destruct s. Qed.
Lemma idup_ok c np q m fl L s :
  LItable ∉ L → idup c (setk m fl L (foc np q s)) =
    Ok c (setk m fl L (foc np q (s <| upd_itable ::= alter (λ x, x <| upd_i_ref ::= λ r, r + 1 |>) c |>))).
Proof.
  intros HL. unfold idup, updi. rewrite (bind_ok _ _ _ _ _ (acquire_setk LItable m fl L _ HL)). krun.
  by rewrite (bind_ok _ _ _ _ _ (release_setk LItable m fl L _)).
Qed.

Lemma fork_copy_ok i np c p q m fl s :
  i ≠ np → procs s !! i = Some p → (np < length (procs s))%nat → pr_cwd p = Some c →
  length (pr_ofile p) = NOFILE → pr_ofile q = replicate NOFILE None → (∀ o, o ∈ pr_ofile p → open_ok (ftable s) o) →
  fork_copy i np p q (setk m fl [LProc np] (foc np q s)) =
  Ok (pr_pid q) (setk (copy_tf m (pr_trapframe q) (pr_trapframe p)) fl [] (foc np (child_proc i c p q) (fork_refs p c s))).
Proof.
  intros Hne Hp Hnp Hc Hlen Hof Hop. unfold fork_copy.
  assert (∀ l, l ≠ LProc np → l ∉ [LProc np]) as HL by (intros l Hl; apply not_elem_of_cons; split; [done|apply not_elem_of_nil]).
  rewrite (bind_ok _ _ _ _ _ (setproc_foc np q m fl _ s Hnp _)). krun. fold (copy_tf m (pr_trapframe q) (pr_trapframe p)).
  generalize (copy_tf m (pr_trapframe q) (pr_trapframe p)). intros m1.
  rewrite <- (withf_self s) at 1.
  assert (q <| upd_pr_sz := pr_sz p |> = (q <| upd_pr_sz := pr_sz p |>) <| upd_pr_ofile := replicate NOFILE None |>) as E0
    by (rewrite <- Hof; by destruct q).
  erewrite bind_ok. 2:{ rewrite E0. eapply (dup_files_ok NOFILE 0 i np p); [done|done|done|by apply HL|done| |by rewrite drop_0].
    split; [by rewrite length_replicate|]. intros j Hj. rewrite decide_False by lia. apply lookup_replicate_2. lia. }
  rewrite drop_0, Hc. cbn [deref]. krun.
  assert (np < length (procs (withf (foldl dup_ref (ftable s) (pr_ofile p)) s)))%nat as Hn1 by done.
  rewrite (bind_ok _ _ _ _ _ (idup_ok c np _ m1 fl _ _ (HL LItable ltac:(done)))). fold (fork_refs p c s).
  assert (np < length (procs (fork_refs p c s)))%nat as Hn2 by done. revert Hn2. generalize (fork_refs p c s). intros s2 Hn2.
  rewrite (bind_ok _ _ _ _ _ (setproc_foc np _ m1 fl _ s2 Hn2 _)), (bind_ok _ _ _ _ _ (setproc_foc np _ m1 fl _ s2 Hn2 _)).
  rewrite (bind_ok _ _ _ _ _ (setproc_foc np _ m1 fl _ s2 Hn2 _)), (bind_ok _ _ _ _ _ (getproc_foc np _ m1 fl _ s2 Hn2)).
  rewrite (bind_ok _ _ _ _ _ (release_setk (LProc np) m1 fl [] _)), (bind_ok _ _ _ _ _ (acquire_setk LWait m1 fl [] _ ltac:(apply not_elem_of_nil))).
  rewrite (bind_ok _ _ _ _ _ (setproc_foc np _ m1 fl _ s2 Hn2 _)), (bind_ok _ _ _ _ _ (release_setk LWait m1 fl [] _)).
  rewrite (bind_ok _ _ _ _ _ (acquire_setk (LProc np) m1 fl [] _ ltac:(apply not_elem_of_nil))).
  rewrite (bind_ok _ _ _ _ _ (setproc_foc np _ m1 fl _ s2 Hn2 _)), (bind_ok _ _ _ _ _ (release_setk (LProc np) m1 fl [] _)).
  done.
Qed.

(** ** kfork *)

(** The state in which process [i], running, may fork: its address space is
    well formed and its files are open, and the free entries of the process
    table are clear. *)
Record fork_ready (m : memory) (fl : Z) (l : list Z) (s : kstate) (i c : nat) (p : proc) : Prop := {
  fr_cur : curproc s = Some i;
  fr_p : procs s !! i = Some p;
  fr_state : pr_state p ≠ UNUSED;
  fr_len : length (procs s) = NPROC;
  fr_slots j q : procs s !! j = Some q → pr_state q = UNUSED →
    pr_pagetable q = 0 ∧ pr_sz q = 0 ∧ pr_ofile q = replicate NOFILE None;
  fr_space : uvm_inv m fl l (pr_pagetable p);
  fr_tf : own m (pr_pagetable p) (pr_trapframe p);
  fr_sz : 0 ≤ pr_sz p ≤ TRAPFRAME;
  fr_nfile : length (pr_ofile p) = NOFILE;
  fr_files o : o ∈ pr_ofile p → open_ok (ftable s) o;
  fr_cwd : pr_cwd p = Some c;
}.

(** The memory of a child [q] of [p]: a copy of its own of the parent's, and the
    parent's registers with 0 in a0. *)
Record forked (m : memory) (p : proc) (m' : memory) (l' : list Z) (q : proc) : Prop := {
  fk_uvm : uvm_inv m' (hd 0 l') l' (pr_pagetable q);
  fk_mem va : 0 ≤ va < pr_sz p → uread m' (pr_pagetable q) va = uread m (pr_pagetable p) va;
  fk_own va v : va_ok va → va < pr_sz p → xlate m' (pr_pagetable q) va = Some v → ¬ own m' (pr_pagetable p) (PTE2PA v);
  fk_tf : xlate m' (pr_pagetable q) TRAPFRAME = Some (mkpte (pr_trapframe q) (Z.lor PTE_R PTE_W));
  fk_regs k : 0 ≤ k < 36 →
    load64 m' (pr_trapframe q + 8 * k) = if decide (k = 14) then 0 else load64 m (pr_trapframe p + 8 * k);
}.

Lemma spared_uread m fl l m' lx old va :
  uvm_inv m fl l old → spared m m' lx → (∀ b, own m old b → b ∉ lx) → 0 ≤ va < MAXVA → uread m' old va = uread m old va.
Proof.
  intros Hu Hs Hn Hva.
  assert (∀ b x, own m old b → b ≤ x < b + PGSIZE → rd m' x = rd m x) as H.
  { intros b x Hb. apply Hs; [by apply (own_page _ _ _ _ _ Hu Hb)|by apply Hn]. }
  assert (tables_eq m m' old) as T by (intros q a x Hq Ha; apply H; left; by exists q).
  unfold uread, upa. rewrite (xlate_frame _ _ _ T). pose proof (va_ok_down va Hva) as Hd. pose proof (pgoff_range va).
  destruct (xlate m old (PGROUNDDOWN va)) as [v|] eqn:E; [|done]. cbn [fmap option_fmap option_map]. f_equal.
  apply (H (PTE2PA v)); [right; by exists (PGROUNDDOWN va), v|lia].
Qed.

(** What [allocproc] does to the parent. *)
Lemma new_mem_keeps m fl l m1 l1 trampoline old q :
  uvm_inv m fl l old → new_mem m l m1 l1 trampoline q → keeps m m1 l1 old (pr_pagetable q).
Proof.
  intros Hu N b Hb. destruct (own_page _ _ _ _ _ Hu Hb) as [Hp Hl]. split_and!.
  - intros x Hx. by apply (nm_out _ _ _ _ _ _ N b).
  - intros H. apply Hl, (nm_pool _ _ _ _ _ _ N). right. by left.
  - intros r Hr E. apply Hl, (nm_pool _ _ _ _ _ _ N). right. right. by exists r.
Qed.

(** The failure path of [kfork]: the child is freed, and the pool is what it
    was before [allocproc]. *)
Lemma fork_fail m l m1 l1 m2 l2 trampoline np q L s :
  new_mem m l m1 l1 trampoline q → page_ok trampoline → pr_sz q = 0 → uvm_inv m2 (hd 0 l2) l2 (pr_pagetable q) →
  (∀ va, va_ok va → xlate m2 (pr_pagetable q) va = xlate m1 (pr_pagetable q) va) → taken m1 l1 m2 l2 (pr_pagetable q) →
  (∀ b, page_ok b → b ∉ l1 → not_table m1 (pr_pagetable q) b → (b ∉ l2) ∧ not_table m2 (pr_pagetable q) b) →
  kmem_inv m (hd 0 l) l → LKmem ∉ LProc np :: L → (np < length (procs s))%nat →
  ∃ m' l', (freeproc np;; release (LProc np);; mret (-1)) (setk m2 (hd 0 l2) (LProc np :: L) (foc np q s)) =
      Ok (-1) (setk m' (hd 0 l') L (foc np (freed_proc q) s)) ∧ kmem_inv m' (hd 0 l') l' ∧
    (∀ b, b ∈ l' ↔ b ∈ l) ∧ spared m2 m' l.
Proof.
  intros N Ht Hsz U2 X2 [Ta Tb] Tc Hk HL Hnp. destruct N as [(Htf0 & Htl & Htl1) Hnt Hpt U1 X1 Hpool Hout].
  assert (page_ok (pr_trapframe q)) as Htp by (by eapply kmem_inv_page).
  destruct (Tc _ Htp Htl1 Hnt) as [Htl2 Hnt2].
  assert (∀ b, user_own m2 (pr_pagetable q) (pr_sz q) b ↔ ∃ r, path_ok r ∧ node m2 (pr_pagetable q) r = Some b) as Hown.
  { intros b. unfold user_own. rewrite Hsz. split; [|by left]. intros [?|(va & v & [Hva _] & Hlt & _)]; [done|lia]. }
  assert (proc_mem m2 (hd 0 l2) l2 q) as Pm.
  { split; [apply U2|done| |].
    - intros _. rewrite Hsz. split; [|done]. split; [apply U2|intros va v [Hva _]; lia|intros va va' v v' [Hva _]; lia|].
      intros va Hva _ H1 H2. rewrite X2, X1 by done. by rewrite !decide_False.
    - intros _ _ (r & Hr & E)%Hown. by apply (Hnt2 r). }
  destruct (freeproc_ok np q m2 (hd 0 l2) l2 (LProc np :: L) s Pm HL Hnp) as (m' & l' & E & Hk' & Hl' & S').
  assert (∀ b, b ∈ l' ↔ b ∈ l) as Hll.
  { intros b. rewrite Hl'. unfold proc_own. rewrite Hown. split.
    - intros Hb. destruct (decide (b ∈ l)) as [|Hbl]; [done|]. exfalso. rewrite Hpool in Hbl.
      assert (page_ok b) as Hpb.
      { destruct Hb as [Hb|[[_ ->]|[_ (r & Hr & E1)]]]; [by eapply kmem_inv_page; [apply U2|]|done|by eapply pw_page; [apply U2|..]]. }
      destruct (Tc b Hpb) as [H1 H2]; [tauto|intros r Hr E1; apply Hbl; right; right; by exists r|].
      destruct Hb as [?|[[_ ->]|[_ (r & Hr & E1)]]]; [done|tauto|by apply (H2 r)].
    - intros [->|[Hb|(r & Hr & E1)]]%Hpool; [tauto| |right; right; split; [done|]; exists r; eauto].
      destruct (Tb b Hb) as [?|?]; [by left|tauto]. }
  exists m', l'. rewrite (bind_ok _ _ _ _ _ E), (bind_ok _ _ _ _ _ (release_setk (LProc np) m' (hd 0 l') L _)).
  split_and!; [done|done|done|]. intros b x Hb Hbl Hx. apply (S' b); [done|by rewrite Hll|done].
Qed.

(** The success path: the child's registers go to its own trap frame. *)
Lemma fork_success m fl l m1 l1 m2 l2 trampoline old p q :
  old = pr_pagetable p → uvm_inv m fl l old → new_mem m l m1 l1 trampoline q → own m old (pr_trapframe p) → 0 ≤ pr_sz p ≤ TRAPFRAME →
  uvm_inv m2 (hd 0 l2) l2 (pr_pagetable q) → keeps m1 m2 l2 old (pr_pagetable q) →
  (∀ va v, va_ok va → va < pr_sz p → xlate m2 (pr_pagetable q) va = Some v → ¬ own m2 old (PTE2PA v)) →
  copied m1 l1 m2 old (pr_pagetable q) 0 (pr_sz p) →
  (∀ va, 0 ≤ va < pr_sz p → uread m2 (pr_pagetable q) va = uread m1 old va) →
  let m3 := copy_tf m2 (pr_trapframe q) (pr_trapframe p) in
  forked m p m3 l2 q ∧ ∀ va, 0 ≤ va < MAXVA → uread m3 old va = uread m old va.
Proof.
  intros -> Hu N Htf Hsz U2 K2 Hno C Hrd. destruct va_ok_top as [_ V2]. assert (TRAPFRAME < MAXVA) as HM by done.
  pose proof (new_mem_keeps _ _ _ _ _ _ _ _ Hu N) as K1. pose proof (vm_keeps_trans _ _ _ _ _ _ _ K1 K2) as K.
  destruct (own_page _ _ _ _ _ Hu Htf) as [Hps Hsl]. destruct (nm_tf _ _ _ _ _ _ N) as (Htf0 & Htl & _).
  assert (xlate m2 (pr_pagetable q) TRAPFRAME = Some (mkpte (pr_trapframe q) (Z.lor PTE_R PTE_W))) as Xt.
  { specialize (C _ V2). rewrite decide_False in C by lia. rewrite C, (nm_xlate _ _ _ _ _ _ N) by done. by rewrite decide_False, decide_True. }
  assert (page_ok (pr_trapframe q)) as Hpq by (eapply kmem_inv_page; [apply Hu|done]).
  assert (PTE2PA (mkpte (pr_trapframe q) (Z.lor PTE_R PTE_W)) = pr_trapframe q) as Ept by (apply mkpte_pa; [by apply page_ok_pa|done|apply Hpq]).
  destruct (uv_leaf _ _ _ _ U2 _ _ V2 Xt) as (_ & Htl2 & Hnt2). rewrite Ept in Htl2, Hnt2.
  assert (pr_trapframe p ≠ pr_trapframe q) as Hne by congruence.
  destruct (copy_tf_ok m2 (pr_trapframe q) (pr_trapframe p) (ki_bytes _ _ _ (vi_kmem _ _ _ _ (uv_vm _ _ _ _ U2))) Hpq Hps Hne) as (B3 & O3 & R3).
  cbv zeta. revert B3 O3 R3. generalize (copy_tf m2 (pr_trapframe q) (pr_trapframe p)). intros m3 B3 O3 R3.
  destruct (write_page m2 (hd 0 l2) l2 (pr_pagetable q) (pr_trapframe q) m3) as [U3 X3]; [done..|].
  assert (keeps m2 m3 l2 (pr_pagetable p) (pr_pagetable q)) as K3.
  { intros b Hb%(keeps_own _ _ _ _ _ K). destruct (own_page _ _ _ _ _ Hu Hb) as [Hpb Hlb]. destruct (K b Hb) as (_ & Hl2 & Hn2).
    assert (b ≠ pr_trapframe q) as Hbq by congruence. split_and!; [|done|].
    - intros x Hx. apply O3. destruct (page_ok_sep b (pr_trapframe q)); [done..|lia|lia].
    - eapply (not_table_frame m2); [|done]. eapply (tables_eq_page m2 m3 _ (pr_trapframe q)); [apply U2|done..]. }
  pose proof (vm_keeps_trans _ _ _ _ _ _ _ K K3) as K'. split; [split|].
  - done.
  - intros va Hva. rewrite <- (keeps_uread _ _ _ _ _ K1 fl l va Hu) by lia. rewrite <- Hrd by done. unfold uread, upa. rewrite X3.
    pose proof (va_ok_down va ltac:(lia)) as Hd. pose proof (pgoff_range va).
    destruct (xlate m2 (pr_pagetable q) (PGROUNDDOWN va)) as [v|] eqn:E; [|done]. cbn [fmap option_fmap option_map]. f_equal. apply O3.
    destruct (uv_leaf _ _ _ _ U2 _ _ Hd E) as (Hpv & _ & _). destruct (page_ok_sep (PTE2PA v) (pr_trapframe q)); [done|done| |lia|lia].
    intros Ev. assert (PGROUNDDOWN va = TRAPFRAME) as Et by (eapply (uv_inj _ _ _ _ U2); [done|done|done|done|by rewrite Ev, Ept]).
    unfold pgoff in *. lia.
  - intros va v Hva Hlt. rewrite X3, (keeps_own _ _ _ _ _ K3). by apply Hno.
  - by rewrite X3.
  - intros k Hk. rewrite R3 by done. case_decide; [done|]. apply load64_ext. intros x Hx. apply (K (pr_trapframe p)); [done|]. unfold PGSIZE. lia.
  - intros va Hva. by eapply keeps_uread.
Qed.

Lemma forked_child m p m' l' i c q : forked m p m' l' q → forked m p m' l' (child_proc i c p q).
Proof. intros [F1 F2 F3 F4 F5]. by split. Qed.


(** A pool of pages linked in order. *)
Fixpoint linked (l : list Z) : memory := match l with [] => ∅ | a :: l => store64 (linked l) a (hd 0 l) end.
Lemma linked_out l x : (∀ a, a ∈ l → ¬ (a ≤ x < a + 8)) → rd (linked l) x = 0.
Proof.
  induction l as [|a l IH]; intros H; [done|]. cbn [linked]. specialize (H a ltac:(left)) as Ha.
  rewrite rd_store64_out by lia. apply IH. intros b Hb. apply H. by right.
Qed.
Lemma linked_kmem l : NoDup l → Forall page_ok l → kmem_inv (linked l) (hd 0 l) l.
Proof.
  intros Hn Hp. split; [|done|done|].
  - revert Hn Hp. induction l as [|a l IH]; intros [Hal Hn]%NoDup_cons [Ha Hp]%Forall_cons || intros Hn Hp; [constructor|].
    cbn [linked hd]. constructor. assert (0 ≤ hd 0 l < 2 ^ 64) as Hh.
    { destruct l as [|b l]; [done|]. apply Forall_cons in Hp as [[_ ?] _]. unfold PHYSTOP, KERNBASE in *. cbn. lia. }
    rewrite load64_store64_eq by done. eapply flist_ext; [by apply IH|]. intros b Hb.
    assert (page_ok b) by (by eapply Forall_forall in Hp). apply load64_store64_ne.
    destruct (page_ok_sep b a); [done|done|by intros ->|unfold PGSIZE in *; lia|unfold PGSIZE in *; lia].
  - clear. induction l as [|a l IH]; cbn [linked]; [|by apply bytes_ok_store64]. intros x. unfold rd. rewrite lookup_empty. cbn. lia.
Qed.

(** A process with its trap frame mapped, and a pool of eight pages. *)
Definition fork_pool : list Z := (λ k, 0x87ff1000 + 4096 * k) <$> seqZ 0 8.
Definition fork_parent : proc :=
  proc0 <| upd_pr_state := RUNNING |> <| upd_pr_pagetable := demo_root |> <| upd_pr_trapframe := 0x87ffa000 |> <| upd_pr_cwd := Some 0%nat |>.
Definition fork_state : kstate := (foc 0 fork_parent kstate0) <| upd_curproc := Some 0%nat |>.

Lemma fork_demo :
  ∃ m l, mappages demo_root TRAPFRAME PGSIZE 0x87ffa000 (Z.lor PTE_R PTE_W) (setk (linked fork_pool) (hd 0 fork_pool) [] fork_state) =
      Ok 0 (setk m (hd 0 l) [] fork_state) ∧ fork_ready m (hd 0 l) l fork_state 0 0 fork_parent ∧ 0x87ffb000 ∉ l.
Proof.
  assert (Forall page_ok fork_pool) as Hp.
  { apply Forall_forall. intros b (k & -> & Hk%elem_of_seqZ)%list_elem_of_fmap. apply demo_page_ok; [unfold PGSIZE; zlia|lia]. }
  assert (∀ b, 0x87ff9000 ≤ b ∨ b < 0x87ff1000 → b ∉ fork_pool) as Hout.
  { intros b Hb (k & -> & Hk%elem_of_seqZ)%list_elem_of_fmap. lia. }
  assert (∀ x, demo_root ≤ x < demo_root + PGSIZE → rd (linked fork_pool) x = 0) as Hz.
  { intros x Hx. apply linked_out. intros a (k & -> & Hk%elem_of_seqZ)%list_elem_of_fmap. unfold demo_root, PGSIZE in Hx. lia. }
  destruct (vm_inv_empty (linked fork_pool) (hd 0 fork_pool) fork_pool demo_root) as [U X];
    [apply linked_kmem; [by apply (NoDup_fmap_2_strong _); [intros ????; lia|apply NoDup_seqZ]|done]|by apply demo_page_ok|apply Hout; unfold demo_root; lia|done|].
  destruct (map_fresh demo_root TRAPFRAME 0x87ffa000 (Z.lor PTE_R PTE_W) (linked fork_pool) (hd 0 fork_pool) fork_pool [] fork_state)
    as (r & m & l & j & E & I & T & M & _ & D); [done|apply not_elem_of_nil|by apply va_ok_top|by apply X| |done|].
  { split; [by apply demo_page_ok|apply Hout; lia|apply zero_not_table; [done|unfold demo_root; lia]|intros va v _; by rewrite X]. }
  assert (match mappages demo_root TRAPFRAME PGSIZE 0x87ffa000 (Z.lor PTE_R PTE_W) (setk (linked fork_pool) (hd 0 fork_pool) [] fork_state) with
    Ok r _ => r =? 0 | _ => false end = true) as Hr by (vm_compute; reflexivity).
  rewrite E in Hr. apply Z.eqb_eq in Hr as ->. exists m, l. split; [exact E|]. clear E.
  assert (j = 1) as -> by (destruct D as [[_ ->]|[? _]]; [done|lia]).
  split; [|eapply not_in_suffix; [apply T|apply Hout; lia]]. split; try done.
  - intros k q Hq Hs. change (procs fork_state) with (<[0%nat := fork_parent]> (replicate NPROC proc0)) in Hq.
    apply list_lookup_insert_Some in Hq as [(_ & <- & _)|(_ & Hq)]; [done|]. apply lookup_replicate in Hq as [-> _]. done.
  - right. exists TRAPFRAME, (mkpte 0x87ffa000 (Z.lor PTE_R PTE_W)). split; [by apply va_ok_top|]. split; [|by vm_compute].
    rewrite M, decide_True, Z.sub_diag, Z.add_0_r by (apply va_ok_top || (unfold PGSIZE; lia)). done.
  - intros o Ho. assert (o = None) as -> by (by apply elem_of_replicate in Ho as [-> _]). done.
Qed.

Definition returns (r : Z) (o : res (option chan) kstate Z) : bool := match o with Ok r' _ => r' =? r | _ => false end.
Lemma fork_demo_returns :
  returns 1 ((mappages demo_root TRAPFRAME PGSIZE 0x87ffa000 (Z.lor PTE_R PTE_W) ≫= λ _, kfork 0x87ffb000 0x80001000)
    (setk (linked fork_pool) (hd 0 fork_pool) [] fork_state)) = true.
Proof. vm_compute. reflexivity. Qed.

