(* ===== verification/ProcWait.v ===== *)
(** * kernel/proc.c: wait

    [kwait] looks through the process table under [wait_lock] for a child that
    has exited.  The theorem gives its four outcomes: a child is reaped, there
    is no child, the caller was killed, or the caller goes to sleep. *)

From S2P Require Import Prelude Bytes Riscv Kstate CString Kalloc Vm VmProps VmCopy VmFork VmFree Sched Bio Log Printf Console Pipe Fs File Proc ProcMem ProcFork.

(** ** A process's pages when other pages are written *)

Section frame.
Context (m m1 : memory) (q : proc) (Hs : ∀ b x, proc_own m q b → b ≤ x < b + PGSIZE → rd m1 x = rd m x).
Let pt := pr_pagetable q.

Lemma frame_tables : pt ≠ 0 → tables_eq m m1 pt.
Proof using Hs. intros Hpt r a x Hr Ha Hx. apply (Hs a); [|done]. right. split; [done|]. left. by exists r. Qed.
Lemma frame_own b : proc_own m1 q b ↔ proc_own m q b.
Proof using Hs.
  unfold proc_own. fold pt. destruct (decide (pt = 0)) as [E|Hne]; [tauto|]. pose proof (frame_tables Hne) as T.
  assert (user_own m1 pt (pr_sz q) b ↔ user_own m pt (pr_sz q) b) as ->; [|done].
  unfold user_own. setoid_rewrite (xlate_frame m m1 pt T).
  split; (intros [(r & Hr & En)|H]; [left; exists r|by right]); (split; [done|]); rewrite <- En; [symmetry|]; by apply node_frame.
Qed.
Lemma frame_proc_mem fl l : proc_mem m fl l q → kmem_inv m1 fl l → proc_mem m1 fl l q.
Proof using Hs.
  intros [_ Htf Hsp Hap] Hk. split; [done|done| |].
  - intros Hpt. destruct (Hsp Hpt) as [[Hv Hlf Hinj Htop] Hz]. split; [|done]. pose proof (frame_tables Hpt) as T.
    assert (∀ va, xlate m1 (pr_pagetable q) va = xlate m (pr_pagetable q) va) as X by (by apply xlate_frame). split.
    + eapply vm_inv_frame; [done|done|done|intros b r; apply Hv].
    + intros va v Hva Hlt. rewrite X. intros E. destruct (Hlf va v Hva Hlt E) as (? & ? & ?). split_and!; [done|done|by eapply not_table_frame].
    + intros va va' v v' H1 H2 H3 H4. rewrite !X. by apply Hinj.
    + intros va Hva. rewrite X. by apply Htop.
  - intros H1 H2 H. apply (Hap H1 H2). pose proof (frame_own (pr_trapframe q)) as F. unfold proc_own in F. fold pt in F, H2 |- *.
    destruct H as [(r & Hr & En)|H]; [left; exists r; split; [done|]; rewrite <- En; symmetry; apply node_frame; [by apply frame_tables|done]|right].
    destruct H as (va & v & Hva & Hlt & E & Hb). exists va, v. rewrite <- (xlate_frame m m1 pt (frame_tables H2)). done.
Qed.
End frame.

(** ** Giving the child's status to the caller *)

(** A user address for four bytes: none, or writable. *)
Definition dest_ok (m : memory) (root a : Z) : Prop := a = 0 ∨ (0 ≤ a ∧ a + 4 ≤ MAXVA ∧ covered m root a 4 true).
Definition stored4 (m m' : memory) (root a v : Z) : Prop :=
  ∀ va, 0 ≤ va < MAXVA → uread m' root va =
    if decide (a ≠ 0 ∧ a ≤ va < a + 4) then Some (u8 (le_bytes 4 v !!! Z.to_nat (va - a))) else uread m root va.

Lemma length_le_bytes n v : length (le_bytes n v) = n.
Proof. unfold le_bytes. by rewrite length_stl, length_replicate. Qed.

Lemma copyout4 root a v m fl l L s :
  uvm_inv m fl l root → dest_ok m root a →
  ∃ m', (if a =? 0 then mret 0 else copyout root a (le_bytes 4 v)) (setk m fl L s) = Ok 0 (setk m' fl L s) ∧
    uvm_inv m' fl l root ∧ (∀ va, xlate m' root va = xlate m root va) ∧ stored4 m m' root a v ∧ outside_kept m m' root.
Proof.
  intros Hu D. destruct (a =? 0) eqn:E; zbool.
  { exists m. split_and!; [done|done|done| |done]. intros va Hva. rewrite decide_False; [done|]. intros [? _]. done. }
  destruct D as [?|(Ha & Hb & Hc)]; [done|]. pose proof (length_le_bytes 4 v) as Hlen. unfold copyout. rewrite Hlen.
  change (Z.of_nat 4) with 4.
  destruct (copyout_loop_ok (copy_fuel 4) root a (le_bytes 4 v) m fl l L s) as (m' & H1 & H2 & H3 & H4 & H5);
    rewrite ?Hlen; [done|done|lia|done|pose proof (pgoff_range a); unfold copy_fuel, PGSIZE in *; cbn; lia|].
  exists m'. split_and!; [done|done|done| |done]. intros va Hva. rewrite H4, Hlen by done. change (Z.of_nat 4) with 4.
  by destruct (decide (a ≤ va < a + 4)), (decide (a ≠ 0 ∧ a ≤ va < a + 4)); try tauto.
Qed.

(** ** Reaping a child *)

(** The caller's address space and the child's pages have nothing in common. *)
Record reapable (m : memory) (fl : Z) (l : list Z) (root : Z) (q : proc) : Prop := {
  rp_child : proc_mem m fl l q;
  rp_root : uvm_inv m fl l root;
  rp_apart b : own m root b → ¬ proc_own m q b;
}.

Lemma proc_own_page m fl l q b : proc_mem m fl l q → proc_own m q b → page_ok b.
Proof.
  intros [_ Htf Hsp _] [[H ->]|[H Hb]]; [by apply Htf|]. destruct (Hsp H) as [Hu _]. by destruct (user_own_page _ _ _ _ _ _ Hu Hb).
Qed.

(** A write to the caller's memory leaves the child as it is. *)
Lemma reapable_write m fl l root q m' :
  reapable m fl l root q → uvm_inv m' fl l root → (∀ va, xlate m' root va = xlate m root va) → outside_kept m m' root →
  reapable m' fl l root q ∧ ∀ b, proc_own m' q b ↔ proc_own m q b.
Proof.
  intros [Hc Hr Ha] Hr' X O.
  assert (tables_eq m m' root) as T.
  { intros r a x Hrr Ea Hx. apply (O a); [by eapply pw_page; [apply Hr|..]| |done]. intros va v Hva E <-.
    destruct (uv_leaf _ _ _ _ Hr va v Hva E) as (_ & _ & Hn). by apply (Hn r). }
  assert (∀ b x, proc_own m q b → b ≤ x < b + PGSIZE → rd m' x = rd m x) as Hs.
  { intros b x Hb. apply O; [by eapply proc_own_page|]. intros va v Hva E <-. apply (Ha (PTE2PA v)); [right; by exists va, v|done]. }
  split; [|by apply frame_own]. split; [eapply frame_proc_mem; [done..|apply Hr']|done|].
  intros b Hb. rewrite (frame_own m m' q Hs). apply Ha.
  destruct Hb as [(r & Hrr & E)|(va & v & Hva & E & Hb)]; [left; exists r; split; [done|]; rewrite <- E; symmetry; by apply node_frame|].
  right. exists va, v. by rewrite <- X.
Qed.

Definition reaped (m : memory) (l : list Z) (root addr count : Z) (z : nat) (q : proc) (s : kstate) (m' : memory) (l' : list Z) (s' : kstate) : Prop :=
  s' = foc z (freed_proc q) s ∧ kmem_inv m' (hd 0 l') l' ∧ (∀ b, b ∈ l' ↔ b ∈ l ∨ proc_own m q b) ∧
  ∃ m1, stored4 m m1 root addr (pr_xstate q) ∧ stored4 m1 m' root count (pr_syscall_count q).

Lemma reap_ok i z p q addr count m fl l s :
  procs s !! i = Some p → procs s !! z = Some q → pr_state q = ZOMBIE → reapable m fl l (pr_pagetable p) q →
  dest_ok m (pr_pagetable p) addr → dest_ok m (pr_pagetable p) count →
  ∃ m' l' s', reap i z addr count (setk m fl [LWait] s) = Ok (Some (pr_pid q)) (setk m' (hd 0 l') [] s') ∧
    reaped m l (pr_pagetable p) addr count z q s m' l' s'.
Proof.
  intros Hp Hq Hz R Da Dc. unfold reap, getproc. set (root := pr_pagetable p) in *.
  assert (LProc z ∉ [LWait]) as HL by (apply not_elem_of_cons; split; [done|apply not_elem_of_nil]).
  rewrite (bind_ok _ _ _ _ _ (acquire_setk (LProc z) m fl [LWait] s HL)). krun. rewrite Hq. krun. rewrite bool_decide_true by done. krun. rewrite Hp. krun.
  destruct (copyout4 root addr (pr_xstate q) m fl l [LProc z; LWait] s (rp_root _ _ _ _ _ R) Da) as (m1 & E1 & U1 & X1 & S1 & O1).
  rewrite (bind_ok _ _ _ _ _ E1). change (0 <? 0) with false. cbn [orb].
  destruct (reapable_write _ _ _ _ _ _ R U1 X1 O1) as [R1 P1].
  assert (dest_ok m1 root count) as Dc1.
  { destruct Dc as [?|(H1 & H2 & H3)]; [by left|right]. split_and!; [done|done|]. intros va Hva. destruct (H3 va Hva) as (v & H). exists v. by rewrite X1. }
  destruct (copyout4 root count (pr_syscall_count q) m1 fl l [LProc z; LWait] s U1 Dc1) as (m2 & E2 & U2 & X2 & S2 & O2).
  rewrite (bind_ok _ _ _ _ _ E2). change (0 <? 0) with false. cbv iota. destruct (reapable_write _ _ _ _ _ _ R1 U2 X2 O2) as [R2 P2].
  assert (setk m2 fl [LProc z; LWait] s = setk m2 fl [LProc z; LWait] (foc z q s)) as -> by (by rewrite foc_self).
  destruct (freeproc_ok z q m2 fl l [LProc z; LWait] s (rp_child _ _ _ _ _ R2)) as (m3 & l3 & E3 & Hk & Hl & S3);
    [rewrite !not_elem_of_cons; split_and!; [done|done|apply not_elem_of_nil]|by eapply lookup_lt_Some|].
  rewrite (bind_ok _ _ _ _ _ E3), (bind_ok _ _ _ _ _ (release_setk (LProc z) m3 (hd 0 l3) [LWait] _)), (bind_ok _ _ _ _ _ (release_setk LWait m3 (hd 0 l3) [] _)).
  exists m3, l3, (foc z (freed_proc q) s). split; [done|]. split_and!; [done|done|intros b; by rewrite Hl, P2, P1|].
  exists m1. split; [done|]. intros va Hva. rewrite <- S2 by done. eapply spared_uread; [exact U2|exact S3| |done].
  intros b Hb [H|H]%Hl; [by destruct (own_page _ _ _ _ _ U2 Hb)|by apply (rp_apart _ _ _ _ _ R2 b)].
Qed.

(** ** The scan of the table *)

Definition child_of (i : nat) (q : proc) : bool := bool_decide (pr_parent q = Some i).

(** Children that have not exited are passed over. *)
Lemma reap_alive i z q addr count m fl s :
  procs s !! z = Some q → pr_state q ≠ ZOMBIE → reap i z addr count (setk m fl [LWait] s) = Ok None (setk m fl [LWait] s).
Proof.
  intros Hq Hz. unfold reap, getproc. assert (LProc z ∉ [LWait]) as HL by (apply not_elem_of_cons; split; [done|apply not_elem_of_nil]).
  rewrite (bind_ok _ _ _ _ _ (acquire_setk (LProc z) m fl [LWait] s HL)). krun. rewrite Hq. krun. rewrite bool_decide_false by done.
  by rewrite (bind_ok _ _ _ _ _ (release_setk (LProc z) m fl [LWait] s)).
Qed.

Lemma wait_scan_ok n pp i p addr count hk m fl l s :
  procs s !! i = Some p → length (procs s) = (pp + n)%nat → dest_ok m (pr_pagetable p) addr → dest_ok m (pr_pagetable p) count →
  (∀ z q, procs s !! z = Some q → pr_parent q = Some i → pr_state q = ZOMBIE → reapable m fl l (pr_pagetable p) q) →
  ((∀ z q, (pp ≤ z)%nat → procs s !! z = Some q → pr_parent q = Some i → pr_state q ≠ ZOMBIE) ∧
    wait_scan n pp i addr count hk (setk m fl [LWait] s) =
      Ok (hk || existsb (child_of i) (drop pp (procs s)), None) (setk m fl [LWait] s)) ∨
  (∃ z q m' l' s', procs s !! z = Some q ∧ pr_parent q = Some i ∧ pr_state q = ZOMBIE ∧
     wait_scan n pp i addr count hk (setk m fl [LWait] s) = Ok (true, Some (pr_pid q)) (setk m' (hd 0 l') [] s') ∧
     reaped m l (pr_pagetable p) addr count z q s m' l' s').
Proof.
  intros Hp Hlen Da Dc Hr. revert pp hk Hlen. induction n as [|n IH]; intros pp hk Hlen; cbn [wait_scan].
  { left. rewrite drop_ge by lia. cbn [existsb]. rewrite orb_false_r. split; [|done]. intros z q Hz Hq. apply lookup_lt_Some in Hq. lia. }
  destruct (lookup_lt_is_Some_2 (procs s) pp ltac:(lia)) as [q Hq].
  match goal with |- context [(getproc pp ≫= ?f) ?st] => assert ((getproc pp ≫= f) st = f q st) as -> end.
  { unfold getproc. krun. by rewrite Hq. }
  rewrite (drop_S _ _ _ Hq). cbn [existsb]. unfold child_of at 1. case_bool_decide as Hpar.
  - destruct (decide (pr_state q = ZOMBIE)) as [Hz|Hz].
    + right. destruct (reap_ok i pp p q addr count m fl l s Hp Hq Hz (Hr pp q Hq Hpar Hz) Da Dc) as (m' & l' & s' & E & R).
      exists pp, q, m', l', s'. rewrite (bind_ok _ _ _ _ _ E). done.
    + rewrite (bind_ok _ _ _ _ _ (reap_alive i pp q addr count m fl s Hq Hz)). cbn [orb]. rewrite orb_true_r.
      destruct (IH (S pp) true ltac:(lia)) as [[H1 H2]|H]; [left|right; exact H]. split; [|exact H2].
      intros z q' Hzz Hq' Hp'. destruct (decide (z = pp)) as [->|]; [congruence|]. apply (H1 z); [lia|done|done].
  - cbn [orb]. destruct (IH (S pp) hk ltac:(lia)) as [[H1 H2]|H]; [left|right; exact H]. split; [|exact H2].
    intros z q' Hzz Hq' Hp'. destruct (decide (z = pp)) as [->|]; [congruence|]. apply (H1 z); [lia|done|done].
Qed.

(** ** Sleeping and waiting *)

Lemma bind_sleep {A B} (x : K A) (f : A → K B) s c s' k : x s = Sleep c s' k → ∃ k', (x ≫= f) s = Sleep c s' k'.
Proof. intros H. unfold mbind, M_bind. rewrite H. by eexists. Qed.

(** [sleep] holds the process's lock from before it drops the other lock until
    the CPU is given up, so no wake-up is lost. *)
Lemma sleep_sleeps ch lk i p m fl s :
  curproc s = Some i → procs s !! i = Some p → lk ≠ LProc i →
  ∃ k, sleep ch lk (setk m fl [lk] s) =
    Sleep (Some ch) (setk m fl [LProc i] (foc i (p <| upd_pr_chan := Some ch |> <| upd_pr_state := SLEEPING |>) s)) k.
Proof.
  intros Hc Hp Hlk. assert (i < length (procs s))%nat as Hi by (by eapply lookup_lt_Some).
  unfold sleep, myproc. krun. rewrite Hc. krun.
  rewrite (bind_ok _ _ _ _ _ (acquire_setk (LProc i) m fl [lk] s ltac:(apply not_elem_of_cons; split; [done|apply not_elem_of_nil]))).
  assert (release lk (setk m fl [LProc i; lk] s) = Ok () (setk m fl [LProc i] (foc i p s))) as E.
  { rewrite foc_self by done. unfold release. rewrite locks_setk, decide_True by (right; left). rewrite upd_locks_setk. cbn [drop_lock].
    by rewrite decide_False, decide_True. }
  rewrite (bind_ok _ _ _ _ _ E), (bind_ok _ _ _ _ _ (setproc_foc i p m fl _ s Hi _)), (bind_ok _ _ _ _ _ (setproc_foc i _ m fl _ s Hi _)).
  set (p2 := p <| upd_pr_chan := Some ch |> <| upd_pr_state := SLEEPING |>).
  eapply bind_sleep. unfold sched, myproc. krun. change (curproc (foc i p2 s)) with (curproc s). rewrite Hc. krun.
  rewrite (bind_ok _ _ _ _ _ (getproc_foc i p2 m fl _ s Hi)). krun. rewrite bool_decide_true by left. done.
Qed.

Lemma killed_ok i p m fl L s : procs s !! i = Some p → LProc i ∉ L → killed i (setk m fl L s) = Ok (pr_killed p) (setk m fl L s).
Proof.
  intros Hp HL. unfold killed, getproc. rewrite (bind_ok _ _ _ _ _ (acquire_setk (LProc i) m fl L s HL)). krun. rewrite Hp. krun.
  by rewrite (bind_ok _ _ _ _ _ (release_setk (LProc i) m fl L s)).
Qed.

(** The outcomes of a wait. *)
Definition waited (i : nat) (p : proc) (addr : Z) (m : memory) (fl : Z) (l : list Z) (s : kstate)
    (o : res (option chan) kstate Z) : Prop :=
  (∃ z q m' l', procs s !! z = Some q ∧ pr_parent q = Some i ∧ pr_state q = ZOMBIE ∧
     o = Ok (pr_pid q) (setk m' (hd 0 l') [] (foc z (freed_proc q) s)) ∧ kmem_inv m' (hd 0 l') l' ∧
     (∀ b, b ∈ l' ↔ b ∈ l ∨ proc_own m q b) ∧ stored4 m m' (pr_pagetable p) addr (pr_xstate q)) ∨
  ((∀ z q, procs s !! z = Some q → pr_parent q = Some i → pr_state q ≠ ZOMBIE) ∧
    if existsb (child_of i) (procs s) && (pr_killed p =? 0) then
      ∃ k, o = Sleep (Some (ChProc i)) (setk m fl [LProc i]
                 (foc i (p <| upd_pr_chan := Some (ChProc i) |> <| upd_pr_state := SLEEPING |>) s)) k
    else o = Ok (-1) (setk m fl [] s)).

(** After the scan. *)
Definition after_scan (n i : nat) (addr : Z) (r : bool * option Z) : K Z :=
  match r.2 with
  | Some v => mret v
  | None =>
      k ← (if negb r.1 then mret true else k ← killed i; mret (nz k));
      if (k : bool) then release LWait;; mret (-1)
      else sleep (ChProc i) LWait;; wait_loop n i addr 0
  end.
Lemma after_scan_none n i p addr kids m fl s :
  curproc s = Some i → procs s !! i = Some p →
  if kids && (pr_killed p =? 0) then
    ∃ k, after_scan n i addr (kids, None) (setk m fl [LWait] s) = Sleep (Some (ChProc i)) (setk m fl [LProc i]
               (foc i (p <| upd_pr_chan := Some (ChProc i) |> <| upd_pr_state := SLEEPING |>) s)) k
  else after_scan n i addr (kids, None) (setk m fl [LWait] s) = Ok (-1) (setk m fl [] s).
Proof.
  intros Hc Hp. unfold after_scan. cbn [fst snd]. destruct kids; cbn [negb andb].
  - rewrite (bind_ok2 _ _ _ _ _ _ (killed_ok i p m fl [LWait] s Hp ltac:(apply not_elem_of_cons; split; [done|apply not_elem_of_nil]))).
    rewrite bind_mret. unfold nz. destruct (pr_killed p =? 0); cbn [negb].
    + destruct (sleep_sleeps (ChProc i) LWait i p m fl s Hc Hp ltac:(done)) as [k Ek]. by eapply bind_sleep.
    + by rewrite (bind_ok _ _ _ _ _ (release_setk LWait m fl [] s)).
  - by rewrite bind_mret, (bind_ok _ _ _ _ _ (release_setk LWait m fl [] s)).
Qed.

#[local] Opaque NPROC.
Lemma wait_loop_ok n i p addr m fl l s :
  curproc s = Some i → procs s !! i = Some p → length (procs s) = NPROC → dest_ok m (pr_pagetable p) addr →
  (∀ z q, procs s !! z = Some q → pr_parent q = Some i → pr_state q = ZOMBIE → reapable m fl l (pr_pagetable p) q) →
  waited i p addr m fl l s (wait_loop (S n) i addr 0 (setk m fl [LWait] s)).
Proof.
  intros Hc Hp Hlen Da Hr. cbn [wait_loop]. change (waited i p addr m fl l s ((wait_scan NPROC 0 i addr 0 false ≫= after_scan n i addr) (setk m fl [LWait] s))).
  destruct (wait_scan_ok NPROC 0 i p addr 0 false m fl l s Hp Hlen Da ltac:(by left) Hr)
    as [[Hno E]|(z & q & m' & l' & s' & Hq & Hpar & Hz & E & -> & Hk & Hl & m1 & S1 & S2)]; rewrite (bind_ok _ _ _ _ _ E).
  - right. split; [intros z q; apply Hno; lia|]. rewrite drop_0. by apply after_scan_none.
  - left. exists z, q, m', l'. split_and!; [done|done|done|done|done|done|].
    intros va Hva. rewrite <- S1 by done. rewrite S2 by done. rewrite decide_False; [done|]. by intros [? _].
Qed.


(** A process with one page of memory, and its child that has exited. *)
Definition wait_parent : proc := proc0 <| upd_pr_state := RUNNING |> <| upd_pr_pagetable := demo_root |> <| upd_pr_sz := PGSIZE |>.
Definition wait_child : proc :=
  proc0 <| upd_pr_state := ZOMBIE |> <| upd_pr_parent := Some 0%nat |> <| upd_pr_pid := 7 |> <| upd_pr_xstate := 3 |> <| upd_pr_trapframe := 0x87ffa000 |>.
Definition wait_state : kstate := (foc 1 wait_child (foc 0 wait_parent kstate0)) <| upd_curproc := Some 0%nat |>.

Lemma wait_demo :
  ∃ m fl l, reapable m fl l demo_root wait_child ∧ dest_ok m demo_root 8.
Proof.
  destruct demo_inv as [Hu Hx]. set (perm := Z.lor (Z.lor PTE_R PTE_W) PTE_U).
  assert (∀ b, b ≠ demo_root → not_table demo_mem demo_root b) as Hnt.
  { intros b Hb. apply zero_not_table; [|done]. intros x Hxx. unfold demo_root, PGSIZE in Hxx. apply demo_rd; lia. }
  assert (∀ b, 0x87ff8000 ≤ b → b ∉ demo_pool) as Hl by (intros b Hb; unfold demo_pool; rewrite !not_elem_of_cons, elem_of_nil; lia).
  destruct (map_fresh demo_root 0 0x87ff8000 perm demo_mem 0x87ff1000 demo_pool [] kstate0)
    as (r & m & l & j & E & I & T & M & _ & D); [done|apply not_elem_of_nil|done|apply Hx| |done|].
  { split; [by apply demo_page_ok|apply Hl; lia|by apply Hnt|]. intros va v _. by rewrite Hx. }
  assert (match mappages demo_root 0 PGSIZE 0x87ff8000 perm (setk demo_mem 0x87ff1000 [] kstate0) with Ok r _ => r =? 0 | _ => false end = true) as Hr
    by (vm_compute; reflexivity).
  rewrite E in Hr. apply Z.eqb_eq in Hr as ->. clear E. assert (j = 1) as -> by (destruct D as [[_ ->]|[? _]]; [done|lia]).
  assert (page_ok 0x87ffa000) as Hp by (apply demo_page_ok; [reflexivity|lia]).
  destruct (tf_frame _ _ _ _ _ T 0x87ffa000 Hp (Hl 0x87ffa000 ltac:(lia)) (Hnt 0x87ffa000 ltac:(unfold demo_root; lia))) as [_ Hna].
  exists m, (hd 0 l), l. split; [split|right].
  - split; [apply I| |done|done]. intros _. split; [exact Hp|]. eapply not_in_suffix; [apply T|apply Hl]. vm_compute. discriminate.
  - exact I.
  - intros b Hb [[_ ->]|[H _]]; [|done]. cbn in Hb. destruct Hb as [(q & Hq & E)|(va & v & Hva & E & Hb)]; [by apply (Hna q)|].
    rewrite M in E by done. destruct (decide _) as [Hd|Hd]; [|by rewrite Hx in E].
    assert (va = 0) as -> by (destruct Hva as [_ Hva]; unfold PGSIZE in *; zlia). injection E as <-. vm_compute in Hb. discriminate.
  - split_and!; [lia|done|]. intros va Hva. exists (mkpte 0x87ff8000 perm). replace (PGROUNDDOWN va) with 0
      by (rewrite PGROUNDDOWN_eq; unfold PGSIZE; zlia).
    rewrite M, decide_True by (unfold va_ok, PGSIZE; done || lia). split; [done|]. split; [|intros _]; vm_compute; discriminate.
Qed.

