(* ===== verification/Exec.v ===== *)
(** * kernel/exec.c, kernel/elf.h, and argument fetching of kernel/syscall.c

    [argraw] and the routines that fetch system call arguments from the
    caller's registers and memory; [kexec] with its two formats, ELF programs
    and scripts that start with "#!". *)

From S2P Require Import Prelude Bytes Riscv Kstate CString Kalloc Vm Sched Bio Log Printf Console Pipe Fs File Proc.

(** ** Arguments *)

(** A field of the current process's trapframe. *)
Definition tf_get (off : Z) : K Z :=
  i ← myproc; p ← getproc i; gets (λ s, load64 (mem s) (pr_trapframe p + off)).
Definition tf_set (off v : Z) : K () :=
  i ← myproc; p ← getproc i; update upd_mem (λ m, store64 m (pr_trapframe p + off) v).

Definition argraw (n : Z) : K Z :=
  if (0 <=? n) && (n <=? 5) then tf_get (TF_A n) else panic "argraw".
Definition argint (n : Z) : K Z := v ← argraw n; mret (s32 v).
Definition argaddr (n : Z) : K Z := argraw n.

(** The C result, and the value stored through [ip]. *)
Definition fetchaddr (addr : Z) : K (Z * Z) :=
  i ← myproc;
  p ← getproc i;
  if (pr_sz p <=? addr) || (pr_sz p <? u64 (addr + 8)) then mret (-1, 0) else
  r ← copyin (pr_pagetable p) addr 8;
  if negb (r.1 =? 0) then mret (-1, 0) else mret (0, ldl 8 r.2 0).

(** The C result, and the bytes stored in [buf]. *)
Definition fetchstr (addr max : Z) : K (Z * list Z) :=
  i ← myproc;
  p ← getproc i;
  r ← copyinstr (pr_pagetable p) addr max;
  if r.1 <? 0 then mret (-1, r.2) else mret (Z.of_nat (length (until_nul r.2)), r.2).
Definition argstr (n max : Z) : K (Z * list Z) := addr ← argaddr n; fetchstr addr max.

(** ** ELF files *)

Definition ELF_MAGIC : Z := 0x464C457F.
Definition ELF_PROG_LOAD : Z := 1.
Definition ELFHDR_SIZE : Z := 64.
Definition PROGHDR_SIZE : Z := 56.
Definition elf_magic (d : list Z) : Z := ldl 4 d 0.
Definition elf_entry (d : list Z) : Z := ldl 8 d 24.
Definition elf_phoff (d : list Z) : Z := ldl 8 d 32.
Definition elf_phnum (d : list Z) : Z := ldl 2 d 56.
Definition ph_type (d : list Z) : Z := ldl 4 d 0.
Definition ph_flags (d : list Z) : Z := ldl 4 d 4.
Definition ph_off (d : list Z) : Z := ldl 8 d 8.
Definition ph_vaddr (d : list Z) : Z := ldl 8 d 16.
Definition ph_filesz (d : list Z) : Z := ldl 8 d 32.
Definition ph_memsz (d : list Z) : Z := ldl 8 d 40.

Definition flags2perm (flags : Z) : Z :=
  let perm := if nz (Z.land flags 1) then PTE_X else 0 in
  if nz (Z.land flags 2) then Z.lor perm PTE_W else perm.

Fixpoint loadseg_loop (fuel : nat) (pagetable va : Z) (ip : nat) (offset sz i : Z) : K Z :=
  match fuel with
  | O => nofuel
  | S fuel =>
      if negb (i <? sz) then mret 0 else
      pa ← walkaddr pagetable (u64 (va + i));
      if pa =? 0 then panic "loadseg: address should exist" else
      let n := if sz - i <? PGSIZE then sz - i else PGSIZE in
      r ← readi ip (DKernel pa) (u32 (offset + i)) n;
      if negb (u32 r.1 =? n) then mret (-1) else
      loadseg_loop fuel pagetable va ip offset sz (u32 (i + PGSIZE))
  end.
Definition loadseg (pagetable va : Z) (ip : nat) (offset sz : Z) : K Z :=
  loadseg_loop (S (S (Z.to_nat (sz / PGSIZE)))) pagetable va ip offset sz 0.

(** The loop over the [n] program headers from [off] on: whether every
    segment was loaded, and the size of the memory allocated so far. *)
Fixpoint load_segs (n : nat) (ip : nat) (pagetable off sz : Z) : K (bool * Z) :=
  match n with
  | O => mret (true, sz)
  | S n =>
      r ← readi ip DLocal (u32 off) PROGHDR_SIZE;
      let ph := r.2 in
      let next := load_segs n ip pagetable (s32 (off + PROGHDR_SIZE)) in
      if negb (r.1 =? PROGHDR_SIZE) then mret (false, sz) else
      if negb (ph_type ph =? ELF_PROG_LOAD) then next sz else
      if ph_memsz ph <? ph_filesz ph then mret (false, sz) else
      if u64 (ph_vaddr ph + ph_memsz ph) <? ph_vaddr ph then mret (false, sz) else
      if nz (ph_vaddr ph mod PGSIZE) then mret (false, sz) else
      sz1 ← uvmalloc pagetable sz (u64 (ph_vaddr ph + ph_memsz ph)) (flags2perm (ph_flags ph));
      if sz1 =? 0 then mret (false, sz) else
      l ← loadseg pagetable (ph_vaddr ph) ip (u32 (ph_off ph)) (u32 (ph_filesz ph));
      if l <? 0 then mret (false, sz1) else next sz1
  end.

(** ** Scripts *)

(** The interpreter's name: the bytes of the file from [off] to the end of
    the line, [got] of them so far. *)
Fixpoint read_interp (n : nat) (ip : nat) (off : Z) : K (list Z) :=
  match n with
  | O => mret []
  | S n =>
      r ← readi ip DLocal (u32 off) 1;
      if negb (r.1 =? 1) then mret [] else
      let c := nth 0 r.2 0 in
      if c =? 10 then mret [] else
      l ← read_interp n ip (off + 1);
      mret (c :: l)
  end.
Fixpoint skip_blanks (l : list Z) : list Z :=
  match l with c :: l' => if (c =? 32) || (c =? 9) then skip_blanks l' else l | [] => [] end.
(** [newargv]: the interpreter, the script, and at most MAXARG - 3 of the
    original arguments. *)
Definition interp_argv (pinterp path : list Z) (argv : list (list Z)) : list (list Z) :=
  pinterp :: path :: take (Z.to_nat MAXARG - 3) (tail argv).

(** ** kexec *)

(** The argument strings, pushed on the new stack: the final stack pointer
    and the addresses, or [None] where the code goes to [bad]. *)
Fixpoint push_args (pagetable stackbase argc sp : Z) (argv : list (list Z)) : K (option (Z * list Z)) :=
  match argv with
  | [] => mret (Some (sp, []))
  | a :: argv =>
      if MAXARG <=? argc then mret None else
      let sp := u64 (sp - (Z.of_nat (length a) + 1)) in
      let sp := sp - sp mod 16 in
      if sp <? stackbase then mret None else
      r ← copyout pagetable sp (a ++ [0]);
      if r <? 0 then mret None else
      q ← push_args pagetable stackbase (argc + 1) sp argv;
      mret (match q with Some (sp', l) => Some (sp', sp :: l) | None => None end)
  end.
(** The part of a path after its last slash. *)
Fixpoint last_elem (last s : list Z) : list Z :=
  match s with [] => last | c :: s => last_elem (if c =? SLASH then s else last) s end.

(** [bad:] with and without the inode still locked. *)
Definition exec_bad (pagetable sz : Z) (ip : option nat) : K Z :=
  whenM (nz pagetable) (proc_freepagetable pagetable sz);;
  match ip with Some ip => iunlockput ip;; end_op | None => mret () end;;
  mret (-1).

(** From "Allocate stack" on: the image is loaded, [sz] bytes long. *)
Definition exec_image (path : list Z) (argv : list (list Z)) (elf : list Z) (pagetable sz : Z) : K Z :=
  i ← myproc;
  p ← getproc i;
  let oldsz := pr_sz p in
  let sz := PGROUNDUP sz in
  sz1 ← uvmalloc pagetable sz (u64 (sz + (USERSTACK + 1) * PGSIZE)) PTE_W;
  if sz1 =? 0 then exec_bad pagetable sz None else
  let sz := sz1 in
  uvmclear pagetable (u64 (sz - (USERSTACK + 1) * PGSIZE));;
  let stackbase := u64 (sz - USERSTACK * PGSIZE) in
  setproc i (λ p, p <| upd_pr_mmap_base := TRAPFRAME - USERSTACK * PGSIZE |>);;
  setproc i (λ p, p <| upd_pr_mmap_next := pr_mmap_base p |>);;
  a ← push_args pagetable stackbase 0 sz argv;
  match a with
  | None => exec_bad pagetable sz None
  | Some (sp, ustack) =>
      let argc := Z.of_nat (length ustack) in
      let sp := u64 (sp - (argc + 1) * 8) in
      let sp := sp - sp mod 16 in
      if sp <? stackbase then exec_bad pagetable sz None else
      r ← copyout pagetable sp (concat (le_bytes 8 <$> (ustack ++ [0])));
      if r <? 0 then exec_bad pagetable sz None else
      tf_set (TF_A 1) sp;;
      setproc i (λ p, p <| upd_pr_name ::= λ n, arr_safestrcpy 16 n (last_elem path path) |>);;
      p ← getproc i;
      let oldpagetable := pr_pagetable p in
      setproc i (λ p, p <| upd_pr_pagetable := pagetable |> <| upd_pr_sz := sz |>);;
      tf_set TF_EPC (elf_entry elf);;
      tf_set TF_SP sp;;
      proc_freepagetable oldpagetable oldsz;;
      mret argc
  end.

(** [kexec] calls itself for the interpreter of a script, which may be a
    script too: [fuel] bounds that nesting. *)
Fixpoint kexec (fuel : nat) (trampoline : Z) (path : list Z) (argv : list (list Z)) : K Z :=
  match fuel with
  | O => nofuel
  | S fuel =>
      i ← myproc;
      begin_op;;
      ip ← namei path;
      match ip with
      | None => end_op;; mret (-1)
      | Some ip =>
          ilock ip;;
          sh ← readi ip DLocal 0 2;
          if (sh.1 =? 2) && (nth 0 sh.2 0 =? 35) && (nth 1 sh.2 0 =? 33) then
            interp ← read_interp 127 ip 2;
            let pinterp := skip_blanks (until_nul interp) in
            iunlockput ip;;
            end_op;;
            kexec fuel trampoline pinterp (interp_argv pinterp path argv)
          else
            elf ← readi ip DLocal 0 ELFHDR_SIZE;
            if negb (elf.1 =? ELFHDR_SIZE) then exec_bad 0 0 (Some ip) else
            if negb (elf_magic elf.2 =? ELF_MAGIC) then exec_bad 0 0 (Some ip) else
            pagetable ← proc_pagetable trampoline i;
            if pagetable =? 0 then exec_bad 0 0 (Some ip) else
            r ← load_segs (Z.to_nat (elf_phnum elf.2)) ip pagetable (s32 (elf_phoff elf.2)) 0;
            if negb r.1 then exec_bad pagetable r.2 (Some ip) else
            iunlockput ip;;
            end_op;;
            exec_image path argv elf.2 pagetable r.2
      end
  end.
