(* ===== verification/Sysfile.v ===== *)
(** * kernel/sysfile.c: the file system calls

    Argument checking and the calls into file.c, fs.c and exec.c, one
    definition per handler, with each handler's [goto bad] paths. *)

From S2P Require Import Prelude Bytes Riscv Kstate CString Kalloc Vm Sched Bio Log Printf Console Pipe Fs File Proc Exec.


(** The descriptor and the file, [None] for -1. *)
Definition argfd (n : Z) : K (option (nat * nat)) :=
  fd ← argint n;
  if (fd <? 0) || (Z.of_nat NOFILE <=? fd) then mret None else
  i ← myproc;
  p ← getproc i;
  mret (match pr_ofile p !! Z.to_nat fd with
        | Some (Some f) => Some (Z.to_nat fd, f)
        | _ => None
        end).

Fixpoint fdalloc_loop (n fd i f : nat) : K (option nat) :=
  match n with
  | O => mret None
  | S n =>
      p ← getproc i;
      if bool_decide (pr_ofile p !! fd = Some None) then
        setproc i (λ p, p <| upd_pr_ofile ::= <[fd := Some f]> |>);; mret (Some fd)
      else fdalloc_loop n (S fd) i f
  end.
Definition fdalloc (f : nat) : K (option nat) := i ← myproc; fdalloc_loop NOFILE 0 i f.

(** The C string a buffer of [argstr] holds. *)
Definition argpath (n : Z) : K (option (list Z)) :=
  r ← argstr n MAXPATH; mret (if r.1 <? 0 then None else Some (until_nul r.2)).

Definition sys_dup : K Z :=
  a ← argfd 0;
  match a with
  | None => mret (-1)
  | Some (_, f) =>
      fd ← fdalloc f;
      match fd with
      | None => mret (-1)
      | Some fd => filedup f;; mret (Z.of_nat fd)
      end
  end.

Definition sys_read : K Z :=
  p ← argaddr 1;
  n ← argint 2;
  a ← argfd 0;
  match a with None => mret (-1) | Some (_, f) => fileread f p n end.

Definition sys_write : K Z :=
  p ← argaddr 1;
  n ← argint 2;
  a ← argfd 0;
  match a with None => mret (-1) | Some (_, f) => filewrite f p n end.

Definition sys_close : K Z :=
  a ← argfd 0;
  match a with
  | None => mret (-1)
  | Some (fd, f) =>
      i ← myproc;
      setproc i (λ p, p <| upd_pr_ofile ::= <[fd := None]> |>);;
      fileclose f;;
      mret 0
  end.

Definition sys_fstat : K Z :=
  st ← argaddr 1;
  a ← argfd 0;
  match a with None => mret (-1) | Some (_, f) => filestat f st end.

(** [bad:] of [sys_link]. *)
Definition link_bad (ip : nat) : K Z :=
  ilock ip;;
  updi ip (λ x, x <| upd_i_nlink ::= λ n, s16 (n - 1) |>);;
  iupdate ip;;
  iunlockput ip;;
  end_op;;
  mret (-1).
Definition sys_link : K Z :=
  old ← argpath 0;
  new ← (match old with None => mret None | Some _ => argpath 1 end);
  match old, new with
  | Some old, Some new =>
      begin_op;;
      ip ← namei old;
      match ip with
      | None => end_op;; mret (-1)
      | Some ip =>
          ilock ip;;
          x ← geti ip;
          if i_type x =? T_DIR then iunlockput ip;; end_op;; mret (-1) else
          updi ip (λ x, x <| upd_i_nlink ::= λ n, s16 (n + 1) |>);;
          iupdate ip;;
          iunlock ip;;
          r ← nameiparent new;
          match r.1 with
          | None => link_bad ip
          | Some dp =>
              ilock dp;;
              y ← geti dp;
              x ← geti ip;
              l ← (if negb (i_dev y =? i_dev x) then mret (-1) else dirlink dp r.2 (i_inum x));
              if l <? 0 then iunlockput dp;; link_bad ip else
              iunlockput dp;;
              iput ip;;
              end_op;;
              mret 0
          end
      end
  | _, _ => mret (-1)
  end.

Fixpoint isdirempty_loop (fuel : nat) (dp : nat) (off : Z) : K bool :=
  match fuel with
  | O => nofuel
  | S fuel =>
      x ← geti dp;
      if negb (off <? i_size x) then mret true else
      de ← read_dirent dp off "isdirempty: readi";
      if negb (de_inum de =? 0) then mret false
      else isdirempty_loop fuel dp (off + DIRENT_SIZE)
  end.
Definition isdirempty (dp : nat) : K bool :=
  x ← geti dp; isdirempty_loop (dir_fuel x) dp (2 * DIRENT_SIZE).

(** [bad:] of [sys_unlink]. *)
Definition unlink_bad (dp : nat) : K Z := iunlockput dp;; end_op;; mret (-1).
Definition sys_unlink : K Z :=
  path ← argpath 0;
  match path with
  | None => mret (-1)
  | Some path =>
      begin_op;;
      r ← nameiparent path;
      match r.1 with
      | None => end_op;; mret (-1)
      | Some dp =>
          let name := r.2 in
          ilock dp;;
          if (namecmp name [46] =? 0) || (namecmp name [46; 46] =? 0) then unlink_bad dp else
          e ← dirlookup dp name;
          match e with
          | None => unlink_bad dp
          | Some (ip, off) =>
              ilock ip;;
              x ← geti ip;
              if i_nlink x <? 1 then panic "unlink: nlink < 1" else
              full ← (if i_type x =? T_DIR then e ← isdirempty ip; mret (negb e) else mret false);
              if (full : bool) then iunlockput ip;; unlink_bad dp else
              w ← writei dp (SLocal (replicate (Z.to_nat DIRENT_SIZE) 0)) off DIRENT_SIZE;
              if negb (w =? DIRENT_SIZE) then panic "unlink: writei" else
              x ← geti ip;
              whenM (i_type x =? T_DIR)
                (updi dp (λ y, y <| upd_i_nlink ::= λ n, s16 (n - 1) |>);; iupdate dp);;
              iunlockput dp;;
              updi ip (λ x, x <| upd_i_nlink ::= λ n, s16 (n - 1) |>);;
              iupdate ip;;
              iunlockput ip;;
              end_op;;
              mret 0
          end
      end
  end.

(** [fail:] of [create]. *)
Definition create_fail (ip dp : nat) : K (option nat) :=
  updi ip (λ x, x <| upd_i_nlink := 0 |>);;
  iupdate ip;;
  iunlockput ip;;
  iunlockput dp;;
  mret None.
Definition create (path : list Z) (type major minor : Z) : K (option nat) :=
  r ← nameiparent path;
  match r.1 with
  | None => mret None
  | Some dp =>
      let name := r.2 in
      ilock dp;;
      e ← dirlookup dp name;
      match e with
      | Some (ip, _) =>
          iunlockput dp;;
          ilock ip;;
          x ← geti ip;
          if (type =? T_FILE) && ((i_type x =? T_FILE) || (i_type x =? T_DEVICE)) then mret (Some ip)
          else iunlockput ip;; mret None
      | None =>
          y ← geti dp;
          a ← ialloc (i_dev y) type;
          match a with
          | None => iunlockput dp;; mret None
          | Some ip =>
              ilock ip;;
              updi ip (λ x, x <| upd_i_major := major |> <| upd_i_minor := minor |>
                              <| upd_i_nlink := 1 |>);;
              iupdate ip;;
              x ← geti ip;
              y ← geti dp;
              ok ← (if type =? T_DIR then
                      r ← dirlink ip [46] (i_inum x);
                      if r <? 0 then mret false else
                      r ← dirlink ip [46; 46] (i_inum y);
                      mret (negb (r <? 0))
                    else mret true);
              if negb ok then create_fail ip dp else
              r ← dirlink dp name (i_inum x);
              if r <? 0 then create_fail ip dp else
              whenM (type =? T_DIR)
                (updi dp (λ y, y <| upd_i_nlink ::= λ n, s16 (n + 1) |>);; iupdate dp);;
              iunlockput dp;;
              mret (Some ip)
          end
      end
  end.

(** [sys_open] once it has the locked inode. *)
Definition open_inode (ip : nat) (omode : Z) : K Z :=
  x ← geti ip;
  if (i_type x =? T_DEVICE) && ((i_major x <? 0) || (NDEV <=? i_major x)) then
    iunlockput ip;; end_op;; mret (-1)
  else
  f ← filealloc;
  fd ← (match f with Some f => fdalloc f | None => mret None end);
  match f, fd with
  | Some f, Some fd =>
      (if i_type x =? T_DEVICE
       then updfile f (λ y, y <| upd_f_type := FD_DEVICE |> <| upd_f_major := i_major x |>)
       else updfile f (λ y, y <| upd_f_type := FD_INODE |> <| upd_f_off := 0 |>));;
      updfile f (λ y, y <| upd_f_ip := Some ip |>
        <| upd_f_readable := negb (nz (Z.land omode O_WRONLY)) |>
        <| upd_f_writable := nz (Z.land omode O_WRONLY) || nz (Z.land omode O_RDWR) |>);;
      whenM (nz (Z.land omode O_TRUNC) && (i_type x =? T_FILE)) (itrunc ip);;
      iunlock ip;;
      end_op;;
      mret (Z.of_nat fd)
  | _, _ =>
      close_opt f;;
      iunlockput ip;;
      end_op;;
      mret (-1)
  end.
Definition sys_open : K Z :=
  omode ← argint 1;
  path ← argpath 0;
  match path with
  | None => mret (-1)
  | Some path =>
      begin_op;;
      if nz (Z.land omode O_CREATE) then
        ip ← create path T_FILE 0 0;
        match ip with None => end_op;; mret (-1) | Some ip => open_inode ip omode end
      else
        ip ← namei path;
        match ip with
        | None => end_op;; mret (-1)
        | Some ip =>
            ilock ip;;
            x ← geti ip;
            if (i_type x =? T_DIR) && negb (omode =? O_RDONLY) then
              iunlockput ip;; end_op;; mret (-1)
            else open_inode ip omode
        end
  end.

(** The end of [sys_mkdir] and [sys_mknod]. *)
Definition create_done (ip : option nat) : K Z :=
  match ip with
  | None => end_op;; mret (-1)
  | Some ip => iunlockput ip;; end_op;; mret 0
  end.
Definition sys_mkdir : K Z :=
  begin_op;;
  path ← argpath 0;
  ip ← (match path with None => mret None | Some path => create path T_DIR 0 0 end);
  create_done ip.

Definition sys_mknod : K Z :=
  begin_op;;
  major ← argint 1;
  minor ← argint 2;
  path ← argpath 0;
  ip ← (match path with None => mret None | Some path => create path T_DEVICE (s16 major) (s16 minor) end);
  create_done ip.

Definition sys_chdir : K Z :=
  i ← myproc;
  begin_op;;
  path ← argpath 0;
  ip ← (match path with None => mret None | Some path => namei path end);
  match ip with
  | None => end_op;; mret (-1)
  | Some ip =>
      ilock ip;;
      x ← geti ip;
      if negb (i_type x =? T_DIR) then iunlockput ip;; end_op;; mret (-1) else
      iunlock ip;;
      cwd ← proc_cwd;
      iput cwd;;
      end_op;;
      setproc i (λ p, p <| upd_pr_cwd := Some ip |>);;
      mret 0
  end.

(** The pages of [argv] are given back on every path. *)
Fixpoint free_argv (pages : list Z) : K () :=
  match pages with [] => mret () | p :: pages => kfree p;; free_argv pages end.
(** The loop of [sys_exec]: whether it succeeded, the pages allocated, and
    the strings in them. *)
Fixpoint exec_args (n : nat) (uargv i : Z) : K (bool * list Z * list (list Z)) :=
  match n with
  | O => mret (false, [], [])
  | S n =>
      r ← fetchaddr (u64 (uargv + 8 * i));
      if r.1 <? 0 then mret (false, [], []) else
      if r.2 =? 0 then mret (true, [], []) else
      page ← kalloc;
      if page =? 0 then mret (false, [], []) else
      s ← fetchstr r.2 PGSIZE;
      update upd_mem (λ m, wr_list m page s.2);;
      if s.1 <? 0 then mret (false, [page], []) else
      q ← exec_args n uargv (i + 1);
      mret (q.1.1, page :: q.1.2, until_nul s.2 :: q.2)
  end.
Definition sys_exec (fuel : nat) (trampoline : Z) : K Z :=
  uargv ← argaddr 1;
  path ← argpath 0;
  match path with
  | None => mret (-1)
  | Some path =>
      a ← exec_args (Z.to_nat MAXARG) uargv 0;
      if (a.1.1 : bool) then
        ret ← kexec fuel trampoline path a.2;
        free_argv a.1.2;;
        mret ret
      else free_argv a.1.2;; mret (-1)
  end.

Definition clear_fd (i fd : nat) : K () := setproc i (λ p, p <| upd_pr_ofile ::= <[fd := None]> |>).
Definition sys_pipe : K Z :=
  i ← myproc;
  fdarray ← argaddr 0;
  a ← pipealloc;
  match a with
  | None => mret (-1)
  | Some (rf, wf) =>
      fd0 ← fdalloc rf;
      fd1 ← (match fd0 with Some _ => fdalloc wf | None => mret None end);
      match fd0, fd1 with
      | Some fd0, Some fd1 =>
          p ← getproc i;
          r ← copyout (pr_pagetable p) fdarray (le_bytes 4 (Z.of_nat fd0));
          r ← (if r <? 0 then mret r
               else copyout (pr_pagetable p) (u64 (fdarray + 4)) (le_bytes 4 (Z.of_nat fd1)));
          if r <? 0 then
            clear_fd i fd0;; clear_fd i fd1;; fileclose rf;; fileclose wf;; mret (-1)
          else mret 0
      | _, _ =>
          match fd0 with Some fd0 => clear_fd i fd0 | None => mret () end;;
          fileclose rf;; fileclose wf;; mret (-1)
      end
  end.
