(* ===== verification/Syscall.v ===== *)
(** * kernel/sysproc.c, kernel/syscall.c, kernel/syscall.h: process system calls and dispatch

    One definition per handler of sysproc.c, the table [syscalls] and the
    dispatcher [syscall].  [trampoline] and [forkret] are addresses of kernel
    code; [fuel] bounds the nesting of script interpreters (see Exec.v). *)

From S2P Require Import Prelude Bytes Riscv Kstate CString Kalloc Vm Sched Bio Log Printf Console Pipe Fs File Proc Exec Sysfile.

(** ** kernel/sysproc.c *)

Definition SBRK_EAGER : Z := 1.

Definition sys_exit : K Z := n ← argint 0; kexit n.
Definition sys_getpid : K Z := i ← myproc; p ← getproc i; mret (pr_pid p).
Definition sys_fork (trampoline forkret : Z) : K Z := kfork trampoline forkret.
Definition sys_wait : K Z := p ← argaddr 0; kwait p.

Definition sys_sbrk : K Z :=
  n ← argint 0;
  t ← argint 1;
  i ← myproc;
  p ← getproc i;
  let addr := pr_sz p in
  if (t =? SBRK_EAGER) || (n <? 0) then
    r ← growproc n;
    if r <? 0 then mret (-1) else mret addr
  else
    if u64 (addr + n) <? addr then mret (-1) else
    setproc i (λ p, p <| upd_pr_sz ::= λ sz, u64 (sz + n) |>);;
    mret addr.

Fixpoint pause_loop (fuel : nat) (ticks0 n : Z) : K Z :=
  match fuel with
  | O => nofuel
  | S fuel =>
      t ← gets ticks;
      if u32 (t - ticks0) <? n then
        i ← myproc;
        k ← killed i;
        if nz k then release LTicks;; mret (-1)
        else sleep ChTicks LTicks;; pause_loop fuel ticks0 n
      else release LTicks;; mret 0
  end.
Definition sys_pause : K Z :=
  n ← argint 0;
  let n := if n <? 0 then 0 else n in
  acquire LTicks;;
  ticks0 ← gets ticks;
  pause_loop (S (Z.to_nat n) + WAKEUPS) ticks0 n.

Definition sys_kill : K Z := pid ← argint 0; kkill pid.
Definition sys_uptime : K Z :=
  acquire LTicks;; xticks ← gets ticks; release LTicks;; mret xticks.

Definition sys_shutdown : K Z := put upd_test_dev 0x5555;; mret 0.
Definition sys_reboot : K Z := put upd_test_dev 0x7777;; mret 0.
Definition sys_rtcgettime : K Z :=
  t ← gets rtc;
  let lo := u32 t in
  let hi := u32 (t / 2 ^ 32) in
  mret (Z.lor (Z.shiftl hi 32) lo).

Definition sys_strace_on : K Z :=
  i ← myproc; setproc i (λ p, p <| upd_pr_tracing := 1 |>);; mret 0.
Definition sys_wait2 : K Z :=
  ustatus ← argaddr 0; usyscalls ← argaddr 1; wait2 ustatus usyscalls.
Definition sys_getcwd : K Z :=
  buf ← argaddr 0;
  size ← argint 1;
  i ← myproc;
  p ← getproc i;
  copyout (pr_pagetable p) buf [SLASH; 0].

Definition sys_setnice : K Z :=
  n ← argint 0;
  if (n <? 0) || (40 <? n) then mret (-1) else
  let n := if n <? 0 then 0 else n in
  let n := if 3 <? n then 3 else n in
  i ← myproc;
  acquire (LProc i);;
  setproc i (λ p, p <| upd_pr_nice := n |>);;
  setproc i (λ p, p <| upd_pr_priority := 3 - n |>);;
  release (LProc i);;
  mret 0.

Definition sys_mmap : K Z :=
  addr ← argaddr 0;
  length ← argint 1;
  prot ← argint 2;
  flags ← argint 3;
  fd ← argint 4;
  offset ← argint 5;
  kmmap addr length.
Definition sys_munmap : K Z := addr ← argaddr 0; length ← argint 1; kmunmap addr length.
Definition sys_freemem : K Z := freemem.

(** ** kernel/syscall.c *)

Section dispatch.
Context (fuel : nat) (trampoline forkret : Z).

Definition syscalls : list (option (K Z)) :=
  [None; Some (sys_fork trampoline forkret); Some sys_exit; Some sys_wait; Some sys_pipe;
   Some sys_read; Some sys_kill; Some (sys_exec fuel trampoline); Some sys_fstat; Some sys_chdir;
   Some sys_dup; Some sys_getpid; Some sys_sbrk; Some sys_pause; Some sys_uptime; Some sys_open;
   Some sys_write; Some sys_mknod; Some sys_unlink; Some sys_link; Some sys_mkdir; Some sys_close;
   Some sys_shutdown; Some sys_reboot; Some sys_rtcgettime; Some sys_strace_on; Some sys_wait2;
   Some sys_getcwd; Some sys_setnice; Some sys_mmap; Some sys_munmap; Some sys_freemem].
Definition handler (num : Z) : option (K Z) :=
  if (0 <? num) && (num <? Z.of_nat (length syscalls))
  then default None (syscalls !! Z.to_nat num) else None.

Definition syscall : K () :=
  i ← myproc;
  num ← tf_get (TF_A 7);
  let num := s32 num in
  setproc i (λ p, p <| upd_pr_syscall_count ::= λ c, c + 1 |>);;
  match handler num with
  | Some h =>
      r ← h;
      let retval := s32 r in
      p ← getproc i;
      whenM (nz (pr_traced p)) (strace i num retval);;
      tf_set (TF_A 0) (u64 retval)
  | None =>
      p ← getproc i;
      kprintf (line "%d %s: unknown sys call %d")
        [VInt (pr_pid p); VStr (Some (until_nul (pr_name p))); VInt num];;
      tf_set (TF_A 0) (u64 (-1))
  end;;
  retval ← tf_get (TF_A 0);
  p ← getproc i;
  whenM (nz (pr_tracing p)) (strace i num (s32 retval)).
End dispatch.
