(* ===== verification/Trap.v ===== *)
(** * kernel/trap.c, kernel/plic.c, and forkret of kernel/proc.c: traps

    The C halves of the trap paths: [usertrap], [prepare_return],
    [kerneltrap], [clockintr], [devintr] and [forkret].  The control
    registers are the record [csr] of the state.  The assembly halves
    (trampoline.S, kernelvec.S) are not modelled: a trap is a call of
    [usertrap] or [kerneltrap] with the registers set as the hardware sets
    them, and the return value of [usertrap] is what userret gets. *)

From S2P Require Import Prelude Bytes Riscv Kstate CString Kalloc Vm Sched Bio Log Printf Console Pipe Fs File Proc Exec Sysfile Syscall.

Definition SSTATUS_SPP : Z := Z.shiftl 1 8.
Definition SSTATUS_SPIE : Z := Z.shiftl 1 5.
Definition SSTATUS_SIE : Z := Z.shiftl 1 1.

Definition rcsr (f : csrs → Z) : K Z := gets (λ s, f (csr s)).
Definition wcsr (u : (Z → Z) → csrs → csrs) (v : Z) : K () := update upd_csr (u (λ _, v)).
Definition intr_on : K () := x ← rcsr c_sstatus; wcsr upd_c_sstatus (Z.lor x SSTATUS_SIE).
Definition intr_off : K () := x ← rcsr c_sstatus; wcsr upd_c_sstatus (Z.land x (Z.lnot SSTATUS_SIE)).
Definition intr_get : K bool := x ← rcsr c_sstatus; mret (nz (Z.land x SSTATUS_SIE)).

(** The PLIC hands out its pending interrupts one at a time, 0 for none. *)
Definition plic_claim : K Z :=
  q ← gets plic;
  match q with irq :: q => put upd_plic q;; mret irq | [] => mret 0 end.

Definition clockintr : K () :=
  id ← rcsr c_tp;
  whenM (id =? 0)
    (acquire LTicks;;
     update upd_ticks (λ t, u32 (t + 1));;
     wakeup ChTicks;;
     release LTicks);;
  t ← rcsr c_time;
  wcsr upd_c_stimecmp (u64 (t + 1000000)).

(** The addresses of kernel code, the bound on script nesting, the state of
    the uart's transmitter, and the disk driver's handler (VirtioDisk.v has
    its own state). *)
Section trap.
Context (trampoline uservec kernelvec usertrap_addr forkret_addr : Z).
Context (fuel : nat) (tx_idle : bool) (virtio_disk_intr : K ()).

Definition devintr : K Z :=
  scause ← rcsr c_scause;
  if scause =? 0x8000000000000009 then
    irq ← plic_claim;
    (if irq =? UART0_IRQ then uartintr tx_idle
     else if irq =? VIRTIO0_IRQ then virtio_disk_intr
     else whenM (nz irq) (kprintf (line "unexpected interrupt irq=%d") [VInt irq]));;
    mret 1
  else if scause =? 0x8000000000000005 then clockintr;; mret 2
  else mret 0.

Definition prepare_return : K () :=
  i ← myproc;
  p ← getproc i;
  intr_off;;
  wcsr upd_c_stvec (TRAMPOLINE + (uservec - trampoline));;
  satp ← rcsr c_satp;
  tf_set TF_KSATP satp;;
  tf_set TF_KSP (u64 (pr_kstack p + PGSIZE));;
  tf_set TF_KTRAP usertrap_addr;;
  tp ← rcsr c_tp;
  tf_set TF_KHARTID tp;;
  x ← rcsr c_sstatus;
  let x := Z.land x (Z.lnot SSTATUS_SPP) in
  let x := Z.lor x SSTATUS_SPIE in
  wcsr upd_c_sstatus x;;
  epc ← tf_get TF_EPC;
  wcsr upd_c_sepc epc.

Definition usertrap : K Z :=
  st ← rcsr c_sstatus;
  if nz (Z.land st SSTATUS_SPP) then panic "usertrap: not from user mode" else
  wcsr upd_c_stvec kernelvec;;
  i ← myproc;
  sepc ← rcsr c_sepc;
  tf_set TF_EPC sepc;;
  scause ← rcsr c_scause;
  which_dev ← (if scause =? 8 then
      k ← killed i;
      whenM (nz k) (kexit (-1));;
      epc ← tf_get TF_EPC;
      tf_set TF_EPC (u64 (epc + 4));;
      intr_on;;
      syscall fuel trampoline forkret_addr;;
      mret 0
    else
      which_dev ← devintr;
      if negb (which_dev =? 0) then mret which_dev else
      pa ← (if (scause =? 15) || (scause =? 13) then
              p ← getproc i;
              stval ← rcsr c_stval;
              vmfault (pr_pagetable p) stval (scause =? 13)
            else mret 0);
      if negb (pa =? 0) then mret 0 else
      p ← getproc i;
      sepc ← rcsr c_sepc;
      stval ← rcsr c_stval;
      kprintf (line "usertrap(): unexpected scause 0x%lx pid=%d") [VInt scause; VInt (pr_pid p)];;
      kprintf (line "            sepc=0x%lx stval=0x%lx") [VInt sepc; VInt stval];;
      setkilled i;;
      mret 0);
  k ← killed i;
  whenM (nz k) (kexit (-1));;
  whenM (which_dev =? 2) yield;;
  prepare_return;;
  p ← getproc i;
  mret (MAKE_SATP (pr_pagetable p)).

Definition kerneltrap : K () :=
  sepc ← rcsr c_sepc;
  sstatus ← rcsr c_sstatus;
  scause ← rcsr c_scause;
  if Z.land sstatus SSTATUS_SPP =? 0 then panic "kerneltrap: not from supervisor mode" else
  on ← intr_get;
  if (on : bool) then panic "kerneltrap: interrupts enabled" else
  which_dev ← devintr;
  if which_dev =? 0 then
    sepc' ← rcsr c_sepc;
    stval ← rcsr c_stval;
    kprintf (line "scause=0x%lx sepc=0x%lx stval=0x%lx") [VInt scause; VInt sepc'; VInt stval];;
    panic "kerneltrap"
  else
  c ← gets curproc;
  whenM ((which_dev =? 2) && negb (bool_decide (c = None))) yield;;
  wcsr upd_c_sepc sepc;;
  wcsr upd_c_sstatus sstatus.

(** "/init" *)
Definition init_path : list Z := codes "/init".
(** The value passed to userret. *)
Definition forkret : K Z :=
  i ← myproc;
  release (LProc i);;
  f ← gets first;
  whenM f
    (fsinit ROOTDEV;;
     put upd_first false;;
     r ← kexec fuel trampoline init_path [init_path];
     tf_set (TF_A 0) (u64 r);;
     a0 ← tf_get (TF_A 0);
     if a0 =? u64 (-1) then panic "exec" else mret ());;
  prepare_return;;
  p ← getproc i;
  mret (MAKE_SATP (pr_pagetable p)).
End trap.
