(* ===== verification/Spinlock.v ===== *)
(** * kernel/spinlock.c: spinlocks on several CPUs

    The other files see a spinlock through the one thread they follow.  This
    one models the locks themselves: any number of CPUs, each with its
    interrupt flag and its [noff]/[intena] pair, run [acquire] and [release]
    interleaved at every access to a shared word.  [pc] is where a CPU is in
    the two routines; [held] is a ghost list of the locks whose [acquire]
    has returned.

    [sys_inv] is the invariant of all reachable states; the theorems are
    mutual exclusion, the exact conditions under which the routines panic,
    and that interrupts are off exactly while locks are held. *)

From stdpp Require Import functions.
From S2P Require Import Prelude.
#[local] Open Scope Z_scope.

Module Smp.

(** ** State *)

Record spinlock := mk_spinlock { lk_locked : bool; lk_cpu : option nat }.

(** Between two calls ([Idle]), or before the named access of a routine:
    [holding]'s reads of [locked] and [cpu], the atomic swap, the store to
    [lk->cpu]; and for [release] the same two reads, the store, the atomic
    store that unlocks, and [pop_off]. *)
Inductive pcs :=
| Idle
| AcqLocked (l : nat) | AcqCpu (l : nat) | AcqSwap (l : nat) | AcqRecord (l : nat)
| RelLocked (l : nat) | RelCpu (l : nat) | RelClear (l : nat) | RelUnlock (l : nat) | RelPop.

Record cpu := mk_cpu {
  noff : Z;
  intena : bool;
  sie : bool;           (* the interrupt-enable bit of sstatus *)
  pc : pcs;
  held : list nat
}.
Definition set_pc (p : pcs) (c : cpu) : cpu := mk_cpu (noff c) (intena c) (sie c) p (held c).
Definition set_held (h : list nat) (c : cpu) : cpu := mk_cpu (noff c) (intena c) (sie c) (pc c) h.

Record sys := mk_sys { cpus : nat → cpu; lks : nat → spinlock }.

(** ** push_off, pop_off, initlock *)

Definition push_off (c : cpu) : cpu :=
  let old := sie c in
  mk_cpu (noff c + 1) (if noff c =? 0 then old else intena c) false (pc c) (held c).

Inductive outcome (A : Type) := Next (a : A) | Panics (msg : string).
Arguments Next {A} a.
Arguments Panics {A} msg.

Definition pop_off (c : cpu) : outcome cpu :=
  if sie c then Panics "pop_off - interruptible" else
  if noff c <? 1 then Panics "pop_off" else
  let n := noff c - 1 in
  Next (mk_cpu n (intena c) (if (n =? 0) && intena c then true else sie c) (pc c) (held c)).

Definition initlock : spinlock := mk_spinlock false None.

(** ** One step of one CPU *)

(** At [Idle] the code of a CPU calls [acquire] or [release], or, outside of
    any critical section, [intr_on] or [intr_off]; [Run] goes on with the
    routine it is in. *)
Inductive event := Acquire (l : nat) | Release (l : nat) | SetIntr (b : bool) | Run.

Definition put_cpu (i : nat) (c : cpu) (s : sys) : sys := mk_sys (<[i := c]> (cpus s)) (lks s).
Definition put_lock (l : nat) (k : spinlock) (s : sys) : sys := mk_sys (cpus s) (<[l := k]> (lks s)).
Definition goto (i : nat) (p : pcs) (s : sys) : sys := put_cpu i (set_pc p (cpus s i)) s.

Definition run (i : nat) (s : sys) : outcome sys :=
  let c := cpus s i in
  match pc c with
  | Idle => Next s
  | AcqLocked l => Next (goto i (if lk_locked (lks s l) then AcqCpu l else AcqSwap l) s)
  | AcqCpu l =>
      if bool_decide (lk_cpu (lks s l) = Some i) then Panics "acquire" else Next (goto i (AcqSwap l) s)
  | AcqSwap l =>
      if lk_locked (lks s l) then Next s
      else Next (goto i (AcqRecord l) (put_lock l (mk_spinlock true (lk_cpu (lks s l))) s))
  | AcqRecord l =>
      Next (put_cpu i (set_pc Idle (set_held (l :: held c) c))
             (put_lock l (mk_spinlock (lk_locked (lks s l)) (Some i)) s))
  | RelLocked l => if lk_locked (lks s l) then Next (goto i (RelCpu l) s) else Panics "release"
  | RelCpu l =>
      if bool_decide (lk_cpu (lks s l) = Some i) then Next (goto i (RelClear l) s) else Panics "release"
  | RelClear l => Next (goto i (RelUnlock l) (put_lock l (mk_spinlock (lk_locked (lks s l)) None) s))
  | RelUnlock l =>
      Next (put_cpu i (set_pc RelPop (set_held (filter (λ x, x ≠ l) (held c)) c))
             (put_lock l (mk_spinlock false (lk_cpu (lks s l))) s))
  | RelPop =>
      match pop_off c with
      | Next c' => Next (put_cpu i (set_pc Idle c') s)
      | Panics msg => Panics msg
      end
  end.

Definition step (i : nat) (e : event) (s : sys) : outcome sys :=
  let c := cpus s i in
  match e, pc c with
  | Run, _ => run i s
  | Acquire l, Idle => Next (put_cpu i (set_pc (AcqLocked l) (push_off c)) s)
  | Release l, Idle => Next (goto i (RelLocked l) s)
  | SetIntr b, Idle =>
      if noff c =? 0 then Next (put_cpu i (mk_cpu (noff c) (intena c) b (pc c) (held c)) s) else Next s
  | _, _ => Next s
  end.

Fixpoint steps (es : list (nat * event)) (s : sys) : outcome sys :=
  match es with
  | [] => Next s
  | (i, e) :: es => match step i e s with Next s' => steps es s' | Panics m => Panics m end
  end.

(** All locks initialised, no CPU in a critical section, interrupts off as
    [start] leaves them. *)
Definition sys0 : sys := mk_sys (λ _, mk_cpu 0 false false Idle []) (λ _, initlock).
Definition reachable (s : sys) : Prop := ∃ es, steps es sys0 = Next s.

(** ** The invariant *)

(** CPU [c] has won the swap for [l] and not yet unlocked it. *)
Definition owns (c : cpu) (l : nat) : Prop := pc c = AcqRecord l ∨ l ∈ held c.
(** [push_off] calls pending beyond one per lock held. *)
Definition extra (p : pcs) : Z :=
  match p with AcqLocked _ | AcqCpu _ | AcqSwap _ | AcqRecord _ | RelPop => 1 | _ => 0 end.

Record cpu_inv (c : cpu) : Prop := {
  ci_nodup : NoDup (held c);
  ci_record l : pc c = AcqRecord l → l ∉ held c;
  ci_swap l : pc c = AcqSwap l → l ∉ held c;
  ci_clear l : pc c = RelClear l ∨ pc c = RelUnlock l → l ∈ held c;
  ci_noff : noff c = Z.of_nat (length (held c)) + extra (pc c);
  ci_sie : 0 < noff c → sie c = false
}.
Record lock_inv (s : sys) (l : nat) : Prop := {
  li_locked : lk_locked (lks s l) = true ↔ ∃ i, owns (cpus s i) l;
  li_uniq i j : owns (cpus s i) l → owns (cpus s j) l → i = j;
  li_cpu i : lk_cpu (lks s l) = Some i ↔ l ∈ held (cpus s i) ∧ pc (cpus s i) ≠ RelUnlock l
}.
Record sys_inv (s : sys) : Prop := {
  si_cpu i : cpu_inv (cpus s i);
  si_lock l : lock_inv s l
}.

Lemma sys_inv0 : sys_inv sys0.
Proof.
  split.
  - intros i. split; try done; [constructor|by intros l [?|?]].
  - intros l. assert (∀ x : nat, x ∉ []) as Hn by (intros x; apply not_elem_of_nil).
    split; cbn.
    + split; [done|]. intros (i & [?|[]%Hn]). done.
    + intros i j [?|[]%Hn]. done.
    + intros i. split; [done|]. intros [[]%Hn _].
Qed.

Lemma cpus_put_same i c s : cpus (put_cpu i c s) i = c.
Proof. apply fn_lookup_insert. Qed.
Lemma cpus_put_ne i j c s : i ≠ j → cpus (put_cpu i c s) j = cpus s j.
Proof. apply fn_lookup_insert_ne. Qed.

(** A step that changes one CPU and no lock keeps the locks' invariant when
    the CPU owns the same locks and is at [RelUnlock] for none. *)
Lemma sys_inv_local i c s :
  sys_inv s → cpu_inv c → held c = held (cpus s i) →
  (∀ l, pc c = AcqRecord l ↔ pc (cpus s i) = AcqRecord l) →
  (∀ l, pc c = RelUnlock l ↔ pc (cpus s i) = RelUnlock l) →
  sys_inv (put_cpu i c s).
Proof.
  intros [HC HL] Hc Hh Hr Hu. split.
  - intros j. destruct (decide (i = j)) as [<-|Hne]; [by rewrite cpus_put_same|by rewrite cpus_put_ne].
  - intros l. assert (∀ j, owns (cpus (put_cpu i c s) j) l ↔ owns (cpus s j) l) as Ho.
    { intros j. destruct (decide (i = j)) as [<-|Hne]; [|by rewrite cpus_put_ne].
      rewrite cpus_put_same. unfold owns. by rewrite Hh, Hr. }
    destruct (HL l) as [L1 L2 L3]. split.
    + cbn [lks put_cpu]. rewrite L1. by setoid_rewrite Ho.
    + intros j k. rewrite !Ho. apply L2.
    + intros j. cbn [lks put_cpu]. rewrite L3.
      destruct (decide (i = j)) as [<-|Hne]; [|by rewrite cpus_put_ne].
      rewrite cpus_put_same, Hh, Hu. done.
Qed.

(** A step of CPU [i] that changes lock [l] only. *)
Lemma sys_inv_lock i c l k s :
  sys_inv s → cpu_inv c →
  (∀ l', l' ≠ l → (owns c l' ↔ owns (cpus s i) l') ∧
     (l' ∈ held c ∧ pc c ≠ RelUnlock l' ↔ l' ∈ held (cpus s i) ∧ pc (cpus s i) ≠ RelUnlock l')) →
  lock_inv (put_cpu i c (put_lock l k s)) l → sys_inv (put_cpu i c (put_lock l k s)).
Proof.
  intros [HC HL] Hc Ho Hl. split.
  - intros j. destruct (decide (i = j)) as [<-|Hne]; [by rewrite cpus_put_same|rewrite cpus_put_ne; [apply HC|done]].
  - intros l'. destruct (decide (l' = l)) as [->|Hne]; [done|]. destruct (Ho l' Hne) as [Ho1 Ho2].
    assert (∀ j, owns (cpus (put_cpu i c (put_lock l k s)) j) l' ↔ owns (cpus s j) l') as Hj.
    { intros j. destruct (decide (i = j)) as [<-|Hn]; [by rewrite cpus_put_same|by rewrite cpus_put_ne]. }
    assert (lks (put_cpu i c (put_lock l k s)) l' = lks s l') as Hk.
    { apply fn_lookup_insert_ne. done. }
    destruct (HL l') as [L1 L2 L3]. split.
    + rewrite Hk, L1. by setoid_rewrite Hj.
    + intros j j'. rewrite !Hj. apply L2.
    + intros j. rewrite Hk, L3. destruct (decide (i = j)) as [<-|Hn]; [|by rewrite cpus_put_ne].
      by rewrite cpus_put_same.
Qed.

(** ** Every step keeps it *)

(** [naive_solver] without the invariant's own clauses. *)
Ltac lk_solver :=
  repeat match goal with
  | H : sys_inv _ |- _ => clear H
  | H : cpu_inv _ |- _ => clear H
  | H : lk_locked _ = true ↔ _ |- _ => clear H
  | H : ∀ i, lk_cpu _ = Some i ↔ _ |- _ => clear H
  | H : ∀ i j, owns _ _ → owns _ _ → _ |- _ => clear H
  end; naive_solver.

Lemma cpu_inv_pc c p :
  cpu_inv c → extra p = extra (pc c) →
  (∀ l, p = AcqRecord l ∨ p = AcqSwap l → l ∉ held c) →
  (∀ l, p = RelClear l ∨ p = RelUnlock l → l ∈ held c) → cpu_inv (set_pc p c).
Proof.
  intros [C1 C2 C3 C4 C5 C6] He H1 H2. split; cbn; [done|auto..|congruence|done].
Qed.

Lemma cpu_inv_push c l : cpu_inv c → pc c = Idle → cpu_inv (set_pc (AcqLocked l) (push_off c)).
Proof.
  intros [C1 C2 C3 C4 C5 C6] Hp. rewrite Hp in C5. cbn in C5.
  split; cbn; try done; [by intros l' [?|?]|lia].
Qed.

Lemma cpu_inv_pop c c' : cpu_inv c → pc c = RelPop → pop_off c = Next c' → cpu_inv (set_pc Idle c').
Proof.
  intros [C1 C2 C3 C4 C5 C6] Hp. rewrite Hp in C5. cbn in C5. unfold pop_off.
  rewrite C6 by lia. destruct (noff c <? 1) eqn:E; zbool; [done|]. intros [= <-].
  split; cbn; try done; [by intros l' [?|?]|lia|].
  intros H. destruct (noff c - 1 =? 0) eqn:E'; zbool; [lia|done].
Qed.

Lemma goto_inv i p s :
  sys_inv s → extra p = extra (pc (cpus s i)) →
  (∀ l, p = AcqSwap l → l ∉ held (cpus s i)) →
  (∀ l, p = RelClear l → l ∈ held (cpus s i)) →
  (∀ l, p ≠ AcqRecord l ∧ p ≠ RelUnlock l) →
  (∀ l, pc (cpus s i) ≠ AcqRecord l ∧ pc (cpus s i) ≠ RelUnlock l) → sys_inv (goto i p s).
Proof.
  intros Hs He H1 H2 H3 H4. apply sys_inv_local; try done.
  - apply cpu_inv_pc; [apply Hs|done| |]; intros l [Hl|Hl]; try by eauto.
    + by destruct (H3 l).
    + by destruct (H3 l).
  - intros l. cbn. destruct (H3 l), (H4 l). done.
  - intros l. cbn. destruct (H3 l), (H4 l). done.
Qed.

(** The swap that finds the lock free. *)
Lemma swap_inv i l s :
  sys_inv s → pc (cpus s i) = AcqSwap l → lk_locked (lks s l) = false →
  sys_inv (goto i (AcqRecord l) (put_lock l (mk_spinlock true (lk_cpu (lks s l))) s)).
Proof.
  intros Hs Hp Hl. pose proof (si_cpu _ Hs i) as Hc. destruct (si_lock _ Hs l) as [L1 L2 L3].
  assert (∀ j, ¬ owns (cpus s j) l) as Hno.
  { intros j Hj. assert (lk_locked (lks s l) = true) by (apply L1; eauto). congruence. }
  unfold goto. cbn [cpus put_lock]. apply sys_inv_lock; [done| | |].
  - apply cpu_inv_pc; [done|by rewrite Hp| |].
    + intros l' [[= <-]|?]; [by apply (ci_swap _ Hc)|done].
    + by intros l' [?|?].
  - intros l' Hne. unfold owns. cbn. rewrite Hp. split; [|by split; intros []].
    split; (intros [?|?]; [congruence|by right]).
  - assert (∀ j, owns (cpus (put_cpu i (set_pc (AcqRecord l) (cpus s i)) (put_lock l (mk_spinlock true (lk_cpu (lks s l))) s)) j) l → j = i) as Hi.
    { intros j. destruct (decide (i = j)) as [<-|Hne]; [done|]. rewrite cpus_put_ne by done. by intros []%Hno. }
    split.
    + cbn [lks put_cpu put_lock]. rewrite fn_lookup_insert. split; [|done]. intros _. exists i.
      rewrite cpus_put_same. by left.
    + intros j k Hj%Hi Hk%Hi. congruence.
    + intros j. cbn [lks put_cpu put_lock]. rewrite fn_lookup_insert. cbn [lk_cpu]. rewrite L3.
      split; [intros [H _]; destruct (Hno j); by right|].
      destruct (decide (i = j)) as [<-|Hne]; [rewrite cpus_put_same|rewrite cpus_put_ne by done; done].
      cbn. intros [H _]. destruct (Hno i). by right.
Qed.

Lemma record_inv i l s :
  sys_inv s → pc (cpus s i) = AcqRecord l →
  sys_inv (put_cpu i (set_pc Idle (set_held (l :: held (cpus s i)) (cpus s i)))
            (put_lock l (mk_spinlock (lk_locked (lks s l)) (Some i)) s)).
Proof.
  intros Hs Hp. pose proof (si_cpu _ Hs i) as Hc. destruct (si_lock _ Hs l) as [L1 L2 L3].
  assert (owns (cpus s i) l) as Hi by (by left).
  apply sys_inv_lock; [done| | |].
  - destruct Hc as [C1 C2 C3 C4 C5 C6]. rewrite Hp in C5. cbn in C5.
    split; cbn; try done; [constructor; auto|by intros l' [?|?]|lia].
  - intros l' Hne. unfold owns. cbn. rewrite elem_of_cons, Hp. split; [|lk_solver].
    split; [intros [?|[?|?]]; lk_solver|intros [?|?]; lk_solver].
  - set (s' := put_cpu _ _ _).
    assert (∀ j, owns (cpus s' j) l ↔ owns (cpus s j) l) as Hj.
    { intros j. unfold s'. destruct (decide (i = j)) as [<-|Hne]; [|by rewrite cpus_put_ne].
      rewrite cpus_put_same. unfold owns. cbn. rewrite elem_of_cons. lk_solver. }
    split.
    + unfold s'. cbn [lks put_cpu put_lock]. rewrite fn_lookup_insert. cbn [lk_locked]. rewrite L1.
      fold s'. by setoid_rewrite Hj.
    + intros j k. rewrite !Hj. apply L2.
    + intros j. unfold s'. cbn [lks put_cpu put_lock]. rewrite fn_lookup_insert. cbn [lk_cpu].
      destruct (decide (i = j)) as [<-|Hne].
      * rewrite cpus_put_same. cbn. split; [|done]. intros _. split; [left|done].
      * rewrite cpus_put_ne by done. split; [congruence|]. intros [H _].
        destruct Hne. apply L2; [done|by right].
Qed.

Lemma clear_inv i l s :
  sys_inv s → pc (cpus s i) = RelClear l →
  sys_inv (goto i (RelUnlock l) (put_lock l (mk_spinlock (lk_locked (lks s l)) None) s)).
Proof.
  intros Hs Hp. pose proof (si_cpu _ Hs i) as Hc. destruct (si_lock _ Hs l) as [L1 L2 L3].
  assert (l ∈ held (cpus s i)) as Hi by (apply (ci_clear _ Hc); by left).
  unfold goto. cbn [cpus put_lock]. apply sys_inv_lock; [done| | |].
  - apply cpu_inv_pc; [done|by rewrite Hp|by intros l' [?|?]|]. intros l' [?|[= <-]]; done.
  - intros l' Hne. unfold owns. cbn. rewrite Hp. lk_solver.
  - set (s' := put_cpu _ _ _).
    assert (∀ j, owns (cpus s' j) l ↔ owns (cpus s j) l) as Hj.
    { intros j. unfold s'. destruct (decide (i = j)) as [<-|Hne]; [|by rewrite cpus_put_ne].
      rewrite cpus_put_same. unfold owns. cbn. lk_solver. }
    split.
    + unfold s'. cbn [lks put_cpu put_lock]. rewrite fn_lookup_insert. cbn [lk_locked]. rewrite L1.
      fold s'. by setoid_rewrite Hj.
    + intros j k. rewrite !Hj. apply L2.
    + intros j. unfold s'. cbn [lks put_cpu put_lock]. rewrite fn_lookup_insert. cbn [lk_cpu].
      split; [done|]. intros [H1 H2].
      destruct (decide (i = j)) as [<-|Hne]; [rewrite cpus_put_same in H2; by destruct H2|].
      rewrite cpus_put_ne in H1 by done. destruct Hne. apply L2; by right.
Qed.

Lemma filter_ne_length (l : nat) (h : list nat) :
  NoDup h → l ∈ h → length h = S (length (filter (λ x, x ≠ l) h)).
Proof.
  induction h as [|x h IH]; intros Hd Hl; [by apply not_elem_of_nil in Hl|].
  apply NoDup_cons in Hd as [Hx Hd]. rewrite filter_cons. destruct (decide (x = l)) as [->|Hne].
  - rewrite decide_False by lk_solver. cbn. f_equal. clear IH Hd Hl.
    induction h as [|y h IH]; [done|]. apply not_elem_of_cons in Hx as [H1 H2].
    rewrite filter_cons, decide_True by done. cbn. f_equal. by apply IH.
  - rewrite decide_True by done. cbn. f_equal. apply IH; [done|]. by apply elem_of_cons in Hl as [?|?].
Qed.

Lemma unlock_inv i l s :
  sys_inv s → pc (cpus s i) = RelUnlock l →
  sys_inv (put_cpu i (set_pc RelPop (set_held (filter (λ x, x ≠ l) (held (cpus s i))) (cpus s i)))
            (put_lock l (mk_spinlock false (lk_cpu (lks s l))) s)).
Proof.
  intros Hs Hp. pose proof (si_cpu _ Hs i) as Hc. destruct (si_lock _ Hs l) as [L1 L2 L3].
  assert (l ∈ held (cpus s i)) as Hi by (apply (ci_clear _ Hc); by right).
  apply sys_inv_lock; [done| | |].
  - destruct Hc as [C1 C2 C3 C4 C5 C6]. rewrite Hp in C5. cbn in C5.
    pose proof (filter_ne_length l _ C1 Hi).
    split; cbn; try done; [by apply NoDup_filter|by intros l' [?|?]|lia].
  - intros l' Hne. unfold owns. cbn. rewrite list_elem_of_filter, Hp. lk_solver.
  - set (s' := put_cpu _ _ _).
    assert (∀ j, ¬ owns (cpus s' j) l) as Hj.
    { intros j. unfold s'. destruct (decide (i = j)) as [<-|Hne].
      - rewrite cpus_put_same. unfold owns. cbn. rewrite list_elem_of_filter. lk_solver.
      - rewrite cpus_put_ne by done. intros H. destruct Hne. apply L2; [by right|done]. }
    split.
    + unfold s'. cbn [lks put_cpu put_lock]. rewrite fn_lookup_insert. cbn [lk_locked]. fold s'.
      split; [done|]. intros (j & H). by destruct (Hj j).
    + intros j k H. by destruct (Hj j).
    + intros j. unfold s'. cbn [lks put_cpu put_lock]. rewrite fn_lookup_insert. cbn [lk_cpu]. fold s'.
      rewrite L3. split.
      * intros [H1 H2]. assert (i = j) as -> by (apply L2; by right). congruence.
      * intros [H1 _]. destruct (Hj j). by right.
Qed.

(** ** Panics *)

(** [holding] tells the truth. *)
Lemma holding_iff i l s :
  sys_inv s → pc (cpus s i) ≠ RelUnlock l → lk_cpu (lks s l) = Some i ↔ l ∈ held (cpus s i).
Proof. intros Hs Hp. rewrite (li_cpu _ _ (si_lock _ Hs l)). lk_solver. Qed.

Lemma held_locked i l s : sys_inv s → l ∈ held (cpus s i) → lk_locked (lks s l) = true.
Proof. intros Hs Hl. apply (li_locked _ _ (si_lock _ Hs l)). exists i. by right. Qed.

Lemma step_inv i e s s' : sys_inv s → step i e s = Next s' → sys_inv s'.
Proof.
  intros Hs. pose proof (si_cpu _ Hs i) as Hc. unfold step, run.
  destruct e as [l|l|b|].
  - destruct (pc (cpus s i)) eqn:Hp; intros [= <-]; try done.
    apply sys_inv_local; [done|by apply cpu_inv_push|done|cbn; by rewrite Hp..].
  - destruct (pc (cpus s i)) eqn:Hp; intros [= <-]; try done.
    apply goto_inv; [done|by rewrite Hp|done..|by rewrite Hp].
  - destruct (pc (cpus s i)) eqn:Hp; [|by intros [= <-]..].
    destruct (noff (cpus s i) =? 0) eqn:E; intros [= <-]; [|done]. zbool.
    apply sys_inv_local; [done| |done|by cbn; rewrite Hp..].
    destruct Hc as [C1 C2 C3 C4 C5 C6]. split; cbn; try done; [by intros l' [?|?]| |lia].
    by rewrite Hp in C5.
  - destruct (pc (cpus s i)) as [|l|l|l|l|l|l|l|l|] eqn:Hp; try (intros [= <-]); try done.
    + destruct (lk_locked (lks s l)) eqn:El; apply goto_inv; rewrite ?Hp; try done.
      intros l' [= <-]. intros H. pose proof (held_locked _ _ _ Hs H). congruence.
    + case_bool_decide as Hb; [done|]. intros [= <-]. apply goto_inv; rewrite ?Hp; try done.
      intros l' [= <-]. rewrite <- (holding_iff i l s); [done|done|by rewrite Hp].
    + destruct (lk_locked (lks s l)) eqn:El; intros [= <-]; [done|]. by apply swap_inv.
    + by apply record_inv.
    + destruct (lk_locked (lks s l)) eqn:El; [|done]. intros [= <-]. apply goto_inv; rewrite ?Hp; try done.
    + case_bool_decide as Hb; [|done]. intros [= <-]. apply goto_inv; rewrite ?Hp; try done.
      intros l' [= <-]. by apply (holding_iff i l s); [|rewrite Hp|].
    + by apply clear_inv.
    + by apply unlock_inv.
    + destruct (pop_off (cpus s i)) as [c'|] eqn:Ep; [|done]. intros [= <-].
      assert (held c' = held (cpus s i)) as Hh.
      { unfold pop_off in Ep. destruct (sie (cpus s i)); [done|].
        destruct (noff (cpus s i) <? 1); [done|]. by injection Ep as <-. }
      apply sys_inv_local; [done|by eapply cpu_inv_pop|done|by cbn; rewrite Hp..].
Qed.

Lemma steps_inv es s s' : sys_inv s → steps es s = Next s' → sys_inv s'.
Proof.
  revert s. induction es as [|[i e] es IH]; intros s Hs; cbn; [by intros [= <-]|].
  destruct (step i e s) as [s1|] eqn:E; [|done]. intros H. eapply IH; [|done]. by eapply step_inv.
Qed.

Lemma reachable_inv s : reachable s → sys_inv s.
Proof. intros [es H]. eapply steps_inv; [apply sys_inv0|done]. Qed.

(** ** Interrupts *)

(** Whether interrupts were on when CPU [i]'s critical section began. *)
Definition outer_sie (c : cpu) : bool := if noff c =? 0 then sie c else intena c.

Lemma step_outer i e j s s' :
  sys_inv s → step i e s = Next s' → (i = j → ∀ b, e ≠ SetIntr b) →
  outer_sie (cpus s' j) = outer_sie (cpus s j).
Proof.
  intros Hs. destruct (decide (i = j)) as [<-|Hne]; cycle 1.
  { intros H _. assert (cpus s' j = cpus s j) as ->; [|done]. revert H. unfold step, run, goto.
    repeat case_match; intros [= <-]; try done; by rewrite cpus_put_ne. }
  intros H He. specialize (He eq_refl). pose proof (si_cpu _ Hs i) as [_ _ _ _ C5 C6].
  revert H. unfold step, run, goto, put_lock.
  destruct e as [l|l|b|]; [| |by destruct (He b)|].
  - destruct (pc (cpus s i)) eqn:Hp; intros [= <-]; try done. rewrite cpus_put_same.
    unfold outer_sie. cbn. destruct (noff (cpus s i) =? 0) eqn:E; zbool.
    + rewrite E. done.
    + by rewrite (proj2 (Z.eqb_neq _ _)) by (cbn in C5; lia).
  - destruct (pc (cpus s i)); intros [= <-]; try done. by rewrite cpus_put_same.
  - destruct (pc (cpus s i)) eqn:Hp; repeat case_match; intros [= <-]; try done;
      try (by rewrite cpus_put_same).
    rewrite cpus_put_same. cbn in C5. unfold outer_sie, pop_off in *. rewrite C6 in * by lia.
    destruct (noff (cpus s i) <? 1) eqn:E; zbool; [done|].
    match goal with H : Next _ = Next _ |- _ => injection H as <- end. cbn.
    rewrite (proj2 (Z.eqb_neq (noff (cpus s i)) 0)) by lia.
    destruct (noff (cpus s i) - 1 =? 0), (intena (cpus s i)); done.
Qed.

Lemma steps_outer es j s s' :
  sys_inv s → steps es s = Next s' → (∀ b, (j, SetIntr b) ∉ es) →
  outer_sie (cpus s' j) = outer_sie (cpus s j).
Proof.
  revert s. induction es as [|[i e] es IH]; intros s Hs; cbn; [by intros [= <-]|].
  destruct (step i e s) as [s1|] eqn:E; [|done]. intros H Hn.
  rewrite (IH s1); [|by eapply step_inv|done|].
  - eapply step_outer; [done..|]. intros -> b ->. apply (Hn b). left.
  - intros b Hb. apply (Hn b). by right.
Qed.

(** ** Theorems *)

(** C4: Mutual exclusion: whatever the interleaving of the CPUs' accesses,
    two CPUs never hold the same spinlock. *)
Theorem mutual_exclusion s i j l :
  reachable s → l ∈ held (cpus s i) → l ∈ held (cpus s j) → i = j.
Proof. intros Hr Hi Hj. apply (li_uniq _ _ (si_lock _ (reachable_inv _ Hr) l)); by right. Qed.

(** [acquire] panics exactly when the CPU already holds the lock,
    [release] exactly when it does not, and nothing else in the two routines
    panics ([pop_off] in particular): in every reachable state, [acquire] of a
    held lock goes on to [holding]'s second read and panics there, [release]
    of a lock not held panics at the latest there, and a panic at any access
    is one of these two. *)
Theorem panics_on_misuse s i :
  reachable s →
  (∀ l, pc (cpus s i) = AcqLocked l → l ∈ held (cpus s i) → step i Run s = Next (goto i (AcqCpu l) s)) ∧
  (∀ l, pc (cpus s i) = AcqCpu l → l ∈ held (cpus s i) → step i Run s = Panics "acquire") ∧
  (∀ l, pc (cpus s i) = RelCpu l → l ∉ held (cpus s i) → step i Run s = Panics "release") ∧
  ∀ msg, step i Run s = Panics msg →
    (msg = "acquire" ∧ ∃ l, pc (cpus s i) = AcqCpu l ∧ l ∈ held (cpus s i)) ∨
    (msg = "release" ∧ ∃ l, (pc (cpus s i) = RelLocked l ∨ pc (cpus s i) = RelCpu l) ∧
       l ∉ held (cpus s i)).
Proof.
  intros Hr%reachable_inv. unfold step, run. pose proof (si_cpu _ Hr i) as [_ _ _ _ C5 C6].
  split_and!.
  - intros l -> Hl. by rewrite (held_locked _ _ _ Hr Hl).
  - intros l Hp Hl. rewrite Hp, bool_decide_true; [done|].
    apply (holding_iff i l s); [done|by rewrite Hp|done].
  - intros l Hp Hl. rewrite Hp, bool_decide_false; [done|].
    rewrite (holding_iff i l s); [done|done|by rewrite Hp].
  - intros msg.
    destruct (pc (cpus s i)) as [|l|l|l|l|l|l|l|l|] eqn:Hp; repeat case_match; try done; intros [= <-].
    + left. split; [done|]. exists l. split; [done|]. apply (holding_iff i l s); [done|by rewrite Hp|].
      by eapply bool_decide_eq_true.
    + right. split; [done|]. exists l. split; [by left|]. intros Hl.
      pose proof (held_locked _ _ _ Hr Hl). congruence.
    + right. split; [done|]. exists l. split; [by right|].
      rewrite <- (holding_iff i l s); [|done|by rewrite Hp]. by eapply bool_decide_eq_false.
    + unfold pop_off in *. rewrite C6 in * by (cbn in *; lia).
      destruct (noff (cpus s i) <? 1) eqn:E; [|done]. zbool. cbn in C5. lia.
Qed.

(** C38: Interrupts are off while a CPU holds a lock, and once it has
    released all its locks they are as they were before the first one: over
    any run in which CPU [j] does not itself switch interrupts outside of
    critical sections, from a state where it holds no lock to another such
    state, its interrupt flag is unchanged. *)
Theorem interrupts_restored s s' es j :
  reachable s → steps es s = Next s' → (∀ b, (j, SetIntr b) ∉ es) →
  (held (cpus s' j) ≠ [] → sie (cpus s' j) = false) ∧
  (pc (cpus s j) = Idle → held (cpus s j) = [] → pc (cpus s' j) = Idle → held (cpus s' j) = [] →
   sie (cpus s' j) = sie (cpus s j)).
Proof.
  intros Hr%reachable_inv Hst Hn. pose proof (steps_inv _ _ _ Hr Hst) as Hr'.
  pose proof (si_cpu _ Hr j) as [_ _ _ _ C5 _]. pose proof (si_cpu _ Hr' j) as [_ _ _ _ D5 D6].
  split.
  - intros Hh. apply D6. destruct (held (cpus s' j)); [done|]. cbn in D5. destruct (pc (cpus s' j)); cbn in D5; lia.
  - intros P1 H1 P2 H2. rewrite P1, H1 in C5. rewrite P2, H2 in D5. cbn in C5, D5.
    pose proof (steps_outer _ j _ _ Hr Hst Hn) as Ho. unfold outer_sie in Ho. by rewrite C5, D5 in Ho.
Qed.

(** ** Witnesses: CPU 1 spins while CPU 0 is in its critical section *)

Definition contend : list (nat * event) :=
  [(0, SetIntr true); (0, Acquire 7); (1, Acquire 7); (0, Run); (1, Run); (0, Run); (1, Run); (0, Run); (1, Run)]%nat.
Definition finish : list (nat * event) :=
  [(0, Release 7); (0, Run); (0, Run); (0, Run); (0, Run); (0, Run); (1, Run); (1, Run)]%nat.
Definition run_of (es : list (nat * event)) : sys :=
  match steps es sys0 with Next s => s | Panics _ => sys0 end.

Lemma mutual_exclusion_witness :
  reachable (run_of contend) ∧ (7 ∈ held (cpus (run_of contend) 0))%nat ∧
  ∀ j, (7 ∈ held (cpus (run_of contend) j))%nat → 0%nat = j.
Proof.
  assert (reachable (run_of contend)) as Hr by (exists contend; vm_compute; reflexivity).
  assert (7 ∈ held (cpus (run_of contend) 0))%nat as H7 by (vm_compute; left).
  split; [exact Hr|]. split; [exact H7|].
  intros j Hj. exact (mutual_exclusion _ 0 j 7 Hr H7 Hj).
Defined.

Lemma panics_on_misuse_witness :
  ∃ s, (∃ es, steps es sys0 = Next s) ∧ step 0 Run s = Panics "acquire" ∧
    ∃ l, pc (cpus s 0%nat) = AcqCpu l ∧ l ∈ held (cpus s 0%nat).
Proof.
  pose (es := contend ++ [(0, Acquire 7); (0, Run)]%nat).
  assert (reachable (run_of es)) as Hr by (exists es; vm_compute; reflexivity).
  assert (step 0 Run (run_of es) = Panics "acquire") as Hp by (vm_compute; reflexivity).
  exists (run_of es). split; [exact Hr|]. split; [exact Hp|].
  destruct (panics_on_misuse _ 0 Hr) as (_ & _ & _ & H).
  destruct (H _ Hp) as [[_ H']|[H' _]]; [exact H'|discriminate H'].
Defined.

Lemma interrupts_restored_witness :
  ∃ s, steps (tail contend ++ finish) (run_of [(0%nat, SetIntr true)]) = Next s ∧
    held (cpus s 1) = [7%nat] ∧ sie (cpus s 1) = false ∧ sie (cpus s 0%nat) = true.
Proof.
  pose (s0 := run_of [(0%nat, SetIntr true)]).
  assert (reachable s0) as Hr by (exists [(0%nat, SetIntr true)]; vm_compute; reflexivity).
  pose (s := run_of (contend ++ finish)).
  assert (steps (tail contend ++ finish) s0 = Next s) as Hs by (vm_compute; reflexivity).
  assert (∀ j b, ((j, SetIntr b) : nat * event) ∉ tail contend ++ finish) as Hn.
  { intros j b H. repeat (apply elem_of_cons in H as [H|H]; [discriminate H|]). exact (not_elem_of_nil _ H). }
  exists s. split; [exact Hs|]. split; [vm_compute; reflexivity|]. split.
  - apply (proj1 (interrupts_restored s0 s _ 1 Hr Hs (Hn _))). vm_compute. discriminate.
  - refine (eq_trans (proj2 (interrupts_restored s0 s _ 0 Hr Hs (Hn _)) _ _ _ _) _);
      [vm_compute; reflexivity..].
Defined.

End Smp.
