(* ===== verification/VirtioDisk.v ===== *)
(** * kernel/virtio_disk.c: the disk driver's descriptors

    The driver's own state ([struct disk]): eight DMA descriptors, the rings
    shared with the device, and the table of requests in flight.  Several
    processes may be inside [virtio_disk_rw] at once, each asleep in one of
    its two waits; [vdisk_lock] makes everything between two waits atomic.
    [vstep] is the resulting transition system: a process submits a request,
    the device completes one, the interrupt handler runs, a process woken up
    frees its descriptors.

    The device is the environment: all that is assumed of it is that it
    completes requests it was given, once each, with status 0, in any order.
    [vinv] is the invariant of reachable states.  The theorems: descriptors
    are never leaked nor shared, the driver's panics are unreachable, and the
    handler reports every completed request to the right buffer. *)

From S2P Require Import Prelude.

Module Virtio.

(** ** State *)

Definition NUM : nat := 8.
Definition VRING_DESC_F_NEXT : Z := 1.
Definition VRING_DESC_F_WRITE : Z := 2.
Definition VIRTIO_BLK_T_IN : Z := 0.
Definition VIRTIO_BLK_T_OUT : Z := 1.
Definition BSIZE : Z := 1024.

(** What a descriptor's address points to: nothing, the header [ops[i]], the
    data of buffer [b], or the byte [info[i].status]. *)
Inductive dma := DmaNull | DmaOp (i : nat) | DmaData (b : nat) | DmaStatus (i : nat).
Record virtq_desc := mk_desc { d_addr : dma; d_len : Z; d_flags : Z; d_next : nat }.
Record virtio_blk_req := mk_req { rq_type : Z; rq_reserved : Z; rq_sector : Z }.

(** [dev_idx] is [disk.used->idx], which the device increments; [busy b] is
    [b->disk]. *)
Record vdisk := mk_vdisk {
  desc : list virtq_desc;
  avail_ring : list nat;
  avail_idx : Z;
  used_ring : list nat;
  dev_idx : Z;
  free : list bool;
  used_idx : Z;
  info_b : list (option nat);
  info_status : list Z;
  ops : list virtio_blk_req;
  busy : gmap nat bool
}.
Definition set_desc g d := mk_vdisk (g (desc d)) (avail_ring d) (avail_idx d) (used_ring d) (dev_idx d) (free d) (used_idx d) (info_b d) (info_status d) (ops d) (busy d).
Definition set_avail g i d := mk_vdisk (desc d) (g (avail_ring d)) i (used_ring d) (dev_idx d) (free d) (used_idx d) (info_b d) (info_status d) (ops d) (busy d).
Definition set_used g i d := mk_vdisk (desc d) (avail_ring d) (avail_idx d) (g (used_ring d)) i (free d) (used_idx d) (info_b d) (info_status d) (ops d) (busy d).
Definition set_free g d := mk_vdisk (desc d) (avail_ring d) (avail_idx d) (used_ring d) (dev_idx d) (g (free d)) (used_idx d) (info_b d) (info_status d) (ops d) (busy d).
Definition set_used_idx i d := mk_vdisk (desc d) (avail_ring d) (avail_idx d) (used_ring d) (dev_idx d) (free d) i (info_b d) (info_status d) (ops d) (busy d).
Definition set_info_b g d := mk_vdisk (desc d) (avail_ring d) (avail_idx d) (used_ring d) (dev_idx d) (free d) (used_idx d) (g (info_b d)) (info_status d) (ops d) (busy d).
Definition set_info_status g d := mk_vdisk (desc d) (avail_ring d) (avail_idx d) (used_ring d) (dev_idx d) (free d) (used_idx d) (info_b d) (g (info_status d)) (ops d) (busy d).
Definition set_ops g d := mk_vdisk (desc d) (avail_ring d) (avail_idx d) (used_ring d) (dev_idx d) (free d) (used_idx d) (info_b d) (info_status d) (g (ops d)) (busy d).
Definition set_busy g d := mk_vdisk (desc d) (avail_ring d) (avail_idx d) (used_ring d) (dev_idx d) (free d) (used_idx d) (info_b d) (info_status d) (ops d) (g (busy d)).

(** What a process in the driver sleeps on: [&disk.free[0]] or a buffer. *)
Inductive vchan := VFree | VBuf (b : nat).
Abbreviation V := (M vchan vdisk).
(** [wakeup] makes the sleepers runnable; which process runs next is the
    scheduler's choice, so it leaves no trace here. *)
Definition vwakeup (c : vchan) : V () := mret ().
Definition vsleep (c : vchan) : V () := λ d, Sleep c d (λ d', Ok () d').

Definition desc0 : virtq_desc := mk_desc DmaNull 0 0 0.
Definition is_busy (b : nat) (d : vdisk) : bool := default false (busy d !! b).

(** ** Descriptors *)

Fixpoint alloc_desc_loop (n i : nat) : V (option nat) :=
  match n with
  | O => mret None
  | S n =>
      f ← gets free;
      if nth i f false then modify (set_free (<[i := false]>));; mret (Some i)
      else alloc_desc_loop n (S i)
  end.
Definition alloc_desc : V (option nat) := alloc_desc_loop NUM 0.

Definition free_desc (i : nat) : V () :=
  if (NUM <=? i)%nat then panic "free_desc 1" else
  f ← gets free;
  if nth i f false then panic "free_desc 2" else
  modify (set_desc (<[i := desc0]>));;
  modify (set_free (<[i := true]>));;
  vwakeup VFree.

Fixpoint free_chain (fuel : nat) (i : nat) : V () :=
  match fuel with
  | O => nofuel
  | S fuel =>
      D ← gets desc;
      let x := nth i D desc0 in
      free_desc i;;
      if nz (Z.land (d_flags x) VRING_DESC_F_NEXT) then free_chain fuel (d_next x) else mret ()
  end.

Fixpoint free_descs (l : list nat) : V () :=
  match l with [] => mret () | i :: l => free_desc i;; free_descs l end.
(** [n] descriptors still wanted; [got] those already allocated. *)
Fixpoint alloc3_loop (n : nat) (got : list nat) : V (option (list nat)) :=
  match n with
  | O => mret (Some got)
  | S n =>
      i ← alloc_desc;
      match i with
      | Some i => alloc3_loop n (got ++ [i])
      | None => free_descs got;; mret None
      end
  end.
Definition alloc3_desc : V (option (list nat)) := alloc3_loop 3 [].

(** ** virtio_disk_rw *)

Fixpoint alloc_wait (fuel : nat) : V (list nat) :=
  match fuel with
  | O => nofuel
  | S fuel =>
      r ← alloc3_desc;
      match r with
      | Some idx => mret idx
      | None => vsleep VFree;; alloc_wait fuel
      end
  end.

Definition fmt_desc (i : nat) (x : virtq_desc) : V () := modify (set_desc (<[i := x]>)).
(** From "format the three descriptors" to the notification. *)
Definition submit (i0 i1 i2 b : nat) (blockno : Z) (write : bool) : V () :=
  let sector := u32 (blockno * (BSIZE / 512)) in
  modify (set_ops (<[i0 := mk_req (if write then VIRTIO_BLK_T_OUT else VIRTIO_BLK_T_IN) 0 sector]>));;
  fmt_desc i0 (mk_desc (DmaOp i0) 16 VRING_DESC_F_NEXT i1);;
  fmt_desc i1 (mk_desc (DmaData b) BSIZE
    (Z.lor (if write then 0 else VRING_DESC_F_WRITE) VRING_DESC_F_NEXT) i2);;
  modify (set_info_status (<[i0 := 0xff]>));;
  fmt_desc i2 (mk_desc (DmaStatus i0) 1 VRING_DESC_F_WRITE 0);;
  modify (set_busy (<[b := true]>));;
  modify (set_info_b (<[i0 := Some b]>));;
  a ← gets avail_idx;
  modify (set_avail (<[Z.to_nat (a mod Z.of_nat NUM) := i0]>) (u16 (a + 1))).

Fixpoint wait_done (fuel : nat) (b : nat) : V () :=
  match fuel with
  | O => nofuel
  | S fuel => w ← gets (is_busy b); if (w : bool) then vsleep (VBuf b);; wait_done fuel b else mret ()
  end.
Definition finish (i0 : nat) : V () :=
  modify (set_info_b (<[i0 := None]>));; free_chain NUM i0.

(** [fuel] bounds the wake-ups in each of the two waits. *)
Definition virtio_disk_rw (fuel : nat) (b : nat) (blockno : Z) (write : bool) : V () :=
  idx ← alloc_wait fuel;
  match idx with
  | [i0; i1; i2] => submit i0 i1 i2 b blockno write;; wait_done fuel b;; finish i0
  | _ => mret ()
  end.

(** ** virtio_disk_intr *)

Fixpoint intr_loop (fuel : nat) : V () :=
  match fuel with
  | O => nofuel
  | S fuel =>
      d ← gets (λ d, d);
      if used_idx d =? dev_idx d then mret () else
      let id := nth (Z.to_nat (used_idx d mod Z.of_nat NUM)) (used_ring d) 0%nat in
      if negb (nth id (info_status d) 0 =? 0) then panic "virtio_disk_intr status" else
      match nth id (info_b d) None with
      | None => panic "kerneltrap"
      | Some b =>
          modify (set_busy (<[b := false]>));;
          vwakeup (VBuf b);;
          modify (set_used_idx (u16 (used_idx d + 1)));;
          intr_loop fuel
      end
  end.
(** The ring has NUM entries, so at most NUM are new. *)
Definition virtio_disk_intr : V () := intr_loop (S NUM).

(** ** The driver's initial state (the end of [virtio_disk_init]) *)
Definition vdisk0 : vdisk :=
  mk_vdisk (replicate NUM desc0) (replicate NUM 0%nat) 0 (replicate NUM 0%nat) 0
    (replicate NUM true) 0 (replicate NUM None) (replicate NUM 0)
    (replicate NUM (mk_req 0 0 0)) ∅.

(** ** The transition system *)

(** A request in flight: its buffer, its descriptors, and how far it is. *)
Inductive stage := Submitted | Completed | Reported.
Record rq := mk_rq { r_b : nat; r_idx : list nat; r_stage : stage }.

Definition with_stage (st : stage) (r : rq) : rq := mk_rq (r_b r) (r_idx r) st.
Definition head_of (r : rq) : nat := nth 0 (r_idx r) 0%nat.

(** What the device does to complete the request with head [id]. *)
Definition dev_complete (id : nat) (d : vdisk) : vdisk :=
  set_used (<[Z.to_nat (dev_idx d mod Z.of_nat NUM) := id]>) (u16 (dev_idx d + 1))
    (set_info_status (<[id := 0]>) d).

(** The requests are a ghost list, oldest completion last among the
    completed ones: [q] lists the completed requests in the order of the
    used ring. *)
Inductive vstep : vdisk * list rq → vdisk * list rq → Prop :=
| vs_submit d rs b blockno write i0 i1 i2 d1 d2 :
    b ∉ r_b <$> rs →
    alloc3_desc d = Ok (Some [i0; i1; i2]) d1 →
    submit i0 i1 i2 b blockno write d1 = Ok () d2 →
    vstep (d, rs) (d2, rs ++ [mk_rq b [i0; i1; i2] Submitted])
| vs_wait d rs d1 :
    alloc3_desc d = Ok None d1 → vstep (d, rs) (d1, rs)
| vs_device d rs1 r rs2 :
    r_stage r = Submitted →
    vstep (d, rs1 ++ r :: rs2) (dev_complete (head_of r) d, rs1 ++ rs2 ++ [with_stage Completed r])
| vs_intr d rs d1 :
    virtio_disk_intr d = Ok () d1 →
    vstep (d, rs) (d1, (λ r, if r_stage r is Completed then with_stage Reported r else r) <$> rs)
| vs_finish d rs1 r rs2 d1 :
    is_busy (r_b r) d = false → finish (head_of r) d = Ok () d1 →
    vstep (d, rs1 ++ r :: rs2) (d1, rs1 ++ rs2).

Inductive vreach : vdisk * list rq → Prop :=
| vr_init : vreach (vdisk0, [])
| vr_step x y : vreach x → vstep x y → vreach y.

(** ** The invariant *)

Definition all_idx (rs : list rq) : list nat := concat (r_idx <$> rs).
Definition ix (r : rq) (j : nat) : nat := nth j (r_idx r) 0%nat.
Definition reported (r : rq) : bool := if r_stage r is Reported then true else false.
Definition completed (r : rq) : bool := if r_stage r is Completed then true else false.
(** Descriptor [x] is chained to [n]. *)
Definition chained (x : virtq_desc) (n : nat) : Prop := Z.land (d_flags x) VRING_DESC_F_NEXT = 1 ∧ d_next x = n.

Record rq_ok (d : vdisk) (r : rq) : Prop := {
  ro_len : length (r_idx r) = 3%nat;
  ro_d0 : chained (nth (ix r 0) (desc d) desc0) (ix r 1);
  ro_d1 : chained (nth (ix r 1) (desc d) desc0) (ix r 2);
  ro_d2 : Z.land (d_flags (nth (ix r 2) (desc d) desc0)) VRING_DESC_F_NEXT = 0;
  ro_b : nth (ix r 0) (info_b d) None = Some (r_b r);
  ro_busy : is_busy (r_b r) d = negb (reported r);
  ro_status : r_stage r ≠ Submitted → nth (ix r 0) (info_status d) 0 = 0
}.

Definition queue (rs : list rq) : list rq := List.filter completed rs.
Record vinv (d : vdisk) (rs : list rq) : Prop := {
  vi_len : length (desc d) = NUM ∧ length (free d) = NUM ∧ length (info_b d) = NUM ∧
    length (info_status d) = NUM ∧ length (used_ring d) = NUM;
  vi_nodup : NoDup (all_idx rs);
  vi_range i : i ∈ all_idx rs → (i < NUM)%nat;
  vi_free i : (i < NUM)%nat → nth i (free d) false = bool_decide (i ∉ all_idx rs);
  vi_bufs : NoDup (r_b <$> rs);
  vi_rq r : r ∈ rs → rq_ok d r;
  vi_idx : 0 ≤ used_idx d < 2 ^ 16 ∧ dev_idx d = u16 (used_idx d + Z.of_nat (length (queue rs)));
  vi_ring k : (k < length (queue rs))%nat →
    nth (Z.to_nat ((used_idx d + Z.of_nat k) mod Z.of_nat NUM)) (used_ring d) 0%nat =
    nth k (head_of <$> queue rs) 0%nat
}.

Lemma vinv0 : vinv vdisk0 [].
Proof.
  split; cbn; try done; try lia.
  - constructor.
  - intros i H. by apply not_elem_of_nil in H.
  - intros i Hi. rewrite bool_decide_true by apply not_elem_of_nil.
    do 8 (destruct i; [done|]). unfold NUM in Hi. lia.
  - constructor.
  - intros r H. by apply not_elem_of_nil in H.
Qed.

Lemma nth_insert {A} (l : list A) i j x y :
  (i < length l)%nat → nth j (<[i := x]> l) y = if decide (j = i) then x else nth j l y.
Proof.
  intros Hi. rewrite !nth_lookup. destruct (decide (j = i)) as [->|Hne].
  - by rewrite list_lookup_insert_eq.
  - by rewrite list_lookup_insert_ne.
Qed.

Lemma ix_elem r j : length (r_idx r) = 3%nat → (j < 3)%nat → ix r j ∈ r_idx r.
Proof.
  intros Hl Hj. unfold ix. destruct (lookup_lt_is_Some_2 (r_idx r) j) as [x Hx]; [lia|].
  rewrite (nth_lookup_Some _ _ _ _ Hx). by eapply list_elem_of_lookup_2.
Qed.

Lemma elem_all_idx i rs : i ∈ all_idx rs ↔ ∃ r, r ∈ rs ∧ i ∈ r_idx r.
Proof.
  unfold all_idx. rewrite list_elem_of_In, in_concat. setoid_rewrite <- list_elem_of_In. split.
  - intros (l & Hl & Hi). apply list_elem_of_fmap in Hl as (r & -> & Hr). eauto.
  - intros (r & Hr & Hi). exists (r_idx r). split; [by apply list_elem_of_fmap_2|done].
Qed.

(** A request's entries are not touched by changes elsewhere. *)
Lemma rq_ok_frame d d' r :
  rq_ok d r →
  (∀ i, i ∈ r_idx r → nth i (desc d') desc0 = nth i (desc d) desc0 ∧
     nth i (info_b d') None = nth i (info_b d) None ∧ nth i (info_status d') 0 = nth i (info_status d) 0) →
  is_busy (r_b r) d' = is_busy (r_b r) d → rq_ok d' r.
Proof.
  intros [R1 R2 R3 R4 R5 R6 R7] Hi Hb.
  destruct (Hi (ix r 0)) as (A0 & B0 & C0); [apply ix_elem; [done|lia]|].
  destruct (Hi (ix r 1)) as (A1 & _); [apply ix_elem; [done|lia]|].
  destruct (Hi (ix r 2)) as (A2 & _); [apply ix_elem; [done|lia]|].
  split; rewrite ?A0, ?A1, ?A2, ?B0, ?C0, ?Hb; done.
Qed.

(** ** Allocation *)

Definition first_free (f : list bool) : option nat := List.find (λ i, nth i f false) (seq 0 NUM).
Lemma alloc_desc_ok d :
  alloc_desc d = match first_free (free d) with
                 | Some i => Ok (Some i) (set_free (<[i := false]>) d)
                 | None => Ok None d
                 end.
Proof.
  unfold alloc_desc, first_free. generalize 0%nat. induction NUM as [|n IH]; intros i; [done|].
  cbn [alloc_desc_loop seq List.find]. mrun. destruct (nth i (free d) false); [done|]. apply IH.
Qed.

Lemma first_free_some f i : first_free f = Some i → (i < NUM)%nat ∧ nth i f false = true.
Proof. intros H%List.find_some. rewrite in_seq in H. naive_solver lia. Qed.
Lemma first_free_none f i : first_free f = None → (i < NUM)%nat → nth i f false = false.
Proof. intros H Hi. eapply List.find_none in H; [done|]. apply in_seq. lia. Qed.

(** The descriptors of [l] taken. *)
Definition take_descs (l : list nat) (d : vdisk) : vdisk := foldl (λ d i, set_free (<[i := false]>) d) d l.

Lemma take_descs_app l i d : take_descs (l ++ [i]) d = set_free (<[i := false]>) (take_descs l d).
Proof. unfold take_descs. by rewrite foldl_app. Qed.

Lemma take_descs_free l d i :
  length (free d) = NUM → (∀ j, j ∈ l → (j < NUM)%nat) →
  nth i (free (take_descs l d)) false = if decide (i ∈ l) then false else nth i (free d) false.
Proof.
  intros Hl. induction l as [|x l IH] using rev_ind; intros Hb; [by rewrite decide_False by apply not_elem_of_nil|].
  assert (length (free (take_descs l d)) = NUM) as Hlen.
  { clear IH Hb. induction l as [|y l IH] using rev_ind; [done|]. rewrite take_descs_app. cbn. by rewrite length_insert. }
  rewrite take_descs_app. cbn [free set_free]. rewrite nth_insert by (rewrite Hlen; apply Hb; set_solver).
  rewrite IH by set_solver. destruct (decide (i = x)) as [->|Hne]; [by rewrite decide_True by set_solver|].
  repeat case_decide; set_solver.
Qed.

Lemma take_descs_same l d :
  desc (take_descs l d) = desc d ∧ info_b (take_descs l d) = info_b d ∧
  info_status (take_descs l d) = info_status d ∧ busy (take_descs l d) = busy d ∧
  used_ring (take_descs l d) = used_ring d ∧ used_idx (take_descs l d) = used_idx d ∧
  dev_idx (take_descs l d) = dev_idx d ∧ length (free (take_descs l d)) = length (free d).
Proof.
  induction l as [|x l IH] using rev_ind; [done|]. rewrite take_descs_app. cbn.
  rewrite length_insert. done.
Qed.

(** Taking descriptors and giving them back changes nothing a request sees. *)
Definition like (d d' : vdisk) : Prop :=
  (∀ i, nth i (free d) false = false → nth i (desc d') desc0 = nth i (desc d) desc0) ∧
  (∀ i, nth i (free d') false = nth i (free d) false) ∧
  length (desc d') = length (desc d) ∧ length (free d') = length (free d) ∧
  info_b d' = info_b d ∧ info_status d' = info_status d ∧ busy d' = busy d ∧
  used_ring d' = used_ring d ∧ used_idx d' = used_idx d ∧ dev_idx d' = dev_idx d.

Lemma vinv_like d d' rs : vinv d rs → like d d' → vinv d' rs.
Proof.
  intros [V1 V2 V3 V4 V5 V6 V7 V8] (L1 & L2 & L3 & L4 & L5 & L6 & L7 & L8 & L9 & L10).
  split; rewrite ?L3, ?L4, ?L5, ?L6, ?L8, ?L9, ?L10; try done.
  - intros i Hi. rewrite L2. by apply V4.
  - intros r Hr. apply (rq_ok_frame d); [by apply V6| |unfold is_busy; by rewrite L7].
    intros i Hi. assert (i ∈ all_idx rs) as Ha by (apply elem_all_idx; eauto).
    split; [|by rewrite L5, L6]. apply L1. rewrite V4 by (by apply V3).
    apply bool_decide_false. intros Hn. by apply Hn.
Qed.

Definition give_desc (i : nat) (d : vdisk) : vdisk := set_free (<[i := true]>) (set_desc (<[i := desc0]>) d).
Definition give_descs (l : list nat) (d : vdisk) : vdisk := foldl (λ d i, give_desc i d) d l.

Lemma free_desc_ok i d :
  (i < NUM)%nat → nth i (free d) false = false → free_desc i d = Ok () (give_desc i d).
Proof.
  intros Hi Hf. unfold free_desc. replace (NUM <=? i)%nat with false by (symmetry; apply Nat.leb_gt; lia).
  mrun. rewrite Hf. done.
Qed.

Lemma give_desc_nth i d k :
  length (desc d) = NUM → length (free d) = NUM → (i < NUM)%nat →
  nth k (free (give_desc i d)) false = (if decide (k = i) then true else nth k (free d) false) ∧
  nth k (desc (give_desc i d)) desc0 = (if decide (k = i) then desc0 else nth k (desc d) desc0).
Proof. intros H1 H2 Hi. unfold give_desc. cbn. rewrite !nth_insert by lia. done. Qed.

Lemma give_descs_same l d :
  length (desc (give_descs l d)) = length (desc d) ∧ length (free (give_descs l d)) = length (free d) ∧
  info_b (give_descs l d) = info_b d ∧ info_status (give_descs l d) = info_status d ∧
  busy (give_descs l d) = busy d ∧ used_ring (give_descs l d) = used_ring d ∧
  used_idx (give_descs l d) = used_idx d ∧ dev_idx (give_descs l d) = dev_idx d.
Proof.
  revert d. induction l as [|i l IH]; intros d; [done|]. cbn [give_descs foldl].
  destruct (IH (give_desc i d)) as (H1 & H2 & H3). split; [|split; [|exact H3]].
  - etrans; [exact H1|]. cbn. by rewrite length_insert.
  - etrans; [exact H2|]. cbn. by rewrite length_insert.
Qed.

Lemma give_descs_nth l d k :
  length (desc d) = NUM → length (free d) = NUM → (∀ i, i ∈ l → (i < NUM)%nat) →
  nth k (free (give_descs l d)) false = (if decide (k ∈ l) then true else nth k (free d) false) ∧
  nth k (desc (give_descs l d)) desc0 = (if decide (k ∈ l) then desc0 else nth k (desc d) desc0).
Proof.
  revert d. induction l as [|i l IH]; intros d H1 H2 Hb.
  { rewrite !decide_False by apply not_elem_of_nil. done. }
  cbn [give_descs foldl]. destruct (IH (give_desc i d)) as [I1 I2]; [by cbn; rewrite length_insert..|set_solver|].
  destruct (give_desc_nth i d k) as [G1 G2]; [done..|apply Hb; left|].
  fold (give_descs l (give_desc i d)). rewrite I1, I2, G1, G2. clear. split; repeat case_decide; set_solver.
Qed.

Lemma free_descs_ok l d :
  NoDup l → length (desc d) = NUM → length (free d) = NUM →
  (∀ i, i ∈ l → (i < NUM)%nat ∧ nth i (free d) false = false) → free_descs l d = Ok () (give_descs l d).
Proof.
  revert d. induction l as [|i l IH]; intros d Hd H1 H2 Hf; [done|]. apply NoDup_cons in Hd as [Hi Hd].
  cbn [free_descs give_descs foldl]. destruct (Hf i) as [Hr Hn]; [left|].
  rewrite (bind_ok _ _ _ _ _ (free_desc_ok i d Hr Hn)). apply IH; [done|by cbn; rewrite length_insert..|].
  intros j Hj. destruct (Hf j) as [? ?]; [by right|]. split; [done|].
  destruct (give_desc_nth i d j) as [-> _]; [done..|]. by rewrite decide_False by congruence.
Qed.

(** The allocated descriptors were free; a failed allocation changes nothing
    that matters. *)
Definition fresh (d : vdisk) (l : list nat) : Prop :=
  NoDup l ∧ ∀ i, i ∈ l → (i < NUM)%nat ∧ nth i (free d) false = true.

Lemma alloc3_loop_ok n got d :
  length (desc d) = NUM → length (free d) = NUM → fresh d got →
  (∃ l, alloc3_loop n got (take_descs got d) = Ok (Some (got ++ l)) (take_descs (got ++ l) d) ∧
     length l = n ∧ fresh d (got ++ l)) ∨
  (∃ d' g, alloc3_loop n got (take_descs got d) = Ok None d' ∧ like d d' ∧ (length g < length got + n)%nat ∧
     ∀ i, (i < NUM)%nat → nth i (free d) false = true → i ∈ g).
Proof.
  intros H1 H2. revert got. induction n as [|n IH]; intros got [Hd Hg].
  { left. exists []. rewrite app_nil_r. done. }
  destruct (take_descs_same got d) as (S1 & S2 & S3 & S4 & S5 & S6 & S7 & S8).
  pose proof (λ i, take_descs_free got d i H2 (λ j Hj, proj1 (Hg j Hj))) as Hfree.
  cbn [alloc3_loop]. unfold mbind at 1 3, M_bind at 1 3. rewrite alloc_desc_ok.
  destruct (first_free (free (take_descs got d))) as [i|] eqn:Ef; cbn [rbind].
  - apply first_free_some in Ef as [Hi Hn]. rewrite Hfree in Hn. case_decide as Hin; [done|].
    rewrite <- take_descs_app. destruct (IH (got ++ [i])) as [(l & E & Hl & Hf)|(d' & g & E & Hd' & Hg1 & Hg2)].
    + split; [apply NoDup_app; split_and!; [done|set_solver|apply NoDup_singleton]|].
      intros j [?|Hj]%elem_of_app; [by apply Hg|]. apply list_elem_of_singleton in Hj as ->. done.
    + left. exists (i :: l). rewrite <- app_assoc in *. cbn [app] in *. split_and!; [done|cbn; lia|done].
    + right. exists d', g. rewrite length_app in Hg1. cbn in Hg1. split_and!; [done..|lia|done].
  - right. set (d1 := take_descs got d) in *. exists (give_descs got d1), got.
    assert (∀ i, (i < NUM)%nat → nth i (free d) false = true → i ∈ got) as Hall.
    { intros i Hi Ht. pose proof (first_free_none _ i Ef Hi) as Hn. rewrite Hfree in Hn.
      case_decide; [done|congruence]. }
    split; [|split; [|split; [lia|done]]].
    { erewrite bind_ok; [reflexivity|]. apply free_descs_ok; [done|congruence..|].
      intros j Hj. split; [by apply Hg|]. rewrite Hfree, decide_True by done. done. }
    destruct (give_descs_same got d1) as (G1 & G2 & G3 & G4 & G5 & G6 & G7 & G8).
    pose proof (λ k, give_descs_nth got d1 k ltac:(congruence) ltac:(congruence) (λ j Hj, proj1 (Hg j Hj))) as Hgn.
    split_and!; try congruence.
    + intros k Hk. destruct (Hgn k) as [_ ->]. rewrite decide_False, S1; [done|].
      intros Hin. apply Hg in Hin as [_ ?]. congruence.
    + intros k. destruct (Hgn k) as [-> _]. rewrite Hfree. destruct (decide (k ∈ got)) as [Hin|]; [|done].
      symmetry. by apply Hg.
Qed.

Lemma alloc3_desc_ok d :
  length (desc d) = NUM → length (free d) = NUM →
  (∃ i0 i1 i2, alloc3_desc d = Ok (Some [i0; i1; i2]) (take_descs [i0; i1; i2] d) ∧ fresh d [i0; i1; i2]) ∨
  (∃ d' g, alloc3_desc d = Ok None d' ∧ like d d' ∧ (length g < 3)%nat ∧
     ∀ i, (i < NUM)%nat → nth i (free d) false = true → i ∈ g).
Proof.
  intros H1 H2. destruct (alloc3_loop_ok 3 [] d) as [(l & E & Hl & Hf)|?]; [done..| | |by right].
  - split; [constructor|]. intros i H. by apply not_elem_of_nil in H.
  - left. destruct l as [|i0 [|i1 [|i2 [|? ?]]]]; try done. exists i0, i1, i2. done.
Qed.

(** ** The steps keep the invariant *)

Lemma all_idx_app rs rs' : all_idx (rs ++ rs') = all_idx rs ++ all_idx rs'.
Proof. unfold all_idx. by rewrite fmap_app, concat_app. Qed.
Lemma all_idx_one r : all_idx [r] = r_idx r.
Proof. unfold all_idx. cbn. apply app_nil_r. Qed.
Lemma all_idx_perm rs rs' : rs ≡ₚ rs' → all_idx rs ≡ₚ all_idx rs'.
Proof.
  unfold all_idx. induction 1; cbn; [done|by f_equiv| |by etrans].
  rewrite !app_assoc. f_equiv. apply Permutation_app_comm.
Qed.
Lemma all_idx_with_stage st rs1 r rs2 : all_idx (rs1 ++ with_stage st r :: rs2) = all_idx (rs1 ++ r :: rs2).
Proof. unfold all_idx. by rewrite !fmap_app, !fmap_cons. Qed.
Lemma r_b_with_stage st rs1 r rs2 : r_b <$> rs1 ++ with_stage st r :: rs2 = r_b <$> rs1 ++ r :: rs2.
Proof. by rewrite !fmap_app, !fmap_cons. Qed.

Lemma rq_disjoint rs1 r rs2 r' i :
  NoDup (all_idx (rs1 ++ r :: rs2)) → r' ∈ rs1 ++ rs2 → i ∈ r_idx r → i ∉ r_idx r'.
Proof.
  intros Hd Hr' Hi Hi'.
  assert (all_idx (rs1 ++ r :: rs2) ≡ₚ r_idx r ++ all_idx (rs1 ++ rs2)) as Hp.
  { rewrite <- all_idx_one, <- all_idx_app. apply all_idx_perm. cbn. by rewrite Permutation_middle. }
  rewrite Hp in Hd. apply NoDup_app in Hd as (_ & Hd & _). apply (Hd i Hi).
  apply elem_all_idx. eauto.
Qed.
Lemma buf_disjoint rs1 r rs2 r' :
  NoDup (r_b <$> rs1 ++ r :: rs2) → r' ∈ rs1 ++ rs2 → r_b r' ≠ r_b r.
Proof.
  intros Hd Hr' Hb. assert (r_b <$> rs1 ++ r :: rs2 ≡ₚ r_b r :: (r_b <$> rs1 ++ rs2)) as Hp.
  { rewrite !fmap_app, fmap_cons. by rewrite Permutation_middle. }
  rewrite Hp in Hd. apply NoDup_cons in Hd as [Hd _]. apply Hd. rewrite <- Hb. by apply list_elem_of_fmap_2.
Qed.

Lemma length_all_idx d rs : vinv d rs → length (all_idx rs) = (3 * length rs)%nat.
Proof.
  intros V. pose proof (vi_rq _ _ V) as H. clear V. induction rs as [|r rs IH]; [done|].
  unfold all_idx. cbn [fmap list_fmap concat]. rewrite length_app, (ro_len d r) by (apply H; left).
  fold (all_idx rs). cbn [length]. rewrite IH; [lia|]. intros r' Hr'. apply H. by right.
Qed.
Lemma few_requests d rs : vinv d rs → (3 * length rs ≤ NUM)%nat.
Proof.
  intros V. rewrite <- (length_all_idx d rs V).
  replace NUM with (length (seq 0 NUM)) by apply length_seq. apply NoDup_incl_length.
  - apply NoDup_ListNoDup, V.
  - intros i Hi. apply in_seq. apply list_elem_of_In in Hi. apply (vi_range _ _ V) in Hi. lia.
Qed.
Lemma short_queue d rs : vinv d rs → (length (queue rs) ≤ 2)%nat.
Proof.
  intros V. pose proof (few_requests d rs V) as H. unfold NUM in H.
  pose proof (List.filter_length_le completed rs). unfold queue. lia.
Qed.

Lemma fresh_not_used d rs l : vinv d rs → fresh d l → ∀ i, i ∈ l → i ∉ all_idx rs.
Proof.
  intros V [_ Hf] i Hi. destruct (Hf i Hi) as [Hr Ht]. rewrite (vi_free _ _ V) in Ht by done.
  by apply bool_decide_eq_true in Ht.
Qed.

Lemma is_busy_insert b v b' d d' :
  busy d' = <[b := v]> (busy d) → is_busy b' d' = if decide (b' = b) then v else is_busy b' d.
Proof.
  intros H. unfold is_busy. rewrite H. destruct (decide (b' = b)) as [->|Hne].
  - by rewrite lookup_insert_eq.
  - by rewrite lookup_insert_ne.
Qed.

Lemma submit_inv d rs b blockno write i0 i1 i2 d2 :
  vinv d rs → b ∉ r_b <$> rs → fresh d [i0; i1; i2] →
  submit i0 i1 i2 b blockno write (take_descs [i0; i1; i2] d) = Ok () d2 →
  vinv d2 (rs ++ [mk_rq b [i0; i1; i2] Submitted]).
Proof.
  intros V Hb Hf Hs. pose proof (fresh_not_used d rs _ V Hf) as Hnew.
  pose proof V as [(V1 & V2 & V3 & V4 & V5) Vn Vr Vf Vb Vq Vi Vg]. destruct Hf as [Hd Hf].
  destruct (take_descs_same [i0; i1; i2] d) as (S1 & S2 & S3 & S4 & S5 & S6 & S7 & S8).
  pose proof (λ i, take_descs_free [i0; i1; i2] d i V2 (λ j Hj, proj1 (Hf j Hj))) as Hfree.
  set (d1 := take_descs [i0; i1; i2] d) in *. clearbody d1.
  assert (length (desc d1) = NUM ∧ length (info_b d1) = NUM ∧ length (info_status d1) = NUM)
    as (Z1 & Z2 & Z3) by (by rewrite S1, S2, S3).
  assert (i0 < NUM ∧ i1 < NUM ∧ i2 < NUM)%nat as (R0 & R1 & R2).
  { split_and!; apply Hf; set_solver. }
  assert (i0 ≠ i1 ∧ i0 ≠ i2 ∧ i1 ≠ i2) as (N1 & N2 & N3).
  { apply NoDup_cons in Hd as [A Hd]. apply NoDup_cons in Hd as [B _]. set_solver. }
  unfold submit, fmt_desc in Hs. revert Hs. mrun. intros [= <-].
  assert (queue (rs ++ [mk_rq b [i0; i1; i2] Submitted]) = queue rs) as Hq.
  { unfold queue. rewrite List.filter_app. cbn. apply app_nil_r. }
  split; cbn [desc free info_b info_status used_ring used_idx dev_idx set_avail set_info_b set_busy set_desc set_info_status set_ops].
  - rewrite !length_insert. split_and!; congruence.
  - rewrite all_idx_app, all_idx_one. apply NoDup_app. split_and!; [done| |done].
    intros i Hi Hn. by apply (Hnew i).
  - intros i. rewrite all_idx_app, all_idx_one. intros [?|Hi]%elem_of_app; [by apply Vr|by apply Hf].
  - intros i Hi. rewrite Hfree, all_idx_app, all_idx_one, Vf by done.
    case_decide; symmetry; [apply bool_decide_false; cbn; set_solver|].
    apply bool_decide_ext. cbn. set_solver.
  - rewrite fmap_app. apply NoDup_app. split_and!; [done| |apply NoDup_singleton].
    intros x Hx Hx'. apply list_elem_of_singleton in Hx' as ->. done.
  - intros r [Hr|Hr]%elem_of_app.
    + apply (rq_ok_frame d); [by apply Vq| |].
      * intros i Hi. assert (i ∈ all_idx rs) as Ha by (apply elem_all_idx; eauto).
        assert (i ≠ i0 ∧ i ≠ i1 ∧ i ≠ i2) as (A & B & C).
        { split_and!; intros ->; eapply Hnew; try exact Ha; set_solver. }
        cbn. rewrite !nth_insert by (rewrite ?length_insert; lia). rewrite !decide_False by done.
        by rewrite S1, S2, S3.
      * rewrite (is_busy_insert b true _ d); [|cbn; by rewrite S4]. rewrite decide_False; [done|].
        intros <-. apply Hb. by apply list_elem_of_fmap_2.
    + apply list_elem_of_singleton in Hr as ->. unfold ix. split; cbn; try done.
      * rewrite !nth_insert by (rewrite ?length_insert; lia). rewrite !decide_False by done.
        by rewrite decide_True.
      * rewrite !nth_insert by (rewrite ?length_insert; lia). rewrite decide_False by done.
        rewrite decide_True by done. split; [by destruct write|done].
      * rewrite !nth_insert by (rewrite ?length_insert; lia). by rewrite decide_True.
      * rewrite nth_insert by lia. by rewrite decide_True.
      * unfold is_busy. cbn. by rewrite lookup_insert_eq.
  - rewrite Hq, S6, S7. done.
  - intros k. rewrite Hq, S5, S6. apply Vg.
Qed.

Lemma u16_mod8 x : u16 x mod Z.of_nat NUM = x mod Z.of_nat NUM.
Proof. unfold u16, NUM. apply Z.mod_mod_divide. by exists (2 ^ 13). Qed.

Lemma ring_slots u k n : 0 ≤ u → (k < n)%nat → (n ≤ 2)%nat →
  Z.to_nat ((u + Z.of_nat k) mod Z.of_nat NUM) ≠ Z.to_nat ((u + Z.of_nat n) mod Z.of_nat NUM).
Proof. intros Hu Hk Hn. unfold NUM. zlia. Qed.

Lemma slot_bound x : (Z.to_nat (x mod Z.of_nat NUM) < NUM)%nat.
Proof. unfold NUM. zlia. Qed.

Lemma device_inv d rs1 r rs2 :
  vinv d (rs1 ++ r :: rs2) → r_stage r = Submitted →
  vinv (dev_complete (head_of r) d) (rs1 ++ rs2 ++ [with_stage Completed r]).
Proof.
  intros V Hst. pose proof V as [(V1 & V2 & V3 & V4 & V5) Vn Vr Vf Vb Vq Vi Vg].
  assert (rs1 ++ rs2 ++ [r] ≡ₚ rs1 ++ r :: rs2) as Hperm.
  { f_equiv. symmetry. apply Permutation_cons_append. }
  assert (all_idx (rs1 ++ rs2 ++ [with_stage Completed r]) ≡ₚ all_idx (rs1 ++ r :: rs2)) as Hp.
  { rewrite <- (all_idx_perm _ _ Hperm), !app_assoc. by rewrite all_idx_with_stage. }
  assert (r_b <$> rs1 ++ rs2 ++ [with_stage Completed r] ≡ₚ r_b <$> rs1 ++ r :: rs2) as Hpb.
  { rewrite <- Hperm, !app_assoc. by rewrite r_b_with_stage. }
  assert (rq_ok d r) as Hr by (apply Vq; set_solver).
  assert (head_of r ∈ r_idx r) as Hh by (apply (ix_elem r 0); [apply Hr|lia]).
  assert (head_of r < NUM)%nat as Hhb by (apply Vr, elem_all_idx; exists r; set_solver).
  assert (queue (rs1 ++ rs2 ++ [with_stage Completed r]) = queue (rs1 ++ r :: rs2) ++ [with_stage Completed r]) as Hq.
  { assert (completed r = false) as Hc by (unfold completed; by rewrite Hst).
    unfold queue. rewrite !List.filter_app. cbn [List.filter]. rewrite Hc.
    change (completed (with_stage Completed r)) with true. cbn match. by rewrite app_assoc. }
  pose proof (short_queue _ _ V) as Hshort. destruct Vi as [Hu Hdev].
  assert (dev_idx d mod Z.of_nat NUM = (used_idx d + Z.of_nat (length (queue (rs1 ++ r :: rs2)))) mod Z.of_nat NUM) as Hm.
  { rewrite Hdev. apply u16_mod8. }
  split; cbn [desc free info_b info_status used_ring used_idx dev_idx dev_complete set_used set_info_status].
  - rewrite !length_insert. done.
  - by rewrite Hp.
  - intros i. rewrite Hp. apply Vr.
  - intros i Hi. rewrite Vf by done. apply bool_decide_ext. by rewrite Hp.
  - by rewrite Hpb.
  - intros r' Hr'. rewrite app_assoc in Hr'. apply elem_of_app in Hr' as [Hr'|Hr'].
    + apply (rq_ok_frame d); [apply Vq; set_solver| |done]. intros i Hi. cbn.
      rewrite nth_insert by lia. rewrite decide_False; [done|]. intros ->.
      by apply (rq_disjoint _ _ _ _ _ Vn Hr' Hh).
    + apply list_elem_of_singleton in Hr' as ->. destruct Hr as [R1 R2 R3 R4 R5 R6 R7].
      split; cbn; try done.
      * change (is_busy (r_b r) d = true). rewrite R6. unfold reported. by rewrite Hst.
      * intros _. change (ix (with_stage Completed r) 0) with (head_of r). rewrite nth_insert by lia.
        by rewrite decide_True.
  - split; [done|]. rewrite Hq, length_app. cbn [length]. rewrite Hdev. unfold u16.
    rewrite Zplus_mod_idemp_l. f_equal. lia.
  - intros k. rewrite Hq, length_app. cbn [length]. intros Hk. rewrite Hm.
    rewrite nth_insert by (rewrite V5; apply slot_bound). rewrite fmap_app.
    destruct (decide (k = length (queue (rs1 ++ r :: rs2)))) as [->|Hne].
    + rewrite decide_True by done. rewrite app_nth2 by (rewrite length_fmap; lia).
      by rewrite length_fmap, Nat.sub_diag.
    + rewrite decide_False by (apply ring_slots; lia). rewrite app_nth1 by (rewrite length_fmap; lia).
      apply Vg. lia.
Qed.

(** The first completed request. *)
Lemma queue_split rs : queue rs ≠ [] →
  ∃ a r b, rs = a ++ r :: b ∧ queue a = [] ∧ completed r = true.
Proof.
  induction rs as [|r rs IH]; [done|]. unfold queue in *. cbn. destruct (completed r) eqn:E.
  - intros _. exists [], r, rs. done.
  - intros H. destruct (IH H) as (a & r' & b & -> & Ha & Hr'). exists (r :: a), r', b. cbn. by rewrite E.
Qed.

Definition report (r : rq) : rq := if r_stage r is Completed then with_stage Reported r else r.
Lemma report_none rs : queue rs = [] → report <$> rs = rs.
Proof.
  unfold queue. induction rs as [|r rs IH]; [done|]. cbn. unfold completed, report at 1.
  destruct (r_stage r); try done; intros H; by rewrite IH.
Qed.
Lemma report_first a r b : r_stage r = Completed →
  report <$> a ++ r :: b = report <$> a ++ with_stage Reported r :: b.
Proof. intros H. rewrite !fmap_app, !fmap_cons. do 2 f_equal. unfold report. by rewrite H. Qed.

Lemma report_step d a r b :
  vinv d (a ++ r :: b) → queue a = [] → r_stage r = Completed →
  vinv (set_used_idx (u16 (used_idx d + 1)) (set_busy (<[r_b r := false]>) d)) (a ++ with_stage Reported r :: b) ∧
  used_idx d ≠ dev_idx d ∧
  nth (Z.to_nat (used_idx d mod Z.of_nat NUM)) (used_ring d) 0%nat = head_of r.
Proof.
  intros V Ha Hst. pose proof V as [Vl Vn Vr Vf Vb Vq [Hu Hdev] Vg].
  assert (queue (a ++ r :: b) = r :: queue b) as Hq.
  { assert (completed r = true) as Hc by (unfold completed; by rewrite Hst).
    unfold queue in *. rewrite List.filter_app, Ha. cbn [List.filter app]. by rewrite Hc. }
  assert (queue (a ++ with_stage Reported r :: b) = queue b) as Hq'.
  { unfold queue in *. by rewrite List.filter_app, Ha. }
  pose proof (short_queue _ _ V) as Hshort. rewrite Hq in *. cbn [length] in *.
  assert (rq_ok d r) as Hr by (apply Vq; set_solver).
  split_and!.
  - split; cbn [desc free info_b info_status used_ring used_idx dev_idx set_busy set_used_idx]; try done.
    + by rewrite all_idx_with_stage.
    + intros i. rewrite all_idx_with_stage. apply Vr.
    + intros i Hi. rewrite all_idx_with_stage. by apply Vf.
    + by rewrite r_b_with_stage.
    + intros r' Hr'. assert (r' ∈ a ++ b ∨ r' = with_stage Reported r) as [Hin| ->] by set_solver.
      * apply (rq_ok_frame d); [apply Vq; set_solver|done|].
        rewrite (is_busy_insert (r_b r) false _ d) by done. rewrite decide_False; [done|].
        by apply (buf_disjoint a r b).
      * destruct Hr as [R1 R2 R3 R4 R5 R6 R7]. split; cbn; try done.
        -- unfold is_busy. cbn. by rewrite lookup_insert_eq.
        -- intros _. change (ix (with_stage Reported r) 0) with (ix r 0). apply R7. by rewrite Hst.
    + rewrite Hq'. split; [unfold u16; apply Z.mod_pos_bound; lia|]. rewrite Hdev. unfold u16.
      rewrite Zplus_mod_idemp_l. f_equal. lia.
    + intros k Hk. rewrite Hq' in *.
      replace ((u16 (used_idx d + 1) + Z.of_nat k) mod Z.of_nat NUM)
        with ((used_idx d + Z.of_nat (S k)) mod Z.of_nat NUM).
      { rewrite Vg by lia. done. }
      rewrite <- (Zplus_mod_idemp_l (u16 _)), u16_mod8, Zplus_mod_idemp_l. f_equal. lia.
  - rewrite Hdev. unfold u16. zlia.
  - specialize (Vg 0%nat ltac:(lia)). rewrite Z.add_0_r in Vg. exact Vg.
Qed.

Lemma intr_loop_ok fuel d rs :
  vinv d rs → (length (queue rs) < fuel)%nat →
  ∃ d', intr_loop fuel d = Ok () d' ∧ vinv d' (report <$> rs).
Proof.
  revert d rs. induction fuel as [|fuel IH]; intros d rs V Hf; [lia|]. cbn [intr_loop]. mrun.
  destruct (decide (queue rs = [])) as [Hq|Hq].
  - pose proof (vi_idx _ _ V) as [Hu Hd]. rewrite Hq, Z.add_0_r in Hd. cbn [length] in Hd.
    unfold u16 in Hd. rewrite Z.mod_small in Hd by lia. rewrite Hd, Z.eqb_refl.
    exists d. split; [done|]. by rewrite report_none.
  - apply queue_split in Hq as (a & r & b & -> & Ha & Hr).
    assert (r_stage r = Completed) as Hst by (unfold completed in Hr; by destruct (r_stage r)).
    destruct (report_step d a r b V Ha Hst) as (V' & Hne & Hid).
    rewrite (proj2 (Z.eqb_neq _ _) Hne), Hid.
    assert (rq_ok d r) as [_ _ _ _ Hb _ Hs] by (apply (vi_rq _ _ V); set_solver).
    unfold ix in Hb, Hs. fold (head_of r) in Hb, Hs. rewrite Hs by (by rewrite Hst). cbn [negb Z.eqb].
    rewrite Hb. unfold vwakeup. mrun. cbn [used_idx set_busy].
    destruct (IH _ _ V') as (d' & E & Hd').
    { unfold queue in *. rewrite !List.filter_app, !length_app in *. cbn in *. rewrite Hr in Hf. cbn in Hf. lia. }
    exists d'. split; [exact E|]. by rewrite (report_first a r b Hst).
Qed.

Lemma intr_ok d rs : vinv d rs → ∃ d', virtio_disk_intr d = Ok () d' ∧ vinv d' (report <$> rs).
Proof. intros V. apply intr_loop_ok; [done|]. pose proof (short_queue _ _ V). unfold NUM. lia. Qed.

Lemma free_chain_step fuel i d n :
  (i < NUM)%nat → nth i (free d) false = false → chained (nth i (desc d) desc0) n →
  free_chain (S fuel) i d = free_chain fuel n (give_desc i d).
Proof.
  intros Hi Hf [Hc Hn]. cbn [free_chain]. mrun. rewrite (bind_ok _ _ _ _ _ (free_desc_ok i d Hi Hf)).
  rewrite Hc, Hn. done.
Qed.

Lemma finish_ok d rs1 r rs2 :
  vinv d (rs1 ++ r :: rs2) → is_busy (r_b r) d = false →
  ∃ d', finish (head_of r) d = Ok () d' ∧ vinv d' (rs1 ++ rs2).
Proof.
  intros V Hnb. pose proof V as [(V1 & V2 & V3 & V4 & V5) Vn Vr Vf Vb Vq Vi Vg].
  assert (rq_ok d r) as Hr by (apply Vq; set_solver).
  pose proof Hr as [R1 R2 R3 R4 R5 R6 R7]. rewrite Hnb in R6.
  assert (r_idx r = [ix r 0; ix r 1; ix r 2]) as Hix.
  { unfold ix. destruct (r_idx r) as [|x0 [|x1 [|x2 [|? ?]]]]; done. }
  assert (∀ j, j ∈ r_idx r → (j < NUM)%nat ∧ nth j (free d) false = false) as Hin.
  { intros j Hj. assert (j ∈ all_idx (rs1 ++ r :: rs2)) as Ha by (apply elem_all_idx; exists r; set_solver).
    split; [by apply Vr|]. rewrite Vf by (by apply Vr). apply bool_decide_false. intros Hn. by apply Hn. }
  assert (NoDup (r_idx r)) as Hnd.
  { rewrite all_idx_app in Vn. apply NoDup_app in Vn as (_ & _ & Vn). by apply NoDup_app in Vn as (? & _). }
  set (d1 := set_info_b (<[head_of r := None]>) d).
  exists (give_descs (r_idx r) d1). split.
  - unfold finish. mrun. fold d1. change (free_chain NUM) with (free_chain 8). rewrite Hix in *. apply NoDup_cons in Hnd as [N0 Hnd].
    apply NoDup_cons in Hnd as [N1 _]. change (head_of r) with (ix r 0).
    destruct (Hin (ix r 0)) as [A0 B0]; [set_solver|]. destruct (Hin (ix r 1)) as [A1 B1]; [set_solver|].
    destruct (Hin (ix r 2)) as [A2 B2]; [set_solver|].
    destruct (give_desc_nth (ix r 0) d1 (ix r 1)) as [F1 D1]; [done..|].
    destruct (give_desc_nth (ix r 0) d1 (ix r 2)) as [F2 D2]; [done..|].
    rewrite decide_False in F1 by set_solver. rewrite decide_False in D1 by set_solver.
    rewrite decide_False in F2 by set_solver. rewrite decide_False in D2 by set_solver.
    destruct (give_desc_nth (ix r 1) (give_desc (ix r 0) d1) (ix r 2)) as [F3 D3];
      [cbn; by rewrite length_insert..|done|].
    rewrite decide_False in F3 by set_solver. rewrite decide_False in D3 by set_solver.
    rewrite (free_chain_step _ _ _ (ix r 1)); [|done..].
    rewrite (free_chain_step _ _ _ (ix r 2)); [|done|by rewrite F1|by rewrite D1].
    cbn [free_chain]. mrun. rewrite D3, D2. cbn [desc set_info_b d1].
    rewrite (bind_ok _ _ _ _ _ (free_desc_ok _ _ A2 ltac:(by rewrite F3, F2))), R4. done.
  - destruct (give_descs_same (r_idx r) d1) as (G1 & G2 & G3 & G4 & G5 & G6 & G7 & G8).
    pose proof (λ k, give_descs_nth (r_idx r) d1 k V1 V2 (λ j Hj, proj1 (Hin j Hj))) as Hg.
    assert (all_idx (rs1 ++ r :: rs2) ≡ₚ r_idx r ++ all_idx (rs1 ++ rs2)) as Hp.
    { rewrite <- all_idx_one, <- all_idx_app. apply all_idx_perm. cbn. by rewrite Permutation_middle. }
    assert (queue (rs1 ++ r :: rs2) = queue (rs1 ++ rs2)) as Hq.
    { assert (completed r = false) as Hc by (unfold completed, reported in *; by destruct (r_stage r)).
      unfold queue. rewrite !List.filter_app. cbn. by rewrite Hc. }
    rewrite Hp in Vn. apply NoDup_app in Vn as (_ & Vd & Vn). rewrite Hq in *.
    split; rewrite ?G1, ?G2, ?G3, ?G4, ?G6, ?G7, ?G8; cbn [desc free info_b info_status used_ring used_idx dev_idx set_info_b d1]; try done.
    + by rewrite length_insert.
    + intros i Hi. apply Vr. rewrite Hp. set_solver.
    + intros i Hi. destruct (Hg i) as [-> _]. cbn [free set_info_b d1]. rewrite Vf by done.
      case_decide as Hd; [symmetry; apply bool_decide_true; by apply Vd|].
      apply bool_decide_ext. rewrite Hp, elem_of_app. naive_solver.
    + rewrite !fmap_app, fmap_cons in Vb. rewrite fmap_app. rewrite <- Permutation_middle in Vb.
      by apply NoDup_cons in Vb as [_ ?].
    + intros r' Hr'. apply (rq_ok_frame d); [apply Vq; set_solver| |].
      * intros i Hi. assert (i ∉ r_idx r) as Hni.
        { intros H. eapply (Vd i H). apply elem_all_idx. eauto. }
        destruct (Hg i) as [_ ->]. rewrite G3, G4. cbn. rewrite decide_False by done.
        split; [done|]. split; [|done]. rewrite nth_insert.
        -- rewrite decide_False; [done|]. intros ->. apply Hni. apply (ix_elem r 0); [done|lia].
        -- rewrite V3. apply Hin. apply (ix_elem r 0); [done|lia].
      * unfold is_busy. by rewrite G5.
Qed.

Lemma vstep_inv d rs d' rs' : vinv d rs → vstep (d, rs) (d', rs') → vinv d' rs'.
Proof.
  intros V. inversion 1 as [?? b bn w i0 i1 i2 d1 ? Hb Ha Hs|?? d1 Ha|? rs1 r rs2 Hst|?? d1 Hi|? rs1 r rs2 d1 Hb Hf]; subst.
  - destruct (alloc3_desc_ok d) as [(j0 & j1 & j2 & E & Hfr)|(? & ? & E & _)]; [apply V..| |congruence].
    rewrite E in Ha. injection Ha as <- <- <- <-. by eapply submit_inv.
  - destruct (alloc3_desc_ok d) as [(j0 & j1 & j2 & E & _)|(d1 & g & E & Hl & _)]; [apply V..|congruence|].
    rewrite E in Ha. injection Ha as <-. by eapply vinv_like.
  - by apply device_inv.
  - destruct (intr_ok d rs V) as (d1 & E & V'). rewrite E in Hi. injection Hi as <-. exact V'.
  - destruct (finish_ok d rs1 r rs2 V Hb) as (d1 & E & V'). rewrite E in Hf. by injection Hf as <-.
Qed.

Lemma vreach_inv d rs : vreach (d, rs) → vinv d rs.
Proof.
  remember (d, rs) as x eqn:Hx. intros H. revert d rs Hx.
  induction H as [|[d0 rs0] [d1 rs1] _ IH Hs]; intros d rs [= <- <-]; [apply vinv0|].
  eapply vstep_inv; [by apply IH|done].
Qed.

(** ** Theorems *)

(** C15: No panic of the driver is reachable: whatever the order in which
    requests are submitted, completed by the device, reported and finished,
    the interrupt handler terminates without a panic and clears [b->disk] of
    exactly the buffers whose request the device completed, and a process
    whose buffer is no longer busy frees its three descriptors without a
    panic. *)
Theorem driver_no_panic d rs :
  vreach (d, rs) →
  (∃ d', virtio_disk_intr d = Ok () d' ∧
     ∀ r, r ∈ rs → is_busy (r_b r) d' = (if r_stage r is Submitted then true else false)) ∧
  (∀ r, r ∈ rs → is_busy (r_b r) d = false → ∃ d', finish (head_of r) d = Ok () d').
Proof.
  intros V%vreach_inv. split.
  - destruct (intr_ok d rs V) as (d' & E & V'). exists d'. split; [done|]. intros r Hr.
    assert (rq_ok d' (report r)) as [_ _ _ _ _ Hb _] by (apply V'; by apply list_elem_of_fmap_2).
    replace (r_b (report r)) with (r_b r) in Hb by (unfold report; by destruct (r_stage r)).
    rewrite Hb. unfold reported, report. by destruct (r_stage r) eqn:E'; cbn; rewrite ?E'.
  - intros r Hr Hb. apply list_elem_of_split in Hr as (rs1 & rs2 & ->).
    destruct (finish_ok d rs1 r rs2 V Hb) as (d' & E & _). eauto.
Qed.

(** Descriptors are neither leaked nor shared: in every reachable state
    each of the eight descriptors is either free or belongs to exactly one
    request in flight, every request has three of them, and an allocation
    that fails (the process then sleeps until some are freed) finds two
    requests in flight. *)
Theorem descriptors_conserved d rs :
  vreach (d, rs) →
  NoDup (all_idx rs) ∧ length (all_idx rs) = (3 * length rs)%nat ∧
  (∀ i, (i < NUM)%nat → nth i (free d) false = bool_decide (i ∉ all_idx rs)) ∧
  (∀ d', alloc3_desc d = Ok None d' → length rs = 2%nat).
Proof.
  intros V%vreach_inv. split_and!; [apply V|by eapply length_all_idx|apply V|].
  intros d' Ha. pose proof (few_requests d rs V) as Hle. unfold NUM in Hle.
  destruct (alloc3_desc_ok d) as [(i0 & i1 & i2 & E & _)|(? & g & E & _ & Hg & Hall)]; [apply V..|congruence|].
  assert (NUM ≤ length (all_idx rs ++ g))%nat as Hn.
  { transitivity (length (seq 0 NUM)); [by rewrite length_seq|]. apply NoDup_incl_length; [apply seq_NoDup|].
    intros i Hi. apply in_seq in Hi. apply list_elem_of_In, elem_of_app.
    destruct (decide (i ∈ all_idx rs)) as [|Hn]; [by left|right]. apply Hall; [lia|].
    rewrite (vi_free _ _ V) by lia. by apply bool_decide_true. }
  rewrite length_app, (length_all_idx d rs V) in Hn. unfold NUM in Hn. lia.
Qed.

Lemma wait_done_busy fuel b d :
  is_busy b d = true → wait_done (S fuel) b d = Sleep (VBuf b) d (λ d', wait_done fuel b d').
Proof. intros H. cbn [wait_done]. mrun. by rewrite H. Qed.

(** [virtio_disk_rw] is the composition of the steps of the transition
    system: when three descriptors are free it submits the request and sleeps
    on the buffer with the descriptors formatted as a chain of header, data
    and status, the chain's head in the available ring and the buffer marked
    busy; and whenever it is woken up in a state where the buffer is no
    longer busy, it goes on as [finish]. *)
Theorem rw_submits_and_finishes fuel d b blockno write i0 i1 i2 d1 :
  length (desc d) = NUM → length (free d) = NUM →
  alloc3_desc d = Ok (Some [i0; i1; i2]) d1 →
  ∃ d2 k, submit i0 i1 i2 b blockno write d1 = Ok () d2 ∧
    virtio_disk_rw (S (S fuel)) b blockno write d = Sleep (VBuf b) d2 k ∧
    (∀ d3, is_busy b d3 = false → k d3 = finish i0 d3) ∧
    is_busy b d2 = true ∧
    nth i0 (desc d2) desc0 = mk_desc (DmaOp i0) 16 VRING_DESC_F_NEXT i1 ∧
    nth i1 (desc d2) desc0 = mk_desc (DmaData b) BSIZE (if write then 1 else 3) i2 ∧
    nth i2 (desc d2) desc0 = mk_desc (DmaStatus i0) 1 VRING_DESC_F_WRITE 0 ∧
    avail_ring d2 = <[Z.to_nat (avail_idx d1 mod 8) := i0]> (avail_ring d1) ∧
    avail_idx d2 = u16 (avail_idx d1 + 1).
Proof.
  intros H1 H2 Ha.
  destruct (alloc3_desc_ok d) as [(j0 & j1 & j2 & E & Hfr)|(? & ? & E & _)]; [done..| |congruence].
  assert (i0 = j0 ∧ i1 = j1 ∧ i2 = j2 ∧ d1 = take_descs [j0; j1; j2] d) as (-> & -> & -> & Hd1).
  { rewrite E in Ha. by injection Ha as <- <- <- <-. }
  destruct Hfr as [Hd Hf]. destruct (take_descs_same [j0; j1; j2] d) as (S1 & _).
  rewrite <- Hd1 in S1, E. clear Ha Hd1.
  assert (j0 < length (desc d1) ∧ j1 < length (desc d1) ∧ j2 < length (desc d1))%nat as (R0 & R1 & R2).
  { rewrite S1, H1. split_and!; apply Hf; set_solver. }
  assert (j0 ≠ j1 ∧ j0 ≠ j2 ∧ j1 ≠ j2) as (N1 & N2 & N3).
  { apply NoDup_cons in Hd as [A Hd]. apply NoDup_cons in Hd as [B _]. set_solver. }
  destruct (submit j0 j1 j2 b blockno write d1) as [[] d2| | |] eqn:Es; try done.
  assert (is_busy b d2 = true) as Hb.
  { revert Es. unfold submit, fmt_desc. mrun. intros [= <-]. unfold is_busy. cbn. by rewrite lookup_insert_eq. }
  exists d2, (λ d3, (wait_done (S fuel) b ≫= λ _, finish j0) d3). split; [done|]. split.
  { unfold virtio_disk_rw. cbn [alloc_wait].
    erewrite bind_ok by (erewrite bind_ok by exact E; reflexivity). cbn match.
    rewrite (bind_ok _ _ _ _ _ Es). unfold mbind at 1, M_bind at 1. by rewrite wait_done_busy. }
  split; [|split; [done|]].
  - intros d3 Hn. erewrite bind_ok; [reflexivity|]. cbn [wait_done]. mrun. by rewrite Hn.
  - revert Es. unfold submit, fmt_desc. mrun. intros [= <-].
    cbn [desc avail_ring avail_idx set_avail set_info_b set_busy set_desc set_info_status set_ops].
    rewrite !nth_insert by (rewrite ?length_insert; done).
    split_and!; repeat case_decide; try done. by destruct write.
Qed.

(** ** Witnesses *)

Definition demo_rq : rq := mk_rq 5 [0; 1; 2]%nat Submitted.
Definition demo_d : vdisk :=
  match (alloc3_desc ≫= λ _, submit 0 1 2 5 9 false) vdisk0 with Ok _ d => d | _ => vdisk0 end.
Lemma demo_reach : vreach (demo_d, [demo_rq]).
Proof.
  eapply vr_step; [apply vr_init|]. eapply (vs_submit _ [] 5 9 false 0 1 2);
    [apply not_elem_of_nil|vm_compute; reflexivity|vm_compute; reflexivity].
Qed.

Lemma driver_no_panic_witness :
  vreach (dev_complete 0 demo_d, [with_stage Completed demo_rq]) ∧
  ∃ d', virtio_disk_intr (dev_complete 0 demo_d) = Ok () d' ∧ is_busy 5 d' = false.
Proof.
  assert (vreach (dev_complete 0 demo_d, [with_stage Completed demo_rq])) as Hr.
  { eapply vr_step; [apply demo_reach|]. exact (vs_device demo_d [] demo_rq [] eq_refl). }
  split; [exact Hr|]. destruct (driver_no_panic _ _ Hr) as [(d' & E & H) _].
  exists d'. split; [exact E|]. exact (H _ (list_elem_of_here _ _)).
Defined.

Lemma descriptors_conserved_witness :
  vreach (demo_d, [demo_rq]) ∧ length (all_idx [demo_rq]) = 3%nat.
Proof.
  split; [exact demo_reach|]. destruct (descriptors_conserved _ _ demo_reach) as (_ & H & _). exact H.
Defined.

Lemma rw_submits_and_finishes_witness :
  ∃ d2 k, virtio_disk_rw 2 5 9 false vdisk0 = Sleep (VBuf 5) d2 k ∧ is_busy 5 d2 = true.
Proof.
  destruct (rw_submits_and_finishes 0 vdisk0 5 9 false 0 1 2 (take_descs [0; 1; 2]%nat vdisk0))
    as (d2 & k & _ & H & _ & Hb & _); [reflexivity|reflexivity|vm_compute; reflexivity|].
  exists d2, k. split; [exact H|exact Hb].
Defined.

End Virtio.
