(* ===== verification/ULib.v ===== *)
(** * user/ulib.c: the library of user programs

    Memory routines over byte memory; routines that only read strings over
    the bytes before the terminating NUL; [gets], [fgets] and [getline] over
    the bytes a descriptor has left, of which each [read] returns one.

    The theorem about [getline] is the contract its comment gives: a line of
    any length, whole, in a buffer that has grown to hold it. *)

From S2P Require Import Prelude CString.

(** ** Memory *)

(** The same loop as the kernel's. *)
Definition memset (m : memory) (dst c n : Z) : memory := CString.memset m dst c n.
(** [n] is an [int]: nothing is copied when it is negative. *)
Definition memmove (m : memory) (dst src n : Z) : memory :=
  if dst <? src then copy_up (Z.to_nat n) m dst src
  else copy_down (Z.to_nat n) m (dst + n) (src + n).
Definition memcpy (m : memory) (dst src n : Z) : memory := memmove m dst src (s32 n).

Lemma rd_umemset m d c n a :
  rd (memset m d c n) a = if (d <=? a) && (a <? d + n) then u8 c else rd m a.
Proof. apply CString.rd_memset. Qed.
(** User [memmove] copies the bytes as they were, however the regions overlap. *)
Lemma rd_umemmove m d s n a :
  bytes_ok m → 0 ≤ n →
  rd (memmove m d s n) a = if (d <=? a) && (a <? d + n) then rd m (s + (a - d)) else rd m a.
Proof.
  intros Hm Hn. unfold memmove. destruct (d <? s) eqn:E; zbool.
  - rewrite rd_copy_up by (done || lia). by rewrite Z2Nat.id.
  - rewrite rd_copy_down by (done || lia). rewrite Z2Nat.id by done.
    replace (d + n - n) with d by lia. by replace (s + n + (a - (d + n))) with (s + (a - d)) by lia.
Qed.
Lemma bytes_ok_umemset m d c n : bytes_ok m → bytes_ok (memset m d c n).
Proof. apply bytes_ok_memset. Qed.
Lemma bytes_ok_umemmove m d s n : bytes_ok m → 0 ≤ n → bytes_ok (memmove m d s n).
Proof. intros H Hn a. rewrite rd_umemmove by done. case_match; apply H. Qed.
#[export] Hint Resolve bytes_ok_umemset bytes_ok_umemmove : cint.

Fixpoint memcmp (n : nat) (p1 p2 : list Z) : Z :=
  match n with
  | O => 0
  | S n => if negb (hd 0 p1 =? hd 0 p2) then hd 0 p1 - hd 0 p2 else memcmp n (tl p1) (tl p2)
  end.

(** ** Strings *)

Fixpoint strcmp (p q : list Z) : Z :=
  match p with
  | [] => 0 - hd 0 q
  | x :: p =>
      match q with
      | [] => x
      | y :: q => if x =? y then strcmp p q else x - y
      end
  end.
Fixpoint strlen_loop (s : list Z) (n : Z) : Z :=
  match s with [] => n | _ :: s => strlen_loop s (s32 (n + 1)) end.
Definition strlen (s : list Z) : Z := u32 (strlen_loop s 0).
(** The index of [c] in the string at the start of the array [s]. *)
Fixpoint strchr (s : list Z) (c : Z) : option nat :=
  match s with
  | [] => None
  | x :: s => if x =? 0 then None else if x =? c then Some 0%nat else S <$> strchr s c
  end.
(** [strcpy] into an array from its index [i] on. *)
Fixpoint strcpy (s : list Z) (i : nat) (t : list Z) : list Z :=
  match t with
  | [] => <[i := 0]> s
  | x :: t => strcpy (<[i := x]> s) (S i) t
  end.

Definition is_digit (c : Z) : bool := (48 <=? c) && (c <=? 57).
Fixpoint atoi_loop (s : list Z) (n : Z) : Z :=
  match s with
  | [] => n
  | c :: s => if is_digit c then atoi_loop s (s32 (n * 10 + c - 48)) else n
  end.
Definition atoi (s : list Z) : Z := atoi_loop s 0.

(** ** Lines *)

Definition eol (c : Z) : bool := (c =? 10) || (c =? 13).

(** [gets]: at most [n = max - 1] characters, up to and with the end of the
    line; what is stored before the NUL, and what is left to read. *)
Fixpoint gets_loop (n : nat) (inp : list Z) : list Z * list Z :=
  match n with
  | O => ([], inp)
  | S n =>
      match inp with
      | [] => ([], [])
      | c :: inp => if eol c then ([c], inp) else let '(l, r) := gets_loop n inp in (c :: l, r)
      end
  end.
Definition gets (max : Z) (inp : list Z) : list Z * list Z := gets_loop (Z.to_nat (max - 1)) inp.

(** [fgets] fails when the input ends before the line or the buffer does. *)
Fixpoint fgets_loop (n : nat) (inp : list Z) : option (list Z) * list Z :=
  match n with
  | O => (Some [], inp)
  | S n =>
      match inp with
      | [] => (None, [])
      | c :: inp => if eol c then (Some [c], inp) else let '(l, r) := fgets_loop n inp in (cons c <$> l, r)
      end
  end.
Definition fgets (max : Z) (inp : list Z) : option (list Z) * list Z := fgets_loop (Z.to_nat (max - 1)) inp.

(** The loop of [getline]: [buf] is what was read so far, in a buffer of
    [size] bytes.  The result is the line, the size of its buffer and what is
    left to read; [None] is the return value -1.  The [malloc]s succeed. *)
Fixpoint getline_loop (fuel : nat) (buf : list Z) (size : Z) (inp : list Z)
    : option (option (list Z * Z) * list Z) :=
  match fuel with
  | O => None
  | S fuel =>
      match fgets (size - Z.of_nat (length buf)) inp with
      | (None, inp) => Some (None, inp)
      | (Some [], inp) => Some (Some (buf, size), inp)
      | (Some l, inp) =>
          let buf := buf ++ l in
          let size := s32 (size * 2) in
          if eol (List.last buf 0) then Some (Some (buf, size), inp)
          else getline_loop fuel buf size inp
      end
  end.
(** [None] stands for a null pointer. *)
Definition getline (buf : option (list Z)) (size : Z) (inp : list Z) : option (option (list Z * Z) * list Z) :=
  let size := if (negb (bool_decide (is_Some buf)) || (size <? 2)) then 2 else size in
  getline_loop (S (length inp)) [] size inp.

(** ** getline returns whole lines *)

Lemma fgets_line n line inp :
  Forall (λ c, eol c = false) line → ∀ c, eol c = true →
  fgets_loop n (line ++ c :: inp) =
    if decide (length line < n)%nat then (Some (line ++ [c]), inp) else (Some (take n line), drop n line ++ c :: inp).
Proof.
  intros HF c Hc. revert n. induction HF as [|x line Hx _ IH]; intros n; cbn [app length].
  - destruct n; cbn [fgets_loop]; [done|]. rewrite Hc. by rewrite decide_True by lia.
  - destruct n as [|n]; [done|]. cbn [fgets_loop]. rewrite Hx, IH.
    destruct (decide (length line < n)%nat), (decide (S (length line) < S n)%nat); try done; lia.
Qed.
Lemma fgets_eof n inp :
  Forall (λ c, eol c = false) inp →
  fgets_loop n inp = if decide (length inp < n)%nat then (None, []) else (Some (take n inp), drop n inp).
Proof.
  intros HF. revert n. induction HF as [|x inp Hx _ IH]; intros n; cbn [length].
  - destruct n; cbn [fgets_loop]; [done|]. by rewrite decide_True by lia.
  - destruct n as [|n]; [done|]. cbn [fgets_loop]. rewrite Hx, IH.
    destruct (decide (length inp < n)%nat), (decide (S (length inp) < S n)%nat); try done; lia.
Qed.

Lemma last_eol (buf l : list Z) :
  l ≠ [] → Forall (λ c, eol c = false) l → eol (List.last (buf ++ l) 0) = false.
Proof.
  intros Hl HF. destruct (exists_last Hl) as (l' & x & ->). rewrite app_assoc, last_last.
  apply Forall_app in HF as [_ HF]. by apply Forall_cons in HF as [HF _].
Qed.

(** One round: the rest of the line is [line ++ [c]], or the input ends. *)
Lemma getline_loop_ok fuel : ∀ buf size line tail,
  (length line < fuel)%nat → Z.of_nat (length buf) + 2 ≤ size < 2 ^ 30 →
  Z.of_nat (length buf) + Z.of_nat (length line) + 1 < 2 ^ 29 → Forall (λ c, eol c = false) line → (match tail with [] => True | c :: _ => eol c = true end) →
  ∃ r, getline_loop fuel buf size (line ++ tail) = Some r ∧
    match tail with
    | [] => r = (None, [])
    | c :: rest => ∃ size', r = (Some (buf ++ line ++ [c], size'), rest) ∧
        Z.of_nat (length (buf ++ line ++ [c])) + 1 ≤ size'
    end.
Proof.
  induction fuel as [|fuel IH]; intros buf size line tail Hf Hs Hb HF Ht; [lia|]. cbn [getline_loop].
  unfold fgets. set (n := Z.to_nat (size - Z.of_nat (length buf) - 1)).
  assert (fgets_loop n (line ++ tail) =
    if decide (length line < n)%nat
    then match tail with [] => (None, []) | c :: rest => (Some (line ++ [c]), rest) end
    else (Some (take n line), drop n line ++ tail)) as ->.
  { destruct tail as [|c rest]; [rewrite !app_nil_r; by apply fgets_eof|by apply fgets_line]. }
  destruct (decide (length line < n)%nat) as [Hlt|Hge].
  - destruct tail as [|c rest]; [by eexists|].
    assert (∃ x l, line ++ [c] = x :: l) as (x & l & E) by (destruct line; cbn; eauto).
    rewrite E, <- E. rewrite app_assoc, last_last, Ht, <- app_assoc. eexists. split; [done|]. eexists. split; [done|].
    rewrite s32_small by lia. rewrite !length_app. cbn. lia.
  - assert (length (take n line) = n) as Hn by (rewrite length_take; lia).
    destruct (take n line) as [|x l] eqn:E; [cbn in Hn; lia|]. rewrite <- E in *.
    rewrite last_eol; [|rewrite E; done|by apply Forall_take].
    destruct (IH (buf ++ take n line) (s32 (size * 2)) (drop n line) tail) as (r & -> & Hr).
    + rewrite length_drop. lia.
    + rewrite length_app, Hn, s32_small by lia. lia.
    + rewrite length_app, length_drop, Hn. lia.
    + by apply Forall_drop.
    + done.
    + exists r. split; [done|]. destruct tail as [|c rest]; [done|].
      by rewrite <- !app_assoc, (app_assoc (take n line)), take_drop in Hr.
Qed.

(** [getline] returns a line of any length, complete with its end, in a
    buffer that has grown enough to hold it and the NUL; it returns -1 exactly
    when the input ends first.  (Lines under half a gigabyte.) *)
Theorem getline_whole_line buf size line tail :
  size < 2 ^ 30 → Z.of_nat (length line) + 1 < 2 ^ 29 → Forall (λ c, eol c = false) line → (match tail with [] => True | c :: _ => eol c = true end) →
  ∃ r, getline buf size (line ++ tail) = Some r ∧
    match tail with
    | [] => r = (None, [])
    | c :: rest => ∃ size', r = (Some (line ++ [c], size'), rest) ∧ Z.of_nat (length (line ++ [c])) + 1 ≤ size'
    end.
Proof.
  intros Hs Hl HF Ht. unfold getline. apply (getline_loop_ok _ []); [rewrite length_app; lia| |done|done|done].
  cbn. destruct (_ || _) eqn:E; zbool; lia.
Qed.
Lemma getline_whole_line_witness :
  ∃ r, getline None 0 ([104; 101; 108; 108; 111] ++ [10; 120]) = Some r ∧
    ∃ size', r = (Some ([104; 101; 108; 108; 111; 10], size'), [120]) ∧ 7 ≤ size'.
Proof. apply (getline_whole_line None 0 [104; 101; 108; 108; 111] [10; 120]); [lia|cbn; lia|repeat constructor|reflexivity]. Defined.
