(* ===== verification/UPrintf.v ===== *)
(** * user/printf.c: formatted output of user programs

    The characters [printint], [printptr] and [vprintf] write to their
    descriptor, as lists.  Unlike the kernel's, [printint] keeps the number in
    a 32-bit [uint], also for the [%l] conversions.  Printing with [%d] and
    reading back with [atoi] gives the number. *)

From S2P Require Import Prelude CString ULib Printf.

Definition udigit (x : Z) : Z := if x <? 10 then 48 + x else 55 + x.
(** [do{ buf[i++] = digits[x % base]; }while((x /= base) != 0);] *)
Fixpoint udigits (fuel : nat) (x base : Z) : list Z :=
  match fuel with
  | O => []
  | S fuel => udigit (x mod base) :: (if x / base =? 0 then [] else udigits fuel (x / base) base)
  end.
(** The contents of [buf]: at most 32 digits, one a bit. *)
Definition uprintint_buf (xx base : Z) (sgn : bool) : list Z :=
  let neg := sgn && (xx <? 0) in
  let x := if neg then u32 (- xx) else u32 xx in
  udigits 32 x base ++ (if neg then [45] else []).
Definition uprintint (xx base : Z) (sgn : bool) : list Z := reverse (uprintint_buf xx base sgn).

Fixpoint uprintptr_loop (n : nat) (x : Z) : list Z :=
  match n with
  | O => []
  | S n => udigit (Z.shiftr x 60) :: uprintptr_loop n (u64 (Z.shiftl x 4))
  end.
Definition uprintptr (x : Z) : list Z := [48; 120] ++ uprintptr_loop 16 x.

(** The loop over the format; [state] says that a percent sign came before. *)
Fixpoint vprintf_loop (fuel : nat) (state : bool) (fmt : list Z) (args : list varg) : list Z :=
  match fuel with
  | O => []
  | S fuel =>
      match fmt with
      | [] => []
      | c0 :: fmt =>
          if negb state then
            if c0 =? 37 then vprintf_loop fuel true fmt args else c0 :: vprintf_loop fuel false fmt args
          else
            let c1 := nth 0 fmt 0 in
            let c2 := if nz c1 then nth 1 fmt 0 else 0 in
            let l := c0 =? 108 in
            let ll := l && (c1 =? 108) in
            let next k := vprintf_loop fuel false (drop k fmt) (tl args) in
            let num k z base sgn := uprintint z base sgn ++ next k in
            if c0 =? 100 then num 0%nat (s32 (arg_z args)) 10 true
            else if l && (c1 =? 100) then num 1%nat (s64 (arg_z args)) 10 true
            else if ll && (c2 =? 100) then num 2%nat (s64 (arg_z args)) 10 true
            else if c0 =? 117 then num 0%nat (u32 (arg_z args)) 10 false
            else if l && (c1 =? 117) then num 1%nat (s64 (arg_z args)) 10 false
            else if ll && (c2 =? 117) then num 2%nat (s64 (arg_z args)) 10 false
            else if c0 =? 120 then num 0%nat (u32 (arg_z args)) 16 false
            else if l && (c1 =? 120) then num 1%nat (s64 (arg_z args)) 16 false
            else if ll && (c2 =? 120) then num 2%nat (s64 (arg_z args)) 16 false
            else if c0 =? 112 then uprintptr (u64 (arg_z args)) ++ next 0%nat
            else if c0 =? 99 then u8 (arg_z args) :: next 0%nat
            else if c0 =? 115 then arg_s args ++ next 0%nat
            else if c0 =? 37 then 37 :: vprintf_loop fuel false fmt args
            else 37 :: c0 :: vprintf_loop fuel false fmt args
      end
  end.
(** Every iteration consumes a character of the format. *)
Definition vprintf (fmt : string) (args : list varg) : list Z :=
  vprintf_loop (S (String.length fmt)) false (codes fmt) args.

Example vprintf_ex : vprintf "[%p] %d '%s' %lx%" [VInt 255; VInt (-7); VStr None; VInt (2 ^ 32 + 171)]
  = codes "[0x00000000000000FF] -7 '(null)' AB".
Proof. vm_compute. reflexivity. Qed.

(** ** Printing and reading back *)

Lemma atoi_loop_app l r n :
  Forall (λ c, is_digit c = true) l → atoi_loop (l ++ r) n = atoi_loop r (atoi_loop l n).
Proof. intros HF. revert n. induction HF as [|c l Hc _ IH]; intros n; cbn; [done|]. by rewrite Hc. Qed.
Lemma udigit_digit x : is_digit (udigit (x mod 10)) = true.
Proof. pose proof (Z.mod_pos_bound x 10). unfold is_digit, udigit. zcases. Qed.
Lemma udigits_digits fuel x : Forall (λ c, is_digit c = true) (udigits fuel x 10).
Proof.
  revert x. induction fuel as [|fuel IH]; intros x; cbn [udigits]; constructor; [apply udigit_digit|].
  by destruct (x / 10 =? 0).
Qed.
Lemma atoi_udigits fuel x :
  0 ≤ x < 2 ^ 31 → x < 2 ^ Z.of_nat fuel → atoi_loop (reverse (udigits fuel x 10)) 0 = x.
Proof.
  revert x. induction fuel as [|fuel IH]; intros x Hx Hf; [cbn in *; lia|].
  cbn [udigits]. rewrite reverse_cons, atoi_loop_app by (apply Forall_reverse; destruct (x / 10 =? 0); [done|apply udigits_digits]).
  cbn [atoi_loop]. rewrite udigit_digit.
  assert (atoi_loop (reverse (if x / 10 =? 0 then [] else udigits fuel (x / 10) 10)) 0 = x / 10) as ->.
  { destruct (x / 10 =? 0) eqn:E; zbool; [by rewrite E|]. apply IH; [zlia|].
    rewrite Nat2Z.inj_succ, Z.pow_succ_r in Hf by lia. apply Z.div_lt_upper_bound; lia. }
  unfold udigit. rewrite (proj2 (Z.ltb_lt _ _)) by zlia. rewrite s32_small by zlia. zlia.
Qed.

(** Printing a non-negative [int] with [%d] and reading it back with
    [atoi] gives the number, and the 20 bytes of [printint]'s buffer are
    enough for every conversion. *)
Theorem print_atoi_roundtrip n :
  0 ≤ n < 2 ^ 31 →
  atoi (vprintf "%d" [VInt n]) = n ∧
  ∀ xx base sgn, base = 10 ∨ base = 16 → (length (uprintint_buf xx base sgn) ≤ 11)%nat.
Proof.
  intros Hn. split.
  - change (vprintf "%d" [VInt n]) with (uprintint (s32 n) 10 true ++ []). unfold atoi.
    rewrite s32_small by lia. unfold uprintint, uprintint_buf. cbn [andb]. rewrite (proj2 (Z.ltb_ge _ _)), !app_nil_r, u32_small by lia. apply atoi_udigits; [lia|]. change (Z.of_nat 32) with 32. lia.
  - intros xx base sgn Hb. unfold uprintint_buf. rewrite length_app.
    assert (∀ fuel x k, 0 ≤ x < base ^ Z.of_nat k → (0 < k)%nat → (length (udigits fuel x base) ≤ k)%nat) as HL.
    { induction fuel as [|fuel IH]; intros x k Hx Hk; cbn [udigits length]; [lia|].
      destruct (x / base =? 0) eqn:E; cbn [length]; [lia|]. zbool. destruct k as [|[|k]]; [lia| |].
      - change (base ^ Z.of_nat 1) with (base * 1) in Hx. rewrite Z.div_small in E by lia. lia.
      - apply le_n_S, IH; [|lia]. rewrite Nat2Z.inj_succ, Z.pow_succ_r in Hx by lia.
        split; [apply Z.div_pos; lia|]. apply Z.div_lt_upper_bound; lia. }
    set (x := if sgn && (xx <? 0) then u32 (- xx) else u32 xx). assert (0 ≤ x < 2 ^ 32) as Hx by (unfold x; case_match; apply u32_range).
    specialize (HL 32%nat x 10%nat). destruct Hb as [->| ->].
    + change (10 ^ Z.of_nat 10) with 10000000000 in HL. destruct (sgn && _); cbn [length]; lia.
    + change (16 ^ Z.of_nat 10) with (2 ^ 40) in HL. destruct (sgn && _); cbn [length]; lia.
Qed.
Lemma print_atoi_roundtrip_witness :
  atoi (vprintf "%d" [VInt 2025]) = 2025 ∧
  ∀ xx base sgn, base = 10 ∨ base = 16 → (length (uprintint_buf xx base sgn) ≤ 11)%nat.
Proof. apply (print_atoi_roundtrip 2025). lia. Defined.
