(* ===== verification/UMalloc.v ===== *)
(** * user/umalloc.c: the allocator of user programs (definitions)

    The heap of a process: its byte memory, the allocator's static variables
    and the break.  A [struct mem_block] takes 32 bytes: the name at 0, the
    size (its low bit is the free flag) at 8, the pointers to the next and the
    previous block at 16 and 24; the link of the free list is kept in the
    first 8 bytes of a free block's data.  Whether the kernel grants more
    memory ([sbrk]) is a parameter.

    Loops over the two lists have the fuel [blocks_max], one more than the
    number of blocks that fit below the break. *)

From S2P Require Import CString ULib Printf UPrintf Prelude.

Definition ALIGN : Z := 16.
Definition MIN_DATA_SIZE : Z := 16.
Definition PAGE_SIZE : Z := 4096.
(** [sizeof(struct mem_block)] *)
Definition HDR : Z := 32.

Inductive fsm_algorithm := FIRST_FIT | BEST_FIT | WORST_FIT.

Record heap := Heap {
  hmem : memory;
  head : Z;
  free_list : Z;
  scribble_enabled : bool;
  current_fsm : fsm_algorithm;
  brk : Z
}.
Definition set_hmem f h := Heap (f (hmem h)) (head h) (free_list h) (scribble_enabled h) (current_fsm h) (brk h).
Definition set_head v h := Heap (hmem h) v (free_list h) (scribble_enabled h) (current_fsm h) (brk h).
Definition set_free_list v h := Heap (hmem h) (head h) v (scribble_enabled h) (current_fsm h) (brk h).
Definition set_brk v h := Heap (hmem h) (head h) (free_list h) (scribble_enabled h) (current_fsm h) v.

Abbreviation U := (M Empty_set heap).

(** ** Fields of a block *)

Definition size_at (b : Z) : Z := b + 8.
Definition next_at (b : Z) : Z := b + 16.
Definition prev_at (b : Z) : Z := b + 24.
Definition link_at (b : Z) : Z := b + HDR.

Definition ld32 (a : Z) : U Z := gets (λ h, load32 (hmem h) a).
Definition ld64 (a : Z) : U Z := gets (λ h, load64 (hmem h) a).
Definition st32 (a v : Z) : U () := modify (set_hmem (λ m, store32 m a v)).
Definition st64 (a v : Z) : U () := modify (set_hmem (λ m, store64 m a v)).

Definition align_size (size : Z) : Z := Z.land (u32 (size + (ALIGN - 1))) (Z.lnot (ALIGN - 1)).
Definition used_size (size : Z) : Z := Z.land size (Z.lnot 1).

Definition set_used (b : Z) : U () := sz ← ld32 (size_at b); st32 (size_at b) (used_size sz).
Definition set_free (b : Z) : U () := sz ← ld32 (size_at b); st32 (size_at b) (Z.lor sz 1).
Definition is_free (b : Z) : U bool := sz ← ld32 (size_at b); mret (nz (Z.land sz 1)).
Definition get_size (b : Z) : U Z := sz ← ld32 (size_at b); mret (used_size sz).
Definition set_free_next (b next : Z) : U () := st64 (link_at b) next.
Definition get_free_next (b : Z) : U Z := ld64 (link_at b).

Definition blocks_max (h : heap) : nat := S (Z.to_nat (brk h / HDR)).

(** ** The free list *)

(** [while (get_free_next(cur)) {cur = get_free_next(cur);}] *)
Fixpoint free_last (fuel : nat) (cur : Z) : U Z :=
  match fuel with
  | O => nofuel
  | S fuel => n ← get_free_next cur; if nz n then free_last fuel n else mret cur
  end.
Definition add_to_free_list (b : Z) : U () :=
  set_free_next b 0;;
  fl ← gets free_list;
  if negb (nz fl) then modify (set_free_list b) else
  fsm ← gets current_fsm;
  match fsm with
  | FIRST_FIT => set_free_next b fl;; modify (set_free_list b)
  | _ => n ← gets blocks_max; cur ← free_last n fl; set_free_next cur b
  end.

Fixpoint remove_loop (fuel : nat) (b prev cur : Z) : U () :=
  match fuel with
  | O => nofuel
  | S fuel =>
      if negb (nz cur) then mret () else
      if cur =? b then
        n ← get_free_next cur;
        (if nz prev then set_free_next prev n else modify (set_free_list n));;
        set_free_next cur 0
      else
        n ← get_free_next cur; remove_loop fuel b cur n
  end.
Definition remove_from_free_list (b : Z) : U () :=
  n ← gets blocks_max; fl ← gets free_list; remove_loop n b 0 fl.

(** ** Coalescing, searching and splitting *)

(** [b] absorbs the block after it. *)
Definition merge (b next : Z) : U () :=
  s1 ← get_size b;
  s2 ← get_size next;
  st32 (size_at b) (Z.lor (u32 (s1 + HDR + s2)) 1);;
  nn ← ld64 (next_at next);
  st64 (next_at b) nn;;
  whenM (nz nn) (st64 (prev_at nn) b).
Definition coalesce (b : Z) : U () :=
  remove_from_free_list b;;
  prev ← ld64 (prev_at b);
  pf ← (if nz prev then is_free prev else mret false);
  b ← (if (pf : bool) then remove_from_free_list prev;; merge prev b;; mret prev else mret b);
  next ← ld64 (next_at b);
  nf ← (if nz next then is_free next else mret false);
  whenM nf (remove_from_free_list next;; merge b next);;
  add_to_free_list b.

Fixpoint find_loop (fuel : nat) (size best cur : Z) : U Z :=
  match fuel with
  | O => nofuel
  | S fuel =>
      if negb (nz cur) then mret best else
      sz ← get_size cur;
      if size <=? sz then
        fsm ← gets current_fsm;
        bsz ← (if nz best then get_size best else mret 0);
        match fsm with
        | FIRST_FIT => mret cur
        | BEST_FIT =>
            n ← get_free_next cur;
            find_loop fuel size (if negb (nz best) || (sz <? bsz) then cur else best) n
        | WORST_FIT =>
            n ← get_free_next cur;
            find_loop fuel size (if negb (nz best) || (bsz <? sz) then cur else best) n
        end
      else n ← get_free_next cur; find_loop fuel size best n
  end.
Definition find_free_block (size : Z) : U Z :=
  n ← gets blocks_max; fl ← gets free_list; find_loop n size 0 fl.

Definition split_block (b size : Z) : U () :=
  bsize ← get_size b;
  if bsize <? size + HDR + MIN_DATA_SIZE then mret () else
  let newb := b + HDR + size in
  st32 (size_at newb) (Z.lor (u32 (bsize - size - HDR)) 1);;
  st64 (prev_at newb) b;;
  nb ← ld64 (next_at b);
  st64 (next_at newb) nb;;
  whenM (nz nb) (st64 (prev_at nb) newb);;
  st64 (next_at b) newb;;
  st32 (size_at b) (used_size size);;
  set_free newb;;
  add_to_free_list newb.

(** ** malloc, free, calloc, realloc *)

Section sbrk.
(** Whether the kernel moves the break [brk] by [n] bytes. *)
Context (grow : Z → Z → bool).
Definition SBRK_ERROR : Z := 2 ^ 64 - 1.
(** New memory is zero; the result is the old break. *)
Definition sbrk (n : Z) : U Z :=
  b ← gets brk;
  if grow b (s32 n) then
    modify (set_hmem (λ m, memset m b 0 (s32 n)));;
    modify (set_brk (b + s32 n));;
    mret b
  else mret SBRK_ERROR.

Definition scribble (a n : Z) : U () :=
  e ← gets scribble_enabled; whenM e (modify (set_hmem (λ m, memset m a 0xAA n))).

(** [while (tmp->next_block) tmp = tmp->next_block;] *)
Fixpoint last_block (fuel : nat) (tmp : Z) : U Z :=
  match fuel with
  | O => nofuel
  | S fuel => n ← ld64 (next_at tmp); if nz n then last_block fuel n else mret tmp
  end.

Definition min_size (size : Z) : Z :=
  let size := align_size size in if size <? MIN_DATA_SIZE then MIN_DATA_SIZE else size.

(** Mark [b] allocated and hand out its data. *)
Definition take_block (b size : Z) : U Z :=
  split_block b size;;
  set_used b;;
  sz ← get_size b;
  scribble (b + HDR) sz;;
  mret (b + HDR).

Definition malloc (size : Z) : U Z :=
  if size =? 0 then mret 0 else
  let size := min_size size in
  b ← find_free_block size;
  if nz b then remove_from_free_list b;; take_block b size else
  let total_size := u32 (HDR + size) in
  let pages := u32 (total_size + PAGE_SIZE - 1) / PAGE_SIZE in
  let request := u32 (pages * PAGE_SIZE) in
  newb ← sbrk request;
  if newb =? SBRK_ERROR then mret 0 else
  st32 (size_at newb) (used_size (u32 (request - HDR)));;
  st64 (prev_at newb) 0;;
  st64 (next_at newb) 0;;
  modify (set_hmem (λ m, wr m newb 0));;
  hd ← gets head;
  (if negb (nz hd) then modify (set_head newb)
   else
     n ← gets blocks_max;
     tmp ← last_block n hd;
     st64 (next_at tmp) newb;;
     st64 (prev_at newb) tmp);;
  take_block newb size.

Definition free (ptr : Z) : U () :=
  if negb (nz ptr) then mret () else
  let b := ptr - HDR in
  set_free b;;
  add_to_free_list b;;
  coalesce b.

Definition calloc (nmemb size : Z) : U Z :=
  let total := u32 (nmemb * size) in
  p ← malloc total;
  if negb (nz p) then mret 0 else
  modify (set_hmem (λ m, memset m p 0 total));;
  mret p.

(** Growing [b] in place over the free block after it. *)
Definition realloc_in_place (b next old combined size : Z) : U () :=
  remove_from_free_list next;;
  st32 (size_at b) (used_size combined);;
  nn ← ld64 (next_at next);
  st64 (next_at b) nn;;
  whenM (nz nn) (st64 (prev_at nn) b);;
  split_block b size;;
  set_used b;;
  e ← gets scribble_enabled;
  whenM e
    (sz ← get_size b;
     let scribble_len := u32 (sz - old) in
     whenM (nz scribble_len) (modify (set_hmem (λ m, memset m (b + HDR + old) 0xAA scribble_len)))).
Definition realloc (ptr size : Z) : U Z :=
  if negb (nz ptr) then malloc size else
  if size =? 0 then free ptr;; mret 0 else
  let size := min_size size in
  let b := ptr - HDR in
  old ← get_size b;
  if size <=? old then split_block b size;; mret ptr else
  next ← ld64 (next_at b);
  nf ← (if nz next then is_free next else mret false);
  nsz ← (if (nf : bool) then get_size next else mret 0);
  let combined := u32 (old + HDR + nsz) in
  if (nf : bool) && (size <=? combined) then
    realloc_in_place b next old combined size;; mret ptr
  else
    newp ← malloc size;
    if negb (nz newp) then mret 0 else
    modify (set_hmem (λ m, memmove m newp ptr (s32 old)));;
    free ptr;;
    mret newp.
End sbrk.

Definition malloc_scribble (enable : Z) : U () :=
  modify (λ h, Heap (hmem h) (head h) (free_list h) (nz enable) (current_fsm h) (brk h)).
Definition malloc_setfsm (algo : Z) : U () :=
  let set a := modify (λ h, Heap (hmem h) (head h) (free_list h) (scribble_enabled h) a (brk h)) in
  if algo =? 0 then set FIRST_FIT else if algo =? 1 then set BEST_FIT
  else if algo =? 2 then set WORST_FIT else mret ().

(** ** Reports: what they print *)

(** The name, a string in the 8 bytes at the start of a block (and beyond,
    until the next NUL). *)
Definition block_name (b : Z) : U (list Z) := gets (λ h, cstr (Z.to_nat (brk h - b)) (at_ptr (hmem h) b) 0).

Fixpoint print_blocks (fuel : nat) (b : Z) : U (list Z) :=
  match fuel with
  | O => nofuel
  | S fuel =>
      if negb (nz b) then mret [] else
      sz ← get_size b; f ← is_free b; name ← block_name b;
      let text := vprintf "[BLOCK %p-%p] %d [%s] '%s'" [VInt b; VInt (b + HDR + sz); VInt sz;
                    VStr (Some (codes (if (f : bool) then "FREE" else "USED"))); VStr (Some name)] ++ [10] in
      n ← ld64 (next_at b); rest ← print_blocks fuel n; mret (text ++ rest)
  end.
Fixpoint print_free (fuel : nat) (f : Z) : U (list Z) :=
  match fuel with
  | O => nofuel
  | S fuel =>
      if negb (nz f) then mret (codes "NULL" ++ [10]) else
      n ← get_free_next f; rest ← print_free fuel n;
      mret (vprintf "[%p] -> " [VInt (f + HDR)] ++ rest)
  end.
Definition malloc_print : U (list Z) :=
  n ← gets blocks_max; hd ← gets head; blocks ← print_blocks n hd;
  fl ← gets free_list; frees ← print_free n fl;
  mret (codes "-- Current Memory State --" ++ [10] ++ blocks ++ [10] ++ codes "-- Free List --" ++ [10] ++ frees).

(** What was printed, and the counts. *)
Fixpoint leaks_loop (fuel : nat) (b blocks bytes : Z) : U (list Z * Z * Z) :=
  match fuel with
  | O => nofuel
  | S fuel =>
      if negb (nz b) then mret ([], blocks, bytes) else
      f ← is_free b; sz ← get_size b; name ← block_name b; n ← ld64 (next_at b);
      if (f : bool) then leaks_loop fuel n blocks bytes else
      '(out, k, z) ← leaks_loop fuel n (s32 (blocks + 1)) (s32 (bytes + sz));
      mret (vprintf "[BLOCK %p] %d '%s'" [VInt b; VInt sz; VStr (Some name)] ++ [10] ++ out, k, z)
  end.
Definition malloc_leaks : U (list Z) :=
  n ← gets blocks_max; hd ← gets head;
  '(out, blocks, bytes) ← leaks_loop n hd 0 0;
  mret (codes "-- Leak Check --" ++ [10] ++ out ++ codes "-- Summary --" ++ [10] ++
        vprintf "%d blocks lost (%d bytes)" [VInt blocks; VInt bytes] ++ [10]).

(** ** A run: malloc twice, free the first, look at the lists *)

Definition heap0 : heap := Heap ∅ 0 0 false FIRST_FIT 0x4000.
Definition always : Z → Z → bool := λ _ _, true.
Example malloc_ex :
  match (p ← malloc always 100; q ← malloc always 40; free p;;
         fl ← gets free_list; n ← get_free_next fl; mret (p, q, fl, n)) heap0 with
  | Ok r _ => r = (0x4020, 0x40b0, 0x4000, 0x40e0)
  | _ => False
  end.
Proof. vm_compute. reflexivity. Qed.
