(* ===== verification/UMallocProps.v ===== *)
(** * user/umalloc.c: the heap of a process is a tiling by blocks

    [hinv h base bl fl ex]: the memory from [base] to the break is tiled by
    the blocks [bl], linked both ways in this order; [fl] is the free list, the
    free blocks but for [ex], which an operation under way has taken out.
    Every operation is shown to keep it, and to leave the data of the blocks in
    use alone; [malloc], [free] and [realloc] then refine operations on the
    collection of live allocations. *)

From S2P Require Import CString ULib Riscv Printf UPrintf Prelude UMalloc.

(** ** Blocks *)

Record blk := Blk { ba : Z; bs : Z; bf : bool }.
#[export] Instance blk_eq_dec : EqDecision blk.
Proof. solve_decision. Defined.
Implicit Types (m : memory) (bl : list blk) (fl : list Z) (h : heap).

Definition hda (bl : list blk) (e : Z) : Z := match bl with [] => e | x :: _ => ba x end.
Fixpoint lasta (p : Z) (bl : list blk) : Z := match bl with [] => p | x :: bl => lasta (ba x) bl end.
Definition hdz (fl : list Z) (e : Z) : Z := match fl with [] => e | a :: _ => a end.

(** The blocks cover the addresses from [a] to [e]. *)
Fixpoint tiles (a : Z) (bl : list blk) (e : Z) : Prop :=
  match bl with
  | [] => a = e
  | x :: bl => ba x = a ∧ 16 ≤ bs x ∧ bs x mod 16 = 0 ∧ tiles (a + HDR + bs x) bl e
  end.
(** They are linked, after [p] and before [e]. *)
Definition node m (p : Z) (x : blk) (n : Z) : Prop :=
  load32 m (size_at (ba x)) = bs x + Z.b2z (bf x) ∧ load64 m (next_at (ba x)) = n ∧ load64 m (prev_at (ba x)) = p.
Fixpoint seg m (p : Z) (bl : list blk) (e : Z) : Prop :=
  match bl with
  | [] => True
  | x :: bl => node m p x (hda bl e) ∧ seg m (ba x) bl e
  end.
(** The links of the free list. *)
Fixpoint frs m (fl : list Z) (e : Z) : Prop :=
  match fl with
  | [] => True
  | a :: fl => load64 m (link_at a) = hdz fl e ∧ frs m fl e
  end.

Lemma hda_app l1 l2 e : hda (l1 ++ l2) e = hda l1 (hda l2 e).
Proof. by destruct l1. Qed.
Lemma hdz_app l1 l2 e : hdz (l1 ++ l2) e = hdz l1 (hdz l2 e).
Proof. by destruct l1. Qed.
Lemma lasta_app p l1 l2 : lasta p (l1 ++ l2) = lasta (lasta p l1) l2.
Proof. revert p. induction l1; intros p; cbn; auto. Qed.
Lemma tiles_app a l1 l2 e : tiles a (l1 ++ l2) e ↔ ∃ b, tiles a l1 b ∧ tiles b l2 e.
Proof. revert a. induction l1 as [|x l1 IH]; intros a; cbn; [naive_solver|]. rewrite IH. naive_solver. Qed.
Lemma seg_app m p l1 l2 e : seg m p (l1 ++ l2) e ↔ seg m p l1 (hda l2 e) ∧ seg m (lasta p l1) l2 e.
Proof. revert p. induction l1 as [|x l1 IH]; intros p; cbn; [tauto|]. rewrite IH, hda_app. tauto. Qed.
Lemma frs_app m l1 l2 e : frs m (l1 ++ l2) e ↔ frs m l1 (hdz l2 e) ∧ frs m l2 e.
Proof. induction l1 as [|x l1 IH]; cbn; [tauto|]. rewrite IH, hdz_app. tauto. Qed.

Lemma tiles_le a bl e : tiles a bl e → a ≤ e.
Proof. revert a. induction bl as [|x bl IH]; intros a; cbn; [lia|]. intros (_ & H1 & _ & H). apply IH in H. unfold HDR in *. lia. Qed.
Lemma tiles_in a bl e x :
  tiles a bl e → x ∈ bl → a ≤ ba x ∧ ba x + HDR + bs x ≤ e ∧ 16 ≤ bs x ∧ bs x mod 16 = 0.
Proof.
  revert a. induction bl as [|y bl IH]; intros a; cbn; [by intros _ ?%elem_of_nil|].
  intros (Hy & H1 & H2 & Ht) [<-|Hx]%elem_of_cons.
  - pose proof (tiles_le _ _ _ Ht). unfold HDR in *. lia.
  - apply IH in Ht as (? & ? & ? & ?); [|done]. unfold HDR in *. lia.
Qed.
Lemma tiles_aligned a bl e x : tiles a bl e → a mod 16 = 0 → x ∈ bl → ba x mod 16 = 0.
Proof.
  revert a. induction bl as [|y bl IH]; intros a; cbn; [by intros _ _ ?%elem_of_nil|].
  intros (Hy & H1 & H2 & Ht) Ha [<-|Hx]%elem_of_cons; [by subst|]. apply (IH _ Ht); [|done]. unfold HDR. zlia.
Qed.
(** Two blocks are the same or apart. *)
Lemma tiles_sep a bl e x y :
  tiles a bl e → x ∈ bl → y ∈ bl → x = y ∨ ba x + HDR + bs x ≤ ba y ∨ ba y + HDR + bs y ≤ ba x.
Proof.
  revert a. induction bl as [|z bl IH]; intros a; cbn; [by intros _ ?%elem_of_nil|].
  intros (Hz & H1 & H2 & Ht) [<-|Hx]%elem_of_cons [<-|Hy]%elem_of_cons; [by left| | |by eapply IH].
  - apply (tiles_in _ _ _ _ Ht) in Hy. unfold HDR in *. lia.
  - apply (tiles_in _ _ _ _ Ht) in Hx. unfold HDR in *. lia.
Qed.
Lemma tiles_inj a bl e x y : tiles a bl e → x ∈ bl → y ∈ bl → ba x = ba y → x = y.
Proof.
  intros Ht Hx Hy E. destruct (tiles_sep _ _ _ _ _ Ht Hx Hy) as [?|H]; [done|].
  apply (tiles_in _ _ _ _ Ht) in Hx, Hy. unfold HDR in *. lia.
Qed.
Lemma tiles_length a bl e : tiles a bl e → a + 48 * Z.of_nat (length bl) ≤ e.
Proof.
  revert a. induction bl as [|x bl IH]; intros a; cbn [tiles length]; [lia|].
  intros (_ & H1 & _ & H). apply IH in H. unfold HDR in *. lia.
Qed.
Lemma tiles_nodup a bl e : tiles a bl e → NoDup bl.
Proof.
  revert a. induction bl as [|x bl IH]; intros a; cbn [tiles]; [constructor|].
  intros (E & H1 & _ & H). constructor; [|by eapply IH]. intros Hx. apply (tiles_in _ _ _ _ H) in Hx. unfold HDR in *. lia.
Qed.

(** ** Memory outside of some fields *)

(** Only bytes of [P] may have changed. *)
Definition keeps (P : Z → Prop) m m' : Prop := (bytes_ok m → bytes_ok m') ∧ ∀ a, ¬ P a → rd m' a = rd m a.
Definition field (a n x : Z) : Prop := a ≤ x < a + n.

Lemma mkeeps_refl P m : keeps P m m.
Proof. done. Qed.
Lemma mkeeps_trans P m1 m2 m3 : keeps P m1 m2 → keeps P m2 m3 → keeps P m1 m3.
Proof. intros [H1 H2] [H3 H4]. split; [auto|]. intros a Ha. by rewrite H4, H2. Qed.
Lemma mkeeps_weaken (P Q : Z → Prop) m m' : keeps P m m' → (∀ a, P a → Q a) → keeps Q m m'.
Proof. intros [H1 H2] H. split; [done|]. intros a Ha. apply H2. auto. Qed.
Lemma keeps_st64 m a v : keeps (field a 8) m (store64 m a v).
Proof.
  split; [auto with cint|]. intros x Hx. apply rd_store64_out. unfold field in Hx. lia.
Qed.
Lemma keeps_load64 P m m' a : keeps P m m' → (∀ x, field a 8 x → ¬ P x) → load64 m' a = load64 m a.
Proof. intros [_ H] HP. apply load64_ext. intros b Hb. apply H, HP, Hb. Qed.
#[local] Transparent load32 store32.
Lemma keeps_st32 m a v : keeps (field a 4) m (store32 m a v).
Proof.
  split; [apply bytes_ok_storen|]. intros x Hx. apply (rd_storen_out 4). unfold field in Hx. lia.
Qed.
Lemma keeps_load32 P m m' a : keeps P m m' → (∀ x, field a 4 x → ¬ P x) → load32 m' a = load32 m a.
Proof. intros [_ H] HP. apply (loadn_ext 4). intros b Hb. apply H, HP, Hb. Qed.
Lemma load32_store32 m a v : 0 ≤ v < 2 ^ 32 → load32 (store32 m a v) a = v.
Proof. intros H. etransitivity; [apply (loadn_storen 4)|]. by apply Z.mod_small. Qed.
#[local] Opaque load32 store32.

Lemma keeps_node P m m' p x n :
  keeps P m m' → (∀ a, field (ba x + 8) 24 a → ¬ P a) → node m p x n → node m' p x n.
Proof.
  intros HK HP (H1 & H2 & H3). unfold node, size_at, next_at, prev_at in *.
  rewrite (keeps_load32 P m m'), !(keeps_load64 P m m'); [done|done|..]; try done; intros a Ha; apply HP; unfold field in *; lia.
Qed.
Lemma keeps_seg P m m' p bl e :
  keeps P m m' → (∀ x a, x ∈ bl → field (ba x + 8) 24 a → ¬ P a) → seg m p bl e → seg m' p bl e.
Proof.
  intros HK. revert p. induction bl as [|x bl IH]; intros p HP; cbn; [done|]. intros [Hn Hs]. split.
  - eapply keeps_node; [done| |done]. intros a. apply HP, elem_of_cons; by left.
  - apply IH; [|done]. intros y a Hy. apply HP, elem_of_cons; by right.
Qed.
Lemma keeps_frs P m m' fl e :
  keeps P m m' → (∀ b a, b ∈ fl → field (link_at b) 8 a → ¬ P a) → frs m fl e → frs m' fl e.
Proof.
  intros HK. induction fl as [|x fl IH]; intros HP; cbn; [done|]. intros [Hn Hs]. split.
  - rewrite (keeps_load64 P m m'); [done|done|]. intros a. apply HP, elem_of_cons; by left.
  - apply IH; [|done]. intros y a Hy. apply HP, elem_of_cons; by right.
Qed.

(** ** Sizes and flags *)

Lemma used_size_eq s f : s mod 16 = 0 → used_size (s + Z.b2z f) = s.
Proof.
  intros H. unfold used_size. change 1 with (Z.ones 1). rewrite land_lnot_ones by lia.
  change (2 ^ 1) with 2. destruct f; cbn [Z.b2z]; zlia.
Qed.
Lemma used_size_even s : s mod 16 = 0 → used_size s = s.
Proof. intros H. rewrite <- (Z.add_0_r s) at 1. exact (used_size_eq s false H). Qed.
Lemma flag_eq s f : s mod 16 = 0 → nz (Z.land (s + Z.b2z f) 1) = f.
Proof.
  intros H. change 1 with (Z.ones 1). rewrite Z.land_ones by lia. change (2 ^ 1) with 2.
  destruct f; cbn [Z.b2z]; [apply nz_true|apply nz_false]; zlia.
Qed.
Lemma lor_flag s : 0 ≤ s → s mod 16 = 0 → Z.lor s 1 = s + 1.
Proof.
  intros H0 H. assert (∃ k, s = 2 * k ∧ 0 ≤ k) as (k & -> & Hk) by (exists (s / 2); zlia).
  by destruct k.
Qed.
Lemma lor_flag_free s f : 0 ≤ s → s mod 16 = 0 → Z.lor (s + Z.b2z f) 1 = s + 1.
Proof.
  intros H0 H. destruct f; cbn [Z.b2z]; [|by rewrite Z.add_0_r, lor_flag].
  rewrite <- (lor_flag s) by done. by rewrite <- Z.lor_assoc.
Qed.

(** A static part of the state that the list operations leave alone. *)
Section ops.
Context (hd : Z) (sc : bool) (al : fsm_algorithm) (br : Z).
Abbreviation H m f := (Heap m hd f sc al br).

Lemma get_size_ok m p x n f : node m p x n → bs x mod 16 = 0 → get_size (ba x) (H m f) = Ok (bs x) (H m f).
Proof. intros (E & _) Hs. unfold get_size, ld32. rewrite bind_gets. cbn [hmem]. by rewrite E, used_size_eq. Qed.
Lemma is_free_ok m p x n f : node m p x n → bs x mod 16 = 0 → is_free (ba x) (H m f) = Ok (bf x) (H m f).
Proof. intros (E & _) Hs. unfold is_free, ld32. rewrite bind_gets. cbn [hmem]. by rewrite E, flag_eq. Qed.

(** ** The free list *)

(** Addresses of blocks: apart by at least the smallest block. *)
Definition apart (fl : list Z) : Prop :=
  NoDup fl ∧ ∀ a b, a ∈ fl → b ∈ fl → 0 < a < 2 ^ 64 ∧ (a = b ∨ a + 48 ≤ b ∨ b + 48 ≤ a).
Definition links (fl : list Z) (x : Z) : Prop := ∃ a, a ∈ fl ∧ field (link_at a) 8 x.

Fixpoint lastz (p : Z) (fl : list Z) : Z := match fl with [] => p | a :: fl => lastz a fl end.
Lemma lastz_in p fl : fl ≠ [] → lastz p fl ∈ fl.
Proof.
  revert p. induction fl as [|a fl IH]; intros p Hne; [done|]. cbn. destruct fl as [|b fl]; [left|right].
  by apply IH.
Qed.
Lemma lastz_snoc p fl a : lastz p (fl ++ [a]) = a.
Proof. revert p. induction fl as [|b fl IH]; intros p; cbn; [done|]. apply IH. Qed.

Lemma remove_loop_ok b f2 m f f1 : ∀ fuel prev,
  (length f1 < fuel)%nat → b ∉ f1 → Forall (λ a, a ≠ 0) (f1 ++ b :: f2) → frs m (f1 ++ b :: f2) 0 →
  remove_loop fuel b prev (hdz (f1 ++ b :: f2) 0) (H m f) =
    if nz (lastz prev f1)
    then Ok () (H (store64 (store64 m (link_at (lastz prev f1)) (hdz f2 0)) (link_at b) 0) f)
    else Ok () (H (store64 m (link_at b) 0) (hdz f2 0)).
Proof.
  induction f1 as [|a f1 IH]; intros [|fuel] prev Hf Hb HF Hl; cbn [length] in Hf; try lia; cbn [remove_loop app hdz lastz].
  - apply Forall_cons in HF as [H0 HF]. destruct Hl as [E Hl].
    rewrite (proj2 (nz_true b)) by done. cbn [negb]. rewrite Z.eqb_refl. unfold get_free_next, ld64.
    rewrite bind_gets. cbn [hmem]. rewrite E. by destruct (nz prev).
  - apply not_elem_of_cons in Hb as [Hne Hb]. apply Forall_cons in HF as [H0 HF]. destruct Hl as [E Hl].
    rewrite (proj2 (nz_true a)) by done. cbn [negb]. rewrite (proj2 (Z.eqb_neq a b)) by congruence.
    unfold get_free_next, ld64. rewrite bind_gets. cbn [hmem]. rewrite E. rewrite IH by (done || lia). done.
Qed.

Lemma frs_set_last m m' fl e e' :
  keeps (field (link_at (lastz 0 fl)) 8) m m' → load64 m' (link_at (lastz 0 fl)) = e' → apart fl → fl ≠ [] →
  frs m fl e → frs m' fl e'.
Proof.
  intros HK Hv [HN HA] Hne. destruct (exists_last Hne) as (l & a & ->). rewrite lastz_snoc in *.
  rewrite !frs_app. cbn. intros [Hl _]. split; [|done].
  eapply keeps_frs; [done| |done]. intros b x Hb Hx Hx'. unfold link_at, field, HDR in *.
  destruct (HA b a) as [_ Hs]; [set_solver..|]. apply NoDup_app in HN as (_ & HN & _).
  assert (b ≠ a) by (intros ->; apply (HN a Hb); left). lia.
Qed.

Lemma apart_app f1 f2 : apart (f1 ++ f2) → apart f1 ∧ apart f2.
Proof. intros [HN HA]. apply NoDup_app in HN as (H1 & _ & H2). split; (split; [done|]); intros; apply HA; set_solver. Qed.
Lemma apart_nonzero fl : apart fl → Forall (λ a, a ≠ 0) fl.
Proof. intros [_ HA]. apply Forall_forall. intros a Ha. destruct (HA a a Ha Ha). lia. Qed.
Lemma apart_remove f1 b f2 : apart (f1 ++ b :: f2) → apart (f1 ++ f2).
Proof.
  intros [HN HA]. split; [|intros; apply HA; set_solver].
  apply NoDup_app in HN as (H1 & H2 & [H3 H4]%NoDup_cons). apply NoDup_app. split_and!; [done| |done].
  intros x Hx Hx'. apply (H2 x Hx). by right.
Qed.

(** [remove_from_free_list] takes [b] out. *)
Lemma remove_ok m b f1 f2 :
  bytes_ok m → apart (f1 ++ b :: f2) → frs m (f1 ++ b :: f2) 0 → (length f1 < S (Z.to_nat (br / HDR)))%nat →
  ∃ m', remove_from_free_list b (H m (hdz (f1 ++ b :: f2) 0)) = Ok () (H m' (hdz (f1 ++ f2) 0)) ∧
    frs m' (f1 ++ f2) 0 ∧ keeps (links (f1 ++ b :: f2)) m m'.
Proof.
  intros Hm HA Hl Hf. unfold remove_from_free_list. rewrite !bind_gets. cbn [free_list].
  pose proof (apart_nonzero _ HA) as HF. pose proof (apart_remove _ _ _ HA) as HA'. pose proof HA as [HN HS].
  assert (b ∉ f1) as Hb. { intros Hb. apply NoDup_app in HN as (_ & HN & _). apply (HN b Hb). left. }
  rewrite remove_loop_ok by done. rewrite frs_app in Hl. cbn in Hl. destruct Hl as (Hl1 & Hl0 & Hl2).
  assert (∀ v x, keeps (links (f1 ++ b :: f2)) v (store64 v (link_at b) x)) as HKb.
  { intros v x. eapply mkeeps_weaken; [apply keeps_st64|]. intros z Hz. exists b. split; [set_solver|done]. }
  assert (∀ a v x, a ∈ f1 ++ f2 → load64 (store64 v (link_at b) x) (link_at a) = load64 v (link_at a)) as Hne.
  { intros a v x Ha. apply load64_store64_ne. unfold link_at, HDR. destruct (HS a b) as [_ ?]; [set_solver..|].
    assert (a ≠ b); [|lia]. intros ->. apply NoDup_app in HN as (_ & _ & [HN _]%NoDup_cons). set_solver. }
  assert (∀ v x, frs v (f1 ++ f2) 0 → frs (store64 v (link_at b) x) (f1 ++ f2) 0) as Hfr.
  { intros v x. apply keeps_frs with (field (link_at b) 8); [apply keeps_st64|]. intros a z Ha Hz Hz'.
    destruct (HS a b) as [_ Hs]; [set_solver..|]. assert (a ≠ b); [|unfold field, link_at, HDR in *; lia].
    intros ->. apply NoDup_app in HN as (_ & _ & [HN _]%NoDup_cons). set_solver. }
  destruct f1 as [|a f1].
  - cbn [lastz nz negb]. rewrite (proj2 (nz_false 0)) by done. eexists. split; [done|]. split; [|apply HKb].
    by apply Hfr.
  - set (q := lastz 0 (a :: f1)). assert (q ∈ a :: f1) as Hq by by apply lastz_in.
    rewrite (proj2 (nz_true q)) by (rewrite Forall_forall in HF; apply HF; set_solver).
    eexists. split; [done|]. split.
    + apply Hfr, frs_app. pose proof (keeps_st64 m (link_at q) (hdz f2 0)) as HK. split.
      * eapply frs_set_last; [exact HK| |by apply apart_app in HA' as [? _]|done|exact Hl1].
        apply load64_store64_eq. destruct f2 as [|c f2]; cbn; [lia|]. destruct (HS c c) as [? _]; [set_solver..|]. lia.
      * eapply keeps_frs; [exact HK| |done]. intros c z Hc Hz Hz'.
        destruct (HS c q) as [_ Hs]; [set_solver..|]. assert (c ≠ q); [|unfold field, link_at, HDR in *; lia].
        intros ->. apply NoDup_app in HN as (_ & HN & _). apply (HN q Hq). by right.
    + eapply mkeeps_trans; [|apply HKb]. eapply mkeeps_weaken; [apply keeps_st64|].
      intros z Hz. exists q. split; [set_solver|done].
Qed.

Lemma free_last_ok m f fl : ∀ fuel, (length fl ≤ fuel)%nat → fl ≠ [] → Forall (λ a, a ≠ 0) fl → frs m fl 0 →
  free_last fuel (hdz fl 0) (H m f) = Ok (lastz 0 fl) (H m f).
Proof.
  induction fl as [|a fl IH]; intros [|fuel] Hf Hne HF Hl; cbn [length] in Hf; try done; try lia.
  cbn [free_last hdz]. unfold get_free_next, ld64. rewrite bind_gets. cbn [hmem]. destruct Hl as [-> Hl].
  apply Forall_cons in HF as [H0 HF]. destruct fl as [|b fl]; [done|]. cbn [hdz].
  rewrite (proj2 (nz_true b)) by (by apply Forall_cons in HF as [? _]).
  apply (IH fuel); [cbn in *; lia|done|done|done].
Qed.

(** Where [add_to_free_list] puts a block. *)
Definition insert_free (b : Z) (fl : list Z) : list Z :=
  match al with FIRST_FIT => b :: fl | _ => fl ++ [b] end.
Lemma elem_insert_free a b fl : a ∈ insert_free b fl ↔ a = b ∨ a ∈ fl.
Proof. unfold insert_free. destruct al; set_solver. Qed.
Lemma length_insert_free b fl : length (insert_free b fl) = S (length fl).
Proof. unfold insert_free. destruct al; rewrite ?length_app; cbn; lia. Qed.
Lemma apart_insert_free b fl : apart (b :: fl) → apart (insert_free b fl).
Proof.
  intros [HN HA]. unfold insert_free. destruct al; [done| |]; (split; [|intros; apply HA; set_solver]);
    apply NoDup_cons in HN as [H1 H2]; apply NoDup_app; split_and!; try done; try apply NoDup_singleton; set_solver.
Qed.

Lemma add_ok m b fl :
  bytes_ok m → apart (b :: fl) → frs m fl 0 → (length fl ≤ S (Z.to_nat (br / HDR)))%nat →
  ∃ m', add_to_free_list b (H m (hdz fl 0)) = Ok () (H m' (hdz (insert_free b fl) 0)) ∧
    frs m' (insert_free b fl) 0 ∧ keeps (links (b :: fl)) m m'.
Proof.
  intros Hm HA Hl Hf. pose proof (apart_nonzero _ HA) as HF. pose proof HA as [HN HS].
  apply NoDup_cons in HN as [Hb HN]. apply Forall_cons in HF as [H0 HF].
  assert (∀ v x, keeps (links (b :: fl)) v (store64 v (link_at b) x)) as HKb.
  { intros v x. eapply mkeeps_weaken; [apply keeps_st64|]. intros z Hz. exists b. split; [set_solver|done]. }
  assert (∀ v x, frs v fl 0 → frs (store64 v (link_at b) x) fl 0) as Hfr.
  { intros v x. apply keeps_frs with (field (link_at b) 8); [apply keeps_st64|]. intros a z Ha Hz Hz'.
    destruct (HS a b) as [_ Hs]; [set_solver..|]. assert (a ≠ b); [congruence|unfold field, link_at, HDR in *; lia]. }
  assert (hdz fl 0 < 2 ^ 64 ∧ 0 ≤ hdz fl 0) as Hh.
  { destruct fl as [|c fl]; cbn; [lia|]. destruct (HS c c) as [? _]; [set_solver..|]. lia. }
  unfold add_to_free_list, set_free_next, st64. rewrite bind_modify. unfold set_hmem. cbn [hmem head free_list scribble_enabled current_fsm brk].
  rewrite bind_gets. cbn [free_list]. destruct fl as [|c fl].
  - cbn [hdz]. rewrite (proj2 (nz_false 0)) by done. cbn [negb]. exists (store64 m (link_at b) 0).
    assert (insert_free b [] = [b]) as -> by (unfold insert_free; by destruct al).
    split; [done|]. split; [|apply HKb]. cbn. split; [|done]. apply load64_store64_eq. lia.
  - cbn [hdz] in *. rewrite (proj2 (nz_true c)) by (by apply Forall_cons in HF as [? _]). cbn [negb].
    rewrite bind_gets. cbn [current_fsm].
    assert (al = FIRST_FIT ∨ insert_free b (c :: fl) = (c :: fl) ++ [b] ∧
      match al with FIRST_FIT => False | _ => True end) as [Eal|[Ei Eal]] by (unfold insert_free; destruct al; auto).
    + unfold insert_free. rewrite Eal. rewrite bind_modify. exists (store64 (store64 m (link_at b) 0) (link_at b) c). split; [done|].
      split; [|eapply mkeeps_trans; apply HKb]. cbn [frs hdz]. rewrite load64_store64_eq by lia. split; [done|].
      by apply Hfr, Hfr.
    + rewrite Ei. set (q := lastz 0 (c :: fl)). assert (q ∈ c :: fl) as Hq by by apply lastz_in.
      assert ((n ← gets blocks_max; cur ← free_last n c; modify (set_hmem (λ m, store64 m (link_at cur) b)))
          (H (store64 m (link_at b) 0) c) =
        Ok () (H (store64 (store64 m (link_at b) 0) (link_at q) b) c)) as E.
      { rewrite bind_gets. rewrite (bind_ok _ _ _ _ _ (free_last_ok (store64 m (link_at b) 0) c (c :: fl)
          (blocks_max (H (store64 m (link_at b) 0) c)) Hf ltac:(done) HF (Hfr _ _ Hl))). done. }
      eexists. split; [destruct al; [done|exact E|exact E]|]. split.
      * apply frs_app. cbn [hdz]. split.
        -- eapply frs_set_last; [apply keeps_st64| | |done|by apply Hfr].
           ++ apply load64_store64_eq. destruct (HS b b); [set_solver..|]. lia.
           ++ split; [done|]. intros; apply HS; set_solver.
        -- cbn [frs hdz]. split; [|done]. rewrite load64_store64_ne; [apply load64_store64_eq; lia|].
           destruct (HS q b) as [_ Hs]; [set_solver..|]. assert (q ≠ b); [congruence|unfold link_at, HDR in *; lia].
      * eapply mkeeps_trans; [apply HKb|]. eapply mkeeps_weaken; [apply keeps_st64|].
        intros z Hz. exists q. split; [set_solver|done].
Qed.

(** ** The search *)

(** What a policy asks of the block it picks from the free list. *)
Definition policy (sz : Z → Z) (size : Z) (fl : list Z) (r : Z) : Prop :=
  match al with
  | FIRST_FIT => ∃ f1 f2, fl = f1 ++ r :: f2 ∧ ∀ a, a ∈ f1 → sz a < size
  | BEST_FIT => ∀ a, a ∈ fl → size ≤ sz a → sz r ≤ sz a
  | WORST_FIT => ∀ a, a ∈ fl → sz a ≤ sz r
  end.
Definition picked (sz : Z → Z) (size : Z) (fl : list Z) (r : Z) : Prop :=
  (r = 0 ∧ ∀ a, a ∈ fl → sz a < size) ∨ (r ∈ fl ∧ r ≠ 0 ∧ size ≤ sz r ∧ policy sz size fl r).

Lemma find_loop_ok m f sz size fl : ∀ fuel pre best,
  (length fl < fuel)%nat → Forall (λ a, a ≠ 0) fl → frs m fl 0 →
  (∀ a, a ∈ pre ++ fl → get_size a (H m f) = Ok (sz a) (H m f)) →
  picked sz size pre best → (al = FIRST_FIT → best = 0) →
  ∃ r, find_loop fuel size best (hdz fl 0) (H m f) = Ok r (H m f) ∧ picked sz size (pre ++ fl) r.
Proof.
  induction fl as [|a fl IH]; intros [|fuel] pre best Hf HF Hl Hsz Hp Hal; cbn [length] in Hf; try lia; cbn [find_loop hdz].
  { exists best. rewrite app_nil_r. done. }
  apply Forall_cons in HF as [H0 HF]. destruct Hl as [El Hl]. rewrite (proj2 (nz_true a)) by done. cbn [negb].
  rewrite (bind_ok _ _ _ _ _ (Hsz a ltac:(set_solver))).
  assert (∀ best', picked sz size (pre ++ [a]) best' → (al = FIRST_FIT → best' = 0) →
    ∃ r, (n ← get_free_next a; find_loop fuel size best' n) (H m f) = Ok r (H m f) ∧
      picked sz size (pre ++ a :: fl) r) as Hnext.
  { intros best' Hp' Hal'. unfold get_free_next, ld64. rewrite bind_gets. cbn [hmem]. rewrite El.
    destruct (IH fuel (pre ++ [a]) best' ltac:(lia) HF Hl) as (r & E & Hr);
      [by rewrite <- app_assoc|done|done|]. exists r. split; [exact E|]. by rewrite <- app_assoc in Hr. }
  destruct (size <=? sz a) eqn:Es; zbool.
  - rewrite bind_gets. cbn [current_fsm].
    assert ((if nz best then get_size best else mret 0) (H m f) =
      Ok (if nz best then sz best else 0) (H m f)) as Eb.
    { destruct (nz best) eqn:En; [|done]. zbool. apply Hsz. destruct Hp as [[? _]|[? _]]; [done|set_solver]. }
    rewrite (bind_ok _ _ _ _ _ Eb). clear Eb. unfold picked, policy in *. destruct al.
    + exists a. split; [done|]. right. split; [set_solver|]. split; [done|]. split; [done|]. exists pre, fl. split; [done|].
      destruct Hp as [[_ Hp]|(_ & Hb & _)]; [done|]. by rewrite Hal in Hb.
    + apply Hnext; [|done]. right. destruct Hp as [[-> Hp]|(Hb1 & Hb2 & Hb3 & Hb4)].
      * cbn. split; [set_solver|]. split; [done|]. split; [done|]. intros x [Hx| ->%list_elem_of_singleton]%elem_of_app; [|lia].
        intros. specialize (Hp x Hx). lia.
      * rewrite (proj2 (nz_true best)) by done. cbn [negb orb]. destruct (sz a <? sz best) eqn:Ec; zbool.
        -- split; [set_solver|]. split; [done|]. split; [done|].
           intros x [Hx| ->%list_elem_of_singleton]%elem_of_app Hsx; [|lia]. specialize (Hb4 x Hx Hsx). lia.
        -- split; [set_solver|]. split; [done|]. split; [done|].
           intros x [Hx| ->%list_elem_of_singleton]%elem_of_app Hsx; [|lia]. by apply Hb4.
    + apply Hnext; [|done]. right. destruct Hp as [[-> Hp]|(Hb1 & Hb2 & Hb3 & Hb4)].
      * cbn. split; [set_solver|]. split; [done|]. split; [done|]. intros x [Hx| ->%list_elem_of_singleton]%elem_of_app; [|lia].
        specialize (Hp x Hx). lia.
      * rewrite (proj2 (nz_true best)) by done. cbn [negb orb]. destruct (sz best <? sz a) eqn:Ec; zbool.
        -- split; [set_solver|]. split; [done|]. split; [done|].
           intros x [Hx| ->%list_elem_of_singleton]%elem_of_app; [|lia]. specialize (Hb4 x Hx). lia.
        -- split; [set_solver|]. split; [done|]. split; [done|].
           intros x [Hx| ->%list_elem_of_singleton]%elem_of_app; [|lia]. by apply Hb4.
  - apply Hnext; [|done]. destruct Hp as [[-> Hp]|(Hb1 & Hb2 & Hb3 & Hb4)].
    + left. split; [done|]. intros x [Hx| ->%list_elem_of_singleton]%elem_of_app; [|lia]. by apply Hp.
    + right. split; [set_solver|]. split; [done|]. split; [done|]. unfold policy in *. destruct al.
      * by rewrite Hal in Hb2.
      * intros x [Hx| ->%list_elem_of_singleton]%elem_of_app Hsx; [|lia]. by apply Hb4.
      * intros x [Hx| ->%list_elem_of_singleton]%elem_of_app; [|lia]. by apply Hb4.
Qed.
End ops.

(** ** The invariant *)

Record minv m (base br : Z) bl fl (X : list Z) : Prop := {
  mi_bytes : bytes_ok m;
  mi_base : 0 < base ∧ base mod 16 = 0;
  mi_tiles : tiles base bl br;
  mi_brk : br ≤ 2 ^ 32;
  mi_seg : seg m 0 bl 0;
  mi_frs : frs m fl 0;
  mi_nodup : NoDup fl;
  mi_free a : a ∈ fl ↔ (a ∉ X) ∧ ∃ s, Blk a s true ∈ bl
}.
(** The addresses of the data of blocks in use. *)
Definition in_use bl (x : Z) : Prop := ∃ b, b ∈ bl ∧ bf b = false ∧ field (ba b + HDR) (bs b) x.
Definition data_kept bl m m' : Prop := ∀ x, in_use bl x → rd m' x = rd m x.

Lemma data_kept_trans bl m1 m2 m3 : data_kept bl m1 m2 → data_kept bl m2 m3 → data_kept bl m1 m3.
Proof. intros H1 H2 x Hx. by rewrite H2, H1. Qed.
Lemma keeps_data P bl m m' : keeps P m m' → (∀ x, in_use bl x → ¬ P x) → data_kept bl m m'.
Proof. intros [_ H] HP x Hx. by apply H, HP. Qed.

Section minv.
Context {m : memory} {base br : Z} {bl : list blk} {fl : list Z} {X : list Z}.
Context (HI : minv m base br bl fl X).

Lemma mi_in x : x ∈ bl → 0 < ba x ∧ ba x + HDR + bs x ≤ 2 ^ 32 ∧ 16 ≤ bs x ∧ bs x mod 16 = 0.
Proof using HI.
  intros Hx. destruct HI as [_ [Hb _] Ht Hbr _ _ _ _]. apply (tiles_in _ _ _ _ Ht) in Hx. lia.
Qed.
Lemma mi_fl_blk a : a ∈ fl → ∃ s, Blk a s true ∈ bl.
Proof using HI. intros Ha. by apply (mi_free _ _ _ _ _ _ HI) in Ha as [_ ?]. Qed.
Lemma mi_sep x y : x ∈ bl → y ∈ bl → x = y ∨ ba x + HDR + bs x ≤ ba y ∨ ba y + HDR + bs y ≤ ba x.
Proof using HI. apply (tiles_sep base _ br). by destruct HI. Qed.
Lemma mi_fl_length : (length fl ≤ Z.to_nat (br / HDR))%nat.
Proof using HI.
  assert (length fl ≤ length (ba <$> bl))%nat as HL.
  { apply submseteq_length, NoDup_submseteq; [by destruct HI|]. intros a Ha.
    apply mi_fl_blk in Ha as [s Ha]. by apply (list_elem_of_fmap_2 ba) in Ha. }
  rewrite length_fmap in HL. destruct HI as [_ [Hb _] Ht _ _ _ _ _]. apply tiles_length in Ht. unfold HDR. zlia.
Qed.
Lemma mi_bl_length : (length bl ≤ Z.to_nat (br / HDR))%nat.
Proof using HI. destruct HI as [_ [Hb _] Ht _ _ _ _ _]. apply tiles_length in Ht. unfold HDR. zlia. Qed.
Lemma mi_apart : apart fl.
Proof using HI.
  split; [by destruct HI|]. intros a b [s Ha]%mi_fl_blk [s' Hb]%mi_fl_blk.
  pose proof (mi_in _ Ha). pose proof (mi_in _ Hb). destruct (mi_sep _ _ Ha Hb) as [E|E]; cbn in *; unfold HDR in *.
  - injection E as -> ->. lia.
  - lia.
Qed.
Lemma mi_apart_cons x : x ∈ bl → ba x ∉ fl → apart (ba x :: fl).
Proof using HI.
  intros Hx Hn. destruct mi_apart as [HN HA]. split; [by constructor|].
  pose proof (mi_in _ Hx) as Hx'. intros a b [->|Ha]%elem_of_cons [->|Hb]%elem_of_cons; [unfold HDR in *; lia| | |by apply HA].
  - apply mi_fl_blk in Hb as [s' Hb']. pose proof (mi_in _ Hb'). destruct (mi_sep _ _ Hx Hb') as [E|E]; cbn in *; unfold HDR in *; [subst; cbn; lia|lia].
  - apply mi_fl_blk in Ha as [s' Ha']. pose proof (mi_in _ Ha'). destruct (mi_sep _ _ Hx Ha') as [E|E]; cbn in *; unfold HDR in *; [subst; cbn; lia|lia].
Qed.

(** Links are neither headers nor data in use. *)
Lemma links_seg A m' : keeps (links A) m m' → (∀ a, a ∈ A → ∃ x, x ∈ bl ∧ ba x = a) → seg m' 0 bl 0.
Proof using HI.
  intros HK HA. eapply keeps_seg; [exact HK| |by destruct HI]. intros x a Hx Hf (b & Hb & Hf').
  destruct (HA b Hb) as (y & Hy & <-). pose proof (mi_in _ Hx). pose proof (mi_in _ Hy).
  destruct (mi_sep _ _ Hx Hy) as [->|?]; unfold field, link_at, HDR in *; lia.
Qed.
Lemma links_data A m' :
  keeps (links A) m m' → (∀ a, a ∈ A → ∃ x, x ∈ bl ∧ ba x = a ∧ bf x = true) → data_kept bl m m'.
Proof using HI.
  intros HK HA. eapply keeps_data; [exact HK|]. intros x (y & Hy & Hu & Hf) (b & Hb & Hf').
  destruct (HA b Hb) as (z & Hz & <- & Hfr). pose proof (mi_in _ Hz).
  destruct (mi_sep _ _ Hy Hz) as [->|?]; [congruence|]. unfold field, link_at, HDR in *. lia.
Qed.
Lemma fl_elems a : a ∈ fl → ∃ x, x ∈ bl ∧ ba x = a ∧ bf x = true.
Proof using HI. intros [s Ha]%mi_fl_blk. by exists (Blk a s true). Qed.
End minv.

Section steps.
Context (base : Z) (sc : bool) (al : fsm_algorithm) (br : Z).
Abbreviation ST m bl fl := (Heap m (hda bl 0) (hdz fl 0) sc al br).

Lemma remove_step m bl fl X b s :
  minv m base br bl fl X → Blk b s true ∈ bl → b ∉ X →
  ∃ m' fl', remove_from_free_list b (ST m bl fl) = Ok () (ST m' bl fl') ∧
    minv m' base br bl fl' (b :: X) ∧ data_kept bl m m'.
Proof.
  intros HI Hb HX. assert (b ∈ fl) as Hin by (apply (mi_free _ _ _ _ _ _ HI); eauto).
  apply list_elem_of_split in Hin as (f1 & f2 & ->). pose proof (mi_fl_length HI) as HL. rewrite length_app in HL. cbn in HL.
  destruct (remove_ok (hda bl 0) sc al br m b f1 f2) as (m' & E & Hf & HK);
    [by destruct HI|by apply (mi_apart HI)|by destruct HI|lia|].
  exists m', (f1 ++ f2). split; [exact E|]. split; [|eapply links_data; [exact HI|exact HK|]; apply (fl_elems HI)].
  pose proof (mi_nodup _ _ _ _ _ _ HI) as HN.
  assert (NoDup (f1 ++ f2)) as HN'.
  { apply NoDup_app in HN as (H1 & H2 & [H3 H4]%NoDup_cons). apply NoDup_app. split_and!; [done| |done].
    intros x Hx Hx'. apply (H2 x Hx). by right. }
  pose proof HI as [Hby Hba Ht Hbr Hs Hfr _ Hfree]. split; try done.
  - by apply HK.
  - eapply (links_seg HI); [exact HK|]. intros a Ha. destruct (fl_elems HI a Ha) as (x & ? & ? & _). eauto.
  - intros a. assert (b ∉ f1 ++ f2) as Hbn.
    { apply NoDup_app in HN as (H1 & H2 & [H3 H4]%NoDup_cons). intros [Hx|Hx]%elem_of_app; [|done].
      apply (H2 b Hx). left. }
    specialize (Hfree a). rewrite not_elem_of_cons. destruct (decide (a = b)) as [->|Hne]; [naive_solver|].
    assert (a ∈ f1 ++ f2 ↔ a ∈ f1 ++ b :: f2) as -> by set_solver. naive_solver.
Qed.

Lemma add_step m bl fl X b s :
  minv m base br bl fl (b :: X) → Blk b s true ∈ bl → b ∉ X →
  ∃ m' fl', add_to_free_list b (ST m bl fl) = Ok () (ST m' bl fl') ∧
    minv m' base br bl fl' X ∧ data_kept bl m m'.
Proof.
  intros HI Hb HX. assert (b ∉ fl) as Hn.
  { intros Hin. apply (mi_free _ _ _ _ _ _ HI) in Hin as [Hin _]. apply Hin. left. }
  pose proof (mi_apart_cons HI _ Hb Hn) as HA. cbn [ba] in HA. pose proof (mi_fl_length HI) as HL.
  destruct (add_ok (hda bl 0) sc al br m b fl) as (m' & E & Hf & HK);
    [by destruct HI|done|by destruct HI|lia|].
  assert (∀ a, a ∈ b :: fl → ∃ x, x ∈ bl ∧ ba x = a ∧ bf x = true) as HB.
  { intros a [->|Ha]%elem_of_cons; [by exists (Blk b s true)|by apply (fl_elems HI)]. }
  exists m', (insert_free al b fl). split; [exact E|]. split; [|by eapply links_data].
  pose proof HI as [Hby Hba Ht Hbr Hs Hfr HN Hfree]. split; try done.
  - by apply HK.
  - eapply (links_seg HI); [exact HK|]. intros a Ha. destruct (HB a Ha) as (x & ? & ? & _). eauto.
  - apply (apart_insert_free al b fl HA).
  - intros a. rewrite elem_insert_free, Hfree, not_elem_of_cons. destruct (decide (a = b)) as [->|Hne]; naive_solver.
Qed.
End steps.
