(* ===== verification/UMallocOps.v ===== *)
(** * user/umalloc.c: splitting, merging, and the operations of the allocator

    Steps on the headers of blocks keep the invariant [minv]; [malloc], [free]
    and [realloc] are sequences of such steps. *)

From S2P Require Import CString ULib Riscv Printf UPrintf Prelude UMalloc UMallocProps.

Implicit Types (m : memory) (bl : list blk) (fl : list Z) (h : heap).
#[local] Arguments size_at : simpl never.
#[local] Arguments next_at : simpl never.
#[local] Arguments prev_at : simpl never.
#[local] Arguments link_at : simpl never.

(** Disjointness of fields. *)
Ltac flia := unfold field, size_at, next_at, prev_at, link_at, HDR in *; cbn [ba bs bf] in *; lia.

(** ** Changing headers *)

Definition hdrs (A : list Z) (x : Z) : Prop := ∃ a, a ∈ A ∧ field (a + 8) 24 x.

Lemma hdrs_field a b n m m' A :
  a ∈ A → a + 8 ≤ b → b + n ≤ a + 32 → keeps (field b n) m m' → keeps (hdrs A) m m'.
Proof. intros Ha H1 H2 HK. eapply mkeeps_weaken; [exact HK|]. intros x Hx. exists a. split; [done|]. flia. Qed.
Lemma hdrs_mono A B m m' : keeps (hdrs A) m m' → A ⊆ B → keeps (hdrs B) m m'.
Proof. intros HK HS. eapply mkeeps_weaken; [exact HK|]. intros x (a & Ha & Hf). exists a. split; [by apply HS|done]. Qed.

Section hdrs.
Context {m : memory} {base br : Z} {bl : list blk} {fl X : list Z} (HI : minv m base br bl fl X).
Context {A : list Z} (HA : ∀ a, a ∈ A → ∃ x, x ∈ bl ∧ ba x = a).
Context {m' : memory} (HK : keeps (hdrs A) m m').

Lemma hdrs_frs : frs m' fl 0.
Proof using HI HA HK.
  eapply keeps_frs; [exact HK| |by destruct HI]. intros b x Hb Hf (a & Ha & Hf').
  destruct (HA a Ha) as (y & Hy & <-), (fl_elems HI b Hb) as (z & Hz & <- & _).
  pose proof (mi_in HI _ Hy). pose proof (mi_in HI _ Hz). destruct (mi_sep HI _ _ Hy Hz) as [->|?]; flia.
Qed.
Lemma hdrs_data : data_kept bl m m'.
Proof using HI HA HK.
  eapply keeps_data; [exact HK|]. intros x (y & Hy & _ & Hf) (a & Ha & Hf').
  destruct (HA a Ha) as (z & Hz & <-). pose proof (mi_in HI _ Hz).
  destruct (mi_sep HI _ _ Hy Hz) as [->|?]; flia.
Qed.
Lemma hdrs_seg p l e : l ⊆ bl → (∀ y, y ∈ l → ba y ∉ A) → seg m p l e → seg m' p l e.
Proof using HI HA HK.
  intros HS HN. eapply keeps_seg; [exact HK|]. intros y x Hy Hf (a & Ha & Hf').
  destruct (HA a Ha) as (z & Hz & <-). pose proof (HS y Hy) as Hy'. pose proof (mi_in HI _ Hy'). pose proof (mi_in HI _ Hz).
  destruct (mi_sep HI _ _ Hy' Hz) as [->|?]; [by apply (HN z)|flia].
Qed.
End hdrs.

(** [if (q->next) q->next->prev = q;] *)
Lemma repoint_prev m p q l a e hd f sc al br :
  tiles a l e → 0 < a → 0 ≤ q < 2 ^ 64 → seg m p l 0 →
  ∃ m', whenM (nz (hda l 0)) (st64 (prev_at (hda l 0)) q) (Heap m hd f sc al br) = Ok () (Heap m' hd f sc al br) ∧
    seg m' q l 0 ∧ keeps (hdrs (take 1 (ba <$> l))) m m'.
Proof.
  intros Ht Ha Hq Hs. destruct l as [|x l]; cbn [hda].
  - exists m. done.
  - destruct Ht as (Hx & H1 & H2 & Ht). rewrite (proj2 (nz_true _)) by lia. cbn [whenM].
    exists (store64 m (prev_at (ba x)) q). split; [done|]. pose proof (keeps_st64 m (prev_at (ba x)) q) as HK. split.
    + destruct Hs as [(N1 & N2 & N3) Hs]. cbn [seg]. split; [split_and!|].
      * rewrite (keeps_load32 _ _ _ _ HK); [done|]. intros. flia.
      * rewrite load64_store64_ne; [done|]. flia.
      * by apply load64_store64_eq.
      * eapply keeps_seg; [exact HK| |exact Hs]. intros y z Hy Hz Hz'. apply (tiles_in _ _ _ _ Ht) in Hy. flia.
    + apply (hdrs_field (ba x) (prev_at (ba x)) 8); [left|flia|flia|done].
Qed.

Section parts.
Context {m : memory} {base br : Z} {l1 l2 : list blk} {x : blk} {fl X : list Z}.
Context (HI : minv m base br (l1 ++ x :: l2) fl X).

Lemma part_tiles : tiles base l1 (ba x) ∧ 16 ≤ bs x ∧ bs x mod 16 = 0 ∧ tiles (ba x + HDR + bs x) l2 br.
Proof using HI.
  destruct HI as [_ _ Ht _ _ _ _ _]. apply tiles_app in Ht as (b & H1 & H2 & H3 & H4 & H5). by subst b.
Qed.
Lemma part_bounds : 0 < ba x ∧ ba x + HDR + bs x ≤ br ∧ br ≤ 2 ^ 32 ∧ base ≤ ba x.
Proof using HI.
  destruct part_tiles as (H1 & H2 & _ & H3). destruct HI as [_ [H0 _] _ Hb _ _ _ _].
  apply tiles_le in H1, H3. lia.
Qed.
Lemma part_seg : seg m 0 l1 (ba x) ∧ node m (lasta 0 l1) x (hda l2 0) ∧ seg m (ba x) l2 0.
Proof using HI. destruct HI as [_ _ _ _ Hs _ _ _]. apply seg_app in Hs as (H1 & H2 & H3). done. Qed.
Lemma part_l1 y : y ∈ l1 → ba y + HDR + bs y ≤ ba x ∧ 0 < ba y ∧ 16 ≤ bs y.
Proof using HI.
  intros Hy. destruct part_tiles as (H1 & _). destruct HI as [_ [H0 _] _ _ _ _ _ _]. apply (tiles_in _ _ _ _ H1) in Hy. lia.
Qed.
Lemma part_l2 y : y ∈ l2 → ba x + HDR + bs x ≤ ba y ∧ ba y + HDR + bs y ≤ br ∧ 16 ≤ bs y.
Proof using HI. intros Hy. destruct part_tiles as (_ & _ & _ & H1). apply (tiles_in _ _ _ _ H1) in Hy. lia. Qed.
End parts.

(** The flag of a block that is not in the free list. *)
Lemma flag_step m base br l1 b s f f' l2 fl X X' :
  minv m base br (l1 ++ Blk b s f :: l2) fl X → (f = false ∨ b ∈ X) → (f' = false ∨ b ∈ X') →
  (∀ a, a ≠ b → a ∈ X ↔ a ∈ X') →
  let m' := store32 m (size_at b) (s + Z.b2z f') in
  minv m' base br (l1 ++ Blk b s f' :: l2) fl X' ∧ keeps (hdrs [b]) m m' ∧
  data_kept (l1 ++ Blk b s f :: l2) m m'.
Proof.
  intros HI Hf Hf' HX m'. pose proof (part_tiles HI) as (T1 & T2 & T3 & T4). pose proof (part_bounds HI) as HB.
  pose proof (part_seg HI) as (S1 & (N1 & N2 & N3) & S2). cbn [ba bs bf] in *.
  assert (keeps (field (size_at b) 4) m m') as HK0 by apply keeps_st32.
  assert (keeps (hdrs [b]) m m') as HK by (apply (hdrs_field b (size_at b) 4); [left|flia|flia|done]).
  assert (∀ a, a ∈ [b] → ∃ x, x ∈ l1 ++ Blk b s f :: l2 ∧ ba x = a) as HA.
  { intros a ->%list_elem_of_singleton. exists (Blk b s f). split; [set_solver|done]. }
  split; [|split; [done|by apply (hdrs_data HI HA HK)]]. pose proof HI as [Hby Hba Ht Hbr _ _ HN Hfree]. split; try done.
  - by apply HK.
  - apply tiles_app. exists b. split; [done|]. cbn. split_and!; done.
  - apply seg_app. split; [|split; [split_and!|]].
    + apply (hdrs_seg HI HA HK); [set_solver| |done]. intros y Hy E%list_elem_of_singleton. apply (part_l1 HI) in Hy. flia.
    + apply load32_store32. cbn. destruct f'; cbn; flia.
    + cbn [ba]. rewrite (keeps_load64 _ _ _ _ HK0); [done|]. intros. flia.
    + cbn [ba]. rewrite (keeps_load64 _ _ _ _ HK0); [done|]. intros. flia.
    + apply (hdrs_seg HI HA HK); [set_solver| |done]. intros y Hy E%list_elem_of_singleton. apply (part_l2 HI) in Hy. flia.
  - apply (hdrs_frs HI HA HK).
  - intros a. rewrite Hfree. destruct (decide (a = b)) as [->|Hne].
    + split; intros [H1 [s' H2]]; exfalso.
      * assert (Blk b s' true = Blk b s f) as E.
        { apply (tiles_inj _ _ _ _ _ Ht); [done|set_solver|done]. } injection E as -> <-. destruct Hf; done.
      * apply elem_of_app in H2 as [H2|[E|H2]%elem_of_cons].
        -- apply (part_l1 HI) in H2. flia.
        -- injection E as -> <-. destruct Hf'; done.
        -- apply (part_l2 HI) in H2. flia.
    + rewrite HX by done. split; intros [H1 [s' H2]]; (split; [done|]); exists s';
        apply elem_of_app in H2 as [H2|[E|H2]%elem_of_cons]; set_solver.
Qed.

(** ** Merging a block with the next *)

Definition splice (b n v : Z) : U () :=
  st32 (size_at b) v;;
  nn ← ld64 (next_at n);
  st64 (next_at b) nn;;
  whenM (nz nn) (st64 (prev_at nn) b).

Lemma splice_step m base br l1 b s f n s2 l2 fl X f' hd fz sc al br' :
  minv m base br (l1 ++ Blk b s f :: Blk n s2 true :: l2) fl X →
  n ∈ X → (f = false ∨ b ∈ X) → (f' = false ∨ b ∈ X) →
  ∃ m', splice b n (s + HDR + s2 + Z.b2z f') (Heap m hd fz sc al br') = Ok () (Heap m' hd fz sc al br') ∧
    minv m' base br (l1 ++ Blk b (s + HDR + s2) f' :: l2) fl X ∧
    data_kept (l1 ++ Blk b s f :: Blk n s2 true :: l2) m m'.
Proof.
  intros HI HnX Hf Hf'. set (bl := l1 ++ Blk b s f :: Blk n s2 true :: l2) in *.
  pose proof (part_tiles HI) as (T1 & T2 & T3 & Tn & T4 & T5 & T6). pose proof (part_bounds HI) as HB.
  pose proof (part_seg HI) as (S1 & (N1 & N2 & N3) & (M1 & M2 & M3) & S2). cbn [ba bs bf hda] in *.
  unfold splice, st32, ld64, st64. rewrite bind_modify. rewrite bind_gets. unfold set_hmem. cbn [hmem head free_list scribble_enabled current_fsm brk].
  set (v := s + HDR + s2 + Z.b2z f'). assert (0 ≤ v < 2 ^ 32) as Hv.
  { unfold v. apply tiles_le in T6. destruct f'; cbn [Z.b2z]; flia. }
  pose proof (keeps_st32 m (size_at b) v) as K1. set (m1 := store32 m (size_at b) v) in *.
  rewrite (keeps_load64 _ _ _ (next_at n) K1) by (intros; flia). rewrite M2. rewrite bind_modify. cbn [hmem head free_list scribble_enabled current_fsm brk].
  pose proof (keeps_st64 m1 (next_at b) (hda l2 0)) as K2. set (m2 := store64 m1 (next_at b) (hda l2 0)) in *.
  assert (keeps (hdrs [b]) m m2) as K12.
  { eapply mkeeps_trans; [apply (hdrs_field b (size_at b) 4); [left|flia|flia|exact K1]|].
    apply (hdrs_field b (next_at b) 8); [left|flia|flia|exact K2]. }
  assert (∀ y, y ∈ l2 → b + HDR + s + HDR + s2 ≤ ba y) as Hl2.
  { intros y Hy. apply (tiles_in _ _ _ _ T6) in Hy. flia. }
  assert (∀ a, a ∈ [b] → ∃ x, x ∈ bl ∧ ba x = a) as HA1.
  { intros a ->%list_elem_of_singleton. exists (Blk b s f). split; [set_solver|done]. }
  assert (seg m2 n l2 0) as S2'.
  { apply (hdrs_seg HI HA1 K12); [set_solver| |done]. intros y Hy E%list_elem_of_singleton. apply Hl2 in Hy. flia. }
  destruct (repoint_prev m2 n b l2 _ _ hd fz sc al br' T6 ltac:(flia) ltac:(flia) S2') as (m' & E & S3 & K3).
  unfold st64, set_hmem in E. cbn [hmem head free_list scribble_enabled current_fsm brk] in E.
  exists m'. split; [exact E|]. set (A := b :: take 1 (ba <$> l2)).
  assert (keeps (hdrs A) m m') as HK.
  { eapply mkeeps_trans; [eapply hdrs_mono; [exact K12|set_solver]|]. eapply hdrs_mono; [exact K3|set_solver]. }
  assert (∀ a, a ∈ A → ∃ x, x ∈ bl ∧ ba x = a ∧ (a = b ∨ x ∈ l2)) as HA2.
  { intros a [->|Ha]%elem_of_cons; [exists (Blk b s f); split_and!; [set_solver|done|by left]|].
    destruct l2 as [|y l2]; [by apply elem_of_nil in Ha|]. apply list_elem_of_singleton in Ha as ->.
    exists y. split_and!; [set_solver|done|right; left]. }
  assert (∀ a, a ∈ A → ∃ x, x ∈ bl ∧ ba x = a) as HA by (intros a Ha; destruct (HA2 a Ha) as (x & ? & ? & _); eauto).
  split; [|by apply (hdrs_data HI HA HK)].
  pose proof HI as [Hby Hba Ht Hbr _ _ HN Hfree].
  assert (keeps (hdrs (take 1 (ba <$> l2))) m2 m' ∧ ∀ x, b ≤ x < b + 40 → ¬ hdrs (take 1 (ba <$> l2)) x) as [_ Kb].
  { split; [done|]. intros x Hx (a & Ha & Hfx). destruct l2 as [|y l2]; [by apply elem_of_nil in Ha|].
    apply list_elem_of_singleton in Ha as ->. specialize (Hl2 y ltac:(left)). flia. }
  split; try done.
  - by apply HK.
  - apply tiles_app. exists b. split; [done|]. cbn [tiles ba bs]. split_and!; [done|flia|unfold HDR; zlia|].
    by replace (b + HDR + (s + HDR + s2)) with (b + HDR + s + HDR + s2) by lia.
  - apply seg_app. cbn [hda lasta ba]. split; [|split; [split_and!|]]; cbn [ba bs bf].
    + apply (hdrs_seg HI HA HK); [set_solver| |done]. intros y Hy Ha. destruct (HA2 _ Ha) as (x & Hx & Ex & [?|Hx2]).
      * apply (part_l1 HI) in Hy. flia.
      * apply (part_l1 HI) in Hy. apply Hl2 in Hx2. flia.
    + rewrite (keeps_load32 _ _ _ _ K3) by (intros x Hx; apply Kb; flia).
      rewrite (keeps_load32 _ _ _ _ K2) by (intros; flia). by apply load32_store32.
    + rewrite (keeps_load64 _ _ _ _ K3) by (intros x Hx; apply Kb; flia). apply load64_store64_eq.
      destruct l2 as [|y l2]; cbn; [lia|]. assert (y ∈ bl) as Hy by set_solver. apply (mi_in HI) in Hy. flia.
    + rewrite (keeps_load64 _ _ _ _ K3) by (intros x Hx; apply Kb; flia).
      rewrite (keeps_load64 _ _ _ _ K2), (keeps_load64 _ _ _ _ K1) by (intros; flia). done.
    + exact S3.
  - apply (hdrs_frs HI HA HK).
  - intros a. rewrite Hfree. split; intros [H1 [s' H2]]; (split; [done|]).
    + exists s'. apply elem_of_app in H2 as [H2|[Eb|[En|H2]%elem_of_cons]%elem_of_cons]; [set_solver| | |set_solver].
      * injection Eb as -> -> <-. destruct Hf; done.
      * injection En as -> ->. done.
    + apply elem_of_app in H2 as [H2|[Eb|H2]%elem_of_cons]; [exists s'; set_solver| |exists s'; set_solver].
      injection Eb as -> -> <-. destruct Hf'; done.
Qed.

(** ** Splitting a block *)

(** The free list holds blocks other than [b]. *)
Lemma fl_parts m base br l1 b s f l2 fl X a :
  minv m base br (l1 ++ Blk b s f :: l2) fl X → (f = false ∨ b ∈ X) → a ∈ fl →
  ∃ y, ba y = a ∧ (y ∈ l1 ∨ y ∈ l2).
Proof.
  intros HI Hf Ha. pose proof (mi_free _ _ _ _ _ _ HI a) as Hfree. apply Hfree in Ha as [HX [s' Hin]].
  exists (Blk a s' true). split; [done|]. apply elem_of_app in Hin as [?|[E|?]%elem_of_cons]; [by left| |by right].
  injection E as -> -> <-. destruct Hf; done.
Qed.

Section split.
Context (base : Z) (sc : bool) (al : fsm_algorithm) (br : Z).
Abbreviation ST m bl fl := (Heap m (hda bl 0) (hdz fl 0) sc al br).

(** The memory when the new block's header and links are in place. *)
Definition split_mem (m : memory) (b size s : Z) (l2 : list blk) : memory :=
  let nb := b + HDR + size in
  let m := store32 m (size_at nb) (s - size - HDR + 1) in
  let m := store64 m (prev_at nb) b in
  let m := store64 m (next_at nb) (hda l2 0) in
  let m := if nz (hda l2 0) then store64 m (prev_at (hda l2 0)) nb else m in
  let m := store64 m (next_at b) nb in
  let m := store32 m (size_at b) size in
  store32 m (size_at nb) (s - size - HDR + 1).

Context (m : memory) (l1 : list blk) (b s : Z) (f : bool) (l2 : list blk) (fl X : list Z) (size : Z).
Context (HI : minv m base br (l1 ++ Blk b s f :: l2) fl X) (Hf : f = false ∨ b ∈ X).
Context (Hsz : size mod 16 = 0) (Hmin : 16 ≤ size) (Hroom : size + HDR + MIN_DATA_SIZE ≤ s).
Let nb := b + HDR + size.
Let bl' := l1 ++ Blk b size false :: Blk nb (s - size - HDR) true :: l2.
Let P (x : Z) : Prop := field (b + 8) 24 x ∨ field (nb + 8) 24 x ∨ hdrs (take 1 (ba <$> l2)) x.

Lemma split_sizes : 0 < b ∧ b + HDR + s ≤ br ∧ br ≤ 2 ^ 32 ∧ s mod 16 = 0 ∧ base ≤ b.
Proof. pose proof (part_tiles HI) as (_ & _ & H & _). pose proof (part_bounds HI). cbn in *. lia. Qed.
Lemma split_l2 y : y ∈ l2 → b + HDR + s ≤ ba y ∧ ba y + HDR + bs y ≤ br ∧ 16 ≤ bs y.
Proof. apply (part_l2 HI). Qed.
Lemma split_hd2 x : hdrs (take 1 (ba <$> l2)) x → ∃ y, y ∈ l2 ∧ field (ba y + 8) 24 x.
Proof.
  intros (a & Ha & Hx). destruct l2 as [|y l]; [by apply elem_of_nil in Ha|].
  apply list_elem_of_singleton in Ha as ->. exists y. split; [left|done].
Qed.

Lemma split_keeps : keeps P m (split_mem m b size s l2).
Proof.
  pose proof split_sizes. unfold split_mem. fold nb.
  assert (∀ a v w, keeps P m v → a = size_at nb ∨ a = size_at b → keeps P m (store32 v a w)) as K1.
  { intros a v w HK Ha. eapply mkeeps_trans; [exact HK|]. eapply mkeeps_weaken; [apply keeps_st32|]. intros x Hx. unfold P.
    destruct Ha as [->| ->]; [right; left|left]; flia. }
  assert (∀ a v w, keeps P m v → a = prev_at nb ∨ a = next_at nb ∨ a = next_at b → keeps P m (store64 v a w)) as K2.
  { intros a v w HK Ha. eapply mkeeps_trans; [exact HK|]. eapply mkeeps_weaken; [apply keeps_st64|]. intros x Hx. unfold P.
    destruct Ha as [->|[->| ->]]; [right; left|right; left|left]; flia. }
  apply K1; [|by left]. apply K1; [|by right]. apply K2; [|auto].
  assert (∀ v, keeps P m v → keeps P m (if nz (hda l2 0) then store64 v (prev_at (hda l2 0)) nb else v)) as K3.
  { intros v HK. destruct (nz (hda l2 0)) eqn:E; [|done]. eapply mkeeps_trans; [exact HK|].
    eapply mkeeps_weaken; [apply keeps_st64|]. intros x Hx. right; right.
    destruct l2 as [|y l]; [done|]. exists (ba y). split; [left|]. cbn in Hx. flia. }
  apply K3, K2; [|auto]. apply K2; [|auto]. apply K1; [apply mkeeps_refl|auto].
Qed.

(** The fields of the two blocks and of the one after them. *)
Lemma split_nodes :
  node (split_mem m b size s l2) (lasta 0 l1) (Blk b size false) nb ∧
  node (split_mem m b size s l2) b (Blk nb (s - size - HDR) true) (hda l2 0) ∧
  seg (split_mem m b size s l2) nb l2 0.
Proof.
  pose proof split_sizes as HS. pose proof (part_seg HI) as (_ & (N1 & N2 & N3) & S2). cbn [ba bs bf hda] in *.
  pose proof (part_tiles HI) as (_ & _ & _ & T2). cbn [ba bs] in T2. unfold MIN_DATA_SIZE in *.
  unfold split_mem. fold nb. set (v := s - size - HDR + 1). assert (0 ≤ v < 2 ^ 32) as Hv by (unfold v; flia).
  pose proof (keeps_st32 m (size_at nb) v) as K1. set (m1 := store32 m _ _) in *.
  pose proof (keeps_st64 m1 (prev_at nb) b) as K2. set (m2 := store64 m1 _ _) in *.
  pose proof (keeps_st64 m2 (next_at nb) (hda l2 0)) as K3. set (m3 := store64 m2 _ _) in *.
  assert (seg m3 b l2 0) as S3.
  { eapply keeps_seg; [eapply (mkeeps_trans (field (nb + 8) 24)); [|eapply mkeeps_trans]| |exact S2].
    - eapply mkeeps_weaken; [exact K1|]. intros. flia.
    - eapply mkeeps_weaken; [exact K2|]. intros. flia.
    - eapply mkeeps_weaken; [exact K3|]. intros. flia.
    - intros y x Hy Hx Hx'. apply split_l2 in Hy. unfold nb in *. flia. }
  destruct (repoint_prev m3 b nb l2 _ _ 0 0 false FIRST_FIT 0 T2 ltac:(flia) ltac:(unfold nb; flia) S3) as (m4 & E4 & S4 & K4).
  assert (m4 = if nz (hda l2 0) then store64 m3 (prev_at (hda l2 0)) nb else m3) as <-.
  { destruct (nz (hda l2 0)); cbn in E4; by injection E4. }
  pose proof (keeps_st64 m4 (next_at b) nb) as K5. set (m5 := store64 m4 _ _) in *.
  pose proof (keeps_st32 m5 (size_at b) size) as K6. set (m6 := store32 m5 _ _) in *.
  pose proof (keeps_st32 m6 (size_at nb) v) as K7. set (m7 := store32 m6 _ _) in *.
  assert (∀ x, x < b + HDR + s → ¬ hdrs (take 1 (ba <$> l2)) x) as H4.
  { intros x Hx (y & Hy & Hf')%split_hd2. apply split_l2 in Hy. flia. }
  assert (0 ≤ hda l2 0 < 2 ^ 64) as Hh.
  { clear - T2 HS Hmin Hroom. destruct l2 as [|y l]; cbn; [lia|]. destruct T2 as (-> & _). flia. }
  split_and!; [split_and!|split_and!|]; cbn [ba bs bf Z.b2z].
  - rewrite (keeps_load32 _ _ _ _ K7) by (intros; unfold nb in *; flia). rewrite Z.add_0_r. apply load32_store32. flia.
  - rewrite (keeps_load64 _ _ _ _ K7), (keeps_load64 _ _ _ _ K6) by (intros; unfold nb in *; flia).
    apply load64_store64_eq. unfold nb. flia.
  - rewrite (keeps_load64 _ _ _ _ K7), (keeps_load64 _ _ _ _ K6), (keeps_load64 _ _ _ _ K5) by (intros; unfold nb in *; flia).
    rewrite (keeps_load64 _ _ _ _ K4) by (intros; apply H4; flia).
    rewrite (keeps_load64 _ _ _ _ K3), (keeps_load64 _ _ _ _ K2), (keeps_load64 _ _ _ _ K1) by (intros; unfold nb in *; flia). done.
  - by apply load32_store32.
  - rewrite (keeps_load64 _ _ _ _ K7), (keeps_load64 _ _ _ _ K6), (keeps_load64 _ _ _ _ K5) by (intros; unfold nb in *; flia).
    rewrite (keeps_load64 _ _ _ _ K4) by (intros; apply H4; unfold nb in *; flia). by apply load64_store64_eq.
  - rewrite (keeps_load64 _ _ _ _ K7), (keeps_load64 _ _ _ _ K6), (keeps_load64 _ _ _ _ K5) by (intros; unfold nb in *; flia).
    rewrite (keeps_load64 _ _ _ _ K4) by (intros; apply H4; unfold nb in *; flia).
    rewrite (keeps_load64 _ _ _ _ K3) by (intros; unfold nb in *; flia). apply load64_store64_eq. flia.
  - eapply keeps_seg; [eapply (mkeeps_trans (λ x, x < b + HDR + s)); [|eapply mkeeps_trans]| |exact S4].
    + eapply mkeeps_weaken; [exact K5|]. intros. flia.
    + eapply mkeeps_weaken; [exact K6|]. intros. flia.
    + eapply mkeeps_weaken; [exact K7|]. intros. unfold nb in *. flia.
    + intros y x Hy Hx Hx'. apply split_l2 in Hy. flia.
Qed.

Lemma split_minv : (∀ a, a ∈ X → a = b) →
  minv (split_mem m b size s l2) base br bl' fl (nb :: X) ∧ data_kept bl' m (split_mem m b size s l2).
Proof.
  intros HX. pose proof split_sizes as HS. pose proof split_keeps as HK. unfold MIN_DATA_SIZE in *.
  pose proof (part_tiles HI) as (T1 & _ & _ & T2). pose proof (part_seg HI) as (S1 & _ & _). cbn [ba bs] in *.
  pose proof HI as [Hby Hba Ht Hbr _ Hfr HN Hfree]. split.
  - split; try done.
    + by apply HK.
    + apply tiles_app. exists b. split; [done|]. cbn [tiles ba bs]. split_and!; try done; try flia; [unfold HDR in *; zlia|].
      by replace (b + HDR + size + HDR + (s - size - HDR)) with (b + HDR + s) by lia.
    + destruct split_nodes as (Hb & Hn & H2). apply seg_app. cbn [hda seg ba]. split; [|done].
      eapply keeps_seg; [exact HK| |exact S1]. intros y x Hy Hx Hx'. apply (part_l1 HI) in Hy.
      destruct Hx' as [?|[?|(z & Hz & ?)%split_hd2]]; [flia|unfold nb in *; flia|apply split_l2 in Hz; flia].
    + eapply keeps_frs; [exact HK| |exact Hfr]. intros a x Ha Hx Hx'.
      destruct (fl_parts _ _ _ _ _ _ _ _ _ _ _ HI Hf Ha) as (y & <- & [Hy|Hy]).
      * apply (part_l1 HI) in Hy. destruct Hx' as [?|[?|(z & Hz & ?)%split_hd2]]; [flia|unfold nb in *; flia|apply split_l2 in Hz; flia].
      * pose proof (split_l2 _ Hy) as Hy'. destruct Hx' as [?|[?|(z & Hz & ?)%split_hd2]]; [flia|unfold nb in *; flia|].
        pose proof (split_l2 _ Hz) as Hz'. assert (y ∈ l1 ++ Blk b s f :: l2) as Hyb by set_solver.
        assert (z ∈ l1 ++ Blk b s f :: l2) as Hzb by set_solver. destruct (mi_sep HI _ _ Hyb Hzb) as [->|?]; flia.
    + intros a. rewrite Hfree, not_elem_of_cons. split.
      * intros [H1 [s' H2]]. apply elem_of_app in H2 as [H2|[E|H2]%elem_of_cons].
        -- pose proof (part_l1 HI _ H2) as H3. cbn [ba] in H3. split_and!; [unfold nb; flia|done|exists s'; set_solver].
        -- injection E as -> -> <-. destruct Hf; done.
        -- pose proof (split_l2 _ H2) as H3. cbn [ba] in H3. split_and!; [unfold nb; flia|done|exists s'; set_solver].
      * intros [[H0 H1] [s' H2]]. split; [done|]. exists s'. apply elem_of_app in H2 as [H2|[E|[E|H2]%elem_of_cons]%elem_of_cons];
          [set_solver|done|by injection E as ->|set_solver].
  - eapply keeps_data; [exact HK|]. intros x (y & Hy & Hu & Hx) Hx'.
    apply elem_of_app in Hy as [Hy|[->|[->|Hy]%elem_of_cons]%elem_of_cons]; cbn [ba bs bf] in *; [| |done|].
    + apply (part_l1 HI) in Hy. destruct Hx' as [?|[?|(z & Hz & ?)%split_hd2]]; [flia|unfold nb in *; flia|apply split_l2 in Hz; flia].
    + destruct Hx' as [?|[?|(z & Hz & ?)%split_hd2]]; [flia|unfold nb in *; flia|apply split_l2 in Hz; flia].
    + pose proof (split_l2 _ Hy) as Hy'. destruct Hx' as [?|[?|(z & Hz & ?)%split_hd2]]; [flia|unfold nb in *; flia|].
      pose proof (split_l2 _ Hz) as Hz'. assert (y ∈ l1 ++ Blk b s f :: l2) as Hyb by set_solver.
      assert (z ∈ l1 ++ Blk b s f :: l2) as Hzb by set_solver. destruct (mi_sep HI _ _ Hyb Hzb) as [->|?]; flia.
Qed.
End split.
