(* ===== verification/UMallocSpec.v ===== *)
(** * user/umalloc.c: what malloc, free and realloc promise

    The allocator refines operations on the list [live] of allocations: a
    pointer and a size for each block in use.  [malloc] adds one, [free]
    removes one, [realloc] replaces one and keeps its contents; the data of the
    others is never touched. *)

From S2P Require Import CString ULib Riscv Printf UPrintf Prelude UMalloc UMallocProps UMallocOps.

Implicit Types (m : memory) (bl : list blk) (fl : list Z) (h : heap).
#[local] Arguments size_at : simpl never.
#[local] Arguments next_at : simpl never.
#[local] Arguments prev_at : simpl never.
#[local] Arguments link_at : simpl never.

(** ** Running stores and loads *)

Section run.
Context {A : Type} (m : memory) (hd f : Z) (sc : bool) (al : fsm_algorithm) (br : Z).
Lemma bind_st32 a v (k : () → U A) :
  (st32 a v ≫= k) (Heap m hd f sc al br) = k () (Heap (store32 m a v) hd f sc al br).
Proof. done. Qed.
Lemma bind_st64 a v (k : () → U A) :
  (st64 a v ≫= k) (Heap m hd f sc al br) = k () (Heap (store64 m a v) hd f sc al br).
Proof. done. Qed.
Lemma bind_ld64 a (k : Z → U A) :
  (ld64 a ≫= k) (Heap m hd f sc al br) = k (load64 m a) (Heap m hd f sc al br).
Proof. done. Qed.
Lemma bind_ld32 a (k : Z → U A) :
  (ld32 a ≫= k) (Heap m hd f sc al br) = k (load32 m a) (Heap m hd f sc al br).
Proof. done. Qed.
Lemma set_free_eq b :
  set_free b (Heap m hd f sc al br) = Ok () (Heap (store32 m (size_at b) (Z.lor (load32 m (size_at b)) 1)) hd f sc al br).
Proof. done. Qed.
Lemma set_used_eq b :
  set_used b (Heap m hd f sc al br) = Ok () (Heap (store32 m (size_at b) (used_size (load32 m (size_at b)))) hd f sc al br).
Proof. done. Qed.
End run.

(** ** Live allocations *)

Definition live (bl : list blk) : list (Z * Z) :=
  (λ b, (ba b + HDR, bs b)) <$> filter (λ b, bf b = false) bl.
Lemma live_app l1 l2 : live (l1 ++ l2) = live l1 ++ live l2.
Proof. unfold live. by rewrite filter_app, fmap_app. Qed.
Lemma live_used b s l : live (Blk b s false :: l) = (b + HDR, s) :: live l.
Proof. unfold live. by rewrite filter_cons_True. Qed.
Lemma live_free b s l : live (Blk b s true :: l) = live l.
Proof. unfold live. by rewrite filter_cons_False. Qed.
Lemma live_frees t : Forall (λ b, bf b = true) t → live t = [].
Proof. induction 1 as [|[b s f] t Hf _ IH]; [done|]. cbn in Hf. subst f. by rewrite live_free. Qed.
Lemma in_use_mono bl bl' x : (∀ b, b ∈ bl → bf b = false → b ∈ bl') → in_use bl x → in_use bl' x.
Proof. intros H (b & Hb & Hf & Hx). exists b. auto. Qed.

Lemma data_kept_sub bl bl' m m' :
  data_kept bl m m' → (∀ b, b ∈ bl' → bf b = false → b ∈ bl) → data_kept bl' m m'.
Proof. intros H HS x Hx. by apply H, (in_use_mono bl'). Qed.

(** Forgetting or adding taken-out addresses that are no free blocks. *)
Lemma minv_taken m base br bl fl X X' :
  minv m base br bl fl X → (∀ a s, Blk a s true ∈ bl → a ∈ X ↔ a ∈ X') → minv m base br bl fl X'.
Proof.
  intros [Hby Hba Ht Hbr Hs Hfr HN Hfree] HX. split; try done. intros a. rewrite Hfree.
  split; intros [H1 [s H2]]; (split; [|by exists s]); by rewrite (HX a s H2) in *.
Qed.

(** Writing into the data of a block in use. *)
Lemma data_step m m' base br l1 b s l2 fl X :
  minv m base br (l1 ++ Blk b s false :: l2) fl X → keeps (field (b + HDR) s) m m' →
  minv m' base br (l1 ++ Blk b s false :: l2) fl X ∧ data_kept (l1 ++ l2) m m'.
Proof.
  intros HI HK. pose proof (part_tiles HI) as (T1 & T2 & T3 & T4). cbn [ba bs] in *.
  set (bl := l1 ++ Blk b s false :: l2) in *. assert (Blk b s false ∈ bl) as Hb by (unfold bl; set_solver). split.
  - pose proof HI as [Hby Hba Ht Hbr Hs Hfr HN Hfree]. split; try done.
    + by apply HK.
    + eapply keeps_seg; [exact HK| |exact Hs]. intros y x Hy Hx Hx'. pose proof (mi_in HI _ Hy).
      destruct (mi_sep HI _ _ Hy Hb) as [->|?]; flia.
    + eapply keeps_frs; [exact HK| |exact Hfr]. intros a x Ha Hx Hx'.
      destruct (fl_parts _ _ _ _ _ _ _ _ _ _ _ HI (or_introl eq_refl) Ha) as (y & <- & [Hy|Hy]).
      * apply (part_l1 HI) in Hy. flia.
      * apply (part_l2 HI) in Hy. flia.
  - eapply keeps_data; [exact HK|]. intros x (y & [Hy|Hy]%elem_of_app & _ & Hx) Hx'.
    + apply (part_l1 HI) in Hy. flia.
    + apply (part_l2 HI) in Hy. flia.
Qed.

Section steps.
Context (base : Z) (sc : bool) (al : fsm_algorithm) (br : Z).
Abbreviation ST m bl fl := (Heap m (hda bl 0) (hdz fl 0) sc al br).

Lemma hda_mid l1 b s f s' f' l2 l3 : hda (l1 ++ Blk b s f :: l2) 0 = hda (l1 ++ Blk b s' f' :: l3) 0.
Proof. by rewrite !hda_app. Qed.

(** The last stores of [split_block]. *)
Lemma split_tail m hd f b nb size v :
  load32 m (size_at nb) = v → Z.lor v 1 = v → size mod 16 = 0 → b + 32 ≤ nb →
  (st64 (next_at b) nb;; st32 (size_at b) (used_size size);; set_free nb;; add_to_free_list nb)
    (Heap m hd f sc al br) =
  add_to_free_list nb
    (Heap (store32 (store32 (store64 m (next_at b) nb) (size_at b) size) (size_at nb) v) hd f sc al br).
Proof.
  intros Hv Hl Hs Hb. rewrite bind_st64, bind_st32, (bind_ok _ _ _ _ _ (set_free_eq _ _ _ _ _ _ _)).
  rewrite used_size_even by done. rewrite (keeps_load32 _ _ _ _ (keeps_st32 _ (size_at b) size)) by (intros; flia).
  rewrite (keeps_load32 _ _ _ _ (keeps_st64 m (next_at b) nb)) by (intros; flia). by rewrite Hv, Hl.
Qed.

Lemma split_block_eq m l1 b s f l2 fl X size :
  minv m base br (l1 ++ Blk b s f :: l2) fl X → size mod 16 = 0 → 16 ≤ size ≤ s →
  split_block b size (ST m (l1 ++ Blk b s f :: l2) fl) =
    if s <? size + HDR + MIN_DATA_SIZE then Ok () (ST m (l1 ++ Blk b s f :: l2) fl) else
    add_to_free_list (b + HDR + size) (ST (split_mem m b size s l2) (l1 ++ Blk b s f :: l2) fl).
Proof.
  intros HI Hm Hs. pose proof (part_seg HI) as (_ & N & _). pose proof (part_tiles HI) as (_ & T2 & T3 & _).
  pose proof (part_bounds HI) as HB. cbn [ba bs] in *.
  unfold split_block. rewrite (bind_ok _ _ _ _ _ (get_size_ok _ _ _ _ m _ _ _ _ N T3)). cbn [bs].
  destruct (s <? size + HDR + MIN_DATA_SIZE) eqn:E; [done|]. zbool. unfold MIN_DATA_SIZE in E.
  rewrite bind_st32, bind_st64, bind_ld64. rewrite u32_small by flia. rewrite lor_flag by (flia || (unfold HDR; zlia)).
  unfold split_mem. set (nb := b + HDR + size). set (v := s - size - HDR + 1).
  rewrite load64_store64_ne by (unfold nb; flia).
  rewrite (keeps_load64 _ _ _ (next_at b) (keeps_st32 m (size_at nb) v)) by (intros; unfold nb in *; flia).
  destruct N as (_ & N2 & _). cbn [ba] in N2. rewrite N2, bind_st64.
  set (m1 := store32 m _ _). set (m2 := store64 m1 _ _). set (m3 := store64 m2 _ _).
  assert (0 ≤ v < 2 ^ 32) as Hv by (unfold v; flia).
  assert (load32 m3 (size_at nb) = v) as E3.
  { rewrite (keeps_load32 _ _ _ _ (keeps_st64 m2 (next_at nb) (hda l2 0))) by (intros; flia).
    rewrite (keeps_load32 _ _ _ _ (keeps_st64 m1 (prev_at nb) b)) by (intros; flia). by apply load32_store32. }
  assert (Z.lor v 1 = v) as El by (apply (lor_flag_free (s - size - HDR) true); [flia|unfold HDR; zlia]).
  destruct (nz (hda l2 0)) eqn:En; cbn [whenM].
  - rewrite bind_st64. apply split_tail; [|done|done|unfold nb; flia].
    rewrite (keeps_load32 _ _ _ _ (keeps_st64 m3 (prev_at (hda l2 0)) nb)); [done|]. intros x Hx.
    destruct l2 as [|y l2]; [done|]. cbn [hda]. pose proof (part_l2 HI y ltac:(left)). unfold nb in *. flia.
  - rewrite bind_mret. apply split_tail; [done|done|done|unfold nb; flia].
Qed.

(** [split_block]: the block shrinks, a free one may follow it. *)
Lemma split_step m l1 b s f l2 fl X size :
  minv m base br (l1 ++ Blk b s f :: l2) fl X → (f = false ∨ b ∈ X) → (∀ a, a ∈ X → a = b) →
  size mod 16 = 0 → 16 ≤ size ≤ s →
  ∃ m' fl' s' f' t,
    split_block b size (ST m (l1 ++ Blk b s f :: l2) fl) = Ok () (ST m' (l1 ++ Blk b s' f' :: t ++ l2) fl') ∧
    minv m' base br (l1 ++ Blk b s' f' :: t ++ l2) fl' X ∧ data_kept (l1 ++ Blk b s' f' :: t ++ l2) m m' ∧
    Forall (λ x, bf x = true) t ∧ size ≤ s' ≤ s ∧ (f' = false ∨ b ∈ X) ∧ (f = false → f' = false).
Proof.
  intros HI Hf HX Hm Hs. rewrite (split_block_eq _ _ _ _ _ _ _ _ _ HI Hm Hs).
  destruct (s <? size + HDR + MIN_DATA_SIZE) eqn:E; zbool.
  - exists m, fl, s, f, []. split_and!; try done; lia.
  - destruct (split_minv base br m l1 b s f l2 fl X size HI Hf Hm ltac:(lia) ltac:(lia) HX) as [HI' HD].
    set (nb := b + HDR + size) in *. set (n := Blk nb (s - size - HDR) true) in *.
    destruct (add_step base sc al br _ _ _ _ nb (s - size - HDR) HI') as (m' & fl' & Ea & HI2 & HD2).
    + unfold n. set_solver.
    + intros Hn%HX. unfold nb in Hn. flia.
    + exists m', fl', size, false, [n]. cbn [app]. split_and!; try done; [|by eapply data_kept_trans|by repeat constructor|lia|by left].
      by rewrite (hda_mid l1 b s f size false l2 (n :: l2)).
Qed.

(** [take_block]: the block is in use and handed out. *)
Lemma take_step m l1 b s f l2 fl X size :
  minv m base br (l1 ++ Blk b s f :: l2) fl X → (f = false ∨ b ∈ X) → (∀ a, a ∈ X → a = b) →
  size mod 16 = 0 → 16 ≤ size ≤ s →
  ∃ m' fl' s' t,
    take_block b size (ST m (l1 ++ Blk b s f :: l2) fl) = Ok (b + HDR) (ST m' (l1 ++ Blk b s' false :: t ++ l2) fl') ∧
    minv m' base br (l1 ++ Blk b s' false :: t ++ l2) fl' [] ∧ data_kept (l1 ++ l2) m m' ∧
    Forall (λ x, bf x = true) t ∧ size ≤ s'.
Proof.
  intros HI Hf HX Hm Hs. destruct (split_step _ _ _ _ _ _ _ _ _ HI Hf HX Hm Hs)
    as (m1 & fl1 & s' & f' & t & E1 & HI1 & HD1 & Ht & Hs' & Hf' & _).
  unfold take_block. rewrite (bind_ok _ _ _ _ _ E1). pose proof (part_seg HI1) as (_ & N & _).
  pose proof (part_tiles HI1) as (_ & T2 & T3 & _). cbn [ba bs] in *.
  destruct (flag_step _ _ _ _ b s' f' false (t ++ l2) fl1 X [] HI1 Hf' (or_introl eq_refl)) as (HI2 & HK2 & HD2).
  { intros a Ha. split; [intros HXa; by destruct (Ha (HX a HXa))|by intros ?%elem_of_nil]. }
  rewrite Z.add_0_r in *. set (m2 := store32 m1 (size_at b) s') in *.
  assert (set_used b (ST m1 (l1 ++ Blk b s' f' :: t ++ l2) fl1) =
    Ok () (ST m2 (l1 ++ Blk b s' false :: t ++ l2) fl1)) as E2.
  { unfold set_used, ld32. rewrite bind_gets. cbn [hmem]. destruct N as (N1 & _). cbn [ba bs bf] in N1.
    rewrite N1, used_size_eq by done. by rewrite (hda_mid l1 b s' f' s' false (t ++ l2) (t ++ l2)). }
  rewrite (bind_ok _ _ _ _ _ E2). pose proof (part_seg HI2) as (_ & N' & _). cbn [ba] in N'.
  rewrite (bind_ok _ _ _ _ _ (get_size_ok _ _ _ _ m2 _ _ _ _ N' T3)). cbn [bs].
  assert (data_kept (l1 ++ l2) m m2) as HD.
  { eapply data_kept_trans; [eapply data_kept_sub; [exact HD1|set_solver]|eapply data_kept_sub; [exact HD2|set_solver]]. }
  unfold scribble. rewrite bind_gets2. cbn [scribble_enabled]. destruct sc; cbn [whenM].
  - rewrite bind_modify. unfold set_hmem. cbn [hmem head free_list scribble_enabled current_fsm brk].
    destruct (data_step m2 (memset m2 (b + HDR) 0xAA s') _ _ _ _ _ _ _ _ HI2) as [HI3 HD3].
    { split; [auto with cint|]. intros x Hx. rewrite rd_umemset. destruct (_ && _) eqn:Ex; [|done]. zbool. unfold field in Hx. lia. }
    exists (memset m2 (b + HDR) 0xAA s'), fl1, s', t. split_and!; try done; [|lia].
    eapply data_kept_trans; [exact HD|]. eapply data_kept_sub; [exact HD3|set_solver].
  - rewrite bind_mret. exists m2, fl1, s', t. split_and!; try done; lia.
Qed.

(** ** free *)

Lemma merge_step m l1 b s n s2 l2 fl X :
  minv m base br (l1 ++ Blk b s true :: Blk n s2 true :: l2) fl X → b ∈ X → n ∈ X → (∀ a, a ∈ X → a = b ∨ a = n) →
  ∃ m', merge b n (ST m (l1 ++ Blk b s true :: Blk n s2 true :: l2) fl) =
      Ok () (ST m' (l1 ++ Blk b (s + HDR + s2) true :: l2) fl) ∧
    minv m' base br (l1 ++ Blk b (s + HDR + s2) true :: l2) fl [b] ∧
    data_kept (l1 ++ Blk b s true :: Blk n s2 true :: l2) m m'.
Proof.
  intros HI Hb Hn HX. pose proof (part_seg HI) as (_ & N & N2 & _). pose proof (part_tiles HI) as (_ & T2 & T3 & En & T5 & T6 & T7).
  pose proof (part_bounds HI) as HB. cbn [ba bs] in *.
  destruct (splice_step _ _ _ _ _ _ _ _ _ _ _ _ true (hda (l1 ++ Blk b s true :: Blk n s2 true :: l2) 0) (hdz fl 0) sc al br HI Hn
    (or_intror Hb) (or_intror Hb)) as (m' & E & HI' & HD).
  exists m'. split_and!; [|eapply minv_taken; [exact HI'|]|done].
  - unfold merge. rewrite (bind_ok _ _ _ _ _ (get_size_ok _ _ _ _ m _ _ _ _ N T3)).
    rewrite (bind_ok _ _ _ _ _ (get_size_ok _ _ _ _ m _ _ _ _ N2 T6)). cbn [bs].
    rewrite u32_small by (apply tiles_le in T7; flia). rewrite lor_flag by (flia || (unfold HDR; zlia)).
    rewrite (hda_mid l1 b (s + HDR + s2) true s true l2 (Blk n s2 true :: l2)). exact E.
  - intros a s' Ha. rewrite list_elem_of_singleton. split; [|by intros ->].
    intros [->| ->]%HX; [done|]. exfalso. pose proof (mi_sep HI' _ (Blk b (s + HDR + s2) true) Ha ltac:(set_solver)) as Hs.
    pose proof (mi_in HI' _ Ha). destruct Hs as [Es|Hs]; [injection Es as Es _; flia|flia].
Qed.

(** A free block merges with its free neighbours; what is in use stays. *)
Lemma coalesce_next m l1 b s l2 fl :
  minv m base br (l1 ++ Blk b s true :: l2) fl [b] →
  ∃ m' s' t fl', (next ← ld64 (next_at b); nf ← (if nz next then is_free next else mret false);
      whenM nf (remove_from_free_list next;; merge b next);; add_to_free_list b) (ST m (l1 ++ Blk b s true :: l2) fl) =
      Ok () (ST m' (l1 ++ Blk b s' true :: t) fl') ∧
    minv m' base br (l1 ++ Blk b s' true :: t) fl' [] ∧ data_kept (l1 ++ Blk b s true :: l2) m m' ∧ live t = live l2.
Proof.
  intros HI. rewrite bind_ld64. pose proof (part_seg HI) as (_ & (_ & N & _) & S2). cbn [ba] in *. rewrite N.
  assert (∀ m0 fl0 s0 l0, minv m0 base br (l1 ++ Blk b s0 true :: l0) fl0 [b] → data_kept (l1 ++ Blk b s true :: l2) m m0 →
    live l0 = live l2 → (∀ x, x ∈ l2 → bf x = false → x ∈ l0) →
    ∃ m' s' t fl', add_to_free_list b (ST m0 (l1 ++ Blk b s0 true :: l0) fl0) = Ok () (ST m' (l1 ++ Blk b s' true :: t) fl') ∧
      minv m' base br (l1 ++ Blk b s' true :: t) fl' [] ∧ data_kept (l1 ++ Blk b s true :: l2) m m' ∧ live t = live l2) as Hadd.
  { intros m0 fl0 s0 l0 HI0 HD0 Hl0 Hsub. destruct (add_step base sc al br _ _ _ _ b s0 HI0) as (m' & fl' & E & HI' & HD').
    - set_solver.
    - apply not_elem_of_nil.
    - exists m', s0, l0, fl'. split_and!; [exact E|exact HI'| |done]. eapply data_kept_trans; [exact HD0|].
      eapply data_kept_sub; [exact HD'|]. intros x [Hx|[->|Hx]%elem_of_cons]%elem_of_app Hu; [set_solver|done|].
      apply elem_of_app. right. right. auto. }
  destruct l2 as [|[n s2 f2] l2]; cbn [hda ba].
  - rewrite (proj2 (nz_false 0)) by done. rewrite bind_mret. cbn [whenM]. rewrite bind_mret. by apply Hadd.
  - pose proof (mi_in HI (Blk n s2 f2) ltac:(set_solver)) as Hn. cbn [ba bs] in Hn.
    rewrite (proj2 (nz_true n)) by lia. destruct S2 as [N2 _].
    rewrite (bind_ok _ _ _ _ _ (is_free_ok _ _ _ _ m _ _ _ _ N2 ltac:(apply Hn))). cbn [bf].
    destruct f2; cbn [whenM]; [|rewrite bind_mret; by apply Hadd].
    pose proof (part_l2 HI (Blk n s2 true) ltac:(left)) as Hn2. cbn [ba bs] in Hn2.
    destruct (remove_step base sc al br m _ fl [b] n s2 HI) as (m1 & fl1 & E1 & HI1 & HD1).
    { set_solver. } { intros E%list_elem_of_singleton. pose proof (part_tiles HI). flia. }
    rewrite (bind_ok2 _ _ _ _ _ _ E1).
    destruct (merge_step m1 l1 b s n s2 l2 fl1 [n; b] HI1) as (m2 & E2 & HI2 & HD2); [set_solver|set_solver|set_solver|].
    rewrite (bind_ok _ _ _ _ _ E2). apply Hadd; [done|by eapply data_kept_trans|by rewrite live_free|set_solver].
Qed.

Lemma coalesce_step m l1 b s l2 fl :
  minv m base br (l1 ++ Blk b s true :: l2) fl [] →
  ∃ m' r fl', coalesce b (ST m (l1 ++ Blk b s true :: l2) fl) = Ok () (ST m' r fl') ∧
    minv m' base br r fl' [] ∧ data_kept (l1 ++ Blk b s true :: l2) m m' ∧ live r = live (l1 ++ l2).
Proof.
  intros HI. set (bl := l1 ++ Blk b s true :: l2) in *.
  destruct (remove_step base sc al br m bl fl [] b s HI) as (m1 & fl1 & E1 & HI1 & HD1).
  { unfold bl. set_solver. } { apply not_elem_of_nil. }
  unfold coalesce. rewrite (bind_ok _ _ _ _ _ E1), bind_ld64.
  pose proof (part_seg HI1) as (S1 & (_ & _ & N) & _). cbn [ba] in N. rewrite N.
  assert (∀ m0 k1 c s0 k2 fl0, minv m0 base br (k1 ++ Blk c s0 true :: k2) fl0 [c] → data_kept bl m m0 →
    live (k1 ++ k2) = live (l1 ++ l2) → (∀ x, x ∈ bl → bf x = false → x ∈ k1 ++ Blk c s0 true :: k2) →
    ∃ m' r fl', (next ← ld64 (next_at c); nf ← (if nz next then is_free next else mret false);
        whenM nf (remove_from_free_list next;; merge c next);; add_to_free_list c) (ST m0 (k1 ++ Blk c s0 true :: k2) fl0) =
        Ok () (ST m' r fl') ∧
      minv m' base br r fl' [] ∧ data_kept bl m m' ∧ live r = live (l1 ++ l2)) as Hnext.
  { intros m0 k1 c s0 k2 fl0 HI0 HD0 Hl0 Hsub. destruct (coalesce_next _ _ _ _ _ _ HI0) as (m' & s' & t & fl' & E & HI' & HD' & Hl).
    exists m', (k1 ++ Blk c s' true :: t), fl'. split_and!; [exact E|exact HI'| |].
    - eapply data_kept_trans; [exact HD0|]. by eapply data_kept_sub.
    - rewrite live_app, live_free, Hl, <- live_app. done. }
  destruct (decide (l1 = [])) as [->|Hne].
  - cbn [lasta]. rewrite (proj2 (nz_false 0)) by done. rewrite bind_mret. rewrite bind_mret. by apply (Hnext m1 []).
  - destruct (exists_last Hne) as (k1 & [p sp fp] & ->). rewrite lasta_app. cbn [lasta ba].
    pose proof (mi_in HI (Blk p sp fp) ltac:(unfold bl; set_solver)) as Hp. cbn [ba bs] in Hp.
    rewrite (proj2 (nz_true p)) by lia. apply seg_app in S1 as [_ [Np _]].
    rewrite (bind_ok _ _ _ _ _ (is_free_ok _ _ _ _ m1 _ _ _ _ Np ltac:(apply Hp))). cbn [bf].
    destruct fp.
    + pose proof (part_l1 HI (Blk p sp true) ltac:(set_solver)) as Hpb. cbn [ba bs] in Hpb.
      destruct (remove_step base sc al br m1 bl fl1 [b] p sp HI1) as (m2 & fl2 & E2 & HI2 & HD2).
      { unfold bl. set_solver. } { intros E%list_elem_of_singleton. flia. }
      rewrite (bind_ok2 _ _ _ _ _ _ E2). unfold bl in *. rewrite <- app_assoc in *. cbn [app] in *.
      destruct (merge_step m2 k1 p sp b s l2 fl2 [p; b] HI2) as (m3 & E3 & HI3 & HD3); [set_solver|set_solver|set_solver|].
      rewrite (bind_ok2 _ _ _ _ _ _ E3), bind_mret. apply Hnext; [done| |by rewrite ?live_app, ?live_free, ?live_app, ?app_nil_r|].
      * eapply data_kept_trans; [exact HD1|]. by eapply data_kept_trans.
      * set_solver.
    + rewrite bind_mret. by apply Hnext.
Qed.

Lemma free_step m l1 b s l2 fl :
  minv m base br (l1 ++ Blk b s false :: l2) fl [] →
  ∃ m' r fl', free (b + HDR) (ST m (l1 ++ Blk b s false :: l2) fl) = Ok () (ST m' r fl') ∧
    minv m' base br r fl' [] ∧ data_kept (l1 ++ l2) m m' ∧ live r = live (l1 ++ l2).
Proof.
  intros HI. pose proof (part_bounds HI) as HB. pose proof (part_tiles HI) as (_ & T2 & T3 & _).
  pose proof (part_seg HI) as (_ & (N & _) & _). cbn [ba bs bf Z.b2z] in *.
  unfold free. rewrite (proj2 (nz_true _)) by flia. cbn [negb]. replace (b + HDR - HDR) with b by lia.
  rewrite (bind_ok _ _ _ _ _ (set_free_eq _ _ _ _ _ _ _)). rewrite N, Z.add_0_r, lor_flag by (done || lia).
  destruct (flag_step _ _ _ _ b s false true l2 fl [] [b] HI (or_introl eq_refl)) as (HI1 & _ & HD1); [right; set_solver|set_solver|].
  cbn [Z.b2z] in *. set (m1 := store32 m (size_at b) (s + 1)) in *.
  destruct (add_step base sc al br m1 _ fl [] b s HI1) as (m2 & fl2 & E2 & HI2 & HD2); [set_solver|apply not_elem_of_nil|].
  rewrite (hda_mid l1 b s false s true l2 l2), (bind_ok _ _ _ _ _ E2).
  destruct (coalesce_step m2 l1 b s l2 fl2 HI2) as (m3 & r & fl3 & E3 & HI3 & HD3 & Hl).
  exists m3, r, fl3. split_and!; [exact E3|exact HI3| |exact Hl].
  eapply data_kept_trans; [eapply data_kept_sub; [exact HD1|set_solver]|].
  eapply data_kept_trans; (eapply data_kept_sub; [eassumption|set_solver]).
Qed.

(** ** Growing the heap *)

Lemma last_block_ok m hd f fuel bl p :
  (length bl ≤ fuel)%nat → bl ≠ [] → seg m p bl 0 → Forall (λ x, ba x ≠ 0) bl →
  last_block fuel (hda bl 0) (Heap m hd f sc al br) = Ok (lasta p bl) (Heap m hd f sc al br).
Proof.
  revert fuel p. induction bl as [|x bl IH]; intros [|fuel] p Hf Hne Hs HF; cbn [length] in Hf; try done; try lia.
  cbn [last_block hda lasta]. rewrite bind_ld64. destruct Hs as [(_ & N & _) Hs]. rewrite N.
  apply Forall_cons in HF as [H0 HF]. destruct bl as [|y bl]; [done|]. cbn [hda].
  rewrite (proj2 (nz_true (ba y))) by (by apply Forall_cons in HF as [? _]). apply (IH fuel (ba x)); [cbn in *; lia|done|done|done].
Qed.
End steps.

(** A new block, with its own fields set, is linked after the last one. *)
Definition link_new (newb : Z) : U () :=
  hd ← gets head;
  if negb (nz hd) then modify (set_head newb)
  else
    n ← gets blocks_max;
    tmp ← last_block n hd;
    st64 (next_at tmp) newb;;
    st64 (prev_at newb) tmp.

Lemma link_new_step base sc al br m m1 bl fl req :
  minv m base br bl fl [] → HDR + 16 ≤ req → req mod 16 = 0 → br + req ≤ 2 ^ 32 →
  keeps (λ x, br ≤ x) m m1 → load32 m1 (size_at br) = req - HDR →
  load64 m1 (prev_at br) = 0 → load64 m1 (next_at br) = 0 →
  let r := bl ++ [Blk br (req - HDR) false] in
  ∃ m', link_new br (Heap m1 (hda bl 0) (hdz fl 0) sc al (br + req)) = Ok () (Heap m' (hda r 0) (hdz fl 0) sc al (br + req)) ∧
    minv m' base (br + req) r fl [] ∧ data_kept bl m m'.
Proof.
  intros HI Hreq Hmod Hmax HK L1 L2 L3 r. pose proof HI as [Hby [Hb0 Hb16] Ht Hbr Hs Hfr HN Hfree].
  pose proof (tiles_le _ _ _ Ht) as Hle.
  assert (∀ x, x ∈ bl → base ≤ ba x ∧ ba x + HDR + bs x ≤ br ∧ 16 ≤ bs x) as Hin.
  { intros x Hx. pose proof (tiles_in _ _ _ _ Ht Hx). lia. }
  assert (seg m1 0 bl 0) as Hs1.
  { eapply keeps_seg; [exact HK| |exact Hs]. intros x a Hx Hf Ha. apply Hin in Hx. flia. }
  (* the memory after linking, when [P] holds of what changed *)
  assert (∀ m' P, keeps P m m' → (∀ x a, x ∈ bl → field (link_at (ba x)) (bs x) a → ¬ P a) →
    seg m' 0 r 0 → minv m' base (br + req) r fl [] ∧ data_kept bl m m') as Hdone.
  { intros m' P HK' HP Hs'. split.
    - split; try done.
      + by apply HK'.
      + apply tiles_app. exists br. split; [done|]. cbn. unfold HDR in *. split_and!; [done|lia|zlia|lia].
      + eapply keeps_frs; [exact HK'| |exact Hfr]. intros b a Hb Ha. apply Hfree in Hb as [_ [s Hb]].
        apply (HP _ a Hb). apply Hin in Hb. flia.
      + intros a. rewrite Hfree. unfold r. split; intros [H1 [s H2]]; (split; [done|]); exists s; set_solver.
    - eapply keeps_data; [exact HK'|]. intros x (b & Hb & _ & Hx). by apply (HP b). }
  unfold link_new. rewrite bind_gets. cbn [head].
  destruct (decide (bl = [])) as [->|Hne].
  - cbn [hda]. rewrite (proj2 (nz_false 0)) by done. cbn [negb]. exists m1. split; [done|]. eapply Hdone; [exact HK|by intros x a ?%elem_of_nil|].
    cbn. split; [|done]. split_and!; [|done|done]. cbn [ba bs bf Z.b2z]. lia.
  - assert (Forall (λ x, ba x ≠ 0) bl) as HF by (apply Forall_forall; intros x Hx; apply Hin in Hx; lia).
    rewrite (proj2 (nz_true (hda bl 0))).
    2:{ destruct bl as [|x bl]; [done|]. by apply Forall_cons in HF as [? _]. }
    cbn [negb]. rewrite bind_gets.
    assert (length bl ≤ blocks_max (Heap m1 (hda bl 0) (hdz fl 0) sc al (br + req)))%nat as HL.
    { pose proof (mi_bl_length HI) as HL. unfold blocks_max. cbn [brk]. apply Nat.le_le_succ_r. etransitivity; [exact HL|].
      unfold HDR in *. apply Z2Nat.inj_le; [apply Z.div_pos; lia..|apply Z.div_le_mono; lia]. }
    rewrite (bind_ok _ _ _ _ _ (last_block_ok sc al (br + req) m1 _ _ _ bl 0 HL Hne Hs1 HF)).
    rewrite bind_st64. destruct (exists_last Hne) as (k & y & ->). rewrite lasta_app. cbn [lasta].
    pose proof (Hin y ltac:(set_solver)) as Hy. apply seg_app in Hs1 as [Hk [(Y1 & Y2 & Y3) _]]. cbn [hda ba] in *.
    set (m2 := store64 m1 (next_at (ba y)) br). pose proof (keeps_st64 m1 (next_at (ba y)) br) as K2. fold m2 in K2.
    set (m3 := store64 m2 (prev_at br) (ba y)). pose proof (keeps_st64 m2 (prev_at br) (ba y)) as K3. fold m3 in K3.
    exists m3. split; [unfold r; by destruct k|]. apply (Hdone m3 (λ x, br ≤ x ∨ field (next_at (ba y)) 8 x)).
    + eapply mkeeps_trans; [eapply mkeeps_weaken; [exact HK|auto]|]. eapply mkeeps_trans; (eapply mkeeps_weaken; [eassumption|]); [auto|].
      intros x Hx. left. flia.
    + intros x a Hx Ha [HP|HP]; [apply Hin in Hx; flia|]. pose proof (Hin x Hx).
      destruct (tiles_sep _ _ _ x y Ht Hx ltac:(set_solver)) as [->|?]; flia.
    + unfold r. rewrite <- app_assoc. apply seg_app. cbn [app hda seg lasta ba]. split; [|split_and!; [split_and!|split_and!|done]]; cbn [ba bs bf Z.b2z].
      * eapply keeps_seg; [eapply (mkeeps_trans (λ x, br ≤ x ∨ field (next_at (ba y)) 8 x) _ m2)| |exact Hk].
        -- eapply mkeeps_weaken; [exact K2|auto].
        -- eapply mkeeps_weaken; [exact K3|]. intros x Hx. left. flia.
        -- intros x a Hx Ha [HP|HP]; [pose proof (Hin x ltac:(set_solver)); flia|]. pose proof (Hin x ltac:(set_solver)).
           apply tiles_app in Ht as (c & Tk & Ty & _). apply (tiles_in _ _ _ _ Tk) in Hx. flia.
      * rewrite (keeps_load32 _ _ _ _ K3), (keeps_load32 _ _ _ _ K2) by (intros; flia). done.
      * rewrite (keeps_load64 _ _ _ _ K3) by (intros; flia). apply load64_store64_eq. lia.
      * rewrite (keeps_load64 _ _ _ _ K3), (keeps_load64 _ _ _ _ K2) by (intros; flia). done.
      * rewrite (keeps_load32 _ _ _ _ K3), (keeps_load32 _ _ _ _ K2) by (intros; flia). lia.
      * rewrite (keeps_load64 _ _ _ _ K3), (keeps_load64 _ _ _ _ K2) by (intros; flia). done.
      * apply load64_store64_eq. flia.
Qed.

(** ** The contract of the allocator *)

Definition hinv h (base : Z) bl fl : Prop :=
  head h = hda bl 0 ∧ free_list h = hdz fl 0 ∧ minv (hmem h) base (brk h) bl fl [].

Lemma elem_live p n bl : (p, n) ∈ live bl ↔ Blk (p - HDR) n false ∈ bl.
Proof.
  unfold live. rewrite list_elem_of_fmap. split.
  - intros ([b s f] & E & Hf). cbn in E. injection E as -> ->.
    apply list_elem_of_filter in Hf as [Hf Hb]. cbn in Hf. subst f. by replace (b + HDR - HDR) with b by lia.
  - intros H. exists (Blk (p - HDR) n false). cbn. split; [f_equal; lia|]. by apply list_elem_of_filter.
Qed.
Lemma in_use_live bl x : in_use bl x ↔ ∃ p n, (p, n) ∈ live bl ∧ p ≤ x < p + n.
Proof.
  split.
  - intros ([b s f] & Hb & Hf & Hx). cbn in Hf. subst f. exists (b + HDR), s. rewrite elem_live.
    split; [by replace (b + HDR - HDR) with b by lia|]. exact Hx.
  - intros (p & n & H%elem_live & Hx). exists (Blk (p - HDR) n false). split_and!; [done|done|]. cbn. flia.
Qed.
(** Allocations do not overlap and are aligned. *)
Lemma live_ok h base bl fl p n :
  hinv h base bl fl → (p, n) ∈ live bl →
  p mod 16 = 0 ∧ HDR < p ∧ p + n ≤ brk h ∧ 16 ≤ n ∧
  ∀ q k, (q, k) ∈ live bl → (q, k) = (p, n) ∨ p + n ≤ q ∨ q + k ≤ p.
Proof.
  intros (_ & _ & HI) Hp%elem_live. pose proof HI as [_ [H0 H1] Ht _ _ _ _ _].
  pose proof (tiles_in _ _ _ _ Ht Hp). pose proof (tiles_aligned _ _ _ _ Ht H1 Hp). cbn [ba bs] in *.
  split_and!; try flia; [unfold HDR in *; zlia|]. intros q k Hq%elem_live.
  pose proof (tiles_in _ _ _ _ Ht Hq). destruct (tiles_sep _ _ _ _ _ Ht Hp Hq) as [E|E]; [|right; flia].
  left. injection E as E1 E2. f_equal; lia.
Qed.

Lemma min_size_ok size :
  0 < size < 2 ^ 32 - 16 → 16 ≤ min_size size ∧ min_size size mod 16 = 0 ∧ size ≤ min_size size < size + 16.
Proof.
  intros H. unfold min_size, align_size, MIN_DATA_SIZE, ALIGN. change (16 - 1) with (Z.ones 4).
  rewrite land_lnot_ones by lia. change (Z.ones 4) with 15. change (2 ^ 4) with 16. rewrite u32_small by lia.
  destruct (_ <? 16) eqn:E; zbool; zlia.
Qed.

Lemma find_free_block_ok h base bl fl size :
  hinv h base bl fl →
  ∃ r, find_free_block size h = Ok r h ∧
    picked (current_fsm h) (λ a, used_size (load32 (hmem h) (size_at a))) size fl r.
Proof.
  destruct h as [m hd f sc al br]. intros (E1 & E2 & HI). cbn [head free_list hmem brk] in *. subst hd f. unfold find_free_block. rewrite !bind_gets. cbn [free_list current_fsm hmem brk].
  apply (find_loop_ok _ sc al br m _ _ size fl _ []).
  - pose proof (mi_fl_length HI). unfold blocks_max. cbn. cbn in H. lia.
  - apply apart_nonzero, (mi_apart HI).
  - by destruct HI.
  - intros a Ha. done.
  - left. split; [done|]. by intros a ?%elem_of_nil.
  - done.
Qed.

Lemma minv_split m base br bl fl X b :
  minv m base br bl fl X → b ∈ bl → ∃ l1 l2, bl = l1 ++ b :: l2.
Proof. intros _ Hb. by apply list_elem_of_split in Hb. Qed.

Section malloc.
Context (grow : Z → Z → bool).
(** The kernel does not let a process grow past 4 GB (a machine has 128 MB). *)
Hypothesis grow_bounded : ∀ b n, grow b n = true → b + n ≤ 2 ^ 32.

(** The kernel refused to grow the heap for a request of [size] bytes: by at
    least as many, and at most two pages more. *)
Definition refused h (size : Z) : Prop := ∃ n, size ≤ n < size + 8224 ∧ grow (brk h) n = false.

(** Memory from [sbrk]. *)
Lemma malloc_grow h base bl fl z :
  hinv h base bl fl → 16 ≤ z → z mod 16 = 0 → z + 8192 ≤ 2 ^ 31 →
  let request := u32 (u32 (u32 (HDR + z) + PAGE_SIZE - 1) / PAGE_SIZE * PAGE_SIZE) in
  let r := (newb ← sbrk grow request;
    if newb =? SBRK_ERROR then mret 0 else
    st32 (size_at newb) (used_size (u32 (request - HDR)));;
    st64 (prev_at newb) 0;;
    st64 (next_at newb) 0;;
    modify (set_hmem (λ m, wr m newb 0));;
    link_new newb;;
    take_block newb z) h in
  r = Ok 0 h ∧ (∃ n, z ≤ n < z + 4096 + HDR ∧ grow (brk h) n = false) ∨
  ∃ p n h' bl' fl', r = Ok p h' ∧ hinv h' base bl' fl' ∧ z ≤ n ∧ live bl' ≡ₚ (p, n) :: live bl ∧
    data_kept bl (hmem h) (hmem h').
Proof using grow_bounded.
  destruct h as [m hd f sc al br]. intros (E1 & E2 & HI) Hz1 Hz2 Hz3 request r. cbn [head free_list hmem brk] in *. subst hd f.
  assert (request = (HDR + z + 4095) / 4096 * 4096) as Hreq.
  { unfold request, PAGE_SIZE, HDR in *. rewrite (u32_small (32 + z)) by lia. rewrite (u32_small (32 + z + 4096 - 1)) by lia.
    rewrite u32_small by zlia. f_equal. f_equal. lia. }
  assert (HDR + z ≤ request < 2 ^ 31 ∧ request mod 16 = 0) as [Hr Hr16] by (rewrite Hreq; unfold HDR in *; zlia).
  assert (request < z + 4096 + HDR) as Hr2 by (rewrite Hreq; unfold HDR in *; zlia). clearbody request. unfold r, sbrk. clear r. rewrite bind_gets2. cbn [brk]. rewrite (s32_small request) by (unfold HDR in *; lia).
  destruct (grow br request) eqn:Eg; [right|left; rewrite bind_mret, Z.eqb_refl; split; [done|]; exists request; unfold HDR in *; split; [lia|done]].
  apply grow_bounded in Eg. pose proof HI as [Hby [Hb0 Hb16] Ht Hbr _ _ _ _]. pose proof (tiles_le _ _ _ Ht) as Hle.
  unfold set_hmem at 1, set_brk. rewrite bind_modify2. cbn [hmem head free_list scribble_enabled current_fsm brk].
  rewrite bind_modify2. cbn [hmem head free_list scribble_enabled current_fsm brk]. rewrite bind_mret.
  rewrite (proj2 (Z.eqb_neq br SBRK_ERROR)) by (unfold SBRK_ERROR; lia).
  rewrite bind_st32, !bind_st64, bind_modify. unfold set_hmem at 1. cbn [hmem head free_list scribble_enabled current_fsm brk].
  rewrite u32_small by (unfold HDR in *; lia). rewrite used_size_even by (unfold HDR; zlia).
  set (m0 := memset m br 0 request). set (m1 := store32 m0 (size_at br) (request - HDR)).
  set (m2 := store64 m1 (prev_at br) 0). set (m3 := store64 m2 (next_at br) 0). set (m4 := wr m3 br 0).
  assert (keeps (field br 1) m3 m4) as K4.
  { split; [intros; by apply bytes_ok_wr|]. intros x Hx. apply rd_wr_ne. intros ->. apply Hx. unfold field. lia. }
  pose proof (keeps_st64 m2 (next_at br) 0 : keeps _ m2 m3) as K3. pose proof (keeps_st64 m1 (prev_at br) 0 : keeps _ m1 m2) as K2.
  pose proof (keeps_st32 m0 (size_at br) (request - HDR) : keeps _ m0 m1) as K1.
  assert (keeps (λ x, br ≤ x) m m0) as K0.
  { split; [intros; by apply bytes_ok_umemset|]. intros x Hx. unfold m0. rewrite rd_umemset. destruct (_ && _) eqn:E; [zbool; lia|done]. }
  assert (keeps (λ x, br ≤ x) m m4) as HK.
  { eapply mkeeps_trans; [exact K0|]. eapply mkeeps_trans; [eapply mkeeps_weaken; [exact K1|intros; flia]|].
    eapply mkeeps_trans; [eapply mkeeps_weaken; [exact K2|intros; flia]|].
    eapply mkeeps_trans; [eapply mkeeps_weaken; [exact K3|intros; flia]|]. eapply mkeeps_weaken; [exact K4|intros; flia]. }
  destruct (link_new_step base sc al br m m4 bl fl request HI) as (m5 & E5 & HI5 & HD5).
  { flia. } { done. } { lia. } { done. }
  { rewrite (keeps_load32 _ _ _ _ K4), (keeps_load32 _ _ _ _ K3), (keeps_load32 _ _ _ _ K2) by (intros; flia).
    apply load32_store32. flia. }
  { rewrite (keeps_load64 _ _ _ _ K4), (keeps_load64 _ _ _ _ K3) by (intros; flia). apply load64_store64_eq. lia. }
  { rewrite (keeps_load64 _ _ _ _ K4) by (intros; flia). apply load64_store64_eq. lia. }
  rewrite (bind_ok _ _ _ _ _ E5).
  destruct (take_step base sc al (br + request) m5 bl br (request - HDR) false [] fl [] z HI5 (or_introl eq_refl))
    as (m6 & fl' & n & t & E6 & HI6 & HD6 & Hft & Hn); [by intros a ?%elem_of_nil|done|flia|].
  rewrite !app_nil_r in *. exists (br + HDR), n. do 3 eexists. split; [exact E6|]. split; [by split_and!|]. split; [lia|]. split.
  - rewrite live_app, live_used, (live_frees t Hft). by rewrite <- Permutation_cons_append.
  - by eapply data_kept_trans.
Qed.

(** What [malloc] does to a heap, for a request that is not absurdly large. *)
Lemma malloc_ok h base bl fl size :
  hinv h base bl fl → 0 < size → size + 8208 ≤ 2 ^ 31 →
  malloc grow size h = Ok 0 h ∧ refused h size ∧ (∀ b s, Blk b s true ∈ bl → s < size + 16) ∨
  ∃ p n h' bl' fl', malloc grow size h = Ok p h' ∧ hinv h' base bl' fl' ∧ size ≤ n ∧ live bl' ≡ₚ (p, n) :: live bl ∧
    data_kept bl (hmem h) (hmem h').
Proof using grow_bounded.
  intros HH Hs0 Hs1. destruct (min_size_ok size ltac:(lia)) as (Z1 & Z2 & Z3). unfold malloc.
  rewrite (proj2 (Z.eqb_neq size 0)) by lia. set (z := min_size size) in *. clearbody z.
  destruct (find_free_block_ok h base bl fl z HH) as (r & Ef & Hp). rewrite (bind_ok _ _ _ _ _ Ef).
  destruct Hp as [[-> Hnone]|(Hr & Hr0 & Hsz & _)].
  - rewrite (proj2 (nz_false 0)) by done.
    destruct (malloc_grow h base bl fl z HH Z1 Z2 ltac:(lia)) as [[E (n & Hn & Hg)]|(p & n & h' & bl' & fl' & E & H1 & H2 & H3 & H4)].
    + left. split; [exact E|]. split; [exists n; split; [flia|done]|]. intros b s Hb. destruct HH as (_ & _ & HI).
      assert (b ∈ fl) as Hbf by (apply (mi_free _ _ _ _ _ _ HI); split; [apply not_elem_of_nil|by exists s]).
      specialize (Hnone b Hbf). cbn beta in Hnone. destruct (minv_split _ _ _ _ _ _ _ HI Hb) as (l1 & l2 & ->).
      pose proof (part_seg HI) as (_ & (N & _) & _). pose proof (part_tiles HI) as (_ & _ & T3 & _). cbn [ba bs bf] in *.
      rewrite N, used_size_eq in Hnone by done. lia.
    + right. exists p, n, h', bl', fl'. split_and!; [exact E|done|lia|done|done].
  - rewrite (proj2 (nz_true r)) by done. destruct h as [m hd f sc al br]. destruct HH as (E1 & E2 & HI).
    cbn [head free_list hmem brk] in *. subst hd f. pose proof Hr as Hr'. apply (mi_free _ _ _ _ _ _ HI) in Hr' as [_ [s Hb]].
    assert (z ≤ s) as Hzs.
    { destruct (minv_split _ _ _ _ _ _ _ HI Hb) as (l1 & l2 & ->). pose proof (part_seg HI) as (_ & (N & _) & _).
      pose proof (part_tiles HI) as (_ & _ & T3 & _). cbn [ba bs bf] in *. by rewrite N, used_size_eq in Hsz. }
    destruct (remove_step base sc al br m bl fl [] r s HI Hb ltac:(apply not_elem_of_nil)) as (m1 & fl1 & Er & HI1 & HD1).
    rewrite (bind_ok _ _ _ _ _ Er). apply list_elem_of_split in Hb as (l1 & l2 & ->).
    destruct (take_step base sc al br m1 l1 r s true l2 fl1 [r] z HI1) as (m6 & fl' & n & t & E6 & HI6 & HD6 & Hft & Hn);
      [right; set_solver|set_solver|done|lia|].
    right. exists (r + HDR), n. do 3 eexists. split; [exact E6|]. split; [by split_and!|]. split; [lia|]. split.
    + rewrite !live_app, live_used, live_free, live_app, (live_frees t Hft). cbn [app]. symmetry. apply Permutation_middle.
    + eapply data_kept_trans; [exact HD1|]. eapply data_kept_sub; [exact HD6|]. intros x Hx Hu.
      apply elem_of_app in Hx as [Hx|[->|Hx]%elem_of_cons]; [set_solver|done|set_solver].
Qed.
End malloc.

(** ** free and realloc on a heap *)

Lemma free_ok h base bl fl p n :
  hinv h base bl fl → (p, n) ∈ live bl →
  ∃ h' bl' fl', free p h = Ok () h' ∧ hinv h' base bl' fl' ∧ live bl ≡ₚ (p, n) :: live bl' ∧
    data_kept bl' (hmem h) (hmem h').
Proof.
  destruct h as [m hd f sc al br]. intros (E1 & E2 & HI) Hp%elem_live. cbn [head free_list hmem brk] in *. subst hd f.
  apply list_elem_of_split in Hp as (l1 & l2 & ->).
  destruct (free_step base sc al br m l1 (p - HDR) n l2 fl HI) as (m' & r & fl' & E & HI' & HD & Hl).
  replace (p - HDR + HDR) with p in E by lia. exists (Heap m' (hda r 0) (hdz fl' 0) sc al br), r, fl'. split; [exact E|].
  split; [done|]. split.
  - rewrite Hl, !live_app, live_used. replace (p - HDR + HDR) with p by lia. symmetry. apply Permutation_middle.
  - intros x Hx. apply HD. apply in_use_live. rewrite <- Hl. by apply in_use_live.
Qed.

(** The new state of an allocation: the others are as before. *)
Definition reallocated (h h' : heap) (bl bl' : list blk) (p n q k : Z) : Prop :=
  ∃ L, live bl ≡ₚ (p, n) :: L ∧ live bl' ≡ₚ (q, k) :: L ∧
    (∀ i, 0 ≤ i < n → i < k → rd (hmem h') (q + i) = rd (hmem h) (p + i)) ∧
    (∀ a c x, (a, c) ∈ L → a ≤ x < a + c → rd (hmem h') x = rd (hmem h) x).

Lemma shrink_ok h base bl fl p n z :
  hinv h base bl fl → (p, n) ∈ live bl → z mod 16 = 0 → 16 ≤ z ≤ n →
  ∃ k h' bl' fl', split_block (p - HDR) z h = Ok () h' ∧ hinv h' base bl' fl' ∧ z ≤ k ∧ reallocated h h' bl bl' p n p k.
Proof.
  destruct h as [m hd f sc al br]. intros (E1 & E2 & HI) Hp%elem_live Hz Hzn. cbn [head free_list hmem brk] in *. subst hd f.
  apply list_elem_of_split in Hp as (l1 & l2 & ->).
  destruct (split_step base sc al br m l1 (p - HDR) n false l2 fl [] z HI (or_introl eq_refl)) as
    (m' & fl' & s' & f' & t & E & HI' & HD & Hft & Hs' & _ & Hf'); [by intros a ?%elem_of_nil|done|done|].
  rewrite Hf' in * by done. exists s'. do 3 eexists. split; [exact E|]. split; [by split_and!|]. split; [lia|].
  exists (live (l1 ++ l2)). rewrite !live_app, !live_used, !live_app, (live_frees t Hft). replace (p - HDR + HDR) with p by lia.
  cbn [app]. split_and!; [by rewrite Permutation_middle|by rewrite Permutation_middle| |]; cbn [hmem].
  - intros i Hi Hk. apply HD. exists (Blk (p - HDR) s' false). split_and!; [set_solver|done|]. flia.
  - intros a c x Ha Hx. apply HD, in_use_live. exists a, c. split; [|done].
    rewrite !live_app, live_used, live_app, (live_frees t Hft). set_solver.
Qed.

(** The tail of [realloc_in_place] on a block in use: split, mark, scribble. *)
Lemma regrow_tail base sc al br m l1 b s l2 fl old z :
  minv m base br (l1 ++ Blk b s false :: l2) fl [] → z mod 16 = 0 → 16 ≤ z ≤ s → 0 ≤ old ≤ z →
  ∃ m' fl' s' t,
    (split_block b z;; set_used b;;
     e ← gets scribble_enabled;
     whenM e (sz ← get_size b;
       let scribble_len := u32 (sz - old) in
       whenM (nz scribble_len) (modify (set_hmem (λ m, memset m (b + HDR + old) 0xAA scribble_len)))))
      (Heap m (hda (l1 ++ Blk b s false :: l2) 0) (hdz fl 0) sc al br) =
      Ok () (Heap m' (hda (l1 ++ Blk b s' false :: t ++ l2) 0) (hdz fl' 0) sc al br) ∧
    minv m' base br (l1 ++ Blk b s' false :: t ++ l2) fl' [] ∧ Forall (λ x, bf x = true) t ∧ z ≤ s' ∧
    data_kept (l1 ++ l2) m m' ∧ (∀ i, 0 ≤ i < old → rd m' (b + HDR + i) = rd m (b + HDR + i)).
Proof.
  intros HI Hz Hzs Hold.
  destruct (split_step base sc al br m l1 b s false l2 fl [] z HI (or_introl eq_refl)) as
    (m1 & fl' & s' & f' & t & E & HI1 & HD1 & Hft & Hs' & _ & Hf'); [by intros a ?%elem_of_nil|done|done|].
  rewrite Hf' in * by done. clear Hf'. rewrite (bind_ok _ _ _ _ _ E).
  pose proof (part_seg HI1) as (_ & N & _). pose proof (part_tiles HI1) as (_ & T2 & T3 & _). pose proof (part_bounds HI1) as HB.
  destruct (flag_step _ _ _ _ b s' false false (t ++ l2) fl' [] [] HI1 (or_introl eq_refl) (or_introl eq_refl)) as (HI2 & _ & HD2); [done|].
  cbn [ba bs bf Z.b2z] in *. rewrite (bind_ok _ _ _ _ _ (set_used_eq _ _ _ _ _ _ _)).
  destruct N as (N & _). cbn [ba bs bf Z.b2z] in N. rewrite N, Z.add_0_r in *. rewrite used_size_even by done.
  set (m2 := store32 m1 (size_at b) s') in *. rewrite bind_gets. cbn [scribble_enabled].
  assert (data_kept (l1 ++ Blk b s' false :: t ++ l2) m m2) as HD by by eapply data_kept_trans.
  assert (∀ i, 0 ≤ i < old → rd m2 (b + HDR + i) = rd m (b + HDR + i)) as Hc.
  { intros i Hi. apply HD. exists (Blk b s' false). split_and!; [set_solver|done|]. flia. }
  assert (data_kept (l1 ++ l2) m m2) as HDo by (eapply data_kept_sub; [exact HD|set_solver]).
  destruct sc; cbn [whenM]; [|exists m2, fl', s', t; split_and!; done || lia].
  pose proof (part_seg HI2) as (_ & N' & _). rewrite (bind_ok _ _ _ _ _ (get_size_ok _ _ _ _ m2 _ _ _ _ N' T3)). cbn [bs].
  rewrite u32_small by flia. destruct (nz (s' - old)) eqn:En; cbn [whenM]; [|exists m2, fl', s', t; split_and!; done || lia].
  set (m3 := memset m2 (b + HDR + old) 0xAA (s' - old)).
  assert (keeps (field (b + HDR + old) (s' - old)) m2 m3) as K3.
  { split; [apply bytes_ok_umemset|]. intros x Hx. unfold m3. rewrite rd_umemset. destruct (_ && _) eqn:Ex; [|done]. zbool. flia. }
  destruct (data_step m2 m3 _ _ _ _ _ _ _ _ HI2) as [HI3 HD3]; [eapply mkeeps_weaken; [exact K3|intros; flia]|].
  exists m3, fl', s', t. split_and!; [done|done|done|lia| |].
  - eapply data_kept_trans; [exact HDo|]. eapply data_kept_sub; [exact HD3|set_solver].
  - intros i Hi. rewrite <- Hc by done. apply K3. flia.
Qed.

Lemma regrow_ok h base l1 b old n ns l2 fl z :
  hinv h base (l1 ++ Blk b old false :: Blk n ns true :: l2) fl → z mod 16 = 0 → old < z ≤ old + HDR + ns →
  ∃ k h' bl' fl', realloc_in_place b n old (u32 (old + HDR + ns)) z h = Ok () h' ∧ hinv h' base bl' fl' ∧ z ≤ k ∧
    reallocated h h' (l1 ++ Blk b old false :: Blk n ns true :: l2) bl' (b + HDR) old (b + HDR) k.
Proof.
  destruct h as [m hd f sc al br]. intros (E1 & E2 & HI) Hz Hzn. cbn [head free_list hmem brk] in *. subst hd f.
  pose proof (part_tiles HI) as (_ & T2 & T3 & En & T5 & T6 & T7). pose proof (part_bounds HI) as HB. cbn [ba bs] in *.
  destruct (remove_step base sc al br m _ fl [] n ns HI) as (m1 & fl1 & E1 & HI1 & HD1); [set_solver|apply not_elem_of_nil|].
  unfold realloc_in_place. rewrite (bind_ok _ _ _ _ _ E1).
  destruct (splice_step m1 base br l1 b old false n ns l2 fl1 [n] false (hda (l1 ++ Blk b old false :: Blk n ns true :: l2) 0) (hdz fl1 0) sc al br
    HI1 ltac:(set_solver) (or_introl eq_refl) (or_introl eq_refl)) as (m2 & E2 & HI2 & HD2).
  cbn [Z.b2z] in E2. rewrite Z.add_0_r in E2. rewrite u32_small by (apply tiles_le in T7; flia).
  rewrite used_size_even by (unfold HDR; zlia).
  assert (minv m2 base br (l1 ++ Blk b (old + HDR + ns) false :: l2) fl1 []) as HI2'.
  { eapply minv_taken; [exact HI2|]. intros a s Ha. split; [|by intros ?%elem_of_nil]. intros ->%list_elem_of_singleton. exfalso.
    pose proof (mi_sep HI2 _ (Blk b (old + HDR + ns) false) Ha ltac:(set_solver)) as Hs.
    pose proof (mi_in HI2 _ Ha). destruct Hs as [Es|Hs]; [done|flia]. }
  destruct (regrow_tail base sc al br m2 l1 b (old + HDR + ns) l2 fl1 old z HI2' Hz ltac:(flia) ltac:(flia))
    as (m3 & fl' & k & t & E3 & HI3 & Hft & Hk & HD3 & Hc).
  rewrite (hda_mid l1 b (old + HDR + ns) false old false l2 (Blk n ns true :: l2)) in E3.
  exists k. do 3 eexists. split; [exact (eq_trans (bind_ok (splice b n (old + HDR + ns)) _ _ _ _ E2) E3)|]. split; [by split_and!|].
  split; [done|]. exists (live (l1 ++ l2)). rewrite !live_app, !live_used, live_free, !live_app, (live_frees t Hft). cbn [app hmem].
  assert (data_kept (l1 ++ Blk b old false :: Blk n ns true :: l2) m m2) as HD by by eapply data_kept_trans.
  split_and!; [by rewrite Permutation_middle|by rewrite Permutation_middle| |].
  - intros i Hi _. rewrite Hc by lia. apply HD. exists (Blk b old false). split_and!; [set_solver|done|]. flia.
  - intros a c x Ha Hx. assert (in_use (l1 ++ l2) x) as Hu.
    { apply in_use_live. exists a, c. by rewrite live_app. }
    rewrite HD3 by done. eapply data_kept_sub; [exact HD| |exact Hu]. set_solver.
Qed.

Section realloc.
Context (grow : Z → Z → bool).
Hypothesis grow_bounded : ∀ b n, grow b n = true → b + n ≤ 2 ^ 32.

(** What is left when [r] is the result for a request of [z] bytes: the old
    heap, or the allocation with at least [z] bytes and its contents. *)
Definition realloc_result h base bl (p n z d : Z) (r : res Empty_set heap Z) : Prop :=
  r = Ok 0 h ∧ (∃ n, z ≤ n < z + d ∧ grow (brk h) n = false) ∨
  ∃ q k h' bl' fl', r = Ok q h' ∧ hinv h' base bl' fl' ∧ z ≤ k ∧ reallocated h h' bl bl' p n q k.
Lemma realloc_result_le h base bl p n z d z' d' r :
  realloc_result h base bl p n z d r → z' ≤ z → z + d ≤ z' + d' → realloc_result h base bl p n z' d' r.
Proof using.
  intros [[? (k & ? & ?)]|(q & k & h' & bl' & fl' & ? & ? & ? & ?)] Hz Hd; [left|right].
  { split; [done|]. exists k. split; [lia|done]. } exists q, k, h', bl', fl'. split_and!; done || lia.
Qed.

(** The way of [realloc] that moves the data. *)
Lemma move_ok h base bl fl p n z :
  hinv h base bl fl → (p, n) ∈ live bl → n < 2 ^ 31 → n < z → z + 8208 ≤ 2 ^ 31 →
  realloc_result h base bl p n z 8224
   ((newp ← malloc grow z;
     if negb (nz newp) then mret 0 else
     modify (set_hmem (λ m, memmove m newp p (s32 n)));;
     free p;;
     mret newp) h).
Proof using grow_bounded.
  intros HH Hp Hn Hz Hz2. pose proof (live_ok _ _ _ _ _ _ HH Hp) as (_ & P1 & P2 & P3 & _).
  destruct (malloc_ok grow grow_bounded h base bl fl z HH ltac:(lia) Hz2) as [(E & Href & _)|(q & k & h1 & bl1 & fl1 & E & H1 & Hk & Hl & HD)];
    rewrite (bind_ok _ _ _ _ _ E); [by left|right].
  assert ((q, k) ∈ live bl1) as Hq by (rewrite Hl; left). assert ((p, n) ∈ live bl1) as Hp1 by (rewrite Hl; by right).
  pose proof (live_ok _ _ _ _ _ _ H1 Hq) as (_ & Q1 & Q2 & Q3 & Qs).
  assert (p + n ≤ q ∨ q + k ≤ p) as Hsep by (destruct (Qs p n Hp1) as [E'|?]; [injection E' as -> ->; lia|lia]).
  rewrite (proj2 (nz_true q)) by flia. cbn [negb]. rewrite bind_modify, s32_small by lia.
  set (m1 := hmem h1) in *. destruct h1 as [m1' hd f sc al br]. destruct H1 as (E1 & E2 & HI). cbn [hmem head free_list brk] in *. subst hd f m1.
  unfold set_hmem. cbn [hmem head free_list scribble_enabled current_fsm brk].
  pose proof (proj1 (elem_live _ _ _) Hq) as Hqb. apply list_elem_of_split in Hqb as (l1 & l2 & Ebl). subst bl1.
  set (m2 := memmove m1' q p n).
  destruct (data_step m1' m2 base br l1 (q - HDR) k l2 fl1 [] HI) as [HI2 HD2].
  { split; [intros; apply bytes_ok_umemmove; [done|lia]|]. intros x Hx. unfold m2.
    rewrite rd_umemmove by (first [by destruct HI|lia]). destruct (_ && _) eqn:Ex; [|done]. zbool. flia. }
  set (h2 := Heap m2 (hda (l1 ++ Blk (q - HDR) k false :: l2) 0) (hdz fl1 0) sc al br).
  assert (hinv h2 base (l1 ++ Blk (q - HDR) k false :: l2) fl1) as H2 by done.
  destruct (free_ok h2 base _ fl1 p n H2 Hp1) as (h3 & bl3 & fl3 & E3 & H3 & Hl3 & HD3).
  rewrite (bind_ok _ _ _ _ _ E3). exists q, k, h3, bl3, fl3. split; [done|]. split; [done|]. split; [done|].
  assert (∃ L, live bl ≡ₚ (p, n) :: L) as [L HL].
  { apply list_elem_of_split in Hp as (k1 & k2 & ->). exists (k1 ++ k2). by rewrite Permutation_middle. }
  assert (live (l1 ++ l2) ≡ₚ (p, n) :: L) as Hl12.
  { apply (Permutation_cons_inv (a := (q, k))). rewrite <- HL, <- Hl, !live_app, live_used.
    replace (q - HDR + HDR) with q by lia. apply Permutation_middle. }
  assert (live bl3 ≡ₚ (q, k) :: L) as HL3.
  { apply (Permutation_cons_inv (a := (p, n))). rewrite <- Hl3, Hl, HL. constructor. }
  assert (∀ x, in_use bl3 x → rd (hmem h3) x = rd m2 x) as Hx3 by exact HD3. cbn [h2 hmem] in *.
  exists L. split_and!; [done|done| |].
  - intros i Hi _. rewrite Hx3 by (apply in_use_live; exists q, k; split; [rewrite HL3; left|lia]).
    unfold m2. rewrite rd_umemmove by (first [by destruct HI|lia]). rewrite (proj2 (andb_true_iff _ _)) by (split; [apply Z.leb_le|apply Z.ltb_lt]; lia).
    replace (p + (q + i - q)) with (p + i) by lia. apply HD, in_use_live. exists p, n. split; [rewrite HL; left|lia].
  - intros a c x Ha Hx. rewrite Hx3 by (apply in_use_live; exists a, c; split; [rewrite HL3; by right|done]).
    rewrite HD2 by (apply in_use_live; exists a, c; split; [rewrite Hl12; by right|done]).
    apply HD, in_use_live. exists a, c. split; [rewrite HL; by right|done].
Qed.

Lemma realloc_ok h base bl fl p n size :
  hinv h base bl fl → (p, n) ∈ live bl → n < 2 ^ 31 → 0 < size → size + 8224 ≤ 2 ^ 31 →
  realloc_result h base bl p n size 8240 (realloc grow p size h).
Proof using grow_bounded.
  intros HH Hp Hn Hs0 Hs1. pose proof (live_ok _ _ _ _ _ _ HH Hp) as (_ & P1 & P2 & P3 & _).
  destruct (min_size_ok size ltac:(lia)) as (Z1 & Z2 & Z3). unfold realloc. rewrite (proj2 (nz_true p)) by flia. cbn [negb].
  rewrite (proj2 (Z.eqb_neq size 0)) by lia. set (z := min_size size) in *. clearbody z.
  destruct h as [m hd f sc al br]. pose proof HH as (E1 & E2 & HI). cbn [hmem head free_list brk] in *. subst hd f.
  pose proof (proj1 (elem_live _ _ _) Hp) as Hpb. apply list_elem_of_split in Hpb as (l1 & l2 & ->).
  pose proof (part_seg HI) as (_ & N & S2). pose proof (part_tiles HI) as (_ & T2 & T3 & _). cbn [ba bs] in *.
  rewrite (bind_ok _ _ _ _ _ (get_size_ok _ _ _ _ m _ _ _ _ N T3)). cbn [bs].
  destruct (z <=? n) eqn:Ez; zbool.
  - destruct (shrink_ok _ _ _ _ _ _ z HH Hp Z2 ltac:(lia)) as (k & h' & bl' & fl' & E & H1 & H2 & H3).
    rewrite (bind_ok _ _ _ _ _ E). right. exists p, k, h', bl', fl'. split_and!; [done|done|lia|done].
  - rewrite bind_ld64. destruct N as (_ & N2 & _). cbn [ba] in N2. rewrite N2.
    pose proof (move_ok _ base _ fl p n z HH Hp Hn ltac:(lia) ltac:(lia)) as Hmove.
    eapply (realloc_result_le _ _ _ _ _ z 8224); [|lia|lia]. destruct l2 as [|[nx ns ff] l2]; cbn [hda ba].
    + rewrite (proj2 (nz_false 0)) by done. rewrite !bind_mret. cbn [andb]. exact Hmove.
    + pose proof (mi_in HI (Blk nx ns ff) ltac:(set_solver)) as Hnx. cbn [ba bs] in Hnx. rewrite (proj2 (nz_true nx)) by lia.
      destruct S2 as [Nx _]. rewrite (bind_ok _ _ _ _ _ (is_free_ok _ _ _ _ m _ _ _ _ Nx ltac:(apply Hnx))). cbn [bf].
      destruct ff; [|rewrite bind_mret; cbn [andb]; exact Hmove].
      rewrite (bind_ok _ _ _ _ _ (get_size_ok _ _ _ _ m _ _ _ _ Nx ltac:(apply Hnx))). cbn [bs andb].
      destruct (z <=? u32 (n + HDR + ns)) eqn:Ec; [|exact Hmove]. zbool.
      rewrite (u32_small (n + HDR + ns)) in Ec by (pose proof (part_bounds HI); pose proof (part_l2 HI (Blk nx ns true) ltac:(left)); flia).
      destruct (regrow_ok _ base l1 (p - HDR) n nx ns l2 fl z HH Z2 ltac:(lia)) as (k & h' & bl' & fl' & E & H1 & H2 & H3).
      replace (p - HDR + HDR) with p in H3 by lia. rewrite (bind_ok _ _ _ _ _ E). right. exists p, k, h', bl', fl'. done.
Qed.
End realloc.

(** ** Claims *)

Lemma live_nodup h base bl fl : hinv h base bl fl → NoDup (live bl).
Proof.
  intros (_ & _ & HI). pose proof (mi_tiles _ _ _ _ _ _ HI) as Ht. unfold live. apply NoDup_fmap_2_strong.
  - intros [b s f] [b' s' f'] Hx Hy E. apply list_elem_of_filter in Hx as [_ Hx], Hy as [_ Hy]. cbn in E.
    apply (tiles_inj _ _ _ _ _ Ht Hx Hy). cbn. injection E. lia.
  - by eapply NoDup_filter, tiles_nodup.
Qed.

(** C2: [malloc] refines the allocation of a fresh region: it returns an
    aligned pointer to at least [size] bytes that overlap no live allocation,
    adds it to the live ones, leaves their data alone and keeps the heap's
    invariant; it returns 0, and changes nothing, only when no free block is
    large enough and the kernel refuses to grow the heap. *)
Theorem malloc_refines grow h base bl fl size :
  (∀ b n, grow b n = true → b + n ≤ 2 ^ 32) →
  hinv h base bl fl → 0 < size → size + 8208 ≤ 2 ^ 31 →
  (malloc grow size h = Ok 0 h ∧ refused grow h size ∧ ∀ b s, Blk b s true ∈ bl → s < size + 16) ∨
  ∃ p n h' bl' fl', malloc grow size h = Ok p h' ∧ hinv h' base bl' fl' ∧ size ≤ n ∧ p mod 16 = 0 ∧
    live bl' ≡ₚ (p, n) :: live bl ∧
    (∀ q k, (q, k) ∈ live bl → p + n ≤ q ∨ q + k ≤ p) ∧
    (∀ q k x, (q, k) ∈ live bl → q ≤ x < q + k → rd (hmem h') x = rd (hmem h) x).
Proof.
  intros Hg HH Hs0 Hs1. destruct (malloc_ok grow Hg h base bl fl size HH Hs0 Hs1) as [?|(p & n & h' & bl' & fl' & E & H1 & Hn & Hl & HD)];
    [by left|right]. exists p, n, h', bl', fl'.
  pose proof (live_ok _ _ _ _ p n H1 ltac:(rewrite Hl; left)) as (Ha & _ & _ & _ & Hsep).
  pose proof (live_nodup _ _ _ _ H1) as HN. rewrite Hl in HN. apply NoDup_cons in HN as [Hnin _]. split_and!; try done.
  - intros q k Hq. destruct (Hsep q k) as [E'|?]; [rewrite Hl; by right|injection E' as -> ->; done|done].
  - intros q k x Hq Hx. apply HD, in_use_live. by exists q, k.
Qed.

(** C10: [free] refines the release of a live allocation: exactly it is gone,
    the data of the others is untouched and the invariant holds (free
    neighbours merged); [free(0)] does nothing. *)
Theorem free_refines h base bl fl p n :
  hinv h base bl fl → (p, n) ∈ live bl →
  free 0 h = Ok () h ∧
  ∃ h' bl' fl', free p h = Ok () h' ∧ hinv h' base bl' fl' ∧ live bl ≡ₚ (p, n) :: live bl' ∧
    ∀ q k x, (q, k) ∈ live bl' → q ≤ x < q + k → rd (hmem h') x = rd (hmem h) x.
Proof.
  intros HH Hp. split; [done|]. destruct (free_ok h base bl fl p n HH Hp) as (h' & bl' & fl' & E & H1 & Hl & HD).
  exists h', bl', fl'. split_and!; try done. intros q k x Hq Hx. apply HD, in_use_live. by exists q, k.
Qed.

(** C31: [realloc] of a live allocation keeps its contents, up to the smaller
    of the two sizes, whichever way it goes (in place, into the free block
    after it, or by moving), and does not touch the others; it fails, and
    changes nothing, only when the kernel refuses to grow the heap. *)
Theorem realloc_keeps_contents grow h base bl fl p n size :
  (∀ b n, grow b n = true → b + n ≤ 2 ^ 32) →
  hinv h base bl fl → (p, n) ∈ live bl → n < 2 ^ 31 → 0 < size → size + 8224 ≤ 2 ^ 31 →
  realloc grow p size h = Ok 0 h ∧ (∃ k, size ≤ k < size + 8240 ∧ grow (brk h) k = false) ∨
  ∃ q k h' bl' fl', realloc grow p size h = Ok q h' ∧ hinv h' base bl' fl' ∧ size ≤ k ∧
    reallocated h h' bl bl' p n q k.
Proof. intros Hg HH Hp Hn Hs0 Hs1. exact (realloc_ok grow Hg h base bl fl p n size HH Hp Hn Hs0 Hs1). Qed.

(** The search follows the policy chosen with [malloc_setfsm]: it finds
    nothing only when no free block is large enough; otherwise the first
    fitting block of the free list, one of the smallest that fit, or one of
    the largest. *)
Theorem find_free_block_policy h base bl fl size :
  hinv h base bl fl →
  let sz a := used_size (load32 (hmem h) (size_at a)) in
  (find_free_block size h = Ok 0 h ∧ ∀ a, a ∈ fl → sz a < size) ∨
  ∃ r, find_free_block size h = Ok r h ∧ r ∈ fl ∧ size ≤ sz r ∧
    match current_fsm h with
    | FIRST_FIT => ∃ f1 f2, fl = f1 ++ r :: f2 ∧ ∀ a, a ∈ f1 → sz a < size
    | BEST_FIT => ∀ a, a ∈ fl → size ≤ sz a → sz r ≤ sz a
    | WORST_FIT => ∀ a, a ∈ fl → sz a ≤ sz r
    end.
Proof.
  intros HH sz. destruct (find_free_block_ok h base bl fl size HH) as (r & E & [[-> H]|(H1 & H2 & H3 & H4)]); [left|right].
  - by split.
  - exists r. by split_and!.
Qed.

(** ** Witnesses: a fresh process whose break is at 0x4000 *)

Definition up_to_4g : Z → Z → bool := λ b n, b + n <=? 2 ^ 32.
Lemma up_to_4g_ok b n : up_to_4g b n = true → b + n ≤ 2 ^ 32.
Proof. apply Z.leb_le. Qed.
Lemma heap0_inv : hinv heap0 0x4000 [] [].
Proof.
  split; [done|]. split; [done|]. split; cbn [hmem heap0 brk tiles seg frs].
  - intros a. unfold rd. rewrite lookup_empty. cbn. lia.
  - split; [lia|done].
  - done.
  - lia.
  - done.
  - done.
  - constructor.
  - intros a. split; [by intros ?%elem_of_nil|]. by intros [_ [s ?%elem_of_nil]].
Qed.
Lemma malloc_refines_witness :
  ∃ p n h' bl' fl', malloc up_to_4g 100 heap0 = Ok p h' ∧ hinv h' 0x4000 bl' fl' ∧ 100 ≤ n ∧ p mod 16 = 0 ∧
    live bl' ≡ₚ [(p, n)].
Proof.
  destruct (malloc_refines up_to_4g heap0 0x4000 [] [] 100 up_to_4g_ok heap0_inv ltac:(lia) ltac:(lia))
    as [[E _]|(p & n & h' & bl' & fl' & E & H1 & H2 & H3 & H4 & _)].
  - exfalso. assert (match malloc up_to_4g 100 heap0 with Ok p _ => p =? 0 | _ => true end = false) as H
      by (vm_compute; reflexivity). rewrite E in H. discriminate H.
  - exists p, n, h', bl', fl'. split_and!; assumption.
Defined.

(** The heap after [malloc(100)]. *)
Definition heap1 : heap := match malloc up_to_4g 100 heap0 with Ok _ h => h | _ => heap0 end.
Lemma heap1_inv : ∃ bl fl n, hinv heap1 0x4000 bl fl ∧ live bl = [(0x4020, n)] ∧ n < 2 ^ 31.
Proof.
  destruct (malloc_ok up_to_4g up_to_4g_ok heap0 0x4000 [] [] 100 heap0_inv ltac:(lia) ltac:(lia))
    as [[E _]|(p & n & h' & bl' & fl' & E & H1 & H2 & H3 & _)].
  - exfalso. assert (match malloc up_to_4g 100 heap0 with Ok p _ => p =? 0 | _ => true end = false) as H
      by (vm_compute; reflexivity). rewrite E in H. discriminate H.
  - assert (h' = heap1) as -> by (unfold heap1; by rewrite E).
    assert (p = 0x4020) as ->.
    { assert (match malloc up_to_4g 100 heap0 with Ok p _ => p =? 0x4020 | _ => false end = true) as H
        by (vm_compute; reflexivity). rewrite E in H. by apply Z.eqb_eq. }
    assert (live bl' = [(0x4020, n)]) as HL by (apply Permutation_singleton_r; exact H3).
    exists bl', fl', n. split_and!; [done|done|].
    pose proof (live_ok _ _ _ _ 0x4020 n H1 ltac:(rewrite HL; left)) as (_ & _ & Hb & _).
    assert (brk heap1 = 0x5000) as Eb by (vm_compute; reflexivity). lia.
Qed.
Lemma free_refines_witness :
  ∃ h' bl' fl', free 0x4020 heap1 = Ok () h' ∧ hinv h' 0x4000 bl' fl' ∧ live bl' = [].
Proof.
  destruct heap1_inv as (bl & fl & n & HH & HL & _).
  destruct (free_refines heap1 0x4000 bl fl 0x4020 n HH) as [_ (h' & bl' & fl' & E & H1 & H2 & _)].
  - rewrite HL. apply list_elem_of_here.
  - exists h', bl', fl'. split; [exact E|]. split; [exact H1|].
    rewrite HL in H2. apply Permutation_cons_inv, Permutation_nil in H2. exact H2.
Defined.
Lemma realloc_keeps_contents_witness :
  ∃ q k h' bl' fl', realloc up_to_4g 0x4020 5000 heap1 = Ok q h' ∧ hinv h' 0x4000 bl' fl' ∧ 5000 ≤ k ∧
    live bl' = [(q, k)].
Proof.
  destruct heap1_inv as (bl & fl & n & HH & HL & Hn).
  destruct (realloc_keeps_contents up_to_4g heap1 0x4000 bl fl 0x4020 n 5000 up_to_4g_ok HH ltac:(rewrite HL; apply list_elem_of_here)
    Hn ltac:(lia) ltac:(lia)) as [[E _]|(q & k & h' & bl' & fl' & E & H1 & H2 & L & H3 & H4 & _)].
  - exfalso. assert (match realloc up_to_4g 0x4020 5000 heap1 with Ok p _ => p =? 0 | _ => true end = false) as H
      by (vm_compute; reflexivity). rewrite E in H. discriminate H.
  - exists q, k, h', bl', fl'. split_and!; [exact E|exact H1|exact H2|].
    rewrite HL in H3. apply Permutation_cons_inv, Permutation_nil in H3. subst L. apply Permutation_singleton_r. exact H4.
Defined.
Lemma find_free_block_policy_witness :
  ∃ r, find_free_block 200 heap1 = Ok r heap1 ∧ 200 ≤ used_size (load32 (hmem heap1) (size_at r)).
Proof.
  destruct heap1_inv as (bl & fl & n & HH & HL & Hn).
  destruct (find_free_block_policy heap1 0x4000 bl fl 200 HH) as [[E _]|(r & E & _ & H & _)].
  - exfalso. assert (match find_free_block 200 heap1 with Ok p _ => p =? 0 | _ => true end = false) as H
      by (vm_compute; reflexivity). rewrite E in H. discriminate H.
  - exists r. split; [exact E|exact H].
Defined.

(** The sizes are [uint]: a request close to 4 GB wraps to 16 bytes and
    succeeds. *)
Example malloc_wraps :
  match malloc up_to_4g (2 ^ 32 - 8) heap0 with
  | Ok p h => p = 0x4020 ∧ used_size (load32 (hmem h) (size_at 0x4000)) = 16
  | _ => False
  end.
Proof. vm_compute. by split. Qed.
