(* ===== verification/Grep.v ===== *)
(** * user/grep.c: matching lines against a pattern

    [matchhere], [matchstar] and [match] over C strings (the bytes before the
    terminating NUL), and [grep] over its 1024-byte buffer, to which each
    [read] adds some of the bytes the file still has.  The pattern language
    is given a meaning of its own, [pattern] and [lang]; the matcher decides
    it, and [grep] prints exactly the matching lines. *)

From S2P Require Import Prelude CString ULib.

(** ** The matcher *)

(** Characters of the source. *)
Definition CARET : Z := 94.
Definition STAR : Z := 42.
Definition DOLLAR : Z := 36.
Definition DOT : Z := 46.
Definition NL : Z := 10.

(** The loop over [text] while its characters are [c] (or [c] is a dot);
    [here] is the call of [matchhere] with the rest of the pattern. *)
Fixpoint matchstar (here : list Z → bool) (c : Z) (text : list Z) : bool :=
  here text ||
  match text with
  | [] => false
  | t :: text => ((t =? c) || (c =? DOT)) && matchstar here c text
  end.

Fixpoint matchhere (re : list Z) : list Z → bool :=
  match re with
  | [] => λ _, true
  | c :: re1 => λ text,
      match re1 with
      | c1 :: re2 => if c1 =? STAR then matchstar (matchhere re2) c text else
          match text with
          | [] => false
          | t :: text => ((c =? DOT) || (c =? t)) && matchhere re1 text
          end
      | [] => if c =? DOLLAR then bool_decide (text = []) else
          match text with
          | [] => false
          | t :: text => ((c =? DOT) || (c =? t)) && matchhere re1 text
          end
      end
  end.

Fixpoint match_any (re text : list Z) : bool :=
  matchhere re text || match text with [] => false | _ :: text => match_any re text end.
(** [match] of the source. *)
Definition match_ (re text : list Z) : bool :=
  match re with
  | c :: re1 => if c =? CARET then matchhere re1 text else match_any re text
  | [] => match_any re text
  end.

(** ** grep *)

Definition BUFSZ : nat := 1024.

(** The bytes of the string at the start of [l]. *)
Fixpoint cstring (l : list Z) : list Z :=
  match l with [] => [] | c :: l => if c =? 0 then [] else c :: cstring l end.
(** Bytes stored from index [i] on. *)
Fixpoint blit (buf : list Z) (i : nat) (data : list Z) : list Z :=
  match data with [] => buf | x :: data => blit (<[i := x]> buf) (S i) data end.

(** [while((q = strchr(p, '\n')) != 0){...}]: the buffer, [p] and what was
    written. *)
Fixpoint grep_lines (fuel : nat) (pattern : list Z) (buf : list Z) (p : nat) (out : list Z)
    : option (list Z * nat * list Z) :=
  match fuel with
  | O => None
  | S fuel =>
      match strchr (drop p buf) NL with
      | None => Some (buf, p, out)
      | Some k =>
          let q := (p + k)%nat in
          let buf := <[q := 0]> buf in
          if match_ pattern (cstring (drop p buf)) then
            let buf := <[q := NL]> buf in
            grep_lines fuel pattern buf (S q) (out ++ take (S q - p) (drop p buf))
          else grep_lines fuel pattern buf (S q) out
      end
  end.

(** The file: the bytes not yet read.  The [i]-th [read] of at most [n] bytes
    returns at least one if there is one, at most [S (short i)]. *)
Section grep.
Context (short : nat → nat).
Definition read (i n : nat) (file : list Z) : list Z * list Z :=
  let k := (n `min` S (short i))%nat in (take k file, drop k file).

Fixpoint grep_loop (fuel i : nat) (pattern : list Z) (buf : list Z) (m : nat) (file : list Z) (out : list Z)
    : option (list Z) :=
  match fuel with
  | O => None
  | S fuel =>
      let '(data, file) := read i (BUFSZ - m - 1) file in
      match data with
      | [] => Some out
      | _ =>
          let buf := blit buf m data in
          let m := (m + length data)%nat in
          let buf := <[m := 0]> buf in
          '(buf, p, out) ← grep_lines (S BUFSZ) pattern buf 0 out;
          let m' := (m - p)%nat in
          let buf := blit buf 0 (take m' (drop p buf)) in
          grep_loop fuel (S i) pattern buf m' file out
      end
  end.
(** A file of [n] bytes is read in at most [n] calls that return something. *)
Definition grep (pattern file : list Z) : option (list Z) :=
  grep_loop (S (length file)) 0 pattern (replicate BUFSZ 0) 0 file [].
End grep.

(** ** The meaning of a pattern *)

(** A single character, or any number of them in a row. *)
Inductive piece := One (c : Z) | Many (c : Z).
Record pattern := Pattern { anchored : bool; pieces : list piece; at_end : bool }.

Fixpoint parse (re : list Z) : list piece * bool :=
  match re with
  | [] => ([], false)
  | c :: re1 =>
      match re1 with
      | c1 :: re2 =>
          if c1 =? STAR then (Many c :: (parse re2).1, (parse re2).2)
          else (One c :: (parse re1).1, (parse re1).2)
      | [] => if c =? DOLLAR then ([], true) else ([One c], false)
      end
  end.
Definition parse_pattern (re : list Z) : pattern :=
  match re with
  | c :: re1 => if c =? CARET then Pattern true (parse re1).1 (parse re1).2
                else Pattern false (parse re).1 (parse re).2
  | [] => Pattern false [] false
  end.

Definition matches_char (c t : Z) : Prop := c = DOT ∨ c = t.
Definition lang_piece (p : piece) (w : list Z) : Prop :=
  match p with
  | One c => ∃ t, w = [t] ∧ matches_char c t
  | Many c => Forall (matches_char c) w
  end.
(** The language of a sequence is the concatenation of the pieces'. *)
Fixpoint lang (ps : list piece) (w : list Z) : Prop :=
  match ps with
  | [] => w = []
  | p :: ps => ∃ u v, w = u ++ v ∧ lang_piece p u ∧ lang ps v
  end.
(** A line matches when some part of it is in the language, at its start or
    its end where the pattern says so. *)
Definition pattern_matches (P : pattern) (text : list Z) : Prop :=
  ∃ pre w post, text = pre ++ w ++ post ∧ lang (pieces P) w ∧
    (anchored P = true → pre = []) ∧ (at_end P = true → post = []).

(** ** The matcher decides it *)

Lemma matchstar_spec here c text :
  matchstar here c text = true ↔ ∃ u v, text = u ++ v ∧ Forall (matches_char c) u ∧ here v = true.
Proof.
  induction text as [|t text IH]; cbn [matchstar]; rewrite orb_true_iff.
  - split; [intros [H|H]; [by exists [], []|done]|]. intros (u & v & E & _ & H).
    symmetry in E. apply app_eq_nil in E as [-> ->]. by left.
  - rewrite andb_true_iff, orb_true_iff, !Z.eqb_eq, IH. split.
    + intros [H|[Hc (u & v & -> & Hu & H)]]; [by exists [], (t :: text)|].
      exists (t :: u), v. split_and!; [done| |done]. constructor; [|done]. unfold matches_char. naive_solver.
    + intros (u & v & E & Hu & H). destruct u as [|x u]; cbn in E; [left; congruence|].
      injection E as -> ->. apply Forall_cons in Hu as [Hx Hu]. right.
      split; [unfold matches_char in Hx; naive_solver|eauto].
Qed.

Definition here_matches (re text : list Z) : Prop :=
  ∃ w post, text = w ++ post ∧ lang (parse re).1 w ∧ ((parse re).2 = true → post = []).

Lemma one_here c re text :
  (∀ text, matchhere re text = true ↔ here_matches re text) →
  match text with [] => false | t :: text => ((c =? DOT) || (c =? t)) && matchhere re text end = true ↔
  ∃ w post, text = w ++ post ∧ lang (One c :: (parse re).1) w ∧ ((parse re).2 = true → post = []).
Proof.
  intros IH. split.
  - destruct text as [|t text]; [done|]. rewrite andb_true_iff, orb_true_iff, !Z.eqb_eq, IH.
    intros (Hc & w & post & -> & Hw & He). exists (t :: w), post. split; [done|]. split; [|done].
    exists [t], w. split; [done|]. split; [|done]. by exists t.
  - intros (w & post & -> & (u & v & -> & (t & -> & Hc) & Hv) & He). cbn.
    rewrite andb_true_iff, orb_true_iff, !Z.eqb_eq, IH. split; [done|]. by exists v, post.
Qed.

Lemma matchhere_spec re text : matchhere re text = true ↔ here_matches re text.
Proof.
  revert text. induction re as [re IH] using (induction_ltof1 _ length). unfold ltof in IH. intros text.
  destruct re as [|c re1]; [cbn; split; [intros _; by exists [], text|done]|].
  destruct re1 as [|c1 re2]; cbn [matchhere].
  - unfold here_matches. cbn [parse]. destruct (c =? DOLLAR) eqn:E; cbn [fst snd].
    + rewrite bool_decide_eq_true. cbn [lang]. split; [intros ->; by exists [], []|].
      intros (w & post & -> & -> & H). by rewrite (H eq_refl).
    + apply (one_here c []). intros t. apply IH. cbn. lia.
  - unfold here_matches. cbn [parse]. destruct (c1 =? STAR) eqn:E; cbn [fst snd].
    + rewrite matchstar_spec. cbn [lang lang_piece]. split.
      * intros (u & v & -> & Hu & (w & post & -> & Hw & He)%IH); [|cbn; lia].
        exists (u ++ w), post. split; [by rewrite app_assoc|]. split; [|done]. by exists u, w.
      * intros (w & post & -> & (u & v & -> & Hu & Hv) & He). exists u, (v ++ post).
        split; [by rewrite app_assoc|]. split; [done|]. apply IH; [cbn; lia|]. by exists v, post.
    + apply (one_here c (c1 :: re2)). intros t. apply IH. cbn. lia.
Qed.

Lemma match_any_spec re text :
  match_any re text = true ↔ ∃ pre v, text = pre ++ v ∧ here_matches re v.
Proof.
  induction text as [|t text IH]; cbn [match_any]; rewrite orb_true_iff, matchhere_spec.
  - split; [intros [H|H]; [by exists [], []|done]|]. intros (pre & v & E & H).
    symmetry in E. apply app_eq_nil in E as [-> ->]. by left.
  - rewrite IH. split.
    + intros [H|(pre & v & -> & H)]; [by exists [], (t :: text)|by exists (t :: pre), v].
    + intros (pre & v & E & H). destruct pre as [|x pre]; cbn in E; [left; by subst|].
      injection E as -> ->. right. by exists pre, v.
Qed.

(** C40: the matcher of grep decides the pattern language: [^] and [$] anchor,
    [.] is any character, [*] repeats the character before it, everything
    else is itself. *)
Theorem match_decides re text : match_ re text = true ↔ pattern_matches (parse_pattern re) text.
Proof.
  assert (match_any re text = true ↔
    pattern_matches (Pattern false (parse re).1 (parse re).2) text) as Hany.
  { rewrite match_any_spec. unfold pattern_matches, here_matches. cbn [anchored pieces at_end]. split.
    - intros (pre & v & -> & w & post & -> & H1 & H2). by exists pre, w, post.
    - intros (pre & w & post & -> & H1 & _ & H2). exists pre, (w ++ post). split; [done|]. by exists w, post. }
  destruct re as [|c re1]; [exact Hany|]. cbn [match_ parse_pattern]. destruct (c =? CARET); [|exact Hany].
  rewrite matchhere_spec. unfold pattern_matches, here_matches. cbn [anchored pieces at_end]. split.
  - intros (w & post & -> & H1 & H2). by exists [], w, post.
  - intros (pre & w & post & -> & H1 & H2 & H3). rewrite H2 by done. by exists w, post.
Qed.

(** ** The lines of a file *)

(** The complete lines of [l], when [cur] came before it on the first one, and
    what comes after the last newline. *)
Fixpoint lines (cur l : list Z) : list (list Z) :=
  match l with
  | [] => []
  | c :: l => if c =? NL then cur :: lines [] l else lines (cur ++ [c]) l
  end.
Fixpoint rest (cur l : list Z) : list Z :=
  match l with
  | [] => cur
  | c :: l => if c =? NL then rest [] l else rest (cur ++ [c]) l
  end.
(** What grep should print: the matching lines. *)
Definition shown (re : list Z) (ls : list (list Z)) : list Z :=
  concat ((λ l, l ++ [NL]) <$> filter (λ l, match_ re l = true) ls).

Lemma lines_app cur l r : lines cur (l ++ r) = lines cur l ++ lines (rest cur l) r.
Proof. revert cur. induction l as [|c l IH]; intros cur; cbn; [done|]. destruct (c =? NL); by rewrite IH. Qed.
Lemma lines_cur cur p l : NL ∉ p → lines cur (p ++ l) = lines (cur ++ p) l.
Proof.
  revert cur. induction p as [|c p IH]; intros cur Hp; cbn; [by rewrite app_nil_r|].
  apply not_elem_of_cons in Hp as [Hc Hp]. rewrite (proj2 (Z.eqb_neq _ _)) by congruence.
  by rewrite IH, <- app_assoc.
Qed.
Lemma rest_cur cur p l : NL ∉ p → rest cur (p ++ l) = rest (cur ++ p) l.
Proof.
  revert cur. induction p as [|c p IH]; intros cur Hp; cbn; [by rewrite app_nil_r|].
  apply not_elem_of_cons in Hp as [Hc Hp]. rewrite (proj2 (Z.eqb_neq _ _)) by congruence.
  by rewrite IH, <- app_assoc.
Qed.
Lemma rest_no_nl cur l : NL ∉ cur → NL ∉ rest cur l.
Proof.
  revert cur. induction l as [|c l IH]; intros cur Hc; cbn; [done|]. destruct (c =? NL) eqn:E; zbool.
  - apply IH, not_elem_of_nil.
  - apply IH. intros [?|?%list_elem_of_singleton]%elem_of_app; [done|congruence].
Qed.
Lemma rest_nonzero cur l : 0 ∉ cur → 0 ∉ l → 0 ∉ rest cur l.
Proof.
  revert cur. induction l as [|c l IH]; intros cur Hc Hl; cbn; [done|]. apply not_elem_of_cons in Hl as [H0 Hl].
  destruct (c =? NL); [apply IH; [apply not_elem_of_nil|done]|].
  apply IH; [|done]. intros [?|?%list_elem_of_singleton]%elem_of_app; [done|congruence].
Qed.
Lemma rest_length cur l : (length (rest cur l) ≤ length cur + length l)%nat.
Proof.
  revert cur. induction l as [|c l IH]; intros cur; cbn; [lia|]. destruct (c =? NL).
  - specialize (IH []). cbn in IH. lia.
  - specialize (IH (cur ++ [c])). rewrite length_app in IH. cbn in IH. lia.
Qed.
(** A line begun with many characters is a long line. *)
Lemma lines_long cur l x : head (lines cur l) = Some x → (length cur ≤ length x)%nat.
Proof.
  revert cur. induction l as [|c l IH]; intros cur H; cbn in H; [done|]. destruct (c =? NL).
  - by injection H as <-.
  - apply IH in H. rewrite length_app in H. lia.
Qed.

(** ** The buffer *)

Lemma insert_mid {A} (l r : list A) x v : <[length l := v]> (l ++ x :: r) = l ++ v :: r.
Proof. by rewrite <- (Nat.add_0_r (length l)), insert_app_r. Qed.
Lemma blit_eq data : ∀ buf i, (i + length data ≤ length buf)%nat →
  blit buf i data = take i buf ++ data ++ drop (i + length data) buf.
Proof.
  induction data as [|x data IH]; intros buf i H; cbn [blit]; cbn in H.
  - cbn. by rewrite Nat.add_0_r, take_drop.
  - rewrite IH by (rewrite length_insert; lia). destruct (lookup_lt_is_Some_2 buf i) as [y Hy]; [lia|].
    rewrite (take_S_r _ _ x) by (apply list_lookup_insert_eq; lia).
    rewrite take_insert_ge, drop_insert_lt by lia. rewrite <- app_assoc. cbn. by rewrite Nat.add_succ_r.
Qed.
Lemma strchr_none l r : NL ∉ l → 0 ∉ l → strchr (l ++ 0 :: r) NL = None.
Proof.
  induction l as [|c l IH]; intros H1 H2; [done|]. apply not_elem_of_cons in H1 as [? ?], H2 as [? ?]. cbn [strchr app].
  rewrite !(proj2 (Z.eqb_neq _ _)) by congruence. by rewrite IH.
Qed.
Lemma strchr_some l r : NL ∉ l → 0 ∉ l → strchr (l ++ NL :: r) NL = Some (length l).
Proof.
  induction l as [|c l IH]; intros H1 H2; [done|]. apply not_elem_of_cons in H1 as [? ?], H2 as [? ?]. cbn [strchr app].
  rewrite !(proj2 (Z.eqb_neq _ _)) by congruence. by rewrite IH.
Qed.
Lemma cstring_app l r : 0 ∉ l → cstring (l ++ 0 :: r) = l.
Proof.
  induction l as [|c l IH]; intros H; [done|]. apply not_elem_of_cons in H as [? ?]. cbn [cstring app].
  rewrite (proj2 (Z.eqb_neq _ _)) by congruence. by rewrite IH.
Qed.
Lemma split_nl (l : list Z) : NL ∉ l ∨ ∃ a b, l = a ++ NL :: b ∧ NL ∉ a.
Proof.
  destruct (decide (NL ∈ l)) as [H|H]; [right|by left].
  apply list_elem_of_split_l in H as (a & b & -> & Ha). eauto.
Qed.
Lemma shown_app re l1 l2 : shown re (l1 ++ l2) = shown re l1 ++ shown re l2.
Proof. unfold shown. by rewrite filter_app, fmap_app, concat_app. Qed.
Lemma shown_cons re x ls :
  shown re (x :: ls) = (if match_ re x then x ++ [NL] else []) ++ shown re ls.
Proof. unfold shown. rewrite filter_cons. by destruct (match_ re x). Qed.

(** One pass over the buffer prints the matching lines of the string at [p]
    and stops at what follows its last newline. *)
Lemma grep_lines_ok re L junk fuel : ∀ buf p out,
  (length L < fuel)%nat → 0 ∉ L → drop p buf = L ++ 0 :: junk →
  ∃ buf' p', grep_lines fuel re buf p out = Some (buf', p', out ++ shown re (lines [] L)) ∧
    length buf' = length buf ∧ drop p' buf' = rest [] L ++ 0 :: junk ∧
    (p' + length (rest [] L) = p + length L)%nat.
Proof.
  revert fuel. induction L as [L IH] using (induction_ltof1 _ length). unfold ltof in IH.
  intros [|fuel] buf p out Hf H0 Hb; [lia|]. cbn [grep_lines]. rewrite Hb. destruct (split_nl L) as [Hn|(a & b & -> & Ha)].
  - rewrite strchr_none by done. pose proof (lines_cur [] L [] Hn) as E1. pose proof (rest_cur [] L [] Hn) as E2.
    rewrite app_nil_r in E1, E2. rewrite E1, E2. cbn. exists buf, p. by rewrite app_nil_r.
  - rewrite <- app_assoc. cbn [app]. assert (0 ∉ a) as H0a by set_solver. assert (0 ∉ b) as H0b by set_solver.
    rewrite strchr_some by done. rewrite length_app in Hf. cbn in Hf.
    assert (length a < length (drop p buf))%nat as Hlen by (rewrite Hb, !length_app; cbn; lia).
    rewrite length_drop in Hlen.
    assert (∀ v w, drop p (<[(p + length a)%nat := v]> (<[(p + length a)%nat := w]> buf)) = a ++ v :: b ++ 0 :: junk) as Hins2.
    { intros v w. rewrite list_insert_insert_eq, drop_insert_ge by lia. rewrite Hb, <- app_assoc. cbn [app].
      replace (p + length a - p)%nat with (length a) by lia. apply insert_mid. }
    pose proof (Hins2 0 0) as Hins. rewrite list_insert_insert_eq in Hins. rewrite Hins, cstring_app by done.
    pose proof (lines_cur [] a (NL :: b) Ha) as E1. pose proof (rest_cur [] a (NL :: b) Ha) as E2. cbn in E1, E2.
    rewrite E1, E2, shown_cons.
    assert (∀ buf', drop p buf' = a ++ (nth (length a) (drop p buf') 0) :: b ++ 0 :: junk →
            drop (S (p + length a)%nat) buf' = b ++ 0 :: junk) as Hd.
    { intros buf' E. replace (S (p + length a)) with (p + S (length a))%nat by lia. rewrite <- drop_drop, E.
      replace (S (length a)) with (length a + 1)%nat by lia. by rewrite drop_app_add. }
    destruct (match_ re a).
    + rewrite Hins2. replace (S (p + length a) - p)%nat with (length a + 1)%nat by lia.
      rewrite take_app_add. cbn [take]. rewrite firstn_O.
      destruct (IH b ltac:(rewrite length_app; cbn; lia) fuel (<[(p + length a)%nat := NL]> (<[(p + length a)%nat := 0]> buf))
        (S (p + length a)) (out ++ a ++ [NL])) as (buf' & p' & E & Hl & Hdr & Hp); [lia|done| |].
      { apply Hd. by rewrite Hins2, nth_middle. }
      exists buf', p'. rewrite E, length_app, <- !app_assoc. rewrite !length_insert in Hl. cbn. split_and!; [done..|lia].
    + destruct (IH b ltac:(rewrite length_app; cbn; lia) fuel (<[(p + length a)%nat := 0]> buf)
        (S (p + length a)) out) as (buf' & p' & E & Hl & Hdr & Hp); [lia|done| |].
      { apply Hd. by rewrite Hins, nth_middle. }
      exists buf', p'. rewrite E, length_app. rewrite !length_insert in Hl. cbn. split_and!; [done..|lia].
Qed.

Section grep_ok.
Context (short : nat → nat) (re : list Z).

Lemma grep_loop_ok fuel : ∀ i buf m file out,
  (length file < fuel)%nat → length buf = BUFSZ → (m < BUFSZ)%nat →
  NL ∉ take m buf → 0 ∉ take m buf → 0 ∉ file →
  Forall (λ l, length l + 1 < BUFSZ)%nat (lines (take m buf) file) →
  grep_loop short fuel i re buf m file out = Some (out ++ shown re (lines (take m buf) file)).
Proof.
  induction fuel as [|fuel IH]; intros i buf m file out Hf Hl Hm Hn H0 Hfile Hb; [lia|].
  cbn [grep_loop read]. set (k := ((BUFSZ - m - 1) `min` S (short i))%nat).
  destruct (take k file) as [|d ds] eqn:Ed.
  - assert (lines (take m buf) file = []) as ->; [|by rewrite app_nil_r].
    destruct (lines (take m buf) file) as [|x ls] eqn:El; [done|].
    assert (length (take m buf) ≤ length x)%nat as Hx by (by apply lines_long with file; rewrite El).
    apply Forall_cons in Hb as [Hb _]. rewrite length_take in Hx.
    destruct file as [|c file]; [done|]. destruct k eqn:Ek; [|done]. lia.
  - rewrite <- Ed. set (data := take k file) in *. set (pend := take m buf) in *.
    assert (0 < length data ≤ BUFSZ - m - 1)%nat as Hd.
    { split; [rewrite Ed; cbn; lia|]. unfold data. rewrite length_take. lia. }
    assert (file = data ++ drop k file) as Hfd by (symmetry; apply take_drop). set (file' := drop k file) in *.
    assert (length pend = m) as Hpl by (unfold pend; rewrite length_take; lia).
    assert (0 ∉ data) as H0d by (rewrite Hfd in Hfile; set_solver).
    rewrite blit_eq by lia. fold pend. set (tl := drop (m + length data) buf).
    assert (length tl = BUFSZ - (m + length data))%nat as Htl by (unfold tl; rewrite length_drop; lia).
    clearbody pend data tl file' k. destruct tl as [|t0 junk]; cbn [length] in Htl; [lia|].
    rewrite app_assoc, <- Hpl, <- length_app, insert_mid.
    destruct (grep_lines_ok re (pend ++ data) junk (S BUFSZ) ((pend ++ data) ++ 0 :: junk) 0 out)
      as (buf' & p' & -> & Hl' & Hdr & Hp); [rewrite length_app; lia|set_solver|done|].
    assert (length ((pend ++ data) ++ 0 :: junk) = BUFSZ) as HL.
    { rewrite !length_app. cbn [length]. lia. }
    rewrite length_app in Hp.
    cbn [mbind option_bind]. rewrite length_app, Hpl. set (r := rest [] (pend ++ data)) in *.
    replace (m + length data - p')%nat with (length r) by lia. rewrite Hdr, take_app_length.
    assert (length r ≤ m + length data)%nat as Hr by lia.
    rewrite blit_eq by (rewrite Hl', HL; lia). rewrite take_0. cbn [app].
    assert (∀ x : list Z, take (length r) (r ++ x) = r) as Htr by (intros x; apply take_app_length).
    rewrite Nat.add_0_l, IH; rewrite ?Htr.
    + rewrite Hfd. rewrite <- app_assoc, <- shown_app. unfold r.
      pose proof (lines_app [] (pend ++ data) file') as E1. rewrite <- app_assoc, (lines_cur [] pend (data ++ file') Hn) in E1.
      cbn [app] in E1. by rewrite E1.
    + apply (f_equal length) in Hfd. rewrite length_app in Hfd. lia.
    + rewrite length_app, length_drop. lia.
    + lia.
    + apply rest_no_nl, not_elem_of_nil.
    + apply rest_nonzero; set_solver.
    + rewrite Hfd in Hfile. set_solver.
    + pose proof (lines_app [] (pend ++ data) file') as E1. rewrite <- app_assoc, (lines_cur [] pend (data ++ file') Hn) in E1.
      cbn [app] in E1. rewrite <- Hfd in E1. rewrite E1 in Hb. by apply Forall_app in Hb as [_ Hb].
Qed.

(** Whatever sizes the reads return, grep terminates and prints exactly
    the matching lines of a text file, in order (complete lines of fewer than
    1023 bytes; what follows the last newline is not printed). *)
Theorem grep_prints_matching file :
  0 ∉ file → Forall (λ l, length l + 1 < BUFSZ)%nat (lines [] file) →
  grep short re file = Some (shown re (lines [] file)).
Proof.
  intros H0 Hb. unfold grep. rewrite grep_loop_ok; cbn [take]; try done; try apply not_elem_of_nil; unfold BUFSZ; lia.
Qed.
End grep_ok.

(** The pattern [a.*c$] on the file [abc NL bca NL ac NL abc]. *)
Lemma grep_prints_matching_witness :
  grep (λ _, 2%nat) [97; 46; 42; 99; 36] [97; 98; 99; 10; 98; 99; 97; 10; 97; 99; 10; 97; 98; 99] =
  Some [97; 98; 99; 10; 97; 99; 10].
Proof.
  rewrite (grep_prints_matching (λ _, 2%nat) [97; 46; 42; 99; 36] [97; 98; 99; 10; 98; 99; 97; 10; 97; 99; 10; 97; 98; 99]).
  - vm_compute. reflexivity.
  - apply (bool_decide_unpack _). vm_compute. exact I.
  - apply (bool_decide_unpack _). vm_compute. exact I.
Defined.
