(* ===== verification/Sh.v ===== *)
(** * user/sh.c: the shell (definitions)

    The parser works on the line [l] (the bytes before the NUL) and moves one
    pointer, an index into it.  A parsed command points into the line: a
    string is the interval of indices [q, eq), and [nulterminate] stores a NUL
    at each [eq].  [panic] of the shell ends the process.

    [runcmd] never returns: it is a program of system calls, [prog], whose
    continuations take what the kernel returns. *)

From S2P Require Import CString ULib Prelude Riscv Printf Console Fs.

(** ** Commands *)

Inductive cmd (A : Type) :=
| EXEC (argv : list A)
| REDIR (c : cmd A) (file : A) (mode fd : Z)
| PIPE (left right : cmd A)
| LIST (left right : cmd A)
| BACK (c : cmd A).
Arguments EXEC {A} argv.
Arguments REDIR {A} c file mode fd.
Arguments PIPE {A} left right.
Arguments LIST {A} left right.
Arguments BACK {A} c.

Definition MAXARGS : nat := 10.

(** A string of the line: [q] and [eq]. *)
Definition span : Type := nat * nat.

(** ** Tokens *)

Abbreviation P := (M Empty_set nat).

Definition whitespace : list Z := [32; 9; 13; 10; 11].
Definition symbols : list Z := [60; 124; 62; 38; 59; 40; 41].
Definition among (set : list Z) (c : Z) : bool := bool_decide (is_Some (strchr set c)).

Fixpoint prefix_len (p : Z → bool) (l : list Z) : nat :=
  match l with [] => 0%nat | c :: l => if p c then S (prefix_len p l) else 0%nat end.

Section parser.
Context (l : list Z).

(** [*s]: the NUL at the end of the line. *)
Definition chr (s : nat) : Z := nth s l 0.
(** [while(s < es && p( *s)) s++;] *)
Definition skip (p : Z → bool) (s : nat) : nat := (s + prefix_len p (drop s l))%nat.
Definition word_char (c : Z) : bool := negb (among whitespace c) && negb (among symbols c).

(** The switch of [gettoken]: the token and where it ends. *)
Definition token (s : nat) : Z * nat :=
  let c := chr s in
  if c =? 0 then (0, s)
  else if among [124; 40; 41; 59; 38; 60] c then (c, S s)
  else if c =? 62 then if chr (S s) =? 62 then (43, S (S s)) else (62, S s)
  else (97, skip word_char s).
Definition gettoken : P (Z * span) := λ s,
  let s := skip (among whitespace) s in
  let q := s in
  let '(ret, s) := token s in
  let eq := s in
  Ok (ret, (q, eq)) (skip (among whitespace) s).

Definition peek (toks : list Z) : P bool := λ s,
  let s := skip (among whitespace) s in
  Ok (nz (chr s) && among toks (chr s)) s.

(** ** The parser *)

Fixpoint parseredirs_loop (fuel : nat) (c : cmd span) : P (cmd span) :=
  match fuel with
  | O => nofuel
  | S fuel =>
      b ← peek [60; 62];
      if negb b then mret c else
      t ← gettoken;
      f ← gettoken;
      if negb (f.1 =? 97) then panic "missing file for redirection" else
      parseredirs_loop fuel
        (if t.1 =? 60 then REDIR c f.2 O_RDONLY 0
         else if t.1 =? 62 then REDIR c f.2 (Z.lor (Z.lor O_WRONLY O_CREATE) O_TRUNC) 1
         else if t.1 =? 43 then REDIR c f.2 (Z.lor O_WRONLY O_CREATE) 1
         else c)
  end.
Definition parseredirs (c : cmd span) : P (cmd span) := parseredirs_loop (S (length l)) c.

(** [cmd->argv[argc] = q; cmd->eargv[argc] = eq;] through the pointer to the
    EXEC node, which is at the bottom of the redirections wrapped around it. *)
Fixpoint add_arg (ret : cmd span) (a : span) : cmd span :=
  match ret with
  | EXEC argv => EXEC (argv ++ [a])
  | REDIR c file mode fd => REDIR (add_arg c a) file mode fd
  | c => c
  end.

Fixpoint args_loop (fuel argc : nat) (ret : cmd span) : P (cmd span) :=
  match fuel with
  | O => nofuel
  | S fuel =>
      b ← peek [124; 41; 38; 59];
      if (b : bool) then mret ret else
      t ← gettoken;
      if t.1 =? 0 then mret ret else
      if negb (t.1 =? 97) then panic "syntax" else
      if (MAXARGS <=? S argc)%nat then panic "too many args" else
      ret ← parseredirs (add_arg ret t.2);
      args_loop fuel (S argc) ret
  end.

Fixpoint back_loop (fuel : nat) (c : cmd span) : P (cmd span) :=
  match fuel with
  | O => nofuel
  | S fuel => b ← peek [38]; if negb b then mret c else _ ← gettoken; back_loop fuel (BACK c)
  end.

Fixpoint parseline (fuel : nat) : P (cmd span) :=
  match fuel with
  | O => nofuel
  | S fuel =>
      c ← parsepipe fuel;
      c ← back_loop (S (length l)) c;
      b ← peek [59];
      if (b : bool) then _ ← gettoken; r ← parseline fuel; mret (LIST c r) else mret c
  end
with parsepipe (fuel : nat) : P (cmd span) :=
  match fuel with
  | O => nofuel
  | S fuel =>
      c ← parseexec fuel;
      b ← peek [124];
      if (b : bool) then _ ← gettoken; r ← parsepipe fuel; mret (PIPE c r) else mret c
  end
with parseexec (fuel : nat) : P (cmd span) :=
  match fuel with
  | O => nofuel
  | S fuel =>
      b ← peek [40];
      if (b : bool) then parseblock fuel else
      ret ← parseredirs (EXEC []);
      args_loop (S (length l)) 0 ret
  end
with parseblock (fuel : nat) : P (cmd span) :=
  match fuel with
  | O => nofuel
  | S fuel =>
      b ← peek [40];
      if negb b then panic "parseblock" else
      _ ← gettoken;
      c ← parseline fuel;
      b ← peek [41];
      if negb b then panic "syntax - missing )" else
      _ ← gettoken;
      parseredirs c
  end.
End parser.

(** ** NUL-terminated strings *)

Fixpoint nulterminate (c : cmd span) (buf : list Z) : list Z :=
  match c with
  | EXEC argv => foldl (λ buf a, <[snd a := 0]> buf) buf argv
  | REDIR c file _ _ => <[snd file := 0]> (nulterminate c buf)
  | PIPE c1 c2 => nulterminate c2 (nulterminate c1 buf)
  | LIST c1 c2 => nulterminate c2 (nulterminate c1 buf)
  | BACK c => nulterminate c buf
  end.

(** [parsecmd]: the command and the buffer it points into. *)
Definition parse_fuel (l : list Z) : nat := 4 * S (length l).
(** Characters as a message. *)
Definition message (l : list Z) : string :=
  String.string_of_list_ascii ((λ c, Ascii.ascii_of_nat (Z.to_nat (c `mod` 256))) <$> l).
(** [if(s != es){ fprintf(2, "leftovers: %s\n", s); panic("syntax"); } nulterminate(cmd);] *)
Definition parse_end (l : list Z) (c : cmd span) : P (cmd span * list Z) := λ s,
  if negb (s =? length l)%nat then Panic (message (codes "leftovers: " ++ drop s l ++ [10] ++ codes "syntax"))
  else Ok (c, nulterminate c (l ++ [0])) s.
Definition parsecmd (l : list Z) : res Empty_set nat (cmd span * list Z) :=
  (c ← parseline l (parse_fuel l); _ ← peek l []; parse_end l c) 0%nat.

(** ** Running a command *)

(** The continuations take what the kernel answers: a descriptor or pid, or a
    negative number; [Sys] is any other call.  [Fault] is a step whose outcome C does not define. *)
Inductive prog :=
| Exit (status : Z)
| Exec (path : list Z) (argv : list (list Z)) (k : prog)
| Close (fd : Z) (k : Z → prog)
| Open (path : list Z) (mode : Z) (k : Z → prog)
| Dup (fd : Z) (k : Z → prog)
| Pipe (k : option (Z * Z) → prog)
| Fork (k : Z → prog)
| Wait (k : Z → prog)
| Chdir (path : list Z) (k : Z → prog)
| Write (fd : Z) (bytes : list Z) (k : prog)
| Read (k : option Z → prog)
| Getcwd (k : list Z → prog)
| Uptime (k : Z → prog)
| Sys (call : string) (nums : list Z) (strs : list (list Z)) (k : Z → prog)
| Fault
| OutOfFuel.

(** [panic] *)
Definition die (msg : string) : prog := Write 2 (codes msg ++ [10]) (Exit 1).
Definition fork1 (k : Z → prog) : prog := Fork (λ pid, if pid =? -1 then die "fork" else k pid).

Fixpoint runcmd (c : cmd (list Z)) : prog :=
  match c with
  | EXEC [] => Exit 1
  | EXEC ((path :: _) as argv) => Exec path argv (Write 2 (codes "exec " ++ path ++ codes " failed" ++ [10]) (Exit 0))
  | REDIR c file mode fd =>
      Close fd (λ _, Open file mode (λ r, if r <? 0 then Write 2 (codes "open " ++ file ++ codes " failed" ++ [10]) (Exit 1) else runcmd c))
  | LIST c1 c2 => fork1 (λ pid, if pid =? 0 then runcmd c1 else Wait (λ _, runcmd c2))
  | PIPE c1 c2 =>
      Pipe (λ r, match r with
      | None => die "pipe"
      | Some (p0, p1) =>
          fork1 (λ pid, if pid =? 0 then
            Close 1 (λ _, Dup p1 (λ _, Close p0 (λ _, Close p1 (λ _, runcmd c1)))) else
          fork1 (λ pid, if pid =? 0 then
            Close 0 (λ _, Dup p0 (λ _, Close p0 (λ _, Close p1 (λ _, runcmd c2)))) else
          Close p0 (λ _, Close p1 (λ _, Wait (λ _, Wait (λ _, Exit 0))))))
      end)
  | BACK c => fork1 (λ pid, if pid =? 0 then runcmd c else Exit 0)
  end.

(** The strings of a parsed command. *)
Fixpoint cmd_map {A B} (f : A → B) (c : cmd A) : cmd B :=
  match c with
  | EXEC argv => EXEC (f <$> argv)
  | REDIR c file mode fd => REDIR (cmd_map f c) (f file) mode fd
  | PIPE c1 c2 => PIPE (cmd_map f c1) (cmd_map f c2)
  | LIST c1 c2 => LIST (cmd_map f c1) (cmd_map f c2)
  | BACK c => BACK (cmd_map f c)
  end.
Definition string_at (buf : list Z) (a : span) : list Z := until_nul (drop a.1 buf).

(** [runcmd(parsecmd(cmd))] *)
Definition parse_and_run (line : list Z) : prog :=
  match parsecmd line with
  | Ok (c, buf) _ => runcmd (cmd_map (string_at buf) c)
  | Panic msg => die msg
  | Sleep _ _ _ | NoFuel => OutOfFuel
  end.

(** ** The main loop *)

(** [gets(buf, max)] with [n = max - 1] characters left, one [read] each. *)
Fixpoint gets_prog (n : nat) (buf : list Z) (k : list Z → prog) : prog :=
  match n with
  | O => k buf
  | S n => Read (λ r, match r with
      | None => k buf
      | Some c => if eol c then k (buf ++ [c]) else gets_prog n (buf ++ [c]) k
      end)
  end.
(** [None] is the return value -1. *)
Definition getcmd (nbuf : nat) (k : option (list Z) → prog) : prog :=
  Write 2 (codes "$ ") (gets_prog (nbuf - 1) [] (λ buf,
    let line := until_nul buf in if bool_decide (line = []) then k None else k (Some line))).

Fixpoint skip_blanks (cmd : list Z) : list Z :=
  match cmd with c :: r => if (c =? 32) || (c =? 9) then skip_blanks r else cmd | [] => [] end.
Fixpoint main_loop (fuel : nat) : prog :=
  match fuel with
  | O => OutOfFuel
  | S fuel =>
      getcmd 100 (λ r, match r with
      | None => Exit 0
      | Some buf =>
          let cmd := skip_blanks buf in
          if hd 0 cmd =? 10 then main_loop fuel
          else if hd 0 cmd =? 35 then main_loop fuel
          else if (nth 0 cmd 0 =? 99) && (nth 1 cmd 0 =? 100) && (nth 2 cmd 0 =? 32) then
            let dir := drop 3 (removelast cmd) in
            Chdir dir (λ r,
              if r <? 0 then Write 2 (codes "cannot cd " ++ dir ++ [10]) (main_loop fuel) else main_loop fuel)
          else fork1 (λ pid, if pid =? 0 then parse_and_run cmd else Wait (λ _, main_loop fuel))
      end)
  end.
(** [while((fd = open("console", O_RDWR)) >= 0) if(fd >= 3){ close(fd); break; }] *)
Fixpoint open_console (fuel : nat) (k : prog) : prog :=
  match fuel with
  | O => OutOfFuel
  | S fuel => Open (codes "console") O_RDWR (λ fd,
      if fd <? 0 then k else if 3 <=? fd then Close fd (λ _, k) else open_console fuel k)
  end.
Definition main (fuel : nat) (argv : list (list Z)) : prog :=
  let start := open_console fuel (main_loop fuel) in
  match argv with
  | _ :: script :: _ =>
      Open script O_RDONLY (λ fd,
        if fd <? 0 then Write 2 (codes "sh: cannot open " ++ script ++ [10]) (Exit 1)
        else if negb (fd =? 0) then Close 0 (λ _, Dup fd (λ _, Close fd (λ _, start))) else start)
  | _ => start
  end.
