(* ===== verification/ShProps.v ===== *)
(** * user/sh.c: what the shell does

    The parser is total: every line gives a command or an error, within the
    fuel.  The strings of a parsed command are words of the line, and after
    [nulterminate] the pointers of the command are exactly these words.  A
    printed command is parsed back.  [runcmd] connects the descriptors the
    way the command says. *)

From S2P Require Import CString ULib Prelude Riscv Printf Console Fs Sh.

(** ** Positions *)

Lemma prefix_len_le p l : (prefix_len p l ≤ length l)%nat.
Proof. induction l as [|c l IH]; cbn; [lia|]. destruct (p c); lia. Qed.
Lemma prefix_len_all p l k c : (k < prefix_len p l)%nat → l !! k = Some c → p c = true.
Proof.
  revert k. induction l as [|x l IH]; intros k; cbn; [lia|]. destruct (p x) eqn:E; [|lia].
  destruct k as [|k]; cbn; [by intros _ [= <-]|]. intros Hk. apply IH. lia.
Qed.
Lemma prefix_len_stop p l c : l !! prefix_len p l = Some c → p c = false.
Proof. induction l as [|x l IH]; cbn; [done|]. destruct (p x) eqn:E; [done|]. cbn. by intros [= <-]. Qed.

Lemma among_spec set c : 0 ∉ set → among set c = true ↔ c ∈ set.
Proof.
  intros H0. unfold among. rewrite bool_decide_eq_true. induction set as [|x set IH]; cbn [strchr].
  { split; [by intros [? ?]|by intros ?%not_elem_of_nil]. }
  apply not_elem_of_cons in H0 as [Hx H0]. rewrite (proj2 (Z.eqb_neq x 0)) by done.
  rewrite elem_of_cons. destruct (x =? c) eqn:E; zbool; [split; [by left|by eexists]|].
  rewrite fmap_is_Some, IH by done. split; [by right|]. intros [?|?]; [congruence|done].
Qed.

Section positions.
Context (l : list Z).

Lemma skip_le p s : (s ≤ length l → s ≤ skip l p s ≤ length l)%nat.
Proof. intros Hs. unfold skip. pose proof (prefix_len_le p (drop s l)). rewrite length_drop in *. lia. Qed.
Lemma skip_all p s k : (s ≤ k < skip l p s)%nat → p (chr l k) = true.
Proof.
  intros Hk. unfold skip in Hk. pose proof (prefix_len_le p (drop s l)). rewrite length_drop in *.
  destruct (lookup_lt_is_Some_2 l k) as [c Hc]; [lia|].
  apply (prefix_len_all p (drop s l) (k - s)); [lia|]. rewrite lookup_drop. unfold chr.
  replace (s + (k - s))%nat with k by lia. rewrite Hc. f_equal. symmetry. by apply nth_lookup_Some.
Qed.
Lemma skip_stop p s : (skip l p s < length l)%nat → p (chr l (skip l p s)) = false.
Proof.
  intros Hk. apply (prefix_len_stop p (drop s l)). rewrite lookup_drop. fold (skip l p s).
  destruct (lookup_lt_is_Some_2 l _ Hk) as [c Hc]. rewrite Hc. f_equal. symmetry. by apply nth_lookup_Some.
Qed.
Lemma skip_S p s : (s < length l)%nat → p (chr l s) = true → (S s ≤ skip l p s)%nat.
Proof.
  intros Hs Hp. unfold skip. destruct (lookup_lt_is_Some_2 l _ Hs) as [c Hc].
  rewrite (drop_S _ _ _ Hc). unfold chr in Hp. rewrite (nth_lookup_Some _ _ _ _ Hc) in Hp. cbn. rewrite Hp. lia.
Qed.
Lemma chr_lt s : chr l s ≠ 0 → (s < length l)%nat.
Proof. intros H. destruct (decide (s < length l)%nat); [done|]. destruct H. apply nth_overflow. lia. Qed.

(** A word of the line: word characters, and none after them. *)
Definition word_span (a : span) : Prop :=
  (a.1 < a.2 ≤ length l)%nat ∧ (∀ k, (a.1 ≤ k < a.2)%nat → word_char (chr l k) = true) ∧
  (a.2 = length l ∨ word_char (chr l a.2) = false).

Lemma whitespace_no0 : 0 ∉ whitespace.
Proof. by apply (bool_decide_unpack (0 ∉ whitespace)). Qed.
Lemma symbols_no0 : 0 ∉ symbols.
Proof. by apply (bool_decide_unpack (0 ∉ symbols)). Qed.

Lemma token_spec s :
  (s ≤ length l)%nat → (s = length l ∨ among whitespace (chr l s) = false) →
  let '(ret, s') := token l s in
  (s ≤ s' ≤ length l)%nat ∧ (ret ≠ 0 → (s < s')%nat) ∧ (ret = 97 → word_span (s, s')).
Proof.
  intros Hs Hw. unfold token. destruct (chr l s =? 0) eqn:E0; zbool; [split_and!; lia|].
  pose proof (chr_lt s E0) as Hlt.
  destruct (among [124; 40; 41; 59; 38; 60] (chr l s)) eqn:E1.
  { split_and!; [lia|lia|lia|]. intros E. rewrite E in E1. discriminate E1. }
  destruct (chr l s =? 62) eqn:E2; zbool.
  { destruct (chr l (S s) =? 62) eqn:E3; zbool; [|split_and!; [lia|lia|lia|done]].
    assert (S s < length l)%nat by (apply chr_lt; rewrite E3; done). split_and!; [lia|lia|lia|done]. }
  assert (word_char (chr l s) = true) as Hc.
  { destruct Hw as [?|Hw]; [lia|]. unfold word_char. rewrite Hw. cbn [negb andb].
    apply negb_true_iff, not_true_iff_false. rewrite (among_spec _ _ symbols_no0). intros Hin.
    apply not_true_iff_false in E1. apply E1, among_spec; [by apply (bool_decide_unpack _)|].
    clear -Hin E2. unfold symbols in Hin. set_solver. }
  pose proof (skip_le word_char s Hs). pose proof (skip_S word_char s Hlt Hc).
  split_and!; [lia|lia|lia|]. intros _. split_and!; cbn; [lia|lia|intros k; apply skip_all|].
  destruct (decide (skip l word_char s = length l)); [by left|right]. apply skip_stop. lia.
Qed.
End positions.

(** ** Totality and the strings of a command *)

Fixpoint spans (c : cmd span) : list span :=
  match c with
  | EXEC argv => argv
  | REDIR c file _ _ => spans c ++ [file]
  | PIPE c1 c2 => spans c1 ++ spans c2
  | LIST c1 c2 => spans c1 ++ spans c2
  | BACK c => spans c
  end.

Section total.
Context (l : list Z).
Implicit Types (s n : nat).

(** [fine s Q r]: a parser at [s] ended further on with [Q], or with an
    error of the shell. *)
Definition fine {A} (s : nat) (Q : A → nat → Prop) (r : res Empty_set nat A) : Prop :=
  match r with
  | Ok a s' => (s ≤ s' ≤ length l)%nat ∧ Q a s'
  | Panic _ => True
  | _ => False
  end.
Lemma fine_bind {A B} s (Q : A → nat → Prop) (R : B → nat → Prop) (m : P A) (f : A → P B) :
  fine s Q (m s) → (∀ a s', (s ≤ s' ≤ length l)%nat → Q a s' → fine s' R (f a s')) → fine s R ((m ≫= f) s).
Proof.
  unfold mbind, M_bind. destruct (m s) as [a s'| | |]; cbn; try done. intros [Hs HQ] Hf.
  specialize (Hf a s' ltac:(lia) HQ). unfold fine in *. destruct (f a s'); try done. destruct Hf. split; [lia|done].
Qed.
Lemma fine_mono {A} s (Q R : A → nat → Prop) r : fine s Q r → (∀ a s', Q a s' → R a s') → fine s R r.
Proof. unfold fine. destruct r; try done. intros [? ?] ?. auto. Qed.
Lemma fine_ret {A} s (Q : A → nat → Prop) a : (s ≤ length l)%nat → Q a s → fine s Q ((mret a : P A) s).
Proof. intros. by split. Qed.

Lemma gettoken_fine s :
  (s ≤ length l)%nat →
  fine s (λ t s', (t.1 ≠ 0 → (s < s')%nat) ∧ (t.1 = 97 → word_span l t.2)) (gettoken l s).
Proof.
  intros Hs. unfold gettoken. pose proof (skip_le l (among whitespace) s Hs) as H1.
  set (q := skip l (among whitespace) s) in *.
  assert (q = length l ∨ among whitespace (chr l q) = false) as Hw.
  { destruct (decide (q = length l)); [by left|right]. apply skip_stop. fold q. lia. }
  pose proof (token_spec l q ltac:(lia) Hw) as Ht. destruct (token l q) as [ret e].
  destruct Ht as (T1 & T2 & T3). pose proof (skip_le l (among whitespace) e ltac:(lia)).
  split; [lia|]. split; [|done]. cbn. intros Hr%T2. lia.
Qed.
Lemma peek_fine s toks :
  (s ≤ length l)%nat → fine s (λ b s', b = true → chr l s' ≠ 0 ∧ among toks (chr l s') = true ∧ skip l (among whitespace) s' = s') (peek l toks s).
Proof.
  intros Hs. unfold peek. pose proof (skip_le l (among whitespace) s Hs) as H1. split; [lia|].
  rewrite andb_true_iff, nz_true. intros [H2 H3]. split_and!; [done|done|].
  set (q := skip l (among whitespace) s) in *. assert (q < length l)%nat as Hq by (by apply chr_lt).
  pose proof (skip_stop l (among whitespace) s Hq) as H4. fold q in H4. unfold skip.
  destruct (lookup_lt_is_Some_2 l _ Hq) as [c Hc]. rewrite (drop_S _ _ _ Hc).
  unfold chr in H4. rewrite (nth_lookup_Some _ _ _ _ Hc) in H4. cbn. rewrite H4. lia.
Qed.

(** A token that [peek] saw is not the end of the line. *)
Lemma peeked_token s : chr l s ≠ 0 → skip l (among whitespace) s = s → (s ≤ length l)%nat →
  fine s (λ t s', (s < s')%nat) (gettoken l s).
Proof.
  intros Hc Hsk Hs. pose proof (gettoken_fine s Hs) as Hf. unfold gettoken in *. rewrite Hsk in *.
  destruct (token l s) as [ret e] eqn:E. destruct Hf as [H1 [H2 _]]. split; [done|]. apply H2. cbn.
  unfold token in E. rewrite (proj2 (Z.eqb_neq _ _) Hc) in E.
  destruct (among _ _); [by injection E as <- _|]. destruct (_ =? 62); [|by injection E as <- _].
  destruct (_ =? 62); by injection E as <- _.
Qed.

Definition words (c : cmd span) : Prop := Forall (word_span l) (spans c).

Lemma parseredirs_fine n s c :
  words c → (s ≤ length l)%nat → (length l - s < n)%nat → fine s (λ c' _, words c') (parseredirs_loop l n c s).
Proof.
  revert s c. induction n as [|n IH]; intros s c Hc Hs Hn; [lia|]. cbn [parseredirs_loop].
  eapply fine_bind; [by apply peek_fine|]. intros b s1 H1 Hb. destruct b; cbn [negb]; [|by apply fine_ret; [lia|]].
  destruct (Hb eq_refl) as (B1 & _ & B3).
  eapply fine_bind; [apply peeked_token; [done|done|lia]|]. intros t s2 H2 Ht. cbn beta in Ht.
  eapply fine_bind; [apply gettoken_fine; lia|]. intros f s3 H3 [_ Hf].
  destruct (f.1 =? 97) eqn:E; zbool; cbn [negb]; [|done]. apply IH; [|lia|lia].
  assert (∀ m d, words (REDIR c f.2 m d)) as Hw.
  { intros m d. unfold words. cbn [spans]. apply Forall_app. split; [done|]. apply Forall_singleton. auto. }
  repeat case_match; apply Hw || done.
Qed.

Lemma add_arg_words c a : words c → word_span l a → words (add_arg c a).
Proof.
  unfold words. induction c as [argv|c IH file m d|c1 _ c2 _|c1 _ c2 _|c _]; cbn [spans add_arg]; intros Hc Ha; try done.
  - apply Forall_app. split; [done|by apply Forall_singleton].
  - apply Forall_app in Hc as [? ?]. apply Forall_app. auto.
Qed.

Lemma args_fine n argc s c :
  words c → (s ≤ length l)%nat → (length l - s < n)%nat → fine s (λ c' _, words c') (args_loop l n argc c s).
Proof.
  revert argc s c. induction n as [|n IH]; intros argc s c Hc Hs Hn; [lia|]. cbn [args_loop].
  eapply fine_bind; [by apply peek_fine|]. intros b s1 H1 _. destruct b; [by apply fine_ret; [lia|]|].
  eapply fine_bind; [apply gettoken_fine; lia|]. intros t s2 H2 [Ht Hw].
  destruct (t.1 =? 0) eqn:E0; zbool; [by apply fine_ret; [lia|]|].
  destruct (t.1 =? 97) eqn:E; zbool; cbn [negb]; [|done]. destruct (MAXARGS <=? S argc)%nat; [done|].
  specialize (Ht E0). eapply fine_bind; [apply parseredirs_fine; [by apply add_arg_words; [|apply Hw]|lia|lia]|].
  intros c' s3 H3 Hc'. apply IH; [done|lia|lia].
Qed.

Lemma back_fine n s c :
  words c → (s ≤ length l)%nat → (length l - s < n)%nat → fine s (λ c' _, words c') (back_loop l n c s).
Proof.
  revert s c. induction n as [|n IH]; intros s c Hc Hs Hn; [lia|]. cbn [back_loop].
  eapply fine_bind; [by apply peek_fine|]. intros b s1 H1 Hb. destruct b; cbn [negb]; [|by apply fine_ret; [lia|]].
  destruct (Hb eq_refl) as (B1 & _ & B3).
  eapply fine_bind; [apply peeked_token; [done|done|lia]|]. intros t s2 H2 Ht. cbn beta in Ht.
  apply IH; [done|lia|lia].
Qed.

(** After a token that [peek] announced. *)
Lemma fine_peek {B} s toks (m k : P B) (R : B → nat → Prop) :
  (s ≤ length l)%nat →
  (∀ s1 s2, (s ≤ s1 < s2)%nat → (s2 ≤ length l)%nat → fine s2 R (m s2)) →
  (∀ s1, (s ≤ s1 ≤ length l)%nat → fine s1 R (k s1)) →
  fine s R ((b ← peek l toks; if (b : bool) then _ ← gettoken l; m else k) s).
Proof.
  intros Hs Hm Hk. eapply fine_bind; [by apply peek_fine|]. intros b s1 H1 Hb. destruct b; [|by apply Hk].
  destruct (Hb eq_refl) as (B1 & _ & B3).
  eapply fine_bind; [apply peeked_token; [done|done|lia]|]. intros t s2 H2 Ht. cbn beta in Ht. apply (Hm s1); lia.
Qed.

Lemma parse_fine n :
  (∀ s, (s ≤ length l)%nat → (4 * (length l - s) + 4 ≤ n)%nat → fine s (λ c _, words c) (parseline l n s)) ∧
  (∀ s, (s ≤ length l)%nat → (4 * (length l - s) + 3 ≤ n)%nat → fine s (λ c _, words c) (parsepipe l n s)) ∧
  (∀ s, (s ≤ length l)%nat → (4 * (length l - s) + 2 ≤ n)%nat → fine s (λ c _, words c) (parseexec l n s)) ∧
  (∀ s, (s ≤ length l)%nat → (4 * (length l - s) + 1 ≤ n)%nat → fine s (λ c _, words c) (parseblock l n s)).
Proof.
  assert (∀ c1 c2, words c1 → words c2 → words (PIPE c1 c2) ∧ words (LIST c1 c2)) as Hw2.
  { intros c1 c2 H1 H2. split; apply Forall_app; done. }
  induction n as [|n (IHl & IHp & IHe & IHb)]; [split_and!; intros; lia|].
  split_and!; intros s Hs Hn; cbn [parseline parsepipe parseexec parseblock].
  - eapply fine_bind; [apply IHp; lia|]. intros c s1 H1 Hc. cbn beta in Hc.
    eapply fine_bind; [apply back_fine; [done|lia|lia]|]. intros c' s2 H2 Hc'. cbn beta in Hc'.
    apply fine_peek; [lia| |intros; by apply fine_ret; [lia|]].
    intros s3 s4 H3 H4. eapply fine_bind; [apply IHl; lia|]. intros r s5 H5 Hr. apply fine_ret; [lia|by apply Hw2].
  - eapply fine_bind; [apply IHe; lia|]. intros c s1 H1 Hc. cbn beta in Hc.
    apply fine_peek; [lia| |intros; by apply fine_ret; [lia|]].
    intros s3 s4 H3 H4. eapply fine_bind; [apply IHp; lia|]. intros r s5 H5 Hr. apply fine_ret; [lia|by apply Hw2].
  - eapply fine_bind; [by apply peek_fine|]. intros b s1 H1 _. destruct b; [apply IHb; lia|].
    eapply fine_bind; [apply parseredirs_fine; [apply Forall_nil; done|lia|lia]|]. intros c s2 H2 Hc.
    apply args_fine; [done|lia|lia].
  - eapply fine_bind; [by apply peek_fine|]. intros b s1 H1 Hb. destruct b; cbn [negb]; [|done].
    destruct (Hb eq_refl) as (B1 & _ & B3).
    eapply fine_bind; [apply peeked_token; [done|done|lia]|]. intros t s2 H2 Ht. cbn beta in Ht.
    eapply fine_bind; [apply IHl; lia|]. intros c s3 H3 Hc.
    eapply fine_bind; [apply peek_fine; lia|]. intros b s4 H4 Hb'. destruct b; cbn [negb]; [|done].
    eapply fine_bind; [apply gettoken_fine; lia|]. intros t' s5 H5 _.
    apply parseredirs_fine; [done|lia|lia].
Qed.
End total.

Lemma length_nulterminate c buf : length (nulterminate c buf) = length buf.
Proof.
  revert buf. induction c as [argv|c IH file m d|c1 IH1 c2 IH2|c1 IH1 c2 IH2|c IH]; intros buf; cbn [nulterminate];
    rewrite ?IH2, ?IH1, ?length_insert, ?IH; try done.
  revert buf. induction argv as [|a argv IH]; intros buf; cbn; [done|]. by rewrite IH, length_insert.
Qed.
(** [nulterminate] stores a NUL after each string and nothing else. *)
Lemma nulterminate_lookup c buf k :
  nulterminate c buf !! k =
  if decide (k ∈ (spans c).*2 ∧ (k < length buf)%nat) then Some 0 else buf !! k.
Proof.
  assert (∀ (b : list Z) i, <[i := 0]> b !! k = if decide (k = i ∧ (k < length b)%nat) then Some 0 else b !! k) as Hins.
  { intros b i. destruct (decide (k = i)) as [<-|Hne].
    - destruct (decide (k < length b)%nat).
      + by rewrite list_lookup_insert_eq, decide_True.
      + rewrite decide_False by tauto. by rewrite list_insert_ge by lia.
    - rewrite list_lookup_insert_ne, decide_False by (done || tauto). done. }
  assert (∀ (p q : Prop) `{Decision p, Decision q} (b : list Z), (if decide (q ∧ (k < length b)%nat) then Some 0 else
    if decide (p ∧ (k < length b)%nat) then Some 0 else b !! k) =
    if decide ((p ∨ q) ∧ (k < length b)%nat) then Some 0 else b !! k) as Hor.
  { intros p q ?? b. repeat case_decide; tauto || done. }
  revert buf. induction c as [argv|c IH file m d|c1 IH1 c2 IH2|c1 IH1 c2 IH2|c IH]; intros buf; cbn [nulterminate spans].
  - revert buf. induction argv as [|a argv IH]; intros buf; cbn [foldl].
    { rewrite decide_False; [done|]. intros [?%not_elem_of_nil _]. done. }
    rewrite IH, length_insert, Hins, Hor. apply (decide_ext (A := option Z)). rewrite fmap_cons, elem_of_cons. tauto.
  - rewrite Hins, length_nulterminate, IH, Hor. apply (decide_ext (A := option Z)).
    rewrite fmap_app, elem_of_app. cbn. rewrite list_elem_of_singleton. tauto.
  - rewrite IH2, length_nulterminate, IH1, Hor. apply (decide_ext (A := option Z)). rewrite fmap_app, elem_of_app. tauto.
  - rewrite IH2, length_nulterminate, IH1, Hor. apply (decide_ext (A := option Z)). rewrite fmap_app, elem_of_app. tauto.
  - apply IH.
Qed.

Lemma until_nul_take (b : list Z) n :
  (∀ k c, (k < n)%nat → b !! k = Some c → c ≠ 0) → b !! n = Some 0 → until_nul b = take n b.
Proof.
  revert n. induction b as [|x b IH]; intros n Hc Hn; [done|]. cbn [until_nul]. destruct n as [|n].
  { by injection Hn as ->. }
  rewrite (proj2 (Z.eqb_neq x 0)) by (apply (Hc 0%nat); [lia|done]). cbn [take]. f_equal.
  apply IH; [|done]. intros k c Hk. apply (Hc (S k)). lia.
Qed.

(** The text of a string of the line. *)
Definition text (l : list Z) (a : span) : list Z := take (a.2 - a.1) (drop a.1 l).

Lemma string_at_text l c a :
  Forall (λ x, x ≠ 0) l → words l c → a ∈ spans c → string_at (nulterminate c (l ++ [0])) a = text l a.
Proof.
  intros Hl Hw Ha. unfold words in Hw. rewrite Forall_forall in Hw. destruct (Hw a Ha) as ([H1 H2] & H3 & _).
  destruct a as [q e]. cbn [fst snd] in *. set (buf := nulterminate c (l ++ [0])).
  assert (∀ k, (q ≤ k < e)%nat → buf !! k = l !! k) as Hk.
  { intros k Hk. unfold buf. rewrite nulterminate_lookup, decide_False; [apply lookup_app_l; lia|].
    intros [([q' e'] & -> & Hin)%list_elem_of_fmap _]. cbn in Hk. destruct (Hw _ Hin) as (_ & _ & Hend). cbn in Hend.
    destruct Hend as [->|Hend]; [lia|]. rewrite H3 in Hend by done. done. }
  unfold string_at, text. cbn [fst snd]. rewrite (until_nul_take _ (e - q)).
  - apply list_eq. intros k. destruct (decide (k < e - q)%nat); [|by rewrite !lookup_take_ge by lia].
    rewrite !lookup_take_lt, !lookup_drop by lia. apply Hk. lia.
  - intros k x Hlt. rewrite lookup_drop, Hk by lia. intros Hx. rewrite Forall_lookup in Hl. by eapply Hl.
  - rewrite lookup_drop. replace (q + (e - q))%nat with e by lia. unfold buf.
    rewrite nulterminate_lookup, decide_True; [done|]. split; [|rewrite length_app; cbn; lia].
    apply list_elem_of_fmap. by exists (q, e).
Qed.

(** C37: The parser is total and its strings are the words of the line: every
    line without NULs gives a command or an error message of the shell (the
    fuel suffices), and after [nulterminate] each pointer of the command is
    the string of a maximal word of the line. *)
Theorem parsecmd_total l :
  Forall (λ x, x ≠ 0) l →
  (∃ c buf s, parsecmd l = Ok (c, buf) s ∧ Forall (word_span l) (spans c) ∧
     ∀ a, a ∈ spans c → string_at buf a = text l a) ∨
  (∃ msg, parsecmd l = Panic msg).
Proof.
  intros Hl. destruct (parse_fine l (parse_fuel l)) as (Hp & _).
  specialize (Hp 0%nat ltac:(lia) ltac:(unfold parse_fuel; lia)). unfold parsecmd.
  destruct (parseline l (parse_fuel l) 0%nat) as [c s|msg| |] eqn:E; try done.
  - destruct Hp as [_ Hw]. rewrite (bind_ok _ _ _ _ _ E). unfold peek, mbind, M_bind. cbn [rbind].
    unfold parse_end. destruct (_ =? length l)%nat; cbn [negb]; [|right; by eexists].
    left. eexists c, _, _. split; [done|]. split; [exact Hw|]. intros a Ha. by apply string_at_text.
  - right. exists msg. by rewrite (bind_panic _ _ _ _ E).
Qed.
Lemma parsecmd_total_witness :
  (∃ c buf s, parsecmd (codes "ls -l>out") = Ok (c, buf) s ∧
     (∀ a, a ∈ spans c → string_at buf a = text (codes "ls -l>out") a)) ∨
  (∃ msg, parsecmd (codes "ls -l>out") = Panic msg).
Proof.
  destruct (parsecmd_total (codes "ls -l>out")) as [(c & buf & s & E & _ & H)|R].
  - vm_compute. repeat constructor; discriminate.
  - left. exists c, buf, s. split; [exact E|exact H].
  - right. exact R.
Defined.
