(* ===== verification/ShParse.v ===== *)
(** * user/sh.c: printed commands are parsed back

    [toks lvl c] are the tokens of a command in a context of level [lvl] (0:
    a line, 1: before an ampersand, 2: an element of a pipeline's tail, 3:
    a command that may be redirected), with parentheses where the grammar of
    the parser needs them.  The parser reads them back to [c]. *)

From S2P Require Import CString ULib Prelude Riscv Printf Console Fs Sh ShProps.

Inductive tok := TWord (w : list Z) | TSym (c : Z) | TApp.
Definition tok_text (t : tok) : list Z :=
  match t with TWord w => w | TSym c => [c] | TApp => [62; 62] end.
Definition tok_code (t : tok) : Z := match t with TWord _ => 97 | TSym c => c | TApp => 43 end.
Definition first (t : tok) : Z := hd 0 (tok_text t).
Definition good_word (w : list Z) : Prop := w ≠ [] ∧ Forall (λ c, word_char c = true ∧ c ≠ 0) w.
Definition tok_ok (t : tok) : Prop :=
  match t with TWord w => good_word w | TSym c => c ∈ symbols | TApp => True end.
(** Tokens are written with a blank after each. *)
Definition render (ts : list tok) : list Z := concat ((λ t, tok_text t ++ [32]) <$> ts).

Section lexer.
Context (l : list Z).

Definition at_toks (s : nat) (ts : list tok) : Prop :=
  (s ≤ length l)%nat ∧ drop s l = render ts ∧ Forall tok_ok ts.

Lemma chr_drop s k : chr l (s + k) = nth k (drop s l) 0.
Proof. unfold chr. by rewrite nth_skipn. Qed.

Lemma first_ok t : tok_ok t → first t ≠ 0 ∧ among whitespace (first t) = false ∧
  (first t ∈ symbols ↔ match t with TWord _ => False | _ => True end).
Proof.
  assert (∀ c, word_char c = true → among whitespace c = false ∧ c ∉ symbols) as Hw.
  { intros c. unfold word_char. rewrite andb_true_iff, !negb_true_iff. intros [? Hs]. split; [done|].
    rewrite <- (among_spec _ _ symbols_no0). congruence. }
  destruct t as [w|c|]; cbn.
  - intros [Hn Hf]. destruct w as [|c w]; [done|]. apply Forall_cons in Hf as [[H1 H2] _].
    apply Hw in H1 as [? ?]. cbn. tauto.
  - intros Hc. assert (among whitespace c = false) as ->.
    { apply not_true_iff_false. rewrite (among_spec _ _ whitespace_no0). intros Hin.
      unfold symbols in Hc. unfold whitespace in Hin. set_solver. }
    split_and!; [intros ->; by apply symbols_no0|done|tauto].
  - intros _. split_and!; [done|done|]. split; [done|]. intros _. by apply (bool_decide_unpack _).
Qed.

Lemma render_cons t ts : render (t :: ts) = tok_text t ++ 32 :: render ts.
Proof. unfold render. cbn. by rewrite <- app_assoc. Qed.
Lemma render_app ts us : render (ts ++ us) = render ts ++ render us.
Proof. unfold render. by rewrite fmap_app, concat_app. Qed.
Lemma tok_text_first t : tok_ok t → ∃ r, tok_text t = first t :: r.
Proof. destruct t as [[|c w]|c|]; cbn; [by intros [? _]|by eexists..]. Qed.

(** No blank before the first token. *)
Lemma prefix_len_render ts : Forall tok_ok ts → prefix_len (among whitespace) (render ts) = 0%nat.
Proof.
  destruct ts as [|t ts]; [done|]. intros [Ht _]%Forall_cons. rewrite render_cons.
  destruct (tok_text_first t Ht) as [r ->]. cbn. by rewrite (proj1 (proj2 (first_ok t Ht))).
Qed.
Lemma skip_at s ts : at_toks s ts → skip l (among whitespace) s = s.
Proof. intros (_ & E & H). unfold skip. rewrite E, prefix_len_render by done. lia. Qed.
Lemma chr_at s t ts : at_toks s (t :: ts) → chr l s = first t.
Proof.
  intros (_ & E & H). apply Forall_cons in H as [Ht _]. rewrite <- (Nat.add_0_r s), chr_drop, E, render_cons.
  by destruct (tok_text_first t Ht) as [r ->].
Qed.
Lemma chr_end s : at_toks s [] → chr l s = 0 ∧ s = length l.
Proof.
  intros (Hs & E & _). apply (f_equal length) in E. rewrite length_drop in E. cbn in E.
  assert (s = length l) as -> by lia. split; [|done]. apply nth_overflow. lia.
Qed.
Lemma at_next s t ts :
  at_toks s (t :: ts) → at_toks (S (s + length (tok_text t))) ts ∧ text l (s, (s + length (tok_text t))%nat) = tok_text t.
Proof.
  intros (Hs & E & H). apply Forall_cons in H as [Ht H]. rewrite render_cons in E.
  pose proof (f_equal length E) as El. rewrite length_drop, length_app in El. cbn in El. split; [split_and!|].
  - lia.
  - rewrite <- (Nat.add_succ_r s), <- drop_drop, E. rewrite drop_app_ge by lia.
    replace (S (length (tok_text t)) - length (tok_text t))%nat with 1%nat by lia. done.
  - done.
  - unfold text. cbn [fst snd]. rewrite E. replace (s + length (tok_text t) - s)%nat with (length (tok_text t)) by lia.
    apply take_app_length.
Qed.

Lemma token_at s t ts :
  at_toks s (t :: ts) → token l s = (tok_code t, (s + length (tok_text t))%nat).
Proof.
  intros Ha. pose proof (chr_at s t ts Ha) as Hc. pose proof Ha as (_ & E & H). apply Forall_cons in H as [Ht _].
  destruct (first_ok t Ht) as (F1 & F2 & F3). unfold token. rewrite Hc, (proj2 (Z.eqb_neq _ _) F1).
  rewrite render_cons in E. destruct t as [w|c|]; cbn [tok_text tok_code length] in *.
  - assert (among [124; 40; 41; 59; 38; 60] (first (TWord w)) = false) as ->.
    { apply not_true_iff_false. rewrite among_spec by (by apply (bool_decide_unpack _)). intros Hin. apply F3. unfold symbols. set_solver. }
    rewrite (proj2 (Z.eqb_neq _ 62)) by (intros E'; apply F3; rewrite E'; by apply (bool_decide_unpack _)).
    f_equal. unfold skip. f_equal. rewrite E. destruct Ht as [_ Hf]. clear -Hf.
    induction Hf as [|c w [H _] _ IH]; cbn; [done|]. by rewrite H, IH.
  - cbn in F1, Hc |- *. change (first (TSym c)) with c in *.
    destruct (decide (c = 62)) as [->|Hne].
    + cbn. rewrite <- Nat.add_1_r, chr_drop, E. done.
    + assert (among [124; 40; 41; 59; 38; 60] c = true) as ->; [|f_equal; lia].
      apply among_spec; [by apply (bool_decide_unpack _)|]. unfold symbols in Ht. set_solver.
  - cbn. rewrite <- Nat.add_1_r, chr_drop, E. cbn. f_equal; lia.
Qed.

Lemma gettoken_at s t ts :
  at_toks s (t :: ts) →
  ∃ a s', gettoken l s = Ok (tok_code t, a) s' ∧ at_toks s' ts ∧ (s < s')%nat ∧ text l a = tok_text t.
Proof.
  intros Ha. destruct (at_next s t ts Ha) as [Hn Ht]. unfold gettoken. rewrite (skip_at _ _ Ha), (token_at _ _ _ Ha).
  eexists _, _. split; [done|].
  assert (skip l (among whitespace) (s + length (tok_text t)) = S (s + length (tok_text t))) as ->.
  { destruct Ha as (_ & E & H). apply Forall_cons in H as [_ H]. unfold skip.
    rewrite <- drop_drop, E, render_cons, drop_app_length. cbn. rewrite prefix_len_render by done. lia. }
  split_and!; [done|lia|done].
Qed.
Lemma gettoken_end s : at_toks s [] → ∃ a, gettoken l s = Ok (0, a) s.
Proof.
  intros Ha. destruct (chr_end s Ha) as [Hc _]. unfold gettoken, token. rewrite (skip_at _ _ Ha), Hc. cbn.
  rewrite (skip_at _ _ Ha). by eexists.
Qed.
(** Whether the next token starts with one of the characters. *)
Definition starts (F : list Z) (ts : list tok) : bool :=
  match ts with [] => false | t :: _ => among F (first t) end.
Lemma peek_at s ts F : at_toks s ts → peek l F s = Ok (starts F ts) s.
Proof.
  intros Ha. unfold peek. rewrite (skip_at _ _ Ha). destruct ts as [|t ts].
  - destruct (chr_end s Ha) as [-> _]. done.
  - rewrite (chr_at _ _ _ Ha). destruct Ha as (_ & _ & H). apply Forall_cons in H as [Ht _].
    cbn [starts]. do 2 f_equal. rewrite (proj2 (nz_true _)); [done|apply (first_ok t Ht)].
Qed.
End lexer.

(** ** Printing *)

(** The redirections the parser builds, with their operator. *)
Definition redir_op (mode fd : Z) : option tok :=
  if (mode =? O_RDONLY) && (fd =? 0) then Some (TSym 60)
  else if (mode =? Z.lor (Z.lor O_WRONLY O_CREATE) O_TRUNC) && (fd =? 1) then Some (TSym 62)
  else if (mode =? Z.lor O_WRONLY O_CREATE) && (fd =? 1) then Some TApp
  else None.
Definition redir_toks (r : list Z * Z * Z) : list tok :=
  let '(file, mode, fd) := r in [default TApp (redir_op mode fd); TWord file].
Definition redir_ok (r : list Z * Z * Z) : Prop :=
  let '(file, mode, fd) := r in good_word file ∧ is_Some (redir_op mode fd).

Definition paren (b : bool) (ts : list tok) : list tok := if b then TSym 40 :: ts ++ [TSym 41] else ts.
Fixpoint toks (lvl : nat) (c : cmd (list Z)) : list tok :=
  match c with
  | EXEC argv => TWord <$> argv
  | REDIR c file mode fd => toks 3 c ++ redir_toks (file, mode, fd)
  | PIPE c1 c2 => paren (3 <=? lvl)%nat (toks 3 c1 ++ TSym 124 :: toks 2 c2)
  | BACK c => paren (2 <=? lvl)%nat (toks 1 c ++ [TSym 38])
  | LIST c1 c2 => paren (1 <=? lvl)%nat (toks 1 c1 ++ TSym 59 :: toks 0 c2)
  end.
Definition print (c : cmd (list Z)) : list Z := render (toks 0 c).

(** Commands the shell can express. *)
Fixpoint cmd_ok (c : cmd (list Z)) : Prop :=
  match c with
  | EXEC argv => Forall good_word argv ∧ (length argv < MAXARGS)%nat
  | REDIR c file mode fd => cmd_ok c ∧ redir_ok (file, mode, fd)
  | PIPE c1 c2 | LIST c1 c2 => cmd_ok c1 ∧ cmd_ok c2
  | BACK c => cmd_ok c
  end.

(** ** Parsing *)

Section parse.
Context (l : list Z).
Abbreviation at_toks := (at_toks l).

Definition stops (F : list Z) (ts : list tok) : Prop := ts = [] ∨ starts F ts = true.
(** [p] at [s] reads the tokens before [rest] as [c]. *)
Definition parses (p : P (cmd span)) (s : nat) (c : cmd (list Z)) (rest : list tok) : Prop :=
  ∃ t s', p s = Ok t s' ∧ cmd_map (text l) t = c ∧ at_toks s' rest ∧ (s ≤ s')%nat.

Lemma starts_sub F G ts : 0 ∉ F → 0 ∉ G → starts F ts = true → (∀ c, c ∈ F → c ∈ G) → starts G ts = true.
Proof. intros HF HG. destruct ts; cbn; [done|]. rewrite !among_spec by done. auto. Qed.
Lemma stops_not F G ts : 0 ∉ F → 0 ∉ G → stops F ts → (∀ c, c ∈ F → c ∉ G) → starts G ts = false.
Proof.
  intros HF HG [->|H] Hd; [done|]. apply not_true_iff_false. destruct ts; [done|]. cbn in *.
  rewrite among_spec in * by done. intros Hg. by apply (Hd (first t)).
Qed.
Ltac no0 := by apply (bool_decide_unpack _).
Ltac disj := intros ? ?; set_solver.

Definition wrap (c : cmd (list Z)) (rs : list (list Z * Z * Z)) : cmd (list Z) :=
  foldl (λ c r, REDIR c r.1.1 r.1.2 r.2) c rs.
Definition redirs (rs : list (list Z * Z * Z)) : list tok := concat (redir_toks <$> rs).

Lemma redirs_start r rs : redir_ok r → starts [60; 62] (redirs (r :: rs)) = true.
Proof.
  destruct r as [[f m] d]. intros [_ [o Ho]]. cbn. rewrite Ho. cbn. unfold redir_op in Ho.
  repeat (case_match; [injection Ho as <-; done|]). done.
Qed.

Lemma parseredirs_at n s c c0 rs rest :
  cmd_map (text l) c = c0 → Forall redir_ok rs → at_toks s (redirs rs ++ rest) → starts [60; 62] rest = false →
  (length rs < n)%nat → parses (parseredirs_loop l n c) s (wrap c0 rs) rest.
Proof.
  revert n s c c0. induction rs as [|[[f m] d] rs IH]; intros n s c c0 Hc Hrs Ha Hst Hn; (destruct n as [|n]; [cbn in Hn; lia|]);
    unfold parses; cbn [parseredirs_loop]; rewrite (bind_ok _ _ _ _ _ (peek_at _ _ _ [60; 62] Ha)).
  { cbn [redirs fmap list_fmap concat app]. rewrite Hst. cbn. exists c, s. by split_and!. }
  apply Forall_cons in Hrs as [Hr Hrs]. pose proof (redirs_start (f, m, d) rs Hr) as Hs1.
  destruct Hr as [Hf [o Ho]].
  assert (redirs ((f, m, d) :: rs) ++ rest = o :: TWord f :: redirs rs ++ rest) as Et by (cbn; by rewrite Ho).
  rewrite Et in *. cbn [starts].
  assert (among [60; 62] (first o) = true) as Hfo by (revert Hs1; cbn; by rewrite Ho).
  rewrite Hfo. cbn [negb].
  destruct (gettoken_at l s _ _ Ha) as (a & s1 & E1 & A1 & L1 & _). rewrite (bind_ok _ _ _ _ _ E1).
  destruct (gettoken_at l s1 _ _ A1) as (a2 & s2 & E2 & A2 & L2 & X2). rewrite (bind_ok _ _ _ _ _ E2). cbn [fst snd tok_code].
  change (97 =? 97) with true. cbn [negb].
  destruct (IH n s2 (REDIR c a2 m d) (REDIR c0 f m d)) as (t & s' & E3 & X3 & A3 & L3); [|done|done|done|cbn in Hn; lia|].
  { cbn [cmd_map]. by rewrite Hc, X2. }
  exists t, s'. split_and!; [|done|done|lia]. rewrite <- E3.
  unfold redir_op in Ho.
  destruct ((m =? O_RDONLY) && (d =? 0)) eqn:M1; [zbool; subst; by injection Ho as <-|].
  destruct ((m =? Z.lor (Z.lor O_WRONLY O_CREATE) O_TRUNC) && (d =? 1)) eqn:M2;
    [apply andb_true_iff in M2 as [M2 M2']; apply Z.eqb_eq in M2, M2'; subst; by injection Ho as <-|].
  destruct ((m =? Z.lor O_WRONLY O_CREATE) && (d =? 1)) eqn:M3; [|done].
  apply andb_true_iff in M3 as [M3 M3']; apply Z.eqb_eq in M3, M3'; subst; by injection Ho as <-.
Qed.

Lemma at_len s ts : at_toks s ts → (length ts ≤ length l - s)%nat.
Proof.
  intros (Hs & E & _). apply (f_equal length) in E. rewrite length_drop in E. rewrite E. clear.
  induction ts as [|t ts IH]; [cbn; lia|]. rewrite render_cons, length_app. cbn. lia.
Qed.
Lemma length_redirs rs : length (redirs rs) = (2 * length rs)%nat.
Proof. 
  induction rs as [|[[f m] d] rs IH]; [done|].
  change (redirs ((f, m, d) :: rs)) with (redir_toks (f, m, d) ++ redirs rs). rewrite length_app, IH. cbn. lia.
Qed.

Lemma parseredirs_here s c c0 rs rest :
  cmd_map (text l) c = c0 → Forall redir_ok rs → at_toks s (redirs rs ++ rest) → starts [60; 62] rest = false →
  parses (parseredirs l c) s (wrap c0 rs) rest.
Proof.
  intros. apply parseredirs_at; try done. pose proof (at_len s _ H1) as Hl.
  rewrite length_app, length_redirs in Hl. lia.
Qed.

Definition cmd_end : list Z := [124; 41; 38; 59].
Lemma args_stop n argc ret s rest :
  at_toks s rest → stops cmd_end rest → args_loop l (S n) argc ret s = Ok ret s.
Proof.
  intros Ha Hst. cbn [args_loop]. rewrite (bind_ok _ _ _ _ _ (peek_at _ _ _ _ Ha)). destruct Hst as [->|Hst].
  - cbn [starts]. destruct (gettoken_end l s Ha) as [a E]. by rewrite (bind_ok _ _ _ _ _ E).
  - unfold cmd_end in Hst. by rewrite Hst.
Qed.

Lemma starts_word F w ts : 0 ∉ F → (∀ c, c ∈ F → c ∈ symbols) → good_word w → starts F (TWord w :: ts) = false.
Proof.
  intros HF Hs Hw. apply not_true_iff_false. cbn [starts]. rewrite among_spec by done. intros Hin%Hs.
  by apply (first_ok (TWord w) Hw) in Hin.
Qed.
Lemma no_redir rest : stops cmd_end rest → starts [60; 62] rest = false.
Proof. intros H. eapply stops_not; [| |done|]; [no0|no0|disj]. Qed.

Lemma args_at ws n s argv dn rs rest :
  ws ≠ [] → at_toks s ((TWord <$> ws) ++ redirs rs ++ rest) → stops cmd_end rest → Forall redir_ok rs →
  text l <$> argv = dn → (length argv + length ws < MAXARGS)%nat → (length ws < n)%nat →
  parses (args_loop l n (length argv) (EXEC argv)) s (wrap (EXEC (dn ++ ws)) rs) rest.
Proof.
  revert n s argv dn. induction ws as [|w ws IH]; intros n s argv dn Hne Ha Hst Hrs Hd Hm Hn; [done|].
  destruct n as [|n]; [lia|]. unfold parses. cbn [args_loop fmap list_fmap app] in *.
  assert (good_word w) as Hw by (destruct Ha as (_ & _ & H); by apply Forall_cons in H as [? _]).
  rewrite (bind_ok _ _ _ _ _ (peek_at _ _ _ _ Ha)). rewrite starts_word by (done || no0 || (intros c Hc; unfold symbols; set_solver)).
  destruct (gettoken_at l s _ _ Ha) as (a & s1 & E1 & A1 & L1 & X1). rewrite (bind_ok _ _ _ _ _ E1). cbn [fst snd tok_code].
  change (97 =? 0) with false. change (97 =? 97) with true. cbn [negb length] in *.
  rewrite (proj2 (Nat.leb_gt MAXARGS _)) by lia. cbn [add_arg tok_text] in *.
  assert (text l <$> (argv ++ [a]) = dn ++ [w]) as Hd' by (rewrite fmap_app, Hd; cbn; by rewrite X1).
  destruct ws as [|w' ws].
  - destruct (parseredirs_here s1 (EXEC (argv ++ [a])) (EXEC (dn ++ [w])) rs rest) as (t & s2 & E2 & X2 & A2 & L2);
      [cbn; by rewrite Hd'|done|exact A1|by apply no_redir|].
    rewrite (bind_ok _ _ _ _ _ E2). destruct n as [|n]; [cbn in Hn; lia|].
    exists t, s2. split_and!; [by apply (args_stop n _ t s2 rest)|done|done|lia].
  - assert (starts [60; 62] ((TWord <$> w' :: ws) ++ redirs rs ++ rest) = false) as Hno.
    { apply (starts_word _ w'); [no0|intros c Hc; unfold symbols; set_solver|].
      destruct A1 as (_ & _ & H). by apply Forall_cons in H as [? _]. }
    destruct (parseredirs_here s1 (EXEC (argv ++ [a])) (EXEC (dn ++ [w])) [] ((TWord <$> w' :: ws) ++ redirs rs ++ rest))
      as (t & s2 & E2 & X2 & A2 & L2); [cbn; by rewrite Hd'|done|exact A1|done|].
    rewrite (bind_ok _ _ _ _ _ E2). cbn [wrap foldl] in X2.
    destruct t as [argv'| | | |]; try done. cbn in X2. injection X2 as X2.
    assert (length argv' = S (length argv)) as Hla.
    { pose proof (f_equal length (eq_trans X2 (eq_sym Hd'))) as Hl. rewrite !length_fmap, length_app in Hl. cbn in Hl. lia. }
    rewrite <- Hla. destruct (IH n s2 argv' (dn ++ [w])) as (t & s3 & E3 & X3 & A3 & L3); try done.
    { cbn in *. lia. }
    { cbn in *. lia. }
    exists t, s3. rewrite <- app_assoc in X3. split_and!; [done|done|done|lia].
Qed.

Lemma back_at k n s t c rest :
  cmd_map (text l) t = c → at_toks s (replicate k (TSym 38) ++ rest) → stops [41; 59] rest → (k < n)%nat →
  parses (back_loop l n t) s (Nat.iter k BACK c) rest.
Proof.
  revert n s t c. induction k as [|k IH]; intros n s t c Ht Ha Hst Hn; (destruct n as [|n]; [lia|]);
    unfold parses; cbn [back_loop]; rewrite (bind_ok _ _ _ _ _ (peek_at _ _ _ _ Ha)); cbn [replicate app] in *.
  - rewrite (stops_not [41; 59] [38] rest) by (done || no0 || disj). exists t, s. by split_and!.
  - cbn [starts]. change (among [38] (first (TSym 38))) with true. cbn [negb].
    destruct (gettoken_at l s _ _ Ha) as (a & s1 & E1 & A1 & L1 & _). rewrite (bind_ok _ _ _ _ _ E1).
    destruct (IH n s1 (BACK t) (BACK c)) as (t' & s' & E2 & X2 & A2 & L2); [cbn; by rewrite Ht|done|done|lia|].
    exists t', s'. split_and!; [done| |done|lia]. rewrite X2, Nat.iter_succ_r. done.
Qed.

Definition reads_exec (c : cmd (list Z)) : Prop := ∀ rs s n rest,
  Forall redir_ok rs → at_toks s (toks 3 c ++ redirs rs ++ rest) → stops cmd_end rest →
  (4 * (length l - s) + 2 ≤ n)%nat → parses (parseexec l n) s (wrap c rs) rest.
Definition reads_pipe (c : cmd (list Z)) : Prop := ∀ s n rest,
  at_toks s (toks 2 c ++ rest) → stops [41; 38; 59] rest →
  (4 * (length l - s) + 3 ≤ n)%nat → parses (parsepipe l n) s c rest.
Definition reads_back (c : cmd (list Z)) : Prop := ∀ k s n rest,
  at_toks s (toks 1 c ++ replicate k (TSym 38) ++ rest) → stops [41; 59] rest →
  (4 * (length l - s) + 3 ≤ n)%nat →
  parses (t ← parsepipe l n; back_loop l (S (length l)) t) s (Nat.iter k BACK c) rest.
Definition reads_line (c : cmd (list Z)) : Prop := ∀ s n rest,
  at_toks s (toks 0 c ++ rest) → stops [41] rest →
  (4 * (length l - s) + 4 ≤ n)%nat → parses (parseline l n) s c rest.

Lemma stops_in F G ts : 0 ∉ F → 0 ∉ G → stops F ts → (∀ c, c ∈ F → c ∈ G) → stops G ts.
Proof. intros HF HG [?|H] Hs; [by left|right]. by apply (starts_sub F). Qed.
Lemma stops_sym F c ts : 0 ∉ F → c ∈ F → stops F (TSym c :: ts).
Proof. intros HF Hc. right. cbn. by apply among_spec. Qed.

(** A command that needs no parentheses at the next level. *)
Lemma pipe_of_exec c : toks 2 c = toks 3 c → reads_exec c → reads_pipe c.
Proof.
  intros Et Hx s n rest Ha Hst Hn. destruct n as [|n]; [lia|]. unfold parses. cbn [parsepipe].
  rewrite Et in Ha. destruct (Hx [] s n rest) as (t & s1 & E & X & A & L);
    [done|done|apply (stops_in [41; 38; 59]); [no0|no0|done|unfold cmd_end; disj]|lia|].
  rewrite (bind_ok _ _ _ _ _ E), (bind_ok _ _ _ _ _ (peek_at _ _ _ _ A)).
  rewrite (stops_not [41; 38; 59] [124] rest) by (done || no0 || disj). exists t, s1. by split_and!.
Qed.
Lemma back_of_pipe c : toks 1 c = toks 2 c → reads_pipe c → reads_back c.
Proof.
  intros Et Hp k s n rest Ha Hst Hn. unfold parses. rewrite Et in Ha.
  destruct (Hp s n (replicate k (TSym 38) ++ rest)) as (t & s1 & E & X & A & L); [done| |done|].
  { destruct k; cbn; [apply (stops_in [41; 59]); [no0|no0|done|disj]|]. apply stops_sym; [no0|set_solver]. }
  rewrite (bind_ok _ _ _ _ _ E). pose proof (at_len _ _ A) as Hl. rewrite length_app, length_replicate in Hl.
  destruct (back_at k (S (length l)) s1 t c rest) as (t' & s' & E' & X' & A' & L'); try done; [lia|].
  exists t', s'. split_and!; try done. lia.
Qed.
Lemma line_of_back c : toks 0 c = toks 1 c → reads_back c → reads_line c.
Proof.
  intros Et Hb s n rest Ha Hst Hn. destruct n as [|n]; [lia|]. unfold parses. cbn [parseline]. rewrite Et in Ha.
  destruct (Hb 0%nat s n rest) as (t & s1 & E & X & A & L);
    [done|apply (stops_in [41]); [no0|no0|done|disj]|lia|].
  apply bind_Ok_inv in E as (t0 & s0 & E1 & E2). rewrite (bind_ok _ _ _ _ _ E1), (bind_ok _ _ _ _ _ E2).
  rewrite (bind_ok _ _ _ _ _ (peek_at _ _ _ _ A)).
  rewrite (stops_not [41] [59] rest) by (done || no0 || disj). exists t, s1. by split_and!.
Qed.
(** A command in parentheses. *)
Lemma exec_of_line c : toks 3 c = TSym 40 :: toks 0 c ++ [TSym 41] → reads_line c → reads_exec c.
Proof.
  intros Et Hl rs s n rest Hrs Ha Hst Hn. destruct n as [|n]; [lia|]. unfold parses. cbn [parseexec].
  rewrite Et in Ha. rewrite <- app_comm_cons, <- app_assoc in Ha. cbn [app] in Ha.
  rewrite (bind_ok _ _ _ _ _ (peek_at _ _ _ _ Ha)). cbn [starts].
  change (among [40] (first (TSym 40))) with true. cbn iota. destruct n as [|n]; [lia|]. cbn [parseblock].
  rewrite (bind_ok _ _ _ _ _ (peek_at _ _ _ _ Ha)). cbn [starts].
  change (among [40] (first (TSym 40))) with true. cbn [negb].
  destruct (gettoken_at l s _ _ Ha) as (a & s1 & E1 & A1 & L1 & _). rewrite (bind_ok _ _ _ _ _ E1).
  destruct (Hl s1 n (TSym 41 :: redirs rs ++ rest)) as (t & s2 & E2 & X2 & A2 & L2);
    [done|apply stops_sym; [no0|set_solver]|destruct A1; lia|].
  rewrite (bind_ok _ _ _ _ _ E2), (bind_ok _ _ _ _ _ (peek_at _ _ _ _ A2)). cbn [starts].
  change (among [41] (first (TSym 41))) with true. cbn [negb].
  destruct (gettoken_at l s2 _ _ A2) as (a3 & s3 & E3 & A3 & L3 & _). rewrite (bind_ok _ _ _ _ _ E3).
  destruct (parseredirs_here s3 t c rs rest) as (t4 & s4 & E4 & X4 & A4 & L4); [done|done|done|by apply no_redir|].
  exists t4, s4. split_and!; try done. lia.
Qed.

Lemma exec_words argv : Forall good_word argv → (length argv < MAXARGS)%nat → reads_exec (EXEC argv).
Proof.
  intros Hw Hm rs s n rest Hrs Ha Hst Hn. destruct n as [|n]; [lia|]. unfold parses. cbn [parseexec toks] in *.
  assert (starts [40] ((TWord <$> argv) ++ redirs rs ++ rest) = false) as H40.
  { destruct Hw as [|w argv Hw _]; [|apply starts_word; [no0|intros c Hc; unfold symbols; set_solver|done]].
    destruct Hrs as [|r rs Hr _]; cbn [fmap list_fmap app redirs concat].
    - eapply (stops_not cmd_end); [no0|no0|done|unfold cmd_end; disj].
    - pose proof (redirs_start r rs Hr) as Hs. destruct r as [[f m] d]. cbn [redir_toks app starts] in Hs |- *.
      change (redirs ((f, m, d) :: rs)) with (redir_toks (f, m, d) ++ redirs rs) in Hs. cbn [redir_toks app starts] in Hs.
      revert Hs. generalize (first (default TApp (redir_op m d))). intros z Hz.
      apply not_true_iff_false. rewrite among_spec in Hz |- * by no0. set_solver. }
  rewrite (bind_ok _ _ _ _ _ (peek_at _ _ _ _ Ha)), H40. destruct argv as [|w argv].
  - destruct (parseredirs_here s (EXEC []) (EXEC []) rs rest) as (t & s1 & E & X & A & L); [done|done|done|by apply no_redir|].
    rewrite (bind_ok _ _ _ _ _ E). exists t, s1. split_and!; [by eapply args_stop|done..].
  - destruct (parseredirs_here s (EXEC []) (EXEC []) [] ((TWord <$> w :: argv) ++ redirs rs ++ rest))
      as (t & s1 & E & X & A & L); [done|done|done| |].
    { apply Forall_cons in Hw as [Hw _]. apply (starts_word _ w); [no0|intros c Hc; unfold symbols; set_solver|done]. }
    rewrite (bind_ok _ _ _ _ _ E). destruct t as [argv'| | | |]; try done. cbn in X.
    assert (argv' = []) as -> by (by destruct argv').
    pose proof (at_len _ _ A) as Hl. rewrite length_app, length_fmap in Hl.
    destruct (args_at (w :: argv) (S (length l)) s1 [] [] rs rest) as (t & s2 & E2 & X2 & A2 & L2); try done; [cbn in *; lia|].
    exists t, s2. split_and!; try done. lia.
Qed.

Lemma parse_toks c :
  cmd_ok c → reads_exec c ∧ reads_pipe c ∧ reads_back c ∧ reads_line c.
Proof.
  induction c as [argv|c IH file m d|c1 IH1 c2 IH2|c1 IH1 c2 IH2|c IH]; cbn [cmd_ok]; intros Hok.
  - assert (reads_exec (EXEC argv)) as H1 by (by destruct Hok; apply exec_words).
    assert (reads_pipe (EXEC argv)) as H2 by (by apply pipe_of_exec).
    assert (reads_back (EXEC argv)) as H3 by (by apply back_of_pipe).
    split_and!; [done..|]. by apply line_of_back.
  - destruct Hok as [Hc Hr]. destruct (IH Hc) as (Hx & _).
    assert (reads_exec (REDIR c file m d)) as H1.
    { intros rs s n rest Hrs Ha Hst Hn. cbn [toks] in Ha. rewrite <- app_assoc in Ha.
      apply (Hx ((file, m, d) :: rs) s n rest); [by apply Forall_cons|done|done|done]. }
    assert (reads_pipe (REDIR c file m d)) as H2 by (by apply pipe_of_exec).
    assert (reads_back (REDIR c file m d)) as H3 by (by apply back_of_pipe).
    split_and!; [done..|]. by apply line_of_back.
  - destruct Hok as [Hc1 Hc2]. destruct (IH1 Hc1) as (Hx & _). destruct (IH2 Hc2) as (_ & Hp & _).
    assert (reads_pipe (PIPE c1 c2)) as H2.
    { intros s n rest Ha Hst Hn. destruct n as [|n]; [lia|]. unfold parses. cbn [parsepipe toks paren Nat.leb] in *.
      rewrite <- app_assoc in Ha. cbn [app] in Ha.
      destruct (Hx [] s n (TSym 124 :: toks 2 c2 ++ rest)) as (t & s1 & E1 & X1 & A1 & L1);
        [done|done|apply stops_sym; [no0|unfold cmd_end; set_solver]|lia|].
      rewrite (bind_ok _ _ _ _ _ E1), (bind_ok _ _ _ _ _ (peek_at _ _ _ _ A1)). cbn [starts].
      change (among [124] (first (TSym 124))) with true. cbn iota.
      destruct (gettoken_at l s1 _ _ A1) as (a & s2 & E2 & A2 & L2 & _). rewrite (bind_ok _ _ _ _ _ E2).
      destruct (Hp s2 n rest) as (t3 & s3 & E3 & X3 & A3 & L3); [done|done|destruct A2; lia|].
      rewrite (bind_ok _ _ _ _ _ E3). exists (PIPE t t3), s3. cbn. split_and!; [done|by rewrite X1, X3|done|lia]. }
    assert (reads_back (PIPE c1 c2)) as H3 by (by apply back_of_pipe).
    assert (reads_line (PIPE c1 c2)) as H4 by (by apply line_of_back).
    split_and!; [|done..]. by apply exec_of_line.
  - destruct Hok as [Hc1 Hc2]. destruct (IH1 Hc1) as (_ & _ & Hb & _). destruct (IH2 Hc2) as (_ & _ & _ & Hl).
    assert (reads_line (LIST c1 c2)) as H4.
    { intros s n rest Ha Hst Hn. destruct n as [|n]; [lia|]. unfold parses. cbn [parseline toks paren Nat.leb] in *.
      rewrite <- app_assoc in Ha. cbn [app] in Ha.
      destruct (Hb 0%nat s n (TSym 59 :: toks 0 c2 ++ rest)) as (t & s1 & E1 & X1 & A1 & L1);
        [done|apply stops_sym; [no0|set_solver]|lia|].
      apply bind_Ok_inv in E1 as (t0 & s0 & E0 & E1). rewrite (bind_ok _ _ _ _ _ E0), (bind_ok _ _ _ _ _ E1).
      rewrite (bind_ok _ _ _ _ _ (peek_at _ _ _ _ A1)). cbn [starts].
      change (among [59] (first (TSym 59))) with true. cbn iota.
      destruct (gettoken_at l s1 _ _ A1) as (a & s2 & E2 & A2 & L2 & _). rewrite (bind_ok _ _ _ _ _ E2).
      destruct (Hl s2 n rest) as (t3 & s3 & E3 & X3 & A3 & L3); [done|done|destruct A2; lia|].
      rewrite (bind_ok _ _ _ _ _ E3). exists (LIST t t3), s3. cbn. split_and!; [done|by rewrite X1, X3|done|lia]. }
    assert (reads_exec (LIST c1 c2)) as H1 by (by apply exec_of_line).
    assert (reads_pipe (LIST c1 c2)) as H2 by (by apply pipe_of_exec).
    split_and!; [done|done|by apply back_of_pipe|done].
  - destruct (IH Hok) as (_ & _ & Hb & _).
    assert (reads_back (BACK c)) as H3.
    { intros k s n rest Ha Hst Hn. cbn [toks paren Nat.leb] in Ha. rewrite <- app_assoc in Ha. cbn [app] in Ha.
      destruct (Hb (S k) s n rest) as (t & s1 & E & X & A & L); [done|done|done|].
      exists t, s1. rewrite Nat.iter_succ_r in X. done. }
    assert (reads_line (BACK c)) as H4 by (by apply line_of_back).
    assert (reads_exec (BACK c)) as H1 by (by apply exec_of_line).
    split_and!; [done|by apply pipe_of_exec|done|done].
Qed.
End parse.

Lemma toks_ok lvl c : cmd_ok c → Forall tok_ok (toks lvl c).
Proof.
  assert (∀ x, x ∈ [40; 41; 124; 38; 59] → tok_ok (TSym x)) as Hs by (intros x Hx; cbn; unfold symbols; set_solver).
  assert (∀ b ts, Forall tok_ok ts → Forall tok_ok (paren b ts)) as Hp.
  { intros [] ts Ht; [|done]. cbn. apply Forall_cons. split; [apply Hs; set_solver|]. apply Forall_app. split; [done|].
    apply Forall_singleton, Hs. set_solver. }
  revert lvl. induction c as [argv|c IH file m d|c1 IH1 c2 IH2|c1 IH1 c2 IH2|c IH]; intros lvl; cbn [cmd_ok toks].
  - intros [Hw _]. by apply Forall_fmap.
  - intros [Hc [Hf [o Ho]]]. apply Forall_app. split; [by apply IH|]. cbn. rewrite Ho. cbn. repeat constructor; try apply Hf.
    unfold redir_op in Ho. repeat (case_match; [injection Ho as <-; cbn; by apply (bool_decide_unpack _)|]). done.
  - intros [? ?]. apply Hp, Forall_app. split; [by apply IH1|]. apply Forall_cons. split; [apply Hs; set_solver|by apply IH2].
  - intros [? ?]. apply Hp, Forall_app. split; [by apply IH1|]. apply Forall_cons. split; [apply Hs; set_solver|by apply IH2].
  - intros ?. apply Hp, Forall_app. split; [by apply IH|]. apply Forall_singleton, Hs. set_solver.
Qed.

Lemma render_no0 ts : Forall tok_ok ts → Forall (λ x, x ≠ 0) (render ts).
Proof.
  induction 1 as [|t ts Ht _ IH]; [done|]. rewrite render_cons. apply Forall_app. split.
  - destruct t as [w|c|]; cbn in *; [|apply Forall_singleton; intros ->; by apply symbols_no0|by repeat constructor].
    destruct Ht as [_ Hw]. eapply Forall_impl; [done|]. by intros c [_ ?].
  - apply Forall_cons. by split.
Qed.

Lemma cmd_map_spans {B} (f g : span → B) t : (∀ a, a ∈ spans t → f a = g a) → cmd_map f t = cmd_map g t.
Proof.
  induction t as [argv|t IH file m d|t1 IH1 t2 IH2|t1 IH1 t2 IH2|t IH]; cbn [spans cmd_map]; intros H.
  - f_equal. apply list_fmap_ext. intros i a Ha. apply H. by eapply list_elem_of_lookup_2.
  - rewrite IH, (H file); [done|set_solver|]. intros a Ha. apply H. set_solver.
  - rewrite IH1, IH2; [done|..]; intros a Ha; apply H; set_solver.
  - rewrite IH1, IH2; [done|..]; intros a Ha; apply H; set_solver.
  - by rewrite IH.
Qed.

(** C25: A printed command is parsed back: for every command the shell can
    express (words without blanks and symbols, fewer than MAXARGS arguments,
    the three kinds of redirection, nested in any way) [parsecmd] of its text
    returns the command, its strings in place in the buffer. *)
Theorem parsecmd_print c :
  cmd_ok c → ∃ t buf s, parsecmd (print c) = Ok (t, buf) s ∧ cmd_map (string_at buf) t = c.
Proof.
  intros Hok. set (l := print c). destruct (parse_toks l c Hok) as (_ & _ & _ & Hl).
  assert (at_toks l 0 (toks 0 c ++ [])) as Ha.
  { rewrite app_nil_r. split_and!; [lia|by rewrite drop_0|by apply toks_ok]. }
  destruct (Hl 0%nat (parse_fuel l) [] Ha) as (t & s & E & X & A & _); [by left|unfold parse_fuel; lia|].
  destruct (chr_end l s A) as [_ ->].
  assert (words l t) as Hw.
  { destruct (parse_fine l (parse_fuel l)) as (Hp & _). specialize (Hp 0%nat ltac:(lia) ltac:(unfold parse_fuel; lia)).
    rewrite E in Hp. apply Hp. }
  exists t, (nulterminate t (l ++ [0])), (length l). split.
  - unfold parsecmd. rewrite (bind_ok _ _ _ _ _ E), (bind_ok _ _ _ _ _ (peek_at _ _ _ [] A)).
    unfold parse_end. by rewrite Nat.eqb_refl.
  - rewrite <- X. apply cmd_map_spans. intros a Hin. apply string_at_text; [|done|done].
    by apply render_no0, toks_ok.
Qed.

(** (ls | wc > out) & ; echo a < in *)
Definition demo_cmd : cmd (list Z) :=
  LIST (BACK (PIPE (EXEC [codes "ls"]) (REDIR (EXEC [codes "wc"]) (codes "out") 1537 1)))
       (REDIR (EXEC [codes "echo"; codes "a"]) (codes "in") 0 0).
Lemma parsecmd_print_witness :
  ∃ t buf s, parsecmd (codes "ls | wc > out & ; echo a < in ") = Ok (t, buf) s ∧ cmd_map (string_at buf) t = demo_cmd.
Proof.
  apply (parsecmd_print demo_cmd). vm_compute. repeat split; try discriminate; try lia; repeat constructor; try discriminate; eauto.
Defined.
