(* ===== verification/ShRun.v ===== *)
(** * user/sh.c: the processes a command starts

    [execs p T pi ch] are the programs that the processes of [p] execute, each
    with its descriptor table, when the kernel does what a system call asks:
    a descriptor is the lowest free one, [fork] copies the table, [wait]
    returns one of the [ch] children not yet waited for, or fails.  [denote]
    says what a command means: its programs with standard input and output
    redirected or connected by pipes.  [runcmd] does just that, and leaves no
    other descriptor open. *)

From S2P Require Import CString ULib Prelude Riscv Printf Console Fs Sh.

(** A pipe is named by the point of the execution that made it. *)
Inductive ofile := Named (path : list Z) (mode : Z) | PipeR (id : list bool) | PipeW (id : list bool) | Given (n : nat).
Abbreviation fds := (list (option ofile)).

Fixpoint lowest (T : fds) : option nat :=
  match T with [] => None | None :: _ => Some 0%nat | Some _ :: T => S <$> lowest T end.
Definition fd_close (T : fds) (fd : Z) : fds := <[Z.to_nat fd := None]> T.

Fixpoint execs (p : prog) (T : fds) (pi : list bool) (ch : nat) : list (list (list Z) * fds) :=
  match p with
  | Exit _ | Fault | OutOfFuel => []
  | Exec _ argv _ => [(argv, T)]
  | Close fd k => execs (k 0) (fd_close T fd) pi ch
  | Open path mode k =>
      match lowest T with
      | Some i => execs (k (Z.of_nat i)) (<[i := Some (Named path mode)]> T) pi ch
      | None => execs (k (-1)) T pi ch
      end
  | Dup fd k =>
      match T !! Z.to_nat fd, lowest T with
      | Some (Some f), Some i => execs (k (Z.of_nat i)) (<[i := Some f]> T) pi ch
      | _, _ => execs (k (-1)) T pi ch
      end
  | Pipe k =>
      match lowest T with
      | Some i =>
          let T1 := <[i := Some (PipeR pi)]> T in
          match lowest T1 with
          | Some j => execs (k (Some (Z.of_nat i, Z.of_nat j))) (<[j := Some (PipeW pi)]> T1) (true :: pi) ch
          | None => execs (k None) T pi ch
          end
      | None => execs (k None) T pi ch
      end
  | Fork k => execs (k 0) T (false :: pi) 0 ++ execs (k 1) T (true :: pi) (S ch)
  | Wait k => match ch with O => execs (k (-1)) T pi O | S ch => execs (k 1) T pi ch end
  | Chdir _ k => execs (k 0) T pi ch
  | Write _ _ k => execs k T pi ch
  | Read k => execs (k None) T pi ch
  | Getcwd k => execs (k [47]) T pi ch
  | Uptime k => execs (k 0) T pi ch
  | Sys _ _ _ k => execs (k 0) T pi ch
  end.

Fixpoint denote (c : cmd (list Z)) (T : fds) (pi : list bool) : list (list (list Z) * fds) :=
  match c with
  | EXEC [] => []
  | EXEC argv => [(argv, T)]
  | REDIR c file mode fd => denote c (<[Z.to_nat fd := Some (Named file mode)]> T) pi
  | LIST c1 c2 => denote c1 T (false :: pi) ++ denote c2 T (true :: pi)
  | BACK c => denote c T (false :: pi)
  | PIPE c1 c2 =>
      denote c1 (<[1%nat := Some (PipeW pi)]> T) (false :: true :: pi) ++
      denote c2 (<[0%nat := Some (PipeR pi)]> T) (false :: true :: true :: pi)
  end.

(** Redirections are of standard input and output. *)
Fixpoint std_fds (c : cmd (list Z)) : Prop :=
  match c with
  | EXEC _ => True
  | REDIR c _ _ fd => (fd = 0 ∨ fd = 1) ∧ std_fds c
  | PIPE c1 c2 | LIST c1 c2 => std_fds c1 ∧ std_fds c2
  | BACK c => std_fds c
  end.

(** A table with the standard descriptors open and room for a pipe. *)
Record table_ok (T : fds) : Prop := {
  to_std i : (i < 3)%nat → ∃ f, T !! i = Some (Some f);
  to_room : ∃ i j, (i < j)%nat ∧ T !! i = Some None ∧ T !! j = Some None;
}.

Lemma lowest_spec T :
  match lowest T with
  | Some i => T !! i = Some None ∧ ∀ k, (k < i)%nat → ∃ f, T !! k = Some (Some f)
  | None => ∀ k, T !! k ≠ Some None
  end.
Proof.
  induction T as [|[f|] T IH]; cbn [lowest]; [by intros k| |split; [done|intros; lia]].
  destruct (lowest T) as [i|]; cbn.
  - destruct IH as [H1 H2]. split; [done|]. intros [|k] Hk; [by eexists|]. apply H2. lia.
  - intros [|k]; [done|apply IH].
Qed.
(** The lowest free descriptor is determined by what is free. *)
Lemma lowest_is T i :
  T !! i = Some None → (∀ k, (k < i)%nat → ∃ f, T !! k = Some (Some f)) → lowest T = Some i.
Proof.
  intros H1 H2. pose proof (lowest_spec T) as H. destruct (lowest T) as [j|]; [|by destruct (H i)].
  destruct H as [H3 H4]. f_equal. destruct (Nat.lt_trichotomy i j) as [Hlt|[->|Hlt]]; [|done|].
  - destruct (H4 i Hlt) as [f E]. congruence.
  - destruct (H2 j Hlt) as [f E]. congruence.
Qed.

Lemma table_insert T i f : table_ok T → (i < 3)%nat → table_ok (<[i := Some f]> T).
Proof.
  intros [H1 (a & b & Hab & Ha & Hb)] Hi. split.
  - intros k Hk. destruct (decide (k = i)) as [->|Hne].
    + exists f. apply list_lookup_insert_eq. destruct (H1 i Hi) as [g E]. by eapply lookup_lt_Some.
    + rewrite list_lookup_insert_ne by done. by apply H1.
  - exists a, b. assert (a ≠ i ∧ b ≠ i) as [? ?].
    { split; intros ->; destruct (H1 i Hi) as [g E]; congruence. }
    by rewrite !list_lookup_insert_ne by done.
Qed.

(** Close a standard descriptor and take it again. *)
Lemma lowest_std T i : table_ok T → (i < 3)%nat → lowest (<[i := None]> T) = Some i.
Proof.
  intros Ht Hi. assert (i < length T)%nat by (destruct (to_std _ Ht i Hi) as [f E]; by eapply lookup_lt_Some).
  apply lowest_is; [by apply list_lookup_insert_eq|]. intros k Hk. rewrite list_lookup_insert_ne by lia.
  apply (to_std _ Ht). lia.
Qed.

(** The two ends of a new pipe. *)
Lemma pipe_slots T pi : table_ok T →
  ∃ i j, lowest T = Some i ∧ lowest (<[i := Some (PipeR pi)]> T) = Some j ∧
    T !! i = Some None ∧ T !! j = Some None ∧ i ≠ j ∧ (3 ≤ i)%nat ∧ (3 ≤ j)%nat.
Proof.
  intros Ht. destruct (to_room _ Ht) as (a & b & Hab & Ha & Hb).
  assert (∀ k, T !! k = Some None → (3 ≤ k)%nat) as H3.
  { intros k Hk. destruct (decide (k < 3)%nat) as [Hlt|]; [|lia]. destruct (to_std _ Ht k Hlt) as [f E]. congruence. }
  pose proof (lowest_spec T) as Hl. destruct (lowest T) as [i|]; [|by destruct (Hl a)]. destruct Hl as [Hi _].
  pose proof (lowest_spec (<[i := Some (PipeR pi)]> T)) as Hl.
  destruct (lowest (<[i := Some (PipeR pi)]> T)) as [j|] eqn:El.
  - destruct Hl as [Hj _]. apply list_lookup_insert_Some in Hj as [(_ & ? & _)|[Hne Hj]]; [done|].
    exists i, j. rewrite El. split_and!; auto.
  - exfalso. destruct (decide (a = i)) as [->|Hne].
    + apply (Hl b). by rewrite list_lookup_insert_ne by lia.
    + apply (Hl a). by rewrite list_lookup_insert_ne by done.
Qed.

(** A child of a pipeline: descriptor [d] becomes the pipe's end [f], the
    pipe's descriptors are closed. *)
Lemma child_table T i j d f (R W : ofile) :
  table_ok T → (d < 3)%nat → T !! i = Some None → T !! j = Some None → i ≠ j → (3 ≤ i)%nat → (3 ≤ j)%nat →
  <[j := None]> (<[i := None]> (<[d := Some f]> (<[d := None]> (<[j := Some W]> (<[i := Some R]> T))))) =
  <[d := Some f]> T.
Proof.
  intros Ht Hd Hi Hj Hne H3 H4. apply list_eq. intros k.
  assert (d < length T ∧ i < length T ∧ j < length T)%nat as (Ld & Li & Lj).
  { destruct (to_std _ Ht d Hd) as [g E]. split_and!; by eapply lookup_lt_Some. }
  destruct (decide (k = j)) as [->|Nj].
  { rewrite list_lookup_insert_eq by (rewrite !length_insert; lia). by rewrite list_lookup_insert_ne by lia. }
  rewrite list_lookup_insert_ne by done. destruct (decide (k = i)) as [->|Ni].
  { rewrite list_lookup_insert_eq by (rewrite !length_insert; lia). by rewrite list_lookup_insert_ne by lia. }
  rewrite list_lookup_insert_ne by done. destruct (decide (k = d)) as [->|Nd].
  { rewrite !list_lookup_insert_eq by (rewrite ?length_insert; lia). done. }
  by rewrite !list_lookup_insert_ne by done.
Qed.

Lemma fd_close_std T i : fd_close T (Z.of_nat i) = <[i := None]> T.
Proof. unfold fd_close. by rewrite Nat2Z.id. Qed.

Lemma lookup_pipe (T : fds) i j R W :
  T !! i = Some None → T !! j = Some None → i ≠ j →
  <[j := Some W]> (<[i := Some R]> T) !! i = Some (Some R) ∧
  <[j := Some W]> (<[i := Some R]> T) !! j = Some (Some W).
Proof.
  intros Hi Hj Hne. split.
  - rewrite list_lookup_insert_ne by done. apply list_lookup_insert_eq. by eapply lookup_lt_Some.
  - apply list_lookup_insert_eq. rewrite length_insert. by eapply lookup_lt_Some.
Qed.

(** [close(d); dup(e); close(p[0]); close(p[1]);] of a child, [e] the pipe's
    end [f]. *)
Lemma child_execs T i j d e f R W pi ch k :
  table_ok T → (d < 3)%nat → T !! i = Some None → T !! j = Some None → i ≠ j → (3 ≤ i)%nat → (3 ≤ j)%nat →
  (3 ≤ e)%nat → <[j := Some W]> (<[i := Some R]> T) !! e = Some (Some f) →
  execs (Close (Z.of_nat d) (λ _, Dup (Z.of_nat e) (λ _, Close (Z.of_nat i) (λ _, Close (Z.of_nat j) (λ _, k)))))
    (<[j := Some W]> (<[i := Some R]> T)) pi ch = execs k (<[d := Some f]> T) pi ch.
Proof.
  intros Ht Hd Hi Hj Hne H3 H4 H5 He. set (T' := <[j := Some W]> (<[i := Some R]> T)) in *. cbn [execs].
  rewrite !fd_close_std, Nat2Z.id, list_lookup_insert_ne by lia. rewrite He.
  assert (lowest (<[d := None]> T') = Some d) as ->.
  { pose proof (to_std _ Ht) as Hs. assert (d < length T)%nat by (destruct (Hs d Hd) as [g E]; by eapply lookup_lt_Some).
    apply lowest_is; [apply list_lookup_insert_eq; unfold T'; by rewrite !length_insert|].
    intros k' Hk. unfold T'. rewrite !list_lookup_insert_ne by lia. apply Hs. lia. }
  rewrite !fd_close_std. unfold T'. by rewrite (child_table T i j d f R W).
Qed.

Lemma execs_fork1 k T pi ch :
  execs (fork1 k) T pi ch = execs (k 0) T (false :: pi) 0 ++ execs (k 1) T (true :: pi) (S ch).
Proof. done. Qed.


(** [a < in | b > out &] with three descriptors given and two free. *)
Definition demo_table : fds := [Some (Given 0); Some (Given 1); Some (Given 2); None; None].
Definition demo_cmd : cmd (list Z) :=
  BACK (PIPE (REDIR (EXEC [codes "a"]) (codes "in") O_RDONLY 0)
             (REDIR (EXEC [codes "b"]) (codes "out") (Z.lor (Z.lor O_WRONLY O_CREATE) O_TRUNC) 1)).
