(* ===== verification/Smash.v ===== *)
(** * user/smash.c: the shell smash (definitions)

    A string of the program is the characters before its NUL.  The array
    [args] is a list of slots: a string, NULL, or what an uninitialised slot
    holds; the buffer of an alias expansion keeps its contents after its
    block.  To use a slot that is not a string, or to store past the end of an
    array, is [Fault].  The shell's system calls are those of [prog].

    [aliases] is the part of the array in use; the ring [history] is the whole
    array, [history_count] the number of commands ever added. *)

From S2P Require Import CString ULib Prelude Riscv Printf Console Fs UPrintf Sh.

Definition MAX_ALIASES : nat := 32.
Definition MAX_HISTORY : Z := 100.
Definition MAX_ARGS : nat := 32.
Definition BUF_SIZE : nat := 256.

Record smash := mk_smash {
  aliases : list (list Z * list Z); history : list (list Z * Z); history_count : Z; cmd_num : Z;
}.
Definition smash0 : smash := mk_smash [] (replicate (Z.to_nat MAX_HISTORY) ([], 0)) 0 1.

(** The copy of [t] in a buffer of [n] bytes. *)
Definition ssafestrcpy (t : list Z) (n : nat) : list Z := take (n - 1) t.

(** ** History *)

Definition add_history (cmd : list Z) (duration_ms : Z) (s : smash) : smash :=
  if strlen cmd =? 0 then s else
  let idx := Z.to_nat (history_count s mod MAX_HISTORY) in
  mk_smash (aliases s) (<[idx := (ssafestrcpy cmd BUF_SIZE, duration_ms)]> (history s)) (history_count s + 1) (cmd_num s).

Definition hist_at (s : smash) (i : Z) : list Z * Z := nth (Z.to_nat (i mod MAX_HISTORY)) (history s) ([], 0).
Definition hist_line (with_time : bool) (i : Z) (he : list Z * Z) : list Z :=
  if with_time then vprintf "[%d|%dms] %s" [VInt i; VInt he.2; VStr (Some he.1)] ++ [10]
  else vprintf " %d %s" [VInt i; VStr (Some he.1)] ++ [10].
Fixpoint show_loop (n : nat) (with_time : bool) (i : Z) (s : smash) : list Z :=
  match n with
  | O => []
  | S n => hist_line with_time i (hist_at s i) ++ show_loop n with_time (i + 1) s
  end.
Definition show_history (with_time : bool) (s : smash) : list Z :=
  let start := if MAX_HISTORY <? history_count s then history_count s - MAX_HISTORY else 0 in
  show_loop (Z.to_nat (history_count s - start)) with_time start s.

Fixpoint str_startswith (s prefix : list Z) (len : nat) : bool :=
  match len with
  | O => true
  | S len => match s with
             | [] => false
             | c :: s => (c =? hd 0 prefix) && str_startswith s (tl prefix) len
             end
  end.

(** The loop of [!prefix], from entry [n - 1] down to 0. *)
Fixpoint find_prefix (n : nat) (prefix : list Z) (s : smash) : option (list Z) :=
  match n with
  | O => None
  | S n => let he := hist_at s (Z.of_nat n) in
           if str_startswith he.1 prefix (length prefix) then Some he.1 else find_prefix n prefix s
  end.
(** For a line that starts with [!]: the new line, or [None] for -1. *)
Definition expand_history (buf : list Z) (s : smash) : option (list Z) :=
  let c := nth 1 buf 0 in
  if c =? 33 then
    if history_count s =? 0 then None
    else Some (ssafestrcpy (hist_at s (history_count s - 1)).1 BUF_SIZE)
  else if (48 <=? c) && (c <=? 57) then
    let num := atoi (drop 1 buf) in
    if (num <? 0) || (history_count s <=? num) then None
    else Some (ssafestrcpy (hist_at s num).1 BUF_SIZE)
  else
    he ← find_prefix (Z.to_nat (history_count s)) (drop 1 buf) s;
    mret (ssafestrcpy he BUF_SIZE).

(** ** Tokens *)

Definition delims : list Z := [32; 9; 10].
Definition not_delim (c : Z) : bool := negb (among delims c).
Fixpoint take_while (p : Z → bool) (l : list Z) : list Z :=
  match l with [] => [] | c :: l => if p c then c :: take_while p l else [] end.
Fixpoint drop_while (p : Z → bool) (l : list Z) : list Z :=
  match l with [] => [] | c :: r => if p c then drop_while p r else l end.
(** [str_ptr] is [None] when the pointer is NULL: the token and the new
    pointer. *)
Definition next_token (str_ptr : option (list Z)) : option (list Z) * option (list Z) :=
  match str_ptr with
  | None => (None, None)
  | Some l =>
      let start := drop_while (among delims) l in
      if bool_decide (start = []) then (None, None)
      else
        let tok := take_while not_delim start in
        match drop (length tok) start with
        | [] => (Some tok, None)
        | _ :: rest => (Some tok, Some rest)
        end
  end.
(** [while((tok = next_token(&next_tok)) != 0) args[tokens++] = tok;] *)
Fixpoint tokens (fuel : nat) (ptr : option (list Z)) : list (list Z) :=
  match fuel with
  | O => []
  | S fuel => match next_token ptr with
              | (Some tok, ptr) => tok :: tokens fuel ptr
              | (None, _) => []
              end
  end.

(** ** The argument array *)

Inductive slot := Junk | Null | Str (s : list Z).
Definition store (args : list slot) (toks : list (list Z)) : list slot :=
  (Str <$> toks) ++ [Null] ++ drop (S (length toks)) args.
(** The strings of the array up to the NULL. *)
Fixpoint words (args : list slot) : option (list (list Z)) :=
  match args with
  | Null :: _ => Some []
  | Str s :: args => ws ← words args; Some (s :: ws)
  | _ => None
  end.
Definition is_str (a : slot) (s : list Z) : bool := if a is Str t then bool_decide (t = s) else false.

(** ** Redirections and pipelines *)

Definition sdup2 (oldfd newfd : Z) (k : prog) : prog :=
  if oldfd =? newfd then k
  else Close newfd (λ _, Dup oldfd (λ fd,
    if negb (fd =? newfd) then Write 2 (codes "dup2 failed" ++ [10]) (Exit 1) else k)).

Definition redir_of (a : list Z) : option (Z * Z) :=
  if bool_decide (a = [62]) then Some (Z.lor (Z.lor O_WRONLY O_CREATE) O_TRUNC, 1)
  else if bool_decide (a = [62; 62]) then Some (Z.lor (Z.lor O_WRONLY O_CREATE) O_APPEND, 1)
  else if bool_decide (a = [60]) then Some (O_RDONLY, 0)
  else None.
(** The rest of the arguments, and the ones before the first one that was set
    to NULL ([None] while none was). *)
Fixpoint apply_redirection (args done : list (list Z)) (argv : option (list (list Z))) (k : list (list Z) → prog) : prog :=
  match args with
  | [] => k (default done argv)
  | a :: rest =>
      match redir_of a with
      | None => apply_redirection rest (done ++ [a]) argv k
      | Some (mode, to) =>
          match rest with
          | [] => Fault
          | file :: _ =>
              Open file mode (λ fd,
                if fd <? 0 then Write 2 (codes "cannot open " ++ file ++ [10]) (Exit 1)
                else sdup2 fd to (Close fd (λ _,
                  apply_redirection rest (done ++ [a]) (Some (default done argv)) k)))
          end
      end
  end.
Definition exec_stage (argv : list (list Z)) : prog :=
  match argv with
  | [] => Fault
  | path :: _ => Exec path argv (Write 2 (codes "exec " ++ path ++ codes " failed" ++ [10]) (Exit 1))
  end.

Definition bar : list Z := [124].
(** The arguments up to the next bar, and those after it. *)
Fixpoint split_bar (args : list (list Z)) : list (list Z) * list (list Z) :=
  match args with
  | [] => ([], [])
  | a :: args => if bool_decide (a = bar) then ([], args) else let r := split_bar args in (a :: r.1, r.2)
  end.
Fixpoint wait_all (fuel : nat) (k : prog) : prog :=
  match fuel with O => OutOfFuel | S fuel => Wait (λ r, if 0 <? r then wait_all fuel k else k) end.

Fixpoint pipeline_loop (n : nat) (args : list (list Z)) (last_in : Z) (finish abandon : prog) : prog :=
  match n, args with
  | _, [] => finish
  | O, _ => OutOfFuel
  | S n, _ =>
      let cmd := (split_bar args).1 in
      let rest := (split_bar args).2 in
      let child (p : option (Z * Z)) :=
        let out := match p with
          | None => apply_redirection cmd [] None exec_stage
          | Some (p0, p1) => sdup2 p1 1 (Close p0 (λ _, Close p1 (λ _, apply_redirection cmd [] None exec_stage)))
          end in
        if negb (last_in =? 0) then sdup2 last_in 0 (Close last_in (λ _, out)) else out in
      let parent (p : option (Z * Z)) :=
        let next := match p with
          | None => pipeline_loop n rest last_in finish abandon
          | Some (p0, p1) => Close p1 (λ _, pipeline_loop n rest p0 finish abandon)
          end in
        if negb (last_in =? 0) then Close last_in (λ _, next) else next in
      let run (p : option (Z * Z)) := Fork (λ pid, if pid =? 0 then child p else parent p) in
      match rest with
      | [] => run None
      | _ => Pipe (λ r, match r with
               | None => Write 2 (codes "pipe failed" ++ [10]) abandon
               | Some p => run (Some p)
               end)
      end
  end.
Definition run_pipeline (fuel : nat) (args : list (list Z)) (background : bool) (k : prog) : prog :=
  pipeline_loop (length args) args 0 (if background then k else wait_all fuel k) k.

(** ** Aliases *)

Fixpoint alias_find (name : list Z) (al : list (list Z * list Z)) : option (list Z) :=
  match al with
  | [] => None
  | (n, v) :: al => if strcmp name n =? 0 then Some v else alias_find name al
  end.
(** [while(ex < max_exp)]: the array after the expansion; [None] when
    [args[0]] is not a string. *)
Fixpoint expand_alias (max_exp : nat) (al : list (list Z * list Z)) (args : list slot) : option (list slot) :=
  match max_exp with
  | O => Some args
  | S n =>
      match al with
      | [] => Some args
      | _ => match args with
             | Str a0 :: _ =>
                 match alias_find a0 al with
                 | None => Some args
                 | Some v =>
                     let tmp := ssafestrcpy v BUF_SIZE in
                     expand_alias n al (store args (take (MAX_ARGS - 1) (tokens (S (length tmp)) (Some tmp))))
                 end
             | _ => None
             end
      end
  end.

Fixpoint alias_replace (name value : list Z) (al : list (list Z * list Z)) : option (list (list Z * list Z)) :=
  match al with
  | [] => None
  | (n, v) :: al =>
      if strcmp n name =? 0 then Some ((n, ssafestrcpy value 128) :: al)
      else r ← alias_replace name value al; Some ((n, v) :: r)
  end.
Definition is_quote (c : Z) : bool := (c =? 34) || (c =? 39).
(** The value without the quotes around it.  [strlen] is unsigned, so for an
    empty value [value[strlen(value)-1]] is 4 GB away: [None]. *)
Definition unquote (value : list Z) : option (list Z) :=
  let value := if is_quote (hd 0 value) then drop 1 value else value in
  if bool_decide (value = []) then None
  else Some (if is_quote (List.last value 0) then removelast value else value).
Definition set_alias (name value : list Z) (s : smash) : smash :=
  let al := match alias_replace name value (aliases s) with
    | Some al => al
    | None => if (length (aliases s) <? MAX_ALIASES)%nat
              then aliases s ++ [(ssafestrcpy name 32, ssafestrcpy value 128)] else aliases s
    end in
  mk_smash al (history s) (history_count s) (cmd_num s).
(** [alias name=value]; [None] when there is no [=]. *)
Definition alias_arg (a : list Z) : option (list Z * option (list Z)) :=
  eq ← strchr a 61;
  Some (take eq a, unquote (drop (S eq) a)).
Definition show_aliases (s : smash) : list Z :=
  concat ((λ x, vprintf "%s='%s'" [VStr (Some x.1); VStr (Some x.2)] ++ [10]) <$> aliases s).

(** ** The main loop *)

Definition color (n : string) (text : list Z) : list Z :=
  [27; 91] ++ codes n ++ [109] ++ text ++ [27; 91; 48; 109].
Definition prompt (s : smash) (cwd : list Z) : list Z :=
  color "36" (vprintf "[%d]" [VInt 0]) ++ color "33" (vprintf "-[%d]" [VInt (cmd_num s)]) ++
  [0xe2; 0x94; 0x80] ++ color "32" (vprintf "[%s]" [VStr (Some cwd)]) ++ codes "$ ".

(** From the expanded line on; [loop s] reads the next line. *)
Section command.
Context (fuel : nat) (loop : smash → prog).

(** [continue] after a message. *)
Definition say (fd : Z) (text : list Z) (s : smash) : prog := Write fd text (loop s).

(** Neither a comment nor a built-in: [toks] is the number of tokens of the
    line. *)
Definition run_command (cmd_buf : list Z) (toks : nat) (args : list slot) (s : smash) : prog :=
  let run (background : bool) (args : list slot) :=
    match words args with
    | None => Fault
    | Some ws => Uptime (λ start, run_pipeline fuel ws background (Uptime (λ stop,
        let s := add_history cmd_buf (u32 (stop - start)) s in
        loop (mk_smash (aliases s) (history s) (history_count s) (cmd_num s + 1)))))
    end in
  match nth (toks - 1) args Junk with
  | Str t => if strcmp t (codes "&") =? 0 then run true (<[(toks - 1)%nat := Null]> args) else run false args
  | _ => Fault
  end.

Definition builtins (cmd_buf : list Z) (toks : nat) (args : list slot) (s : smash) : prog :=
  match args with
  | Str a0 :: rest =>
      let a1 := nth 0 rest Junk in
      if hd 0 a0 =? 35 then loop s
      else if strcmp a0 (codes "exit") =? 0 then Exit 0
      else if strcmp a0 (codes "cd") =? 0 then
        match a1 with
        | Junk => Fault
        | Null => say 2 (vprintf "chdir: no such file or directory: %s" [VStr None] ++ [10]) s
        | Str dir => Chdir dir (λ r,
            if r <? 0 then say 2 (vprintf "chdir: no such file or directory: %s" [VStr (Some dir)] ++ [10]) s else loop s)
        end
      else if strcmp a0 (codes "alias") =? 0 then
        match a1 with
        | Junk => Fault
        | Null => say 1 (show_aliases s) s
        | Str a => match alias_arg a with
                   | None => say 2 (codes "usage: alias name=" ++ [34] ++ codes "value" ++ [34; 10]) s
                   | Some (name, Some value) => loop (set_alias name value s)
                   | Some (_, None) => Fault
                   end
        end
      else if strcmp a0 (codes "history") =? 0 then
        match a1 with
        | Junk => Fault
        | Null => say 1 (show_history false s) s
        | Str a => say 1 (show_history (strcmp a (codes "-t") =? 0) s) s
        end
      else run_command cmd_buf toks args s
  | _ => Fault
  end.

Definition run_line (buf : list Z) (s : smash) : prog :=
  let cmd_buf := ssafestrcpy buf BUF_SIZE in
  let toks := tokens (S (length buf)) (Some buf) in
  if (MAX_ARGS <=? length toks)%nat then Fault
  else if (length toks =? 0)%nat then loop s
  else match expand_alias 10 (aliases s) (store (replicate MAX_ARGS Junk) toks) with
       | None => Fault
       | Some args => builtins cmd_buf (length toks) args s
       end.
End command.

(** [gets] never returns NULL, so the loop does not end there. *)
Fixpoint smash_loop (fuel : nat) (s : smash) : prog :=
  match fuel with
  | O => OutOfFuel
  | S n =>
      Getcwd (λ cwd, Write 1 (prompt s cwd) (gets_prog (BUF_SIZE - 1) [] (λ buf,
        let buf := until_nul buf in
        if strlen buf =? 0 then smash_loop n s
        else if hd 0 buf =? 33 then
          match expand_history buf s with
          | None => Write 1 (codes "No such history command: " ++ buf ++ [10]) (smash_loop n s)
          | Some buf => Write 1 (buf ++ [10]) (run_line fuel (smash_loop n) buf s)
          end
        else run_line fuel (smash_loop n) buf s)))
  end.
Definition smash_main (fuel : nat) : prog := smash_loop fuel smash0.
