(* ===== verification/SmashRun.v ===== *)
(** * user/smash.c: the processes of a pipeline

    [run_pipeline] starts one process for each stage between the bars, with
    standard input and output connected by pipes and then redirected, and
    leaves the shell's own descriptors as they were. *)

From S2P Require Import CString ULib Prelude Riscv Printf Console Fs UPrintf Sh ShRun Smash.

(** ** What a pipeline means *)

(** The stages between bars; a bar at the end starts no stage. *)
Fixpoint stages (args : list (list Z)) : list (list (list Z)) :=
  match args with
  | [] => []
  | a :: args => if bool_decide (a = bar) then [] :: stages args
                 else match stages args with [] => [[a]] | s :: ss => (a :: s) :: ss end
  end.
(** The redirections of a stage, in order; [None] without a file name. *)
Fixpoint redirs (args : list (list Z)) (T : fds) : option fds :=
  match args with
  | [] => Some T
  | a :: rest => match redir_of a with
                 | None => redirs rest T
                 | Some (mode, to) => match rest with
                                      | [] => None
                                      | file :: _ => redirs rest (<[Z.to_nat to := Some (Named file mode)]> T)
                                      end
                 end
  end.
(** The arguments before the first redirection. *)
Fixpoint plain (args : list (list Z)) : list (list Z) :=
  match args with [] => [] | a :: args => if redir_of a is Some _ then [] else a :: plain args end.
Definition program (argv : list (list Z)) (T : option fds) : list (list (list Z) * fds) :=
  match argv, T with _ :: _, Some T => [(argv, T)] | _, _ => [] end.
Definition stage (args : list (list Z)) (T : fds) : list (list (list Z) * fds) := program (plain args) (redirs args T).

Definition with_in (inp : option ofile) (T : fds) : fds := if inp is Some f then <[0%nat := Some f]> T else T.
Fixpoint pipe_denote (ss : list (list (list Z))) (inp : option ofile) (T : fds) (pi : list bool) : list (list (list Z) * fds) :=
  match ss with
  | [] => []
  | [c] => stage c (with_in inp T)
  | c :: ss => stage c (<[1%nat := Some (PipeW pi)]> (with_in inp T)) ++ pipe_denote ss (Some (PipeR pi)) T (true :: true :: pi)
  end.
(** The point of the execution after a pipeline. *)
Fixpoint pipe_path (ss : list (list (list Z))) (pi : list bool) : list bool :=
  match ss with [] => pi | [_] => true :: pi | _ :: ss => pipe_path ss (true :: true :: pi) end.

(** ** Tables *)

Definition std_open (T : fds) : Prop := ∀ i, (i < 3)%nat → ∃ f, T !! i = Some (Some f).
Definition slot_free (T : fds) (i : nat) : Prop := T !! i = Some None.

Lemma std_lt T i : std_open T → (i < 3)%nat → (i < length T)%nat.
Proof. intros Hs Hi. destruct (Hs i Hi) as [f E]. by eapply lookup_lt_Some. Qed.
Lemma free_ge T i : std_open T → slot_free T i → (3 ≤ i < length T)%nat.
Proof.
  intros Hs Hi. split; [|by eapply lookup_lt_Some]. destruct (decide (i < 3)%nat) as [Hlt|]; [|lia].
  destruct (Hs i Hlt) as [f E]. unfold slot_free in Hi. congruence.
Qed.
Lemma std_insert T i f : std_open T → std_open (<[i := Some f]> T).
Proof.
  intros Hs k Hk. destruct (decide (k = i)) as [->|Hne]; [|rewrite list_lookup_insert_ne by done; by apply Hs].
  exists f. apply list_lookup_insert_eq. by apply std_lt.
Qed.
Lemma free_insert T i x k : k ≠ i → slot_free (<[i := x]> T) k ↔ slot_free T k.
Proof. intros Hne. unfold slot_free. by rewrite list_lookup_insert_ne by done. Qed.
Lemma lowest_free T i : slot_free T i → ∃ j, lowest T = Some j ∧ slot_free T j.
Proof.
  intros Hi. pose proof (lowest_spec T) as Hl. destruct (lowest T) as [j|]; [|by destruct (Hl i)]. exists j. by destruct Hl.
Qed.
(** Equal tables, slot by slot. *)
Ltac table_eq :=
  apply list_eq; intros ?k; rewrite !list_lookup_insert, ?length_insert; unfold slot_free in *;
  repeat case_decide; intuition (lia || congruence).

Lemma execs_sdup2 T e d f k pi ch :
  std_open T → (d < 3)%nat → (3 ≤ e)%nat → T !! e = Some (Some f) →
  execs (sdup2 (Z.of_nat e) (Z.of_nat d) k) T pi ch = execs k (<[d := Some f]> T) pi ch.
Proof.
  intros Hs Hd He Hf. pose proof (std_lt T d Hs Hd). unfold sdup2. rewrite (proj2 (Z.eqb_neq _ _)) by lia. cbn [execs].
  rewrite !fd_close_std, Nat2Z.id, list_lookup_insert_ne, Hf by lia.
  assert (lowest (<[d := None]> T) = Some d) as ->.
  { apply lowest_is; [by apply list_lookup_insert_eq|]. intros i Hi. rewrite list_lookup_insert_ne by lia. apply Hs. lia. }
  rewrite Z.eqb_refl. cbn [negb]. by rewrite list_insert_insert_eq.
Qed.

(** ** A stage *)

Lemma execs_stage argv T pi ch : execs (exec_stage argv) T pi ch = program argv (Some T).
Proof. by destruct argv. Qed.
Lemma redir_std a mode to : redir_of a = Some (mode, to) → ∃ d, to = Z.of_nat d ∧ (d < 3)%nat.
Proof.
  unfold redir_of. intros H. repeat case_bool_decide; try done; injection H as <- <-; (by exists 1%nat; split; [|lia]) || (by exists 0%nat; split; [|lia]).
Qed.
Lemma apply_redirection_ok args done argv T pi ch x :
  std_open T → slot_free T x →
  execs (apply_redirection args done argv exec_stage) T pi ch = program (default (done ++ plain args) argv) (redirs args T).
Proof.
  revert done argv T. induction args as [|a args IH]; intros done argv T Hs Hx; cbn [apply_redirection plain redirs].
  - by rewrite app_nil_r, execs_stage.
  - destruct (redir_of a) as [[mode to]|] eqn:E; cbn.
    + destruct args as [|file args]; [cbn; by destruct (default _ _)|]. rewrite app_nil_r. destruct (redir_std a mode to E) as (d & -> & Hd).
      cbn [execs]. destruct (lowest_free T x Hx) as (i & -> & Hi). pose proof (free_ge T i Hs Hi) as Hge.
      rewrite (proj2 (Z.ltb_ge _ _)) by lia.
      rewrite (execs_sdup2 _ i d (Named file mode)) by (done || lia || (by apply std_insert) || (apply list_lookup_insert_eq; lia)).
      cbn [execs]. rewrite fd_close_std.
      assert (<[i := None]> (<[d := Some (Named file mode)]> (<[i := Some (Named file mode)]> T)) = <[d := Some (Named file mode)]> T) as ->.
      { pose proof (std_lt T d Hs Hd). table_eq. }
      rewrite IH; [by rewrite Nat2Z.id|by apply std_insert|]. apply free_insert; [|done]. pose proof (free_ge T x Hs Hx). lia.
    + rewrite IH by done. by rewrite <- app_assoc.
Qed.

(** ** The pipeline *)

Lemma stages_split args : args ≠ [] → stages args = (split_bar args).1 :: stages (split_bar args).2.
Proof.
  induction args as [|a args IH]; [done|]. intros _. cbn [stages split_bar]. case_bool_decide; [done|]. cbn [fst snd].
  destruct args as [|b args]; [done|]. by rewrite IH.
Qed.
Lemma split_bar_length args : args ≠ [] → (length (split_bar args).2 < length args)%nat.
Proof.
  induction args as [|a args IH]; [done|]. intros _. cbn [split_bar]. case_bool_decide; cbn; [lia|].
  destruct args as [|b args]; [cbn; lia|]. pose proof (IH ltac:(done)). cbn in *. lia.
Qed.
Lemma stages_nonempty args : args ≠ [] → ∃ s ss, stages args = s :: ss.
Proof. intros H. rewrite stages_split by done. by eexists _, _. Qed.
Lemma wait_all_ok fuel k T pi ch : (ch < fuel)%nat → execs (wait_all fuel k) T pi ch = execs k T pi 0.
Proof.
  revert ch. induction fuel as [|fuel IH]; intros ch Hf; [lia|]. cbn [wait_all execs]. destruct ch as [|ch]; [done|].
  cbn [Z.ltb Z.compare]. apply IH. lia.
Qed.

(** The pipe read by the next stage is in descriptor [a]. *)
Definition holding (inp : option ofile) (a : nat) (T : fds) : fds := if inp is Some f then <[a := Some f]> T else T.
Definition last_fd (inp : option ofile) (a : nat) : Z := if inp is Some _ then Z.of_nat a else 0.

Section pipeline.
Context (T : fds) (Hs : std_open T).
Context (inp : option ofile) (a : nat) (Ha : slot_free T a).

Lemma holding_std : std_open (holding inp a T).
Proof using Hs. destruct inp; [by apply std_insert|done]. Qed.
Lemma with_in_std : std_open (with_in inp T).
Proof using Hs. destruct inp; [by apply std_insert|done]. Qed.
(** In the child: [if(last_in != 0){ dup2(last_in, 0); close(last_in); }] *)
Lemma child_in k U pi ch :
  std_open U → (inp ≠ None → U !! a = holding inp a T !! a) →
  execs (if negb (last_fd inp a =? 0) then sdup2 (last_fd inp a) 0 (Close (last_fd inp a) (λ _, k)) else k) U pi ch =
  execs k (if inp is Some f then <[a := None]> (<[0%nat := Some f]> U) else U) pi ch.
Proof using Hs Ha.
  intros HU HUa. pose proof (free_ge T a Hs Ha) as Hge. destruct inp as [f|]; cbn [last_fd holding] in *; [|done].
  rewrite (proj2 (Z.eqb_neq _ _)) by lia. cbn [negb]. change 0 with (Z.of_nat 0) at 1.
  rewrite (execs_sdup2 U a 0 f); [|done|lia|lia|rewrite HUa by done; apply list_lookup_insert_eq; lia]. cbn [execs]. by rewrite fd_close_std.
Qed.
Lemma parent_in k U pi ch :
  execs (if negb (last_fd inp a =? 0) then Close (last_fd inp a) (λ _, k) else k) U pi ch =
  execs k (if inp is Some f then <[a := None]> U else U) pi ch.
Proof using Hs Ha.
  pose proof (free_ge T a Hs Ha) as Hge. destruct inp as [f|]; cbn [last_fd]; [|done].
  rewrite (proj2 (Z.eqb_neq _ _)) by lia. cbn [negb execs]. by rewrite fd_close_std.
Qed.
(** Room for a new pipe beside the one held. *)
Lemma pipe_room x y z pi : slot_free T x → slot_free T y → slot_free T z → (x < y < z)%nat → ∃ i j, lowest (holding inp a T) = Some i ∧
  lowest (<[i := Some (PipeR pi)]> (holding inp a T)) = Some j ∧ slot_free T i ∧ slot_free T j ∧ i ≠ j ∧ (inp ≠ None → i ≠ a ∧ j ≠ a).
Proof using All.
  intros Hx Hy Hz Hxyz. assert (∀ k, slot_free (holding inp a T) k → slot_free T k ∧ (inp ≠ None → k ≠ a)) as Hh.
  { intros k Hk. destruct inp as [f|]; cbn [holding] in *; [|done]. destruct (decide (k = a)) as [->|Hne].
    - unfold slot_free in Hk. rewrite list_lookup_insert_eq in Hk; [done|]. by eapply lookup_lt_Some.
    - by rewrite free_insert in Hk. }
  assert (∀ k, slot_free T k → k ≠ a → slot_free (holding inp a T) k) as Hf.
  { intros k Hk Hne. destruct inp as [f|]; cbn [holding]; [by apply free_insert|done]. }
  assert (∃ u v, u ≠ v ∧ slot_free (holding inp a T) u ∧ slot_free (holding inp a T) v) as (u & v & Huv & Hu & Hv).
  { destruct (decide (x = a)) as [->|]; [exists y, z|destruct (decide (y = a)) as [->|]; [exists x, z|exists x, y]];
      (split; [lia|split; apply Hf; (done || lia)]). }
  destruct (lowest_free _ u Hu) as (i & Ei & Hi). exists i.
  assert (∃ w, w ≠ i ∧ slot_free (holding inp a T) w) as (w & Hwi & Hw) by (destruct (decide (u = i)) as [->|]; [by exists v|by exists u]).
  destruct (lowest_free (<[i := Some (PipeR pi)]> (holding inp a T)) w) as (j & Ej & Hj); [by apply free_insert|].
  assert (j ≠ i) as Hji.
  { intros ->. unfold slot_free in Hj. rewrite list_lookup_insert_eq in Hj; [done|]. by eapply lookup_lt_Some. }
  apply free_insert in Hj; [|done]. exists j. destruct (Hh i Hi), (Hh j Hj). split_and!; try done. auto.
Qed.
End pipeline.

(** One round of the loop, from descriptor table [holding inp a T]. *)
Lemma pipeline_loop_ok n args T inp a pi ch fin ab x y z :
  (length args ≤ n)%nat → std_open T → slot_free T x → slot_free T y → slot_free T z → (x < y < z)%nat → slot_free T a →
  (args = [] → inp = None) →
  execs (pipeline_loop n args (last_fd inp a) fin ab) (holding inp a T) pi ch =
  pipe_denote (stages args) inp T pi ++ execs fin T (pipe_path (stages args) pi) (ch + length (stages args)).
Proof.
  intros Hn Hs Hx Hy Hz Hxyz. revert args inp a pi ch Hn. induction n as [|n IH]; intros args inp a pi ch Hn Ha Hin.
  { destruct args; [|cbn in Hn; lia]. rewrite Hin by done. cbn. by rewrite Nat.add_0_r. }
  destruct args as [|b args']; [rewrite Hin by done; cbn; by rewrite Nat.add_0_r|].
  set (args := b :: args') in *. assert (args ≠ []) as Hne by done. rewrite stages_split by done.
  pose proof (split_bar_length args Hne) as Hl. pose proof (free_ge T a Hs Ha) as Hga.
  pose proof (holding_std T Hs inp a) as Hhs. pose proof (with_in_std T Hs inp) as Hws.
  assert (execs (pipeline_loop (S n) args (last_fd inp a) fin ab) (holding inp a T) pi ch =
    execs (let cmd := (split_bar args).1 in let rest := (split_bar args).2 in
      match rest with [] => _ | _ => _ end) (holding inp a T) pi ch) as -> by reflexivity.
  cbv zeta. set (cmd := (split_bar args).1). set (rest := (split_bar args).2) in *.
  assert (length rest ≤ n)%nat as Hr by lia. clearbody rest. destruct rest as [|r rest].
  - cbn [execs Z.eqb stages pipe_denote pipe_path length].
    rewrite (child_in T Hs inp a Ha), (parent_in T Hs inp a Ha) by done.
    assert ((if inp is Some f then <[a := None]> (<[0%nat := Some f]> (holding inp a T)) else holding inp a T) = with_in inp T) as ->.
    { destruct inp as [f|]; [|done]. cbn. pose proof (std_lt T 0 Hs ltac:(lia)). table_eq. }
    assert ((if inp is Some f then <[a := None]> (holding inp a T) else holding inp a T) = T) as ->.
    { destruct inp as [f|]; [|done]. cbn. table_eq. }
    rewrite (apply_redirection_ok _ _ _ _ _ _ x) by (done || (destruct inp; cbn; [apply free_insert; [|done]; pose proof (free_ge T x Hs Hx); lia|done])).
    cbn. destruct n as [|n]; cbn [pipeline_loop]; by rewrite Nat.add_1_r.
  - assert (stages (r :: rest) ≠ []) as Hst by (destruct (stages_nonempty (r :: rest)) as (? & ? & ->); done).
    destruct (pipe_room T Hs inp a Ha x y z pi Hx Hy Hz Hxyz) as (i & j & Ei & Ej & Hi & Hj & Hij & Hia).
    pose proof (free_ge T i Hs Hi) as Hgi. pose proof (free_ge T j Hs Hj) as Hgj.
    assert (length (holding inp a T) = length T) as Hlen by (destruct inp; cbn; [apply length_insert|done]).
    cbn [execs]. rewrite Ei, Ej. cbn [Z.eqb]. set (U := <[j := _]> (<[i := _]> (holding inp a T))).
    assert (std_open U) as HU by (by apply std_insert, std_insert).
    assert (inp ≠ None → U !! a = holding inp a T !! a) as HUa.
    { intros Hp. destruct (Hia Hp). unfold U. by rewrite !list_lookup_insert_ne by done. }
    rewrite (child_in T Hs inp a Ha), (parent_in T Hs inp a Ha) by done.
    set (U1 := if inp is Some f then <[a := None]> (<[0%nat := Some f]> U) else U).
    assert (std_open U1 ∧ U1 !! j = Some (Some (PipeW pi)) ∧
      <[j := None]> (<[i := None]> (<[1%nat := Some (PipeW pi)]> U1)) = <[1%nat := Some (PipeW pi)]> (with_in inp T)) as (HU1 & HUj & EU).
    { pose proof (std_lt T 0 Hs ltac:(lia)). pose proof (std_lt T 1 Hs ltac:(lia)). unfold U1, U. destruct inp as [f|]; cbn [holding with_in].
      - destruct (Hia ltac:(done)). split_and!.
        + intros k Hk. rewrite list_lookup_insert_ne by lia. apply std_insert; [|done]. by apply std_insert, std_insert, std_insert.
        + rewrite !list_lookup_insert_ne by lia. apply list_lookup_insert_eq. rewrite !length_insert. lia.
        + table_eq.
      - split_and!; [done| |table_eq]. apply list_lookup_insert_eq. rewrite length_insert. lia. }
    change 1 with (Z.of_nat 1) at 1. rewrite (execs_sdup2 U1 j 1 (PipeW pi)) by (done || lia). cbn [execs]. rewrite !fd_close_std, EU.
    assert (<[j := None]> (if inp is Some f then <[a := None]> U else U) = holding (Some (PipeR pi)) i T) as ->.
    { unfold U. destruct inp as [f|]; cbn [holding]; [|table_eq]. destruct (Hia ltac:(done)). table_eq. }
    rewrite (apply_redirection_ok _ _ _ _ _ _ x); [|by apply std_insert|].
    2:{ pose proof (free_ge T x Hs Hx). apply free_insert; [lia|]. destruct inp; cbn; [apply free_insert; [lia|done]|done]. }
    change (Z.of_nat i) with (last_fd (Some (PipeR pi)) i). rewrite IH by done. cbn [pipe_denote pipe_path default app].
    destruct (stages (r :: rest)) as [|c cs]; [done|]. rewrite app_assoc. cbn [length]. by rewrite Nat.add_succ_comm.
Qed.

(** C27: run_pipeline starts one process for each stage of the line, with
    exactly the shell's descriptors but standard input the pipe from the stage
    before, standard output the pipe to the next stage, and then the stage's
    redirections, in order. Afterwards the shell has its own descriptors, with
    none of the pipes left open, and no child to wait for unless the line is in
    the background. *)
Theorem run_pipeline_wires fuel args background k T pi ch x y z :
  std_open T → slot_free T x → slot_free T y → slot_free T z → (x < y < z)%nat → (ch + length args < fuel)%nat →
  execs (run_pipeline fuel args background k) T pi ch =
  pipe_denote (stages args) None T pi ++
  execs k T (pipe_path (stages args) pi) (if background then ch + length (stages args) else 0).
Proof.
  intros Hs Hx Hy Hz Hxyz Hf. unfold run_pipeline.
  rewrite (pipeline_loop_ok (length args) args T None x pi ch _ k x y z) by done. f_equal. destruct background; [done|].
  apply wait_all_ok. assert (length (stages args) ≤ length args)%nat; [|lia]. clear. induction args as [|a args IH]; [done|].
  cbn [stages]. case_bool_decide; [cbn; lia|]. destruct (stages args); cbn in *; lia.
Qed.

(** [a < in | b | c > out] *)
Lemma run_pipeline_wires_witness :
  execs (run_pipeline 20 [codes "a"; codes "<"; codes "in"; bar; codes "b"; codes "-x"; bar; codes "c"; codes ">"; codes "out"] false (Exit 0))
    [Some (Given 0); Some (Given 1); Some (Given 2); None; None; None] [] 0 =
  [([codes "a"], [Some (Named (codes "in") 0); Some (PipeW []); Some (Given 2); None; None; None]);
   ([codes "b"; codes "-x"], [Some (PipeR []); Some (PipeW [true; true]); Some (Given 2); None; None; None]);
   ([codes "c"], [Some (PipeR [true; true]); Some (Named (codes "out") 0x601); Some (Given 2); None; None; None])].
Proof.
  rewrite (run_pipeline_wires _ _ _ _ _ _ _ 3 4 5); [vm_compute; reflexivity| |done|done|done|lia|cbn; lia].
  intros [|[|[|i]]] Hi; cbn; [by eexists..|lia].
Defined.
