(* ===== verification/SmashProps.v ===== *)
(** * user/smash.c: history, aliases and words

    The ring refines the list of all commands ever run: what is shown and what
    [!] finds are the last MAX_HISTORY of them.  The aliases refine a map.  The
    tokens of a line are its words. *)

From S2P Require Import CString ULib Prelude Riscv Printf Console Fs UPrintf Sh Smash.

(** ** History *)

(** The ring holds the last entries of [hs]. *)
Record ring (s : smash) (hs : list (list Z * Z)) : Prop := {
  rg_count : history_count s = Z.of_nat (length hs);
  rg_len : length (history s) = Z.to_nat MAX_HISTORY;
  rg_at i : (i < length hs)%nat → Z.of_nat (length hs) - MAX_HISTORY ≤ Z.of_nat i → hist_at s (Z.of_nat i) = nth i hs ([], 0);
}.
Lemma ring0 : ring smash0 [].
Proof. split; [done|done|]. cbn. lia. Qed.

Lemma ring_mod_inj (i j n : Z) : 0 ≤ i → 0 ≤ j → i ≠ j → n - MAX_HISTORY < i ≤ n → n - MAX_HISTORY < j ≤ n → i mod MAX_HISTORY ≠ j mod MAX_HISTORY.
Proof. change MAX_HISTORY with 100. intros. intros E. pose proof (Z.div_mod i 100). pose proof (Z.div_mod j 100). lia. Qed.

Lemma add_history_ring s hs cmd d :
  ring s hs → strlen cmd ≠ 0 → ring (add_history cmd d s) (hs ++ [(ssafestrcpy cmd BUF_SIZE, d)]).
Proof.
  intros [Hc Hl Ha] Hz. unfold add_history. rewrite (proj2 (Z.eqb_neq _ _)) by done.
  pose proof (Z.mod_pos_bound (history_count s) MAX_HISTORY ltac:(done)) as Hm. split.
  - cbn. rewrite length_app. cbn. lia.
  - cbn. by rewrite length_insert.
  - intros i Hi Hw. rewrite length_app in *. cbn [length] in *. unfold hist_at. cbn [history]. rewrite !nth_lookup.
    destruct (decide (i = length hs)) as [->|Hne].
    + rewrite Hc, list_lookup_insert_eq by (rewrite <- Hc, Hl; lia). by rewrite list_lookup_middle.
    + pose proof (ring_mod_inj (Z.of_nat i) (history_count s) (history_count s) ltac:(lia) ltac:(lia) ltac:(lia) ltac:(lia) ltac:(change MAX_HISTORY with 100; lia)) as Hd.
      pose proof (Z.mod_pos_bound (Z.of_nat i) MAX_HISTORY ltac:(done)).
      rewrite list_lookup_insert_ne by lia. rewrite lookup_app_l by lia. rewrite <- !nth_lookup. apply Ha; lia.
Qed.

(** Entry numbers of the window. *)
Definition first (hs : list (list Z * Z)) : nat := length hs - Z.to_nat MAX_HISTORY.
(** What [history] prints: the numbered lines of the window. *)
Definition window_lines (t : bool) (hs : list (list Z * Z)) : list Z :=
  concat ((λ i, hist_line t (Z.of_nat i) (nth i hs ([], 0))) <$> seq (first hs) (length hs - first hs)).
Lemma show_loop_ring s hs t n i :
  ring s hs → (first hs ≤ i)%nat → (i + n ≤ length hs)%nat →
  show_loop n t (Z.of_nat i) s = concat ((λ i, hist_line t (Z.of_nat i) (nth i hs ([], 0))) <$> seq i n).
Proof.
  intros R. revert i. induction n as [|n IH]; intros i Hf Hn; [done|]. cbn [show_loop seq fmap list_fmap concat].
  rewrite (rg_at _ _ R) by (unfold first in *; change MAX_HISTORY with 100 in *; lia). f_equal.
  replace (Z.of_nat i + 1) with (Z.of_nat (S i)) by lia. apply IH; lia.
Qed.
Lemma show_history_ring s hs t : ring s hs → show_history t s = window_lines t hs.
Proof.
  intros R. unfold show_history, window_lines. rewrite (rg_count _ _ R). change MAX_HISTORY with 100.
  assert ((if 100 <? Z.of_nat (length hs) then Z.of_nat (length hs) - 100 else 0) = Z.of_nat (first hs)) as ->.
  { unfold first. change MAX_HISTORY with 100. destruct (100 <? _) eqn:E; zbool; lia. }
  assert (first hs ≤ length hs)%nat by (unfold first; lia).
  rewrite (show_loop_ring s hs) by (done || lia). do 3 f_equal. lia.
Qed.

(** The most recent command that starts with [p], of the [k] from [lo] on. *)
Fixpoint recent (p : list Z) (lo k : nat) (hs : list (list Z * Z)) : option (list Z) :=
  match k with
  | O => None
  | S k => let c := (nth (lo + k) hs ([], 0)).1 in if bool_decide (p `prefix_of` c) then Some c else recent p lo k hs
  end.
Lemma startswith_prefix s p : str_startswith s p (length p) = bool_decide (p `prefix_of` s).
Proof.
  revert s. induction p as [|c p IH]; intros s; cbn [length].
  - rewrite bool_decide_true by apply prefix_nil. by destruct s.
  - destruct s as [|d s]; [symmetry; apply bool_decide_false; by intros ?%prefix_nil_inv|]. cbn [str_startswith hd tl]. rewrite IH.
    destruct (d =? c) eqn:E; zbool; cbn [andb].
    + subst d. apply bool_decide_ext. split; [apply prefix_cons|apply prefix_cons_inv_2].
    + symmetry. apply bool_decide_false. intros H%prefix_cons_inv_1. done.
Qed.

Lemma recent_None p lo k hs i :
  recent p lo k hs = None → (i < k)%nat → ¬ p `prefix_of` (nth (lo + i) hs ([], 0)).1.
Proof.
  induction k as [|k IH]; cbn [recent]; [lia|]. case_bool_decide as Hp; [done|]. intros Hn Hi.
  destruct (decide (i = k)) as [->|]; [done|]. apply IH; [done|lia].
Qed.
Lemma find_prefix_window s hs p k :
  ring s hs → (first hs + k ≤ length hs)%nat →
  find_prefix (first hs + k) p s = match recent p (first hs) k hs with Some c => Some c | None => find_prefix (first hs) p s end.
Proof.
  intros R. induction k as [|k IH]; intros Hk; [by rewrite Nat.add_0_r|]. rewrite Nat.add_succ_r. cbn [find_prefix recent].
  rewrite (rg_at _ _ R), startswith_prefix by (unfold first in *; change MAX_HISTORY with 100 in *; lia).
  case_bool_decide; [done|]. apply IH. lia.
Qed.
(** An entry before the window is in a slot that was reused. *)
Lemma find_prefix_old s hs p n :
  ring s hs → (n ≤ first hs)%nat → recent p (first hs) (length hs - first hs) hs = None → find_prefix n p s = None.
Proof.
  intros R Hn Hr. induction n as [|n IH]; [done|]. cbn [find_prefix]. rewrite startswith_prefix, bool_decide_false; [apply IH; lia|].
  assert (first hs = (length hs - 100)%nat) as Hf by done.
  set (i := ((n + 100 * (length hs) - first hs) mod 100)%nat).
  assert (hist_at s (Z.of_nat n) = hist_at s (Z.of_nat (first hs + i))) as ->.
  { unfold hist_at. do 2 f_equal. change MAX_HISTORY with 100. unfold i. rewrite Nat2Z.inj_add, Nat2Z.inj_mod.
    change (Z.of_nat 100) with 100. rewrite Zplus_mod_idemp_r. rewrite Nat2Z.inj_sub by lia.
    replace (Z.of_nat (first hs) + (Z.of_nat (n + 100 * length hs) - Z.of_nat (first hs))) with (Z.of_nat n + Z.of_nat (length hs) * 100) by lia.
    by rewrite Z_mod_plus_full. }
  assert (i < 100)%nat by (unfold i; apply Nat.mod_upper_bound; lia).
  rewrite (rg_at _ _ R) by (change MAX_HISTORY with 100; lia). apply (recent_None p (first hs) _ hs i Hr). lia.
Qed.
Lemma find_prefix_ring s hs p :
  ring s hs → find_prefix (Z.to_nat (history_count s)) p s = recent p (first hs) (length hs - first hs) hs.
Proof.
  intros R. rewrite (rg_count _ _ R), Nat2Z.id. assert (first hs ≤ length hs)%nat as Hf by (unfold first; lia).
  replace (length hs) with (first hs + (length hs - first hs))%nat at 1 by lia. rewrite (find_prefix_window s hs) by (done || lia).
  destruct (recent p (first hs) (length hs - first hs) hs) eqn:E; [done|]. by apply (find_prefix_old s hs).
Qed.

(** Commands as they are kept. *)
Definition kept (c : list Z * Z) : bool := negb (strlen c.1 =? 0).
Definition truncated (c : list Z * Z) : list Z * Z := (ssafestrcpy c.1 BUF_SIZE, c.2).
Definition commands (cs : list (list Z * Z)) : list (list Z * Z) := truncated <$> List.filter kept cs.
Definition add_all (cs : list (list Z * Z)) : smash := foldl (λ s c, add_history c.1 c.2 s) smash0 cs.
Lemma add_all_ring cs : ring (add_all cs) (commands cs).
Proof.
  induction cs as [|c cs IH] using rev_ind; [apply ring0|]. unfold add_all, commands in *.
  rewrite foldl_app, List.filter_app, fmap_app. cbn [foldl List.filter fmap list_fmap]. destruct (kept c) eqn:E; unfold kept in E.
  - apply add_history_ring; [done|]. by apply negb_true_iff, Z.eqb_neq in E.
  - cbn. rewrite app_nil_r. unfold add_history. apply negb_false_iff in E. by rewrite E.
Qed.
Lemma commands_short cs i : ssafestrcpy (nth i (commands cs) ([], 0)).1 BUF_SIZE = (nth i (commands cs) ([], 0)).1.
Proof.
  rewrite nth_lookup. destruct (commands cs !! i) as [c|] eqn:E; [|done]. cbn. unfold commands in E.
  rewrite list_lookup_fmap in E. destruct (List.filter kept cs !! i) as [c0|]; [|done]. injection E as <-.
  unfold truncated, ssafestrcpy. cbn [fst]. by rewrite take_take, Nat.min_id.
Qed.
Lemma recent_short cs p lo k c : recent p lo k (commands cs) = Some c → ssafestrcpy c BUF_SIZE = c.
Proof. induction k as [|k IH]; cbn [recent]; [done|]. case_bool_decide; [intros [= <-]; apply commands_short|done]. Qed.

(** After any commands, the shell's ring of 100 entries behaves as the
    list of all of them: history prints the last 100 with their numbers, in
    order; !! is the last command, !n the command with number n as long as it
    is among the last 100, and an error when there is none yet; !p is the most
    recent of the last 100 that starts with p. Empty commands are not kept and
    longer ones are cut to 255 characters. *)
Theorem history_refines cs :
  let s := add_all cs in
  let hs := commands cs in
  let n := length hs in
  (∀ t, show_history t s = window_lines t hs) ∧
  (∀ r, expand_history (33 :: 33 :: r) s = if bool_decide (n = 0%nat) then None else Some (nth (n - 1) hs ([], 0)).1) ∧
  (∀ d r i, 48 ≤ d ≤ 57 → atoi (d :: r) = Z.of_nat i →
    ((n ≤ i)%nat → expand_history (33 :: d :: r) s = None) ∧
    ((first hs ≤ i < n)%nat → expand_history (33 :: d :: r) s = Some (nth i hs ([], 0)).1)) ∧
  (∀ p, hd 0 p ≠ 33 → ¬ 48 ≤ hd 0 p ≤ 57 → expand_history (33 :: p) s = recent p (first hs) (n - first hs) hs).
Proof.
  intros s hs n. pose proof (add_all_ring cs) as R. fold s hs in R. pose proof (rg_count _ _ R) as Hc. fold n in Hc.
  split_and!.
  - intros t. by apply show_history_ring.
  - intros r. unfold expand_history. cbn [nth]. rewrite Z.eqb_refl, Hc. case_bool_decide as E.
    + by rewrite E.
    + rewrite (proj2 (Z.eqb_neq _ _)) by lia. replace (Z.of_nat n - 1) with (Z.of_nat (n - 1)) by lia.
      rewrite (rg_at _ _ R) by (fold n; change MAX_HISTORY with 100; lia). f_equal. apply commands_short.
  - intros d r i Hd Hi. unfold expand_history. cbn [nth drop]. rewrite (proj2 (Z.eqb_neq _ _)) by lia.
    rewrite (proj2 (Z.leb_le 48 d)), (proj2 (Z.leb_le d 57)) by lia. cbn [andb]. rewrite Hi, Hc, (proj2 (Z.ltb_ge _ _)) by lia.
    cbn [orb]. split; [intros; by rewrite (proj2 (Z.leb_le _ _)) by lia|]. intros [Hw Hn]. rewrite (proj2 (Z.leb_gt _ _)) by lia.
    unfold first in Hw. fold n in Hw. rewrite (rg_at _ _ R) by (fold n; change MAX_HISTORY with 100 in *; lia). f_equal. apply commands_short.
  - intros p Hp Hd. unfold expand_history. assert (nth 1 (33 :: p) 0 = hd 0 p) as -> by (by destruct p).
    rewrite (proj2 (Z.eqb_neq _ _)) by done. assert ((48 <=? hd 0 p) && (hd 0 p <=? 57) = false) as ->.
    { apply andb_false_iff. rewrite !Z.leb_gt. lia. }
    change (drop 1 (33 :: p)) with p. rewrite (find_prefix_ring s hs) by done. fold n.
    destruct (recent p (first hs) (n - first hs) hs) as [c|] eqn:E; [|done].
    change (Some (ssafestrcpy c BUF_SIZE) = Some c). f_equal. by apply (recent_short cs p (first hs) (n - first hs)).
Qed.
Lemma history_refines_witness :
  let s := add_all [(codes "ls" ++ [10], 3); ([], 0); (codes "cat f" ++ [10], 5)] in
  expand_history (codes "!!" ++ [10]) s = Some (codes "cat f" ++ [10]) ∧ expand_history (codes "!0" ++ [10]) s = Some (codes "ls" ++ [10]).
Proof.
  destruct (history_refines [(codes "ls" ++ [10], 3); ([], 0); (codes "cat f" ++ [10], 5)]) as (_ & H2 & H3 & _). split.
  - apply (H2 [10]).
  - apply (H3 48 [10] 0%nat); [lia|reflexivity|vm_compute; split; repeat constructor].
Defined.

(** The prefix of a line that was read includes its newline, so only a command
    that is the same up to the newline is found. *)
Example prefix_with_newline :
  let s := add_all [(codes "ls docs" ++ [10], 0); (codes "ls" ++ [10], 0); (codes "cat" ++ [10], 0)] in
  expand_history (codes "!ls" ++ [10]) s = Some (codes "ls" ++ [10]) ∧ expand_history (codes "!l" ++ [10]) s = None.
Proof. split; vm_compute; reflexivity. Qed.

(** ** Words *)

(** The maximal runs of characters that are not delimiters; [cur] is the run
    being read. *)
Fixpoint split_words (cur l : list Z) : list (list Z) :=
  match l with
  | [] => if bool_decide (cur = []) then [] else [cur]
  | c :: l => if among delims c then (if bool_decide (cur = []) then split_words [] l else cur :: split_words [] l)
              else split_words (cur ++ [c]) l
  end.
Lemma split_words_skip l : split_words [] (drop_while (among delims) l) = split_words [] l.
Proof. induction l as [|c l IH]; [done|]. cbn [drop_while split_words]. destruct (among delims c) eqn:E; [done|]. cbn [split_words]. by rewrite E. Qed.
Lemma split_words_run cur l :
  cur ++ take_while not_delim l ≠ [] →
  split_words cur l = (cur ++ take_while not_delim l) ::
    match drop (length (take_while not_delim l)) l with [] => [] | _ :: rest => split_words [] rest end.
Proof.
  revert cur. induction l as [|c l IH]; intros cur Hne; cbn [take_while split_words] in *; unfold not_delim in *.
  - rewrite app_nil_r in *. by rewrite bool_decide_false.
  - destruct (among delims c) eqn:E; cbn [negb length drop] in *.
    + rewrite app_nil_r in *. by rewrite bool_decide_false.
    + rewrite IH by (by destruct cur). by rewrite <- app_assoc.
Qed.
Lemma drop_while_hd p l c r : drop_while p l = c :: r → p c = false.
Proof. induction l as [|d l IH]; cbn [drop_while]; [done|]. destruct (p d) eqn:E; [done|]. by intros [= <- <-]. Qed.
Lemma drop_while_length p l : (length (drop_while p l) ≤ length l)%nat.
Proof. induction l as [|d l IH]; cbn [drop_while]; [done|]. destruct (p d); cbn; lia. Qed.

(** The arguments of a line are its words. *)
Theorem tokens_words fuel l : (length l < fuel)%nat → tokens fuel (Some l) = split_words [] l.
Proof.
  revert l. induction fuel as [|fuel IH]; intros l Hl; [lia|]. cbn [tokens next_token].
  rewrite <- split_words_skip. pose proof (drop_while_length (among delims) l) as Hd.
  destruct (drop_while (among delims) l) as [|c r] eqn:E; [done|]. apply drop_while_hd in E. rewrite bool_decide_false by done.
  assert ([] ++ take_while not_delim (c :: r) ≠ []) as Hne by (cbn; unfold not_delim; by rewrite E).
  rewrite (split_words_run [] (c :: r) Hne). cbn [app]. assert (0 < length (take_while not_delim (c :: r)))%nat as Hp.
  { cbn. unfold not_delim. rewrite E. cbn. lia. }
  destruct (drop (length (take_while not_delim (c :: r))) (c :: r)) as [|d rest] eqn:Er; f_equal.
  - destruct fuel; [done|]. reflexivity.
  - apply IH. apply (f_equal length) in Er. rewrite length_drop in Er. cbn [length] in *. lia.
Qed.
