(* ===== verification/Tools.v ===== *)
(** * user: the small programs (definitions)

    A program is a [prog] of system calls, as for the shells.  What a file or
    standard input holds is data: an [input] is the results of successive
    [read]s, which end with 0, or with an error when [in_fails] is set.  A
    filter that reads one character at a time takes the characters.

    Of each program its [main] and its functions are here: cat, catlines,
    catlines1, catlines2, echo, fnr, init, kill, leetify, ln, ls, mkdir, nice,
    rm, sort, tolower, tracer and wc. *)

From S2P Require Import CString ULib Prelude Riscv Printf Console Fs UPrintf Sh.

Record input := mk_input { in_chunks : list (list Z); in_fails : bool }.
Definition say_exit (fd : Z) (text : list Z) (status : Z) : prog := Write fd text (Exit status).
Definition line (fmt : string) (args : list varg) : list Z := vprintf fmt args ++ [10].

Section tools.
(** What reading each file gives. *)
Context (files : list Z → input) (stdin : input).

(** ** wc.c *)

Record counts := mk_counts { c_l : Z; c_w : Z; c_c : Z; c_inword : bool }.
Definition wc_blanks : list Z := [32; 13; 9; 10; 11].
Definition wc_char (s : counts) (ch : Z) : counts :=
  let l := if ch =? 10 then c_l s + 1 else c_l s in
  let c := c_c s + 1 in
  if among wc_blanks ch then mk_counts l (c_w s) c false
  else if negb (c_inword s) then mk_counts l (c_w s + 1) c true
  else mk_counts l (c_w s) c true.
Fixpoint wc_loop (chunks : list (list Z)) (s : counts) : counts :=
  match chunks with [] => s | buf :: chunks => wc_loop chunks (foldl wc_char s buf) end.
Definition wc (inp : input) (name : list Z) (k : prog) : prog :=
  let s := wc_loop (in_chunks inp) (mk_counts 0 0 0 false) in
  if in_fails inp then say_exit 1 (codes "wc: read error" ++ [10]) 1
  else Write 1 (line "%d %d %d %s" [VInt (c_l s); VInt (c_w s); VInt (c_c s); VStr (Some name)]) k.
Fixpoint wc_files (args : list (list Z)) : prog :=
  match args with
  | [] => Exit 0
  | path :: args => Open path O_RDONLY (λ fd,
      if fd <? 0 then say_exit 1 (line "wc: cannot open %s" [VStr (Some path)]) 1
      else wc (files path) path (Close fd (λ _, wc_files args)))
  end.
Definition wc_main (argv : list (list Z)) : prog :=
  match argv with
  | _ :: ((_ :: _) as args) => wc_files args
  | _ => wc stdin [] (Exit 0)
  end.

(** ** cat.c *)

Fixpoint cat_loop (chunks : list (list Z)) (k : prog) : prog :=
  match chunks with
  | [] => k
  | buf :: chunks => Sys "write" [1] [buf] (λ n,
      if negb (n =? Z.of_nat (length buf)) then say_exit 2 (codes "cat: write error" ++ [10]) 1 else cat_loop chunks k)
  end.
Definition cat (inp : input) (k : prog) : prog :=
  cat_loop (in_chunks inp) (if in_fails inp then say_exit 2 (codes "cat: read error" ++ [10]) 1 else k).
Fixpoint cat_files (args : list (list Z)) : prog :=
  match args with
  | [] => Exit 0
  | path :: args => Open path O_RDONLY (λ fd,
      if fd <? 0 then say_exit 2 (line "cat: cannot open %s" [VStr (Some path)]) 1
      else cat (files path) (Close fd (λ _, cat_files args)))
  end.
Definition cat_main (argv : list (list Z)) : prog :=
  match argv with
  | _ :: ((_ :: _) as args) => cat_files args
  | _ => cat stdin (Exit 0)
  end.

(** ** catlines.c, catlines1.c, catlines2.c *)

(** [fgets] of catlines.c, one [read] for each character: the line and the
    characters left. *)
Fixpoint cl_fgets (n : nat) (inp : list Z) : list Z * list Z :=
  match n with
  | O => ([], inp)
  | S n => match inp with
           | [] => ([], [])
           | c :: inp => if eol c then ([c], inp) else let r := cl_fgets n inp in (c :: r.1, r.2)
           end
  end.
(** [fgets1]: [rem] is [internal[pos..len)], [chunks] what [read] will give. *)
Fixpoint fgets1 (n : nat) (rem : list Z) (chunks : list (list Z)) : list Z * (list Z * list (list Z)) :=
  match n with
  | O => ([], (rem, chunks))
  | S n =>
      let next c rem chunks :=
        if eol c then ([c], (rem, chunks)) else let r := fgets1 n rem chunks in (c :: r.1, r.2) in
      match rem with
      | c :: rem => next c rem chunks
      | [] => match chunks with
              | (c :: rem) :: chunks => next c rem chunks
              | [] :: chunks => ([], ([], chunks))
              | [] => ([], ([], []))
              end
      end
  end.
Definition cl_line (i : Z) (buf : list Z) : list Z := vprintf "Line %d: %s" [VInt i; VStr (Some (until_nul buf))].
Fixpoint catlines_loop (fuel : nat) (i : Z) (inp : list Z) (k : prog) : prog :=
  match fuel with
  | O => OutOfFuel
  | S fuel => let r := cl_fgets 127 inp in
              if (length r.1 =? 0)%nat then k else Write 1 (cl_line i r.1) (catlines_loop fuel (i + 1) r.2 k)
  end.
Fixpoint catlines1_loop (fuel : nat) (i : Z) (rem : list Z) (chunks : list (list Z)) (k : prog) : prog :=
  match fuel with
  | O => OutOfFuel
  | S fuel => let r := fgets1 127 rem chunks in
              if (length r.1 =? 0)%nat then k else Write 1 (cl_line i r.1) (catlines1_loop fuel (i + 1) r.2.1 r.2.2 k)
  end.
(** catlines.c does not check the result of [open]; [files] is empty for a
    file that cannot be read. *)
Definition catlines_main (argv : list (list Z)) : prog :=
  match argv with
  | _ :: path :: _ => Open path O_RDONLY (λ _,
      let inp := concat (in_chunks (files path)) in catlines_loop (S (length inp)) 0 inp (Exit 0))
  | _ => say_exit 2 (line "Usage: %s filename" [VStr (hd_error argv)]) 1
  end.
Definition catlines1_main (argv : list (list Z)) : prog :=
  match argv with
  | _ :: path :: _ => Open path O_RDONLY (λ fd,
      if fd <? 0 then say_exit 2 (line "catlines: cannot open %s" [VStr (Some path)]) 1
      else let chunks := in_chunks (files path) in
           catlines1_loop (S (length (concat chunks))) 0 [] chunks (Close fd (λ _, Exit 0)))
  | _ => say_exit 2 (line "Usage: %s filename" [VStr (hd_error argv)]) 1
  end.

(** catlines2.c is catlines1.c with [fgets1] named [fgets2]. *)
Definition fgets2 : nat → list Z → list (list Z) → list Z * (list Z * list (list Z)) := fgets1.
Definition catlines2_main : list (list Z) → prog := catlines1_main.

(** ** echo.c, kill.c, ln.c, mkdir.c, rm.c, nice.c *)

Fixpoint echo_args (args : list (list Z)) : prog :=
  match args with
  | [] => Exit 0
  | [a] => Write 1 a (Write 1 [10] (Exit 0))
  | a :: args => Write 1 a (Write 1 [32] (echo_args args))
  end.
Definition echo_main (argv : list (list Z)) : prog := echo_args (tl argv).

Fixpoint kill_args (args : list (list Z)) : prog :=
  match args with [] => Exit 0 | a :: args => Sys "kill" [atoi a] [] (λ _, kill_args args) end.
Definition kill_main (argv : list (list Z)) : prog :=
  match argv with
  | _ :: ((_ :: _) as args) => kill_args args
  | _ => say_exit 2 (codes "usage: kill pid..." ++ [10]) 1
  end.
Definition ln_main (argv : list (list Z)) : prog :=
  match argv with
  | [_; old; new] => Sys "link" [] [old; new] (λ r,
      if r <? 0 then say_exit 2 (line "link %s %s: failed" [VStr (Some old); VStr (Some new)]) 0 else Exit 0)
  | _ => say_exit 2 (codes "Usage: ln old new" ++ [10]) 1
  end.
Fixpoint mkdir_args (args : list (list Z)) : prog :=
  match args with
  | [] => Exit 0
  | a :: args => Sys "mkdir" [] [a] (λ r,
      if r <? 0 then say_exit 2 (line "mkdir: %s failed to create" [VStr (Some a)]) 0 else mkdir_args args)
  end.
Definition mkdir_main (argv : list (list Z)) : prog :=
  match argv with
  | _ :: ((_ :: _) as args) => mkdir_args args
  | _ => say_exit 2 (codes "Usage: mkdir files..." ++ [10]) 1
  end.
Fixpoint rm_args (args : list (list Z)) : prog :=
  match args with
  | [] => Exit 0
  | a :: args => Sys "unlink" [] [a] (λ r,
      if r <? 0 then say_exit 2 (line "rm: %s failed to delete" [VStr (Some a)]) 0 else rm_args args)
  end.
Definition rm_main (argv : list (list Z)) : prog :=
  match argv with
  | _ :: ((_ :: _) as args) => rm_args args
  | _ => say_exit 2 (codes "Usage: rm files..." ++ [10]) 1
  end.
Definition nice_main (argv : list (list Z)) : prog :=
  match argv with
  | _ :: a :: ((cmd :: _) as args) =>
      let level := atoi a in
      let level := if level <? 0 then 0 else level in
      let level := if 3 <? level then 3 else level in
      Sys "setnice" [level] [] (λ r,
        if r <? 0 then say_exit 2 (codes "setnice failed" ++ [10]) 1
        else Exec cmd args (say_exit 2 (line "exec %s failed" [VStr (Some cmd)]) 1))
  | _ => say_exit 2 (codes "Usage: nice <level> <command> [args...]" ++ [10]) 1
  end.
End tools.

(** ** tolower.c *)

Definition to_lower (c : Z) : Z := if (65 <=? c) && (c <=? 90) then c - 65 + 97 else c.
Fixpoint tolower_main (inp : list Z) : prog :=
  match inp with [] => Exit 0 | c :: inp => Write 1 [to_lower c] (tolower_main inp) end.

(** ** fnr.c *)

(** [for(k = 0; *p && *p == *q && k < find_len; ++k) p++, q++;] *)
Fixpoint match_len (p q : list Z) (find_len : nat) : nat :=
  match find_len with
  | O => 0
  | S n => let c := hd 0 p in
           if nz c && (c =? hd 0 q) then S (match_len (tl p) (tl q) n) else 0
  end.
(** The array of the line is the string and its NUL.  A copy of bytes past
    the NUL of [repl], and a position past the array, are [None]. *)
Definition overwrite (j : nat) (bytes buf : list Z) : list Z := take j buf ++ bytes ++ drop (j + length bytes) buf.
Definition fnr_at (j : nat) (find : list Z) (repl : option (list Z)) (buf : list Z) : option (list Z) :=
  let n := length find in
  let k := match_len (drop j buf) (find ++ [0]) n in
  if (k =? n)%nat then
    r ← repl;
    if (S (length r) <? n)%nat then None else Some (overwrite j (take n (r ++ [0])) buf)
  else Some buf.
(** [for(j = 0; j < strlen(line) - find_len; ++j)], an unsigned comparison. *)
Fixpoint fnr_pos (fuel : nat) (j : nat) (find : list Z) (repl : option (list Z)) (buf : list Z) : option (list Z) :=
  if negb (Z.of_nat j <? u32 (strlen (until_nul buf) - strlen find)) then Some buf
  else match fuel with
       | O => None
       | S fuel => buf ← fnr_at j find repl buf; fnr_pos fuel (S j) find repl buf
       end.
Fixpoint fnr_pairs (args : list (list Z)) (buf : list Z) : option (list Z) :=
  match args with
  | [] => Some buf
  | find :: rest =>
      let repl := hd_error rest in
      let rest buf := match rest with [] => Some buf | _ :: args => fnr_pairs args buf end in
      if strlen (until_nul buf) <? strlen find then rest buf
      else buf ← fnr_pos (length buf) 0 find repl buf; rest buf
  end.
Fixpoint fnr_lines (fuel : nat) (args : list (list Z)) (inp : list Z) : prog :=
  match fuel with
  | O => OutOfFuel
  | S fuel =>
      match getline (Some []) 512 inp with
      | None => OutOfFuel
      | Some (None, _) => Exit 0
      | Some (Some (l, _), inp) =>
          if (length l =? 0)%nat then Exit 0 else
          match fnr_pairs args (l ++ [0]) with
          | None => Fault
          | Some buf => Write 1 (until_nul buf) (fnr_lines fuel args inp)
          end
      end
  end.
Definition fnr_main (argv : list (list Z)) (inp : list Z) : prog := fnr_lines (S (length inp)) (tl argv) inp.

(** ** sort.c *)

Definition MAXLINES : nat := 256.
Definition MAXLEN : Z := 128.
(** [gets] never returns NULL: [MAXLINES] lines, whatever the input. *)
Fixpoint sort_stdin (n : nat) (inp : list Z) : list (list Z) :=
  match n with O => [] | S n => let r := ULib.gets MAXLEN inp in until_nul r.1 :: sort_stdin n r.2 end.
(** The lines of one [read], with room for [room] more. *)
Fixpoint chunk_lines (fuel room : nat) (p : list Z) : list (list Z) :=
  match fuel, room, p with
  | S fuel, S room, _ :: _ =>
      match strchr p 10 with
      | Some q => take q p :: chunk_lines fuel room (drop (S q) p)
      | None => [p]
      end
  | _, _, _ => []
  end.
Fixpoint sort_file (chunks : list (list Z)) (lines : list (list Z)) : list (list Z) :=
  match chunks with
  | [] => lines
  | buf :: chunks =>
      let p := until_nul buf in
      sort_file chunks (lines ++ chunk_lines (length p) (MAXLINES - length lines) p)
  end.
Definition swap_needed (reverse : bool) (a b : list Z) : bool :=
  let cmp := strcmp a b in (reverse && (cmp <? 0)) || (negb reverse && (0 <? cmp)).
Definition sort_step (reverse : bool) (i j : nat) (lines : list (list Z)) : list (list Z) :=
  let a := nth i lines [] in
  let b := nth j lines [] in
  if swap_needed reverse a b then <[j := a]> (<[i := b]> lines) else lines.
Fixpoint sort_inner (reverse : bool) (i k j : nat) (lines : list (list Z)) : list (list Z) :=
  match k with O => lines | S k => sort_inner reverse i k (S j) (sort_step reverse i j lines) end.
Fixpoint sort_outer (reverse : bool) (k i : nat) (lines : list (list Z)) : list (list Z) :=
  match k with
  | O => lines
  | S k => sort_outer reverse k (S i) (sort_inner reverse i (length lines - S i) (S i) lines)
  end.
Definition sort_lines (reverse : bool) (lines : list (list Z)) : list (list Z) := sort_outer reverse (length lines) 0 lines.
(** [prev] is [lines[i-1]]. *)
Fixpoint sort_print (unique : bool) (prev : option (list Z)) (lines : list (list Z)) : prog :=
  match lines with
  | [] => Exit 0
  | l :: lines =>
      let skip := unique && match prev with None => false | Some p => strcmp l p =? 0 end in
      if skip then sort_print unique (Some l) lines else Write 1 (l ++ [10]) (sort_print unique (Some l) lines)
  end.
Section sort.
Context (files : list Z → input) (stdin : list Z).
Definition sort_end (unique reverse : bool) (lines : list (list Z)) : prog := sort_print unique None (sort_lines reverse lines).
Fixpoint sort_flags (args : list (list Z)) (unique reverse : bool) (filename : option (list Z)) : prog :=
  match args with
  | a :: args =>
      if hd 0 a =? 45 then
        if strcmp a (codes "-u") =? 0 then sort_flags args true reverse filename
        else if strcmp a (codes "-r") =? 0 then sort_flags args unique true filename
        else say_exit 2 (line "sort: unknown flag %s" [VStr (Some a)]) 1
      else sort_flags args unique reverse (Some a)
  | [] =>
      match filename with
      | None => sort_end unique reverse (sort_stdin MAXLINES stdin)
      | Some path => Open path 0 (λ fd,
          if fd <? 0 then say_exit 2 (line "sort: cannot open %s" [VStr (Some path)]) 1
          else Close fd (λ _, sort_end unique reverse (sort_file (in_chunks (files path)) [])))
      end
  end.
Definition sort_main (argv : list (list Z)) : prog := sort_flags (tl argv) false false None.
End sort.

(** ** ls.c *)

(** The characters after the last slash. *)
Fixpoint after_slash (path : list Z) : list Z :=
  match path with
  | [] => []
  | c :: r => if bool_decide (SLASH ∈ path) then after_slash r else path
  end.
Definition fmtname (path : list Z) : list Z :=
  let p := after_slash path in
  if (DIRSIZ <=? length p)%nat then p else p ++ replicate (DIRSIZ - length p) 32.
Record st := mk_st { st_type : Z; st_ino : Z; st_size : Z }.
Section ls.
(** What [fstat] and [stat] return, and the entries read from a directory:
    inode number and name field. *)
Context (fstat stat : list Z → option st) (entries : list Z → list (Z * list Z)).
Definition ls_line (name : list Z) (s : st) : list Z :=
  line "%s %d %d %d" [VStr (Some (fmtname name)); VInt (st_type s); VInt (st_ino s); VInt (st_size s)].
Fixpoint ls_entries (path : list Z) (es : list (Z * list Z)) (k : prog) : prog :=
  match es with
  | [] => k
  | (inum, name) :: es =>
      if inum =? 0 then ls_entries path es k
      else let buf := path ++ [SLASH] ++ until_nul (take DIRSIZ name) in
           match stat buf with
           | None => Write 1 (line "ls: cannot stat %s" [VStr (Some buf)]) (ls_entries path es k)
           | Some s => Write 1 (ls_line buf s) (ls_entries path es k)
           end
  end.
Definition ls (path : list Z) (k : prog) : prog :=
  Open path O_RDONLY (λ fd,
    if fd <? 0 then Write 2 (line "ls: cannot open %s" [VStr (Some path)]) k
    else match fstat path with
    | None => Write 2 (line "ls: cannot stat %s" [VStr (Some path)]) (Close fd (λ _, k))
    | Some s =>
        let close := Close fd (λ _, k) in
        if (st_type s =? T_DEVICE) || (st_type s =? T_FILE) then Write 1 (ls_line path s) close
        else if st_type s =? T_DIR then
          if 512 <? strlen path + 1 + Z.of_nat DIRSIZ + 1 then Write 1 (codes "ls: path too long" ++ [10]) close
          else ls_entries path (entries path) close
        else close
    end).
Fixpoint ls_args (args : list (list Z)) : prog :=
  match args with [] => Exit 0 | a :: args => ls a (ls_args args) end.
Definition ls_main (argv : list (list Z)) : prog :=
  match argv with _ :: ((_ :: _) as args) => ls_args args | _ => ls [46] (Exit 0) end.
End ls.

(** ** leetify.c *)

Definition spawn (prog_ : list Z) (argv : list (list Z)) (fd_in fd_out : Z) (k : Z → prog) : prog :=
  Fork (λ pid,
    if pid <? 0 then Write 2 (codes "leetify: fork failed" ++ [10]) (k (-1))
    else if pid =? 0 then
      let run := Exec prog_ argv (say_exit 2 (line "exec %s failed" [VStr (Some prog_)]) 1) in
      let out := if negb (fd_out =? 1) then
          Close 1 (λ _, Dup fd_out (λ _, if 2 <? fd_out then Close fd_out (λ _, run) else run)) else run in
      if negb (fd_in =? 0) then
        Close 0 (λ _, Dup fd_in (λ _, if 2 <? fd_in then Close fd_in (λ _, out) else out))
      else out
    else k pid).
Definition make_pipe (k : Z * Z → prog) : prog :=
  Pipe (λ r, match r with None => say_exit 2 (codes "leetify: pipe failed" ++ [10]) 1 | Some p => k p end).
Definition or_exit (pid : Z) (k : prog) : prog := if pid <? 0 then Exit 1 else k.
Definition fnr1_argv : list (list Z) := codes <$> ["fnr"; "the"; "teh"; "a"; "4"; "e"; "3"; "i"; "!"].
Definition fnr2_argv : list (list Z) := codes <$> ["fnr"; "l"; "1"; "o"; "0"; "s"; "5"].
Definition leetify_main (argv : list (list Z)) : prog :=
  match argv with
  | _ :: infile :: rest =>
      let outfile := hd_error rest in
      make_pipe (λ p1, make_pipe (λ p2, make_pipe (λ p3,
      spawn (codes "cat") [codes "cat"; infile] 0 p1.2 (λ pid, or_exit pid (
      Close p1.2 (λ _,
      spawn (codes "tolower") [codes "tolower"] p1.1 p2.2 (λ pid, or_exit pid (
      Close p1.1 (λ _, Close p2.2 (λ _,
      spawn (codes "fnr") fnr1_argv p2.1 p3.2 (λ pid, or_exit pid (
      Close p2.1 (λ _, Close p3.2 (λ _,
      let last (out : Z) (close_out : prog → prog) :=
        spawn (codes "fnr") fnr2_argv p3.1 out (λ pid,
          if pid <? 0 then close_out (Exit 1)
          else Close p3.1 (λ _, close_out (Wait (λ _, Wait (λ _, Wait (λ _, Wait (λ _, Exit 0))))))) in
      match outfile with
      | None => last 1 (λ k, k)
      | Some path => Open path (Z.lor (Z.lor O_WRONLY O_CREATE) O_TRUNC) (λ fd_out,
          if fd_out <? 0 then Write 2 (line "leetify: cannot open %s" [VStr (Some path)])
            (Wait (λ _, Wait (λ _, Wait (λ _, Exit 1))))
          else last fd_out (λ k, Close fd_out (λ _, k)))
      end))))))))))))))
  | _ => say_exit 2 (codes "usage: leetify input-file [output-file]" ++ [10]) 1
  end.

(** ** init.c, tracer.c *)

Definition CONSOLE : Z := 1.
(** [for(;;){ wpid = wait(0); ... }]: [restart] when the shell exited. *)
Fixpoint init_wait (fuel : nat) (pid : Z) (restart : prog) : prog :=
  match fuel with
  | O => OutOfFuel
  | S fuel => Wait (λ wpid,
      if wpid =? pid then restart
      else if wpid <? 0 then say_exit 1 (codes "init: wait returned an error" ++ [10]) 1
      else init_wait fuel pid restart)
  end.
Fixpoint init_loop (fuel : nat) : prog :=
  match fuel with
  | O => OutOfFuel
  | S n => Write 1 (codes "init: starting sh" ++ [10]) (Fork (λ pid,
      if pid <? 0 then say_exit 1 (codes "init: fork failed" ++ [10]) 1
      else if pid =? 0 then Exec (codes "smash") [codes "sh"] (say_exit 1 (codes "init: exec sh failed" ++ [10]) 1)
      else init_wait fuel pid (init_loop n)))
  end.
Definition init_main (fuel : nat) : prog :=
  let start := Dup 0 (λ _, Dup 0 (λ _, init_loop fuel)) in
  Open (codes "console") O_RDWR (λ fd,
    if fd <? 0 then Sys "mknod" [CONSOLE; 0] [codes "console"] (λ _, Open (codes "console") O_RDWR (λ _, start)) else start).

Definition tracer_main (argv : list (list Z)) : prog :=
  match argv with
  | _ :: ((cmd :: _) as args) =>
      Fork (λ pid,
        if pid <? 0 then say_exit 1 (codes "tracer: fork failed" ++ [10]) 1
        else if pid =? 0 then Sys "strace_on" [] [] (λ r,
          if r <? 0 then say_exit 1 (codes "tracer: strace_on failed" ++ [10]) 1
          else Exec cmd args (say_exit 1 (codes "tracer: exec failed" ++ [10]) 1))
        else Wait (λ _, Exit 0))
  | _ => say_exit 1 (codes "usage: tracer program [args...]" ++ [10]) 1
  end.
