(* ===== verification/ToolsProps.v ===== *)
(** * user: what the small programs compute

    [wc] counts lines, words and characters whatever the sizes of the reads;
    [sort] sorts; the buffered [fgets1] of catlines1.c reads the lines that
    the unbuffered [fgets] of catlines.c reads. *)

From S2P Require Import CString ULib Prelude Riscv Printf Console Fs UPrintf Sh ShRun Tools.

(** ** sort *)

Definition str_ok (s : list Z) : Prop := Forall (λ c, 0 < c) s.
Lemma strcmp_antisym a b : strcmp b a = - strcmp a b.
Proof.
  revert b. induction a as [|x a IH]; intros [|y b]; cbn [strcmp hd]; try lia.
  rewrite (Z.eqb_sym y x). destruct (x =? y); [apply IH|lia].
Qed.
Lemma strcmp_trans a b c :
  str_ok a → str_ok b → str_ok c → strcmp a b ≤ 0 → strcmp b c ≤ 0 → strcmp a c ≤ 0.
Proof.
  revert b c. induction a as [|x a IH]; intros [|y b] [|z c] Ha Hb Hc; cbn [strcmp hd]; try lia;
    try (apply Forall_cons in Ha as [Hx Ha]); try (apply Forall_cons in Hb as [Hy Hb]); try (apply Forall_cons in Hc as [Hz Hc]); try lia.
  destruct (x =? y) eqn:E1, (y =? z) eqn:E2, (x =? z) eqn:E3; zbool; try lia. by apply IH.
Qed.

(** [a] may stand before [b]. *)
Definition before (r : bool) (a b : list Z) : Prop := if r then 0 ≤ strcmp a b else strcmp a b ≤ 0.
Lemma swap_before r a b : if swap_needed r a b then before r b a else before r a b.
Proof.
  unfold swap_needed, before. pose proof (strcmp_antisym a b). destruct r; cbn [andb orb negb].
  - rewrite orb_false_r. destruct (_ <? 0) eqn:E; zbool; lia.
  - destruct (0 <? _) eqn:E; zbool; lia.
Qed.
Lemma before_refl r a : before r a a.
Proof. pose proof (strcmp_antisym a a). unfold before. destruct r; lia. Qed.
Lemma before_trans r a b c : str_ok a → str_ok b → str_ok c → before r a b → before r b c → before r a c.
Proof.
  unfold before. intros Ha Hb Hc. destruct r; [|by apply strcmp_trans]. intros H1 H2.
  pose proof (strcmp_trans c b a Hc Hb Ha). pose proof (strcmp_antisym a b). pose proof (strcmp_antisym b c). pose proof (strcmp_antisym a c). lia.
Qed.

Definition at_ (l : list (list Z)) (i : nat) : list Z := nth i l [].
Lemma at_lookup l i : (i < length l)%nat → l !! i = Some (at_ l i).
Proof. intros Hi. destruct (lookup_lt_is_Some_2 l i Hi) as [x E]. unfold at_. by rewrite E, nth_lookup, E. Qed.
Lemma at_ok l i : Forall str_ok l → str_ok (at_ l i).
Proof.
  intros Hl. unfold at_. rewrite nth_lookup. destruct (l !! i) as [x|] eqn:E; [|by constructor].
  by apply (proj1 (Forall_lookup _ _) Hl i).
Qed.

Section step.
Context (r : bool) (i j : nat) (l : list (list Z)) (Hij : (i < j < length l)%nat).
Let l' : list (list Z) := sort_step r i j l.
Lemma step_perm : l' ≡ₚ l ∧ length l' = length l.
Proof using Hij.
  unfold l', sort_step. destruct (swap_needed _ _ _); [|done]. rewrite !length_insert. split; [|done].
  apply Permutation_insert_swap; apply at_lookup; lia.
Qed.
Lemma step_at m : at_ l' m = if swap_needed r (at_ l i) (at_ l j) then
  (if decide (m = i) then at_ l j else if decide (m = j) then at_ l i else at_ l m) else at_ l m.
Proof using Hij.
  unfold l', sort_step. fold (at_ l i) (at_ l j). destruct (swap_needed _ _ _); [|done]. unfold at_ at 1. rewrite nth_lookup.
  destruct (decide (m = j)) as [->|Hj].
  - rewrite list_lookup_insert_eq by (rewrite length_insert; lia). by rewrite decide_False by lia.
  - rewrite list_lookup_insert_ne by done. case_decide as Hi.
    + subst m. by rewrite list_lookup_insert_eq by lia.
    + rewrite list_lookup_insert_ne by done. unfold at_. by rewrite nth_lookup.
Qed.
(** The smaller of the two comes first. *)
Lemma step_first : before r (at_ l' i) (at_ l' j) ∧ before r (at_ l' i) (at_ l i).
Proof using Hij.
  rewrite !step_at. pose proof (swap_before r (at_ l i) (at_ l j)) as Hs. destruct (swap_needed _ _ _).
  - repeat case_decide; (lia || done).
  - split; [done|apply before_refl].
Qed.
Lemma step_all (Q : list Z → Prop) :
  (∀ m, (i ≤ m < length l)%nat → Q (at_ l m)) → ∀ m, (i ≤ m < length l)%nat → Q (at_ l' m).
Proof using Hij. intros HQ m Hm. rewrite step_at. repeat case_match; apply HQ; lia. Qed.
End step.

Lemma inner_ok r i k j l :
  Forall str_ok l → (i < j)%nat → (j + k = length l)%nat → (∀ m, (i < m < j)%nat → before r (at_ l i) (at_ l m)) →
  let l' := sort_inner r i k j l in
  l' ≡ₚ l ∧ length l' = length l ∧ (∀ m, (m < i)%nat → at_ l' m = at_ l m) ∧
  (∀ Q : list Z → Prop, (∀ m, (i ≤ m < length l)%nat → Q (at_ l m)) → ∀ m, (i ≤ m < length l)%nat → Q (at_ l' m)) ∧
  ∀ m, (i < m < length l)%nat → before r (at_ l' i) (at_ l' m).
Proof.
  revert j l. induction k as [|k IH]; intros j l Hs Hij Hk Hb; cbn [sort_inner].
  { split_and!; [done..|]. intros m Hm. apply Hb. lia. }
  assert (i < j < length l)%nat as Hr by lia. set (l1 := sort_step r i j l).
  destruct (step_perm r i j l Hr) as [P1 L1]. fold l1 in P1, L1. destruct (step_first r i j l Hr) as [F1 F2]. fold l1 in F1, F2.
  assert (Forall str_ok l1) as Hs1 by (by rewrite P1).
  destruct (IH (S j) l1) as (P & L & A & Q & B); [done|lia|lia| |].
  { intros m Hm. destruct (decide (m = j)) as [->|Hne]; [done|].
    assert (at_ l1 m = at_ l m) as ->.
    { unfold l1. rewrite step_at by done. rewrite !decide_False by lia. by destruct (swap_needed _ _ _). }
    apply (before_trans r _ (at_ l i)); [by apply at_ok..|done|]. apply Hb. lia. }
  split_and!.
  - by rewrite P.
  - by rewrite L.
  - intros m Hm. rewrite A by done. unfold l1. rewrite step_at by done. rewrite !decide_False by lia. by destruct (swap_needed _ _ _).
  - intros R HR. rewrite L1 in Q. apply Q. by apply step_all.
  - intros m Hm. apply B. lia.
Qed.
Lemma outer_ok r k i l :
  Forall str_ok l → (i + k = length l)%nat → (∀ p m, (p < i)%nat → (p < m < length l)%nat → before r (at_ l p) (at_ l m)) →
  let l' := sort_outer r k i l in
  l' ≡ₚ l ∧ ∀ p m, (p < m < length l)%nat → before r (at_ l' p) (at_ l' m).
Proof.
  revert i l. induction k as [|k IH]; intros i l Hs Hk Hb; cbn [sort_outer].
  { split; [done|]. intros p m Hm. apply Hb; lia. }
  destruct (inner_ok r i (length l - S i) (S i) l) as (P & L & A & Q & B); [done|lia|lia|intros; lia|].
  set (l1 := sort_inner _ _ _ _ _) in *. destruct (IH (S i) l1) as [P2 B2].
  - by rewrite P.
  - lia.
  - intros p m Hp Hm. rewrite L in Hm. destruct (decide (p = i)) as [->|Hne]; [by apply B|]. rewrite (A p) by lia.
    destruct (decide (m < i)%nat); [rewrite A by done; apply Hb; lia|].
    apply (Q (before r (at_ l p))); [|lia]. intros q Hq. apply Hb; lia.
  - rewrite L in B2. split; [by rewrite P2|done].
Qed.

(** Sort puts the lines in order: the result is a permutation of the lines
    in which each line compares at most equal to every later one, at least
    equal with -r. *)
Theorem sort_sorts reverse lines :
  Forall str_ok lines →
  let sorted := sort_lines reverse lines in
  sorted ≡ₚ lines ∧
  ∀ i j a b, (i < j)%nat → sorted !! i = Some a → sorted !! j = Some b →
    if reverse then 0 ≤ strcmp a b else strcmp a b ≤ 0.
Proof.
  intros Hs sorted. destruct (outer_ok reverse (length lines) 0 lines Hs) as [P B]; [done|intros; lia|].
  fold (sort_lines reverse lines) sorted in P, B. split; [done|]. intros i j a b Hij Ha Hb.
  pose proof (lookup_lt_Some _ _ _ Hb) as Hj. rewrite P in Hj. specialize (B i j ltac:(lia)). unfold at_ in B.
  by rewrite !nth_lookup, Ha, Hb in B.
Qed.
Lemma sort_sorts_witness :
  sort_lines false [codes "pear"; codes "apple"; codes "fig"; codes "apple"] = [codes "apple"; codes "apple"; codes "fig"; codes "pear"] ∧
  sort_lines false [codes "pear"; codes "apple"; codes "fig"; codes "apple"] ≡ₚ [codes "pear"; codes "apple"; codes "fig"; codes "apple"].
Proof.
  split; [vm_compute; reflexivity|]. apply (sort_sorts false [codes "pear"; codes "apple"; codes "fig"; codes "apple"]).
  repeat apply Forall_cons_2; try apply Forall_nil_2; done.
Defined.

(** ** catlines *)

Definition nonempty (l : list Z) : Prop := l ≠ [].
(** The buffered read continues where the unbuffered one does. *)
Lemma fgets1_fgets n rem chunks :
  Forall nonempty chunks →
  let r := fgets1 n rem chunks in
  let f := cl_fgets n (rem ++ concat chunks) in
  r.1 = f.1 ∧ r.2.1 ++ concat r.2.2 = f.2 ∧ Forall nonempty r.2.2.
Proof.
  revert rem chunks. induction n as [|n IH]; intros rem chunks Hc; [done|]. cbn [fgets1 cl_fgets].
  assert (∀ c rem chunks, Forall nonempty chunks →
    let r := if eol c then ([c], (rem, chunks)) else let r := fgets1 n rem chunks in (c :: r.1, r.2) in
    let f := if eol c then ([c], rem ++ concat chunks) else let r := cl_fgets n (rem ++ concat chunks) in (c :: r.1, r.2) in
    r.1 = f.1 ∧ r.2.1 ++ concat r.2.2 = f.2 ∧ Forall nonempty r.2.2) as Hnext.
  { intros c rem' chunks' Hc'. destruct (eol c); [done|]. cbn. destruct (IH rem' chunks' Hc') as (E1 & E2 & E3).
    split_and!; [by rewrite E1|done|done]. }
  destruct rem as [|c rem]; [|by apply Hnext]. destruct Hc as [|ch chunks Hne Hc]; [done|].
  destruct ch as [|c ch]; [done|]. by apply Hnext.
Qed.
Lemma cl_fgets_cut n inp : (cl_fgets n inp).1 ++ (cl_fgets n inp).2 = inp ∧ (length (cl_fgets n inp).1 ≤ n)%nat.
Proof.
  revert inp. induction n as [|n IH]; intros inp; cbn [cl_fgets]; [by split; [|cbn; lia]|].
  destruct inp as [|c inp]; [by split; [|cbn; lia]|]. destruct (eol c); [by split; [|cbn; lia]|].
  destruct (IH inp) as [E L]. cbn. rewrite E. split; [done|lia].
Qed.
Lemma cl_fgets_end n inp c :
  c ∈ (cl_fgets n inp).1 → eol c = true → ∃ l, (cl_fgets n inp).1 = l ++ [c] ∧ Forall (λ d, eol d = false) l.
Proof.
  revert inp. induction n as [|n IH]; intros inp; cbn [cl_fgets]; [by intros ?%elem_of_nil|].
  destruct inp as [|d inp]; [by intros ?%elem_of_nil|]. destruct (eol d) eqn:E.
  - intros ->%list_elem_of_singleton _. by exists [].
  - intros [->|Hin]%elem_of_cons Hc; [congruence|]. destruct (IH inp Hin Hc) as (l & El & Hl). exists (d :: l). cbn.
    split; [by rewrite El|by constructor].
Qed.
Lemma cl_fgets_nil n inp : (cl_fgets (S n) inp).1 = [] → inp = [].
Proof. destruct inp as [|c inp]; [done|]. cbn. by destruct (eol c). Qed.
(** The numbered lines. *)
Fixpoint print_lines (i : Z) (ls : list (list Z)) (k : prog) : prog :=
  match ls with [] => k | l :: ls => Write 1 (cl_line i l) (print_lines (i + 1) ls k) end.
(** A line: at most 127 characters, with an end of line only at its end. *)
Definition cl_line_ok (l : list Z) : Prop :=
  (0 < length l ≤ 127)%nat ∧ ∀ c, c ∈ l → eol c = true → ∃ r, l = r ++ [c] ∧ Forall (λ d, eol d = false) r.

Lemma catlines_loops fuel i rem chunks k :
  Forall nonempty chunks → (length (rem ++ concat chunks) < fuel)%nat →
  ∃ ls, concat ls = rem ++ concat chunks ∧ Forall cl_line_ok ls ∧
    catlines_loop fuel i (rem ++ concat chunks) k = print_lines i ls k ∧ catlines1_loop fuel i rem chunks k = print_lines i ls k.
Proof.
  revert i rem chunks. induction fuel as [|fuel IH]; intros i rem chunks Hc Hf; [lia|]. cbn [catlines_loop catlines1_loop].
  destruct (fgets1_fgets 127 rem chunks Hc) as (E1 & E2 & E3). destruct (cl_fgets_cut 127 (rem ++ concat chunks)) as [Ec El].
  pose proof (cl_fgets_end 127 (rem ++ concat chunks)) as Hend. set (inp := rem ++ concat chunks) in *.
  destruct (length (cl_fgets 127 inp).1 =? 0)%nat eqn:E.
  - apply Nat.eqb_eq, length_zero_iff_nil in E. exists []. pose proof (cl_fgets_nil 126 inp E) as Hi.
    split_and!; [by rewrite Hi|by constructor|done|]. rewrite E1, E. done.
  - apply Nat.eqb_neq in E.
    destruct (IH (i + 1) (fgets1 127 rem chunks).2.1 (fgets1 127 rem chunks).2.2 E3) as (ls & C & O & P1 & P2).
    { rewrite E2. apply (f_equal length) in Ec. rewrite length_app in Ec. lia. }
    rewrite E2 in C, P1. exists ((cl_fgets 127 inp).1 :: ls). split_and!.
    + cbn [concat]. by rewrite C.
    + constructor; [|done]. split; [lia|apply Hend].
    + cbn [print_lines]. by rewrite P1.
    + rewrite E1, (proj2 (Nat.eqb_neq _ _)) by done. cbn [print_lines]. by rewrite P2.
Qed.

(** Catlines1 and catlines2, which read blocks into a buffer kept between
    calls, print exactly what catlines prints, which reads one character at a
    time, whatever sizes the reads return: the file cut into lines of at most
    127 characters, numbered, nothing lost. *)
Theorem catlines1_equiv chunks k :
  Forall nonempty chunks →
  let inp := concat chunks in
  ∃ ls, concat ls = inp ∧ Forall cl_line_ok ls ∧
    catlines_loop (S (length inp)) 0 inp k = print_lines 0 ls k ∧
    catlines1_loop (S (length inp)) 0 [] chunks k = print_lines 0 ls k.
Proof. intros Hc inp. apply (catlines_loops (S (length inp)) 0 [] chunks k Hc). cbn [app]. unfold inp. lia. Qed.
Lemma catlines1_equiv_witness :
  let chunks := [[97; 98]; [10; 99]; [100]] in
  catlines1_loop 6 0 [] chunks (Exit 0) = print_lines 0 [[97; 98; 10]; [99; 100]] (Exit 0) ∧
  ∃ ls, concat ls = concat chunks ∧ Forall cl_line_ok ls ∧
    catlines_loop 6 0 (concat chunks) (Exit 0) = print_lines 0 ls (Exit 0) ∧
    catlines1_loop 6 0 [] chunks (Exit 0) = print_lines 0 ls (Exit 0).
Proof.
  split; [reflexivity|]. apply (catlines1_equiv [[97; 98]; [10; 99]; [100]] (Exit 0)).
  repeat apply Forall_cons_2; try apply Forall_nil_2; done.
Defined.

(** ** wc *)

(** Words start where a character that is not a blank follows a blank or the
    start. *)
Fixpoint word_starts (inword : bool) (l : list Z) : Z :=
  match l with
  | [] => 0
  | c :: l => if among wc_blanks c then word_starts false l
              else (if inword then 0 else 1) + word_starts true l
  end.
Fixpoint newlines (l : list Z) : Z := match l with [] => 0 | c :: l => (if c =? 10 then 1 else 0) + newlines l end.
Lemma wc_chars l s :
  let r := foldl wc_char s l in
  c_l r = c_l s + newlines l ∧ c_w r = c_w s + word_starts (c_inword s) l ∧ c_c r = c_c s + Z.of_nat (length l).
Proof.
  revert s. induction l as [|c l IH]; intros s; cbn [foldl]; [cbn; lia|].
  destruct (IH (wc_char s c)) as (-> & -> & ->). unfold wc_char. cbn [newlines word_starts length].
  destruct (among wc_blanks c), (c_inword s), (c =? 10); cbn; lia.
Qed.
Lemma wc_loop_chunks chunks s : wc_loop chunks s = foldl wc_char s (concat chunks).
Proof. revert s. induction chunks as [|b chunks IH]; intros s; cbn [wc_loop concat]; [done|]. by rewrite IH, foldl_app. Qed.

(** [wc] prints the numbers of newlines, words and characters of the file,
    whatever sizes the reads return. *)
Theorem wc_counts chunks name k :
  let data := concat chunks in
  wc (mk_input chunks false) name k =
  Write 1 (line "%d %d %d %s" [VInt (newlines data); VInt (word_starts false data); VInt (Z.of_nat (length data)); VStr (Some name)]) k.
Proof.
  intros data. unfold wc. cbn [in_fails in_chunks]. rewrite wc_loop_chunks.
  destruct (wc_chars (concat chunks) (mk_counts 0 0 0 false)) as (-> & -> & ->). reflexivity.
Qed.

(** ** leetify *)

(** The four programs are connected in a row; each keeps the ends of the pipes
    that the shell had not closed when it was started. *)
Example leetify_wires :
  (λ x, (hd [] x.1, take 2 x.2)) <$>
    execs (leetify_main [codes "leetify"; codes "in"; codes "out"]) ((Some <$> [Given 0; Given 1; Given 2]) ++ replicate 13 None) [] 0 =
  [(codes "cat", [Some (Given 0); Some (PipeW [])]);
   (codes "tolower", [Some (PipeR []); Some (PipeW [true])]);
   (codes "fnr", [Some (PipeR [true]); Some (PipeW [true; true])]);
   (codes "fnr", [Some (PipeR [true; true]); Some (Named (codes "out") 0x601)])].
Proof. vm_compute. reflexivity. Qed.
